(* ===== verification/_CoqProject ===== *)
-Q . S2P
Prelude.v
Mem.v
Pmm.v
Heap.v
Vmm.v
Boot.v
Procs.v
Sched.v
Sem.v
CString.v
CStdlib.v
CTime.v
CStdio.v
Fs.v
Ramfs.v
RamfsPipe.v
FileOps.v
RamfsWrite.v
RamfsFiles.v
Validate.v
Vfs.v
VfsWalk.v
Disk.v
Ports.v
Ata.v
Fat.v
FatChain.v
FatFile.v
FatDisk.v
FatEntry.v
FatDir.v
FatList.v
Locale.v
Kbd.v
Vga.v
Framebuffer.v
Video.v
Clock.v
Space.v
Elf.v
Create.v
Spawn.v
Interrupts.v
Syscall.v
Mbr.v
Trace.v
Start.v
Mount.v
Wrappers.v
Shell.v
Programs.v
