(* ===== verification/Prelude.v ===== *)
(** * Kerosene: a verification library

    Kerosene is a 32-bit (i686) hobby operating system: a kernel, a C library
    shared by the kernel and user programs, a shell and a few programs.  This
    library models, as executable definitions, the kernel's memory management,
    scheduling, semaphores, file systems, device drivers, program loading, system
    calls and start-up, the C library's algorithms, the shell and echo, and proves
    what they promise.  This file is the root: the common vocabulary (machine
    integers, outcomes, loops, bits, counting) and the map below.

    ** Conventions

    A w-bit integer is a [Z] with its wrap-around written out ([u32], [s32],
    ...).  A C function is a function into [outcome]: [Ret], [Fault] (a pointer
    to nothing is followed, an array left), [Spin] (it waits for something no
    step of its own can bring about: a lock that is taken, a semaphore without
    units) or [NoFuel].  State is passed explicitly; stores of objects are
    [gmap]s from addresses.  Disabling interrupts is not modelled: a function is
    one step, except where it waits.

    Loops are [while], with a budget of 2^32 iterations evaluated by halving:
    counters and addresses are 32 bits wide, so a loop of this code that has not
    ended by then never does.  Every theorem that a function returns a result
    proves the loop ends within it, through [while_loop].  A few older recursive
    definitions carry explicit fuel, computed from the size of what they walk
    (the number of processes in a queue, of regions in a heap) and shown to be
    enough in their lemmas.

    ** The parts, bottom up

    - [Mem]: byte-addressed memory, little-endian words, and the interface
      [PageSource] between the heaps and the managers below them.
    - [Pmm] (kernel/src/mem/pmmngr.c): the frame bitmap.  Allocation is first
      fit (equivalence with the specification), release is its inverse, usage
      counts the set bits.
    - [Heap] (mem/heap.c, kheap.c): regions laid out in memory.  The
      representation relation [heap_rep] ties the bytes to a list of regions;
      allocation and release refine the operations on the list, growth and
      contraction included, with the two ways they go wrong.
    - [Vmm] (mem/vmmngr.c): two-level page tables reached through the recursive
      mapping.  [vmmngr_map] and [vmmngr_unmap] change the translation of one
      page and nothing else.
    - [Procs], [Sched], [Sem] (process/process_queue.c, scheduler.c,
      semaphore.c): the process record, linked queues, the scheduler and
      counting semaphores.  Each operation refines an operation on abstract
      lists; [Sem] closes the system as a step relation and shows that no
      reachable state is stuck.
    - [CString], [CStdlib], [CTime], [CStdio] (libc/src): strings, number
      conversion, the calendar, formatted output and input; also kvprintf of
      kernel/src/kutils.c.
    - [Fs] (include/filesystem.h): nodes, descriptors, iterators, error codes, and
      the interface [Allocator] of the heaps file systems use, with an instance.
    - [Ramfs] (filesystem/ramfs.c): the RAM file system.  [chain] relates linked
      datanodes to the bytes they hold.  [RamfsPipe]: a pipe refines a bounded
      queue of bytes.  [RamfsWrite]: what a write leaves of a chain.
    - [FileOps] (filesystem/node_op.c, file_op.c): operations that dispatch
      through [fs_t], the record of a file system's function pointers, over the
      interface [NodeStore]; the RAM file system is an instance.  [RamfsFiles]:
      reading and writing through both layers.
    - [Validate] (kutils.c): the checks on user pointers.
    - [Vfs] (filesystem/vfs_op.c, vfs.c): the tree of nodes, the walk of a path,
      the system calls on descriptors.  [VfsWalk]: the walk follows the
      resolution of the path's tokens; closing and locks.
    - [Disk]: sectors of a disk, words in a buffer.  [Ata]
      (driver/ata/ata_pio.c): the driver, over [Ports], an interface of the
      machine's ports; [AtaDrive] states what a drive that follows the protocol
      does, with a drive as its instance.
    - [Fat] (filesystem/fat32.c, include/fat_type.h): the volume, its allocation
      table, chains of clusters.  [FatChain]: [chain] relates a chain to a list of
      clusters; what allocating, freeing and cutting do to it.  [FatFile]: reading,
      writing and seeking, against the bytes of the chain.  [FatEntry]: directory
      entries, long and short names, dates.  [FatDir]: directories, the operations
      of the file system and mounting; an instance of [NodeStore].  [FatList]: an
      entry that is added is listed.  [FatDisk]: which accesses to a cluster the
      driver of [Ata] carries out.

    - [Mount] (the end of fat32_init; disk_init of kernel/src/kernel.c): /fs<n> in
      the root file system, and the loop over the partitions.  [Mbr]
      (filesystem/mbr.c): the partition table.
    - [Ports]: the interface of the machine's ports.  [Locale], [Kbd] (locale.c,
      driver/kbd.c, ps2.c): the scancode decoder and the keyboard's commands, over
      the controller's ports.  [Clock] (driver/rtc.c, pit.c, timer.c): the
      real-time clock's registers and the tick.
    - [Vga], [Framebuffer], [Video] (driver/video, misc/psf.c): the text console,
      pixels, lines, circles and glyphs, and the buffer before there is a console.
    - [Space]: user address spaces as an interface ([AddressSpaces]) with its
      laws.  [Elf] (misc/elf.c): the program loader.  [Create]
      (process/process.c): a new process, its stack and its arguments.  [Spawn]:
      scheduler_spawn, which puts these together.
    - [Interrupts] (system/gdt.c, idt.c, isr.c, tss.c, driver/pic.c): the bytes of
      the processor's tables, the interrupt controllers, the handlers.  [Syscall]
      (system/syscall.c): the dispatcher and its table.  [Trace]
      (system/kpanic.c): symbols and back traces.
    - [Boot], [Start] (kernel/src/kernel.c): mem_init, over [Pmm]; the read-only
      pages of the kernel and the screen, over [Vmm]; the sections [Trace] reads.
    - [Wrappers] (libc/src/fcntl, unistd), [Shell] (shell/src/main.c), [Programs]
      (coreutils/echo.c, kernel/src/kproc): the conversions of open and sleep, the
      shell, echo, and the kernel processes behind the standard files.

    How the parts are put together: a client that needs only what another part
    promises is written over a class with laws ([PageSource], [Allocator],
    [NodeStore], [Ports] and [AtaDrive], [AddressSpaces], [Shell.Kernel],
    [Programs.Console]); where the behaviour of both matters the definitions
    themselves are composed: [Sem] and [Sched], [Spawn] with [Elf] and [Create],
    [Boot] and [Start] with [Pmm] and [Vmm], [Mount] with [Vfs], [FatDir], [Mbr]
    and [Ata], [Shell] and [Programs] with [CString] and [CStdlib].

    ** What the theorems show

    Refinement of abstract specifications: heap, scheduler, semaphores, pipes,
    disk accesses, the keyboard (the keys decoded are the keys pressed), the text
    console (what is printed is what stands on a sheet of paper).
    Functional behaviour on every branch: mapping, sleeping, killing, printing,
    tokenising, path resolution, file reads and writes, seeking, cutting a chain
    of clusters, circles against the midpoint specification, lines, glyphs, loading
    a program's segments, a process's stack with its arguments, spawning, the checks on a
    user's strings with the faults they take.  Start-up:
    the free frames are those the memory map offers above the kernel, the kernel's
    text is not writable, every byte of the screen is mapped.  Programs: a command
    line reaches the kernel as its words, echo prints its arguments.  Round trips:
    allocation and release of frames and of clusters, mktime and gmtime, the
    clock's registers and the time, atoi and itoa, printing and scanning, file
    write and read (in the RAM file system), adding and listing a directory entry, dates in an entry.
    Invariants: reachable scheduling states, the bitmap after any calls that give and
    take regions.  Bounds: pipes, user buffers, the arrays numbers are printed through.
    Termination: every result stated with [= Ret].  Behaviour that looks unintended is stated as it is:
    [Heap.heap_alloc_reissues_used_tail], [Heap.heap_free_overcontracts],
    [Vmm.to_physical_addr_other_faults], [FileOps.file_open_truncate_faults],
    [RamfsFiles.file_write_drops_rest], [VfsWalk.vfs_close_leaves_locked],
    [Ata.access_many_hangs], [FatFile.fat32_file_write_crossing],
    [FatFile.fat32_seek_stale_cluster], [Kbd.capslock_acknowledgement_faults],
    [Video.preinit_string_cut], [Syscall.yield_loses_process],
    [Mount.second_partition_hidden], [Shell.long_line_overruns], and the examples
    next to the definitions ([Create.Runs.stale_arguments], [Shell.stale_words],
    [Boot.top_frames_lost], [Create.Runs.billionth], [Elf.Runs.short_read_loaded],
    [Vga.Runs.backspace_lost], [FatList.Runs.estimate_wraps], [Spawn.Runs.spawned_attached]
    and others).  Where a theorem holds of a part of the inputs only, its comment says
    which.

    ** Parameters

    Code outside these files enters as parameters: the page source under a heap,
    the allocators under the file systems (any [Allocator]: fresh addresses, 0
    when full), the environment of the scheduler, the other file systems' function
    pointers, what fresh memory and uninitialised buffers hold, the devices behind
    the machine's ports, the address spaces and files of a program being started,
    which pages a user process has mapped, and the build configuration's constants
    (example.env).  FAT32 reads and writes a disk that carries out every access: the
    code looks at no result of the driver.  With the driver of [Ata] such a disk is one
    whose clusters are single sectors; it never returns from a larger access
    ([FatDisk]).  A local array is a stretch of memory below the caller's data where its
    bound matters ([CStdio]), or a test of its bound ([Create.process_new]).

    ** Not modelled

    kinit and kmain as sequences: they call the initialisers in order and start the
    first processes; the initialisers are here.  The messages printed at start-up, by
    exception handlers and by kernel_panic; of the C library the one-line wrappers
    around the interrupt instruction, and of the assembler files the entry and exit
    sequences: they have no state or branch of their own.  userapp/hi.c, a test
    text.  Fonts and images (access/font.h, my_avt.h), which are data.  The TLB is
    not modelled, nor concurrency inside a function. *)
From stdpp Require Export prelude list gmap.
From Stdlib Require Export ZArith Lia ZifyBool.

#[global] Open Scope Z_scope.

(** ** Machine integers *)

Definition u8 (x : Z) : Z := x mod 2 ^ 8.
Definition u16 (x : Z) : Z := x mod 2 ^ 16.
Definition u32 (x : Z) : Z := x mod 2 ^ 32.
Definition u64 (x : Z) : Z := x mod 2 ^ 64.
Definition s8 (x : Z) : Z := (x + 2 ^ 7) mod 2 ^ 8 - 2 ^ 7.
Definition s32 (x : Z) : Z := (x + 2 ^ 31) mod 2 ^ 32 - 2 ^ 31.
Definition s64 (x : Z) : Z := (x + 2 ^ 63) mod 2 ^ 64 - 2 ^ 63.

Lemma u8_range x : 0 <= u8 x < 256.
Proof. unfold u8. apply Z.mod_pos_bound. lia. Qed.
Lemma u16_range x : 0 <= u16 x < 65536.
Proof. unfold u16. apply Z.mod_pos_bound. lia. Qed.
Lemma u32_range x : 0 <= u32 x < 4294967296.
Proof. unfold u32. apply Z.mod_pos_bound. lia. Qed.
Lemma u64_range x : 0 <= u64 x < 18446744073709551616.
Proof. unfold u64. apply Z.mod_pos_bound. lia. Qed.
Lemma s32_range x : -2147483648 <= s32 x < 2147483648.
Proof. unfold s32. pose proof (Z.mod_pos_bound (x + 2 ^ 31) (2 ^ 32)). lia. Qed.

Lemma u8_small x : 0 <= x < 256 -> u8 x = x.
Proof. intros. unfold u8. apply Z.mod_small. lia. Qed.
Lemma u16_small x : 0 <= x < 65536 -> u16 x = x.
Proof. intros. unfold u16. apply Z.mod_small. lia. Qed.
Lemma u32_small x : 0 <= x < 4294967296 -> u32 x = x.
Proof. intros. unfold u32. apply Z.mod_small. lia. Qed.
Lemma u64_small x : 0 <= x < 18446744073709551616 -> u64 x = x.
Proof. intros. unfold u64. apply Z.mod_small. lia. Qed.
Lemma s32_small x : -2147483648 <= x < 2147483648 -> s32 x = x.
Proof. intros. unfold s32. rewrite Z.mod_small; lia. Qed.

Create HintDb mach.
Create Rewrite HintDb mach.
Create Rewrite HintDb outcome.
#[export] Hint Resolve u8_range u16_range u32_range u64_range s32_range : mach.
#[export] Hint Rewrite u8_small u16_small u32_small u64_small s32_small using lia : mach.

(** [wrap_small] removes every wrap-around whose argument is in range. *)
Ltac wrap_small :=
  repeat match goal with
  | |- context [u8 ?x] => rewrite (u8_small x) by lia
  | |- context [u16 ?x] => rewrite (u16_small x) by lia
  | |- context [u32 ?x] => rewrite (u32_small x) by lia
  | |- context [u64 ?x] => rewrite (u64_small x) by lia
  | |- context [s32 ?x] => rewrite (s32_small x) by lia
  end.

Ltac wrap_small_in H :=
  repeat match type of H with
  | context [u8 ?x] => rewrite (u8_small x) in H by lia
  | context [u16 ?x] => rewrite (u16_small x) in H by lia
  | context [u32 ?x] => rewrite (u32_small x) in H by lia
  | context [u64 ?x] => rewrite (u64_small x) in H by lia
  | context [s32 ?x] => rewrite (s32_small x) in H by lia
  end.

(** ** Booleans as tests

    The code's conditions are boolean tests on integers; [zbool] turns the
    comparisons of a hypothesis or goal into propositions and [case_test]
    splits on the next test of the goal. *)

Ltac zbool :=
  repeat match goal with
  | H : (_ =? _) = true |- _ => apply Z.eqb_eq in H
  | H : (_ =? _) = false |- _ => apply Z.eqb_neq in H
  | H : (_ <? _) = true |- _ => apply Z.ltb_lt in H
  | H : (_ <? _) = false |- _ => apply Z.ltb_ge in H
  | H : (_ <=? _) = true |- _ => apply Z.leb_le in H
  | H : (_ <=? _) = false |- _ => apply Z.leb_gt in H
  | H : negb _ = true |- _ => apply negb_true_iff in H
  | H : negb _ = false |- _ => apply negb_false_iff in H
  | H : _ && _ = true |- _ => apply andb_true_iff in H as [? ?]
  | H : _ || _ = false |- _ => apply orb_false_iff in H as [? ?]
  end.

Ltac case_test :=
  match goal with
  | |- context [if ?b then _ else _] =>
      match type of b with bool => let E := fresh "E" in destruct b eqn:E; zbool end
  end.

Ltac case_test_in H :=
  match type of H with
  | context [if ?b then _ else _] =>
      match type of b with bool => let E := fresh "E" in destruct b eqn:E; zbool end
  end.

(** [clia] also closes a goal outside arithmetic whose hypotheses clash. *)
Ltac clia := solve [lia | exfalso; lia].

(** ** Outcomes

    A C function either returns, faults (a null or wild pointer is followed,
    an array is written past its end), or runs out of the step budget a loop
    was given.  [Spin] is the outcome of waiting for something no step of the
    same function can bring about: a spinlock already held. *)

Inductive outcome (A : Type) : Type :=
  | Ret (a : A)
  | Fault
  | Spin
  | NoFuel.
Arguments Ret {A} a.
Arguments Fault {A}.
Arguments Spin {A}.
Arguments NoFuel {A}.

#[export] Instance outcome_ret : MRet outcome := fun A a => Ret a.
#[export] Instance outcome_bind : MBind outcome := fun A B f o =>
  match o with Ret a => f a | Fault => Fault | Spin => Spin | NoFuel => NoFuel end.

Definition of_option {A} (o : option A) : outcome A :=
  match o with Some a => Ret a | None => Fault end.

Lemma bind_ret {A B} (f : A -> outcome B) a : (Ret a ≫= f) = f a.
Proof. reflexivity. Qed.

Lemma bind_Ret_inv {A B} (f : A -> outcome B) o b :
  (o ≫= f) = Ret b -> exists a, o = Ret a /\ f a = Ret b.
Proof. destruct o; simpl; intros; try discriminate. eauto. Qed.

Lemma of_option_Ret {A} (o : option A) a : of_option o = Ret a <-> o = Some a.
Proof. destruct o; simpl; split; congruence. Qed.

Lemma Ret_pair {A B} (a c : A) (b d : B) : Ret (a, b) = Ret (c, d) -> b = d.
Proof. now intros [= _ ->]. Qed.

#[export] Instance outcome_eq_dec {A} `{EqDecision A} : EqDecision (outcome A).
Proof. solve_decision. Defined.

#[export] Hint Rewrite @bind_ret : outcome.

(** ** Loops

    [loop] runs a C loop for at most [n] iterations: a step goes on with a new
    state ([inl]) or leaves the loop with a result ([inr]).  [while] is the
    loop as the definitions use it, with a budget of 2^32 iterations, computed
    by halving so that it evaluates: no loop of this code that ends takes more,
    the counters and addresses being 32 bits wide. *)

Fixpoint loop {S A : Type} (step : S -> outcome (S + A)) (n : nat) (s : S) : outcome A :=
  match n with
  | O => NoFuel
  | S n' => r ← step s; match r with inl s' => loop step n' s' | inr a => Ret a end
  end.

Lemma loop_S {S A : Type} (step : S -> outcome (S + A)) n s :
  loop step (Datatypes.S n) s = (r ← step s; match r with inl s' => loop step n s' | inr a => Ret a end).
Proof. reflexivity. Qed.

Fixpoint loop_halves {S A : Type} (step : S -> outcome (S + A)) (d : nat) (s : S) : outcome (S + A) :=
  match d with
  | O => step s
  | S d' => r ← loop_halves step d' s; match r with inl s' => loop_halves step d' s' | inr a => Ret (inr a) end
  end.

Definition while {S A : Type} (step : S -> outcome (S + A)) (s : S) : outcome A :=
  r ← loop_halves step 32 s; match r with inl _ => NoFuel | inr a => Ret a end.

Definition loop_rest {S A : Type} (step : S -> outcome (S + A)) (n : nat) (r : outcome (S + A)) : outcome A :=
  r ← r; match r with inl s => loop step n s | inr a => Ret a end.

Lemma loop_halves_spec {S A} (step : S -> outcome (S + A)) d k s :
  loop step (2 ^ d + k) s = loop_rest step k (loop_halves step d s).
Proof.
  revert k s. induction d as [|d IH]; intros k s; [reflexivity|].
  rewrite Nat.pow_succ_r'. replace (2 * 2 ^ d + k)%nat with (2 ^ d + (2 ^ d + k))%nat by lia.
  rewrite IH. unfold loop_rest. cbn [loop_halves].
  destruct (loop_halves step d s) as [[s'|a]| | |]; cbn; try reflexivity. apply IH.
Qed.

Lemma loop_more {S A} (step : S -> outcome (S + A)) n k s :
  loop step n s <> NoFuel -> loop step (n + k) s = loop step n s.
Proof.
  revert s. induction n as [|n IH]; intros s; cbn; [congruence|].
  destruct (step s) as [[s'|a]| | |]; cbn; try reflexivity. apply IH.
Qed.

(** A loop that ends within the budget. *)
Lemma while_loop {S A} (step : S -> outcome (S + A)) (n : nat) s r :
  loop step n s = r -> r <> NoFuel -> Z.of_nat n <= 2 ^ 32 -> while step s = r.
Proof.
  intros E Hr Hn. pose proof (loop_halves_spec step 32 0 s) as H. rewrite Nat.add_0_r in H.
  assert (Hp : Z.of_nat (2 ^ 32) = 2 ^ 32) by (now rewrite Nat2Z.inj_pow).
  pose proof (loop_more step n (2 ^ 32 - n) s) as M. revert Hp H M. generalize (2 ^ 32)%nat. intros b Hp H M.
  replace (n + (b - n))%nat with b in M by lia. rewrite M in H by congruence. subst r.
  unfold while. rewrite H. unfold loop_rest.
  destruct (loop_halves step 32 s) as [[s'|a]| | |]; reflexivity.
Qed.

(** A loop that never ends. *)
Lemma while_never {S A} (step : S -> outcome (S + A)) s :
  (forall n, loop step n s = NoFuel) -> while step s = NoFuel.
Proof.
  intros N. pose proof (loop_halves_spec step 32 0 s) as H. revert H. generalize (2 ^ 32 + 0)%nat. intros k H.
  rewrite N in H. unfold while. revert H. unfold loop_rest.
  destruct (loop_halves step 32 s) as [[s'|a]| | |]; simpl; congruence.
Qed.

(** What holds in every state of a loop that ends. *)
Lemma while_ended {S A} (step : S -> outcome (S + A)) (P : S -> Prop) s a :
  P s -> (forall s s', P s -> step s = Ret (inl s') -> P s') -> while step s = Ret a -> exists s', P s' /\ step s' = Ret (inr a).
Proof.
  intros P0 Step W. assert (E : exists n, loop step n s = Ret a).
  { pose proof (loop_halves_spec step 32 0 s) as H. revert H. generalize (2 ^ 32 + 0)%nat. intros n H. exists n. rewrite H. revert W. unfold while, loop_rest.
    destruct (loop_halves step 32 s) as [[s'|a']| | |]; cbn; congruence. }
  destruct E as [n E]. clear W. revert s P0 E. induction n as [|n IH]; intros s P0 E; [discriminate|]. rewrite loop_S in E.
  destruct (step s) as [[s'|a']| | |] eqn:Es; try discriminate E; cbn in E; [eauto|]. injection E as ->. eauto.
Qed.

(** A loop whose number of iterations is known when it starts. *)
Fixpoint for_range {S : Type} (body : Z -> S -> S) (i : Z) (n : nat) (s : S) : S :=
  match n with O => s | S n' => for_range body (i + 1) n' (body i s) end.

Lemma for_range_app {S} (body : Z -> S -> S) i n k s :
  for_range body i (n + k) s = for_range body (i + Z.of_nat n) k (for_range body i n s).
Proof.
  revert i s. induction n as [|n IH]; intros i s; cbn [for_range Nat.add]; [f_equal; lia|].
  rewrite IH. f_equal. lia.
Qed.

Lemma for_range_last {S} (body : Z -> S -> S) i n s :
  for_range body i (Datatypes.S n) s = body (i + Z.of_nat n) (for_range body i n s).
Proof. replace (Datatypes.S n) with (n + 1)%nat by lia. rewrite for_range_app. reflexivity. Qed.

(** The same when a round can fault. *)
Fixpoint for_each {S : Type} (body : Z -> S -> outcome S) (i : Z) (n : nat) (s : S) : outcome S :=
  match n with O => Ret s | S n' => s ← body i s; for_each body (i + 1) n' s end.

(** What holds from one round to the next holds at the end, and no round fails. *)
Lemma for_each_inv {S} (body : Z -> S -> outcome S) (P : Z -> S -> Prop) i n s :
  P i s -> (forall j s, i <= j < i + Z.of_nat n -> P j s -> exists s', body j s = Ret s' /\ P (j + 1) s') ->
  exists s', for_each body i n s = Ret s' /\ P (i + Z.of_nat n) s'.
Proof.
  revert i s. induction n as [|n IH]; intros i s Hi Step; cbn [for_each].
  - exists s. rewrite Z.add_0_r. auto.
  - destruct (Step i s ltac:(lia) Hi) as (s1 & -> & H1). rewrite bind_ret. destruct (IH (i + 1) s1 H1) as (s' & E & H'); [intros j s2 Hj; apply Step; lia|].
    exists s'. split; [exact E|]. now replace (i + Z.of_nat (Datatypes.S n)) with (i + 1 + Z.of_nat n) by lia.
Qed.

(** ** Bits of a word *)

Lemma testbit_set w n i : 0 <= n -> 0 <= i ->
  Z.testbit (Z.lor w (Z.shiftl 1 n)) i = (n =? i) || Z.testbit w i.
Proof. intros. change (Z.lor w (Z.shiftl 1 n)) with (Z.setbit w n). now rewrite Z.setbit_eqb. Qed.

Lemma testbit_clear w n i : 0 <= n -> 0 <= i ->
  Z.testbit (Z.land w (Z.lnot (Z.shiftl 1 n))) i = Z.testbit w i && negb (n =? i).
Proof.
  intros. rewrite <- Z.ldiff_land. change (Z.ldiff w (Z.shiftl 1 n)) with (Z.clearbit w n).
  now rewrite Z.clearbit_eqb.
Qed.

(** The two ways the code tests a bit: shift right and mask, or mask and
    compare with zero. *)
Lemma shift_mask_testbit w n : 0 <= n -> Z.land (Z.shiftr w n) 1 = Z.b2z (Z.testbit w n).
Proof.
  intros. change 1 with (Z.ones 1). rewrite Z.land_ones by lia. rewrite Z.testbit_spec' by lia.
  now rewrite Z.shiftr_div_pow2 by lia.
Qed.

Lemma mask_testbit w n : 0 <= n -> (Z.land w (Z.shiftl 1 n) =? 0) = negb (Z.testbit w n).
Proof.
  intros Hn. destruct (Z.testbit w n) eqn:E; simpl.
  - apply Z.eqb_neq. intros H. apply (f_equal (fun z => Z.testbit z n)) in H.
    rewrite Z.land_spec, E, Z.bits_0, Z.shiftl_spec, Z.sub_diag in H by lia. discriminate.
  - apply Z.eqb_eq. apply Z.bits_inj'. intros i Hi.
    rewrite Z.land_spec, Z.bits_0, Z.shiftl_spec by lia.
    destruct (decide (i = n)) as [->|Hne]; [now rewrite E|].
    destruct (decide (i < n)); [rewrite (Z.testbit_neg_r 1 (i - n)) by lia; apply andb_false_r|].
    rewrite (Z.bits_above_log2 1 (i - n)); [apply andb_false_r|lia|change (Z.log2 1) with 0; lia].
Qed.

(** A nonnegative integer whose bits from [n] on are clear is below [2^n]. *)
Lemma bits_bound w n : 0 <= n -> 0 <= w -> (forall i, n <= i -> Z.testbit w i = false) -> w < 2 ^ n.
Proof.
  intros Hn Hw H. destruct (decide (w = 0)) as [->|]; [apply Z.pow_pos_nonneg; lia|].
  apply Z.log2_lt_pow2; [lia|]. destruct (Z_lt_le_dec (Z.log2 w) n) as [|L]; [assumption|].
  specialize (H (Z.log2 w) L). rewrite Z.bit_log2 in H by lia. discriminate.
Qed.

Lemma bits_high w n i : 0 <= w < 2 ^ n -> n <= i -> Z.testbit w i = false.
Proof.
  intros [? ?] ?. destruct (decide (w = 0)) as [->|]; [apply Z.bits_0|].
  apply Z.bits_above_log2; [lia|]. apply Z.lt_le_trans with n; [|lia].
  apply Z.log2_lt_pow2; lia.
Qed.

Lemma lor_bound w v n : 0 <= n -> 0 <= w < 2 ^ n -> 0 <= v < 2 ^ n -> 0 <= Z.lor w v < 2 ^ n.
Proof.
  intros Hn Hw Hv. split; [apply Z.lor_nonneg; lia|].
  apply bits_bound; [lia|apply Z.lor_nonneg; lia|].
  intros i Hi. rewrite Z.lor_spec, (bits_high w n i), (bits_high v n i); auto.
Qed.

Lemma land_bound w v n : 0 <= n -> 0 <= w < 2 ^ n -> 0 <= Z.land w v < 2 ^ n.
Proof.
  intros Hn Hw. split; [apply Z.land_nonneg; lia|].
  apply bits_bound; [lia|apply Z.land_nonneg; lia|].
  intros i Hi. rewrite Z.land_spec, (bits_high w n i); auto.
Qed.

(** Putting a word above another. *)
Lemma lor_shiftl a b n : 0 <= n -> 0 <= a < 2 ^ n -> Z.lor a (Z.shiftl b n) = a + 2 ^ n * b.
Proof.
  intros Hn Ha. pose proof (Z.add_lor_land a (Z.shiftl b n)) as E.
  replace (Z.land a (Z.shiftl b n)) with 0 in E; [rewrite Z.shiftl_mul_pow2 in E |- * by lia; lia|].
  symmetry. apply Z.bits_inj'. intros i Hi. rewrite Z.land_spec, Z.bits_0, Z.shiftl_spec by lia.
  destruct (Z_lt_le_dec i n); [rewrite (Z.testbit_neg_r b) by lia; apply andb_false_r|].
  now rewrite (bits_high a n i).
Qed.

(** ** Counting below a bound *)

Fixpoint count_below (f : Z -> bool) (n : nat) : Z :=
  match n with
  | O => 0
  | S n' => count_below f n' + Z.b2z (f (Z.of_nat n'))
  end.

Lemma count_below_ext f g n : (forall i, 0 <= i < Z.of_nat n -> f i = g i) ->
  count_below f n = count_below g n.
Proof.
  induction n as [|n IH]; intros H; simpl; [reflexivity|].
  rewrite (H (Z.of_nat n)) by lia. rewrite IH; [reflexivity|]. intros. apply H. lia.
Qed.

Lemma count_below_bounds f n : 0 <= count_below f n <= Z.of_nat n.
Proof. induction n; simpl; [lia|]. destruct (f (Z.of_nat n)); simpl; lia. Qed.

(** Changing the predicate at one index below the bound moves the count by
    the difference of the two bits. *)
Lemma count_below_change f g k n : 0 <= k < Z.of_nat n ->
  (forall i, 0 <= i -> i <> k -> f i = g i) ->
  count_below g n = count_below f n - Z.b2z (f k) + Z.b2z (g k).
Proof.
  induction n as [|n IH]; intros Hk H; [lia|]. simpl.
  destruct (decide (k = Z.of_nat n)) as [->|].
  - rewrite (count_below_ext g f) by (intros; symmetry; apply H; lia). lia.
  - rewrite IH by (auto with lia). rewrite (H (Z.of_nat n)) by lia. lia.
Qed.

Lemma count_below_all f n : (forall i, 0 <= i < Z.of_nat n -> f i = true) <-> count_below f n = Z.of_nat n.
Proof.
  split.
  - induction n as [|n IH]; intros H; simpl; [reflexivity|].
    rewrite IH by (intros; apply H; lia). rewrite (H (Z.of_nat n)) by lia. simpl Z.b2z. lia.
  - induction n as [|n IH]; simpl; intros H i Hi; [lia|].
    pose proof (count_below_bounds f n).
    destruct (f (Z.of_nat n)) eqn:E; simpl in H; [|lia].
    destruct (decide (i = Z.of_nat n)) as [->|]; [assumption|]. apply IH; lia.
Qed.

(** A decidable property of every index below a bound, by evaluation. *)
Lemma forall_below (n : Z) (Q : Z -> Prop) `{forall k, Decision (Q k)} :
  bool_decide (Forall Q (seqZ 0 n)) = true -> forall k, 0 <= k < n -> Q k.
Proof.
  intros F%bool_decide_eq_true k Hk. rewrite Forall_forall in F. apply F. rewrite elem_of_seqZ. lia.
Qed.

(** [by_eval] closes a goal that evaluates: a decidable proposition or an
    equation between computable values. *)
Ltac by_eval := cbv zeta; solve [apply (bool_decide_unpack _); vm_compute; exact I | vm_compute; reflexivity].
