(* ===== verification/Mem.v ===== *)
(** * Byte-addressed memory

    The flat memory the heap and the string functions write: a map from
    addresses to bytes, an address never written reading 0.  Words are stored
    little-endian, as the target (i686) does.  The page source at the end is
    the interface between the heaps and the two memory managers below them. *)
From S2P Require Import Prelude.

Abbreviation mem := (gmap Z Z).

Definition load8 (m : mem) (a : Z) : Z := u8 (default 0 (m !! a)).
Definition store8 (m : mem) (a v : Z) : mem := <[a := u8 v]> m.

Definition load32 (m : mem) (a : Z) : Z :=
  load8 m a + 2 ^ 8 * load8 m (a + 1) + 2 ^ 16 * load8 m (a + 2) + 2 ^ 24 * load8 m (a + 3).

Definition store32 (m : mem) (a v : Z) : mem :=
  store8 (store8 (store8 (store8 m a v) (a + 1) (v / 2 ^ 8)) (a + 2) (v / 2 ^ 16)) (a + 3) (v / 2 ^ 24).

Definition load16 (m : mem) (a : Z) : Z := load8 m a + 2 ^ 8 * load8 m (a + 1).
Definition store16 (m : mem) (a v : Z) : mem := store8 (store8 m a v) (a + 1) (v / 2 ^ 8).

Lemma load8_range m a : 0 <= load8 m a < 256.
Proof. apply u8_range. Qed.

Lemma load32_range m a : 0 <= load32 m a < 4294967296.
Proof.
  unfold load32. pose proof (load8_range m a). pose proof (load8_range m (a + 1)).
  pose proof (load8_range m (a + 2)). pose proof (load8_range m (a + 3)). lia.
Qed.

Lemma load8_store8 m a b v : load8 (store8 m a v) b = if a =? b then u8 v else load8 m b.
Proof.
  unfold load8, store8. destruct (Z.eqb_spec a b) as [->|].
  - rewrite lookup_insert_eq. simpl. apply u8_small, u8_range.
  - now rewrite lookup_insert_ne.
Qed.

Lemma load8_store16 m a b v : load8 (store16 m a v) b = if a =? b then u8 v else if a + 1 =? b then u8 (v / 2 ^ 8) else load8 m b.
Proof.
  unfold store16. rewrite !load8_store8. destruct (Z.eqb_spec (a + 1) b), (Z.eqb_spec a b); try lia; reflexivity.
Qed.

Lemma load8_store32_ne m a b v : b < a \/ a + 4 <= b -> load8 (store32 m a v) b = load8 m b.
Proof.
  intros. unfold store32. rewrite !load8_store8.
  repeat match goal with |- context [?x =? ?y] => replace (x =? y) with false by lia end. reflexivity.
Qed.

Lemma load32_store32_ne m a b v : b + 4 <= a \/ a + 4 <= b -> load32 (store32 m a v) b = load32 m b.
Proof. intros. unfold load32. rewrite !load8_store32_ne by lia. reflexivity. Qed.

Lemma byte_split v : u32 v = u8 v + 2 ^ 8 * u8 (v / 2 ^ 8) + 2 ^ 16 * u8 (v / 2 ^ 16) + 2 ^ 24 * u8 (v / 2 ^ 24).
Proof.
  unfold u32, u8.
  replace (v / 2 ^ 16) with (v / 2 ^ 8 / 2 ^ 8) by (rewrite Z.div_div; [reflexivity|lia|lia]).
  replace (v / 2 ^ 24) with (v / 2 ^ 8 / 2 ^ 8 / 2 ^ 8) by (rewrite !Z.div_div; [reflexivity|lia|lia|lia|lia]).
  change (2 ^ 32) with (2 ^ 8 * (2 ^ 8 * (2 ^ 8 * 2 ^ 8))).
  rewrite !Z.rem_mul_r by lia. lia.
Qed.

Lemma load32_store32 m a v : load32 (store32 m a v) a = u32 v.
Proof.
  rewrite byte_split. unfold load32, store32. rewrite !load8_store8.
  rewrite !Z.eqb_refl.
  repeat match goal with |- context [?x =? ?y] => replace (x =? y) with false by lia end. reflexivity.
Qed.

Lemma load16_store16 m a v : load16 (store16 m a v) a = u16 v.
Proof.
  unfold load16. rewrite !load8_store16, Z.eqb_refl, Z.eqb_refl. replace (a =? a + 1) with false by lia.
  unfold u8, u16. change (2 ^ 16) with (2 ^ 8 * 2 ^ 8). rewrite Z.rem_mul_r by lia. lia.
Qed.

Lemma load16_store16_ne m a b v : b + 2 <= a \/ a + 2 <= b -> load16 (store16 m a v) b = load16 m b.
Proof.
  intros. unfold load16. rewrite !load8_store16.
  repeat match goal with |- context [?x =? ?y] => replace (x =? y) with false by lia end. reflexivity.
Qed.

(** [mem_step] simplifies a load after stores at addresses it can compare. *)
Ltac mem_step :=
  repeat first
    [ rewrite load32_store32
    | rewrite load32_store32_ne by lia
    | rewrite load8_store32_ne by lia ].

(** ** The page source of a heap

    What a heap asks of the layers below: contiguous physical frames, mapping
    them at a virtual address of the current page directory, and giving them
    back. *)
Class PageSource (P : Type) := {
  ps_alloc_multi : P -> Z -> Z * P;            (** pmmngr_alloc_multi_block *)
  ps_map : P -> Z -> Z -> Z -> P;              (** vmmngr_map(NULL, phys, virt, flags) *)
  ps_to_physical : P -> Z -> Z;                (** vmmngr_to_physical_addr(NULL, virt) *)
  ps_unmap : P -> Z -> P;                      (** vmmngr_unmap(NULL, virt) *)
  ps_free : P -> Z -> P;                       (** pmmngr_free_block *)
}.
