(* ===== verification/Pmm.v ===== *)
(** * The physical memory manager (kernel/src/mem/pmmngr.c)

    A bitmap of 4 KiB frames, one bit per frame (1 = in use), with the number
    of used frames and the total.  The three static variables of the file are
    the record [pmm]; every function of the file is a definition here.  An
    index past the end of the bitmap is undefined behaviour in C; here the
    read gives 0 and the write is lost, and every theorem below bounds the
    frames it speaks of. *)
From S2P Require Import Prelude.

(** mem.h and pmmngr.c constants *)
Definition MMNGR_PAGE_SIZE : Z := 4096.
Definition BITMAP_WORDS : nat := Z.to_nat 24576.

Record pmm := Pmm {
  bitmap : list Z;
  used_block : Z;
  total_block : Z;
}.

Definition bm_word (m : pmm) (i : Z) : Z := default 0 (bitmap m !! Z.to_nat i).
Definition bm_write (m : pmm) (i v : Z) : pmm :=
  Pmm (<[Z.to_nat i := v]> (bitmap m)) (used_block m) (total_block m).
Definition set_used (m : pmm) (n : Z) : pmm := Pmm (bitmap m) n (total_block m).

(** ** Bit operations *)

Definition set_bit (m : pmm) (bit : Z) : pmm :=
  bm_write m (bit / 32) (Z.lor (bm_word m (bit / 32)) (u32 (Z.shiftl 1 (bit mod 32)))).

Definition unset_bit (m : pmm) (bit : Z) : pmm :=
  bm_write m (bit / 32)
    (Z.land (bm_word m (bit / 32)) (Z.lnot (u32 (Z.shiftl 1 (bit mod 32))))).

Definition test_bit (m : pmm) (bit : Z) : bool :=
  negb (Z.land (Z.shiftr (bm_word m (bit / 32)) (bit mod 32)) 1 =? 0).

(** ** Searching for free frames *)

(** The inner loop of [find_first_free_block] on word [w] of chunk [i], from
    bit [j] on with [n] iterations left: [Some r] when the function returns
    [r] from inside the loop. *)
Fixpoint scan_chunk (total w i j : Z) (n : nat) : option Z :=
  match n with
  | O => None
  | S n' =>
      let bit_index := i * 32 + j in
      if total <=? bit_index then Some (-1)
      else if Z.land w (u32 (Z.shiftl 1 j)) =? 0 then Some bit_index
      else scan_chunk total w i (j + 1) n'
  end.

Fixpoint scan_chunks (m : pmm) (i : Z) (n : nat) : Z :=
  match n with
  | O => -1
  | S n' =>
      if bm_word m i =? 0xffffffff then scan_chunks m (i + 1) n'
      else match scan_chunk (total_block m) (bm_word m i) i 0 32 with
           | Some r => r
           | None => scan_chunks m (i + 1) n'
           end
  end.

Definition num_chunks (m : pmm) : Z := (total_block m + 31) / 32.

Definition find_first_free_block (m : pmm) : Z := scan_chunks m 0 (Z.to_nat (num_chunks m)).

(** The loop [for(; k < frame_cnt; k++) if(test_bit(i + k)) break;]: the value
    of [k] when it stops. *)
Fixpoint run_end (m : pmm) (i k : Z) (n : nat) : Z :=
  match n with
  | O => k
  | S n' => if test_bit m (i + k) then k else run_end m i (k + 1) n'
  end.

Fixpoint scan_runs (m : pmm) (frame_cnt i : Z) (fuel : nat) : Z :=
  match fuel with
  | O => -1
  | S f =>
      if total_block m - frame_cnt <? i then -1
      else if test_bit m i then scan_runs m frame_cnt (i + 1) f
      else
        let k := run_end m i 1 (Z.to_nat (frame_cnt - 1)) in
        if k =? frame_cnt then i else scan_runs m frame_cnt (i + k + 1) f
  end.

Definition find_first_free (m : pmm) (frame_cnt : Z) : Z :=
  if frame_cnt =? 0 then -1
  else if frame_cnt =? 1 then find_first_free_block m
  else if total_block m <? frame_cnt then -1
  else scan_runs m frame_cnt 0 (Z.to_nat (total_block m + 1)).

(** ** Usage accounting *)

(** The inner loop of [pmmngr_update_usage]: the number of set bits it adds. *)
Fixpoint count_chunk (total w i j : Z) (n : nat) : Z :=
  match n with
  | O => 0
  | S n' =>
      let bit_index := i * 32 + j in
      if total <=? bit_index then 0
      else (if Z.land w (u32 (Z.shiftl 1 j)) =? 0 then 0 else 1)
           + count_chunk total w i (j + 1) n'
  end.

Definition bits_in_this_chunk (m : pmm) (i : Z) : Z :=
  if i =? num_chunks m - 1
  then (if total_block m mod 32 =? 0 then 32 else total_block m mod 32)
  else 32.

Fixpoint count_chunks (m : pmm) (i : Z) (n : nat) (used : Z) : Z :=
  match n with
  | O => used
  | S n' =>
      if (bm_word m i =? 0xffffffff) && (bits_in_this_chunk m i =? 32)
      then count_chunks m (i + 1) n' (used + 32)
      else count_chunks m (i + 1) n' (used + count_chunk (total_block m) (bm_word m i) i 0 32)
  end.

Definition pmmngr_update_usage (m : pmm) : pmm :=
  set_used m (count_chunks m 0 (Z.to_nat (num_chunks m)) 0).

Definition pmmngr_get_size (m : pmm) : Z := u32 (total_block m * MMNGR_PAGE_SIZE).
Definition pmmngr_get_used_size (m : pmm) : Z := u32 (used_block m * MMNGR_PAGE_SIZE).
Definition pmmngr_get_free_size (m : pmm) : Z :=
  u32 ((total_block m - used_block m) * MMNGR_PAGE_SIZE).

(** ** Region initialisation *)

Fixpoint unset_range (m : pmm) (start : Z) (block : nat) : pmm :=
  match block with
  | O => m
  | S b => unset_range (unset_bit m start) (start + 1) b
  end.

Fixpoint set_range (m : pmm) (start : Z) (block : nat) : pmm :=
  match block with
  | O => m
  | S b => set_range (set_bit m start) (start + 1) b
  end.

Definition pmmngr_init_region (m : pmm) (base size : Z) : pmm :=
  set_bit (unset_range m (base / MMNGR_PAGE_SIZE) (Z.to_nat (size / MMNGR_PAGE_SIZE))) 0.

Definition pmmngr_deinit_region (m : pmm) (base size : Z) : pmm :=
  set_range m (base / MMNGR_PAGE_SIZE) (Z.to_nat (size / MMNGR_PAGE_SIZE)).

(** ** Allocation *)

Definition pmmngr_alloc_block (m : pmm) : Z * pmm :=
  if total_block m =? used_block m then (0, m)
  else
    let frame := find_first_free_block m in
    if frame =? -1 then (0, m)
    else (u32 (frame * MMNGR_PAGE_SIZE), set_used (set_bit m frame) (u32 (used_block m + 1))).

Definition pmmngr_alloc_multi_block (m : pmm) (cnt : Z) : Z * pmm :=
  if total_block m <? u32 (used_block m + cnt) then (0, m)
  else
    let frame := find_first_free m cnt in
    if frame =? -1 then (0, m)
    else (u32 (frame * MMNGR_PAGE_SIZE),
          set_used (set_range m frame (Z.to_nat cnt)) (u32 (used_block m + cnt))).

Definition pmmngr_free_block (m : pmm) (addr : Z) : pmm :=
  let frame := addr / MMNGR_PAGE_SIZE in
  if frame =? 0 then m
  else if test_bit m frame
  then set_used (unset_bit m frame) (u32 (used_block m - 1))
  else m.

Fixpoint free_range (m : pmm) (frame : Z) (n : nat) : pmm :=
  match n with
  | O => m
  | S n' =>
      if total_block m <=? frame then m
      else
        let m' := if test_bit m frame
                  then set_used (unset_bit m frame) (u32 (used_block m - 1))
                  else m in
        free_range m' (frame + 1) n'
  end.

Definition pmmngr_free_multi_block (m : pmm) (addr cnt : Z) : pmm :=
  let frame := addr / MMNGR_PAGE_SIZE in
  if frame =? 0 then m else free_range m frame (Z.to_nat cnt).

Definition pmmngr_init (size : Z) : pmm :=
  let total := size / MMNGR_PAGE_SIZE in
  Pmm (replicate BITMAP_WORDS 0xffffffff) total total.

(** ** The bitmap as a set of frames *)

Definition max_frame : Z := 786432.

Definition words_ok (m : pmm) : Prop :=
  length (bitmap m) = BITMAP_WORDS /\ Forall (fun w => 0 <= w < 2 ^ 32) (bitmap m).

(** Well-formedness: the bitmap has its length and 32-bit words, RAM is within
    the 3 GiB the bitmap covers, [used_block] counts the set bits, and frame 0
    is reserved (its address is the failure value). *)
Record pmm_wf (m : pmm) : Prop := {
  wf_words : words_ok m;
  wf_total : 0 <= total_block m <= max_frame;
  wf_used : used_block m = count_below (test_bit m) (Z.to_nat (total_block m));
  wf_zero : test_bit m 0 = true;
}.

Lemma shl_small j : 0 <= j < 32 -> u32 (Z.shiftl 1 j) = Z.shiftl 1 j.
Proof.
  intros. apply u32_small. rewrite Z.shiftl_1_l.
  pose proof (Z.pow_pos_nonneg 2 j). pose proof (Z.pow_le_mono_r 2 j 31). lia.
Qed.

Lemma test_bit_eq m b : 0 <= b -> test_bit m b = Z.testbit (bm_word m (b / 32)) (b mod 32).
Proof.
  intros. unfold test_bit. rewrite shift_mask_testbit by (apply Z.mod_pos_bound; lia).
  now destruct (Z.testbit _ _).
Qed.

Lemma bm_word_write m i v j : 0 <= i < 24576 -> 0 <= j -> length (bitmap m) = BITMAP_WORDS ->
  bm_word (bm_write m i v) j = if i =? j then v else bm_word m j.
Proof.
  intros Hi Hj Hl. unfold bm_word, bm_write; simpl. destruct (i =? j) eqn:E; zbool.
  - subst. rewrite list_lookup_insert_eq; [reflexivity|]. rewrite Hl. unfold BITMAP_WORDS. lia.
  - rewrite list_lookup_insert_ne by lia. reflexivity.
Qed.

Lemma frame_word b : 0 <= b < max_frame -> 0 <= b / 32 < 24576 /\ 0 <= b mod 32 < 32.
Proof. unfold max_frame. intros. split; [|apply Z.mod_pos_bound; lia]. split; [apply Z.div_pos; lia|]. apply Z.div_lt_upper_bound; lia. Qed.

Lemma same_bit b i : (b / 32 =? i / 32) && (b mod 32 =? i mod 32) = (b =? i).
Proof.
  destruct (b =? i) eqn:E; zbool.
  - subst. now rewrite !Z.eqb_refl.
  - destruct (b / 32 =? i / 32) eqn:E1; simpl; [|reflexivity]. zbool. apply Z.eqb_neq.
    pose proof (Z.div_mod b 32). pose proof (Z.div_mod i 32). lia.
Qed.

Lemma test_set_bit m b i : words_ok m -> 0 <= b < max_frame -> 0 <= i ->
  test_bit (set_bit m b) i = (b =? i) || test_bit m i.
Proof.
  intros [Hl _] Hb Hi. destruct (frame_word b Hb). unfold set_bit.
  rewrite !test_bit_eq, bm_word_write, shl_small by (auto; apply Z.div_pos; lia).
  destruct (b / 32 =? i / 32) eqn:E.
  - rewrite testbit_set by (auto using Z.mod_pos_bound with lia; apply Z.mod_pos_bound; lia).
    zbool. rewrite E. f_equal. rewrite <- (same_bit b i), E, Z.eqb_refl. reflexivity.
  - rewrite <- (same_bit b i), E. reflexivity.
Qed.

Lemma test_unset_bit m b i : words_ok m -> 0 <= b < max_frame -> 0 <= i ->
  test_bit (unset_bit m b) i = test_bit m i && negb (b =? i).
Proof.
  intros [Hl _] Hb Hi. destruct (frame_word b Hb). unfold unset_bit.
  rewrite !test_bit_eq, bm_word_write, shl_small by (auto; apply Z.div_pos; lia).
  destruct (b / 32 =? i / 32) eqn:E.
  - rewrite testbit_clear by (auto using Z.mod_pos_bound with lia; apply Z.mod_pos_bound; lia).
    zbool. rewrite E. f_equal. f_equal. rewrite <- (same_bit b i), E, Z.eqb_refl. reflexivity.
  - rewrite <- (same_bit b i), E. simpl. now rewrite andb_true_r.
Qed.

Lemma bm_word_bound m i : words_ok m -> 0 <= bm_word m i < 2 ^ 32.
Proof.
  intros [_ F]. unfold bm_word. destruct (bitmap m !! Z.to_nat i) eqn:E; simpl; [|lia].
  rewrite Forall_lookup in F. eauto.
Qed.

Lemma words_ok_write m i v : words_ok m -> 0 <= v < 2 ^ 32 -> words_ok (bm_write m i v).
Proof.
  intros [Hl F] Hv. split; simpl; [now rewrite length_insert|]. now apply Forall_insert.
Qed.

Lemma words_ok_set m b : words_ok m -> words_ok (set_bit m b).
Proof.
  intros H. apply words_ok_write; [assumption|]. apply lor_bound; [lia|now apply bm_word_bound|].
  apply u32_range.
Qed.

Lemma words_ok_unset m b : words_ok m -> words_ok (unset_bit m b).
Proof.
  intros H. apply words_ok_write; [assumption|]. apply land_bound; [lia|now apply bm_word_bound].
Qed.

Create HintDb pmm.
#[export] Hint Resolve words_ok_set words_ok_unset : pmm.

Lemma set_range_props m start n : words_ok m -> 0 <= start -> start + Z.of_nat n <= max_frame ->
  words_ok (set_range m start n) /\
  used_block (set_range m start n) = used_block m /\
  total_block (set_range m start n) = total_block m /\
  forall i, 0 <= i ->
    test_bit (set_range m start n) i = ((start <=? i) && (i <? start + Z.of_nat n)) || test_bit m i.
Proof.
  revert m start. induction n as [|n IH]; intros m start Hw H0 H1; simpl set_range.
  - repeat split; try apply Hw. intros i Hi. destruct (test_bit m i); lia.
  - destruct (IH (set_bit m start) (start + 1)) as (A & B & C & D); [auto with pmm|lia|lia|].
    rewrite B, C. repeat split; try apply A. intros i Hi. rewrite D by assumption.
    rewrite test_set_bit by (auto; lia). destruct (test_bit m i); [now rewrite !orb_true_r|].
    rewrite !orb_false_r. lia.
Qed.

Lemma unset_range_props m start n : words_ok m -> 0 <= start -> start + Z.of_nat n <= max_frame ->
  words_ok (unset_range m start n) /\
  used_block (unset_range m start n) = used_block m /\
  total_block (unset_range m start n) = total_block m /\
  forall i, 0 <= i ->
    test_bit (unset_range m start n) i =
    test_bit m i && negb ((start <=? i) && (i <? start + Z.of_nat n)).
Proof.
  revert m start. induction n as [|n IH]; intros m start Hw H0 H1; simpl unset_range.
  - repeat split; try apply Hw. intros i Hi. destruct (test_bit m i); lia.
  - destruct (IH (unset_bit m start) (start + 1)) as (A & B & C & D); [auto with pmm|lia|lia|].
    rewrite B, C. repeat split; try apply A. intros i Hi. rewrite D by assumption.
    rewrite test_unset_bit by (auto; lia). destruct (test_bit m i); [|reflexivity]. simpl. lia.
Qed.

(** ** First fit

    The specification of the search: a run of [cnt] free frames inside RAM,
    and the least such run. *)

Definition free_run (m : pmm) (cnt r : Z) : Prop :=
  0 <= r /\ r + cnt <= total_block m /\ forall k, r <= k < r + cnt -> test_bit m k = false.

Definition first_fit (m : pmm) (cnt r : Z) : Prop :=
  (r = -1 /\ forall s, ~ free_run m cnt s) \/
  (free_run m cnt r /\ forall s, s < r -> ~ free_run m cnt s).

(** One free frame at or above [lo]. *)
Definition first_free_from (m : pmm) (lo r : Z) : Prop :=
  (r = -1 /\ forall k, lo <= k < total_block m -> test_bit m k = true) \/
  (lo <= r < total_block m /\ test_bit m r = false /\
   forall k, lo <= k < r -> test_bit m k = true).

Lemma chunk_bit m i j : 0 <= i -> 0 <= j < 32 ->
  (Z.land (bm_word m i) (u32 (Z.shiftl 1 j)) =? 0) = negb (test_bit m (i * 32 + j)).
Proof.
  intros. rewrite shl_small, mask_testbit by lia. rewrite test_bit_eq by lia.
  replace ((i * 32 + j) / 32) with i by (apply (Z.div_unique _ _ _ j); lia).
  replace ((i * 32 + j) mod 32) with j by (apply (Z.mod_unique _ _ i); lia). reflexivity.
Qed.

Lemma scan_chunk_spec m i j n : 0 <= i -> 0 <= j -> j + Z.of_nat n = 32 ->
  match scan_chunk (total_block m) (bm_word m i) i j n with
  | Some r => first_free_from m (i * 32 + j) r
  | None => forall k, i * 32 + j <= k < (i + 1) * 32 -> test_bit m k = true
  end.
Proof.
  revert j. induction n as [|n IH]; intros j Hi Hj Hn; cbn [scan_chunk]; [intros k Hk; clia|].
  case_test; [left; split; [reflexivity|intros; lia]|].
  rewrite chunk_bit by lia. destruct (test_bit m (i * 32 + j)) eqn:T; simpl.
  - specialize (IH (j + 1) Hi ltac:(lia) ltac:(lia)).
    destruct (scan_chunk _ _ _ _ _) as [r|].
    + destruct IH as [[-> H]|(H1 & H2 & H3)]; [left|right].
      * split; [reflexivity|]. intros k Hk. destruct (decide (k = i * 32 + j)) as [->|]; [assumption|].
        apply H. lia.
      * split; [lia|]. split; [assumption|]. intros k Hk.
        destruct (decide (k = i * 32 + j)) as [->|]; [assumption|]. apply H3. lia.
    + intros k Hk. destruct (decide (k = i * 32 + j)) as [->|]; [assumption|]. apply IH. lia.
  - right. split; [lia|]. split; [assumption|]. intros; lia.
Qed.

Lemma full_word m i k : bm_word m i = 0xffffffff -> 0 <= i -> i * 32 <= k < (i + 1) * 32 ->
  test_bit m k = true.
Proof.
  intros H Hi Hk. rewrite test_bit_eq by lia.
  replace (k / 32) with i by (apply (Z.div_unique _ _ _ (k - i * 32)); lia).
  rewrite H. change 0xffffffff with (Z.ones 32). apply Z.ones_spec_low. apply Z.mod_pos_bound. lia.
Qed.

Lemma scan_chunks_spec m i n : 0 <= i -> total_block m <= (i + Z.of_nat n) * 32 ->
  first_free_from m (i * 32) (scan_chunks m i n).
Proof.
  revert i. induction n as [|n IH]; intros i Hi Hn; cbn [scan_chunks].
  - left. split; [reflexivity|]. intros; lia.
  - assert (G : (forall k, i * 32 <= k < (i + 1) * 32 -> test_bit m k = true) ->
                first_free_from m (i * 32) (scan_chunks m (i + 1) n)).
    { intros F. destruct (IH (i + 1)) as [[E H]|(H1 & H2 & H3)]; [lia|lia|left|right].
      - split; [assumption|]. intros k Hk. destruct (decide (k < (i + 1) * 32)); [apply F|apply H]; lia.
      - split; [lia|]. split; [assumption|]. intros k Hk.
        destruct (decide (k < (i + 1) * 32)); [apply F|apply H3]; lia. }
    case_test; [apply G; intros; now apply (full_word m i)|].
    pose proof (scan_chunk_spec m i 0 32 Hi ltac:(lia) ltac:(lia)) as S.
    rewrite Z.add_0_r in S. destruct (scan_chunk _ _ _ _ _); [assumption|]. now apply G.
Qed.

Lemma num_chunks_bound m : 0 <= total_block m -> 0 <= num_chunks m /\ total_block m <= num_chunks m * 32 < total_block m + 32.
Proof. intros. unfold num_chunks. pose proof (Z.div_mod (total_block m + 31) 32 ltac:(lia)). pose proof (Z.mod_pos_bound (total_block m + 31) 32 ltac:(lia)). lia. Qed.

Lemma find_first_free_block_spec m : 0 <= total_block m ->
  first_free_from m 0 (find_first_free_block m).
Proof.
  intros H. destruct (num_chunks_bound m H). apply (scan_chunks_spec m 0); lia.
Qed.

Lemma run_end_spec m i k n : let e := run_end m i k n in
  k <= e <= k + Z.of_nat n /\ (forall x, k <= x < e -> test_bit m (i + x) = false) /\
  (e < k + Z.of_nat n -> test_bit m (i + e) = true).
Proof.
  revert k. induction n as [|n IH]; intros k; cbn [run_end].
  - simpl. repeat split; intros; clia.
  - destruct (test_bit m (i + k)) eqn:T; simpl.
    + repeat split; intros; first [assumption | clia].
    + destruct (IH (k + 1)) as (A & B & C). simpl in *. repeat split; try lia.
      intros x Hx. destruct (decide (x = k)) as [->|]; [assumption|]. apply B. lia.
Qed.

(** The run search never skips a possible start: a start inside a broken run
    would contain the frame that broke it. *)
Lemma scan_runs_spec m cnt i fuel : 1 <= cnt -> 0 <= i ->
  (forall s, s < i -> ~ free_run m cnt s) -> total_block m - i < Z.of_nat fuel ->
  first_fit m cnt (scan_runs m cnt i fuel).
Proof.
  revert i. induction fuel as [|f IH]; intros i Hc Hi Hs Hf; cbn [scan_runs].
  - left. split; [reflexivity|]. intros s (? & ? & ?). apply (Hs s); [lia|]. now split.
  - case_test.
    { left. split; [reflexivity|]. intros s F. apply (Hs s); [|assumption]. destruct F; lia. }
    destruct (test_bit m i) eqn:T.
    { apply IH; try lia. intros s Hlt F. destruct (decide (s < i)); [now apply (Hs s)|].
      destruct F as (_ & _ & F). rewrite (F i) in T by lia. discriminate. }
    destruct (run_end_spec m i 1 (Z.to_nat (cnt - 1))) as (A & B & C). simpl in A, B, C.
    set (k := run_end _ _ _ _) in *.
    case_test.
    + right. split; [|assumption]. repeat split; try lia. intros x Hx.
      destruct (decide (x = i)) as [->|]; [assumption|].
      replace x with (i + (x - i)) by lia. apply B. lia.
    + assert (test_bit m (i + k) = true) as T' by (apply C; lia).
      apply IH; try lia. intros s Hlt F. destruct (decide (s < i)); [now apply (Hs s)|].
      destruct F as (_ & _ & F). rewrite (F (i + k)) in T' by lia. discriminate.
Qed.

(** ** Allocation and release against the specification *)

Lemma find_first_free_first_fit m cnt : 0 <= total_block m -> 1 <= cnt ->
  first_fit m cnt (find_first_free m cnt).
Proof.
  intros Ht Hc. unfold find_first_free.
  case_test; [lia|]. case_test; [subst cnt|case_test].
  - destruct (find_first_free_block_spec m Ht) as [[-> H]|(H1 & H2 & H3)]; [left|right].
    + split; [reflexivity|]. intros s (A & B & C).
      specialize (C s ltac:(lia)). rewrite H in C by lia. discriminate.
    + split.
      * repeat split; try lia. intros k Hk. now replace k with (find_first_free_block m) by lia.
      * intros s Hs (A & B & C). specialize (C s ltac:(lia)). rewrite H3 in C by lia. discriminate.
  - left. split; [reflexivity|]. intros s (A & B & C). lia.
  - apply scan_runs_spec; try lia. intros s Hs (A & _). lia.
Qed.

Lemma first_fit_range m cnt r : first_fit m cnt r -> r <> -1 -> free_run m cnt r.
Proof. intros [[? ?]|[? ?]] ?; [contradiction|assumption]. Qed.

Lemma test_set_used m n : test_bit (set_used m n) = test_bit m.
Proof. reflexivity. Qed.

(** Setting a free run to used raises the count by its length. *)
Lemma count_set_range m start n : words_ok m -> 0 <= start ->
  start + Z.of_nat n <= total_block m -> total_block m <= max_frame ->
  (forall k, start <= k < start + Z.of_nat n -> test_bit m k = false) ->
  count_below (test_bit (set_range m start n)) (Z.to_nat (total_block m)) =
  count_below (test_bit m) (Z.to_nat (total_block m)) + Z.of_nat n.
Proof.
  revert m start. induction n as [|n IH]; intros m start Hw H0 H1 Ht Hf; cbn [set_range]; [lia|].
  change (total_block m) with (total_block (set_bit m start)) at 1.
  assert (B : forall k, 0 <= k -> test_bit (set_bit m start) k = (start =? k) || test_bit m k)
    by (intros; apply test_set_bit; [assumption|unfold max_frame in *; lia|assumption]).
  rewrite IH; auto with pmm; try (simpl; lia).
  - simpl total_block.
    rewrite (count_below_change (test_bit m) _ start) by (try lia; intros; rewrite B by lia; replace (start =? i) with false by lia; reflexivity).
    rewrite B, Z.eqb_refl, Hf by lia. simpl. lia.
  - intros k Hk. rewrite B, Hf by lia. lia.
Qed.

Lemma alloc_run_wf m r cnt : pmm_wf m -> 1 <= cnt -> free_run m cnt r ->
  pmm_wf (set_used (set_range m r (Z.to_nat cnt)) (u32 (used_block m + cnt))) /\
  used_block m + cnt <= total_block m /\
  forall i, 0 <= i -> test_bit (set_range m r (Z.to_nat cnt)) i =
                      ((r <=? i) && (i <? r + cnt)) || test_bit m i.
Proof.
  intros [Hw Ht Hu Hz] Hc (A & B & C).
  destruct (set_range_props m r (Z.to_nat cnt)) as (W & U & T & P); [assumption|lia|unfold max_frame in *; lia|].
  assert (K := count_set_range m r (Z.to_nat cnt) Hw A ltac:(lia) ltac:(lia) ltac:(intros; apply C; lia)).
  pose proof (count_below_bounds (test_bit (set_range m r (Z.to_nat cnt))) (Z.to_nat (total_block m))).
  split; [|split].
  - split; simpl; rewrite ?T; auto.
    + rewrite test_set_used, u32_small; unfold max_frame in *; lia.
    + rewrite test_set_used, P, Hz by lia. apply orb_true_r.
  - lia.
  - intros i Hi. rewrite P by lia. now replace (r + Z.of_nat (Z.to_nat cnt)) with (r + cnt) by lia.
Qed.

Lemma free_frame_wf m frame : pmm_wf m -> 1 <= frame < total_block m ->
  let m' := if test_bit m frame then set_used (unset_bit m frame) (u32 (used_block m - 1)) else m in
  pmm_wf m' /\ total_block m' = total_block m /\
  used_block m' = used_block m - Z.b2z (test_bit m frame) /\
  forall i, 0 <= i -> test_bit m' i = test_bit m i && negb (frame =? i).
Proof.
  intros [Hw Ht Hu Hz] Hf. simpl. unfold max_frame in *.
  assert (B : forall k, 0 <= k -> test_bit (unset_bit m frame) k = test_bit m k && negb (frame =? k))
    by (intros; apply test_unset_bit; [assumption|unfold max_frame; lia|assumption]).
  destruct (test_bit m frame) eqn:T; simpl.
  - assert (C : count_below (test_bit (unset_bit m frame)) (Z.to_nat (total_block m)) = used_block m - 1).
    { rewrite (count_below_change (test_bit m) _ frame), B, T, Z.eqb_refl; simpl; try lia.
      intros i Hi Hn. rewrite B by lia. replace (frame =? i) with false by lia. now rewrite andb_true_r. }
    pose proof (count_below_bounds (test_bit (unset_bit m frame)) (Z.to_nat (total_block m))).
    pose proof (count_below_bounds (test_bit m) (Z.to_nat (total_block m))).
    rewrite u32_small by lia. repeat split; simpl; rewrite ?test_set_used; auto with pmm; try (unfold max_frame; lia);
      try apply words_ok_unset, Hw.
    rewrite B, Hz by lia. simpl. lia.
  - split; [split; auto|]. split; [reflexivity|]. split; [simpl; lia|]. intros i Hi.
    destruct (Z.eqb_spec frame i) as [<-|]; simpl; [now rewrite T|now rewrite andb_true_r].
Qed.

Lemma free_range_wf m frame n : pmm_wf m -> 1 <= frame ->
  pmm_wf (free_range m frame n) /\ total_block (free_range m frame n) = total_block m /\
  forall i, 0 <= i -> test_bit (free_range m frame n) i =
    test_bit m i && negb ((frame <=? i) && (i <? Z.min (frame + Z.of_nat n) (total_block m))).
Proof.
  revert m frame. induction n as [|n IH]; intros m frame Hm Hf; cbn [free_range].
  - repeat split; try apply Hm. intros i Hi. destruct (test_bit m i); lia.
  - case_test; [repeat split; try apply Hm; intros i Hi; destruct (test_bit m i); lia|].
    destruct (free_frame_wf m frame Hm) as (A & B & C & D); [lia|]. simpl in A, B, C, D.
    set (m' := if test_bit m frame then _ else _) in *.
    destruct (IH m' (frame + 1) A) as (W & T & P); [lia|].
    split; [assumption|]. split; [lia|]. intros i Hi. rewrite P, D, B by assumption.
    destruct (test_bit m i); simpl; lia.
Qed.

(** ** [pmmngr_update_usage] counts the set bits *)

Lemma count_below_step f a : 0 <= a ->
  count_below f (Z.to_nat (a + 1)) = count_below f (Z.to_nat a) + Z.b2z (f a).
Proof.
  intros. replace (Z.to_nat (a + 1)) with (S (Z.to_nat a)) by lia. cbn [count_below].
  now rewrite Z2Nat.id by lia.
Qed.

Lemma count_chunk_spec m i j n : 0 <= i -> 0 <= j -> j + Z.of_nat n = 32 -> 0 <= total_block m ->
  count_chunk (total_block m) (bm_word m i) i j n =
  count_below (test_bit m) (Z.to_nat (Z.min ((i + 1) * 32) (total_block m))) -
  count_below (test_bit m) (Z.to_nat (Z.min (i * 32 + j) (total_block m))).
Proof.
  revert j. induction n as [|n IH]; intros j Hi Hj Hn Ht; cbn [count_chunk].
  - replace (i * 32 + j) with ((i + 1) * 32) by lia. lia.
  - case_test; [rewrite !Z.min_r by lia; lia|].
    rewrite IH, chunk_bit by lia. rewrite (Z.min_l (i * 32 + j)) by lia.
    replace (Z.min (i * 32 + (j + 1)) (total_block m)) with (i * 32 + j + 1) by lia.
    rewrite count_below_step by lia. destruct (test_bit m (i * 32 + j)); simpl; lia.
Qed.

Lemma count_full_chunk m i : 0 <= i -> bm_word m i = 0xffffffff ->
  count_below (test_bit m) (Z.to_nat ((i + 1) * 32)) = count_below (test_bit m) (Z.to_nat (i * 32)) + 32.
Proof.
  intros Hi Hw.
  assert (G : forall n : nat, (n <= 32)%nat ->
    count_below (test_bit m) (Z.to_nat (i * 32 + Z.of_nat n)) =
    count_below (test_bit m) (Z.to_nat (i * 32)) + Z.of_nat n).
  { induction n as [|n IH]; intros Hn; [rewrite Z.add_0_r; lia|].
    replace (i * 32 + Z.of_nat (S n)) with (i * 32 + Z.of_nat n + 1) by lia.
    rewrite count_below_step, IH, (full_word m i) by (auto; lia). simpl Z.b2z. lia. }
  specialize (G 32%nat ltac:(lia)). change (Z.of_nat 32) with 32 in G.
  now replace ((i + 1) * 32) with (i * 32 + 32) by lia.
Qed.

Lemma count_chunks_spec m i n used : 0 <= i -> 0 <= total_block m ->
  i + Z.of_nat n = num_chunks m ->
  count_chunks m i n used =
  used + count_below (test_bit m) (Z.to_nat (total_block m)) -
  count_below (test_bit m) (Z.to_nat (Z.min (i * 32) (total_block m))).
Proof.
  intros Hi Ht. destruct (num_chunks_bound m Ht) as [Hc0 Hc1].
  revert i used Hi. induction n as [|n IH]; intros i used Hi Hn; cbn [count_chunks].
  - rewrite Z.min_r by lia. lia.
  - case_test.
    + assert ((i + 1) * 32 <= total_block m).
      { match goal with H : bits_in_this_chunk m i = 32 |- _ => unfold bits_in_this_chunk in H; revert H end.
        destruct (i =? num_chunks m - 1) eqn:L; intros H0; zbool; [|lia].
        revert H0. case_test; [|pose proof (Z.mod_pos_bound (total_block m) 32 ltac:(lia)); lia].
        intros _. pose proof (Z.div_mod (total_block m) 32 ltac:(lia)). lia. }
      rewrite IH by lia. rewrite !Z.min_l by lia. rewrite count_full_chunk by assumption. lia.
    + rewrite IH, count_chunk_spec by lia. rewrite Z.add_0_r. lia.
Qed.

Lemma update_usage_wf m : words_ok m -> 0 <= total_block m <= max_frame -> test_bit m 0 = true ->
  pmm_wf (pmmngr_update_usage m).
Proof.
  intros Hw Ht Hz. unfold pmmngr_update_usage. destruct (num_chunks_bound m) as [? ?]; [lia|].
  split; rewrite ?test_set_used; auto. simpl.
  rewrite count_chunks_spec by lia. rewrite Z.min_l by lia. simpl. lia.
Qed.

Lemma init_words_ok size : words_ok (pmmngr_init size).
Proof. split; [apply length_replicate|]. apply Forall_replicate. lia. Qed.

(** ** Properties *)

(** C9: [pmmngr_alloc_multi_block] is first fit, on every branch.  Either it
    returns 0 and changes nothing, and then the request was for no frame or no
    run of [cnt] free frames exists; or it returns the address of the lowest
    such run, marks exactly that run, and keeps the allocator well formed. *)
Theorem alloc_multi_block_first_fit (m : pmm) (cnt : Z) :
  pmm_wf m -> 0 <= cnt < 2 ^ 32 ->
  let '(addr, m') := pmmngr_alloc_multi_block m cnt in
  (addr = 0 /\ m' = m /\ (cnt = 0 \/ forall r, ~ free_run m cnt r)) \/
  (exists r, addr = r * MMNGR_PAGE_SIZE /\ 1 <= r /\ free_run m cnt r /\
     (forall s, s < r -> ~ free_run m cnt s) /\
     pmm_wf m' /\ used_block m' = used_block m + cnt /\
     forall i, 0 <= i -> test_bit m' i = ((r <=? i) && (i <? r + cnt)) || test_bit m i).
Proof.
  intros Hm Hc. unfold pmmngr_alloc_multi_block.
  destruct (decide (cnt = 0)) as [->|Hne].
  { assert (E : find_first_free m 0 = -1) by reflexivity. rewrite E. case_test; simpl; left; auto. }
  destruct (find_first_free_first_fit m cnt ltac:(apply Hm) ltac:(lia)) as [[E N]|[F L]].
  { rewrite E. case_test; simpl; left; auto. }
  set (r := find_first_free m cnt) in *. assert (1 <= r).
  { destruct F as (A & B & C). destruct (decide (r = 0)) as [Z0|]; [|lia].
    specialize (C 0 ltac:(lia)). rewrite (wf_zero m Hm) in C. discriminate. }
  destruct (alloc_run_wf m r cnt Hm ltac:(lia) F) as (W & U & P).
  pose proof (wf_total m Hm). unfold max_frame in *.
  pose proof (count_below_bounds (test_bit m) (Z.to_nat (total_block m))).
  pose proof (wf_used m Hm). destruct F as (F0 & F1 & F2).
  rewrite u32_small in * by lia.
  case_test; [lia|]. case_test; [lia|].
  right. exists r. unfold MMNGR_PAGE_SIZE. rewrite u32_small by lia. split_and!; auto. now split.
Qed.

(** [pmmngr_alloc_block] returns the lowest free frame and marks it, or
    returns 0 and changes nothing when every frame of RAM is in use. *)
Lemma alloc_block_lowest (m : pmm) :
  pmm_wf m ->
  let '(addr, m') := pmmngr_alloc_block m in
  (addr = 0 /\ m' = m /\ forall k, 0 <= k < total_block m -> test_bit m k = true) \/
  (exists r, addr = r * MMNGR_PAGE_SIZE /\ 1 <= r < total_block m /\ test_bit m r = false /\
     (forall k, 0 <= k < r -> test_bit m k = true) /\
     pmm_wf m' /\ used_block m' = used_block m + 1 /\
     forall i, 0 <= i -> test_bit m' i = (r =? i) || test_bit m i).
Proof.
  intros Hm. unfold pmmngr_alloc_block.
  pose proof (wf_total m Hm). pose proof (wf_used m Hm). unfold max_frame in *.
  case_test.
  { left. split_and!; auto. intros k Hk. revert k Hk.
    assert (G := proj2 (count_below_all (test_bit m) (Z.to_nat (total_block m)))).
    intros. apply G; lia. }
  destruct (find_first_free_block_spec m ltac:(lia)) as [[Er A]|(A & B & C)].
  { rewrite Er. left. auto. }
  set (r := find_first_free_block m) in *. assert (r <> 0).
  { intros Z0. rewrite Z0, (wf_zero m Hm) in B. discriminate. }
  assert (F : free_run m 1 r) by (split_and!; try lia; intros k Hk; now replace k with r by lia).
  destruct (alloc_run_wf m r 1 Hm ltac:(lia) F) as (W & U & P). change (Z.to_nat 1) with 1%nat in *.
  pose proof (count_below_bounds (test_bit m) (Z.to_nat (total_block m))).
  case_test; [lia|]. right. exists r. unfold MMNGR_PAGE_SIZE. rewrite u32_small by lia.
  split_and!; auto; try lia; try apply W.
  - simpl. apply u32_small. lia.
  - intros i Hi. rewrite test_set_used. specialize (P i Hi). cbn [set_range] in P. rewrite P. lia.
Qed.

(** Releasing frames.  [pmmngr_free_multi_block] clears exactly the frames
    of the range that lie inside RAM, keeps [used_block] equal to the number of
    set bits whatever mix of used and free frames it meets, and never releases
    frame 0. *)
Theorem free_multi_block_spec (m : pmm) (addr cnt : Z) :
  pmm_wf m -> 0 <= addr -> 0 <= cnt ->
  let frame := addr / MMNGR_PAGE_SIZE in
  let m' := pmmngr_free_multi_block m addr cnt in
  pmm_wf m' /\ total_block m' = total_block m /\
  forall i, 0 <= i -> test_bit m' i =
    test_bit m i && negb ((1 <=? frame) && (frame <=? i) && (i <? Z.min (frame + cnt) (total_block m))).
Proof.
  intros Hm Ha Hc. unfold pmmngr_free_multi_block.
  set (frame := addr / MMNGR_PAGE_SIZE). simpl.
  assert (0 <= frame) by (apply Z.div_pos; unfold MMNGR_PAGE_SIZE; lia).
  case_test.
  { split_and!; [exact Hm|reflexivity|]. intros i Hi. replace (1 <=? frame) with false by lia.
    now rewrite andb_true_r. }
  destruct (free_range_wf m frame (Z.to_nat cnt) Hm ltac:(lia)) as (A & B & C).
  split_and!; [exact A|exact B|]. intros i Hi. rewrite C by assumption.
  replace (1 <=? frame) with true by lia. now rewrite Z2Nat.id by lia.
Qed.

(** Allocation and release are inverse: releasing what
    [pmmngr_alloc_multi_block] has just returned gives back the same set of
    used frames and the same usage count. *)
Theorem alloc_free_roundtrip (m : pmm) (cnt addr : Z) (m' : pmm) :
  pmm_wf m -> 0 <= cnt < 2 ^ 32 -> pmmngr_alloc_multi_block m cnt = (addr, m') -> addr <> 0 ->
  let m2 := pmmngr_free_multi_block m' addr cnt in
  used_block m2 = used_block m /\ forall i, 0 <= i -> test_bit m2 i = test_bit m i.
Proof.
  intros Hm Hc. unfold pmmngr_alloc_multi_block. case_test; [congruence|]. case_test; [congruence|].
  intros [= <- <-] Hne.
  destruct (decide (cnt = 0)) as [->|]; [match goal with H : find_first_free m 0 <> -1 |- _ => now destruct H end|].
  pose proof (find_first_free_first_fit m cnt ltac:(apply Hm) ltac:(lia)) as F.
  apply first_fit_range in F; [|assumption]. set (r := find_first_free m cnt) in *.
  destruct (alloc_run_wf m r cnt Hm ltac:(lia) F) as (W & U & P).
  destruct F as (F0 & F1 & F2). pose proof (wf_total m Hm). unfold max_frame in *.
  assert (1 <= r).
  { destruct (decide (r = 0)) as [Z0|]; [|lia]. specialize (F2 0 ltac:(lia)).
    rewrite (wf_zero m Hm) in F2. discriminate. }
  unfold pmmngr_free_multi_block, MMNGR_PAGE_SIZE. rewrite (u32_small (r * 4096)) by lia.
  rewrite Z.div_mul by lia. case_test; [lia|].
  set (m1 := set_used _ _) in *.
  destruct (free_range_wf m1 r (Z.to_nat cnt) W ltac:(lia)) as (A & B & C).
  assert (T1 : total_block m1 = total_block m).
  { unfold m1; simpl. now apply (set_range_props m r (Z.to_nat cnt)); [apply Hm| |unfold max_frame; lia]. }
  assert (Q : forall i, 0 <= i -> test_bit (free_range m1 r (Z.to_nat cnt)) i = test_bit m i).
  { intros i Hi. rewrite C, T1 by assumption. unfold m1. rewrite test_set_used, P by assumption.
    destruct ((r <=? i) && (i <? r + cnt)) eqn:R; simpl.
    - rewrite F2 by lia. lia.
    - replace (negb _) with true by lia. now rewrite andb_true_r. }
  split; [|exact Q]. rewrite (wf_used _ A), B, T1, (wf_used m Hm).
  apply count_below_ext. intros. apply Q. lia.
Qed.

Lemma init_region_props p base size : words_ok p -> 0 <= base -> 0 <= size ->
  base / MMNGR_PAGE_SIZE + size / MMNGR_PAGE_SIZE <= max_frame ->
  let p' := pmmngr_init_region p base size in
  words_ok p' /\ total_block p' = total_block p /\
  forall f, 0 <= f -> test_bit p' f =
    (0 =? f) || test_bit p f && negb ((base / MMNGR_PAGE_SIZE <=? f) && (f <? base / MMNGR_PAGE_SIZE + size / MMNGR_PAGE_SIZE)).
Proof.
  intros Hw Hb Hs Hf. unfold pmmngr_init_region. assert (0 <= base / MMNGR_PAGE_SIZE) by (apply Z.div_pos; unfold MMNGR_PAGE_SIZE; lia).
  assert (0 <= size / MMNGR_PAGE_SIZE) by (apply Z.div_pos; unfold MMNGR_PAGE_SIZE; lia).
  destruct (unset_range_props p (base / MMNGR_PAGE_SIZE) (Z.to_nat (size / MMNGR_PAGE_SIZE)) Hw) as (A & B & C & D); [lia|lia|].
  split; [exact (words_ok_set _ 0 A)|]. split; [exact C|]. intros f F. rewrite test_set_bit, D by (auto; unfold max_frame; lia). now rewrite Z2Nat.id by lia.
Qed.

Lemma init_test_bit size f : 0 <= f < max_frame -> test_bit (pmmngr_init size) f = true.
Proof.
  intros H. destruct (frame_word f H) as [A B]. apply (full_word _ (f / 32)); [|lia|pose proof (Z.div_mod f 32); lia].
  unfold bm_word, pmmngr_init. cbn [bitmap]. rewrite lookup_replicate_2 by (unfold BITMAP_WORDS; lia). reflexivity.
Qed.

(** ** Reserving and freeing regions *)

Inductive region_call :=
  | InitRegion (base size : Z)
  | DeinitRegion (base size : Z).
Definition region_base (c : region_call) : Z := match c with InitRegion base _ | DeinitRegion base _ => base end.
Definition region_size (c : region_call) : Z := match c with InitRegion _ size | DeinitRegion _ size => size end.
Definition run_region_call (m : pmm) (c : region_call) : pmm :=
  match c with InitRegion base size => pmmngr_init_region m base size | DeinitRegion base size => pmmngr_deinit_region m base size end.

(** A region below 3 GiB that starts on a page boundary; a frame all of whose bytes are in it. *)
Definition region_ok (c : region_call) : Prop :=
  0 <= region_base c /\ 0 <= region_size c /\ region_base c mod MMNGR_PAGE_SIZE = 0 /\ region_base c + region_size c <= max_frame * MMNGR_PAGE_SIZE.
Definition holds_frame (c : region_call) (f : Z) : Prop :=
  region_base c <= f * MMNGR_PAGE_SIZE /\ (f + 1) * MMNGR_PAGE_SIZE <= region_base c + region_size c.

(** The last call whose region holds the frame is one that frees it. *)
Definition freed_by (calls : list region_call) (f : Z) : Prop :=
  exists before base size after, calls = before ++ InitRegion base size :: after /\ holds_frame (InitRegion base size) f /\
    Forall (fun c => ~ holds_frame c f) after.

Lemma freed_by_snoc calls c f :
  freed_by (calls ++ [c]) f <-> (holds_frame c f /\ (exists base size, c = InitRegion base size)) \/ (~ holds_frame c f /\ freed_by calls f).
Proof.
  split.
  - intros (pre & base & size & post & E & Hf & F). destruct post as [|x post _] using rev_ind.
    + apply app_inj_tail in E as [<- ->]. left. eauto.
    + rewrite app_comm_cons, app_assoc in E. apply app_inj_tail in E as [-> ->]. apply Forall_app in F as [F Fx]. apply Forall_inv in Fx. right. split; [exact Fx|].
      exists pre, base, size, post. auto.
  - intros [[Hc (base & size & ->)]|[Hc (pre & base & size & post & -> & Hf & F)]].
    + exists calls, base, size, []. auto.
    + exists pre, base, size, (post ++ [c]). rewrite <- app_assoc. split; [reflexivity|]. split; [exact Hf|]. apply Forall_app. auto.
Qed.

Lemma holds_frame_pages c f : region_ok c ->
  holds_frame c f <-> region_base c / MMNGR_PAGE_SIZE <= f < region_base c / MMNGR_PAGE_SIZE + region_size c / MMNGR_PAGE_SIZE.
Proof.
  unfold region_ok, holds_frame, MMNGR_PAGE_SIZE. intros (Hb & Hs & Al & _). pose proof (Z.div_mod (region_base c) 4096 ltac:(lia)).
  pose proof (Z.div_mod (region_size c) 4096 ltac:(lia)). pose proof (Z.mod_pos_bound (region_size c) 4096 ltac:(lia)). lia.
Qed.

Lemma region_calls_spec size calls : Forall region_ok calls ->
  let m := fold_left run_region_call calls (pmmngr_init size) in
  words_ok m /\ total_block m = size / MMNGR_PAGE_SIZE /\
  forall f, 0 <= f < max_frame -> test_bit m f = false <-> f <> 0 /\ freed_by calls f.
Proof.
  induction calls as [|c calls IH] using rev_ind; intros F; cbv zeta in *.
  - split; [apply init_words_ok|]. split; [reflexivity|]. intros f Hf. cbn [fold_left]. rewrite init_test_bit by exact Hf. split; [discriminate|].
    intros [_ (pre & ? & ? & ? & E & _)]. now destruct pre.
  - apply Forall_app in F as [F Fc]. apply Forall_inv in Fc. destruct (IH F) as (W & T & B). clear IH. rewrite fold_left_app. cbn [fold_left].
    set (m := fold_left _ calls _) in *. clearbody m. pose proof (fun f => holds_frame_pages c f Fc) as Hp. destruct Fc as (Hb & Hs & Al & End).
    assert (Pg : region_base c / MMNGR_PAGE_SIZE + region_size c / MMNGR_PAGE_SIZE <= max_frame).
    { unfold MMNGR_PAGE_SIZE, max_frame in *. pose proof (Z.div_mod (region_base c) 4096 ltac:(lia)). pose proof (Z.div_mod (region_size c) 4096 ltac:(lia)). pose proof (Z.mod_pos_bound (region_size c) 4096 ltac:(lia)). lia. }
    destruct c as [base sz|base sz]; cbn [region_base region_size run_region_call] in *.
    + destruct (init_region_props m base sz W Hb Hs Pg) as (W' & T' & B'). split; [exact W'|]. split; [congruence|]. intros f Hf. specialize (B f Hf).
      rewrite B', freed_by_snoc, Hp, orb_false_iff, andb_false_iff, negb_false_iff, B by lia. split.
      * intros [N [[_ Fr]|Hh]]; [|split; [lia|left; split; [lia|eauto]]]. split; [lia|].
        destruct (decide (base / MMNGR_PAGE_SIZE <= f < base / MMNGR_PAGE_SIZE + sz / MMNGR_PAGE_SIZE)); [left; eauto|right; auto].
      * intros [N [[Hh _]|[Hh Fr]]]; (split; [lia|]); [right; lia|left; auto].
    + unfold pmmngr_deinit_region. assert (0 <= base / MMNGR_PAGE_SIZE) by (apply Z.div_pos; unfold MMNGR_PAGE_SIZE; lia). assert (0 <= sz / MMNGR_PAGE_SIZE) by (apply Z.div_pos; unfold MMNGR_PAGE_SIZE; lia).
      destruct (set_range_props m (base / MMNGR_PAGE_SIZE) (Z.to_nat (sz / MMNGR_PAGE_SIZE)) W) as (W' & _ & T' & B'); [lia|lia|].
      split; [exact W'|]. split; [congruence|]. intros f Hf. specialize (B f Hf). rewrite B', Z2Nat.id, freed_by_snoc, Hp, orb_false_iff, B by lia. split.
      * intros [N [Nz Fr]]. split; [exact Nz|]. right. split; [lia|exact Fr].
      * intros [N [[_ (? & ? & ?)]|[Hh Fr]]]; [discriminate|]. split; [lia|auto].
Qed.

(** C35: initialisation.  After pmmngr_init for at most 3 GiB, any sequence of
    pmmngr_init_region and pmmngr_deinit_region calls on regions below 3 GiB that start on
    page boundaries, and pmmngr_update_usage, the allocator is well formed and has as many
    frames as the size has whole ones; a frame is free exactly when it is not frame 0 and the
    last call whose region holds all of it was one that frees; and [used_block] is the
    number of set bits among the frames of RAM, the padding bits of the last word not being
    counted.  (Regions above 3 GiB would be marked behind the end of the bitmap.) *)
Theorem update_usage_establishes_wf (size : Z) (calls : list region_call) :
  0 <= size <= max_frame * MMNGR_PAGE_SIZE -> Forall region_ok calls ->
  let m := pmmngr_update_usage (fold_left run_region_call calls (pmmngr_init size)) in
  pmm_wf m /\ total_block m = size / MMNGR_PAGE_SIZE /\ used_block m = count_below (test_bit m) (Z.to_nat (size / MMNGR_PAGE_SIZE)) /\
  forall f, 0 <= f < max_frame -> test_bit m f = false <-> f <> 0 /\ freed_by calls f.
Proof.
  intros Hs F m. destruct (region_calls_spec size calls F) as (W & T & B). cbv zeta in *. set (m0 := fold_left _ calls _) in *.
  assert (Hp : 0 <= size / MMNGR_PAGE_SIZE <= max_frame).
  { split; [apply Z.div_pos; unfold MMNGR_PAGE_SIZE; lia|]. apply Z.div_le_upper_bound; unfold MMNGR_PAGE_SIZE in *; lia. }
  assert (Wf : pmm_wf m) by (apply update_usage_wf; [exact W|lia|apply not_false_iff_true; rewrite (B 0) by (unfold max_frame; lia); tauto]).
  split; [exact Wf|]. split; [exact T|]. split; [rewrite (wf_used _ Wf); do 2 f_equal; exact T|]. exact B.
Qed.

(** ** Witnesses: a machine with 16 frames *)

Definition sample_pmm : pmm := pmmngr_update_usage (pmmngr_init_region (pmmngr_init 65536) 0 65536).

Lemma sample_regions_ok : words_ok (pmmngr_init_region (pmmngr_init 65536) 0 65536).
Proof.
  apply words_ok_set, unset_range_props; [apply init_words_ok|vm_compute; congruence|vm_compute; congruence].
Qed.

Lemma sample_pmm_wf : pmm_wf sample_pmm.
Proof. apply update_usage_wf; [apply sample_regions_ok|vm_compute; split; congruence|vm_compute; reflexivity]. Qed.

Lemma alloc_multi_block_first_fit_witness :
  pmm_wf sample_pmm /\ fst (pmmngr_alloc_multi_block sample_pmm 3) = 4096 /\
  exists r, free_run sample_pmm 3 r.
Proof.
  split; [exact sample_pmm_wf|]. split; [vm_compute; reflexivity|].
  pose proof (alloc_multi_block_first_fit sample_pmm 3 sample_pmm_wf ltac:(lia)) as H.
  assert (E : fst (pmmngr_alloc_multi_block sample_pmm 3) = 4096) by (vm_compute; reflexivity).
  destruct (pmmngr_alloc_multi_block sample_pmm 3) as [addr m'].
  destruct H as [[H _]|(r & _ & _ & H & _)]; [simpl in E; congruence|exists r; exact H].
Defined.

Lemma alloc_block_lowest_witness :
  pmm_wf sample_pmm /\ fst (pmmngr_alloc_block sample_pmm) = 4096 /\
  exists r, test_bit sample_pmm r = false /\ 1 <= r.
Proof.
  split; [exact sample_pmm_wf|]. split; [vm_compute; reflexivity|].
  pose proof (alloc_block_lowest sample_pmm sample_pmm_wf) as H.
  assert (E : fst (pmmngr_alloc_block sample_pmm) = 4096) by (vm_compute; reflexivity).
  destruct (pmmngr_alloc_block sample_pmm) as [addr m'].
  destruct H as [[H _]|(r & _ & H & H' & _)]; [simpl in E; congruence|exists r; split; [exact H'|lia]].
Defined.

Definition sample_pmm_3 : pmm := snd (pmmngr_alloc_multi_block sample_pmm 3).

Lemma free_multi_block_spec_witness :
  pmm_wf sample_pmm /\ pmm_wf (pmmngr_free_multi_block sample_pmm 8192 2).
Proof.
  split; [exact sample_pmm_wf|].
  apply (free_multi_block_spec sample_pmm 8192 2 sample_pmm_wf); lia.
Defined.

Lemma alloc_free_roundtrip_witness :
  pmmngr_alloc_multi_block sample_pmm 3 = (4096, sample_pmm_3) /\
  used_block (pmmngr_free_multi_block sample_pmm_3 4096 3) = used_block sample_pmm.
Proof.
  assert (F : fst (pmmngr_alloc_multi_block sample_pmm 3) = 4096) by (vm_compute; reflexivity).
  assert (E : pmmngr_alloc_multi_block sample_pmm 3 = (4096, sample_pmm_3))
    by (rewrite <- F; apply surjective_pairing).
  assert (N : 4096 <> 0) by lia. assert (B : 0 <= 3 < 2 ^ 32) by lia.
  split; [exact E|].
  exact (proj1 (alloc_free_roundtrip sample_pmm 3 4096 sample_pmm_3 sample_pmm_wf B E N)).
Defined.

Definition sample_calls : list region_call := [InitRegion 0 65536; DeinitRegion 0x2000 0x3800].

Lemma update_usage_establishes_wf_witness :
  let m := pmmngr_update_usage (fold_left run_region_call sample_calls (pmmngr_init 65536)) in
  pmm_wf m /\ total_block m = 16 /\ used_block m = count_below (test_bit m) 16 /\
  forall f, 0 <= f < max_frame -> test_bit m f = false <-> f <> 0 /\ freed_by sample_calls f.
Proof.
  apply (update_usage_establishes_wf 65536 sample_calls); [unfold max_frame, MMNGR_PAGE_SIZE; lia|].
  repeat constructor; unfold max_frame, MMNGR_PAGE_SIZE; cbn; lia.
Defined.

(** Frame 5 is reserved in part only, and stays free. *)
Example sample_usage : map (test_bit (fold_left run_region_call sample_calls (pmmngr_init 65536))) [0; 1; 2; 4; 5] = [true; false; true; true; false].
Proof. vm_compute. reflexivity. Qed.
