(* ===== verification/Heap.v ===== *)
(** * The first-fit heap (kernel/src/mem/heap.c, kheap.c)

    A heap is a [heap_t] of 14 bytes followed by regions, each a packed header
    of 12 bytes (magic, size, previous header) and [size] bytes of payload.
    The code works on raw memory, so the model does too: headers are loads and
    stores at computed addresses, 32-bit arithmetic wrapping, and a wild header
    reads whatever bytes are there.  The search loop takes its fuel as an
    argument. *)
From S2P Require Import Prelude Mem Pmm.

(** mem.h and heap.c constants *)
Definition MIN_REGION_SIZE : Z := 4.
Definition HEAP_SUPERVISOR : Z := 1.
Definition HEAP_READONLY : Z := 2.
Definition HEAP_FREE : Z := 0x7ea9f2ee.
Definition HEAP_USED : Z := 0x7ea942ed.
Definition PTE_PRESENT : Z := 1.
Definition PTE_WRITABLE : Z := 2.
Definition PTE_USER : Z := 4.
Definition sizeof_heap : Z := 14.
Definition sizeof_header : Z := 12.

(** Field access: [heap_t] (end, max_addr, min_size, flags, lock) and
    [heap_header_t] (magic, size, prev), both packed. *)
Definition h_end (m : mem) (h : Z) : Z := load32 m h.
Definition h_max_addr (m : mem) (h : Z) : Z := load32 m (h + 4).
Definition h_min_size (m : mem) (h : Z) : Z := load32 m (h + 8).
Definition h_flags (m : mem) (h : Z) : Z := load8 m (h + 12).
Definition h_lock (m : mem) (h : Z) : Z := load8 m (h + 13).
Definition set_end (m : mem) (h v : Z) : mem := store32 m h v.
Definition set_lock (m : mem) (h v : Z) : mem := store8 m (h + 13) v.

Definition hd_magic (m : mem) (a : Z) : Z := load32 m a.
Definition hd_size (m : mem) (a : Z) : Z := load32 m (a + 4).
Definition hd_prev (m : mem) (a : Z) : Z := load32 m (a + 8).
Definition set_magic (m : mem) (a v : Z) : mem := store32 m a v.
Definition set_size (m : mem) (a v : Z) : mem := store32 m (a + 4) v.
Definition set_prev (m : mem) (a v : Z) : mem := store32 m (a + 8) v.

Definition HEAP_NEXT_HEADER (m : mem) (a : Z) : Z := u32 (a + sizeof_header + hd_size m a).
Definition HEAP_FIRST_HEADER (h : Z) : Z := u32 (h + sizeof_heap).

Section heap.
Context {P : Type} `{PageSource P}.

Record heap_st := HeapSt { hm : mem; hp : P }.

Definition page_flags (flags : Z) : Z :=
  let f := PTE_PRESENT in
  let f := if Z.land flags HEAP_SUPERVISOR =? 0 then Z.lor f PTE_USER else f in
  if Z.land flags HEAP_READONLY =? 0 then Z.lor f PTE_WRITABLE else f.

(** [n] iterations of the mapping loops, from page offset [i] on *)
Fixpoint map_pages (p : P) (phys virt f i : Z) (n : nat) : P :=
  match n with
  | O => p
  | S n' =>
      map_pages (ps_map p (u32 (phys + i * MMNGR_PAGE_SIZE)) (u32 (virt + i * MMNGR_PAGE_SIZE)) f)
        phys virt f (i + 1) n'
  end.

Definition heap_new (st : heap_st) (start size max_size flags : Z) : Z * heap_st :=
  let '(phys, p) := ps_alloc_multi (hp st) (size / MMNGR_PAGE_SIZE) in
  if phys =? 0 then (0, HeapSt (hm st) p)
  else
    let p := map_pages p phys start (page_flags flags) 0
               (Z.to_nat ((size + MMNGR_PAGE_SIZE - 1) / MMNGR_PAGE_SIZE)) in
    let m := set_end (hm st) start (u32 (start + size)) in
    let m := store32 m (start + 4) (u32 (start + max_size)) in
    let m := store32 m (start + 8) size in
    let m := store8 m (start + 12) flags in
    let m := set_lock m start 0 in
    let header := HEAP_FIRST_HEADER start in
    let m := set_magic m header HEAP_FREE in
    let m := set_size m header (u32 (h_end m start - header - sizeof_header)) in
    let m := set_prev m header 0 in
    (start, HeapSt m p).

(** The result is the code's: [true] means failure. *)
Definition heap_expand (st : heap_st) (heap page_count last_header : Z) : bool * heap_st :=
  let m := hm st in
  if h_max_addr m heap <? u32 (h_end m heap + page_count * MMNGR_PAGE_SIZE) then (true, st)
  else
    let '(new_page, p) := ps_alloc_multi (hp st) page_count in
    if new_page =? 0 then (true, HeapSt m p)
    else
      let p := map_pages p new_page (h_end m heap) (page_flags (h_flags m heap)) 0 (Z.to_nat page_count) in
      let m1 :=
        if hd_magic m last_header =? HEAP_FREE
        then set_size m last_header (u32 (hd_size m last_header + page_count * MMNGR_PAGE_SIZE))
        else
          let header := h_end m heap in
          let m := set_magic m header HEAP_FREE in
          let m := set_size m header (u32 (page_count * MMNGR_PAGE_SIZE - sizeof_header)) in
          set_prev m header last_header in
      (false, HeapSt (set_end m1 heap (u32 (h_end m1 heap + page_count * MMNGR_PAGE_SIZE))) p).

Fixpoint contract_pages (st : heap_st) (heap : Z) (page_count : nat) : heap_st :=
  match page_count with
  | O => st
  | S n =>
      let e := u32 (h_end (hm st) heap - MMNGR_PAGE_SIZE) in
      let m := set_end (hm st) heap e in
      let phys := ps_to_physical (hp st) e in
      contract_pages (HeapSt m (ps_unmap (ps_free (hp st) phys) e)) heap n
  end.

Definition contract_count (m : mem) (heap page_count : Z) : Z :=
  let remain_size := s32 (u32 (u32 (h_end m heap - page_count * MMNGR_PAGE_SIZE) - heap)) in
  if (remain_size <? 0) || (u32 remain_size <? h_min_size m heap)
  then u32 (u32 (h_end m heap - heap) - h_min_size m heap) / MMNGR_PAGE_SIZE
  else page_count.

Definition heap_contract (st : heap_st) (heap page_count last_header : Z) : heap_st :=
  let m := hm st in
  let page_count := contract_count m heap page_count in
  let m := set_size m last_header (u32 (hd_size m last_header - u32 (page_count * MMNGR_PAGE_SIZE))) in
  contract_pages (HeapSt m (hp st)) heap (Z.to_nat page_count).

(** Does the region at [header] satisfy the request (the [break] conditions)? *)
Definition region_fits (m : mem) (header reg_size : Z) (page_align : bool) : bool :=
  if page_align then
    let addr := u32 (header + sizeof_header) in
    if 0 <? addr mod MMNGR_PAGE_SIZE then
      let offset := MMNGR_PAGE_SIZE - addr mod MMNGR_PAGE_SIZE in
      if (offset <? sizeof_header + MIN_REGION_SIZE) && (hd_prev m header =? 0) then false
      else u32 (reg_size + offset) <=? hd_size m header
    else reg_size <=? hd_size m header
  else reg_size <=? hd_size m header.

(** The slot search: the header it stops at and the last header it skipped. *)
Fixpoint find_region (fuel : nat) (m : mem) (heap_end reg_size : Z) (page_align : bool)
    (header final_header : Z) : outcome (Z * Z) :=
  match fuel with
  | O => NoFuel
  | S f =>
      if heap_end <=? header then Ret (header, final_header)
      else if (hd_magic m header =? HEAP_FREE) && region_fits m header reg_size page_align
      then Ret (header, final_header)
      else find_region f m heap_end reg_size page_align (HEAP_NEXT_HEADER m header) header
  end.

(** The size by which the heap must grow when no region fits. *)
Definition needed_size (m : mem) (heap size : Z) (page_align : bool) (final_header : Z) : Z :=
  let '(needed, potential_addr) :=
    if hd_magic m final_header =? HEAP_USED
    then (u32 (size + sizeof_header), u32 (h_end m heap + sizeof_header))
    else (u32 (size - hd_size m final_header), u32 (final_header + sizeof_header)) in
  let needed :=
    if page_align && (0 <? potential_addr mod MMNGR_PAGE_SIZE)
    then u32 (needed + (MMNGR_PAGE_SIZE - potential_addr mod MMNGR_PAGE_SIZE)) else needed in
  if 0 <? needed mod MMNGR_PAGE_SIZE
  then u32 (needed + (MMNGR_PAGE_SIZE - needed mod MMNGR_PAGE_SIZE)) else needed.

(** The split into [temp_size] bytes and a new free region of [spare_bytes]. *)
Definition split_region (m : mem) (heap header temp_size spare_bytes : Z) : mem :=
  let newh := u32 (header + sizeof_header + temp_size) in
  let m := set_magic m newh HEAP_FREE in
  let m := set_size m newh spare_bytes in
  let m := set_prev m newh header in
  let n := HEAP_NEXT_HEADER m newh in
  let m := if n <? h_end m heap then set_prev m n newh else m in
  set_size m header temp_size.

(** From the chosen header on: split, mark used, and cut the page-aligned
    part off the front. *)
Definition place_region (m : mem) (heap header size : Z) (page_align : bool) : Z * mem :=
  let addr := u32 (header + sizeof_header) in
  let offset :=
    if page_align && (0 <? addr mod MMNGR_PAGE_SIZE)
    then MMNGR_PAGE_SIZE - addr mod MMNGR_PAGE_SIZE else 0 in
  let temp_size := u32 (size + offset) in
  let page_aligned_addr := u32 (addr + offset) in
  let spare_bytes := u32 (hd_size m header - temp_size - sizeof_header) in
  let m := if MIN_REGION_SIZE <=? spare_bytes then split_region m heap header temp_size spare_bytes else m in
  let m := set_magic m header HEAP_USED in
  if page_align then
    let newh := u32 (page_aligned_addr - sizeof_header) in
    let diff := u32 (newh - header) in
    if 0 <? diff then
      let m := set_magic m newh HEAP_USED in
      let m := set_size m newh size in
      let m := set_magic m header HEAP_FREE in
      let n := HEAP_NEXT_HEADER m newh in
      let m := if n <? h_end m heap then set_prev m n newh else m in
      let m :=
        if sizeof_header + MIN_REGION_SIZE <=? diff then
          set_prev (set_size m header (u32 (diff - sizeof_header))) newh header
        else
          let prevh := hd_prev m header in
          set_prev (set_size m prevh (u32 (hd_size m prevh + diff))) newh prevh in
      (newh, m)
    else (header, m)
  else (header, m).

Definition spinlock_acquire (m : mem) (heap : Z) : outcome mem :=
  if h_lock m heap =? 0 then Ret (set_lock m heap 1) else Spin.
Definition spinlock_release (m : mem) (heap : Z) : mem := set_lock m heap 0.

Definition heap_alloc (fuel : nat) (st : heap_st) (heap size : Z) (page_align : bool)
    : outcome (Z * heap_st) :=
  m ← spinlock_acquire (hm st) heap;
  let reg_size := u32 (size + sizeof_header) in
  '(header, final_header) ← find_region fuel m (h_end m heap) reg_size page_align (HEAP_FIRST_HEADER heap) 0;
  let '(err, st1, header) :=
    if h_end m heap <=? header then
      let '(err, st1) :=
        heap_expand (HeapSt m (hp st)) heap
          (needed_size m heap size page_align final_header / MMNGR_PAGE_SIZE) final_header in
      (err, st1, final_header)
    else (false, HeapSt m (hp st), header) in
  if err : bool then Ret (0, HeapSt (spinlock_release (hm st1) heap) (hp st1))
  else
    let '(header, m) := place_region (hm st1) heap header size page_align in
    Ret (u32 (header + sizeof_header), HeapSt (spinlock_release m heap) (hp st1)).

(** [dst->size += src->size + sizeof(heap_header_t)] and the back pointer of
    what then follows. *)
Definition absorb_region (m : mem) (heap dst src : Z) : mem :=
  let m := set_size m dst (u32 (hd_size m dst + u32 (hd_size m src + sizeof_header))) in
  let n := HEAP_NEXT_HEADER m dst in
  if n <? h_end m heap then set_prev m n dst else m.

(** Merging in [heap_free]: the region the freed one ends up in. *)
Definition merge_regions (m : mem) (heap header : Z) : Z * mem :=
  let prevh := hd_prev m header in
  let nexth := HEAP_NEXT_HEADER m header in
  let m := set_magic m header HEAP_FREE in
  let m :=
    if (nexth <? h_end m heap) && (hd_magic m nexth =? HEAP_FREE) then absorb_region m heap header nexth
    else m in
  if negb (prevh =? 0) && (hd_magic m prevh =? HEAP_FREE) then (prevh, absorb_region m heap prevh header)
  else (header, m).

Definition ideal_size (m : mem) (heap : Z) : Z :=
  (u32 (u32 (h_end m heap - heap) * 2) / 5) / MMNGR_PAGE_SIZE.

Definition heap_free (st : heap_st) (heap addr : Z) : outcome heap_st :=
  let header := u32 (addr - sizeof_header) in
  if negb (hd_magic (hm st) header =? HEAP_USED) then Ret st
  else
    m ← spinlock_acquire (hm st) heap;
    let '(result_region, m) := merge_regions m heap header in
    let ideal := ideal_size m heap in
    let contracted_free_size := u32 (hd_size m result_region - ideal * MMNGR_PAGE_SIZE) in
    let st1 :=
      if (h_end m heap <=? HEAP_NEXT_HEADER m result_region) &&
         ((0 <? ideal) && (MIN_REGION_SIZE <=? contracted_free_size))
      then heap_contract (HeapSt m (hp st)) heap ideal result_region
      else HeapSt m (hp st) in
    Ret (HeapSt (spinlock_release (hm st1) heap) (hp st1)).
End heap.
Arguments heap_st : clear implicits.

(** ** The heap as a list of regions

    The abstract state of a heap: its regions in address order.  [heap_rep]
    says that memory lays exactly these regions out from the first header to
    the heap's end, each header holding the magic of its state, the region's
    size and the address of the header before it. *)

Record region := Region { r_used : bool; r_size : Z }.

Definition magic_of (r : region) : Z := if r_used r then HEAP_USED else HEAP_FREE.

Fixpoint span (rs : list region) : Z :=
  match rs with
  | [] => 0
  | r :: rs => sizeof_header + r_size r + span rs
  end.

Fixpoint regions_at (m : mem) (a prev : Z) (rs : list region) : Prop :=
  match rs with
  | [] => True
  | r :: rs =>
      (hd_magic m a = magic_of r /\ hd_size m a = r_size r /\ hd_prev m a = prev /\ 0 <= r_size r) /\
      regions_at m (a + sizeof_header + r_size r) a rs
  end.

(** The header preceding what follows [rs] laid out at [a]. *)
Fixpoint last_header (a prev : Z) (rs : list region) : Z :=
  match rs with
  | [] => prev
  | r :: rs => last_header (a + sizeof_header + r_size r) a rs
  end.

Record heap_rep (m : mem) (h : Z) (rs : list region) : Prop := {
  rep_base : 0 < h;
  rep_end : h_end m h = h + sizeof_heap + span rs;
  rep_fits : h + sizeof_heap + span rs < 2 ^ 32;
  rep_regions : regions_at m (h + sizeof_heap) 0 rs;
}.

#[export] Instance regions_at_dec m a p rs : Decision (regions_at m a p rs).
Proof. revert a p. induction rs as [|r rs IH]; intros a p; simpl; [left; exact I|apply and_dec; [solve_decision|apply IH]]. Defined.

#[export] Instance heap_rep_dec m h rs : Decision (heap_rep m h rs).
Proof.
  refine (cast_if (decide ((0 < h /\ h_end m h = h + sizeof_heap + span rs) /\
    (h + sizeof_heap + span rs < 2 ^ 32 /\ regions_at m (h + sizeof_heap) 0 rs))));
    [abstract (destruct a as [[? ?] [? ?]]; now split)|abstract (intros []; tauto)].
Defined.

(** A byte that belongs to the payload of a used region. *)
Fixpoint used_payload (a : Z) (rs : list region) (x : Z) : Prop :=
  match rs with
  | [] => False
  | r :: rs =>
      (r_used r = true /\ a + sizeof_header <= x < a + sizeof_header + r_size r) \/
      used_payload (a + sizeof_header + r_size r) rs x
  end.

Ltac hsimpl := unfold hd_magic, hd_size, hd_prev, set_magic, set_size, set_prev, set_end,
  h_end, h_lock, h_flags, h_max_addr, h_min_size, sizeof_header, sizeof_heap in *.

Lemma span_app rs1 rs2 : span (rs1 ++ rs2) = span rs1 + span rs2.
Proof. induction rs1 as [|r rs1 IH]; simpl; lia. Qed.

Lemma regions_span m a p rs : regions_at m a p rs -> 0 <= span rs.
Proof.
  revert a p. induction rs as [|r rs IH]; simpl; intros a p; [lia|].
  intros [(_ & _ & _ & ?) R]. apply IH in R. unfold sizeof_header. lia.
Qed.

Lemma regions_app m a p rs1 rs2 :
  regions_at m a p (rs1 ++ rs2) <->
  regions_at m a p rs1 /\ regions_at m (a + span rs1) (last_header a p rs1) rs2.
Proof.
  revert a p. induction rs1 as [|r rs1 IH]; intros a p; simpl.
  - rewrite Z.add_0_r. tauto.
  - rewrite IH.
    replace (a + (sizeof_header + r_size r + span rs1)) with (a + sizeof_header + r_size r + span rs1) by lia.
    tauto.
Qed.

Lemma used_payload_app a rs1 rs2 x :
  used_payload a (rs1 ++ rs2) x <-> used_payload a rs1 x \/ used_payload (a + span rs1) rs2 x.
Proof.
  revert a. induction rs1 as [|r rs1 IH]; intros a; simpl.
  - rewrite Z.add_0_r. tauto.
  - rewrite IH.
    replace (a + (sizeof_header + r_size r + span rs1)) with (a + sizeof_header + r_size r + span rs1) by lia.
    tauto.
Qed.

Lemma used_payload_bounds m a p rs x : regions_at m a p rs -> used_payload a rs x ->
  a + 12 <= x < a + span rs.
Proof.
  revert a p. induction rs as [|r rs IH]; simpl; intros a p; [tauto|].
  intros [(_ & _ & _ & ?) R] [[_ ?]|U]; pose proof (regions_span _ _ _ _ R); unfold sizeof_header in *; [lia|].
  specialize (IH _ _ R U). lia.
Qed.

Lemma last_header_bounds m a p rs : regions_at m a p rs -> rs <> [] ->
  a <= last_header a p rs /\ last_header a p rs + sizeof_header <= a + span rs.
Proof.
  revert a p. induction rs as [|r rs IH]; simpl; intros a p; [congruence|].
  intros [(_ & _ & _ & ?) R] _. pose proof (regions_span _ _ _ _ R). unfold sizeof_header in *.
  destruct rs as [|r' rs]; [simpl in *; lia|].
  specialize (IH _ _ R ltac:(congruence)). lia.
Qed.

Lemma last_header_indep a p q rs : rs <> [] -> last_header a p rs = last_header a q rs.
Proof. destruct rs; [congruence|reflexivity]. Qed.

(** Memory that agrees on the bytes of a layout holds the same layout. *)
Definition same_on (m m' : mem) (lo hi : Z) : Prop := forall x, lo <= x < hi -> load8 m' x = load8 m x.

Lemma same_load32 m m' lo hi x : same_on m m' lo hi -> lo <= x -> x + 4 <= hi -> load32 m' x = load32 m x.
Proof. intros S ? ?. unfold load32. rewrite !S by lia. reflexivity. Qed.

Lemma same_weaken m m' lo hi lo' hi' : same_on m m' lo hi -> lo <= lo' -> hi' <= hi -> same_on m m' lo' hi'.
Proof. intros S ? ? x Hx. apply S. lia. Qed.

Lemma same_trans m1 m2 m3 lo hi : same_on m1 m2 lo hi -> same_on m2 m3 lo hi -> same_on m1 m3 lo hi.
Proof. intros S1 S2 x Hx. rewrite S2, S1 by assumption. reflexivity. Qed.

Lemma same_store32 m a v lo hi : a + 4 <= lo \/ hi <= a -> same_on m (store32 m a v) lo hi.
Proof. intros ? x ?. apply load8_store32_ne. lia. Qed.

Lemma same_store8 m a v lo hi : a + 1 <= lo \/ hi <= a -> same_on m (store8 m a v) lo hi.
Proof. intros ? x ?. rewrite load8_store8. replace (a =? x) with false by lia. reflexivity. Qed.

Lemma same_refl m lo hi : same_on m m lo hi.
Proof. intros x _. reflexivity. Qed.

Lemma header_same m m' a : same_on m m' a (a + 12) ->
  hd_magic m' a = hd_magic m a /\ hd_size m' a = hd_size m a /\ hd_prev m' a = hd_prev m a.
Proof. intros S. hsimpl. split_and!; eapply same_load32; (exact S || lia). Qed.

Lemma regions_same m m' a p rs : same_on m m' a (a + span rs) -> regions_at m a p rs -> regions_at m' a p rs.
Proof.
  revert a p. induction rs as [|r rs IH]; simpl; intros a p S; [tauto|].
  intros [(A & B & C & D) R]. pose proof (regions_span _ _ _ _ R). unfold sizeof_header in *.
  split; [|apply IH; [eapply same_weaken; [exact S|lia|lia]|assumption]].
  destruct (header_same m m' a) as (-> & -> & ->); [eapply same_weaken; [exact S|lia|lia]|auto].
Qed.

(** Redirecting the back pointer of the first region. *)
Lemma regions_set_prev m a p q rs : 0 <= q < 2 ^ 32 -> rs <> [] -> regions_at m a p rs ->
  regions_at (set_prev m a q) a q rs.
Proof.
  destruct rs as [|r rs]; [congruence|]. intros Hq _. simpl. intros [(A & B & C & D) R]. hsimpl.
  split.
  - split_and!; mem_step; auto. now apply u32_small.
  - eapply regions_same; [|exact R]. apply same_store32. lia.
Qed.

(** ** The slot search and the placement *)

Definition skipped (reg_size : Z) (r : region) : Prop := r_used r = true \/ r_size r < reg_size.

Lemma next_header m a p r rs : regions_at m a p (r :: rs) -> 0 <= a -> a + span (r :: rs) < 2 ^ 32 ->
  HEAP_NEXT_HEADER m a = a + sizeof_header + r_size r.
Proof.
  simpl. intros [(_ & S & _ & ?) R] ? ?. pose proof (regions_span _ _ _ _ R).
  unfold HEAP_NEXT_HEADER. rewrite S. apply u32_small. unfold sizeof_header in *. lia.
Qed.

Lemma magic_test r : (magic_of r =? HEAP_FREE) = negb (r_used r).
Proof. unfold magic_of. now destruct (r_used r). Qed.

Lemma magic_test_used r : (magic_of r =? HEAP_USED) = r_used r.
Proof. unfold magic_of. now destruct (r_used r). Qed.

Lemma find_region_skip f m e reg a p fin rs1 rs2 :
  regions_at m a p (rs1 ++ rs2) -> 0 <= a -> a + span (rs1 ++ rs2) = e -> e < 2 ^ 32 ->
  Forall (skipped reg) rs1 ->
  find_region (length rs1 + f) m e reg false a fin =
  find_region f m e reg false (a + span rs1) (last_header a fin rs1).
Proof.
  revert a p fin. induction rs1 as [|r rs1 IH]; intros a p fin R Ha He Hlt F.
  - simpl. now rewrite Z.add_0_r.
  - simpl app in R, He. pose proof (regions_span _ _ _ _ R) as Hspan.
    assert (N : HEAP_NEXT_HEADER m a = a + sizeof_header + r_size r)
      by (eapply next_header; [exact R|lia|lia]).
    inversion F as [|? ? Hr F']; subst.
    cbn [length Nat.add find_region]. simpl in R. destruct R as [(Mg & S & _ & ?) R].
    assert (Hsp : 0 <= span (rs1 ++ rs2)) by (eapply regions_span; exact R).
    simpl span in *. unfold sizeof_header in *.
    case_test; [lia|]. rewrite Mg, magic_test.
    replace (negb (r_used r) && region_fits m a reg false) with false.
    2:{ unfold region_fits. rewrite S. destruct Hr as [Hu|Hs]; [now rewrite Hu|].
        symmetry. apply andb_false_iff. right. lia. }
    rewrite N. rewrite (IH _ a a) by (auto; simpl; lia). simpl. f_equal. lia.
Qed.

(** What the request turns the chosen free region into. *)
Definition spec_place (n : Z) (r : region) : list region :=
  if MIN_REGION_SIZE <=? r_size r - (n + sizeof_header)
  then [Region true n; Region false (r_size r - (n + sizeof_header))]
  else [Region true (r_size r)].

(** First fit: the first free region of at least [n + 12] bytes. *)
Fixpoint spec_alloc (n : Z) (rs : list region) : option (list region * Z) :=
  match rs with
  | [] => None
  | r :: rs =>
      if negb (r_used r) && (n + sizeof_header <=? r_size r)
      then Some (spec_place n r ++ rs, sizeof_header)
      else
        match spec_alloc n rs with
        | Some (rs', off) => Some (r :: rs', sizeof_header + r_size r + off)
        | None => None
        end
  end.

Lemma spec_alloc_split n rs rs' off : spec_alloc n rs = Some (rs', off) ->
  exists rs1 r rs2, rs = rs1 ++ r :: rs2 /\ rs' = rs1 ++ spec_place n r ++ rs2 /\
    off = span rs1 + sizeof_header /\ r_used r = false /\ n + sizeof_header <= r_size r /\
    Forall (skipped (n + sizeof_header)) rs1.
Proof.
  revert rs' off. induction rs as [|r rs IH]; cbn [spec_alloc]; intros rs' off E; [discriminate|].
  revert E. case_test.
  - intros [= <- <-]. exists [], r, rs. split_and!; auto.
  - destruct (spec_alloc n rs) as [[rs'' o]|] eqn:S; [|discriminate]. intros [= <- <-].
    destruct (IH _ _ eq_refl) as (rs1 & r0 & rs2 & -> & -> & -> & U & Hn & F).
    exists (r :: rs1), r0, rs2. split_and!; auto; [simpl; lia|].
    constructor; [|assumption]. apply andb_false_iff in E. unfold skipped. destruct (r_used r); [auto|].
    right. destruct E as [E|E]; zbool; [discriminate|lia].
Qed.

Lemma spec_alloc_none n rs : spec_alloc n rs = None <-> Forall (skipped (n + sizeof_header)) rs.
Proof.
  induction rs as [|r rs IH]; cbn [spec_alloc]; [split; auto|]. unfold skipped at 1. split.
  - case_test; [discriminate|]. destruct (spec_alloc n rs) as [[? ?]|]; [discriminate|]. intros _.
    constructor; [|now apply IH]. apply andb_false_iff in E. destruct (r_used r); [auto|].
    right. destruct E as [E|E]; zbool; [discriminate|lia].
  - intros F. inversion F as [|? ? Hr F']; subst. apply IH in F'. rewrite F'.
    replace (negb (r_used r) && _) with false; [reflexivity|]. symmetry. apply andb_false_iff.
    destruct Hr as [->|]; [auto|right; lia].
Qed.

Lemma region_bytes m a p r rs : regions_at m a p (r :: rs) -> 0 <= r_size r /\ 0 <= span rs.
Proof. simpl. intros [(_ & _ & _ & ?) R]. split; [assumption|]. eapply regions_span; exact R. Qed.

Lemma span_zero rs m a p : regions_at m a p rs -> span rs <= 0 -> rs = [].
Proof.
  destruct rs as [|r rs]; [reflexivity|]. intros R ?. apply region_bytes in R as [? ?].
  simpl in *. unfold sizeof_header in *. lia.
Qed.

(** Rewriting the magic of the region [r] at [a], between [rs1] and [rs2]. *)
Lemma mark_regions (u : bool) m h rs1 r rs2 (a := h + sizeof_heap + span rs1) :
  heap_rep m h (rs1 ++ r :: rs2) ->
  heap_rep (set_magic m a (if u then HEAP_USED else HEAP_FREE)) h (rs1 ++ Region u (r_size r) :: rs2).
Proof.
  intros [Hh He Hf R]. rewrite !span_app in *.
  apply regions_app in R as [R1 R2]. fold a in R2.
  pose proof (regions_span _ _ _ _ R1). pose proof (region_bytes _ _ _ _ _ R2) as [Hr Hs2].
  simpl in R2. destruct R2 as [(Mg & Sz & Pv & _) R2]. simpl span in *. unfold a in *. hsimpl.
  split; rewrite ?span_app; simpl; hsimpl; [lia|mem_step; lia|lia|].
  apply regions_app. split; [eapply regions_same; [|exact R1]; apply same_store32; hsimpl; lia|].
  simpl. hsimpl. split; [split_and!; mem_step; auto; destruct u; reflexivity|].
  eapply regions_same; [|exact R2]. apply same_store32. lia.
Qed.

(** Setting the back pointer of whatever follows, if anything does. *)
Lemma regions_relink m h e a p q rs : regions_at m a p rs -> 0 <= q < 2 ^ 32 ->
  h_end m h = e -> e = a + span rs ->
  regions_at (if a <? h_end m h then set_prev m a q else m) a q rs.
Proof.
  intros R Hq He ->. destruct rs as [|r rs].
  - exact I.
  - pose proof (region_bytes _ _ _ _ _ R) as [? ?]. simpl in He. unfold sizeof_header in He.
    replace (a <? h_end m h) with true by lia. eapply regions_set_prev; eauto; congruence.
Qed.

(** What [if n < heap->end then n->prev = q] leaves alone. *)
Lemma relink_frame m h a q x : h_end m h <= a \/ x < a + 8 \/ a + 12 <= x ->
  load8 (if a <? h_end m h then set_prev m a q else m) x = load8 m x.
Proof. intros. case_test; [|reflexivity]. unfold set_prev. apply load8_store32_ne. lia. Qed.

Lemma split_regions m h n rs1 r rs2 (a := h + sizeof_heap + span rs1) :
  heap_rep m h (rs1 ++ r :: rs2) -> 0 <= n -> n + sizeof_header <= r_size r ->
  let spare := r_size r - (n + sizeof_header) in
  let m' := split_region m h a n spare in
  heap_rep m' h (rs1 ++ Region (r_used r) n :: Region false spare :: rs2) /\
  (forall x, h <= x < a \/ a + 12 <= x < a + 12 + n \/ a + 24 + n <= x < a + 12 + r_size r \/
     a + 24 + r_size r <= x -> load8 m' x = load8 m x).
Proof.
  intros [Hh He Hf R] Hn Hfit spare. rewrite !span_app in *.
  apply regions_app in R as [R1 R2]. fold a in R2. set (p := last_header (h + sizeof_heap) 0 rs1) in *.
  pose proof (regions_span _ _ _ _ R1). pose proof (region_bytes _ _ _ _ _ R2) as [Hr Hs2].
  simpl in R2. destruct R2 as [(Mg & Sz & Pv & _) R2]. simpl span in *.
  assert (Ea : a = h + 14 + span rs1) by (unfold a, sizeof_heap; lia).
  unfold split_region. unfold sizeof_heap, sizeof_header in *.
  rewrite (u32_small (a + 12 + n)) by lia.
  set (m1 := set_prev _ _ a). set (q := a + 12 + n) in *.
  assert (F1 : forall x, x < q \/ q + 12 <= x -> load8 m1 x = load8 m x)
    by (intros; unfold m1, set_prev, set_size, set_magic; rewrite !load8_store32_ne by lia; reflexivity).
  assert (Q : hd_magic m1 q = HEAP_FREE /\ hd_size m1 q = spare /\ hd_prev m1 q = a).
  { unfold m1. hsimpl. split_and!; mem_step; [reflexivity|apply u32_small; lia|apply u32_small; lia]. }
  destruct Q as (Q1 & Q2 & Q3). clearbody m1.
  assert (He1 : h_end m1 h = h_end m h)
    by (unfold h_end; eapply same_load32; [|apply Z.le_refl|apply Z.le_refl]; intros x Hx; apply F1; lia).
  assert (N : HEAP_NEXT_HEADER m1 q = a + 12 + r_size r).
  { unfold HEAP_NEXT_HEADER. rewrite Q2. unfold sizeof_header. wrap_small. lia. }
  rewrite N. set (b := a + 12 + r_size r) in *.
  assert (R2' : regions_at m1 b a rs2).
  { eapply regions_same; [|exact R2]. intros x Hx. apply F1. lia. }
  set (m2 := if b <? h_end m1 h then _ else m1).
  assert (F2 : forall x, x < b + 8 \/ b + 12 <= x -> load8 m2 x = load8 m1 x)
    by (intros x Hx; apply relink_frame; lia).
  assert (R2'' : regions_at m2 b q rs2)
    by (apply regions_relink with (h := h) (e := h_end m1 h) (p := a); auto; lia).
  assert (Q' : hd_magic m2 q = HEAP_FREE /\ hd_size m2 q = spare /\ hd_prev m2 q = a).
  { destruct (header_same m1 m2 q) as (-> & -> & ->); [intros x Hx; apply F2; lia|auto]. }
  destruct Q' as (Q1' & Q2' & Q3').
  assert (A : hd_magic m2 a = magic_of r /\ hd_prev m2 a = p).
  { destruct (header_same m m2 a) as (-> & _ & ->); [intros x Hx; rewrite F2, F1 by lia; auto|auto]. }
  destruct A as (A1 & A3). cbv zeta. split.
  - assert (Fin : forall x, x < a + 4 \/ a + 8 <= x -> load8 (set_size m2 a n) x = load8 m2 x)
      by (intros x Hx; unfold set_size; apply load8_store32_ne; lia).
    split; rewrite ?span_app; simpl; unfold sizeof_header, sizeof_heap; [lia| |lia|].
    + transitivity (h_end m h); [|lia].
      rewrite <- He1. unfold h_end. apply same_load32 with (lo := h) (hi := h + 4); [|lia|lia].
      intros x Hx. rewrite Fin, F2 by lia. reflexivity.
    + apply regions_app. split; [eapply regions_same; [|exact R1]|].
      { intros x Hx. rewrite Fin, F2, F1 by lia. reflexivity. }
      fold p. simpl. unfold sizeof_header. fold a q.
      split; [|split].
      * unfold hd_magic, hd_size, hd_prev, set_size in *. split_and!; mem_step; auto. apply u32_small. lia.
      * destruct (header_same m2 (set_size m2 a n) q) as (-> & -> & ->); [intros x Hx; apply Fin; lia|].
        split_and!; [exact Q1'|exact Q2'|exact Q3'|unfold spare; simpl; lia].
      * replace (q + 12 + spare) with b by lia.
        eapply regions_same; [|exact R2'']. intros x Hx. apply Fin. lia.
  - intros x Hx. unfold set_size. rewrite load8_store32_ne by lia. rewrite F2, F1 by lia. reflexivity.
Qed.

(** What freeing does to the list: the region goes free and merges with its
    free neighbours. *)
Definition merge_right (n : Z) (rs2 : list region) : Z * list region :=
  match rs2 with
  | r2 :: rs' => if r_used r2 then (n, rs2) else (n + sizeof_header + r_size r2, rs')
  | [] => (n, [])
  end.

Definition merge_left (rs1 : list region) (n : Z) : list region * Z :=
  match last rs1 with
  | Some l => if r_used l then (rs1, n) else (removelast rs1, r_size l + sizeof_header + n)
  | None => (rs1, n)
  end.

Definition spec_merge (rs1 : list region) (n : Z) (rs2 : list region) : list region * Z * list region :=
  let '(n, rs2) := merge_right n rs2 in
  let '(rs1, n) := merge_left rs1 n in (rs1, n, rs2).

Definition spec_free (rs1 : list region) (n : Z) (rs2 : list region) : list region :=
  let '(rs1, n, rs2) := spec_merge rs1 n rs2 in rs1 ++ Region false n :: rs2.

(** Does [heap_free] contract once the freed region has become one of [n]
    bytes followed by [rs2], and by how many pages? *)
Definition contracts (m : mem) (h n : Z) (rs2 : list region) : bool :=
  let ideal := ideal_size m h in
  bool_decide (rs2 = []) && ((0 <? ideal) && (MIN_REGION_SIZE <=? u32 (n - ideal * MMNGR_PAGE_SIZE))).

Definition released_pages (m : mem) (h n : Z) (rs2 : list region) : Z :=
  if contracts m h n rs2 then contract_count m h (ideal_size m h) else 0.

Section refinement.
Context {P : Type} `{PageSource P}.

Lemma same_lock m m' h : same_on m m' h (h + sizeof_heap) -> h_lock m' h = h_lock m h.
Proof. intros S. apply S. unfold sizeof_heap. lia. Qed.

Lemma same_end m m' h : same_on m m' h (h + 4) -> h_end m' h = h_end m h.
Proof. intros S. eapply same_load32; (exact S || lia). Qed.

(** Taking or releasing the lock touches no region. *)
Lemma rep_set_lock m h v rs : heap_rep m h rs -> heap_rep (set_lock m h v) h rs.
Proof.
  intros [Hh He Hf R]. split; auto.
  - rewrite (same_end m); [assumption|]. apply same_store8. lia.
  - eapply regions_same; [|exact R]. apply same_store8. unfold sizeof_heap. lia.
Qed.

Lemma lock_set_lock m h v : h_lock (set_lock m h v) h = u8 v.
Proof. unfold h_lock, set_lock. now rewrite load8_store8, Z.eqb_refl. Qed.

Lemma load8_set_lock m h v x : x <> h + 13 -> load8 (set_lock m h v) x = load8 m x.
Proof. intros. unfold set_lock. rewrite load8_store8. now replace (h + 13 =? x) with false by lia. Qed.

Lemma place_region_spec m h n rs1 r rs2 (a := h + sizeof_heap + span rs1) :
  heap_rep m h (rs1 ++ r :: rs2) -> r_used r = false -> 0 <= n -> n + sizeof_header <= r_size r ->
  exists m', place_region m h a n false = (a, m') /\
    heap_rep m' h (rs1 ++ spec_place n r ++ rs2) /\
    (forall x, h <= x < a \/ a + 12 <= x < a + 12 + n \/ a + 24 + r_size r <= x -> load8 m' x = load8 m x) /\
    (forall x, used_payload (a + 12 + r_size r) rs2 x -> load8 m' x = load8 m x).
Proof.
  intros Rep U Hn Hfit. destruct (Rep) as [Hh He Hf R].
  rewrite !span_app in *. apply regions_app in R as [R1 R2]. fold a in R2.
  pose proof (regions_span _ _ _ _ R1). pose proof (region_bytes _ _ _ _ _ R2) as [Hr Hs2].
  simpl in R2. destruct R2 as [(Mg & Sz & Pv & _) R2]. simpl span in *.
  unfold place_region, sizeof_header, sizeof_heap in *.
  assert (E : u32 (hd_size m a - u32 (n + 0) - 12) = r_size r - (n + 12))
    by (rewrite Sz; wrap_small; lia).
  simpl andb. cbv iota. rewrite E. replace (u32 (n + 0)) with n by (wrap_small; lia).
  eexists. split; [reflexivity|]. unfold spec_place, sizeof_header.
  assert (Take : forall m' x, h <= x < a \/ a + 12 <= x -> load8 (set_magic m' a HEAP_USED) x = load8 m' x)
    by (intros; unfold set_magic; apply load8_store32_ne; lia).
  assert (Pay : forall x, used_payload (a + 12 + r_size r) rs2 x -> a + 24 + r_size r <= x).
  { intros x Hx. pose proof (used_payload_bounds _ _ _ _ _ R2 Hx). unfold sizeof_header in *. lia. }
  case_test.
  - pose proof (split_regions m h n rs1 r rs2 Rep Hn Hfit) as [Rep' F].
    unfold sizeof_header, sizeof_heap in Rep', F. fold a in Rep', F. rewrite U in Rep'. split_and!.
    + apply (mark_regions true) in Rep'. exact Rep'.
    + intros x Hx. rewrite Take by lia. apply F. lia.
    + intros x Hx%Pay. rewrite Take by lia. apply F. lia.
  - split_and!.
    + apply (mark_regions true) in Rep. exact Rep.
    + intros x Hx. apply Take. lia.
    + intros x Hx%Pay. apply Take. lia.
Qed.

(** What an allocation that finds room does, whatever the length of the list. *)
Lemma alloc_refines fuel (st : heap_st P) h n rs rs' off :
  heap_rep (hm st) h rs -> h_lock (hm st) h = 0 -> 0 <= n -> spec_alloc n rs = Some (rs', off) ->
  (length rs < fuel)%nat ->
  exists m', heap_alloc fuel st h n false = Ret (h + sizeof_heap + off, HeapSt m' (hp st)) /\
    heap_rep m' h rs' /\ h_lock m' h = 0 /\
    (forall x, used_payload (h + sizeof_heap) rs x -> load8 m' x = load8 (hm st) x).
Proof.
  intros Rep L Hn S Hfuel.
  apply spec_alloc_split in S as (rs1 & r & rs2 & -> & -> & -> & U & Hfit & F).
  unfold heap_alloc, spinlock_acquire. rewrite L, Z.eqb_refl, bind_ret.
  pose proof (rep_set_lock _ _ 1 _ Rep) as Rep1. set (m1 := set_lock (hm st) h 1) in *.
  destruct (Rep1) as [Hh He Hf R]. pose proof (regions_span _ _ _ _ R) as Hs.
  pose proof R as R'. apply regions_app in R' as [R1 R2].
  pose proof (regions_span _ _ _ _ R1). pose proof (region_bytes _ _ _ _ _ R2) as [Hr Hs2].
  rewrite span_app in Hs, He, Hf. simpl span in Hs, He, Hf. unfold sizeof_header in Hs, He, Hf, Hfit.
  assert (Hlen : exists f, fuel = (length rs1 + S f)%nat).
  { exists (fuel - length rs1 - 1)%nat. rewrite length_app in Hfuel. simpl in Hfuel. lia. }
  destruct Hlen as [f ->].
  unfold HEAP_FIRST_HEADER. unfold sizeof_heap in *. rewrite (u32_small (h + 14)) by lia.
  unfold sizeof_header. rewrite (u32_small (n + 12)) by lia.
  rewrite (find_region_skip _ _ _ (n + 12) _ _ _ _ _ R); unfold sizeof_header;
    [|lia|rewrite span_app; simpl; unfold sizeof_header; lia|lia|assumption].
  cbn [find_region]. replace (h_end m1 h <=? h + 14 + span rs1) with false by lia.
  simpl in R2. destruct R2 as [(Mg & Sz & Pv & _) R2].
  rewrite Mg, magic_test, U. unfold region_fits. rewrite Sz.
  replace (n + 12 <=? r_size r) with true by lia. simpl negb. rewrite andb_true_r. cbv iota.
  rewrite bind_ret. replace (h_end m1 h <=? h + 14 + span rs1) with false by lia.
  destruct (place_region_spec m1 h n rs1 r rs2 Rep1 U Hn Hfit) as (m' & E & Rep' & F1 & F2).
  unfold sizeof_heap in *. simpl hm. rewrite E.
  exists (set_lock m' h 0). split_and!.
  - rewrite u32_small by lia. rewrite Z.add_assoc. reflexivity.
  - now apply rep_set_lock.
  - apply lock_set_lock.
  - intros x Hx. pose proof (used_payload_bounds _ _ _ _ _ R Hx) as Hb. unfold sizeof_header in Hb.
    rewrite load8_set_lock by lia. transitivity (load8 m1 x); [|apply load8_set_lock; lia].
    apply used_payload_app in Hx as [Hx|[[Hx _]|Hx]]; [|congruence|apply F2, Hx].
    pose proof (used_payload_bounds _ _ _ _ _ R1 Hx). apply F1. lia.
Qed.

(** The payload handed out belongs to the new region and to no region that
    was in use. *)
Lemma alloc_fresh m h n rs rs' off x :
  heap_rep m h rs -> 0 <= n -> spec_alloc n rs = Some (rs', off) ->
  h + sizeof_heap + off <= x < h + sizeof_heap + off + n ->
  used_payload (h + sizeof_heap) rs' x /\ ~ used_payload (h + sizeof_heap) rs x.
Proof.
  intros [Hh He Hf R] Hn S Hx.
  apply spec_alloc_split in S as (rs1 & r & rs2 & -> & -> & -> & U & Hfit & F).
  apply regions_app in R as [R1 R2]. unfold sizeof_header in *. split.
  - apply used_payload_app. right. apply used_payload_app. left.
    unfold spec_place, sizeof_header. case_test; simpl; unfold sizeof_header; left; split; auto; lia.
  - intros [Hu|Hu]%used_payload_app.
    + pose proof (used_payload_bounds _ _ _ _ _ R1 Hu). lia.
    + simpl in Hu, R2. destruct R2 as [_ R2]. destruct Hu as [[Hu _]|Hu]; [congruence|].
      pose proof (used_payload_bounds _ _ _ _ _ R2 Hu). unfold sizeof_header in *. lia.
Qed.

Lemma absorb_regions m h rs1 r r2 rs2 (a := h + sizeof_heap + span rs1) :
  heap_rep m h (rs1 ++ r :: r2 :: rs2) ->
  let n := r_size r + 12 + r_size r2 in
  let m' := absorb_region m h a (a + 12 + r_size r) in
  heap_rep m' h (rs1 ++ Region (r_used r) n :: rs2) /\
  (forall x, h <= x < a \/ a + 12 <= x < a + 12 + n \/ a + 24 + n <= x -> load8 m' x = load8 m x).
Proof.
  intros [Hh He Hf R] n. rewrite !span_app in *.
  apply regions_app in R as [R1 R2]. fold a in R2. set (p := last_header (h + sizeof_heap) 0 rs1) in *.
  pose proof (regions_span _ _ _ _ R1). pose proof (region_bytes _ _ _ _ _ R2) as [Hr Hs2].
  simpl in R2. destruct R2 as [(Mg & Sz & Pv & _) [(Mg2 & Sz2 & Pv2 & Hr2) R3]].
  pose proof (regions_span _ _ _ _ R3). simpl span in *.
  assert (Ea : a = h + 14 + span rs1) by (unfold a, sizeof_heap; lia).
  unfold absorb_region. unfold sizeof_heap, sizeof_header in *. rewrite Sz, Sz2.
  rewrite (u32_small (r_size r2 + 12)) by lia. rewrite (u32_small (r_size r + _)) by lia.
  replace (r_size r + (r_size r2 + 12)) with n by lia.
  set (m1 := set_size m a n).
  assert (F1 : forall x, x < a + 4 \/ a + 8 <= x -> load8 m1 x = load8 m x)
    by (intros; apply load8_store32_ne; lia).
  assert (A : hd_magic m1 a = magic_of r /\ hd_size m1 a = n /\ hd_prev m1 a = p).
  { unfold hd_magic, hd_size, hd_prev, m1, set_size. split_and!; mem_step; auto. apply u32_small. lia. }
  destruct A as (A1 & A2 & A3). clearbody m1.
  assert (He1 : h_end m1 h = h_end m h) by (apply same_end; intros x Hx; apply F1; lia).
  assert (N : HEAP_NEXT_HEADER m1 a = a + 12 + n).
  { unfold HEAP_NEXT_HEADER. rewrite A2. unfold sizeof_header. wrap_small. lia. }
  rewrite N. set (b := a + 12 + n) in *.
  replace (a + 12 + r_size r + 12 + r_size r2) with b in R3 by (unfold b; lia).
  assert (R3' : regions_at m1 b (a + 12 + r_size r) rs2)
    by (eapply regions_same; [|exact R3]; intros x Hx; apply F1; lia).
  set (m2 := if b <? h_end m1 h then _ else m1).
  assert (F2 : forall x, x < b + 8 \/ b + 12 <= x -> load8 m2 x = load8 m1 x)
    by (intros x Hx; apply relink_frame; lia).
  assert (R3'' : regions_at m2 b a rs2)
    by (eapply regions_relink with (e := h_end m1 h); eauto; lia).
  destruct (header_same m1 m2 a) as (B1 & B2 & B3); [intros x Hx; apply F2; lia|].
  rewrite A1, A2, A3 in *. split; [|intros x Hx; rewrite F2, F1 by lia; reflexivity].
  split; rewrite ?span_app; simpl; unfold sizeof_header, sizeof_heap; [lia| |lia|].
  - rewrite (same_end m1); [lia|]. intros x Hx. apply F2. lia.
  - apply regions_app. split; [eapply regions_same; [|exact R1]; intros x Hx; rewrite F2, F1 by lia; reflexivity|].
    fold p. simpl. unfold sizeof_header. fold a b. split; [|exact R3''].
    split_and!; [exact B1|exact B2|exact B3|lia].
Qed.

Lemma rep_lookup m h rs1 r rs2 (a := h + sizeof_heap + span rs1) : heap_rep m h (rs1 ++ r :: rs2) ->
  h + 14 <= a /\ a + 12 + r_size r <= h_end m h /\ h_end m h < 2 ^ 32 /\ 0 <= r_size r /\
  hd_magic m a = magic_of r /\ hd_size m a = r_size r /\ hd_prev m a = last_header (h + sizeof_heap) 0 rs1 /\
  HEAP_NEXT_HEADER m a = a + 12 + r_size r.
Proof.
  intros [Hh He Hf R]. rewrite !span_app in *. apply regions_app in R as [R1 R2]. fold a in R2.
  pose proof (regions_span _ _ _ _ R1). pose proof (region_bytes _ _ _ _ _ R2) as [Hr Hs2].
  simpl in R2. destruct R2 as [(Mg & Sz & Pv & _) R2]. simpl span in *.
  assert (Ea : a = h + 14 + span rs1) by (unfold a, sizeof_heap; lia).
  unfold HEAP_NEXT_HEADER, sizeof_heap, sizeof_header in *. rewrite Sz.
  split_and!; auto; try lia. apply u32_small. lia.
Qed.

Lemma last_header_snoc a p rs r : last_header a p (rs ++ [r]) = a + span rs.
Proof.
  revert a p. induction rs as [|r' rs IH]; intros a p; simpl; [lia|]. rewrite IH. unfold sizeof_header. lia.
Qed.

Lemma rep_assoc m h rs1 r rs2 : heap_rep m h (rs1 ++ r :: rs2) -> heap_rep m h ((rs1 ++ [r]) ++ rs2).
Proof. now rewrite <- app_assoc. Qed.

(** The two merging steps of [heap_free] on a region already marked free. *)
Lemma merge_next_spec m h rs1 n rs2 (a := h + sizeof_heap + span rs1) :
  heap_rep m h (rs1 ++ Region false n :: rs2) ->
  let nexth := a + 12 + n in
  let m' := if (nexth <? h_end m h) && (hd_magic m nexth =? HEAP_FREE) then absorb_region m h a nexth else m in
  let '(n', rs2') := merge_right n rs2 in
  heap_rep m' h (rs1 ++ Region false n' :: rs2') /\
  (forall x, h <= x < h + sizeof_heap \/ used_payload (h + sizeof_heap) (rs1 ++ Region false n :: rs2) x ->
     load8 m' x = load8 m x).
Proof.
  intros Rep nexth. destruct (rep_lookup _ _ _ _ _ Rep) as (A1 & A2 & A3 & A4 & A5 & A6 & A7 & A8).
  fold a in A1, A2, A5, A6, A7, A8. simpl r_size in *.
  destruct rs2 as [|r2 rs2]; unfold merge_right.
  - assert (E : nexth = h_end m h).
    { destruct Rep as [? -> ? ?]. rewrite span_app. simpl. unfold nexth, a, sizeof_header, sizeof_heap. lia. }
    rewrite <- E, Z.ltb_irrefl. simpl. auto.
  - destruct (rep_lookup _ _ _ _ _ (rep_assoc _ _ _ _ _ Rep)) as (B1 & B2 & B3 & B4 & B5 & B6 & B7 & B8).
    replace (h + sizeof_heap + span (rs1 ++ [Region false n])) with nexth in *
      by (rewrite span_app; simpl; unfold nexth, a, sizeof_header; lia).
    replace (nexth <? h_end m h) with true by lia. simpl andb. rewrite B5, magic_test.
    destruct (r_used r2) eqn:U; simpl negb; cbv iota; [auto|].
    destruct (absorb_regions _ _ _ _ _ _ Rep) as [Rep' F]. simpl r_size in *. fold a nexth in Rep', F.
    split; [exact Rep'|]. intros x Hx. apply F.
    destruct Rep as [Hh He Hf R]. apply regions_app in R as [R1 R2]. fold a in R2.
    pose proof (regions_span _ _ _ _ R1). unfold a, sizeof_heap, sizeof_header in *.
    destruct Hx as [Hx|[Hx|[[Hx _]|[[Hx _]|Hx]]]%used_payload_app]; [lia| |discriminate|congruence|].
    + pose proof (used_payload_bounds _ _ _ _ _ R1 Hx). lia.
    + simpl in R2. destruct R2 as [_ [_ R3]].
      pose proof (used_payload_bounds _ _ _ _ _ R3 Hx). unfold sizeof_header in *. simpl in *. lia.
Qed.

Lemma merge_prev_spec m h rs1 n rs2 (a := h + sizeof_heap + span rs1) :
  heap_rep m h (rs1 ++ Region false n :: rs2) ->
  let prevh := last_header (h + sizeof_heap) 0 rs1 in
  let '(b, m') := if negb (prevh =? 0) && (hd_magic m prevh =? HEAP_FREE)
                  then (prevh, absorb_region m h prevh a) else (a, m) in
  let '(rs1', n') := merge_left rs1 n in
  b = h + sizeof_heap + span rs1' /\
  heap_rep m' h (rs1' ++ Region false n' :: rs2) /\
  (forall x, h <= x < h + sizeof_heap \/ used_payload (h + sizeof_heap) (rs1 ++ Region false n :: rs2) x ->
     load8 m' x = load8 m x).
Proof.
  intros Rep prevh. unfold merge_left. unfold prevh. clear prevh.
  destruct rs1 as [|l rs1 _] using rev_ind; [simpl; auto|].
  rewrite last_snoc, last_header_snoc, removelast_last.
  assert (Rep2 : heap_rep m h (rs1 ++ l :: Region false n :: rs2)) by (now rewrite <- app_assoc in Rep).
  destruct (rep_lookup _ _ _ _ _ Rep2) as (A1 & A2 & A3 & A4 & A5 & A6 & A7 & A8).
  destruct Rep as [Hh ? ? R]. destruct (rep_lookup _ _ _ _ _ (Build_heap_rep _ _ _ Hh ltac:(eassumption) ltac:(eassumption) R))
    as (_ & _ & _ & Hn & _). simpl in Hn.
  replace (h + sizeof_heap + span rs1 =? 0) with false by lia.
  simpl andb. rewrite A5, magic_test. destruct (r_used l) eqn:U; simpl negb; cbv iota.
  { split_and!; auto. rewrite <- app_assoc. exact Rep2. }
  destruct (absorb_regions _ _ _ _ _ _ Rep2) as [Rep' F].
  assert (Ea : a = h + sizeof_heap + span rs1 + 12 + r_size l)
    by (unfold a; rewrite span_app; simpl; unfold sizeof_header; lia).
  rewrite Ea. simpl r_size in *. rewrite U in Rep'. split_and!; [reflexivity|exact Rep'|].
  intros x Hx. apply F. apply regions_app in R as [R1 R2]. unfold sizeof_heap, sizeof_header in *.
  destruct Hx as [Hx|[[Hx|[[Hx _]|[]]]%used_payload_app|[[Hx _]|Hx]]%used_payload_app];
    [lia| |congruence|discriminate|].
  - apply regions_app in R1 as [R1 _]. pose proof (used_payload_bounds _ _ _ _ _ R1 Hx). lia.
  - destruct R2 as [_ R2]. pose proof (used_payload_bounds _ _ _ _ _ R2 Hx). unfold sizeof_header in *.
    rewrite span_app in *. simpl in *. unfold sizeof_header in *. lia.
Qed.

Lemma merge_regions_spec m h rs1 n rs2 (a := h + sizeof_heap + span rs1) :
  heap_rep m h (rs1 ++ Region true n :: rs2) ->
  let '(b, m') := merge_regions m h a in
  let '(l1, n', l2) := spec_merge rs1 n rs2 in
  b = h + sizeof_heap + span l1 /\ heap_rep m' h (l1 ++ Region false n' :: l2) /\
  (forall x, h <= x < h + sizeof_heap \/ used_payload (h + sizeof_heap) (rs1 ++ Region false n :: rs2) x ->
     load8 m' x = load8 m x).
Proof.
  intros Rep. destruct (rep_lookup _ _ _ _ _ Rep) as (A1 & A2 & A3 & A4 & A5 & A6 & A7 & A8). fold a in A1, A2, A5, A6, A7, A8.
  unfold merge_regions, spec_merge. rewrite A7, A8. simpl r_size in *.
  pose proof (mark_regions false _ _ _ _ _ Rep) as Rep1. fold a in Rep1. simpl r_size in Rep1.
  assert (F0 : forall x, h <= x < h + sizeof_heap \/ used_payload (h + sizeof_heap) (rs1 ++ Region false n :: rs2) x ->
     load8 (set_magic m a HEAP_FREE) x = load8 m x).
  { intros x Hx. apply load8_store32_ne. destruct Rep as [? ? ? R]. apply regions_app in R as [R1 R2]. fold a in R2.
    unfold sizeof_heap in *.
    destruct Hx as [Hx|[Hx|[[Hx _]|Hx]]%used_payload_app]; [lia| |discriminate|].
    - pose proof (used_payload_bounds _ _ _ _ _ R1 Hx). lia.
    - destruct R2 as [_ R2]. pose proof (used_payload_bounds _ _ _ _ _ R2 Hx). unfold sizeof_header in *. simpl in *. lia. }
  set (m1 := set_magic m a HEAP_FREE) in *.
  pose proof (merge_next_spec _ _ _ _ _ Rep1) as M. fold a in M. cbv zeta in M.
  destruct (merge_right n rs2) as [n2 l2] eqn:E2.
  set (m2 := if (a + 12 + n <? h_end m1 h) && _ then absorb_region m1 h a _ else m1) in *. destruct M as [Rep2 F1].
  pose proof (merge_prev_spec _ _ _ _ _ Rep2) as M. fold a in M. cbv zeta in M.
  match type of M with (let '(_, _) := ?E in _) => destruct E as [b m3] end.
  destruct (merge_left rs1 n2) as [l1 n3].
  destruct M as (M1 & M2 & M3). split_and!; auto.
  intros x Hx. rewrite M3, F1, F0; auto. destruct Hx as [Hx|Hx]; [auto|right].
  apply used_payload_app in Hx. apply used_payload_app. destruct Hx as [Hx|[[Hx _]|Hx]]; [auto|discriminate|].
  right. right. simpl in *. unfold merge_right in E2.
  destruct rs2 as [|r2 rs2]; [destruct Hx|]. case_test_in E2; injection E2 as <- <-; simpl; auto.
  simpl in Hx. destruct Hx as [[Hx _]|Hx]; [congruence|].
  eapply (eq_ind _ (fun z => used_payload z rs2 x)); [exact Hx|lia].
Qed.

Lemma contract_pages_mem k (st : heap_st P) h :
  0 <= h_end (hm st) h < 2 ^ 32 -> Z.of_nat k * MMNGR_PAGE_SIZE <= h_end (hm st) h ->
  let st' := contract_pages st h k in
  h_end (hm st') h = h_end (hm st) h - Z.of_nat k * MMNGR_PAGE_SIZE /\
  (forall x, x < h \/ h + 4 <= x -> load8 (hm st') x = load8 (hm st) x).
Proof.
  revert st. induction k as [|k IH]; intros st Hr Hk; cbn [contract_pages]; [split; [lia|auto]|].
  unfold MMNGR_PAGE_SIZE in *.
  assert (E : h_end (set_end (hm st) h (u32 (h_end (hm st) h - 4096))) h = h_end (hm st) h - 4096).
  { unfold h_end at 1, set_end. rewrite load32_store32. wrap_small. lia. }
  cbv zeta. destruct (IH (HeapSt (set_end (hm st) h (u32 (h_end (hm st) h - 4096)))
      (ps_unmap (ps_free (hp st) (ps_to_physical (hp st) (u32 (h_end (hm st) h - 4096))))
         (u32 (h_end (hm st) h - 4096))))) as [I1 I2]; cbn [hm] in *; [lia|lia|].
  rewrite I1, E. split; [lia|]. intros x Hx. rewrite I2 by lia. apply load8_store32_ne. lia.
Qed.

Lemma contract_count_bounds m h k : 0 <= k -> 0 <= contract_count m h k.
Proof.
  intros. unfold contract_count. case_test; [|assumption]. apply Z.div_pos; [apply u32_range|reflexivity].
Qed.

Lemma ideal_size_bounds m h : 0 <= ideal_size m h < 419431.
Proof.
  unfold ideal_size, MMNGR_PAGE_SIZE. pose proof (u32_range (u32 (h_end m h - h) * 2)) as Hr.
  split; [repeat apply Z.div_pos; lia|]. rewrite Z.div_div by lia. apply Z.div_lt_upper_bound; lia.
Qed.

(** Contracting the tail region by [k] pages it has the bytes for. *)
Lemma heap_contract_spec (st : heap_st P) h rs1 n k (b := h + sizeof_heap + span rs1) :
  heap_rep (hm st) h (rs1 ++ [Region false n]) ->
  let c := contract_count (hm st) h k in
  0 <= k -> c * MMNGR_PAGE_SIZE <= n ->
  let st' := heap_contract st h k b in
  heap_rep (hm st') h (rs1 ++ [Region false (n - c * MMNGR_PAGE_SIZE)]) /\
  (forall x, h + 4 <= x < b \/ b + 12 <= x -> load8 (hm st') x = load8 (hm st) x).
Proof.
  intros Rep c Hk Hc. pose proof (contract_count_bounds (hm st) h k Hk) as Hc0. fold c in Hc0.
  destruct (rep_lookup _ _ _ _ _ Rep) as (A1 & A2 & A3 & A4 & A5 & A6 & A7 & A8).
  fold b in A1, A2, A5, A6, A7, A8. destruct Rep as [Hh He Hf R]. simpl r_size in *.
  rewrite span_app in *. simpl in He, Hf. apply regions_app in R as [R1 R2]. fold b in R2.
  pose proof (regions_span _ _ _ _ R1).
  assert (Eb : b = h + 14 + span rs1) by (unfold b, sizeof_heap; lia).
  unfold heap_contract. fold c. rewrite A6. unfold MMNGR_PAGE_SIZE, sizeof_heap, sizeof_header in *.
  rewrite (u32_small (c * 4096)) by lia. rewrite (u32_small (n - c * 4096)) by lia.
  set (m1 := set_size (hm st) b (n - c * 4096)).
  assert (F1 : forall x, x < b + 4 \/ b + 8 <= x -> load8 m1 x = load8 (hm st) x)
    by (intros; apply load8_store32_ne; lia).
  assert (E1 : h_end m1 h = h_end (hm st) h) by (apply same_end; intros x Hx; apply F1; lia).
  destruct (contract_pages_mem (Z.to_nat c) (HeapSt m1 (hp st)) h) as [I1 I2]; cbn [hm] in *; [lia|unfold MMNGR_PAGE_SIZE; lia|].
  unfold MMNGR_PAGE_SIZE in *. rewrite Z2Nat.id in I1 by lia.
  assert (B : hd_magic m1 b = HEAP_FREE /\ hd_size m1 b = n - c * 4096 /\ hd_prev m1 b = hd_prev (hm st) b).
  { unfold hd_magic, hd_size, hd_prev, m1, set_size. split_and!; mem_step; auto. apply u32_small. lia. }
  destruct B as (B1 & B2 & B3).
  destruct (header_same m1 (hm (contract_pages (HeapSt m1 (hp st)) h (Z.to_nat c))) b) as (C1 & C2 & C3);
    [intros x Hx; apply I2; lia|].
  split; [|intros x Hx; rewrite I2, F1 by lia; reflexivity].
  split; rewrite ?span_app; cbn [span r_size]; unfold sizeof_header, sizeof_heap; [lia|lia|lia|].
  apply regions_app. split.
  - eapply regions_same; [|exact R1]. intros x Hx. rewrite I2, F1 by lia. reflexivity.
  - cbn [regions_at r_size]. fold b. split; [|exact I]. rewrite C1, C2, C3, B1, B2, B3, A7. split_and!; auto. lia.
Qed.

(** Merging free regions does not change which bytes are in use. *)
Lemma merge_payload a rs1 n rs2 x :
  let '(l1, n', l2) := spec_merge rs1 n rs2 in
  used_payload a (rs1 ++ Region false n :: rs2) x <-> used_payload a (l1 ++ Region false n' :: l2) x.
Proof.
  unfold spec_merge.
  assert (Rt : let '(n', l2) := merge_right n rs2 in
    used_payload a (rs1 ++ Region false n :: rs2) x <-> used_payload a (rs1 ++ Region false n' :: l2) x).
  { unfold merge_right. destruct rs2 as [|r2 rs2]; [tauto|]. destruct (r_used r2) eqn:U; [tauto|].
    rewrite !used_payload_app. simpl. rewrite U.
    match goal with |- context [used_payload ?u rs2 x] => set (u1 := u) end.
    match goal with |- context [used_payload ?u rs2 x] => lazymatch u with u1 => fail | _ => replace u with u1 end end.
    - intuition congruence.
    - unfold u1. lia. }
  destruct (merge_right n rs2) as [n2 l2]. unfold merge_left.
  destruct rs1 as [|l rs1 _] using rev_ind; [exact Rt|].
  rewrite last_snoc, removelast_last. destruct (r_used l) eqn:U; [exact Rt|]. rewrite Rt. clear Rt.
  rewrite <- app_assoc, !used_payload_app. simpl. rewrite U.
  match goal with |- context [used_payload ?u l2 x] => set (u1 := u) end.
  match goal with |- context [used_payload ?u l2 x] => lazymatch u with u1 => fail | _ => replace u with u1 end end.
  - intuition congruence.
  - unfold u1. lia.
Qed.

Lemma contract_count_ext m m' h k : h_end m' h = h_end m h -> h_min_size m' h = h_min_size m h ->
  contract_count m' h k = contract_count m h k.
Proof. unfold contract_count. now intros -> ->. Qed.

(** The common part of the statements about [heap_free]: it merges, then
    contracts. *)
Lemma heap_free_merged (st : heap_st P) h rs1 n rs2 :
  heap_rep (hm st) h (rs1 ++ Region true n :: rs2) -> h_lock (hm st) h = 0 ->
  let '(l1, n', l2) := spec_merge rs1 n rs2 in
  exists m', heap_rep m' h (l1 ++ Region false n' :: l2) /\
    (forall x, used_payload (h + sizeof_heap) (rs1 ++ Region false n :: rs2) x -> load8 m' x = load8 (hm st) x) /\
    h_end m' h = h_end (hm st) h /\ h_min_size m' h = h_min_size (hm st) h /\
    heap_free st h (h + sizeof_heap + span rs1 + sizeof_header) =
      let st1 := if contracts (hm st) h n' l2
                 then heap_contract (HeapSt m' (hp st)) h (ideal_size (hm st) h) (h + sizeof_heap + span l1)
                 else HeapSt m' (hp st) in
      Ret (HeapSt (set_lock (hm st1) h 0) (hp st1)).
Proof.
  intros Rep L. destruct (rep_lookup _ _ _ _ _ Rep) as (A1 & A2 & A3 & A4 & A5 & A6 & A7 & A8).
  unfold heap_free. pose proof (rep_base _ _ _ Rep). simpl r_size in *.
  replace (u32 (h + sizeof_heap + span rs1 + sizeof_header - sizeof_header)) with (h + sizeof_heap + span rs1)
    by (rewrite Z.add_simpl_r; symmetry; apply u32_small; lia).
  rewrite A5, magic_test_used. simpl negb. cbv iota.
  unfold spinlock_acquire. rewrite L, Z.eqb_refl, bind_ret.
  pose proof (rep_set_lock _ _ 1 _ Rep) as Rep1. set (m1 := set_lock (hm st) h 1) in *.
  pose proof (merge_regions_spec _ _ _ _ _ Rep1) as M.
  pose proof (fun x => merge_payload (h + sizeof_heap) rs1 n rs2 x) as Pay.
  destruct (merge_regions m1 h (h + sizeof_heap + span rs1)) as [b m2].
  destruct (spec_merge rs1 n rs2) as [[l1 n'] l2]. destruct M as (-> & Rep2 & F).
  assert (E1 : h_end m1 h = h_end (hm st) h) by (apply same_end; apply same_store8; lia).
  assert (E2 : h_end m2 h = h_end m1 h) by (apply same_end; intros x Hx; apply F; unfold sizeof_heap; lia).
  assert (M2 : h_min_size m2 h = h_min_size (hm st) h).
  { unfold h_min_size, load32. rewrite !F by (unfold sizeof_heap; lia).
    unfold m1. rewrite !load8_set_lock by lia. reflexivity. }
  exists m2. split_and!; auto; [|congruence|].
  { intros x Hx. rewrite F by auto. apply load8_set_lock.
    destruct Rep2 as [_ _ _ R]. apply Pay in Hx. pose proof (used_payload_bounds _ _ _ _ _ R Hx).
    unfold sizeof_heap in *. lia. }
  destruct (rep_lookup _ _ _ _ _ Rep2) as (B1 & B2 & B3 & B4 & B5 & B6 & B7 & B8). simpl r_size in *.
  unfold contracts, ideal_size in *. rewrite B6, B8, E2, E1.
  replace (h_end (hm st) h <=? h + sizeof_heap + span l1 + 12 + n') with (bool_decide (l2 = [])); [reflexivity|].
  destruct Rep2 as [_ He2 _ R]. rewrite span_app in He2. simpl in He2. unfold sizeof_heap, sizeof_header in *.
  apply regions_app in R as [_ [_ R]].
  destruct l2 as [|r2 l2]; [rewrite bool_decide_true by reflexivity; simpl in *; symmetry; lia|].
  rewrite bool_decide_false by congruence. pose proof (region_bytes _ _ _ _ _ R). simpl in He2. unfold sizeof_header in *.
  symmetry. lia.
Qed.


(** ** Growing the heap *)

Lemma lock_keeps_bounds m h v :
  h_end (set_lock m h v) h = h_end m h /\ h_max_addr (set_lock m h v) h = h_max_addr m h.
Proof. split; apply (same_load32 m _ h (h + 13)); try lia; apply same_store8; lia. Qed.

Definition grow_pages (n : Z) : Z := (n + MMNGR_PAGE_SIZE - 1) / MMNGR_PAGE_SIZE.

Lemma round_up_pages n : 0 <= n < 2 ^ 32 - 4096 ->
  (if 0 <? n mod MMNGR_PAGE_SIZE then u32 (n + (MMNGR_PAGE_SIZE - n mod MMNGR_PAGE_SIZE)) else n) / MMNGR_PAGE_SIZE
  = grow_pages n.
Proof.
  intros Hn. unfold grow_pages, MMNGR_PAGE_SIZE. pose proof (Z.mod_pos_bound n 4096 ltac:(lia)).
  pose proof (Z.div_mod n 4096 ltac:(lia)). case_test; wrap_small.
  - replace (n + (4096 - n mod 4096)) with ((n / 4096 + 1) * 4096) by lia. rewrite Z.div_mul by lia.
    apply Z.div_unique with (n mod 4096 - 1); lia.
  - apply Z.div_unique with (n mod 4096 + 4095); lia.
Qed.

Lemma needed_used_tail m h n a : hd_magic m a = HEAP_USED -> 0 <= n < 2 ^ 32 - 4108 ->
  needed_size m h n false a / MMNGR_PAGE_SIZE = grow_pages (n + sizeof_header).
Proof.
  intros E Hn. unfold needed_size. rewrite E, Z.eqb_refl. simpl andb. cbv iota.
  unfold sizeof_header in *. rewrite (u32_small (n + 12)) by lia. apply round_up_pages. lia.
Qed.

(** [heap_alloc] up to the point where the search has run off the end. *)
Lemma alloc_no_room fuel (st : heap_st P) h n rs :
  heap_rep (hm st) h rs -> h_lock (hm st) h = 0 -> 0 <= n < 2 ^ 32 - 12 -> spec_alloc n rs = None ->
  (length rs < fuel)%nat ->
  let m := set_lock (hm st) h 1 in
  let final := last_header (h + sizeof_heap) 0 rs in
  heap_alloc fuel st h n false =
    let '(err, st1) := heap_expand (HeapSt m (hp st)) h (needed_size m h n false final / MMNGR_PAGE_SIZE) final in
    if err : bool then Ret (0, HeapSt (set_lock (hm st1) h 0) (hp st1))
    else let '(hd, m') := place_region (hm st1) h final n false in
         Ret (u32 (hd + sizeof_header), HeapSt (set_lock m' h 0) (hp st1)).
Proof.
  intros Rep L Hn S Hfuel m final. apply spec_alloc_none in S.
  unfold heap_alloc, spinlock_acquire. rewrite L, Z.eqb_refl, bind_ret. fold m.
  pose proof (rep_set_lock _ _ 1 _ Rep) as Rep1. fold m in Rep1. destruct Rep1 as [Hh He Hf R].
  pose proof (regions_span _ _ _ _ R).
  unfold HEAP_FIRST_HEADER. unfold sizeof_heap in *. rewrite (u32_small (h + 14)) by lia.
  unfold sizeof_header in *. rewrite (u32_small (n + 12)) by lia.
  replace fuel with (length rs + Datatypes.S (fuel - length rs - 1))%nat by lia.
  rewrite <- (app_nil_r rs) in R.
  rewrite (find_region_skip _ _ _ (n + 12) _ _ _ _ _ R); [|lia|rewrite app_nil_r; lia|lia|assumption].
  cbn [find_region]. replace (h_end m h <=? h + 14 + span rs) with true by lia.
  rewrite bind_ret. replace (h_end m h <=? h + 14 + span rs) with true by lia.
  fold final. destruct (heap_expand _ _ _ _) as [err st1]. destruct err; reflexivity.
Qed.

(** Growing a heap whose last region is free extends that region. *)
Lemma expand_free_tail m p h rs1 s k f p' (st := HeapSt m p) (a := h + sizeof_heap + span rs1) :
  heap_rep m h (rs1 ++ [Region false s]) -> 0 <= k ->
  h_end m h + k * MMNGR_PAGE_SIZE <= h_max_addr m h ->
  ps_alloc_multi p k = (f, p') -> f <> 0 ->
  exists m' p'', heap_expand st h k a = (false, HeapSt m' p'') /\
    heap_rep m' h (rs1 ++ [Region false (s + k * MMNGR_PAGE_SIZE)]) /\
    (forall x, h + 4 <= x < a \/ a + 12 <= x -> load8 m' x = load8 m x).
Proof.
  intros Rep Hk Hmax Ha Hf0. pose proof (load32_range m (h + 4)) as Hr. fold (h_max_addr m h) in Hr.
  destruct (rep_lookup _ _ _ _ _ Rep) as (A1 & A2 & A3 & A4 & A5 & A6 & A7 & A8). fold a in A1, A2, A5, A6, A7, A8.
  destruct Rep as [Hh He Hf R]. simpl r_size in *. rewrite span_app in *. simpl in He, Hf.
  apply regions_app in R as [R1 R2]. fold a in R2. pose proof (regions_span _ _ _ _ R1).
  assert (Ea : a = h + 14 + span rs1) by (unfold a, sizeof_heap; lia).
  unfold heap_expand, st. cbn [hm hp]. unfold MMNGR_PAGE_SIZE, sizeof_heap, sizeof_header in *.
  rewrite (u32_small (h_end m h + _)) by lia.
  replace (h_max_addr m h <? _) with false by lia. rewrite Ha.
  replace (f =? 0) with false by lia. rewrite A5, A6. simpl magic_of. rewrite Z.eqb_refl.
  rewrite (u32_small (s + _)) by lia.
  set (m1 := set_size m a (s + k * 4096)).
  assert (F1 : forall x, x < a + 4 \/ a + 8 <= x -> load8 m1 x = load8 m x)
    by (intros; apply load8_store32_ne; lia).
  assert (E1 : h_end m1 h = h_end m h) by (apply same_end; intros x Hx; apply F1; lia).
  rewrite E1, (u32_small (h_end m h + _)) by lia.
  eexists _, _. split; [reflexivity|]. set (m2 := set_end m1 h _).
  assert (F2 : forall x, x < h \/ h + 4 <= x -> load8 m2 x = load8 m1 x)
    by (intros; apply load8_store32_ne; lia).
  split; [|intros x Hx; rewrite F2, F1 by lia; reflexivity].
  assert (B : hd_magic m1 a = HEAP_FREE /\ hd_size m1 a = s + k * 4096 /\ hd_prev m1 a = hd_prev m a).
  { unfold hd_magic, hd_size, hd_prev, m1, set_size. split_and!; mem_step; auto. apply u32_small. lia. }
  destruct B as (B1 & B2 & B3).
  destruct (header_same m1 m2 a) as (C1 & C2 & C3); [intros x Hx; apply F2; lia|].
  split; rewrite ?span_app; cbn [span r_size]; unfold sizeof_header, sizeof_heap; [lia| |lia|].
  - unfold m2, h_end at 1, set_end. rewrite load32_store32. rewrite u32_small by lia. lia.
  - apply regions_app. split.
    + eapply regions_same; [|exact R1]. intros x Hx. rewrite F2, F1 by lia. reflexivity.
    + cbn [regions_at r_size]. fold a. split; [|exact I]. rewrite C1, C2, C3, B1, B2, B3, A7. split_and!; auto. lia.
Qed.

(** ** The heap's contract *)

(** C2: heap_alloc without page alignment is first fit.  On a well-formed,
    unlocked heap holding the regions [rs], whenever some free region has room
    for the request and a header, it returns the payload address of the first
    such region, leaves the heap well formed with that region split (or taken
    whole when the rest would be under 4 bytes), releases the lock, touches no
    byte of a region in use, and hands out [n] bytes no region in use had. *)
Theorem heap_alloc_first_fit fuel (st : heap_st P) h n rs rs' off :
  heap_rep (hm st) h rs -> h_lock (hm st) h = 0 -> 0 <= n -> spec_alloc n rs = Some (rs', off) ->
  (length rs < fuel)%nat ->
  exists m', heap_alloc fuel st h n false = Ret (h + sizeof_heap + off, HeapSt m' (hp st)) /\
    heap_rep m' h rs' /\ h_lock m' h = 0 /\
    (forall x, used_payload (h + sizeof_heap) rs x -> load8 m' x = load8 (hm st) x) /\
    (forall x, h + sizeof_heap + off <= x < h + sizeof_heap + off + n ->
       used_payload (h + sizeof_heap) rs' x /\ ~ used_payload (h + sizeof_heap) rs x).
Proof.
  intros Rep L Hn S Hf. destruct (alloc_refines _ _ _ _ _ _ _ Rep L Hn S Hf) as (m' & E & R' & L' & F).
  exists m'. split_and!; auto. intros x Hx. eapply alloc_fresh; eauto.
Qed.

(** C3: heap_free merges.  Freeing a region in use of a well-formed, unlocked
    heap turns it free and merges it with a free successor and a free
    predecessor; if the result is the last region, [released_pages] pages of
    it are given back.  As long as the result has that many bytes, the heap
    stays well formed, the lock is released and no byte of a region in use
    changes. *)
Theorem heap_free_merges (st : heap_st P) h rs1 n rs2 l1 n' l2 :
  heap_rep (hm st) h (rs1 ++ Region true n :: rs2) -> h_lock (hm st) h = 0 ->
  spec_merge rs1 n rs2 = (l1, n', l2) ->
  let k := released_pages (hm st) h n' l2 in
  k * MMNGR_PAGE_SIZE <= n' ->
  exists st', heap_free st h (h + sizeof_heap + span rs1 + sizeof_header) = Ret st' /\
    heap_rep (hm st') h (l1 ++ Region false (n' - k * MMNGR_PAGE_SIZE) :: l2) /\
    h_lock (hm st') h = 0 /\
    (forall x, used_payload (h + sizeof_heap) (rs1 ++ Region false n :: rs2) x ->
       load8 (hm st') x = load8 (hm st) x).
Proof.
  intros Rep L S k Hk. pose proof (heap_free_merged _ _ _ _ _ Rep L) as M.
  pose proof (fun x => merge_payload (h + sizeof_heap) rs1 n rs2 x) as Pay.
  rewrite S in M, Pay. destruct M as (m' & Rep' & F & E1 & E2 & ->). eexists. split; [reflexivity|]. cbn [hm].
  pose proof Rep' as [_ _ _ R'].
  assert (Off : forall x, used_payload (h + sizeof_heap) (rs1 ++ Region false n :: rs2) x -> x <> h + 13).
  { intros x Hx. apply Pay in Hx. pose proof (used_payload_bounds _ _ _ _ _ R' Hx).
    unfold sizeof_heap in *. lia. }
  revert Hk. unfold k, released_pages. clear k. destruct (contracts (hm st) h n' l2) eqn:C; intros Hk.
  - assert (l2 = []) as -> by (unfold contracts in C; zbool; now apply bool_decide_eq_true in H0).
    rewrite <- (contract_count_ext _ m') in Hk |- * by auto.
    destruct (heap_contract_spec (HeapSt m' (hp st)) h l1 n' (ideal_size (hm st) h) Rep') as [Rep'' F']; cbn [hm] in *;
      [apply ideal_size_bounds|assumption|].
    split_and!; [now apply rep_set_lock|apply lock_set_lock|].
    intros x Hx. rewrite load8_set_lock by auto. rewrite F'; [auto|].
    apply Pay, used_payload_app in Hx. apply regions_app in R' as [R1 _].
    destruct Hx as [Hx|[[Hx _]|[]]]; [|discriminate].
    pose proof (used_payload_bounds _ _ _ _ _ R1 Hx). unfold sizeof_heap in *. lia.
  - rewrite Z.sub_0_r. split_and!; [now apply rep_set_lock|apply lock_set_lock|].
    intros x Hx. cbn [hm]. rewrite load8_set_lock by auto. auto.
Qed.

(** Growing over a free tail.  When no region has room, the last region
    is free and no larger than the request, and the page source delivers, the
    heap grows by the whole pages that the request lacks and the grown tail is
    split like any other region, provided that rounding up to pages leaves
    room for the header of the split. *)
Theorem heap_alloc_grows_free_tail fuel (st : heap_st P) h rs1 s n f p' :
  heap_rep (hm st) h (rs1 ++ [Region false s]) -> h_lock (hm st) h = 0 ->
  spec_alloc n (rs1 ++ [Region false s]) = None -> (length rs1 + 1 < fuel)%nat ->
  s <= n -> n - s < 2 ^ 32 - 4096 -> n < 2 ^ 32 - 12 ->
  let k := grow_pages (n - s) in
  n + sizeof_header <= s + k * MMNGR_PAGE_SIZE ->
  h_end (hm st) h + k * MMNGR_PAGE_SIZE <= h_max_addr (hm st) h ->
  ps_alloc_multi (hp st) k = (f, p') -> f <> 0 ->
  exists m' p'', heap_alloc fuel st h n false = Ret (h + sizeof_heap + span rs1 + sizeof_header, HeapSt m' p'') /\
    heap_rep m' h (rs1 ++ spec_place n (Region false (s + k * MMNGR_PAGE_SIZE))) /\ h_lock m' h = 0 /\
    (forall x, used_payload (h + sizeof_heap) rs1 x -> load8 m' x = load8 (hm st) x).
Proof.
  intros Rep L S Hfuel Hs Hn1 Hn2 k Hroom Hmax Ha Hf.
  pose proof Rep as [Hh He Hf' R]. apply regions_app in R as [R1 [(Mg & Sz & Pv & Hs0) _]]. simpl r_size in *.
  rewrite (alloc_no_room _ _ _ _ _ Rep) by (first [assumption|lia|rewrite length_app; simpl; lia]).
  rewrite last_header_snoc. pose proof (rep_set_lock _ _ 1 _ Rep) as Rep1. set (m := set_lock (hm st) h 1) in *.
  set (a := h + sizeof_heap + span rs1) in *.
  destruct (lock_keeps_bounds (hm st) h 1) as [Em1 Em2]. fold m in Em1, Em2.
  destruct (rep_lookup _ _ _ _ _ Rep1) as (A1 & A2 & A3 & A4 & A5 & A6 & A7 & A8). fold a in A1, A2, A5, A6, A7, A8.
  simpl r_size in *.
  assert (N : needed_size m h n false a / MMNGR_PAGE_SIZE = k).
  { unfold needed_size. rewrite A5, A6. simpl magic_of. change (HEAP_FREE =? HEAP_USED) with false. simpl andb. cbv iota.
    rewrite (u32_small (n - s)) by lia. apply round_up_pages. lia. }
  rewrite N.
  assert (Hk : 0 <= k) by (apply Z.div_pos; unfold MMNGR_PAGE_SIZE; lia).
  destruct (expand_free_tail m (hp st) h rs1 s k f p' Rep1 Hk) as (m1 & p1 & E & Rep2 & F1);
    [congruence|assumption|assumption|]. fold a in E. rewrite E. cbn [hm hp].
  destruct (place_region_spec m1 h n rs1 (Region false (s + k * MMNGR_PAGE_SIZE)) [] Rep2) as (m2 & E2 & Rep3 & F2 & _);
    [reflexivity|lia|exact Hroom|]. fold a in E2, F1, F2. rewrite E2.
  exists (set_lock m2 h 0), p1. split_and!.
  - rewrite u32_small; [reflexivity|]. unfold sizeof_header in *. lia.
  - rewrite app_nil_r in Rep3. now apply rep_set_lock.
  - apply lock_set_lock.
  - intros x Hx. pose proof (used_payload_bounds _ _ _ _ _ R1 Hx). fold a in H0. unfold sizeof_heap in *.
    rewrite load8_set_lock, F2, F1 by lia. apply load8_set_lock. lia.
Qed.

(** Growing over a used tail.  When no region has room, the last region
    is in use and the page source delivers, heap_alloc does not return the new
    region: the address it returns is the payload of that last region, which
    is still in use. *)
Theorem heap_alloc_reissues_used_tail fuel (st : heap_st P) h rs1 s n :
  heap_rep (hm st) h (rs1 ++ [Region true s]) -> h_lock (hm st) h = 0 ->
  spec_alloc n (rs1 ++ [Region true s]) = None -> (length rs1 + 1 < fuel)%nat -> 0 <= n < 2 ^ 32 - 4108 ->
  let k := grow_pages (n + sizeof_header) in
  h_end (hm st) h + k * MMNGR_PAGE_SIZE <= h_max_addr (hm st) h ->
  (ps_alloc_multi (hp st) k).1 <> 0 ->
  let a := h + sizeof_heap + span rs1 + sizeof_header in
  exists st', heap_alloc fuel st h n false = Ret (a, st') /\
    (0 < s -> used_payload (h + sizeof_heap) (rs1 ++ [Region true s]) a).
Proof.
  intros Rep L S Hfuel Hn k Hmax Ha a.
  pose proof Rep as [Hh He Hf' R]. apply regions_app in R as [R1 [(Mg & Sz & Pv & Hs0) _]]. simpl r_size in *.
  rewrite (alloc_no_room _ _ _ _ _ Rep) by (first [assumption|lia|rewrite length_app; simpl; lia]).
  rewrite last_header_snoc. pose proof (rep_set_lock _ _ 1 _ Rep) as Rep1. set (m := set_lock (hm st) h 1) in *.
  destruct (lock_keeps_bounds (hm st) h 1) as [Em1 Em2]. fold m in Em1, Em2.
  destruct (rep_lookup _ _ _ _ _ Rep1) as (A1 & A2 & A3 & A4 & A5 & A6 & A7 & A8). simpl r_size in *.
  rewrite (needed_used_tail _ _ _ _ A5) by lia. fold k. unfold heap_expand. cbn [hm hp].
  pose proof (load32_range m (h + 4)) as Hr. fold (h_max_addr m h) in Hr.
  assert (Hk : 0 <= k) by (apply Z.div_pos; unfold MMNGR_PAGE_SIZE, sizeof_header; lia).
  rewrite (u32_small (h_end m h + _)) by (unfold MMNGR_PAGE_SIZE in *; lia).
  replace (h_max_addr m h <? _) with false by lia.
  destruct (ps_alloc_multi (hp st) k) as [f p'] eqn:Ea. simpl in Ha.
  replace (f =? 0) with false by lia. unfold place_region. simpl andb. cbv iota.
  eexists. split.
  - rewrite u32_small; [reflexivity|]. unfold a, sizeof_header in *. lia.
  - intros Hs. apply used_payload_app. right. left. simpl. unfold a. lia.
Qed.

(** A heap that cannot grow reports failure.  When no region has room
    and the growth would pass max_addr, heap_alloc returns NULL and the heap
    is as before, lock released. *)
Lemma heap_alloc_exhausted fuel (st : heap_st P) h rs1 s n :
  heap_rep (hm st) h (rs1 ++ [Region true s]) -> h_lock (hm st) h = 0 ->
  spec_alloc n (rs1 ++ [Region true s]) = None -> (length rs1 + 1 < fuel)%nat -> 0 <= n < 2 ^ 32 - 4108 ->
  h_end (hm st) h + grow_pages (n + sizeof_header) * MMNGR_PAGE_SIZE < 2 ^ 32 ->
  h_max_addr (hm st) h < h_end (hm st) h + grow_pages (n + sizeof_header) * MMNGR_PAGE_SIZE ->
  exists m', heap_alloc fuel st h n false = Ret (0, HeapSt m' (hp st)) /\
    heap_rep m' h (rs1 ++ [Region true s]) /\ h_lock m' h = 0 /\
    (forall x, x <> h + 13 -> load8 m' x = load8 (hm st) x).
Proof.
  intros Rep L S Hfuel Hn Hw Hmax.
  pose proof Rep as [Hh He Hf' R]. apply regions_app in R as [R1 [(Mg & Sz & Pv & Hs0) _]]. simpl r_size in *.
  rewrite (alloc_no_room _ _ _ _ _ Rep) by (first [assumption|lia|rewrite length_app; simpl; lia]).
  rewrite last_header_snoc. pose proof (rep_set_lock _ _ 1 _ Rep) as Rep1. set (m := set_lock (hm st) h 1) in *.
  destruct (lock_keeps_bounds (hm st) h 1) as [Em1 Em2]. fold m in Em1, Em2.
  destruct (rep_lookup _ _ _ _ _ Rep1) as (A1 & A2 & A3 & A4 & A5 & A6 & A7 & A8). simpl r_size in *.
  rewrite (needed_used_tail _ _ _ _ A5) by lia. unfold heap_expand. cbn [hm hp].
  set (k := grow_pages (n + sizeof_header)) in *.
  assert (Hk : 0 <= k) by (apply Z.div_pos; unfold MMNGR_PAGE_SIZE, sizeof_header; lia).
  rewrite (u32_small (h_end m h + _)) by (unfold MMNGR_PAGE_SIZE in *; lia).
  replace (h_max_addr m h <? _) with true by lia. eexists. split_and!; [reflexivity|..].
  - now apply rep_set_lock.
  - apply lock_set_lock.
  - intros x Hx. cbn [hm]. unfold m. now rewrite !load8_set_lock by assumption.
Qed.

(** Contraction can cut into live memory.  When heap_free decides to give
    back more pages than the merged tail region holds, the heap's new end lies
    below the payload of that region: the tail's own header, and whatever region
    in use precedes it, are on pages that were unmapped. *)
Theorem heap_free_overcontracts (st : heap_st P) h rs1 n rs2 l1 n' l2 :
  heap_rep (hm st) h (rs1 ++ Region true n :: rs2) -> h_lock (hm st) h = 0 ->
  spec_merge rs1 n rs2 = (l1, n', l2) ->
  let k := released_pages (hm st) h n' l2 in
  n' < k * MMNGR_PAGE_SIZE <= h_end (hm st) h ->
  exists st', heap_free st h (h + sizeof_heap + span rs1 + sizeof_header) = Ret st' /\
    h_end (hm st') h = h_end (hm st) h - k * MMNGR_PAGE_SIZE /\
    h_end (hm st') h < h + sizeof_heap + span l1 + sizeof_header.
Proof.
  intros Rep L S k Hk. pose proof (heap_free_merged _ _ _ _ _ Rep L) as M.
  rewrite S in M. destruct M as (m' & Rep' & F & E1 & E2 & ->).
  destruct (rep_lookup _ _ _ _ _ Rep') as (A1 & A2 & A3 & A4 & A5 & A6 & A7 & A8). simpl r_size in *.
  revert Hk. unfold k, released_pages. clear k. destruct (contracts (hm st) h n' l2) eqn:C; [|unfold MMNGR_PAGE_SIZE; lia].
  intros Hk. assert (l2 = []) as -> by (unfold contracts in C; zbool; now apply bool_decide_eq_true in H0).
  unfold heap_contract. cbn [hm hp]. rewrite (contract_count_ext (hm st) m') by auto.
  set (c := contract_count (hm st) h _) in *.
  destruct Rep' as [Hh He Hf R]. rewrite span_app in He. simpl in He. unfold sizeof_header in He.
  set (m1 := set_size m' _ _).
  assert (E3 : h_end m1 h = h_end m' h) by (apply same_end, same_store32; unfold sizeof_heap in *; lia).
  destruct (contract_pages_mem (Z.to_nat c) (HeapSt m1 (hp st)) h) as [I1 _]; cbn [hm] in *;
    [lia|unfold MMNGR_PAGE_SIZE in *; lia|].
  eexists. split; [reflexivity|]. cbn [hm].
  rewrite (same_end (hm (contract_pages (HeapSt m1 (hp st)) h (Z.to_nat c)))) by (apply same_store8; lia).
  unfold MMNGR_PAGE_SIZE, sizeof_header in *. lia.
Qed.

(** heap_new builds a well-formed heap: when the page source delivers,
    the heap is unlocked, records its bounds and flags, and consists of one
    free region filling everything after the two headers. *)
Lemma heap_new_rep (st : heap_st P) start size max_size flags f p' :
  ps_alloc_multi (hp st) (size / MMNGR_PAGE_SIZE) = (f, p') -> f <> 0 ->
  0 < start -> sizeof_heap + sizeof_header <= size <= max_size -> start + max_size < 2 ^ 32 -> 0 <= flags < 256 ->
  exists st', heap_new st start size max_size flags = (start, st') /\
    heap_rep (hm st') start [Region false (size - sizeof_heap - sizeof_header)] /\
    h_lock (hm st') start = 0 /\ h_min_size (hm st') start = size /\
    h_max_addr (hm st') start = start + max_size /\ h_flags (hm st') start = flags.
Proof.
  intros Ha Hf Hs Hsz Hmax Hfl. unfold heap_new. rewrite Ha. replace (f =? 0) with false by lia.
  eexists. split; [reflexivity|]. cbn [hm].
  unfold HEAP_FIRST_HEADER, set_lock. unfold sizeof_heap, sizeof_header in *. rewrite (u32_small (start + 14)) by lia.
  rewrite (u32_small (start + size)), (u32_small (start + max_size)) by lia.
  set (m0 := store8 _ (start + 13) 0).
  assert (M0 : h_end m0 start = start + size /\ h_max_addr m0 start = start + max_size /\
               h_min_size m0 start = size /\ load8 m0 (start + 12) = flags /\ load8 m0 (start + 13) = 0).
  { assert (S8 : forall m v x w, x + 4 <= v -> load32 (store8 m v w) x = load32 m x).
    { intros m v x w Hx. apply (same_load32 m _ x (x + 4)); try lia. apply same_store8. lia. }
    unfold m0, h_end, h_max_addr, h_min_size, set_end. rewrite !S8 by lia. split_and!; mem_step.
    - apply u32_small. lia.
    - apply u32_small. lia.
    - apply u32_small. lia.
    - rewrite !load8_store8. replace (start + 13 =? start + 12) with false by lia. rewrite Z.eqb_refl.
      apply u8_small. lia.
    - rewrite load8_store8, Z.eqb_refl. reflexivity. }
  destruct M0 as (M1 & M2 & M3 & M4 & M5). clearbody m0.
  assert (E : h_end (set_magic m0 (start + 14) HEAP_FREE) start = start + size).
  { rewrite (same_end m0); [assumption|]. apply same_store32. lia. }
  rewrite E. rewrite (u32_small (start + size - (start + 14) - 12)) by lia.
  set (m1 := set_prev _ (start + 14) 0).
  assert (F : forall x, x < start + 14 -> load8 m1 x = load8 m0 x)
    by (intros; unfold m1, set_prev, set_size, set_magic; rewrite !load8_store32_ne by lia; reflexivity).
  assert (Q : hd_magic m1 (start + 14) = HEAP_FREE /\ hd_size m1 (start + 14) = size - 26 /\ hd_prev m1 (start + 14) = 0).
  { unfold m1, hd_magic, hd_size, hd_prev, set_prev, set_size, set_magic. split_and!; mem_step;
      [reflexivity|rewrite u32_small; lia|reflexivity]. }
  destruct Q as (Q1 & Q2 & Q3). clearbody m1.
  assert (E1 : h_end m1 start = start + size) by (rewrite (same_end m0); [assumption|intros x Hx; apply F; lia]).
  split_and!.
  - split; unfold sizeof_heap; simpl; unfold sizeof_header; [lia|lia|lia|].
    rewrite Q1, Q2, Q3. split_and!; auto; lia.
  - unfold h_lock. rewrite F by lia. assumption.
  - rewrite <- M3. unfold h_min_size. apply (same_load32 m0 m1 start (start + 14)); try lia. intros x Hx. apply F. lia.
  - rewrite <- M2. unfold h_max_addr. apply (same_load32 m0 m1 start (start + 14)); try lia. intros x Hx. apply F. lia.
  - unfold h_flags. rewrite F by lia. assumption.
Qed.
End refinement.

(** ** The kernel heap (kheap.c)

    The constants come from the build's environment file. *)
Definition KHEAP_START : Z := 0xc0800000.
Definition KHEAP_INITIAL_SIZE : Z := 0x100000.
Definition KHEAP_MAX_SIZE : Z := 0x1000000.

Section kheap.
Context {P : Type} `{PageSource P}.

(** The static [kheap] pointer is [heap]; [true] means failure. *)
Definition kheap_init (st : heap_st P) : bool * Z * heap_st P :=
  let '(kheap, st) := heap_new st KHEAP_START KHEAP_INITIAL_SIZE KHEAP_MAX_SIZE HEAP_SUPERVISOR in
  (kheap =? 0, kheap, st).

Definition kmalloc (fuel : nat) (st : heap_st P) (kheap size : Z) : outcome (Z * heap_st P) :=
  heap_alloc fuel st kheap size false.

Definition kfree (st : heap_st P) (kheap addr : Z) : outcome (heap_st P) := heap_free st kheap addr.
End kheap.

(** ** Concrete runs *)
Module Runs.
(** A page source that hands out successive frames and never runs dry. *)
#[local] Instance bump_pages : PageSource Z := {
  ps_alloc_multi p n := (p, p + n * MMNGR_PAGE_SIZE);
  ps_map p _ _ _ := p;
  ps_to_physical _ v := v;
  ps_unmap p _ := p;
  ps_free p _ := p;
}.

(** A heap of one page at 0x1000 that may grow to eight. *)
Definition h0 : heap_st Z := (heap_new (HeapSt ∅ 0x100000) 0x1000 0x1000 0x8000 HEAP_SUPERVISOR).2.
Definition run_alloc (st : heap_st Z) (n : Z) : heap_st Z :=
  match heap_alloc 10 st 0x1000 n false with Ret (_, st) => st | _ => st end.
Definition h1 : heap_st Z := run_alloc h0 100.
Definition h2 : heap_st Z := run_alloc h1 200.

Lemma h2_rep : heap_rep (hm h2) 0x1000 [Region true 100; Region true 200; Region false 3746].
Proof. apply (bool_decide_unpack _). vm_compute. exact I. Qed.

(** Two regions in use and a free tail; then the tail used up; then a heap
    grown to three pages with a small block before its tail. *)
Definition rs2 : list region := [Region true 100; Region true 200; Region false 3746].
Definition h3 : heap_st Z := run_alloc h2 3734.
Definition rs3 : list region := [Region true 100; Region true 200; Region true 3746].
Definition h4 : heap_st Z := run_alloc (run_alloc (run_alloc h2 4000) 4050) 20.
Definition rs4 : list region := [Region true 100; Region true 200; Region true 4000; Region true 4050].

Ltac by_run := by_eval.

Lemma heap_alloc_first_fit_witness : exists rs' off m',
  heap_alloc 10 h2 0x1000 50 false = Ret (0x1000 + sizeof_heap + off, HeapSt m' (hp h2)) /\ heap_rep m' 0x1000 rs'.
Proof.
  destruct (heap_alloc_first_fit 10 h2 0x1000 50 rs2 ([Region true 100; Region true 200] ++ spec_place 50 (Region false 3746)) 336)
    as (m' & E & R & _); try by_run.
  eauto.
Defined.

Lemma heap_free_merges_witness : exists st',
  heap_free h2 0x1000 (0x1000 + sizeof_heap + 112 + sizeof_header) = Ret st' /\
  heap_rep (hm st') 0x1000 [Region true 100; Region false 3958].
Proof.
  destruct (heap_free_merges h2 0x1000 [Region true 100] 200 [Region false 3746] [Region true 100] 3958 [])
    as (st' & E & R & _); try by_run.
  exists st'. split; [exact E|exact R].
Defined.

Lemma heap_alloc_grows_free_tail_witness : exists m' p'',
  heap_alloc 10 h2 0x1000 4000 false = Ret (0x1000 + sizeof_heap + 324 + sizeof_header, HeapSt m' p'').
Proof.
  destruct (heap_alloc_grows_free_tail 10 h2 0x1000 [Region true 100; Region true 200] 3746 4000
    (hp h2) (hp h2 + 4096)) as (m' & p'' & E & _); try by_run.
  eauto.
Defined.

Lemma heap_alloc_reissues_used_tail_witness : exists st',
  heap_alloc 10 h3 0x1000 10 false = Ret (0x1000 + sizeof_heap + 324 + sizeof_header, st').
Proof.
  destruct (heap_alloc_reissues_used_tail 10 h3 0x1000 [Region true 100; Region true 200] 3746 10)
    as (st' & E & _); try by_run.
  exists st'. exact E.
Defined.

Lemma heap_alloc_exhausted_witness : exists m', heap_alloc 10 h3 0x1000 0x8000 false = Ret (0, HeapSt m' (hp h3)).
Proof.
  destruct (heap_alloc_exhausted 10 h3 0x1000 [Region true 100; Region true 200] 3746 0x8000)
    as (m' & E & _); try by_run.
  exists m'. exact E.
Defined.

Lemma heap_free_overcontracts_witness : exists st',
  heap_free h4 0x1000 (0x1000 + sizeof_heap + span rs4 + sizeof_header) = Ret st' /\
  h_end (hm st') 0x1000 < 0x1000 + sizeof_heap + span rs4 + sizeof_header.
Proof.
  destruct (heap_free_overcontracts h4 0x1000 rs4 20 [Region false 3832] rs4 3864 [])
    as (st' & E & _ & L); try by_run.
  exists st'. split; [exact E|exact L].
Defined.

Lemma heap_new_rep_witness : exists st',
  heap_new (HeapSt ∅ 0x100000) 0x1000 0x1000 0x8000 HEAP_SUPERVISOR = (0x1000, st') /\
  heap_rep (hm st') 0x1000 [Region false 4070].
Proof.
  destruct (heap_new_rep (HeapSt ∅ 0x100000) 0x1000 0x1000 0x8000 HEAP_SUPERVISOR 0x100000 0x101000)
    as (st' & E & R & _); try by_run.
  exists st'. split; [exact E|exact R].
Defined.
End Runs.
