(* ===== verification/Vmm.v ===== *)
(** * The virtual memory manager (kernel/src/mem/vmmngr.c)

    Every page directory and page table lives in physical memory and is edited
    through virtual addresses: the recursive slot 1023 of the active directory,
    or one of two temporary pages.  The model keeps physical memory as words
    and sends each access of the code through [translate], the two-level walk
    the processor does from CR3; an access to an unmapped address is a [Fault].
    Translations are taken from memory at each access: the processor's cache of
    them, which the code flushes after each change, is not modelled. *)
From S2P Require Import Prelude Mem Pmm Heap.

(** mem.h and the environment file *)
Definition PAGE_FRAME_BITS : Z := 0xfffff000.
Definition VMMNGR_PD : Z := 0xfffff000.
Definition VMMNGR_TEMP_TABLE : Z := 0xc03fe000.
Definition VMMNGR_TEMP_PD : Z := 0xc03ff000.
Definition KERNEL_START : Z := 0xc0000000.
Definition PDE_PRESENT : Z := 1.
Definition PDE_WRITABLE : Z := 2.
Definition PAGE_DIRECTORY_INDEX (addr : Z) : Z := Z.land (Z.shiftr addr 22) 0x3ff.
Definition PAGE_TABLE_INDEX (addr : Z) : Z := Z.land (Z.shiftr addr 12) 0x3ff.
Definition PAGE_TABLE_LOOKUP (page addr : Z) : Z := u32 (page + 4 * PAGE_TABLE_INDEX addr).
Definition PAGE_DIRECTORY_LOOKUP (page addr : Z) : Z := u32 (page + 4 * PAGE_DIRECTORY_INDEX addr).
Definition PAGE_TABLE_ADDR (idx : Z) : Z := u32 (0xffc00000 + idx * MMNGR_PAGE_SIZE).

Inductive MEM_ERR := ERR_MEM_SUCCESS | ERR_MEM_OOM | ERR_MEM_UNMAPPED.

(** [words] is physical memory, [frames] the frame allocator. *)
Record vm := Vm {
  words : gmap Z Z;
  cr3 : Z;
  current_page_directory : Z;
  frames : pmm;
}.

Definition rd (s : vm) (pa : Z) : Z := default 0 (words s !! pa).
Definition wr (s : vm) (pa v : Z) : vm := Vm (<[pa := u32 v]> (words s)) (cr3 s) (current_page_directory s) (frames s).
Definition set_frames (s : vm) (p : pmm) : vm := Vm (words s) (cr3 s) (current_page_directory s) p.

(** ** The processor's walk *)

Definition present (e : Z) : bool := negb (Z.land e PTE_PRESENT =? 0).
Definition frame_of (e : Z) : Z := Z.land e PAGE_FRAME_BITS.

Definition pde_addr (pd va : Z) : Z := pd + 4 * PAGE_DIRECTORY_INDEX va.
Definition pte_addr (pt va : Z) : Z := pt + 4 * PAGE_TABLE_INDEX va.

(** The page table entry for [va] under the directory at [pd]. *)
Definition walk (s : vm) (pd va : Z) : option Z :=
  let pde := rd s (pde_addr pd va) in
  if present pde then
    let pte := rd s (pte_addr (frame_of pde) va) in
    if present pte then Some pte else None
  else None.

Definition translate (s : vm) (va : Z) : option Z :=
  match walk s (cr3 s) va with
  | Some pte => Some (frame_of pte + va mod MMNGR_PAGE_SIZE)
  | None => None
  end.

Definition vread (s : vm) (va : Z) : outcome Z :=
  match translate s va with Some pa => Ret (rd s pa) | None => Fault end.
Definition vwrite (s : vm) (va v : Z) : outcome vm :=
  match translate s va with Some pa => Ret (wr s pa v) | None => Fault end.

(** ** The operations of vmmngr.c; a null directory is 0 *)

Definition page_entry_set_frame (s : vm) (pe addr : Z) : outcome vm :=
  v ← vread s pe; vwrite s pe (Z.lor (Z.land v 0xfff) addr).
Definition page_entry_add_attrib (s : vm) (pe attrib : Z) : outcome vm :=
  v ← vread s pe; vwrite s pe (Z.lor v (Z.land (u16 attrib) 0xfff)).
Definition page_entry_del_attrib (s : vm) (pe attrib : Z) : outcome vm :=
  v ← vread s pe; vwrite s pe (Z.land v (Z.lnot (Z.land (u16 attrib) 0xfff))).

Definition map_temporary_pd (s : vm) (pd : Z) : outcome vm :=
  let pt := PAGE_TABLE_ADDR (PAGE_DIRECTORY_INDEX VMMNGR_TEMP_PD) in
  vwrite s (PAGE_TABLE_LOOKUP pt VMMNGR_TEMP_PD) (Z.lor (Z.lor pd PTE_PRESENT) PTE_WRITABLE).
Definition unmap_temporary_pd (s : vm) : outcome vm :=
  let pt := PAGE_TABLE_ADDR (PAGE_DIRECTORY_INDEX VMMNGR_TEMP_PD) in
  vwrite s (PAGE_TABLE_LOOKUP pt VMMNGR_TEMP_PD) 0.
Definition map_temporary_pt (s : vm) (phys : Z) : outcome vm :=
  let pt := PAGE_TABLE_ADDR (PAGE_DIRECTORY_INDEX VMMNGR_TEMP_TABLE) in
  vwrite s (PAGE_TABLE_LOOKUP pt VMMNGR_TEMP_TABLE) (Z.lor (Z.lor phys PTE_PRESENT) PTE_WRITABLE).
Definition unmap_temporary_pt (s : vm) : outcome vm :=
  let pt := PAGE_TABLE_ADDR (PAGE_DIRECTORY_INDEX VMMNGR_TEMP_TABLE) in
  vwrite s (PAGE_TABLE_LOOKUP pt VMMNGR_TEMP_TABLE) 0.

(** [if(page_directory) ...] and [if(mapped_temp_table) ...] *)
Definition when (b : bool) (f : vm -> outcome vm) (s : vm) : outcome vm := if b then f s else Ret s.

Definition vmmngr_get_page_directory (s : vm) : Z := current_page_directory s.

(** The common prologue: the virtual address of the directory to work on. *)
Definition open_directory (s : vm) (pd : Z) : outcome (Z * vm) :=
  if pd =? 0 then Ret (VMMNGR_PD, s)
  else s ← map_temporary_pd s pd; Ret (VMMNGR_TEMP_PD, s).

(** The table a present entry [pde] points to: the recursive address in the
    active directory, the temporary page otherwise. *)
Definition open_table (s : vm) (pd virt pde : Z) : outcome (Z * bool * vm) :=
  if pd =? 0 then Ret (PAGE_TABLE_ADDR (PAGE_DIRECTORY_INDEX virt), false, s)
  else s ← map_temporary_pt s (Z.land pde PAGE_FRAME_BITS); Ret (VMMNGR_TEMP_TABLE, true, s).

Definition close_all (s : vm) (pd : Z) (mapped_temp_table : bool) : outcome vm :=
  s ← when mapped_temp_table unmap_temporary_pt s;
  when (negb (pd =? 0)) unmap_temporary_pd s.

(** The final [*pte] is read after the temporary pages are gone, as in the
    code. *)
Definition vmmngr_to_physical_addr (s : vm) (pd virt : Z) : outcome (Z * vm) :=
  '(virt_pd, s) ← open_directory s pd;
  pde ← vread s (PAGE_DIRECTORY_LOOKUP virt_pd virt);
  if Z.land pde PDE_PRESENT =? 0 then s ← close_all s pd false; Ret (0, s)
  else
    '(table, mapped, s) ← open_table s pd virt pde;
    let pte := PAGE_TABLE_LOOKUP table virt in
    v ← vread s pte;
    if Z.land v PTE_PRESENT =? 0 then s ← close_all s pd mapped; Ret (0, s)
    else
      s ← close_all s pd mapped;
      v ← vread s pte; Ret (Z.land v PAGE_FRAME_BITS, s).

(** [memset(va, 0, 4 * n)] on an aligned address, word by word *)
Fixpoint zero_words (s : vm) (va : Z) (n : nat) : outcome vm :=
  match n with
  | O => Ret s
  | S n' => s ← vwrite s va 0; zero_words s (va + 4) n'
  end.

(** The page table to modify: a new one when the entry is not present. *)
Definition table_for_map (s : vm) (pd virt virt_pd flags : Z) : outcome (option (Z * bool * bool) * vm) :=
  let pde := PAGE_DIRECTORY_LOOKUP virt_pd virt in
  v ← vread s pde;
  if Z.land v PDE_PRESENT =? 0 then
    let '(new_phys, p) := pmmngr_alloc_block (frames s) in
    let s := set_frames s p in
    if new_phys =? 0 then Ret (None, s)
    else
      s ← page_entry_add_attrib s pde (Z.lor flags PDE_PRESENT);
      s ← page_entry_set_frame s pde new_phys;
      s ← map_temporary_pt s new_phys;
      Ret (Some (VMMNGR_TEMP_TABLE, true, true), s)
  else '(table, mapped, s) ← open_table s pd virt v; Ret (Some (table, mapped, false), s).

Definition vmmngr_map (s : vm) (pd phys virt flags : Z) : outcome (MEM_ERR * vm) :=
  '(virt_pd, s) ← open_directory s pd;
  '(t, s) ← table_for_map s pd virt virt_pd flags;
  match t with
  | None => s ← when (negb (pd =? 0)) unmap_temporary_pd s; Ret (ERR_MEM_OOM, s)
  | Some (table_to_modify, mapped_temp_table, new_table) =>
      s ← when new_table (fun s => zero_words s table_to_modify 1024) s;
      let pte := PAGE_TABLE_LOOKUP table_to_modify virt in
      s ← page_entry_add_attrib s pte (Z.lor PTE_PRESENT flags);
      s ← page_entry_set_frame s pte phys;
      s ← close_all s pd mapped_temp_table;
      Ret (ERR_MEM_SUCCESS, s)
  end.

Definition vmmngr_unmap (s : vm) (pd virt : Z) : outcome vm :=
  '(virt_pd, s) ← open_directory s pd;
  pde ← vread s (PAGE_DIRECTORY_LOOKUP virt_pd virt);
  if Z.land pde PDE_PRESENT =? 0 then close_all s pd false
  else
    '(table, mapped, s) ← open_table s pd virt pde;
    let pte := PAGE_TABLE_LOOKUP table virt in
    v ← vread s pte;
    if Z.land v PTE_PRESENT =? 0 then close_all s pd mapped
    else s ← vwrite s pte 0; close_all s pd mapped.

Definition vmmngr_alloc_page (s : vm) (pte : Z) : outcome (MEM_ERR * vm) :=
  let '(p, fr) := pmmngr_alloc_block (frames s) in
  let s := set_frames s fr in
  if p =? 0 then Ret (ERR_MEM_OOM, s)
  else
    s ← page_entry_set_frame s pte p;
    s ← page_entry_add_attrib s pte PTE_PRESENT;
    Ret (ERR_MEM_SUCCESS, s).

Definition vmmngr_free_page (s : vm) (pte : Z) : outcome vm :=
  v ← vread s pte;
  let p := Z.land v PAGE_FRAME_BITS in
  let s := if p =? 0 then s else set_frames s (pmmngr_free_block (frames s) p) in
  page_entry_del_attrib s pte PTE_PRESENT.

(** [memcpy(dst, src, 4 * n)] between aligned addresses *)
Fixpoint copy_words (s : vm) (dst src : Z) (n : nat) : outcome vm :=
  match n with
  | O => Ret s
  | S n' => v ← vread s src; s ← vwrite s dst v; copy_words s (dst + 4) (src + 4) n'
  end.

(** [kernel_pd_data] is the virtual address of the kernel's directory. *)
Definition vmmngr_alloc_page_directory (s : vm) (kernel_pd_data : Z) : outcome (Z * vm) :=
  let '(pd, p) := pmmngr_alloc_block (frames s) in
  let s := set_frames s p in
  if pd =? 0 then Ret (0, s)
  else
    s ← map_temporary_pd s pd;
    s ← copy_words s VMMNGR_TEMP_PD kernel_pd_data 1024;
    let final_pde := VMMNGR_TEMP_PD + 4 * 1023 in
    s ← page_entry_add_attrib s final_pde (Z.lor PDE_PRESENT PDE_WRITABLE);
    s ← page_entry_set_frame s final_pde pd;
    s ← unmap_temporary_pd s;
    Ret (pd, s).

(** Releasing the frames of the table mapped at the temporary page. *)
Fixpoint free_frames (s : vm) (va : Z) (n : nat) : outcome vm :=
  match n with
  | O => Ret s
  | S n' =>
      v ← vread s va;
      let frame := Z.land v PAGE_FRAME_BITS in
      let s := if frame =? 0 then s else set_frames s (pmmngr_free_block (frames s) frame) in
      free_frames s (va + 4) n'
  end.

Fixpoint free_tables (s : vm) (i : Z) (n : nat) : outcome vm :=
  match n with
  | O => Ret s
  | S n' =>
      if KERNEL_START <=? u32 (u32 (i * MMNGR_PAGE_SIZE) * 1024) then Ret s
      else
        e ← vread s (VMMNGR_TEMP_PD + 4 * i);
        if e =? 0 then free_tables s (i + 1) n'
        else
          let phys_table := Z.land e PAGE_FRAME_BITS in
          s ← map_temporary_pt s phys_table;
          s ← free_frames s VMMNGR_TEMP_TABLE 1024;
          let s := set_frames s (pmmngr_free_block (frames s) phys_table) in
          s ← unmap_temporary_pt s;
          free_tables s (i + 1) n'
  end.

Definition vmmngr_free_page_directory (s : vm) (pd : Z) : outcome vm :=
  s ← map_temporary_pd s pd;
  s ← free_tables s 0 1024;
  let s := set_frames s (pmmngr_free_block (frames s) pd) in
  unmap_temporary_pd s.

Definition vmmngr_switch_page_directory (s : vm) (dir : Z) : vm :=
  if current_page_directory s =? dir then s else Vm (words s) dir dir (frames s).

(** [kernel_pd_data - KERNEL_START] is the kernel directory's physical address. *)
Definition vmmngr_init (s : vm) (kernel_pd_data : Z) : vm :=
  Vm (words s) (cr3 s) (u32 (kernel_pd_data - KERNEL_START)) (frames s).

(** ** Addresses and entries *)

Lemma pdi_eq a : PAGE_DIRECTORY_INDEX a = a / 4194304 mod 1024.
Proof.
  unfold PAGE_DIRECTORY_INDEX. change 0x3ff with (Z.ones 10). rewrite Z.land_ones by lia.
  now rewrite Z.shiftr_div_pow2 by lia.
Qed.

Lemma pti_eq a : PAGE_TABLE_INDEX a = a / 4096 mod 1024.
Proof.
  unfold PAGE_TABLE_INDEX. change 0x3ff with (Z.ones 10). rewrite Z.land_ones by lia.
  now rewrite Z.shiftr_div_pow2 by lia.
Qed.

Lemma pdi_range a : 0 <= PAGE_DIRECTORY_INDEX a < 1024.
Proof. rewrite pdi_eq. apply Z.mod_pos_bound. lia. Qed.

Lemma pti_range a : 0 <= PAGE_TABLE_INDEX a < 1024.
Proof. rewrite pti_eq. apply Z.mod_pos_bound. lia. Qed.

Lemma index_split hi mid lo : 0 <= hi < 1024 -> 0 <= mid < 1024 -> 0 <= lo < 4096 ->
  let a := hi * 4194304 + mid * 4096 + lo in
  PAGE_DIRECTORY_INDEX a = hi /\ PAGE_TABLE_INDEX a = mid /\ a mod 4096 = lo.
Proof.
  intros Hh Hm Hl a. rewrite pdi_eq, pti_eq. unfold a.
  split_and!.
  - rewrite <- (Z.mod_small hi 1024) at 2 by lia. f_equal. symmetry.
    apply Z.div_unique with (mid * 4096 + lo); lia.
  - replace ((hi * 4194304 + mid * 4096 + lo) / 4096) with (hi * 1024 + mid)
      by (apply Z.div_unique with lo; lia).
    rewrite Z.add_comm, Z.mod_add by lia. apply Z.mod_small. lia.
  - replace (hi * 4194304 + mid * 4096 + lo) with (lo + (hi * 1024 + mid) * 4096) by lia.
    rewrite Z.mod_add by lia. apply Z.mod_small. lia.
Qed.

(** A page-aligned 32-bit physical address *)
Definition is_frame (f : Z) : Prop := 0 <= f < 2 ^ 32 /\ f mod 4096 = 0.

Lemma frame_of_eq e : frame_of e = 4096 * (e / 4096 mod 1048576).
Proof.
  unfold frame_of, PAGE_FRAME_BITS.
  change 0xfffff000 with (Z.shiftl (Z.ones 20) 12).
  replace (Z.land e (Z.shiftl (Z.ones 20) 12)) with (Z.shiftl (Z.land (Z.shiftr e 12) (Z.ones 20)) 12).
  - rewrite Z.land_ones, Z.shiftl_mul_pow2, Z.shiftr_div_pow2 by lia.
    change (2 ^ 12) with 4096. change (2 ^ 20) with 1048576. apply Z.mul_comm.
  - rewrite Z.shiftl_land. apply Z.bits_inj'. intros i Hi. rewrite !Z.land_spec.
    destruct (decide (12 <= i)).
    + rewrite !Z.shiftl_spec, Z.shiftr_spec by lia. now rewrite Z.sub_add.
    + rewrite !Z.shiftl_spec by lia. rewrite (Z.testbit_neg_r (Z.ones 20) (i - 12)) by lia. now rewrite !andb_false_r.
Qed.

Lemma frame_of_is_frame e : is_frame (frame_of e).
Proof.
  rewrite frame_of_eq. pose proof (Z.mod_pos_bound (e / 4096) 1048576 ltac:(lia)). split; [lia|].
  rewrite Z.mul_comm. apply Z.mod_mul. lia.
Qed.

Lemma frame_of_frame f : is_frame f -> frame_of f = f.
Proof.
  intros [Hr Hm]. rewrite frame_of_eq. rewrite Z.mod_small by (split; [apply Z.div_pos|apply Z.div_lt_upper_bound]; lia).
  pose proof (Z.div_mod f 4096 ltac:(lia)). lia.
Qed.

Lemma frame_of_lor a b : frame_of (Z.lor a b) = Z.lor (frame_of a) (frame_of b).
Proof. unfold frame_of. apply Z.land_lor_distr_l. Qed.

Lemma frame_of_low e : 0 <= e < 4096 -> frame_of e = 0.
Proof. intros. rewrite frame_of_eq, Z.div_small by lia. reflexivity. Qed.

Lemma frame_of_mask e m : 0 <= m < 4096 -> frame_of (Z.land e m) = 0.
Proof. intros. apply frame_of_low. rewrite Z.land_comm. apply (land_bound m e 12); lia. Qed.

Lemma frame_slot f g i j : is_frame f -> is_frame g -> 0 <= i < 1024 -> 0 <= j < 1024 ->
  f + 4 * i = g + 4 * j -> f = g /\ i = j.
Proof.
  intros [? Hf] [? Hg] ? ? E. pose proof (Z.div_mod f 4096 ltac:(lia)). pose proof (Z.div_mod g 4096 ltac:(lia)).
  assert (f / 4096 = g / 4096) by lia. lia.
Qed.

Lemma present_bit e : present e = Z.testbit e 0.
Proof.
  unfold present, PTE_PRESENT. change 1 with (Z.shiftl 1 0). rewrite mask_testbit by lia. apply negb_involutive.
Qed.

Lemma present_test e : (Z.land e PDE_PRESENT =? 0) = negb (present e).
Proof. unfold present. now rewrite negb_involutive. Qed.

Lemma rd_wr s a v b : rd (wr s a v) b = if a =? b then u32 v else rd s b.
Proof.
  unfold rd, wr. cbn [words]. destruct (Z.eqb_spec a b) as [->|].
  - now rewrite lookup_insert_eq.
  - now rewrite lookup_insert_ne.
Qed.

Lemma rd_wr_ne s a v b : a <> b -> rd (wr s a v) b = rd s b.
Proof. intros. rewrite rd_wr. now replace (a =? b) with false by lia. Qed.

Lemma rd_wr_eq s a v : rd (wr s a v) a = u32 v.
Proof. now rewrite rd_wr, Z.eqb_refl. Qed.

(** ** The active address space

    What every access of the code relies on: the last slot of the active
    directory points to itself, and slot 768 to a table [kt] that holds the
    entries of the two temporary pages. *)

Record vm_wf (s : vm) (kt : Z) : Prop := {
  wf_cr3 : is_frame (cr3 s);
  wf_self : present (rd s (cr3 s + 4 * 1023)) = true;
  wf_self_frame : frame_of (rd s (cr3 s + 4 * 1023)) = cr3 s;
  wf_kt : present (rd s (cr3 s + 4 * 768)) = true;
  wf_kt_frame : frame_of (rd s (cr3 s + 4 * 768)) = kt;
  wf_kt_ne : kt <> cr3 s;
}.

Lemma wf_kt_is_frame s kt : vm_wf s kt -> is_frame kt.
Proof. intros [? ? ? ? <- ?]. apply frame_of_is_frame. Qed.

Lemma translate_at s hi mid lo : 0 <= hi < 1024 -> 0 <= mid < 1024 -> 0 <= lo < 4096 ->
  let pde := rd s (cr3 s + 4 * hi) in
  let pte := rd s (frame_of pde + 4 * mid) in
  present pde = true -> present pte = true ->
  translate s (hi * 4194304 + mid * 4096 + lo) = Some (frame_of pte + lo).
Proof.
  intros Hh Hm Hl pde pte Hp Hq.
  destruct (index_split hi mid lo Hh Hm Hl) as (E1 & E2 & E3).
  unfold translate, walk, pde_addr, pte_addr. rewrite E1, E2. fold pde. rewrite Hp. fold pte. rewrite Hq.
  unfold MMNGR_PAGE_SIZE. now rewrite E3.
Qed.

Lemma translate_dir s kt i : vm_wf s kt -> 0 <= i < 1024 -> translate s (VMMNGR_PD + 4 * i) = Some (cr3 s + 4 * i).
Proof.
  intros [? S1 S2 _ _ _] Hi.
  pose proof (translate_at s 1023 1023 (4 * i) ltac:(lia) ltac:(lia) ltac:(lia)) as T. cbv zeta in T.
  rewrite S2 in T. replace (VMMNGR_PD + 4 * i) with (1023 * 4194304 + 1023 * 4096 + 4 * i) by (unfold VMMNGR_PD; lia).
  rewrite T by assumption. now rewrite S2.
Qed.

Lemma translate_tab s kt i j : vm_wf s kt -> 0 <= i < 1024 -> 0 <= j < 1024 ->
  present (rd s (cr3 s + 4 * i)) = true ->
  translate s (0xffc00000 + i * 4096 + 4 * j) = Some (frame_of (rd s (cr3 s + 4 * i)) + 4 * j).
Proof.
  intros [? S1 S2 _ _ _] Hi Hj Hp.
  pose proof (translate_at s 1023 i (4 * j) ltac:(lia) ltac:(lia) ltac:(lia)) as T. cbv zeta in T.
  rewrite S2 in T. replace (0xffc00000 + i * 4096 + 4 * j) with (1023 * 4194304 + i * 4096 + 4 * j) by lia.
  now rewrite T.
Qed.

Lemma translate_temp s kt k f lo : vm_wf s kt -> 0 <= k < 1024 -> 0 <= lo < 4096 ->
  present (rd s (kt + 4 * k)) = true -> frame_of (rd s (kt + 4 * k)) = f ->
  translate s (KERNEL_START + k * 4096 + lo) = Some (f + lo).
Proof.
  intros [? S1 S2 K1 K2 _] Hk Hl Hp Hf.
  pose proof (translate_at s 768 k lo ltac:(lia) ltac:(lia) ltac:(lia)) as T. cbv zeta in T.
  rewrite K2 in T. replace (KERNEL_START + k * 4096 + lo) with (768 * 4194304 + k * 4096 + lo)
    by (unfold KERNEL_START; lia).
  rewrite T by assumption. now rewrite Hf.
Qed.

Lemma vm_wf_wr s kt a v : vm_wf s kt -> a <> cr3 s + 4 * 1023 -> a <> cr3 s + 4 * 768 -> vm_wf (wr s a v) kt.
Proof. intros [] ? ?. split; cbn [cr3 wr]; rewrite ?rd_wr_ne by auto; auto. Qed.

Lemma vm_wf_frames s kt p : vm_wf s kt -> vm_wf (set_frames s p) kt.
Proof. intros []. split; assumption. Qed.

(** The code's address computations. *)
Lemma dir_lookup_active virt : PAGE_DIRECTORY_LOOKUP VMMNGR_PD virt = VMMNGR_PD + 4 * PAGE_DIRECTORY_INDEX virt.
Proof.
  unfold PAGE_DIRECTORY_LOOKUP, VMMNGR_PD. pose proof (pdi_range virt). apply u32_small. lia.
Qed.
Lemma dir_lookup_temp virt :
  PAGE_DIRECTORY_LOOKUP VMMNGR_TEMP_PD virt = KERNEL_START + 1023 * 4096 + 4 * PAGE_DIRECTORY_INDEX virt.
Proof.
  unfold PAGE_DIRECTORY_LOOKUP, VMMNGR_TEMP_PD, KERNEL_START. pose proof (pdi_range virt). rewrite u32_small; lia.
Qed.
Lemma tab_lookup_active virt : PAGE_TABLE_LOOKUP (PAGE_TABLE_ADDR (PAGE_DIRECTORY_INDEX virt)) virt =
  0xffc00000 + PAGE_DIRECTORY_INDEX virt * 4096 + 4 * PAGE_TABLE_INDEX virt.
Proof.
  unfold PAGE_TABLE_LOOKUP, PAGE_TABLE_ADDR, MMNGR_PAGE_SIZE. pose proof (pdi_range virt). pose proof (pti_range virt).
  rewrite (u32_small (0xffc00000 + _)) by lia. apply u32_small. lia.
Qed.
Lemma tab_lookup_temp virt :
  PAGE_TABLE_LOOKUP VMMNGR_TEMP_TABLE virt = KERNEL_START + 1022 * 4096 + 4 * PAGE_TABLE_INDEX virt.
Proof.
  unfold PAGE_TABLE_LOOKUP, VMMNGR_TEMP_TABLE, KERNEL_START. pose proof (pti_range virt). rewrite u32_small; lia.
Qed.

Lemma vread_at s va pa : translate s va = Some pa -> vread s va = Ret (rd s pa).
Proof. unfold vread. now intros ->. Qed.
Lemma vwrite_at s va pa v : translate s va = Some pa -> vwrite s va v = Ret (wr s pa v).
Proof. unfold vwrite. now intros ->. Qed.

(** The temporary pages: mapping a frame writes one word of [kt]. *)
Lemma temp_entry f : is_frame f ->
  let e := u32 (Z.lor (Z.lor f PTE_PRESENT) PTE_WRITABLE) in
  present e = true /\ frame_of e = f.
Proof.
  intros Hf e. assert (E : e = Z.lor (Z.lor f PTE_PRESENT) PTE_WRITABLE).
  { apply u32_small. destruct Hf. change 4294967296 with (2 ^ 32).
    repeat (apply lor_bound; [lia| |unfold PTE_PRESENT, PTE_WRITABLE; lia]). lia. }
  rewrite E. split.
  - rewrite present_bit, !Z.lor_spec. change (Z.testbit PTE_PRESENT 0) with true. now rewrite orb_true_r.
  - rewrite !frame_of_lor, (frame_of_frame f Hf). change (frame_of PTE_PRESENT) with 0.
    change (frame_of PTE_WRITABLE) with 0. now rewrite !Z.lor_0_r.
Qed.

Lemma map_temporary_pd_eq s kt f : vm_wf s kt ->
  map_temporary_pd s f = Ret (wr s (kt + 4 * 1023) (Z.lor (Z.lor f PTE_PRESENT) PTE_WRITABLE)).
Proof.
  intros W. unfold map_temporary_pd. cbv zeta. apply vwrite_at. rewrite tab_lookup_active.
  change (PAGE_DIRECTORY_INDEX VMMNGR_TEMP_PD) with 768. change (PAGE_TABLE_INDEX VMMNGR_TEMP_PD) with 1023.
  rewrite (translate_tab _ _ _ _ W) by (try lia; apply W). now rewrite (wf_kt_frame _ _ W).
Qed.
Lemma unmap_temporary_pd_eq s kt : vm_wf s kt -> unmap_temporary_pd s = Ret (wr s (kt + 4 * 1023) 0).
Proof.
  intros W. unfold unmap_temporary_pd. cbv zeta. apply vwrite_at. rewrite tab_lookup_active.
  change (PAGE_DIRECTORY_INDEX VMMNGR_TEMP_PD) with 768. change (PAGE_TABLE_INDEX VMMNGR_TEMP_PD) with 1023.
  rewrite (translate_tab _ _ _ _ W) by (try lia; apply W). now rewrite (wf_kt_frame _ _ W).
Qed.
Lemma map_temporary_pt_eq s kt f : vm_wf s kt ->
  map_temporary_pt s f = Ret (wr s (kt + 4 * 1022) (Z.lor (Z.lor f PTE_PRESENT) PTE_WRITABLE)).
Proof.
  intros W. unfold map_temporary_pt. cbv zeta. apply vwrite_at. rewrite tab_lookup_active.
  change (PAGE_DIRECTORY_INDEX VMMNGR_TEMP_TABLE) with 768. change (PAGE_TABLE_INDEX VMMNGR_TEMP_TABLE) with 1022.
  rewrite (translate_tab _ _ _ _ W) by (try lia; apply W). now rewrite (wf_kt_frame _ _ W).
Qed.
Lemma unmap_temporary_pt_eq s kt : vm_wf s kt -> unmap_temporary_pt s = Ret (wr s (kt + 4 * 1022) 0).
Proof.
  intros W. unfold unmap_temporary_pt. cbv zeta. apply vwrite_at. rewrite tab_lookup_active.
  change (PAGE_DIRECTORY_INDEX VMMNGR_TEMP_TABLE) with 768. change (PAGE_TABLE_INDEX VMMNGR_TEMP_TABLE) with 1022.
  rewrite (translate_tab _ _ _ _ W) by (try lia; apply W). now rewrite (wf_kt_frame _ _ W).
Qed.

(** ** Editing one entry *)

(** The entry [page_entry_add_attrib] and [page_entry_set_frame] make of [e]. *)
Definition map_entry (e phys flags : Z) : Z :=
  u32 (Z.lor (Z.land (Z.lor e (Z.land (u16 (Z.lor PTE_PRESENT flags)) 0xfff)) 0xfff) phys).

Lemma land_low_u32 x : Z.land (u32 x) 0xfff = Z.land x 0xfff.
Proof.
  unfold u32. change 0xfff with (Z.ones 12). rewrite !Z.land_ones by lia.
  change (2 ^ 32) with (2 ^ 12 * 2 ^ 20). rewrite Z.rem_mul_r by lia.
  rewrite Z.mul_comm, Z.mod_add by lia. apply Z.mod_mod. lia.
Qed.

Lemma low_bits e flags : 0 <= Z.land (Z.lor e (Z.land (u16 (Z.lor PTE_PRESENT flags)) 0xfff)) 0xfff < 4096.
Proof. rewrite Z.land_comm. apply (land_bound 0xfff _ 12); lia. Qed.

Lemma map_entry_eq e phys flags : is_frame phys ->
  map_entry e phys flags = Z.lor (Z.land (Z.lor e (Z.land (u16 (Z.lor PTE_PRESENT flags)) 0xfff)) 0xfff) phys.
Proof.
  intros [? ?]. apply u32_small. change 4294967296 with (2 ^ 32).
  pose proof (low_bits e flags). apply lor_bound; lia.
Qed.

Lemma map_entry_frame e phys flags : is_frame phys -> frame_of (map_entry e phys flags) = phys.
Proof.
  intros Hf. rewrite map_entry_eq, frame_of_lor, (frame_of_frame phys) by assumption.
  rewrite frame_of_low by apply low_bits. apply Z.lor_0_l.
Qed.

Lemma map_entry_present e phys flags : is_frame phys -> present (map_entry e phys flags) = true.
Proof.
  intros Hf. rewrite map_entry_eq by assumption. rewrite present_bit, Z.lor_spec, Z.land_spec, Z.lor_spec, Z.land_spec.
  unfold u16. rewrite Z.mod_pow2_bits_low by lia. rewrite Z.lor_spec. change (Z.testbit PTE_PRESENT 0) with true.
  change (Z.testbit 0xfff 0) with true. simpl. now rewrite orb_true_r.
Qed.

Lemma wr_wr s a v w : wr (wr s a v) a w = wr s a w.
Proof. unfold wr. cbn [words cr3 current_page_directory frames]. now rewrite insert_insert_eq. Qed.

Lemma edit_entry s pe pa phys flags :
  (forall v, translate (wr s pa v) pe = Some pa) -> translate s pe = Some pa ->
  (s1 ← page_entry_add_attrib s pe (Z.lor PTE_PRESENT flags); page_entry_set_frame s1 pe phys) =
  Ret (wr s pa (map_entry (rd s pa) phys flags)).
Proof.
  intros T' T. unfold page_entry_add_attrib. rewrite (vread_at _ _ _ T), bind_ret, (vwrite_at _ _ _ _ T), bind_ret.
  unfold page_entry_set_frame. rewrite (vread_at _ _ _ (T' _)), bind_ret, (vwrite_at _ _ _ _ (T' _)).
  rewrite rd_wr_eq, wr_wr. unfold map_entry. rewrite land_low_u32. f_equal. unfold wr. f_equal.
  f_equal. symmetry. apply u32_small, u32_range.
Qed.

(** The table a present entry of the active directory points to can be edited
    at its recursive address. *)
Lemma edit_active s kt virt phys flags : vm_wf s kt ->
  let pde := rd s (pde_addr (cr3 s) virt) in
  present pde = true -> frame_of pde <> cr3 s ->
  let pe := PAGE_TABLE_LOOKUP (PAGE_TABLE_ADDR (PAGE_DIRECTORY_INDEX virt)) virt in
  (s1 ← page_entry_add_attrib s pe (Z.lor PTE_PRESENT flags); page_entry_set_frame s1 pe phys) =
  Ret (wr s (pte_addr (frame_of pde) virt) (map_entry (rd s (pte_addr (frame_of pde) virt)) phys flags)).
Proof.
  intros W pde Hp Hne pe. unfold pe. rewrite tab_lookup_active.
  pose proof (pdi_range virt). pose proof (pti_range virt).
  assert (Off : forall j, 0 <= j < 1024 -> pte_addr (frame_of pde) virt <> cr3 s + 4 * j).
  { intros j Hj E. apply frame_slot in E as [E _]; auto; [apply frame_of_is_frame|apply W]. }
  assert (T : forall s', vm_wf s' kt -> cr3 s' = cr3 s -> rd s' (pde_addr (cr3 s) virt) = pde ->
    translate s' (0xffc00000 + PAGE_DIRECTORY_INDEX virt * 4096 + 4 * PAGE_TABLE_INDEX virt) =
    Some (pte_addr (frame_of pde) virt)).
  { intros s' W' E1 E2. unfold pde_addr in E2.
    rewrite (translate_tab _ _ _ _ W') by (auto; rewrite E1, E2; auto). now rewrite E1, E2. }
  apply edit_entry; [|now apply T]. intros v. apply T; [|reflexivity|].
  - apply vm_wf_wr; auto; apply Off; lia.
  - rewrite rd_wr_ne; [reflexivity|]. apply Off; lia.
Qed.

Lemma map_active_present s kt phys virt flags : vm_wf s kt ->
  let pde := rd s (pde_addr (cr3 s) virt) in
  present pde = true -> frame_of pde <> cr3 s ->
  vmmngr_map s 0 phys virt flags =
  Ret (ERR_MEM_SUCCESS, wr s (pte_addr (frame_of pde) virt) (map_entry (rd s (pte_addr (frame_of pde) virt)) phys flags)).
Proof.
  intros W pde Hp Hne. unfold vmmngr_map, open_directory. rewrite Z.eqb_refl, bind_ret.
  unfold table_for_map. rewrite dir_lookup_active.
  rewrite (vread_at _ _ _ (translate_dir _ _ _ W (pdi_range virt))), bind_ret.
  change (cr3 s + 4 * PAGE_DIRECTORY_INDEX virt) with (pde_addr (cr3 s) virt). fold pde.
  rewrite present_test, Hp. simpl negb. cbv iota. unfold open_table. rewrite Z.eqb_refl.
  rewrite !bind_ret. unfold when at 1. rewrite bind_ret.
  pose proof (edit_active s kt virt phys flags W Hp Hne) as E.
  apply bind_Ret_inv in E as (s1 & E1 & E2). rewrite E1, bind_ret, E2, bind_ret.
  unfold close_all, when. simpl. reflexivity.
Qed.

(** ** What an edit does to the walks *)

Definition same_page (va virt : Z) : bool :=
  (PAGE_DIRECTORY_INDEX va =? PAGE_DIRECTORY_INDEX virt) && (PAGE_TABLE_INDEX va =? PAGE_TABLE_INDEX virt).

(** The directory at [pd] reaches the table of slot [i] through that slot only. *)
Definition unshared (s : vm) (pd i : Z) : Prop :=
  forall k, 0 <= k < 1024 -> k <> i -> present (rd s (pd + 4 * k)) = true ->
    frame_of (rd s (pd + 4 * k)) <> frame_of (rd s (pd + 4 * i)).

Lemma walk_ext s s' pd va :
  rd s' (pde_addr pd va) = rd s (pde_addr pd va) ->
  (present (rd s (pde_addr pd va)) = true ->
   rd s' (pte_addr (frame_of (rd s (pde_addr pd va))) va) = rd s (pte_addr (frame_of (rd s (pde_addr pd va))) va)) ->
  walk s' pd va = walk s pd va.
Proof. intros E1 E2. unfold walk. rewrite E1. destruct (present _); [|reflexivity]. now rewrite E2. Qed.

Lemma pte_addr_ne t t' va virt : is_frame t -> is_frame t' ->
  t <> t' \/ PAGE_TABLE_INDEX va <> PAGE_TABLE_INDEX virt -> pte_addr t va <> pte_addr t' virt.
Proof.
  intros H1 H2 D E. unfold pte_addr in E. apply frame_slot in E; auto using pti_range. tauto.
Qed.

Lemma dir_slot_ne pd t i va : is_frame pd -> is_frame t -> t <> pd -> 0 <= i < 1024 -> pd + 4 * i <> pte_addr t va.
Proof. intros H1 H2 D Hi E. unfold pte_addr in E. apply frame_slot in E; auto using pti_range. destruct E. congruence. Qed.

Lemma walk_edit s pd virt e : is_frame pd ->
  let t := frame_of (rd s (pde_addr pd virt)) in
  present (rd s (pde_addr pd virt)) = true -> t <> pd -> unshared s pd (PAGE_DIRECTORY_INDEX virt) ->
  forall va, walk (wr s (pte_addr t virt) e) pd va =
    if same_page va virt then (if present (u32 e) then Some (u32 e) else None) else walk s pd va.
Proof.
  intros Hpd t Hp Hne U va. assert (Ht : is_frame t) by apply frame_of_is_frame.
  assert (E : forall va, rd (wr s (pte_addr t virt) e) (pde_addr pd va) = rd s (pde_addr pd va)).
  { intros v. apply rd_wr_ne. symmetry. apply dir_slot_ne; auto using pdi_range. }
  unfold same_page. destruct (Z.eqb_spec (PAGE_DIRECTORY_INDEX va) (PAGE_DIRECTORY_INDEX virt)) as [Ei|Ei];
    [destruct (Z.eqb_spec (PAGE_TABLE_INDEX va) (PAGE_TABLE_INDEX virt)) as [Ej|Ej]|]; simpl andb; cbv iota.
  - unfold walk. rewrite E. unfold pde_addr in *. rewrite Ei, Hp. fold t.
    unfold pte_addr. rewrite Ej. now rewrite rd_wr_eq.
  - apply walk_ext; [apply E|]. intros _. apply rd_wr_ne. apply not_eq_sym.
    apply pte_addr_ne; auto using frame_of_is_frame.
  - apply walk_ext; [apply E|]. intros Hq. apply rd_wr_ne. apply not_eq_sym.
    apply pte_addr_ne; auto using frame_of_is_frame. left. apply U; auto using pdi_range.
Qed.

(** C8: vmmngr_map into the active directory, when the page table exists,
    succeeds without a fault and changes the translation of exactly one page:
    the walk of an address on the page of [virt] then yields an entry for the
    frame [phys], present and with the requested flags added, and every other
    address walks as before. *)
Theorem map_updates_one_page (s : vm) (kt phys virt flags : Z) :
  vm_wf s kt -> is_frame phys ->
  let t := frame_of (rd s (pde_addr (cr3 s) virt)) in
  present (rd s (pde_addr (cr3 s) virt)) = true -> t <> cr3 s ->
  unshared s (cr3 s) (PAGE_DIRECTORY_INDEX virt) ->
  let e := map_entry (rd s (pte_addr t virt)) phys flags in
  exists s', vmmngr_map s 0 phys virt flags = Ret (ERR_MEM_SUCCESS, s') /\
    present e = true /\ frame_of e = phys /\
    (forall va, walk s' (cr3 s) va = if same_page va virt then Some e else walk s (cr3 s) va) /\
    frames s' = frames s.
Proof.
  intros W Hf t Hp Hne U e. eexists. split; [apply (map_active_present _ kt); auto|].
  split_and!; [now apply map_entry_present|now apply map_entry_frame| |reflexivity].
  intros va. rewrite walk_edit by (auto; apply W). fold t e.
  rewrite (u32_small e) by apply u32_range. unfold e at 1. now rewrite map_entry_present.
Qed.

(** ** Creating a page table *)

Fixpoint zero_range (s : vm) (pa : Z) (n : nat) : vm :=
  match n with
  | O => s
  | S n' => zero_range (wr s pa 0) (pa + 4) n'
  end.

Lemma rd_zero_range s f k n a : is_frame f -> 0 <= k -> k + Z.of_nat n <= 1024 ->
  (forall j, k <= j < k + Z.of_nat n -> a <> f + 4 * j) -> rd (zero_range s (f + 4 * k) n) a = rd s a.
Proof.
  revert s k. induction n as [|n IH]; intros s k Hf Hk Hn Ha; [reflexivity|]. cbn [zero_range].
  replace (f + 4 * k + 4) with (f + 4 * (k + 1)) by lia. rewrite IH by (auto; try lia; intros; apply Ha; lia).
  apply rd_wr_ne. apply not_eq_sym, Ha. lia.
Qed.

Lemma rd_zero_range_in s f k n j : is_frame f -> 0 <= k -> k + Z.of_nat n <= 1024 ->
  k <= j < k + Z.of_nat n -> rd (zero_range s (f + 4 * k) n) (f + 4 * j) = 0.
Proof.
  revert s k. induction n as [|n IH]; intros s k Hf Hk Hn Hj; [lia|]. cbn [zero_range].
  replace (f + 4 * k + 4) with (f + 4 * (k + 1)) by lia. destruct (decide (j = k)) as [->|].
  - rewrite rd_zero_range by (auto; lia). apply rd_wr_eq.
  - apply IH; auto; lia.
Qed.

Lemma zero_range_rest s pa n : cr3 (zero_range s pa n) = cr3 s /\ frames (zero_range s pa n) = frames s.
Proof. revert s pa. induction n as [|n IH]; intros s pa; [auto|]. cbn [zero_range]. now destruct (IH (wr s pa 0) (pa + 4)) as [-> ->]. Qed.

(** Zeroing through the temporary page clears the frame mapped there. *)
Lemma zero_words_temp s kt f k n : vm_wf s kt -> is_frame f -> f <> cr3 s -> f <> kt ->
  present (rd s (kt + 4 * 1022)) = true -> frame_of (rd s (kt + 4 * 1022)) = f ->
  0 <= k -> k + Z.of_nat n <= 1024 ->
  zero_words s (VMMNGR_TEMP_TABLE + 4 * k) n = Ret (zero_range s (f + 4 * k) n).
Proof.
  revert s k. induction n as [|n IH]; intros s k W Hf H1 H2 Hp Hfr Hk Hn; [reflexivity|].
  cbn [zero_words zero_range].
  rewrite (vwrite_at _ _ (f + 4 * k)).
  2:{ rewrite <- (translate_temp s kt 1022 f (4 * k)) by (auto; lia).
      reflexivity. }
  rewrite bind_ret. replace (VMMNGR_TEMP_TABLE + 4 * k + 4) with (VMMNGR_TEMP_TABLE + 4 * (k + 1)) by lia.
  replace (f + 4 * k + 4) with (f + 4 * (k + 1)) by lia.
  assert (Off : forall g j, is_frame g -> f <> g -> 0 <= j < 1024 -> f + 4 * k <> g + 4 * j).
  { intros g j Hg D Hj E. apply frame_slot in E; auto; [|lia]. tauto. }
  pose proof (wf_kt_is_frame _ _ W). pose proof (wf_cr3 _ _ W).
  rewrite IH; auto; try lia.
  - apply vm_wf_wr; auto; apply Off; auto; lia.
  - rewrite rd_wr_ne by (apply Off; auto; lia). assumption.
  - rewrite rd_wr_ne by (apply Off; auto; lia). assumption.
Qed.

Lemma alloc_block_is_frame p : is_frame (pmmngr_alloc_block p).1.
Proof.
  unfold pmmngr_alloc_block. case_test; [split; [simpl; lia|reflexivity]|].
  case_test; [split; [simpl; lia|reflexivity]|]. simpl. split; [apply u32_range|].
  unfold u32, MMNGR_PAGE_SIZE. change (2 ^ 32) with (4096 * 2 ^ 20). rewrite Z.mul_comm, Z.mul_mod_distr_l by lia.
  rewrite Z.mul_comm. apply Z.mod_mul. lia.
Qed.

Lemma slot_ne f g i j : is_frame f -> is_frame g -> f <> g -> 0 <= i < 1024 -> 0 <= j < 1024 -> f + 4 * i <> g + 4 * j.
Proof. intros Hf Hg D Hi Hj E. destruct (frame_slot _ _ _ _ Hf Hg Hi Hj E). congruence. Qed.

(** [s] has the frame [f], neither the active directory nor [kt], mapped at
    the temporary table page. *)
Record temp_open (s : vm) (kt f : Z) : Prop := {
  to_wf : vm_wf s kt;
  to_frame : is_frame f;
  to_cr3 : f <> cr3 s;
  to_kt : f <> kt;
  to_present : present (rd s (kt + 4 * 1022)) = true;
  to_maps : frame_of (rd s (kt + 4 * 1022)) = f;
}.

Lemma temp_open_wr s kt f g j v : temp_open s kt f -> is_frame g -> g <> cr3 s -> g <> kt -> 0 <= j < 1024 ->
  temp_open (wr s (g + 4 * j) v) kt f.
Proof.
  intros [W F1 F2 F3 P M] Hg G1 G2 Hj. pose proof (wf_kt_is_frame _ _ W). pose proof (wf_cr3 _ _ W).
  split; auto; [|rewrite rd_wr_ne; auto; apply slot_ne; auto; lia..].
  apply vm_wf_wr; auto; apply slot_ne; auto; lia.
Qed.

Lemma temp_open_map s kt f : vm_wf s kt -> is_frame f -> f <> cr3 s -> f <> kt ->
  temp_open (wr s (kt + 4 * 1022) (Z.lor (Z.lor f PTE_PRESENT) PTE_WRITABLE)) kt f.
Proof.
  intros W Hf H1 H2. pose proof (temp_entry f Hf) as [T1 T2].
  pose proof (wf_kt_is_frame _ _ W). pose proof (wf_cr3 _ _ W). pose proof (wf_kt_ne _ _ W).
  split; auto; [|rewrite rd_wr_eq; assumption..].
  apply vm_wf_wr; auto; apply slot_ne; auto; lia.
Qed.

Lemma temp_open_translate s kt f virt : temp_open s kt f ->
  translate s (PAGE_TABLE_LOOKUP VMMNGR_TEMP_TABLE virt) = Some (pte_addr f virt).
Proof.
  intros [W F1 F2 F3 P M]. rewrite tab_lookup_temp. pose proof (pti_range virt).
  rewrite (translate_temp s kt 1022 f) by (auto; lia). reflexivity.
Qed.

Lemma edit_temp s kt f phys virt flags : temp_open s kt f ->
  let pe := PAGE_TABLE_LOOKUP VMMNGR_TEMP_TABLE virt in
  (s1 ← page_entry_add_attrib s pe (Z.lor PTE_PRESENT flags); page_entry_set_frame s1 pe phys) =
  Ret (wr s (pte_addr f virt) (map_entry (rd s (pte_addr f virt)) phys flags)).
Proof.
  intros T pe. apply edit_entry; [|now apply temp_open_translate with kt].
  intros v. apply temp_open_translate with kt. destruct (T). apply temp_open_wr; auto. apply pti_range.
Qed.

Lemma temp_open_zero s kt f n : temp_open s kt f -> Z.of_nat n <= 1024 ->
  zero_words s VMMNGR_TEMP_TABLE n = Ret (zero_range s (f + 4 * 0) n) /\
  temp_open (zero_range s (f + 4 * 0) n) kt f.
Proof.
  intros [W F1 F2 F3 P M] Hn. pose proof (wf_kt_is_frame _ _ W). pose proof (wf_cr3 _ _ W) as Hc.
  split; [apply (zero_words_temp s kt f 0 n); auto; lia|].
  destruct (zero_range_rest s (f + 4 * 0) n) as [R1 _].
  assert (R : forall g i, is_frame g -> f <> g -> 0 <= i < 1024 ->
    rd (zero_range s (f + 4 * 0) n) (g + 4 * i) = rd s (g + 4 * i)).
  { intros. apply rd_zero_range; auto; [lia..|]. intros. apply slot_ne; auto. lia. }
  split; rewrite ?R1; auto; rewrite ?R; auto; try lia.
  destruct W. split; rewrite ?R1; auto; rewrite ?R; auto; lia.
Qed.

(** The state after a page table [f] has been created for [virt]. *)
Definition new_table_state (s : vm) (kt f phys virt flags : Z) (p : pmm) : vm :=
  let s1 := wr (set_frames s p) (pde_addr (cr3 s) virt) (map_entry (rd s (pde_addr (cr3 s) virt)) f flags) in
  let s2 := wr s1 (kt + 4 * 1022) (Z.lor (Z.lor f PTE_PRESENT) PTE_WRITABLE) in
  let s3 := zero_range s2 (f + 4 * 0) 1024 in
  wr (wr s3 (pte_addr f virt) (map_entry 0 phys flags)) (kt + 4 * 1022) 0.

Lemma absent_slot s kt virt : vm_wf s kt -> present (rd s (pde_addr (cr3 s) virt)) = false ->
  PAGE_DIRECTORY_INDEX virt <> 1023 /\ PAGE_DIRECTORY_INDEX virt <> 768.
Proof.
  intros W Hp. unfold pde_addr in Hp.
  split; intros E; rewrite E in Hp; [rewrite (wf_self _ _ W) in Hp|rewrite (wf_kt _ _ W) in Hp]; discriminate.
Qed.

Lemma table_for_map_new s kt virt flags f p : vm_wf s kt ->
  present (rd s (pde_addr (cr3 s) virt)) = false -> pmmngr_alloc_block (frames s) = (f, p) -> f <> 0 ->
  f <> cr3 s -> f <> kt ->
  let s1 := wr (set_frames s p) (pde_addr (cr3 s) virt) (map_entry (rd s (pde_addr (cr3 s) virt)) f flags) in
  let s2 := wr s1 (kt + 4 * 1022) (Z.lor (Z.lor f PTE_PRESENT) PTE_WRITABLE) in
  table_for_map s 0 virt VMMNGR_PD flags = Ret (Some (VMMNGR_TEMP_TABLE, true, true), s2) /\ temp_open s2 kt f.
Proof.
  intros W Hp Ha Hf0 Hf1 Hf2 s1 s2.
  assert (Hf : is_frame f) by (pose proof (alloc_block_is_frame (frames s)); now rewrite Ha in *).
  pose proof (pdi_range virt) as Hi. destruct (absent_slot _ _ _ W Hp) as [I1 I2].
  pose proof (vm_wf_frames _ _ p W) as W0.
  assert (Wd : forall v, vm_wf (wr (set_frames s p) (pde_addr (cr3 s) virt) v) kt).
  { intros v. apply vm_wf_wr; [assumption|..]; unfold pde_addr; cbn [cr3 set_frames]; lia. }
  split; [|apply temp_open_map; auto; apply Wd].
  unfold table_for_map. rewrite dir_lookup_active.
  rewrite (vread_at _ _ _ (translate_dir _ _ _ W Hi)), bind_ret.
  change (cr3 s + 4 * PAGE_DIRECTORY_INDEX virt) with (pde_addr (cr3 s) virt).
  rewrite present_test, Hp, Ha. simpl negb. cbv iota. replace (f =? 0) with false by lia.
  pose proof (edit_entry (set_frames s p) (VMMNGR_PD + 4 * PAGE_DIRECTORY_INDEX virt) (pde_addr (cr3 s) virt) f flags
    (fun v => translate_dir _ _ _ (Wd v) Hi) (translate_dir _ _ _ W0 Hi)) as E.
  rewrite Z.lor_comm in E. change PTE_PRESENT with PDE_PRESENT in E at 1.
  apply bind_Ret_inv in E as (s' & E1 & E2). rewrite E1, bind_ret, E2, bind_ret.
  change (rd (set_frames s p)) with (rd s). fold s1.
  now rewrite (map_temporary_pt_eq s1 kt f (Wd _)), !bind_ret.
Qed.

Lemma map_active_new s kt phys virt flags f p : vm_wf s kt ->
  present (rd s (pde_addr (cr3 s) virt)) = false -> pmmngr_alloc_block (frames s) = (f, p) -> f <> 0 ->
  f <> cr3 s -> f <> kt ->
  vmmngr_map s 0 phys virt flags = Ret (ERR_MEM_SUCCESS, new_table_state s kt f phys virt flags p).
Proof.
  intros W Hp Ha Hf0 Hf1 Hf2.
  destruct (table_for_map_new s kt virt flags f p W Hp Ha Hf0 Hf1 Hf2) as [E T].
  unfold vmmngr_map, open_directory. rewrite Z.eqb_refl, bind_ret, E, bind_ret.
  unfold new_table_state. set (s2 := wr _ (kt + 4 * 1022) (Z.lor _ _)) in *. clear E.
  destruct (temp_open_zero s2 kt f 1024 T ltac:(lia)) as [E3 T3].
  unfold when at 1. rewrite E3, bind_ret. set (s3 := zero_range s2 _ _) in *.
  pose proof (edit_temp s3 kt f phys virt flags T3) as E.
  apply bind_Ret_inv in E as (s5 & E5 & E6). rewrite E5, bind_ret, E6, bind_ret.
  unfold close_all, when. rewrite Z.eqb_refl. simpl negb. cbv iota.
  assert (Z0 : rd s3 (pte_addr f virt) = 0)
    by (apply rd_zero_range_in; try (apply T); pose proof (pti_range virt); lia).
  rewrite Z0. rewrite (unmap_temporary_pt_eq _ kt), !bind_ret; [reflexivity|].
  eapply to_wf, temp_open_wr; [exact T3|apply T3..|apply pti_range].
Qed.

Lemma rd_new_table s kt f phys virt flags p : vm_wf s kt -> is_frame f -> f <> cr3 s -> f <> kt ->
  rd s (kt + 4 * 1022) = 0 ->
  let s' := new_table_state s kt f phys virt flags p in
  rd s' (pde_addr (cr3 s) virt) = map_entry (rd s (pde_addr (cr3 s) virt)) f flags /\
  (forall va, rd s' (pte_addr f va) =
     if PAGE_TABLE_INDEX va =? PAGE_TABLE_INDEX virt then map_entry 0 phys flags else 0) /\
  (forall g i, is_frame g -> g <> f -> 0 <= i < 1024 -> g + 4 * i <> pde_addr (cr3 s) virt ->
     rd s' (g + 4 * i) = rd s (g + 4 * i)).
Proof.
  intros W Hf H1 H2 Hz s'. pose proof (wf_kt_is_frame _ _ W). pose proof (wf_cr3 _ _ W). pose proof (wf_kt_ne _ _ W).
  pose proof (pdi_range virt). pose proof (pti_range virt).
  assert (K : forall va, pte_addr f va <> kt + 4 * 1022)
    by (intros va; pose proof (pti_range va); apply slot_ne; auto; lia).
  unfold s', new_table_state. split_and!.
  - assert (D : forall g j, is_frame g -> g <> cr3 s -> 0 <= j < 1024 -> g + 4 * j <> pde_addr (cr3 s) virt)
      by (intros; apply slot_ne; auto).
    rewrite !rd_wr_ne by (try apply D; auto; lia).
    rewrite rd_zero_range by (auto; try lia; intros; apply not_eq_sym, D; auto; lia).
    rewrite rd_wr_ne by (apply D; auto; lia). rewrite rd_wr_eq. apply u32_small, u32_range.
  - intros va. pose proof (pti_range va). rewrite rd_wr_ne by (apply not_eq_sym, K). rewrite rd_wr.
    replace (pte_addr f virt =? pte_addr f va) with (PAGE_TABLE_INDEX va =? PAGE_TABLE_INDEX virt)
      by (unfold pte_addr; lia).
    case_test; [apply u32_small, u32_range|]. unfold pte_addr. apply rd_zero_range_in; auto; lia.
  - intros g i Hg Hgf Hi Hne. rewrite rd_wr. case_test.
    + now rewrite <- E, Hz.
    + rewrite rd_wr_ne by (apply slot_ne; auto).
      rewrite rd_zero_range by (auto; try lia; intros; apply slot_ne; auto; lia).
      rewrite !rd_wr_ne by auto. reflexivity.
Qed.

Lemma new_table_rest s kt f phys virt flags p :
  cr3 (new_table_state s kt f phys virt flags p) = cr3 s /\ frames (new_table_state s kt f phys virt flags p) = p.
Proof.
  unfold new_table_state. cbn [cr3 frames wr].
  match goal with |- context [zero_range ?x ?y 1024] => destruct (zero_range_rest x y 1024) as [-> ->] end.
  split; reflexivity.
Qed.

(** Vmmngr_map creates the page table it needs.  When the slot of [virt]
    in the active directory is empty and a frame [f] is free, vmmngr_map takes
    [f] for the table, clears it, maps the page, and succeeds: afterwards
    [virt] walks to the frame [phys], no other page of the slot's 4 MiB is
    mapped, and every address outside (the recursive window apart) walks as
    before; the temporary page is closed again. *)
Theorem map_creates_table (s : vm) (kt phys virt flags f : Z) (p : pmm) :
  vm_wf s kt -> is_frame phys -> present (rd s (pde_addr (cr3 s) virt)) = false ->
  pmmngr_alloc_block (frames s) = (f, p) -> f <> 0 -> f <> cr3 s ->
  (forall i, 0 <= i < 1024 -> present (rd s (cr3 s + 4 * i)) = true ->
     frame_of (rd s (cr3 s + 4 * i)) <> f /\ (i <> 1023 -> frame_of (rd s (cr3 s + 4 * i)) <> cr3 s)) ->
  rd s (kt + 4 * 1022) = 0 ->
  exists s', vmmngr_map s 0 phys virt flags = Ret (ERR_MEM_SUCCESS, s') /\ frames s' = p /\ vm_wf s' kt /\
    rd s' (kt + 4 * 1022) = 0 /\
    forall va, PAGE_DIRECTORY_INDEX va <> 1023 ->
      walk s' (cr3 s) va =
        if same_page va virt then Some (map_entry 0 phys flags)
        else if PAGE_DIRECTORY_INDEX va =? PAGE_DIRECTORY_INDEX virt then None
        else walk s (cr3 s) va.
Proof.
  intros W Hph Hp Ha Hf0 Hf1 Fresh Hz.
  assert (Hf : is_frame f) by (pose proof (alloc_block_is_frame (frames s)); now rewrite Ha in *).
  assert (Hf2 : f <> kt)
    by (intros ->; destruct (Fresh 768) as [F _]; [lia|apply W|]; apply F; apply W).
  pose proof (wf_kt_is_frame _ _ W) as Hk. pose proof (wf_cr3 _ _ W) as Hc. pose proof (pdi_range virt).
  destruct (absent_slot _ _ _ W Hp) as [I1 I2].
  destruct (rd_new_table s kt f phys virt flags p W Hf Hf1 Hf2 Hz) as (R1 & R2 & R3).
  destruct (new_table_rest s kt f phys virt flags p) as [C Fr].
  pose proof (map_active_new s kt phys virt flags f p W Hp Ha Hf0 Hf1 Hf2) as M.
  assert (Tmp : rd (new_table_state s kt f phys virt flags p) (kt + 4 * 1022) = 0)
    by (unfold new_table_state; now rewrite rd_wr_eq).
  exists (new_table_state s kt f phys virt flags p). set (s' := new_table_state _ _ _ _ _ _ _) in *. clearbody s'.
  assert (Dir : forall i, 0 <= i < 1024 -> i <> PAGE_DIRECTORY_INDEX virt -> rd s' (cr3 s + 4 * i) = rd s (cr3 s + 4 * i))
    by (intros i Hi Hne; apply R3; auto; unfold pde_addr; lia).
  split_and!; auto.
  - destruct W. split; rewrite ?C, ?Dir; auto; lia.
  - intros va Hva. pose proof (pdi_range va). unfold same_page.
    destruct (Z.eqb_spec (PAGE_DIRECTORY_INDEX va) (PAGE_DIRECTORY_INDEX virt)) as [Ei|Ei]; simpl andb; cbv iota.
    + unfold walk. unfold pde_addr in *. rewrite Ei, R1, map_entry_present, map_entry_frame, R2 by assumption.
      destruct (_ =? _); [now rewrite map_entry_present|reflexivity].
    + apply walk_ext; [apply Dir; auto|]. intros Hpr. destruct (Fresh _ (pdi_range va) Hpr) as [F1 F2].
      apply R3; auto using frame_of_is_frame, pti_range. apply slot_ne; auto using frame_of_is_frame, pti_range.
Qed.

(** Out of memory leaves the address space alone.  When the slot of
    [virt] is empty and no frame is free, vmmngr_map reports ERR_MEM_OOM and
    physical memory and the frame map are as before. *)
Theorem map_out_of_memory (s : vm) (kt phys virt flags : Z) (p : pmm) :
  vm_wf s kt -> present (rd s (pde_addr (cr3 s) virt)) = false -> pmmngr_alloc_block (frames s) = (0, p) ->
  exists s', vmmngr_map s 0 phys virt flags = Ret (ERR_MEM_OOM, s') /\
    words s' = words s /\ cr3 s' = cr3 s /\ frames s' = p.
Proof.
  intros W Hp Ha. unfold vmmngr_map, open_directory. rewrite Z.eqb_refl, bind_ret. unfold table_for_map.
  rewrite dir_lookup_active, (vread_at _ _ _ (translate_dir _ _ _ W (pdi_range virt))), bind_ret.
  change (cr3 s + 4 * PAGE_DIRECTORY_INDEX virt) with (pde_addr (cr3 s) virt).
  rewrite present_test, Hp, Ha. simpl. eauto.
Qed.

(** ** Unmapping *)

Lemma unmap_active_present s kt virt : vm_wf s kt ->
  let pde := rd s (pde_addr (cr3 s) virt) in
  present pde = true -> frame_of pde <> cr3 s -> present (rd s (pte_addr (frame_of pde) virt)) = true ->
  vmmngr_unmap s 0 virt = Ret (wr s (pte_addr (frame_of pde) virt) 0).
Proof.
  intros W pde Hp Hne Hq. unfold vmmngr_unmap, open_directory. rewrite Z.eqb_refl, bind_ret.
  rewrite dir_lookup_active, (vread_at _ _ _ (translate_dir _ _ _ W (pdi_range virt))), bind_ret.
  change (cr3 s + 4 * PAGE_DIRECTORY_INDEX virt) with (pde_addr (cr3 s) virt). fold pde.
  rewrite present_test, Hp. simpl negb. cbv iota. unfold open_table. rewrite Z.eqb_refl, bind_ret.
  rewrite tab_lookup_active. pose proof (pdi_range virt). pose proof (pti_range virt).
  assert (T : translate s (0xffc00000 + PAGE_DIRECTORY_INDEX virt * 4096 + 4 * PAGE_TABLE_INDEX virt) =
    Some (pte_addr (frame_of pde) virt)) by (apply (translate_tab _ _ _ _ W); auto).
  rewrite (vread_at _ _ _ T), bind_ret. change PDE_PRESENT with PTE_PRESENT. unfold present in Hq.
  apply negb_true_iff in Hq. rewrite Hq. now rewrite (vwrite_at _ _ _ _ T), bind_ret.
Qed.

Lemma walk_same_page s pd va virt : same_page va virt = true -> walk s pd va = walk s pd virt.
Proof.
  unfold same_page, walk, pde_addr, pte_addr. intros H. zbool. now rewrite H, H0.
Qed.

Lemma unmap_active_absent s kt virt : vm_wf s kt -> frame_of (rd s (pde_addr (cr3 s) virt)) <> cr3 s ->
  walk s (cr3 s) virt = None -> vmmngr_unmap s 0 virt = Ret s.
Proof.
  intros W Hne Wk. unfold walk in Wk. unfold vmmngr_unmap, open_directory. rewrite Z.eqb_refl, bind_ret.
  rewrite dir_lookup_active, (vread_at _ _ _ (translate_dir _ _ _ W (pdi_range virt))), bind_ret.
  change (cr3 s + 4 * PAGE_DIRECTORY_INDEX virt) with (pde_addr (cr3 s) virt).
  rewrite present_test. destruct (present (rd s (pde_addr (cr3 s) virt))) eqn:Hp; simpl negb; cbv iota; [|reflexivity].
  unfold open_table. rewrite Z.eqb_refl, bind_ret, tab_lookup_active.
  pose proof (pdi_range virt). pose proof (pti_range virt).
  assert (T : translate s (0xffc00000 + PAGE_DIRECTORY_INDEX virt * 4096 + 4 * PAGE_TABLE_INDEX virt) =
    Some (pte_addr (frame_of (rd s (pde_addr (cr3 s) virt))) virt)) by (apply (translate_tab _ _ _ _ W); auto).
  rewrite (vread_at _ _ _ T), bind_ret. change PTE_PRESENT with PDE_PRESENT. rewrite present_test.
  destruct (present (rd s (pte_addr _ virt))); [discriminate|reflexivity].
Qed.

(** vmmngr_unmap removes exactly one page.  For a mapped page of the
    active directory it succeeds without a fault; afterwards no address of
    that page walks to a frame and every other address walks as before.  A
    page that is not mapped is left as it is. *)
Theorem unmap_removes_one_page (s : vm) (kt virt : Z) :
  vm_wf s kt -> frame_of (rd s (pde_addr (cr3 s) virt)) <> cr3 s ->
  unshared s (cr3 s) (PAGE_DIRECTORY_INDEX virt) ->
  exists s', vmmngr_unmap s 0 virt = Ret s' /\ frames s' = frames s /\
    (walk s (cr3 s) virt = None -> s' = s) /\
    forall va, walk s' (cr3 s) va = if same_page va virt then None else walk s (cr3 s) va.
Proof.
  intros W Hne U. destruct (walk s (cr3 s) virt) as [e|] eqn:Wk.
  - unfold walk in Wk. destruct (present (rd s (pde_addr (cr3 s) virt))) eqn:Hp; [|discriminate].
    destruct (present (rd s (pte_addr (frame_of (rd s (pde_addr (cr3 s) virt))) virt))) eqn:Hq; [|discriminate].
    eexists. split_and!; [apply (unmap_active_present _ kt); auto|reflexivity|discriminate|].
    intros va. rewrite walk_edit by (auto; apply W). reflexivity.
  - exists s. split_and!; auto; [now apply (unmap_active_absent _ kt)|]. intros va. case_test; [|reflexivity].
    now rewrite (walk_same_page _ _ _ _ E).
Qed.

(** ** Translating *)

(** vmmngr_to_physical_addr in the active directory returns the frame the
    address walks to, 0 when it is not mapped, and changes nothing. *)
Theorem to_physical_addr_walks (s : vm) (kt virt : Z) :
  vm_wf s kt ->
  vmmngr_to_physical_addr s 0 virt =
    Ret (match walk s (cr3 s) virt with Some e => frame_of e | None => 0 end, s).
Proof.
  intros W. unfold vmmngr_to_physical_addr, open_directory, walk. rewrite Z.eqb_refl, bind_ret.
  rewrite dir_lookup_active, (vread_at _ _ _ (translate_dir _ _ _ W (pdi_range virt))), bind_ret.
  change (cr3 s + 4 * PAGE_DIRECTORY_INDEX virt) with (pde_addr (cr3 s) virt).
  rewrite present_test. destruct (present (rd s (pde_addr (cr3 s) virt))) eqn:Hp; simpl negb; cbv iota; [|reflexivity].
  unfold open_table. rewrite Z.eqb_refl, bind_ret, tab_lookup_active.
  pose proof (pdi_range virt). pose proof (pti_range virt).
  assert (T : translate s (0xffc00000 + PAGE_DIRECTORY_INDEX virt * 4096 + 4 * PAGE_TABLE_INDEX virt) =
    Some (pte_addr (frame_of (rd s (pde_addr (cr3 s) virt))) virt)) by (apply (translate_tab _ _ _ _ W); auto).
  rewrite (vread_at _ _ _ T), bind_ret. change PTE_PRESENT with PDE_PRESENT. rewrite present_test.
  destruct (present (rd s (pte_addr _ virt))); [|reflexivity].
  simpl negb. cbv iota. unfold close_all, when. simpl negb. rewrite !bind_ret. cbv iota.
  rewrite (vread_at _ _ _ T). reflexivity.
Qed.

(** ** Working on a directory that is not active *)

(** Both temporary pages open: [pd] at one, its table [t] at the other. *)
Lemma open_inactive s kt pd virt : vm_wf s kt -> is_frame pd -> pd <> 0 -> pd <> cr3 s -> pd <> kt ->
  let s1 := wr s (kt + 4 * 1023) (Z.lor (Z.lor pd PTE_PRESENT) PTE_WRITABLE) in
  open_directory s pd = Ret (VMMNGR_TEMP_PD, s1) /\ vm_wf s1 kt /\
  vread s1 (PAGE_DIRECTORY_LOOKUP VMMNGR_TEMP_PD virt) = Ret (rd s (pde_addr pd virt)).
Proof.
  intros W Hpd H0 H1 H2 s1. pose proof (wf_kt_is_frame _ _ W). pose proof (wf_cr3 _ _ W).
  pose proof (wf_kt_ne _ _ W). pose proof (pdi_range virt).
  assert (W1 : vm_wf s1 kt) by (apply vm_wf_wr; auto; apply slot_ne; auto; lia).
  unfold open_directory. replace (pd =? 0) with false by lia.
  rewrite (map_temporary_pd_eq s kt pd W), bind_ret. split_and!; auto.
  destruct (temp_entry pd Hpd) as [T1 T2]. rewrite dir_lookup_temp.
  rewrite (vread_at _ _ (pde_addr pd virt)).
  - f_equal. apply rd_wr_ne. apply slot_ne; auto; lia.
  - apply (translate_temp s1 kt 1023 pd); auto; try lia; unfold s1; rewrite rd_wr_eq; auto.
Qed.

(** Translating in another address space faults.  For a page that is
    mapped in a directory other than the active one, vmmngr_to_physical_addr
    reads the entry again after closing the temporary page it read it through,
    so the call ends in a page fault instead of returning the frame. *)
Theorem to_physical_addr_other_faults (s : vm) (kt pd virt e : Z) :
  vm_wf s kt -> is_frame pd -> pd <> 0 -> pd <> cr3 s -> pd <> kt ->
  let t := frame_of (rd s (pde_addr pd virt)) in
  t <> cr3 s -> t <> kt -> walk s pd virt = Some e ->
  vmmngr_to_physical_addr s pd virt = Fault.
Proof.
  intros W Hpd H0 H1 H2 t H3 H4 Wk. destruct (open_inactive s kt pd virt W Hpd H0 H1 H2) as (O & W1 & R).
  set (s1 := wr s _ _) in *. unfold vmmngr_to_physical_addr. rewrite O, bind_ret, R, bind_ret.
  unfold walk in Wk. rewrite present_test. destruct (present (rd s (pde_addr pd virt))) eqn:Hp; [|discriminate].
  simpl negb. cbv iota. fold t in Wk. destruct (present (rd s (pte_addr t virt))) eqn:Hq; [|discriminate].
  assert (Ht : is_frame t) by apply frame_of_is_frame.
  unfold open_table. replace (pd =? 0) with false by lia. fold (frame_of (rd s (pde_addr pd virt))). fold t.
  rewrite (map_temporary_pt_eq s1 kt t W1), !bind_ret.
  pose proof (temp_open_map s1 kt t W1 Ht H3 H4) as TO. set (s2 := wr s1 _ _) in *.
  rewrite (vread_at _ _ _ (temp_open_translate _ _ _ virt TO)), bind_ret.
  pose proof (wf_kt_is_frame _ _ W) as Hk. pose proof (wf_cr3 _ _ W) as Hc. pose proof (wf_kt_ne _ _ W) as Hkc.
  pose proof (pti_range virt).
  assert (E : rd s2 (pte_addr t virt) = rd s (pte_addr t virt))
    by (unfold s2, s1; rewrite !rd_wr_ne; auto; apply slot_ne; auto; lia).
  rewrite E. change PTE_PRESENT with PDE_PRESENT. rewrite present_test, Hq. simpl negb. cbv iota.
  unfold close_all, when. replace (pd =? 0) with false by lia. simpl negb. cbv iota.
  rewrite (unmap_temporary_pt_eq s2 kt) by apply TO. rewrite bind_ret.
  set (s3 := wr s2 (kt + 4 * 1022) 0).
  assert (W3 : vm_wf s3 kt) by (apply vm_wf_wr; [apply TO|..]; apply slot_ne; auto; lia).
  rewrite (unmap_temporary_pd_eq s3 kt W3), !bind_ret. set (s4 := wr s3 (kt + 4 * 1023) 0).
  assert (W4 : vm_wf s4 kt) by (apply vm_wf_wr; [apply W3|..]; apply slot_ne; auto; lia).
  rewrite tab_lookup_temp. unfold vread.
  destruct (index_split 768 1022 (4 * PAGE_TABLE_INDEX virt)) as (I1 & I2 & _); [lia..|].
  replace (KERNEL_START + 1022 * 4096 + 4 * PAGE_TABLE_INDEX virt) with
    (768 * 4194304 + 1022 * 4096 + 4 * PAGE_TABLE_INDEX virt) by (unfold KERNEL_START; lia).
  unfold translate, walk, pde_addr, pte_addr. rewrite I1, I2, (wf_kt _ _ W4), (wf_kt_frame _ _ W4).
  replace (rd s4 (kt + 4 * 1022)) with 0; [reflexivity|].
  unfold s4, s3. now rewrite rd_wr_ne, rd_wr_eq by lia.
Qed.

(** ** A concrete address space

    The directory at 0x1000, the kernel's table at 0x2000 and one more table,
    for the first 4 MiB, at 0x3000 with its first page mapped. *)
Definition sample_vm : vm := Vm
  (list_to_map [(0x1000 + 4092, 0x1003); (0x1000 + 4 * 768, 0x2003); (0x1000, 0x3007); (0x3000, 0x5003)])
  0x1000 0x1000 sample_pmm_3.

Lemma sample_vm_wf : vm_wf sample_vm 0x2000.
Proof. split; unfold is_frame; apply (bool_decide_unpack _); vm_compute; exact I. Qed.

Lemma sample_unshared : unshared sample_vm 0x1000 0.
Proof.
  unfold unshared. apply (forall_below 1024 (fun k => k <> 0 -> present (rd sample_vm (0x1000 + 4 * k)) = true ->
    frame_of (rd sample_vm (0x1000 + 4 * k)) <> frame_of (rd sample_vm (0x1000 + 4 * 0)))).
  vm_compute. reflexivity.
Qed.

Lemma sample_frame : (pmmngr_alloc_block sample_pmm_3).1 = 0x4000.
Proof. vm_compute. reflexivity. Qed.

Ltac by_vm := cbv zeta; lazymatch goal with
  | |- vm_wf _ _ => exact sample_vm_wf
  | |- unshared _ _ _ => exact sample_unshared
  | |- is_frame _ => unfold is_frame; apply (bool_decide_unpack _); vm_compute; exact I
  | |- pmmngr_alloc_block _ = _ => rewrite <- sample_frame; apply surjective_pairing
  | |- _ => solve [apply (bool_decide_unpack _); vm_compute; exact I]
  end.

Lemma map_updates_one_page_witness : exists s', vmmngr_map sample_vm 0 0x7000 0x2000 7 = Ret (ERR_MEM_SUCCESS, s') /\
  walk s' 0x1000 0x2abc = Some 0x7007.
Proof.
  destruct (map_updates_one_page sample_vm 0x2000 0x7000 0x2000 7) as (s' & E & _ & _ & Wk & _); try by_vm.
  exists s'. split; [exact E|]. change 0x1000 with (cr3 sample_vm). rewrite Wk. vm_compute. reflexivity.
Defined.

Lemma map_creates_table_witness : exists s',
  vmmngr_map sample_vm 0 0x7000 0x400000 3 = Ret (ERR_MEM_SUCCESS, s') /\ walk s' 0x1000 0x400abc = Some 0x7003.
Proof.
  destruct (map_creates_table sample_vm 0x2000 0x7000 0x400000 3 0x4000
    (pmmngr_alloc_block sample_pmm_3).2) as (s' & E & _ & _ & _ & Wk); try by_vm.
  - apply (forall_below 1024 (fun i => present (rd sample_vm (0x1000 + 4 * i)) = true ->
      frame_of (rd sample_vm (0x1000 + 4 * i)) <> 0x4000 /\
      (i <> 1023 -> frame_of (rd sample_vm (0x1000 + 4 * i)) <> 0x1000))). vm_compute. reflexivity.
  - exists s'. split; [exact E|]. change 0x1000 with (cr3 sample_vm).
    rewrite Wk; [vm_compute; reflexivity|vm_compute; discriminate].
Defined.

Definition full_vm : vm := Vm (words sample_vm) 0x1000 0x1000 (Pmm [] 16 16).

Lemma full_vm_wf : vm_wf full_vm 0x2000.
Proof. split; unfold is_frame; apply (bool_decide_unpack _); vm_compute; exact I. Qed.

Lemma map_out_of_memory_witness : exists s',
  vmmngr_map full_vm 0 0x7000 0x400000 3 = Ret (ERR_MEM_OOM, s') /\ words s' = words full_vm.
Proof.
  destruct (map_out_of_memory full_vm 0x2000 0x7000 0x400000 3 (Pmm [] 16 16)) as (s' & E & Wd & _);
    [exact full_vm_wf|reflexivity|reflexivity|].
  exists s'. split; [exact E|exact Wd].
Defined.

Lemma unmap_removes_one_page_witness : exists s',
  vmmngr_unmap sample_vm 0 0 = Ret s' /\ walk s' 0x1000 0xabc = None.
Proof.
  destruct (unmap_removes_one_page sample_vm 0x2000 0) as (s' & E & _ & _ & Wk); try by_vm.
  exists s'. split; [exact E|]. change 0x1000 with (cr3 sample_vm). rewrite Wk. reflexivity.
Defined.

Lemma to_physical_addr_walks_witness : vmmngr_to_physical_addr sample_vm 0 0xabc = Ret (0x5000, sample_vm).
Proof. rewrite (to_physical_addr_walks sample_vm 0x2000) by by_vm. reflexivity. Defined.

(** The same space with a second directory at 0x6000 that maps page 0 too. *)
Definition other_vm : vm := wr sample_vm 0x6000 0x3007.

Lemma other_vm_wf : vm_wf other_vm 0x2000.
Proof. split; unfold is_frame; apply (bool_decide_unpack _); vm_compute; exact I. Qed.

Lemma to_physical_addr_other_faults_witness : vmmngr_to_physical_addr other_vm 0x6000 0xabc = Fault.
Proof.
  apply (to_physical_addr_other_faults other_vm 0x2000 0x6000 0xabc 0x5003);
    [exact other_vm_wf|by_vm..].
Defined.
