(* ===== verification/Boot.v ===== *)
(** * The memory part of the kernel's start-up (kernel/src/kernel.c)

    [mem_init] reads the memory map the boot loader left, sizes the frame
    allocator by it, frees the usable regions, reserves the kernel's first
    4 MiB and counts; [protect] is the loop kinit runs over the kernel's text
    and its constants to make their pages read-only. *)
From S2P Require Import Prelude Mem Pmm Heap Vmm.

Definition MULTIBOOT_MEMORY_AVAILABLE : Z := 1.
Definition MULTIBOOT_MEMORY_ACPI_RECLAIMABLE : Z := 3.

(** The fields of [multiboot_memory_map_t] the code reads; an entry is 24
    bytes: size (4), addr (8), len (8), type (4). *)
Record mmap_entry := Entry {
  addr : Z;
  len : Z;
  type : Z;
}.

Definition load64 (m : mem) (a : Z) : Z := load32 m a + 2 ^ 32 * load32 m (a + 4).
Definition read_entry (m : mem) (p : Z) : mmap_entry := Entry (load64 m (p + 4)) (load64 m (p + 12)) (load32 m (p + 20)).

(** The two [continue]s both loops begin with: memory above 4 GiB, and an
    entry after the first that says it starts at 0. *)
Definition ignored (i : Z) (e : mmap_entry) : bool :=
  (0 <? Z.shiftr (addr e) 32) || (0 <? Z.shiftr (len e) 32) || (0 <? i) && (addr e =? 0).

Definition usable (e : mmap_entry) : bool :=
  (type e =? MULTIBOOT_MEMORY_AVAILABLE) || (type e =? MULTIBOOT_MEMORY_ACPI_RECLAIMABLE).

(** [for(unsigned i = 0; i < mmap_length; i += sizeof(multiboot_memory_map_t))] *)
Definition mmap_step {S} (m : mem) (mmap_addr mmap_length : Z) (body : Z -> mmap_entry -> S -> S) '(i, s) : outcome (Z * S + S) :=
  if i <? mmap_length then Ret (inl (u32 (i + 24), body i (read_entry m (mmap_addr + i)) s)) else Ret (inr s).
Definition over_mmap {S} (m : mem) (mmap_addr mmap_length : Z) (body : Z -> mmap_entry -> S -> S) (s : S) : outcome S :=
  while (mmap_step m mmap_addr mmap_length body) (0, s).

Definition add_length (i : Z) (e : mmap_entry) (memsize : Z) : Z := if ignored i e then memsize else u32 (memsize + len e).
Definition free_region (i : Z) (e : mmap_entry) (p : pmm) : pmm :=
  if ignored i e then p else if negb (usable e) then p else pmmngr_init_region p (u32 (addr e)) (u32 (len e)).

Definition mem_init (m : mem) (s : vm) (kernel_pd_data mmap_addr mmap_length : Z) : outcome vm :=
  memsize ← over_mmap m mmap_addr mmap_length add_length 0;
  p ← over_mmap m mmap_addr mmap_length free_region (pmmngr_init memsize);
  let p := pmmngr_deinit_region p 0 (4 * 1024 * 1024) in
  Ret (vmmngr_init (set_frames s (pmmngr_update_usage p)) kernel_pd_data).

(** kinit's two loops that clear the writable bit: the entry of the page at
    [a] is edited through the recursive window. *)
Definition protect_step (fin : Z) '(a, s) : outcome (Z * vm + vm) :=
  if a <? fin then
    let pte := u32 (0xffc00000 + Z.shiftr a 12 * 4) in
    v ← vread s pte;
    s ← vwrite s pte (Z.land v (Z.lnot PTE_WRITABLE));
    Ret (inl (u32 (a + MMNGR_PAGE_SIZE), s))
  else Ret (inr s).
Definition protect (start fin : Z) (s : vm) : outcome vm := while (protect_step fin) (start, s).
Definition protect_kernel (text_start text_end rodata_start rodata_end : Z) (s : vm) : outcome vm :=
  s ← protect text_start text_end s; protect rodata_start rodata_end s.

(** ** What the map says

    An entry this kernel can use: below 4 GiB (a 32-bit kernel has no use for the others),
    and not an empty one, which a zero address marks in all but the first.  It offers its
    bytes when it says that they are available or reclaimable. *)
Definition considered (k : nat) (e : mmap_entry) : Prop := addr e < 2 ^ 32 /\ len e < 2 ^ 32 /\ (k = 0%nat \/ addr e <> 0).
#[export] Instance considered_dec k e : Decision (considered k e).
Proof. unfold considered. apply _. Defined.
Definition offers (k : nat) (e : mmap_entry) : Prop :=
  considered k e /\ (type e = MULTIBOOT_MEMORY_AVAILABLE \/ type e = MULTIBOOT_MEMORY_ACPI_RECLAIMABLE).

(** Entry [k] of the map at [base], and what the first [n] say: the bytes they add up to,
    and whether one of them offers the byte at [b]. *)
Definition entry (m : mem) (base : Z) (k : nat) : mmap_entry := read_entry m (base + 24 * Z.of_nat k).
Fixpoint listed (m : mem) (base : Z) (n : nat) : Z :=
  match n with O => 0 | S k => listed m base k + (if decide (considered k (entry m base k)) then len (entry m base k) else 0) end.
Definition byte_offered (m : mem) (base : Z) (n : nat) (b : Z) : Prop :=
  exists k, (k < n)%nat /\ offers k (entry m base k) /\ addr (entry m base k) <= b < addr (entry m base k) + len (entry m base k).
Definition frame_offered (m : mem) (base : Z) (n : nat) (f : Z) : Prop :=
  forall b, f * MMNGR_PAGE_SIZE <= b < (f + 1) * MMNGR_PAGE_SIZE -> byte_offered m base n b.

(** What is offered starts on page boundaries and ends below the 3 GiB the bitmap covers. *)
Definition regions_fit (m : mem) (base : Z) (n : nat) : Prop :=
  forall k, (k < n)%nat -> offers k (entry m base k) ->
    addr (entry m base k) mod MMNGR_PAGE_SIZE = 0 /\ addr (entry m base k) + len (entry m base k) <= max_frame * MMNGR_PAGE_SIZE.

(** ** The loop over the map *)

Lemma over_mmap_eq {S} (m : mem) (base : Z) (n : nat) (body : Z -> mmap_entry -> S -> S) (s : S) :
  24 * Z.of_nat n < 2 ^ 32 ->
  over_mmap m base (24 * Z.of_nat n) body s =
  Ret (for_range (fun k => body (24 * k) (read_entry m (base + 24 * k))) 0 n s).
Proof.
  intros Hn. apply (while_loop _ (Datatypes.S n)); [|discriminate|lia].
  assert (G : forall k j s, j + Z.of_nat k = Z.of_nat n -> 0 <= j ->
    loop (mmap_step m base (24 * Z.of_nat n) body) (Datatypes.S k) (24 * j, s) =
    Ret (for_range (fun k => body (24 * k) (read_entry m (base + 24 * k))) j k s)).
  { induction k as [|k IH]; intros j t E Hj; rewrite loop_S; unfold mmap_step at 2; cbv beta iota.
    - replace (24 * j <? 24 * Z.of_nat n) with false by lia. reflexivity.
    - replace (24 * j <? 24 * Z.of_nat n) with true by lia. rewrite bind_ret, u32_small by lia.
      replace (24 * j + 24) with (24 * (j + 1)) by lia. now rewrite IH by lia. }
  apply (G n 0 s); lia.
Qed.

Lemma read_entry_range m p : 0 <= addr (read_entry m p) /\ 0 <= len (read_entry m p).
Proof.
  unfold read_entry, load64. cbn [addr len].
  pose proof (load32_range m (p + 4)). pose proof (load32_range m (p + 4 + 4)).
  pose proof (load32_range m (p + 12)). pose proof (load32_range m (p + 12 + 4)). lia.
Qed.

Lemma ignored_small i m p : ignored i (read_entry m p) = false ->
  0 <= addr (read_entry m p) < 2 ^ 32 /\ 0 <= len (read_entry m p) < 2 ^ 32.
Proof.
  destruct (read_entry_range m p) as [A L]. unfold ignored. rewrite !Z.shiftr_div_pow2 by lia. intros E.
  apply orb_false_iff in E as [E _]. apply orb_false_iff in E as [E1 E2]. zbool.
  pose proof (Z.div_mod (addr (read_entry m p)) (2 ^ 32) ltac:(lia)). pose proof (Z.mod_pos_bound (addr (read_entry m p)) (2 ^ 32) ltac:(lia)).
  pose proof (Z.div_mod (len (read_entry m p)) (2 ^ 32) ltac:(lia)). pose proof (Z.mod_pos_bound (len (read_entry m p)) (2 ^ 32) ltac:(lia)). lia.
Qed.

(** The code's two tests. *)
Lemma ignored_considered k m p : ignored (24 * Z.of_nat k) (read_entry m p) = negb (bool_decide (considered k (read_entry m p))).
Proof.
  destruct (ignored (24 * Z.of_nat k) (read_entry m p)) eqn:I.
  - symmetry. apply negb_true_iff, bool_decide_eq_false_2. intros (A & L & K). destruct (read_entry_range m p) as [A0 L0].
    unfold ignored in I. rewrite !Z.shiftr_div_pow2, !Z.div_small in I by lia. lia.
  - symmetry. apply negb_false_iff, bool_decide_eq_true_2. destruct (ignored_small _ _ _ I) as [A L]. split_and!; [lia|lia|].
    unfold ignored in I. apply orb_false_iff in I as [_ I]. lia.
Qed.

Lemma usable_offers k e : considered k e -> usable e = bool_decide (offers k e).
Proof.
  intros C. unfold usable. destruct (_ || _) eqn:U; symmetry; [apply bool_decide_eq_true_2|apply bool_decide_eq_false_2].
  - split; [exact C|lia].
  - intros [_ O]. lia.
Qed.

Lemma listed_nonneg m base n : 0 <= listed m base n.
Proof.
  induction n as [|n IH]; cbn [listed]; [lia|]. pose proof (read_entry_range m (base + 24 * Z.of_nat n)). unfold entry. case_match; lia.
Qed.

Lemma sizes_eq m base n : listed m base n < 2 ^ 32 ->
  for_range (fun k => add_length (24 * k) (read_entry m (base + 24 * k))) 0 n 0 = listed m base n.
Proof.
  induction n as [|n IH]; [reflexivity|]. rewrite for_range_last, Z.add_0_l. cbn [listed].
  pose proof (listed_nonneg m base n). unfold add_length at 1.
  pose proof (read_entry_range m (base + 24 * Z.of_nat n)).
  unfold entry. rewrite ignored_considered. destruct (decide _) as [C|C]; [rewrite bool_decide_eq_true_2 by exact C|rewrite bool_decide_eq_false_2 by exact C]; cbn [negb]; intros H'; rewrite IH by lia; [|lia].
  apply u32_small. lia.
Qed.

(** With regions that start on page boundaries, a frame is offered when one of them holds
    it; the first [n] offer it when the last of them does or the others do. *)
Lemma frame_offered_last m base n f : regions_fit m base (S n) ->
  let e := entry m base n in
  frame_offered m base (S n) f <-> frame_offered m base n f \/
    offers n e /\ addr e / MMNGR_PAGE_SIZE <= f < addr e / MMNGR_PAGE_SIZE + len e / MMNGR_PAGE_SIZE.
Proof.
  unfold frame_offered, byte_offered, MMNGR_PAGE_SIZE. intros Fit. cbv zeta. set (e := entry m base n). split.
  - intros F. destruct (F (f * 4096 + 4095)) as (k & Hk & O & B); [lia|]. destruct (Fit k Hk O) as [Al _]. unfold MMNGR_PAGE_SIZE in Al.
    destruct (read_entry_range m (base + 24 * Z.of_nat k)) as [A0 L0]. fold (entry m base k) in A0, L0.
    pose proof (Z.div_mod (addr (entry m base k)) 4096 ltac:(lia)) as Da. pose proof (Z.div_mod (len (entry m base k)) 4096 ltac:(lia)) as Dl. pose proof (Z.mod_pos_bound (len (entry m base k)) 4096 ltac:(lia)) as Ml.
    destruct (decide (k = n)) as [->|Ne]; [right; fold e in Da, Dl, Al, Ml, A0, L0, B, O |- *; split; [exact O|lia]|left].
    intros b Hb. exists k. split_and!; [lia|exact O|lia|lia].
  - intros [F|[O B]] b Hb; [destruct (F b Hb) as (k & Hk & Ok & Bk); exists k; split_and!; auto; lia|].
    exists n. fold e. destruct (Fit n ltac:(lia) O) as [Al _]. unfold MMNGR_PAGE_SIZE in Al. fold e in Al.
    pose proof (Z.div_mod (addr e) 4096 ltac:(lia)). pose proof (Z.div_mod (len e) 4096 ltac:(lia)). pose proof (Z.mod_pos_bound (len e) 4096 ltac:(lia)).
    split_and!; [lia|exact O|lia|lia].
Qed.

(** The bitmap after the region pass: a frame is free when it is offered, frame 0 apart. *)
Lemma regions_freed m base n size : regions_fit m base n ->
  let p := for_range (fun k => free_region (24 * k) (read_entry m (base + 24 * k))) 0 n (pmmngr_init size) in
  words_ok p /\ total_block p = size / MMNGR_PAGE_SIZE /\
  forall f, 0 <= f < max_frame -> test_bit p f = false <-> f <> 0 /\ frame_offered m base n f.
Proof.
  induction n as [|n IH]; intros Fit.
  - split; [apply init_words_ok|]. split; [reflexivity|]. intros f F. cbn [for_range]. rewrite init_test_bit by exact F. split; [discriminate|].
    intros [_ O]. destruct (O (f * MMNGR_PAGE_SIZE)) as (k & Hk & _); unfold MMNGR_PAGE_SIZE; lia.
  - rewrite for_range_last, Z.add_0_l. cbv zeta in *. destruct IH as (W & T & B); [intros k Hk; apply Fit; lia|].
    set (p := for_range _ 0 n _) in *. clearbody p. pose proof (fun f => frame_offered_last m base n f Fit) as Last. cbv zeta in Last.
    set (e := entry m base n) in *. change (read_entry m (base + 24 * Z.of_nat n)) with e. specialize (Fit n ltac:(lia)). fold e in Fit.
    assert (I : ignored (24 * Z.of_nat n) e = negb (bool_decide (considered n e))) by apply ignored_considered. unfold free_region. rewrite I.
    destruct (bool_decide (considered n e)) eqn:C; [apply bool_decide_eq_true in C|apply bool_decide_eq_false in C]; cbn [negb].
    2:{ split; [exact W|]. split; [exact T|]. intros f F. rewrite Last, B by exact F. unfold offers. tauto. }
    rewrite (usable_offers n e C). destruct (bool_decide (offers n e)) eqn:O; [apply bool_decide_eq_true in O|apply bool_decide_eq_false in O]; cbn [negb].
    2:{ split; [exact W|]. split; [exact T|]. intros f F. rewrite Last, B by exact F. tauto. }
    destruct (Fit O) as [Al End]. destruct (read_entry_range m (base + 24 * Z.of_nat n)) as [A0 L0]. fold (entry m base n) in A0, L0. fold e in A0, L0. destruct C as (A & L & _).
    unfold MMNGR_PAGE_SIZE, max_frame in *. pose proof (Z.div_mod (addr e) 4096 ltac:(lia)). pose proof (Z.div_mod (len e) 4096 ltac:(lia)). pose proof (Z.mod_pos_bound (len e) 4096 ltac:(lia)).
    rewrite (u32_small (addr e)), (u32_small (len e)) by lia.
    destruct (init_region_props p (addr e) (len e) W) as (W' & T' & B'); [lia|lia|unfold MMNGR_PAGE_SIZE, max_frame; lia|]. unfold MMNGR_PAGE_SIZE in *.
    split; [exact W'|]. split; [now rewrite T'|]. intros f F. specialize (B f F). rewrite B', Last by lia. rewrite orb_false_iff, andb_false_iff, negb_false_iff, B. split.
    + intros [N [[_ Of]|Hf]]; [split; [lia|now left]|split; [lia|right; split; [exact O|lia]]].
    + intros [N [Of|[_ Hf]]]; (split; [lia|]); [left; auto|right; lia].
Qed.

Lemma reserve_kernel p : words_ok p ->
  let q := pmmngr_deinit_region p 0 (4 * 1024 * 1024) in
  words_ok q /\ total_block q = total_block p /\ forall f, 0 <= f -> test_bit q f = (f <? 1024) || test_bit p f.
Proof.
  intros W. unfold pmmngr_deinit_region. replace (4 * 1024 * 1024 / MMNGR_PAGE_SIZE) with 1024 by reflexivity.
  replace (0 / MMNGR_PAGE_SIZE) with 0 by reflexivity.
  destruct (set_range_props p 0 (Z.to_nat 1024) W) as (W' & _ & T' & B'); [lia|unfold max_frame; lia|].
  split; [exact W'|]. split; [exact T'|]. intros f F. rewrite B', Z2Nat.id by lia. f_equal. lia.
Qed.

(** The bitmap mem_init counts. *)
Definition regions (m : mem) (base : Z) (n : nat) (size : Z) : pmm :=
  pmmngr_deinit_region
    (for_range (fun k => free_region (24 * k) (read_entry m (base + 24 * k))) 0 n (pmmngr_init size)) 0 (4 * 1024 * 1024).

Lemma mem_init_eq m s kernel_pd_data base n : 24 * Z.of_nat n < 2 ^ 32 -> listed m base n < 2 ^ 32 ->
  mem_init m s kernel_pd_data base (24 * Z.of_nat n) =
  Ret (vmmngr_init (set_frames s (pmmngr_update_usage (regions m base n (listed m base n)))) kernel_pd_data).
Proof.
  intros Hn Hs. unfold mem_init. rewrite (over_mmap_eq _ _ _ _ _ Hn), bind_ret, sizes_eq by assumption.
  now rewrite (over_mmap_eq _ _ _ _ _ Hn), bind_ret.
Qed.

Lemma regions_spec m base n size : regions_fit m base n ->
  words_ok (regions m base n size) /\ total_block (regions m base n size) = size / MMNGR_PAGE_SIZE /\
  forall f, 0 <= f < max_frame -> test_bit (regions m base n size) f = false <-> 1024 <= f /\ frame_offered m base n f.
Proof.
  intros Fit. destruct (regions_freed m base n size Fit) as (W & T & B).
  destruct (reserve_kernel _ W) as (W' & T' & B'). split; [exact W'|]. split; [exact (eq_trans T' T)|].
  intros f F. unfold regions. specialize (B f F). rewrite B', orb_false_iff, B, Z.ltb_ge by lia. intuition lia.
Qed.

Lemma usage_bits p f : test_bit (pmmngr_update_usage p) f = test_bit p f.
Proof. reflexivity. Qed.

Lemma usage_total p : total_block (pmmngr_update_usage p) = total_block p.
Proof. reflexivity. Qed.

Lemma boot_wf m base n : regions_fit m base n -> listed m base n <= max_frame * MMNGR_PAGE_SIZE ->
  pmm_wf (pmmngr_update_usage (regions m base n (listed m base n))).
Proof.
  intros Fit Fits. pose proof (listed_nonneg m base n). destruct (regions_spec m base n (listed m base n) Fit) as (W & T & B).
  apply update_usage_wf; [exact W| |apply not_false_iff_true; rewrite (B 0) by (unfold max_frame; lia); lia].
  rewrite T. split; [apply Z.div_pos; unfold MMNGR_PAGE_SIZE; lia|].
  apply Z.div_le_upper_bound; unfold max_frame, MMNGR_PAGE_SIZE in *; lia.
Qed.

(** ** Properties *)

(** C16: booting hands the allocator the memory the boot loader offered, in whole frames.
    For a memory map of [n] entries whose usable regions start on page boundaries and lie
    below 3 GiB, and whose lengths add up to no more, mem_init runs both its loops to
    their end and leaves a well-formed allocator of that size, in which a frame is free
    exactly when it lies above the kernel's 4 MiB and every byte of it is offered (by an
    entry below 4 GiB, and after the first one not at 0: [considered]).  What is
    handed out first is such a frame, and one of the first [listed / 4096]: the allocator
    is as large as the lengths add up to, so frames that lie higher because the map has
    holes are free but never handed out ([top_frames_lost]).  The page tables in use are
    not touched. *)
Theorem mem_init_frees_offered (m : mem) (s : vm) (kernel_pd_data base : Z) (n : nat) :
  24 * Z.of_nat n < 2 ^ 32 -> regions_fit m base n -> listed m base n <= max_frame * MMNGR_PAGE_SIZE ->
  exists s', mem_init m s kernel_pd_data base (24 * Z.of_nat n) = Ret s' /\ words s' = words s /\
    pmm_wf (frames s') /\ total_block (frames s') = listed m base n / MMNGR_PAGE_SIZE /\
    (forall f, 0 <= f < max_frame -> test_bit (frames s') f = false <-> 1024 <= f /\ frame_offered m base n f) /\
    forall a p, pmmngr_alloc_block (frames s') = (a, p) -> a <> 0 ->
      exists f, a = f * MMNGR_PAGE_SIZE /\ 1024 <= f < listed m base n / MMNGR_PAGE_SIZE /\ frame_offered m base n f.
Proof.
  intros Hn Fit Fits. pose proof (boot_wf m base n Fit Fits) as W.
  destruct (regions_spec m base n (listed m base n) Fit) as (_ & T & B).
  set (p := regions _ _ _ _) in *.
  assert (F : forall f, 0 <= f < max_frame -> test_bit (pmmngr_update_usage p) f = false <-> 1024 <= f /\ frame_offered m base n f) by (intros f Hf; rewrite usage_bits; exact (B f Hf)).
  eexists. split; [apply mem_init_eq; [exact Hn|unfold max_frame, MMNGR_PAGE_SIZE in Fits; lia]|]. fold p. clearbody p.
  cbn [vmmngr_init words frames set_frames]. split; [reflexivity|]. split; [exact W|]. split; [rewrite usage_total; exact T|]. split; [exact F|].
  rewrite <- T, <- usage_total. set (q := pmmngr_update_usage p) in *. clearbody q.
  intros a p' A Ha. pose proof (alloc_block_lowest _ W) as L. rewrite A in L.
  destruct L as [[? _]|(f & E1 & E2 & E3 & _)]; [contradiction|]. exists f. split; [exact E1|].
  pose proof (wf_total _ W). apply F in E3 as [? ?]; [|lia]. split; [lia|assumption].
Qed.

(** ** The kernel's read-only pages *)

Definition clear_writable (e : Z) : Z := u32 (Z.land e (Z.lnot PTE_WRITABLE)).

Lemma clear_writable_spec e :
  0 <= clear_writable e < 2 ^ 32 /\ present (clear_writable e) = present e /\
  frame_of (clear_writable e) = frame_of e /\ Z.testbit (clear_writable e) 1 = false.
Proof.
  split; [apply u32_range|]. assert (E : clear_writable e = Z.land e 0xfffffffd).
  { unfold clear_writable, u32. rewrite <- Z.land_ones, <- Z.land_assoc by lia. reflexivity. }
  rewrite E. split_and!.
  - rewrite !present_bit, Z.land_spec. apply andb_true_r.
  - unfold frame_of. rewrite <- Z.land_assoc. reflexivity.
  - rewrite Z.land_spec. apply andb_false_r.
Qed.

(** An address of the kernel's own 4 MiB. *)
Definition in_kernel (a : Z) : Prop := KERNEL_START <= a < KERNEL_START + 4194304.

Lemma kernel_slot a : in_kernel a -> PAGE_DIRECTORY_INDEX a = 768.
Proof.
  unfold in_kernel, KERNEL_START. intros H. rewrite pdi_eq.
  replace (a / 4194304) with 768 by (apply (Z.div_unique _ _ _ (a - 768 * 4194304)); lia). reflexivity.
Qed.

Definition page_of (a : Z) : Z := a / MMNGR_PAGE_SIZE * MMNGR_PAGE_SIZE.

Lemma same_page_kernel va a : in_kernel a -> a mod MMNGR_PAGE_SIZE = 0 -> 0 <= va < 2 ^ 32 ->
  same_page va a = (page_of va =? a).
Proof.
  unfold in_kernel, KERNEL_START, same_page, page_of, MMNGR_PAGE_SIZE. intros H M V. rewrite !pdi_eq, !pti_eq.
  assert (D : forall x, x / 4194304 = x / 4096 / 1024) by (intros; rewrite Z.div_div by lia; reflexivity).
  rewrite !D. pose proof (Z.div_mod va 4096 ltac:(lia)) as E1. pose proof (Z.div_mod a 4096 ltac:(lia)) as E2.
  pose proof (Z.mod_pos_bound va 4096 ltac:(lia)).
  assert (0 <= va / 4096 < 1048576) by lia. assert (0 <= a / 4096 < 1048576) by lia.
  rewrite M in E2. generalize dependent (va / 4096). generalize dependent (a / 4096). intros y E2 Hy x E1 Hx.
  rewrite (Z.mod_small (x / 1024)), (Z.mod_small (y / 1024)) by (split; [apply Z.div_pos; lia|apply Z.div_lt_upper_bound; lia]).
  pose proof (Z.div_mod x 1024 ltac:(lia)). pose proof (Z.div_mod y 1024 ltac:(lia)).
  apply eq_true_iff_eq. rewrite andb_true_iff, !Z.eqb_eq. split; [lia|]. intros E. assert (x = y) as -> by lia. now split.
Qed.

Lemma wr_u32 s a v : wr s a v = wr s a (u32 v).
Proof. unfold wr. now rewrite (u32_small (u32 v)) by apply u32_range. Qed.

(** One turn of the loop. *)
Lemma protect_page s kt a fin : vm_wf s kt -> in_kernel a -> a mod MMNGR_PAGE_SIZE = 0 -> a < fin -> unshared s (cr3 s) 768 ->
  exists s', protect_step fin (a, s) = Ret (inl (a + MMNGR_PAGE_SIZE, s')) /\ vm_wf s' kt /\ cr3 s' = cr3 s /\
    frames s' = frames s /\ unshared s' (cr3 s) 768 /\
    forall va, 0 <= va < 2 ^ 32 ->
      walk s' (cr3 s) va = if page_of va =? a then option_map clear_writable (walk s (cr3 s) va) else walk s (cr3 s) va.
Proof.
  intros W K M L U. pose proof (kernel_slot a K) as I. pose proof (pti_range a). pose proof (pdi_range a).
  assert (Hp : present (rd s (pde_addr (cr3 s) a)) = true) by (unfold pde_addr; rewrite I; apply W).
  assert (Ht : frame_of (rd s (pde_addr (cr3 s) a)) = kt) by (unfold pde_addr; rewrite I; apply W).
  assert (Hk : kt <> cr3 s) by apply W. pose proof (wf_kt_is_frame _ _ W) as Fk.
  assert (P : u32 (0xffc00000 + Z.shiftr a 12 * 4) = PAGE_TABLE_LOOKUP (PAGE_TABLE_ADDR (PAGE_DIRECTORY_INDEX a)) a).
  { rewrite tab_lookup_active, I. unfold in_kernel, KERNEL_START in K. rewrite pti_eq, Z.shiftr_div_pow2 by lia.
    change (2 ^ 12) with 4096. pose proof (Z.div_mod a 4096 ltac:(lia)). pose proof (Z.mod_pos_bound a 4096 ltac:(lia)).
    rewrite u32_small by lia. replace (a / 4096 mod 1024) with (a / 4096 - 768 * 1024); [lia|].
    apply (Z.mod_unique _ _ 768); lia. }
  assert (T : translate s (u32 (0xffc00000 + Z.shiftr a 12 * 4)) = Some (pte_addr kt a)).
  { rewrite P, tab_lookup_active. unfold pte_addr. rewrite <- Ht. apply (translate_tab _ _ _ _ W); auto. }
  set (e := rd s (pte_addr kt a)).
  assert (Dir : forall v j, 0 <= j < 1024 -> rd (wr s (pte_addr kt a) v) (cr3 s + 4 * j) = rd s (cr3 s + 4 * j)).
  { intros v j Hj. apply rd_wr_ne. apply not_eq_sym, dir_slot_ne; auto. apply W. }
  exists (wr s (pte_addr kt a) (clear_writable e)). split_and!.
  - unfold protect_step. rewrite (proj2 (Z.ltb_lt a fin) L). cbv zeta.
    rewrite (vread_at _ _ _ T), bind_ret, (vwrite_at _ _ _ _ T), bind_ret. fold e.
    replace (wr s (pte_addr kt a) (clear_writable e)) with (wr s (pte_addr kt a) (Z.land e (Z.lnot PTE_WRITABLE))) by apply wr_u32.
    unfold in_kernel, KERNEL_START, MMNGR_PAGE_SIZE in *. now rewrite u32_small by lia.
  - apply vm_wf_wr; [exact W|apply not_eq_sym, dir_slot_ne; auto; [apply W|lia]..].
  - reflexivity.
  - reflexivity.
  - intros k Hk' Hne. rewrite !Dir by lia. now apply U.
  - intros va V. pose proof (walk_edit s (cr3 s) a (clear_writable e) (wf_cr3 _ _ W) Hp) as E. cbv zeta in E.
    rewrite Ht in E. rewrite I in E. rewrite E by auto. rewrite (same_page_kernel va a K M V).
    destruct (page_of va =? a) eqn:Q; [|reflexivity].
    rewrite <- (same_page_kernel va a K M V) in Q. rewrite (walk_same_page s (cr3 s) va a Q). unfold walk. rewrite Hp, Ht. fold e.
    assert (Re : u32 (clear_writable e) = clear_writable e) by apply u32_small, u32_range.
    destruct (clear_writable_spec e) as (_ & Pe & _).
    rewrite Re, Pe. destruct (present e); reflexivity.
Qed.

Lemma clear_writable_idem e : clear_writable (clear_writable e) = clear_writable e.
Proof.
  unfold clear_writable, u32. rewrite <- !Z.land_ones by lia. apply Z.bits_inj. intros i. rewrite !Z.land_spec.
  destruct (Z.testbit e i), (Z.testbit (Z.lnot PTE_WRITABLE) i), (Z.testbit (Z.ones 32) i); reflexivity.
Qed.

(** What a pass over [start, fin) does to an address space. *)
Definition protected (start fin : Z) (s s' : vm) : Prop :=
  forall va, 0 <= va < 2 ^ 32 ->
    walk s' (cr3 s) va =
    if (start <=? page_of va) && (page_of va <? fin) then option_map clear_writable (walk s (cr3 s) va) else walk s (cr3 s) va.

Lemma protect_loop n : forall s kt a fin, vm_wf s kt -> unshared s (cr3 s) 768 ->
  KERNEL_START <= a -> fin <= KERNEL_START + 4194304 -> a mod MMNGR_PAGE_SIZE = 0 -> fin - a <= MMNGR_PAGE_SIZE * Z.of_nat n ->
  exists s', loop (protect_step fin) (S n) (a, s) = Ret s' /\ vm_wf s' kt /\ cr3 s' = cr3 s /\ frames s' = frames s /\
    unshared s' (cr3 s) 768 /\ protected a fin s s'.
Proof.
  induction n as [|n IH]; intros s kt a fin W U A F M N; rewrite loop_S.
  - exists s. split; [unfold protect_step at 2; cbv beta iota; now replace (a <? fin) with false by lia|].
    split_and!; auto. intros va V. now replace (_ && _) with false by lia.
  - destruct (decide (a < fin)) as [L|L].
    + destruct (protect_page s kt a fin W) as (s1 & E1 & W1 & C1 & F1 & U1 & K1); auto; [unfold in_kernel; lia|].
      rewrite E1, bind_ret. cbv iota.
      assert (M' : (a + MMNGR_PAGE_SIZE) mod MMNGR_PAGE_SIZE = 0).
      { rewrite <- (Z.mul_1_l MMNGR_PAGE_SIZE) at 1. now rewrite Z_mod_plus_full. }
      rewrite <- C1 in U1.
      destruct (IH s1 kt (a + MMNGR_PAGE_SIZE) fin W1 U1) as (s2 & E2 & W2 & C2 & F2 & U2 & K2);
        [unfold MMNGR_PAGE_SIZE in *; lia|lia|exact M'|unfold MMNGR_PAGE_SIZE in *; lia|].
      exists s2. split; [exact E2|]. split; [exact W2|]. split; [congruence|]. split; [congruence|].
      rewrite C1 in U2. split; [exact U2|]. intros va V. unfold protected in K2. rewrite C1 in K2. rewrite K2, K1 by exact V.
      assert (Q : page_of va = a + MMNGR_PAGE_SIZE * ((page_of va - a) / MMNGR_PAGE_SIZE)).
      { unfold page_of, MMNGR_PAGE_SIZE in *. apply Z.div_exact in M; [|lia]. rewrite M.
        replace (va / 4096 * 4096 - 4096 * (a / 4096)) with ((va / 4096 - a / 4096) * 4096) by lia. rewrite Z.div_mul; lia. }
      unfold MMNGR_PAGE_SIZE in *. destruct (page_of va =? a) eqn:D; zbool.
      * replace (a + 4096 <=? page_of va) with false by lia. replace (a <=? page_of va) with true by lia.
        replace (page_of va <? fin) with true by lia. reflexivity.
      * replace (a + 4096 <=? page_of va) with (a <=? page_of va) by lia. reflexivity.
    + exists s. split; [unfold protect_step at 2; cbv beta iota; now replace (a <? fin) with false by lia|].
      split_and!; auto. intros va V. now replace (_ && _) with false by lia.
Qed.

Lemma protect_ok s kt a fin : vm_wf s kt -> unshared s (cr3 s) 768 ->
  KERNEL_START <= a -> fin <= KERNEL_START + 4194304 -> a mod MMNGR_PAGE_SIZE = 0 ->
  exists s', protect a fin s = Ret s' /\ vm_wf s' kt /\ cr3 s' = cr3 s /\ frames s' = frames s /\
    unshared s' (cr3 s) 768 /\ protected a fin s s'.
Proof.
  intros W U A F M. destruct (protect_loop 1024 s kt a fin W U A F M) as (s' & E & H); [unfold MMNGR_PAGE_SIZE; lia|].
  exists s'. split; [|exact H]. apply (while_loop _ 1025); [exact E|discriminate|lia].
Qed.

(** C18: the kernel's text and constants become read-only.  In the kernel's
    4 MiB, with the sections starting on page boundaries as the linker script
    places them, kinit's two loops run to their end without a fault and clear
    the writable bit of exactly the pages that hold a byte of a section: an
    address there keeps its frame and is not writable, any other address walks
    as before, and the frame allocator is untouched. *)
Theorem protect_kernel_readonly (s : vm) (kt text_start text_end rodata_start rodata_end : Z) :
  vm_wf s kt -> unshared s (cr3 s) 768 ->
  KERNEL_START <= text_start -> text_end <= KERNEL_START + 4194304 -> text_start mod MMNGR_PAGE_SIZE = 0 ->
  KERNEL_START <= rodata_start -> rodata_end <= KERNEL_START + 4194304 -> rodata_start mod MMNGR_PAGE_SIZE = 0 ->
  exists s', protect_kernel text_start text_end rodata_start rodata_end s = Ret s' /\
    vm_wf s' kt /\ frames s' = frames s /\
    forall va, 0 <= va < 2 ^ 32 ->
      if (text_start <=? page_of va) && (page_of va <? text_end) || (rodata_start <=? page_of va) && (page_of va <? rodata_end)
      then forall e, walk s (cr3 s) va = Some e ->
        exists e', walk s' (cr3 s') va = Some e' /\ frame_of e' = frame_of e /\ Z.testbit e' 1 = false
      else walk s' (cr3 s') va = walk s (cr3 s) va.
Proof.
  intros W U T1 T2 T3 R1 R2 R3. unfold protect_kernel.
  destruct (protect_ok s kt text_start text_end W U T1 T2 T3) as (s1 & E1 & W1 & C1 & F1 & U1 & K1). rewrite E1, bind_ret.
  rewrite <- C1 in U1. destruct (protect_ok s1 kt rodata_start rodata_end W1 U1 R1 R2 R3) as (s2 & E2 & W2 & C2 & F2 & U2 & K2).
  exists s2. split; [exact E2|]. split; [exact W2|]. split; [congruence|]. intros va V.
  specialize (K1 va V). specialize (K2 va V). rewrite C1 in K2. rewrite K1 in K2. rewrite C2, C1, K2.
  destruct (_ && _); simpl orb; destruct (_ && _); try reflexivity; intros e ->; cbn [option_map];
    rewrite ?clear_writable_idem; eexists; (split; [reflexivity|]); apply clear_writable_spec.
Qed.

(** ** A machine with 8 MiB

    Conventional memory below 640 KiB, 7 MiB from the first MiB on, and the
    firmware's reserved 256 KiB below 4 GiB. *)

Definition store_entry (p a l t : Z) (m : mem) : mem :=
  store32 (store32 (store32 (store32 (store32 (store32 m p 20) (p + 4) a) (p + 8) 0) (p + 12) l) (p + 16) 0) (p + 20) t.

Definition mmap_at : Z := 0xc0009000.
Definition mmap : mem :=
  store_entry mmap_at 0 0x9fc00 1 (store_entry (mmap_at + 24) 0x100000 0x700000 1
    (store_entry (mmap_at + 48) 0xfffc0000 0x40000 2 ∅)).

Lemma mem_init_frees_offered_witness : exists s', mem_init mmap sample_vm 0xc0001000 mmap_at 72 = Ret s' /\
  pmm_wf (frames s') /\ (test_bit (frames s') 1023 = true /\ test_bit (frames s') 1024 = false).
Proof.
  destruct (mem_init_frees_offered mmap sample_vm 0xc0001000 mmap_at 3) as (s' & E & _ & W & _ & F & _);
    [lia| |apply Z.leb_le; vm_compute; reflexivity|].
  { intros [|[|[|k]]] Hk [_ O]; [by_eval|by_eval| |lia]. vm_compute in O. destruct O; discriminate. }
  exists s'. split; [exact E|]. split; [exact W|]. split.
  - destruct (test_bit (frames s') 1023) eqn:T; [reflexivity|]. apply F in T; [lia|unfold max_frame; lia].
  - apply F; [unfold max_frame; lia|]. split; [lia|]. intros b Hb. unfold MMNGR_PAGE_SIZE in Hb. exists 1%nat. split; [lia|].
    assert (Ee : entry mmap mmap_at 1 = Entry 0x100000 0x700000 1) by (vm_compute; reflexivity). rewrite Ee. cbn [addr len]. split; [by_eval|lia].
Defined.

Definition booted : outcome vm := mem_init mmap sample_vm 0xc0001000 mmap_at 72.

(** The allocator is sized by the sum of the lengths, not by the highest
    address: the holes of the map are taken off the top of memory.  Frame 2047,
    the last of this machine, is usable and free, and lies outside the 2015
    frames the allocator ever looks at. *)
Example top_frames_lost : (s ← booted; Ret (total_block (frames s), test_bit (frames s) 2047)) = Ret (2015, false).
Proof. vm_compute. reflexivity. Qed.

(** A region that does not start on a page boundary frees the page it starts
    in, the bytes before it included. *)
Example region_rounds_down : test_bit (free_region 24 (Entry 0x500800 0x1000 1) (pmmngr_init 0x800000)) 0x500 = false.
Proof. vm_compute. reflexivity. Qed.

(** The kernel's table, with a writable page of text, one of constants and one of data. *)
Definition kernel_vm : vm := Vm
  (list_to_map [(0x1000 + 4092, 0x1003); (0x1000 + 4 * 768, 0x2003);
    (0x2000 + 4 * 512, 0x200003); (0x2000 + 4 * 513, 0x201003); (0x2000 + 4 * 514, 0x202003)])
  0x1000 0x1000 sample_pmm_3.

Lemma kernel_vm_wf : vm_wf kernel_vm 0x2000.
Proof. split; unfold is_frame; apply (bool_decide_unpack _); vm_compute; exact I. Qed.

Lemma kernel_unshared : unshared kernel_vm 0x1000 768.
Proof.
  unfold unshared. apply (forall_below 1024 (fun k => k <> 768 -> present (rd kernel_vm (0x1000 + 4 * k)) = true ->
    frame_of (rd kernel_vm (0x1000 + 4 * k)) <> frame_of (rd kernel_vm (0x1000 + 4 * 768)))).
  vm_compute. reflexivity.
Qed.

Lemma protect_kernel_readonly_witness : exists s',
  protect_kernel 0xc0200000 0xc0200010 0xc0201000 0xc0201008 kernel_vm = Ret s' /\
  walk s' (cr3 s') 0xc0202004 = Some 0x202003 /\
  exists e, walk s' (cr3 s') 0xc0200800 = Some e /\ Z.testbit e 1 = false.
Proof.
  destruct (protect_kernel_readonly kernel_vm 0x2000 0xc0200000 0xc0200010 0xc0201000 0xc0201008 kernel_vm_wf kernel_unshared)
    as (s' & E & _ & _ & H); [unfold KERNEL_START, MMNGR_PAGE_SIZE; (lia || reflexivity)..|].
  exists s'. split; [exact E|]. clear E. split.
  - specialize (H 0xc0202004 ltac:(lia)). revert H. match goal with |- (if ?c then _ else _) -> _ => replace c with false by (vm_compute; reflexivity) end.
    intros ->. vm_compute. reflexivity.
  - specialize (H 0xc0200800 ltac:(lia)). revert H. match goal with |- (if ?c then _ else _) -> _ => replace c with true by (vm_compute; reflexivity) end.
    intros H. destruct (H 0x200003) as (e & E1 & _ & E2); [vm_compute; reflexivity|]. now exists e.
Defined.
