(* ===== verification/Procs.v ===== *)
(** * Processes and process queues (process.h, process_queue.c)

    Processes are heap objects linked through fields of their own; the model
    keeps a store from pointers to process records, 0 being NULL and an
    address outside the store a dangling pointer whose use is a [Fault].  A
    queue is the code's (top, bottom, size) and the order of its members is in
    the store; [queue_rep] relates the two to a list. *)
From S2P Require Import Prelude.

Inductive PROCESS_STATE :=
  PROCESS_STATE_READY | PROCESS_STATE_ACTIVE | PROCESS_STATE_SLEEP | PROCESS_STATE_BLOCK.

(** [process_t].  [file_nodes] is the [node] field of each of the MAX_FILE
    descriptors at [file_descriptor_table]; the args and envs arrays are never
    used, and cwd only by path look-up. *)
Record process := Process {
  id : Z;
  state : PROCESS_STATE;
  alive_ticks : Z;
  sleep_ticks : Z;
  page_directory : Z;
  is_user : bool;
  received_exit_code : Z;
  attached_from : Z;
  stack_addr : Z;
  saved_esp : Z;
  tss_esp0 : Z;
  waiting_for_resource_count : Z;
  file_descriptor_table : Z;
  file_nodes : list Z;
  file_count : Z;
  queue_next : Z;
  global_next : Z;
  global_prev : Z;
}.

Definition set_state v p := Process (id p) v (alive_ticks p) (sleep_ticks p) (page_directory p) (is_user p)
  (received_exit_code p) (attached_from p) (stack_addr p) (saved_esp p) (tss_esp0 p) (waiting_for_resource_count p)
  (file_descriptor_table p) (file_nodes p) (file_count p) (queue_next p) (global_next p) (global_prev p).
Definition set_alive_ticks v p := Process (id p) (state p) v (sleep_ticks p) (page_directory p) (is_user p)
  (received_exit_code p) (attached_from p) (stack_addr p) (saved_esp p) (tss_esp0 p) (waiting_for_resource_count p)
  (file_descriptor_table p) (file_nodes p) (file_count p) (queue_next p) (global_next p) (global_prev p).
Definition set_sleep_ticks v p := Process (id p) (state p) (alive_ticks p) v (page_directory p) (is_user p)
  (received_exit_code p) (attached_from p) (stack_addr p) (saved_esp p) (tss_esp0 p) (waiting_for_resource_count p)
  (file_descriptor_table p) (file_nodes p) (file_count p) (queue_next p) (global_next p) (global_prev p).
Definition set_exit_code v p := Process (id p) (state p) (alive_ticks p) (sleep_ticks p) (page_directory p) (is_user p)
  v (attached_from p) (stack_addr p) (saved_esp p) (tss_esp0 p) (waiting_for_resource_count p)
  (file_descriptor_table p) (file_nodes p) (file_count p) (queue_next p) (global_next p) (global_prev p).
Definition set_attached_from v p := Process (id p) (state p) (alive_ticks p) (sleep_ticks p) (page_directory p) (is_user p)
  (received_exit_code p) v (stack_addr p) (saved_esp p) (tss_esp0 p) (waiting_for_resource_count p)
  (file_descriptor_table p) (file_nodes p) (file_count p) (queue_next p) (global_next p) (global_prev p).
Definition set_saved_esp v p := Process (id p) (state p) (alive_ticks p) (sleep_ticks p) (page_directory p) (is_user p)
  (received_exit_code p) (attached_from p) (stack_addr p) v (tss_esp0 p) (waiting_for_resource_count p)
  (file_descriptor_table p) (file_nodes p) (file_count p) (queue_next p) (global_next p) (global_prev p).
Definition set_waiting v p := Process (id p) (state p) (alive_ticks p) (sleep_ticks p) (page_directory p) (is_user p)
  (received_exit_code p) (attached_from p) (stack_addr p) (saved_esp p) (tss_esp0 p) v
  (file_descriptor_table p) (file_nodes p) (file_count p) (queue_next p) (global_next p) (global_prev p).
Definition set_files v c p := Process (id p) (state p) (alive_ticks p) (sleep_ticks p) (page_directory p) (is_user p)
  (received_exit_code p) (attached_from p) (stack_addr p) (saved_esp p) (tss_esp0 p) (waiting_for_resource_count p)
  (file_descriptor_table p) v c (queue_next p) (global_next p) (global_prev p).
Definition set_queue_next v p := Process (id p) (state p) (alive_ticks p) (sleep_ticks p) (page_directory p) (is_user p)
  (received_exit_code p) (attached_from p) (stack_addr p) (saved_esp p) (tss_esp0 p) (waiting_for_resource_count p)
  (file_descriptor_table p) (file_nodes p) (file_count p) v (global_next p) (global_prev p).
Definition set_global_next v p := Process (id p) (state p) (alive_ticks p) (sleep_ticks p) (page_directory p) (is_user p)
  (received_exit_code p) (attached_from p) (stack_addr p) (saved_esp p) (tss_esp0 p) (waiting_for_resource_count p)
  (file_descriptor_table p) (file_nodes p) (file_count p) (queue_next p) v (global_prev p).
Definition set_global_prev v p := Process (id p) (state p) (alive_ticks p) (sleep_ticks p) (page_directory p) (is_user p)
  (received_exit_code p) (attached_from p) (stack_addr p) (saved_esp p) (tss_esp0 p) (waiting_for_resource_count p)
  (file_descriptor_table p) (file_nodes p) (file_count p) (queue_next p) (global_next p) v.

(** The store, and access through a pointer. *)
Abbreviation store := (gmap Z process).

Definition get (m : store) (p : Z) : outcome process := of_option (m !! p).
Definition upd (m : store) (p : Z) (f : process -> process) : outcome store :=
  r ← get m p; Ret (<[p := f r]> m).

Record queue := Queue { top : Z; bottom : Z; size : Z }.
Definition PROCESS_QUEUE_INIT : queue := Queue 0 0 0.

Definition process_sort_by_sleep_ticks (a b : process) : bool := sleep_ticks a <? sleep_ticks b.

Definition process_queue_push (m : store) (q : queue) (proc : Z) : outcome (store * queue) :=
  m ← upd m proc (set_queue_next 0);
  '(m, t) ← (if top q =? 0 then Ret (m, proc)
             else m ← upd m (bottom q) (set_queue_next proc); Ret (m, top q));
  Ret (m, Queue t proc (u32 (size q + 1))).

(** The [while] of the sorted push: the last member [cmp] places before
    [proc].  Its fuel is the size of the store. *)
Fixpoint sorted_prev (fuel : nat) (m : store) (cmp : process -> process -> bool) (proc prev : Z) : outcome Z :=
  match fuel with
  | O => NoFuel
  | S f =>
      r ← get m prev;
      if queue_next r =? 0 then Ret prev
      else
        n ← get m (queue_next r);
        rp ← get m proc;
        if cmp n rp then sorted_prev f m cmp proc (queue_next r) else Ret prev
  end.

Definition process_queue_sorted_push (m : store) (q : queue) (proc : Z) (cmp : process -> process -> bool)
    : outcome (store * queue) :=
  if top q =? 0 then
    m ← upd m proc (set_queue_next 0);
    Ret (m, Queue proc proc (u32 (size q + 1)))
  else
    rt ← get m (top q);
    rp ← get m proc;
    if negb (cmp rt rp) then
      m ← upd m proc (set_queue_next (top q));
      Ret (m, Queue proc (bottom q) (u32 (size q + 1)))
    else
      prev ← sorted_prev (S (Datatypes.length (map_to_list m))) m cmp proc (top q);
      r ← get m prev;
      let b := if queue_next r =? 0 then proc else bottom q in
      m ← upd m proc (set_queue_next (queue_next r));
      m ← upd m prev (set_queue_next proc);
      Ret (m, Queue (top q) b (u32 (size q + 1))).

(** The popped process, 0 when the queue is empty. *)
Definition process_queue_pop (m : store) (q : queue) : outcome (Z * queue) :=
  let ret := top q in
  if ret =? 0 then Ret (0, q)
  else
    t ← (if ret =? bottom q then Ret 0 else r ← get m ret; Ret (queue_next r));
    Ret (ret, Queue t (bottom q) (u32 (size q - 1))).

(** ** The list a queue holds *)

Definition next_of (m : store) (p : Z) : option Z := queue_next <$> m !! p.

(** [l] is linked through [queue_next], the last link being NULL. *)
Fixpoint chain (m : store) (l : list Z) : Prop :=
  match l with
  | [] => True
  | p :: l' => p <> 0 /\ next_of m p = Some (default 0 (head l')) /\ chain m l'
  end.

Record queue_rep (m : store) (q : queue) (l : list Z) : Prop := {
  qr_top : top q = default 0 (head l);
  qr_bottom : l <> [] -> last l = Some (bottom q);
  qr_size : size q = Z.of_nat (length l);
  qr_chain : chain m l;
}.

Lemma get_Ret m p r : get m p = Ret r <-> m !! p = Some r.
Proof. apply of_option_Ret. Qed.

Lemma upd_Ret m p f r : m !! p = Some r -> upd m p f = Ret (<[p := f r]> m).
Proof. intros E. unfold upd, get. now rewrite E. Qed.

Lemma chain_nonzero m l p : chain m l -> p ∈ l -> p <> 0.
Proof.
  induction l as [|x l IH]; [intros _ H; now apply elem_of_nil in H|]. simpl.
  intros (? & _ & C) [->|]%elem_of_cons; auto.
Qed.

Lemma chain_dom m l p : chain m l -> p ∈ l -> is_Some (m !! p).
Proof.
  induction l as [|x l IH]; [intros _ H; now apply elem_of_nil in H|]. simpl.
  intros (_ & E & C) [->|]%elem_of_cons; [|auto]. unfold next_of in E. destruct (m !! x); [eauto|discriminate].
Qed.

(** Only the links of its own members matter to a queue. *)
Lemma chain_ext m m' l : (forall p, p ∈ l -> next_of m' p = next_of m p) -> chain m l -> chain m' l.
Proof.
  induction l as [|x l IH]; simpl; [auto|]. intros H (? & E & C). split_and!; auto.
  - rewrite H; [assumption|]. left.
  - apply IH; auto. intros. apply H. now right.
Qed.

Lemma queue_rep_ext m m' q l : (forall p, p ∈ l -> next_of m' p = next_of m p) ->
  queue_rep m q l -> queue_rep m' q l.
Proof. intros H []. split; auto. eapply chain_ext; eauto. Qed.

Lemma queue_empty m q l : queue_rep m q l -> top q = 0 -> l = [].
Proof.
  intros [T _ _ C] E. destruct l as [|x l]; [reflexivity|]. destruct C as [? _]. simpl in T. congruence.
Qed.

Lemma next_insert m p r x : next_of (<[p := r]> m) x = if decide (p = x) then Some (queue_next r) else next_of m x.
Proof.
  unfold next_of. destruct (decide (p = x)) as [->|]; [now rewrite lookup_insert_eq|now rewrite lookup_insert_ne].
Qed.

Lemma next_insert_ne m p r x : p <> x -> next_of (<[p := r]> m) x = next_of m x.
Proof. intros. rewrite next_insert. now rewrite decide_False. Qed.

(** [m'] is [m] up to the queue links of the processes in [l]. *)
Record relinked (m m' : store) (l : list Z) : Prop := {
  rl_data : forall x, set_queue_next 0 <$> m' !! x = set_queue_next 0 <$> m !! x;
  rl_rest : forall x, x ∉ l -> m' !! x = m !! x;
}.

Lemma relinked_refl m l : relinked m m l.
Proof. split; auto. Qed.

Lemma relinked_insert m p r v l : m !! p = Some r -> p ∈ l -> relinked m (<[p := set_queue_next v r]> m) l.
Proof.
  intros E Hp. split; intros x.
  - destruct (decide (p = x)) as [->|]; [now rewrite lookup_insert_eq, E|now rewrite lookup_insert_ne].
  - intros Hx. apply lookup_insert_ne. intros ->. contradiction.
Qed.

Lemma relinked_trans m1 m2 m3 l : relinked m1 m2 l -> relinked m2 m3 l -> relinked m1 m3 l.
Proof.
  intros [D1 R1] [D2 R2]. split; intros x; [now rewrite D2|]. intros. rewrite R2; auto.
Qed.

Lemma relinked_weaken m m' l l' : relinked m m' l -> l ⊆ l' -> relinked m m' l'.
Proof. intros [D R] S. split; auto. Qed.

Lemma relinked_lookup m m' l p r : relinked m m' l -> m !! p = Some r ->
  exists v, m' !! p = Some (set_queue_next v r).
Proof.
  intros [D _] E. specialize (D p). rewrite E in D. destruct (m' !! p) as [r'|]; [|discriminate].
  exists (queue_next r'). destruct r, r'. cbn in D |- *. unfold set_queue_next in *. cbn in *.
  injection D. intros. subst. reflexivity.
Qed.

Lemma relinked_rep m m' l q k : relinked m m' l -> (forall p, p ∈ k -> p ∉ l) -> queue_rep m q k -> queue_rep m' q k.
Proof. intros R D. apply queue_rep_ext. intros p Hp. unfold next_of. now rewrite (rl_rest _ _ _ R) by auto. Qed.

Lemma chain_snoc m l p b : chain m l -> last l = Some b -> p <> 0 -> p ∉ l -> next_of m p = Some 0 ->
  forall m', (forall x, x <> b -> next_of m' x = next_of m x) -> next_of m' b = Some p -> NoDup l ->
  chain m' (l ++ [p]).
Proof.
  revert b. induction l as [|x l IH]; intros b C L Hp Hn Np m' S Sb ND; [discriminate|].
  simpl in C. destruct C as (Hx & Ex & C). apply NoDup_cons in ND as [Nx ND].
  destruct l as [|y l].
  - simpl in L. injection L as ->. simpl. split_and!; auto.
    rewrite S; [assumption|]. intros ->. apply Hn. left.
  - change (last (x :: y :: l)) with (last (y :: l)) in L.
    change (x <> 0 /\ next_of m' x = Some y /\ chain m' ((y :: l) ++ [p])). split_and!; auto.
    + rewrite S; [assumption|]. intros ->. apply Nx. apply last_Some_elem_of in L. exact L.
    + apply (IH b); auto. intros H. apply Hn. now right.
Qed.

(** Pushing appends. *)
Lemma push_rep m q l p r : queue_rep m q l -> NoDup l -> m !! p = Some r -> p <> 0 -> p ∉ l ->
  Z.of_nat (length l) + 1 < 2 ^ 32 ->
  exists m' q', process_queue_push m q p = Ret (m', q') /\ queue_rep m' q' (l ++ [p]) /\ relinked m m' (p :: l).
Proof.
  intros Q ND E Hp Hn Hlen. pose proof Q as [T B S C]. unfold process_queue_push.
  rewrite (upd_Ret _ _ _ _ E), bind_ret. set (m1 := <[p := set_queue_next 0 r]> m).
  assert (R1 : relinked m m1 (p :: l)) by (apply relinked_insert; [assumption|left]).
  destruct (Z.eqb_spec (top q) 0) as [Ht|Ht].
  - apply (queue_empty m q l Q) in Ht. subst l. rewrite !bind_ret.
    eexists _, _. split_and!; [reflexivity| |exact R1]. split; simpl; auto.
    + rewrite S. reflexivity.
    + split_and!; auto. unfold next_of, m1. now rewrite lookup_insert_eq.
  - destruct l as [|x l]; [simpl in T; congruence|]. specialize (B ltac:(congruence)).
    assert (Hb : bottom q ∈ x :: l) by (now apply last_Some_elem_of in B).
    assert (Hpb : p <> bottom q) by (intros Eq; rewrite Eq in Hn; contradiction).
    destruct (chain_dom _ _ _ C Hb) as [rb Eb].
    assert (Eb1 : m1 !! bottom q = Some rb) by (unfold m1; now rewrite lookup_insert_ne).
    rewrite (upd_Ret _ _ _ _ Eb1), !bind_ret.
    eexists _, _. split_and!; [reflexivity| |].
    + split; simpl; [exact T| | |].
      * intros _. change (x :: l ++ [p]) with ((x :: l) ++ [p]). apply last_snoc.
      * rewrite S, length_app. simpl. rewrite u32_small; [lia|]. simpl in Hlen. lia.
      * apply (chain_snoc m1 (x :: l) p (bottom q)); auto.
        -- apply chain_ext with m; [|assumption]. intros y Hy. unfold m1. rewrite next_insert_ne; auto.
           intros ->. contradiction.
        -- unfold next_of, m1. now rewrite lookup_insert_eq.
        -- intros y Hy. now apply next_insert_ne.
        -- unfold next_of. now rewrite lookup_insert_eq.
    + eapply relinked_trans; [exact R1|]. apply relinked_insert; [assumption|]. now right.
Qed.

(** Popping takes the head. *)
Lemma pop_rep m q p l : queue_rep m q (p :: l) -> NoDup (p :: l) -> Z.of_nat (length (p :: l)) < 2 ^ 32 ->
  exists q', process_queue_pop m q = Ret (p, q') /\ queue_rep m q' l.
Proof.
  intros [T B S C] ND Hlen. specialize (B ltac:(congruence)). simpl in T, C. destruct C as (Hp & E & C).
  apply NoDup_cons in ND as [Np ND].
  unfold process_queue_pop. rewrite T. replace (p =? 0) with false by lia.
  assert (Sz : u32 (size q - 1) = Z.of_nat (length l)) by (rewrite S; simpl in *; rewrite u32_small; lia).
  destruct l as [|y l].
  - simpl in B. injection B as <-. rewrite Z.eqb_refl, bind_ret. eexists. split; [reflexivity|].
    split; simpl; auto; congruence.
  - change (last (p :: y :: l)) with (last (y :: l)) in B.
    replace (p =? bottom q) with false.
    2:{ symmetry. apply Z.eqb_neq. intros ->. apply Np. now apply last_Some_elem_of in B. }
    unfold next_of in E. destruct (m !! p) as [r|] eqn:Em; [|discriminate]. simpl in E. injection E as E.
    unfold get. rewrite Em. simpl. eexists. split; [reflexivity|]. split; simpl; auto.
Qed.

Lemma pop_empty m q : queue_rep m q [] -> process_queue_pop m q = Ret (0, q).
Proof. intros [T _ _ _]. unfold process_queue_pop. now rewrite T. Qed.

(** ** Ordered insertion *)

Fixpoint insert_by (c : Z -> bool) (p : Z) (l : list Z) : list Z :=
  match l with
  | [] => [p]
  | x :: l' => if c x then x :: insert_by c p l' else p :: l
  end.

Lemma insert_by_ext c c' p l : (forall x, x ∈ l -> c x = c' x) -> insert_by c p l = insert_by c' p l.
Proof.
  induction l as [|x l IH]; intros Hc; simpl; [reflexivity|]. rewrite (Hc x) by left.
  rewrite IH; [reflexivity|]. intros y Hy. apply Hc. now right.
Qed.

(** [cmp] between two processes of the store. *)
Definition before (m : store) (cmp : process -> process -> bool) (p x : Z) : bool :=
  match m !! x, m !! p with Some rx, Some rp => cmp rx rp | _, _ => false end.

Lemma insert_by_split c p l1 y l2 : Forall (fun x => c x = true) (l1 ++ [y]) ->
  match head l2 with Some z => c z = false | None => True end ->
  insert_by c p (l1 ++ y :: l2) = l1 ++ y :: p :: l2.
Proof.
  induction l1 as [|x l1 IH]; simpl; intros F H; inversion F as [|? ? Hx F']; subst; rewrite Hx.
  - destruct l2 as [|z l2]; [reflexivity|]. simpl in H |- *. now rewrite H.
  - f_equal. now apply IH.
Qed.

Lemma insert_by_perm c p l : insert_by c p l ≡ₚ p :: l.
Proof. induction l as [|x l IH]; simpl; [reflexivity|]. destruct (c x); [|reflexivity]. rewrite IH. constructor. Qed.

Lemma chain_members_size m l : chain m l -> NoDup l -> (length l <= length (map_to_list m))%nat.
Proof.
  intros C ND. rewrite <- (length_fmap fst (map_to_list m)). apply submseteq_length, NoDup_submseteq; [assumption|].
  intros x Hx. destruct (chain_dom _ _ _ C Hx) as [r E]. apply list_elem_of_fmap.
  exists (x, r). split; [reflexivity|]. now apply elem_of_map_to_list.
Qed.

Lemma sorted_prev_spec fuel m cmp p rp x l : chain m (x :: l) -> m !! p = Some rp ->
  before m cmp p x = true -> (length l < fuel)%nat ->
  exists l1 y l2, sorted_prev fuel m cmp p x = Ret y /\ x :: l = l1 ++ y :: l2 /\
    Forall (fun z => before m cmp p z = true) (l1 ++ [y]) /\
    match head l2 with Some z => before m cmp p z = false | None => True end.
Proof.
  revert x l. induction fuel as [|f IH]; intros x l C Ep Bx Hf; [lia|].
  cbn [sorted_prev]. destruct C as (Hx & Ex & C). unfold next_of in Ex.
  destruct (m !! x) as [r|] eqn:Em; [|discriminate]. injection Ex as Ex.
  unfold get. rewrite Em. cbn [of_option]. rewrite bind_ret, Ex.
  destruct l as [|z l].
  - exists [], x, []. split_and!; auto. now apply Forall_singleton.
  - destruct (C) as (Hz & Ez & C'). simpl default. replace (z =? 0) with false by lia.
    destruct (chain_dom m (z :: l) z C ltac:(left)) as [rz Erz].
    rewrite Erz, Ep. cbn [of_option]. rewrite !bind_ret.
    destruct (cmp rz rp) eqn:Ec.
    + destruct (IH z l C Ep) as (l1 & y & l2 & E & Sp & F & H);
        [unfold before; now rewrite Erz, Ep|simpl in Hf; lia|].
      exists (x :: l1), y, l2. split_and!; auto; [simpl; now rewrite Sp|]. simpl. now constructor.
    + exists [], x, (z :: l). split_and!; auto; [now apply Forall_singleton|].
      simpl. unfold before. now rewrite Erz, Ep, Ec.
Qed.

Lemma chain_insert m l1 y l2 p rp ry : chain m (l1 ++ y :: l2) -> NoDup (l1 ++ y :: l2) -> p ∉ l1 ++ y :: l2 ->
  p <> 0 -> m !! p = Some rp -> m !! y = Some ry ->
  let m1 := <[p := set_queue_next (queue_next ry) rp]> m in
  chain (<[y := set_queue_next p ry]> m1) (l1 ++ y :: p :: l2).
Proof.
  intros C ND Hn Hp Ep Ey m1.
  assert (Hpy : p <> y) by (intros ->; apply Hn; rewrite elem_of_app; right; left).
  assert (N : forall x, next_of (<[y := set_queue_next p ry]> m1) x =
    if decide (x = y) then Some p else if decide (x = p) then Some (queue_next ry) else next_of m x).
  { intros x. unfold m1. rewrite next_insert. destruct (decide (y = x)) as [<-|]; [now rewrite decide_True|].
    rewrite (decide_False (P := x = y)) by congruence. rewrite next_insert.
    destruct (decide (p = x)) as [<-|]; [now rewrite decide_True|now rewrite decide_False by congruence]. }
  set (m2 := <[y := _]> m1) in *. clearbody m2. clear m1.
  induction l1 as [|x l1 IH].
  - destruct C as (Hy & Ny & C). change ([] ++ y :: p :: l2) with (y :: p :: l2).
    change (y <> 0 /\ next_of m2 y = Some p /\ (p <> 0 /\ next_of m2 p = Some (default 0 (head l2)) /\ chain m2 l2)).
    assert (Eq : queue_next ry = default 0 (head l2)) by (unfold next_of in Ny; rewrite Ey in Ny; now injection Ny).
    split_and!; auto.
    + rewrite N. now rewrite decide_True.
    + rewrite N, decide_False, decide_True by congruence. now rewrite Eq.
    + apply NoDup_cons in ND as [Hy2 _]. apply chain_ext with m; [|assumption]. intros x Hx. rewrite N.
      rewrite !decide_False; [reflexivity| |]; intros ->; [apply Hn; now right|contradiction].
  - destruct C as (Hx & Nx & C). apply NoDup_cons in ND as [Hx2 ND].
    change (x <> 0 /\ next_of m2 x = Some (default 0 (head (l1 ++ y :: p :: l2))) /\ chain m2 (l1 ++ y :: p :: l2)).
    split_and!; auto.
    + rewrite N. rewrite !decide_False.
      * destruct l1; exact Nx.
      * intros ->. apply Hn. left.
      * intros ->. apply Hx2. rewrite elem_of_app. right. left.
    + apply IH; auto. intros H. apply Hn. now right.
Qed.

(** Sorted push inserts after the members that come before the new one. *)
Lemma sorted_push_rep m q l p rp cmp : queue_rep m q l -> NoDup l -> m !! p = Some rp -> p <> 0 -> p ∉ l ->
  Z.of_nat (length l) + 1 < 2 ^ 32 ->
  exists m' q', process_queue_sorted_push m q p cmp = Ret (m', q') /\
    queue_rep m' q' (insert_by (before m cmp p) p l) /\ relinked m m' (p :: l).
Proof.
  intros Q ND Ep Hp Hn Hlen. pose proof Q as [T B S C]. unfold process_queue_sorted_push.
  destruct l as [|x l].
  { rewrite T. simpl. rewrite (upd_Ret _ _ _ _ Ep), bind_ret. eexists _, _. split_and!; [reflexivity| |].
    - split; simpl; auto; [rewrite S; reflexivity|]. split_and!; auto. unfold next_of. now rewrite lookup_insert_eq.
    - apply relinked_insert; [assumption|left]. }
  specialize (B ltac:(congruence)). simpl in T. pose proof (chain_nonzero _ _ x C ltac:(left)) as Hx.
  rewrite T. replace (x =? 0) with false by lia.
  destruct (chain_dom _ _ x C ltac:(left)) as [rx Ex]. unfold get. rewrite Ex, Ep. cbn [of_option].
  rewrite !bind_ret.
  assert (Hc : before m cmp p x = cmp rx rp) by (unfold before; now rewrite Ex, Ep).
  assert (Sz : u32 (size q + 1) = Z.of_nat (length (insert_by (before m cmp p) p (x :: l))))
    by (rewrite (Permutation_length (insert_by_perm _ p (x :: l))), S; simpl in *; rewrite u32_small; lia).
  destruct (cmp rx rp) eqn:Ec; simpl negb; cbv iota.
  - destruct (sorted_prev_spec (Datatypes.S (length (map_to_list m))) m cmp p rp x l C Ep Hc)
      as (l1 & y & l2 & E & Sp & F & Hd).
    { pose proof (chain_members_size _ _ C ND) as H. simpl in H. lia. }
    rewrite E, bind_ret. rewrite Sp in *.
    destruct (chain_dom m (l1 ++ y :: l2) y C) as [ry Ey]; [rewrite elem_of_app; right; left|].
    rewrite Ey. cbn [of_option]. rewrite bind_ret, (upd_Ret _ _ _ _ Ep), bind_ret.
    assert (Hpy : p <> y) by (intros ->; apply Hn; rewrite elem_of_app; right; left).
    assert (Ey1 : (<[p := set_queue_next (queue_next ry) rp]> m) !! y = Some ry) by (now rewrite lookup_insert_ne).
    rewrite (upd_Ret _ _ _ _ Ey1), bind_ret.
    eexists _, _. split_and!; [reflexivity| |].
    + rewrite (insert_by_split _ p l1 y l2 F Hd) in *. split; simpl; auto.
      * rewrite <- Sp in *. destruct l1 as [|a l1]; simpl in *; congruence.
      * intros _. assert (Nq : queue_next ry = default 0 (head l2)).
        { clear -C Ey. induction l1 as [|a l1 IH]; simpl in C; [|now apply IH].
          destruct C as (_ & N & _). unfold next_of in N. rewrite Ey in N. now injection N. }
        rewrite Nq. destruct l2 as [|z l2]; [now rewrite last_app|].
        assert (Hz : z <> 0) by (apply (chain_nonzero _ _ z C); rewrite elem_of_app; right; right; left).
        simpl default. replace (z =? 0) with false by lia. rewrite <- B, !last_app. reflexivity.
      * now apply (chain_insert m l1 y l2 p rp ry).
    + eapply relinked_trans; apply relinked_insert; auto; [left|]. right. rewrite elem_of_app. right. left.
  - rewrite (upd_Ret _ _ _ _ Ep), bind_ret. eexists _, _. split_and!; [reflexivity| |].
    + cbn [insert_by] in *. rewrite Hc in *. split; auto.
      assert (D : next_of (<[p := set_queue_next x rp]> m) p = Some x) by (unfold next_of; now rewrite lookup_insert_eq).
      split; [assumption|]. split; [exact D|]. apply chain_ext with m; [|assumption].
      intros z Hz. apply next_insert_ne. intros ->. contradiction.
    + apply relinked_insert; [assumption|left].
Qed.
