(* ===== verification/Sched.v ===== *)
(** * The scheduler (kernel/src/process/scheduler.c, process_delete)

    The kernel's scheduling state and the operations of scheduler.c on it: the
    ready, sleep and delete queues, the running process and the global process
    list, all over the one process store.  The semaphores share the state, as
    their waiting queues link the same processes.  What deleting a process does
    to the files and to memory is an interface, [ProcessEnv]. *)
From S2P Require Import Prelude Procs.

Definition PROCESS_ALIVE_TICKS : Z := 4.
Definition MAX_FILE : Z := 128.
Definition KERNEL_STACK_SIZE : Z := 0x2000.

(** What scheduling asks of the file system and the memory managers. *)
Class ProcessEnv (E : Type) := {
  env_free_page_directory : E -> Z -> E;     (** vmmngr_free_page_directory *)
  env_kfree : E -> Z -> E;                   (** kfree *)
  env_release_node : E -> Z -> E;            (** node_sync, refcount--, vfs_cleanup_node_tree *)
  env_kmalloc : E -> Z -> Z * E;             (** kmalloc *)
}.

Record semaphore := Semaphore { sem_lock : bool; sem_count : Z; waiting_queue : queue }.

Record kernel (E : Type) := Kernel {
  procs : store;
  ready_queue : queue;
  sleep_queue : queue;
  delete_queue : queue;
  current_process : Z;
  global_list_bottom : Z;
  global_list_size : Z;
  global_sleep_ticks : Z;
  semaphores : gmap Z semaphore;
  active_page_directory : Z;
  tss_stack : Z;
  env : E;
}.
Arguments Kernel {E}.
Arguments procs {E}. Arguments ready_queue {E}. Arguments sleep_queue {E}. Arguments delete_queue {E}.
Arguments current_process {E}. Arguments global_list_bottom {E}. Arguments global_list_size {E}.
Arguments global_sleep_ticks {E}. Arguments semaphores {E}. Arguments active_page_directory {E}.
Arguments tss_stack {E}. Arguments env {E}.

Section scheduler.
Context {E : Type} `{ProcessEnv E}.

Definition with_procs (m : store) (k : kernel E) : kernel E :=
  Kernel m (ready_queue k) (sleep_queue k) (delete_queue k) (current_process k) (global_list_bottom k)
    (global_list_size k) (global_sleep_ticks k) (semaphores k) (active_page_directory k) (tss_stack k) (env k).
Definition with_ready (m : store) (q : queue) (k : kernel E) : kernel E :=
  Kernel m q (sleep_queue k) (delete_queue k) (current_process k) (global_list_bottom k)
    (global_list_size k) (global_sleep_ticks k) (semaphores k) (active_page_directory k) (tss_stack k) (env k).
Definition with_sleep (m : store) (q : queue) (k : kernel E) : kernel E :=
  Kernel m (ready_queue k) q (delete_queue k) (current_process k) (global_list_bottom k)
    (global_list_size k) (global_sleep_ticks k) (semaphores k) (active_page_directory k) (tss_stack k) (env k).
Definition with_delete (m : store) (q : queue) (k : kernel E) : kernel E :=
  Kernel m (ready_queue k) (sleep_queue k) q (current_process k) (global_list_bottom k)
    (global_list_size k) (global_sleep_ticks k) (semaphores k) (active_page_directory k) (tss_stack k) (env k).
Definition with_current (m : store) (p : Z) (k : kernel E) : kernel E :=
  Kernel m (ready_queue k) (sleep_queue k) (delete_queue k) p (global_list_bottom k)
    (global_list_size k) (global_sleep_ticks k) (semaphores k) (active_page_directory k) (tss_stack k) (env k).
Definition with_global (m : store) (b n : Z) (k : kernel E) : kernel E :=
  Kernel m (ready_queue k) (sleep_queue k) (delete_queue k) (current_process k) b
    n (global_sleep_ticks k) (semaphores k) (active_page_directory k) (tss_stack k) (env k).
Definition with_sleep_ticks (n : Z) (k : kernel E) : kernel E :=
  Kernel (procs k) (ready_queue k) (sleep_queue k) (delete_queue k) (current_process k) (global_list_bottom k)
    (global_list_size k) n (semaphores k) (active_page_directory k) (tss_stack k) (env k).
Definition with_sems (m : store) (s : gmap Z semaphore) (k : kernel E) : kernel E :=
  Kernel m (ready_queue k) (sleep_queue k) (delete_queue k) (current_process k) (global_list_bottom k)
    (global_list_size k) (global_sleep_ticks k) s (active_page_directory k) (tss_stack k) (env k).
Definition with_context (pd esp0 : Z) (k : kernel E) : kernel E :=
  Kernel (procs k) (ready_queue k) (sleep_queue k) (delete_queue k) (current_process k) (global_list_bottom k)
    (global_list_size k) (global_sleep_ticks k) (semaphores k) pd esp0 (env k).
Definition with_env (m : store) (e : E) (k : kernel E) : kernel E :=
  Kernel m (ready_queue k) (sleep_queue k) (delete_queue k) (current_process k) (global_list_bottom k)
    (global_list_size k) (global_sleep_ticks k) (semaphores k) (active_page_directory k) (tss_stack k) e.

Definition global_list_push (k : kernel E) (proc : Z) : outcome (kernel E) :=
  m ← upd (procs k) (global_list_bottom k) (set_global_next proc);
  m ← upd m proc (set_global_prev (global_list_bottom k));
  m ← upd m proc (set_global_next 0);
  Ret (with_global m proc (u32 (global_list_size k + 1)) k).

Definition global_list_pop (k : kernel E) (proc : Z) : outcome (kernel E) :=
  r ← get (procs k) proc;
  m ← upd (procs k) (global_prev r) (set_global_next (global_next r));
  m ← (if global_next r =? 0 then Ret m
       else upd m (global_next r) (set_global_prev (global_prev r)));
  let b := if proc =? global_list_bottom k then global_prev r else global_list_bottom k in
  Ret (with_global m b (u32 (global_list_size k - 1)) k).

Definition scheduler_get_current (k : kernel E) : Z := current_process k.

Definition scheduler_push_ready (k : kernel E) (proc : Z) : outcome (kernel E) :=
  m ← upd (procs k) proc (set_state PROCESS_STATE_READY);
  '(m, q) ← process_queue_push m (ready_queue k) proc;
  Ret (with_ready m q k).

Definition scheduler_add_process (k : kernel E) (proc : Z) : outcome (kernel E) :=
  m ← upd (procs k) proc (set_state PROCESS_STATE_READY);
  k ← global_list_push (with_procs m k) proc;
  '(m, q) ← process_queue_push (procs k) (ready_queue k) proc;
  Ret (with_ready m q k).

(** Returns the stack pointer to continue on. *)
Definition scheduler_to_next_process (k : kernel E) (regs : Z) (add_back : bool) : outcome (Z * kernel E) :=
  m ← upd (procs k) (current_process k) (set_saved_esp regs);
  let k := with_procs m k in
  k ← (if add_back then scheduler_push_ready k (current_process k) else Ret k);
  '(p, q) ← process_queue_pop (procs k) (ready_queue k);
  let k := with_current (procs k) p (with_ready (procs k) q k) in
  m ← upd (procs k) p (set_state PROCESS_STATE_ACTIVE);
  r ← get m p;
  Ret (saved_esp r, with_context (page_directory r) (tss_esp0 r) (with_procs m k)).

Definition scheduler_kill_process (k : kernel E) (regs exit_code : Z) : outcome (Z * kernel E) :=
  r ← get (procs k) (current_process k);
  if id r =? 1 then Ret (regs, k)
  else
    k ← (if attached_from r =? 0 then Ret k
         else m ← upd (procs k) (attached_from r) (set_exit_code exit_code);
              scheduler_push_ready (with_procs m k) (attached_from r));
    '(m, q) ← process_queue_push (procs k) (delete_queue k) (current_process k);
    scheduler_to_next_process (with_delete m q k) regs false.

(** [cs] is the caller's code selector, read from its saved registers. *)
Definition scheduler_attach (k : kernel E) (regs cs proc : Z) : outcome (Z * kernel E) :=
  if negb (Z.land cs 3 =? 0) then scheduler_kill_process k regs 13
  else
    m ← upd (procs k) proc (set_attached_from (current_process k));
    k ← scheduler_add_process (with_procs m k) proc;
    scheduler_to_next_process k regs false.

Definition scheduler_set_sleep (k : kernel E) (regs ticks : Z) : outcome (Z * kernel E) :=
  m ← upd (procs k) (current_process k) (set_sleep_ticks (u64 (ticks + global_sleep_ticks k)));
  m ← upd m (current_process k) (set_state PROCESS_STATE_SLEEP);
  '(m, q) ← process_queue_sorted_push m (sleep_queue k) (current_process k) process_sort_by_sleep_ticks;
  scheduler_to_next_process (with_sleep m q k) regs false.

(** Closing the files of a dying process: the descriptors from [i] on, [count]
    still open. *)
Fixpoint close_files (e : E) (nodes : list Z) (count : Z) : E :=
  match nodes with
  | [] => e
  | node :: nodes =>
      if count =? 0 then e
      else if node =? 0 then close_files e nodes count
      else close_files (env_release_node e node) nodes (u32 (count - 1))
  end.

Definition process_delete (k : kernel E) (proc : Z) : outcome (kernel E) :=
  r ← get (procs k) proc;
  let e := env k in
  let e := if is_user r
           then env_kfree (env_free_page_directory e (page_directory r)) (u32 (tss_esp0 r - KERNEL_STACK_SIZE))
           else env_kfree e (stack_addr r) in
  let e := close_files e (take (Z.to_nat MAX_FILE) (file_nodes r)) (file_count r) in
  let e := env_kfree (env_kfree e (file_descriptor_table r)) proc in
  Ret (with_env (delete proc (procs k)) e k).

Fixpoint delete_loop (fuel : nat) (k : kernel E) : outcome (kernel E) :=
  match fuel with
  | O => NoFuel
  | S f =>
      if size (delete_queue k) =? 0 then Ret k
      else
        '(proc, q) ← process_queue_pop (procs k) (delete_queue k);
        k ← global_list_pop (with_delete (procs k) q k) proc;
        k ← process_delete k proc;
        delete_loop f k
  end.

Fixpoint wake_loop (fuel : nat) (k : kernel E) : outcome (kernel E) :=
  match fuel with
  | O => NoFuel
  | S f =>
      if top (sleep_queue k) =? 0 then Ret k
      else
        r ← get (procs k) (top (sleep_queue k));
        if sleep_ticks r <=? global_sleep_ticks k then
          '(proc, q) ← process_queue_pop (procs k) (sleep_queue k);
          k ← scheduler_push_ready (with_sleep (procs k) q k) proc;
          wake_loop f k
        else Ret k
  end.

Definition wake_sleepers (k : kernel E) : outcome (kernel E) :=
  if size (sleep_queue k) =? 0 then Ret k
  else
    let k := with_sleep_ticks (u64 (global_sleep_ticks k + 1)) k in
    k ← wake_loop (S (Z.to_nat (size (sleep_queue k)))) k;
    Ret (if size (sleep_queue k) =? 0 then with_sleep_ticks 0 k else k).

Definition scheduler_switch (k : kernel E) (regs : Z) : outcome (Z * kernel E) :=
  k ← delete_loop (S (Z.to_nat (size (delete_queue k)))) k;
  k ← wake_sleepers k;
  r ← get (procs k) (current_process k);
  m ← upd (procs k) (current_process k) (set_alive_ticks (u64 (alive_ticks r + 1)));
  m ← upd m (current_process k) (set_saved_esp regs);
  let k := with_procs m k in
  r ← get (procs k) (current_process k);
  if alive_ticks r mod PROCESS_ALIVE_TICKS =? 0 then scheduler_to_next_process k regs true
  else Ret (saved_esp r, k).

Definition scheduler_init (k : kernel E) (idle_proc : Z) : outcome (kernel E) :=
  m ← upd (procs k) idle_proc (set_state PROCESS_STATE_ACTIVE);
  m ← upd m idle_proc (set_global_next 0);
  m ← upd m idle_proc (set_global_prev 0);
  Ret (with_global m idle_proc 1 (with_current m idle_proc k)).
End scheduler.

(** ** The abstract scheduler

    Where a process can be queued, and the lists that say who is where. *)

Inductive place := PReady | PSleep | PDead | PWait (s : Z).

#[export] Instance place_eq_dec : EqDecision place.
Proof. solve_decision. Defined.

Definition lists := place -> list Z.

Definition set_list (L : lists) (pl : place) (l : list Z) : lists := fun x => if decide (x = pl) then l else L x.

Lemma set_list_eq L pl l : set_list L pl l pl = l.
Proof. unfold set_list. now rewrite decide_True. Qed.
Lemma set_list_ne L pl l x : x <> pl -> set_list L pl l x = L x.
Proof. intros. unfold set_list. now rewrite decide_False. Qed.

(** No process is queued twice. *)
Record apart (L : lists) : Prop := {
  ap_nodup : forall pl, NoDup (L pl);
  ap_disj : forall p pl pl', p ∈ L pl -> p ∈ L pl' -> pl = pl';
}.

Definition queued (L : lists) (p : Z) : Prop := exists pl, p ∈ L pl.

Lemma apart_add L pl p l : apart L -> ~ queued L p -> l ≡ₚ p :: L pl -> apart (set_list L pl l).
Proof.
  intros [N D] Hp Pm. split.
  - intros x. unfold set_list. destruct (decide (x = pl)) as [->|]; [|apply N].
    rewrite Pm. apply NoDup_cons. split; [|apply N]. intros Hin. apply Hp. now exists pl.
  - intros x a b Ha Hb. unfold set_list in Ha, Hb.
    destruct (decide (a = pl)) as [->|Na], (decide (b = pl)) as [->|Nb]; auto.
    + rewrite Pm in Ha. apply elem_of_cons in Ha as [->|Ha]; [|now apply (D x)].
      destruct Hp. now exists b.
    + rewrite Pm in Hb. apply elem_of_cons in Hb as [->|Hb]; [|now apply (D x)].
      destruct Hp. now exists a.
    + now apply (D x).
Qed.

Lemma apart_remove L pl p l : apart L -> L pl ≡ₚ p :: l -> apart (set_list L pl l) /\ ~ queued (set_list L pl l) p.
Proof.
  intros [N D] Pm. pose proof (N pl) as Npl. rewrite Pm in Npl. apply NoDup_cons in Npl as [Np Nl].
  assert (S : forall x a, x ∈ set_list L pl l a -> x ∈ L a).
  { intros x a. unfold set_list. destruct (decide (a = pl)) as [->|]; [|auto]. rewrite Pm. now right. }
  split; [split|].
  - intros x. unfold set_list. destruct (decide (x = pl)); auto.
  - intros x a b Ha%S Hb%S. now apply (D x).
  - intros [a Ha]. assert (a = pl) as ->.
    { apply (D p); [now apply S|]. rewrite Pm. left. }
    rewrite set_list_eq in Ha. contradiction.
Qed.

Lemma queued_set L pl l p : queued (set_list L pl l) p -> p ∈ l \/ queued L p.
Proof.
  intros [a Ha]. unfold set_list in Ha. destruct (decide (a = pl)); [auto|]. right. now exists a.
Qed.

(** ** The queues of a kernel state *)

(** Every queue of [qs] holds its list. *)
Definition queues_rep (m : store) (qs : place -> option queue) (L : lists) : Prop :=
  forall pl q, qs pl = Some q -> queue_rep m q (L pl).

Definition set_queue (qs : place -> option queue) (pl : place) (q : queue) : place -> option queue :=
  fun x => if decide (x = pl) then Some q else qs x.

Lemma queues_relink m m' qs L l : queues_rep m qs L -> (forall x, next_of m' x = next_of m x) -> 
  (forall pl, L pl = l pl) -> queues_rep m' qs l.
Proof. intros Q N El pl q E. rewrite <- El. eapply queue_rep_ext; [|eapply Q; eauto]. auto. Qed.

(** Replacing one queue by an operation that touches only links of its own
    members and of a process queued nowhere. *)
Lemma queues_update m m' qs L pl q' l' p : queues_rep m qs L -> apart L ->
  queue_rep m' q' l' -> relinked m m' (p :: L pl) -> ~ queued L p ->
  queues_rep m' (set_queue qs pl q') (set_list L pl l').
Proof.
  intros Q A R Rl Hp x q. unfold set_queue, set_list. destruct (decide (x = pl)) as [->|Hne]; [congruence|].
  intros E. eapply relinked_rep; [exact Rl| |eapply Q; eauto].
  intros y Hy [->|Hy']%elem_of_cons; [apply Hp; now exists x|].
  apply Hne. now apply (ap_disj _ A y).
Qed.

(** ** Data and links *)

(** Everything of a process but its state and its queue link. *)
Definition erase (r : process) : process := set_state PROCESS_STATE_READY (set_queue_next 0 r).

(** [m'] differs from [m] in states and queue links only. *)
Definition same_data (m m' : store) : Prop := forall x, erase <$> m' !! x = erase <$> m !! x.
Definition same_links (m m' : store) : Prop := forall x, next_of m' x = next_of m x.

Lemma same_data_refl m : same_data m m.
Proof. intros x. reflexivity. Qed.
Lemma same_data_trans m1 m2 m3 : same_data m1 m2 -> same_data m2 m3 -> same_data m1 m3.
Proof. intros A B x. now rewrite B, A. Qed.

Lemma relinked_data m m' l : relinked m m' l -> same_data m m'.
Proof.
  intros [D _] x. specialize (D x). destruct (m' !! x) as [r'|], (m !! x) as [r|]; try discriminate; [|reflexivity].
  cbn in *. f_equal. unfold erase. congruence.
Qed.

Lemma upd_state m p v r : m !! p = Some r ->
  same_data m (<[p := set_state v r]> m) /\ same_links m (<[p := set_state v r]> m).
Proof.
  intros E. split; intros x; unfold next_of; (destruct (decide (p = x)) as [<-|];
    [rewrite lookup_insert_eq, E|rewrite lookup_insert_ne by assumption]; reflexivity).
Qed.

Lemma same_data_lookup m m' p r : same_data m m' -> m !! p = Some r ->
  exists r', m' !! p = Some r' /\ erase r' = erase r.
Proof.
  intros S E. specialize (S p). rewrite E in S. destruct (m' !! p) as [r'|]; [|discriminate].
  exists r'. split; [reflexivity|]. exact (inj Some _ _ S).
Qed.

Lemma same_data_dom m m' : same_data m m' -> dom m' = dom m.
Proof.
  intros S. apply set_eq. intros x. rewrite !elem_of_dom. specialize (S x).
  destruct (m' !! x), (m !! x); try discriminate; split; eauto.
Qed.

(** The store fits a 32-bit count. *)
Definition small (m : store) : Prop := Z.of_nat (base.size m) + 1 < 2 ^ 32.

Lemma small_data m m' : same_data m m' -> small m -> small m'.
Proof. intros S. unfold small. rewrite <- (size_dom m), <- (size_dom m'), (same_data_dom m m' S). auto. Qed.

Lemma queue_bound m q l : queue_rep m q l -> NoDup l -> small m -> Z.of_nat (length l) + 1 < 2 ^ 32.
Proof.
  intros Q ND S. pose proof (chain_members_size _ _ (qr_chain _ _ _ Q) ND) as H. unfold small in S.
  rewrite length_map_to_list in H. lia.
Qed.

Section rep.
Context {E : Type} `{ProcessEnv E}.

Definition queue_of (k : kernel E) (pl : place) : option queue :=
  match pl with
  | PReady => Some (ready_queue k)
  | PSleep => Some (sleep_queue k)
  | PDead => Some (delete_queue k)
  | PWait s => waiting_queue <$> semaphores k !! s
  end.

(** The queues of [k] hold [L], over a store that fits. *)
Record lists_rep (k : kernel E) (L : lists) : Prop := {
  lr_queues : queues_rep (procs k) (queue_of k) L;
  lr_apart : apart L;
  lr_small : small (procs k);
}.

(** What the queue operations leave alone. *)
Definition rest (k : kernel E) :=
  (current_process k, global_list_bottom k, global_list_size k, global_sleep_ticks k,
   active_page_directory k, tss_stack k, env k).

Lemma lists_rep_store k m L : lists_rep k L -> same_data (procs k) m -> same_links (procs k) m ->
  lists_rep (with_procs m k) L.
Proof.
  intros [Q A S] D N. split; [|assumption|exact (small_data _ m D S)].
  exact (queues_relink (procs k) m _ L L Q N (fun _ => eq_refl)).
Qed.

Lemma queues_rep_ext m qs qs' L : (forall pl, qs' pl = qs pl) -> queues_rep m qs L -> queues_rep m qs' L.
Proof. intros Eq Q pl q. rewrite Eq. apply Q. Qed.

(** One queue replaced, as by a push. *)
Lemma lists_rep_push k L pl p m' q' l' k' :
  lists_rep k L -> ~ queued L p -> l' ≡ₚ p :: L pl ->
  queue_rep m' q' l' -> relinked (procs k) m' (p :: L pl) ->
  procs k' = m' -> (forall x, queue_of k' x = set_queue (queue_of k) pl q' x) ->
  lists_rep k' (set_list L pl l').
Proof.
  intros [Q A S] Hp Pm R Rl Em Eq. split.
  - rewrite Em. eapply queues_rep_ext; [exact Eq|]. eapply queues_update; eauto.
  - now apply apart_add with p.
  - rewrite Em. eapply small_data; [eapply relinked_data; exact Rl|assumption].
Qed.

Lemma lists_rep_pop k L pl p l q' k' :
  lists_rep k L -> L pl = p :: l -> queue_rep (procs k) q' l ->
  procs k' = procs k -> (forall x, queue_of k' x = set_queue (queue_of k) pl q' x) ->
  lists_rep k' (set_list L pl l) /\ ~ queued (set_list L pl l) p.
Proof.
  intros [Q A S] El R Em Eq. destruct (apart_remove L pl p l A) as [A' N]; [now rewrite El|].
  split; [|exact N]. split; auto; [|now rewrite Em].
  rewrite Em. eapply queues_rep_ext; [exact Eq|].
  intros x q. unfold set_queue, set_list. destruct (decide (x = pl)); [congruence|apply Q].
Qed.

(** [scheduler_push_ready] appends to the ready list. *)
Lemma push_ready_lists k L p r : lists_rep k L -> ~ queued L p -> p <> 0 -> procs k !! p = Some r ->
  exists k', scheduler_push_ready k p = Ret k' /\ lists_rep k' (set_list L PReady (L PReady ++ [p])) /\
    same_data (procs k) (procs k') /\ rest k' = rest k /\ semaphores k' = semaphores k.
Proof.
  intros R Hp Hnz Ep. unfold scheduler_push_ready. rewrite (upd_Ret _ _ _ _ Ep), bind_ret.
  destruct (upd_state (procs k) p PROCESS_STATE_READY r Ep) as [D N]. set (m1 := <[p := _]> _) in *.
  pose proof (lists_rep_store k m1 L R D N) as R1.
  pose proof (lr_queues _ _ R1 PReady _ eq_refl) as Q. cbn [queue_of with_procs ready_queue procs] in Q.
  destruct (push_rep m1 (ready_queue k) (L PReady) p (set_state PROCESS_STATE_READY r) Q) as (m2 & q2 & Ep2 & Q2 & Rl); auto.
  { apply (lr_apart _ _ R). }
  { unfold m1. now rewrite lookup_insert_eq. }
  { intros Hin. apply Hp. now exists PReady. }
  { eapply queue_bound; [exact Q|apply (lr_apart _ _ R)|apply (lr_small _ _ R1)]. }
  rewrite Ep2, bind_ret. eexists. split_and!; [reflexivity| | |reflexivity|reflexivity].
  - eapply (lists_rep_push (with_procs m1 k) L PReady p m2 q2); auto.
    + rewrite Permutation_app_comm. reflexivity.
    + intros []; reflexivity.
  - eapply same_data_trans; [exact D|]. eapply relinked_data, Rl.
Qed.

Lemma apart_ext L L' : (forall pl, L' pl = L pl) -> apart L -> apart L'.
Proof. intros Eq [N D]. split; [intros; rewrite Eq; auto|]. intros x a b. rewrite !Eq. apply D. Qed.

Lemma queued_ext L L' p : (forall pl, L' pl = L pl) -> queued L' p -> queued L p.
Proof. intros Eq [a Ha]. exists a. now rewrite <- Eq. Qed.

Lemma lists_rep_ext k L L' : (forall pl, L' pl = L pl) -> lists_rep k L -> lists_rep k L'.
Proof.
  intros Eq [Q A S]. split; [|now apply (apart_ext L)|assumption]. intros pl q. rewrite Eq. apply Q.
Qed.

Lemma set_list_twice L pl a b x : set_list (set_list L pl a) pl b x = set_list L pl b x.
Proof. unfold set_list. destruct (decide (x = pl)); reflexivity. Qed.

Lemma set_list_same L pl x : set_list L pl (L pl) x = L x.
Proof. unfold set_list. now destruct (decide (x = pl)) as [->|]. Qed.

(** What a step does to every process but [p]. *)
Lemma same_data_insert m p r r' : m !! p = Some r -> erase r' = erase r -> same_data m (<[p := r']> m).
Proof.
  intros Em Er x. destruct (decide (p = x)) as [<-|]; [rewrite lookup_insert_eq, Em; cbn [fmap option_fmap option_map]; now rewrite Er|now rewrite lookup_insert_ne].
Qed.

Lemma insert_data_links m p r r' : m !! p = Some r -> queue_next r' = queue_next r ->
  same_links m (<[p := r']> m) /\ (small m -> small (<[p := r']> m)).
Proof.
  intros Em Nx. split.
  - intros x. rewrite next_insert. destruct (decide (p = x)) as [<-|]; [|reflexivity].
    unfold next_of. rewrite Em. cbn. now rewrite Nx.
  - unfold small. rewrite map_size_insert_Some; eauto.
Qed.

Lemma lists_rep_insert k L p r r' : lists_rep k L -> procs k !! p = Some r -> queue_next r' = queue_next r ->
  lists_rep (with_procs (<[p := r']> (procs k)) k) L.
Proof.
  intros [Q A S] Em Nx. destruct (insert_data_links _ _ _ _ Em Nx) as [N Sm]. split; auto.
  exact (queues_relink (procs k) _ _ L L Q N (fun _ => eq_refl)).
Qed.

(** The running process after [scheduler_to_next_process]. *)
Record runs (k : kernel E) (p esp : Z) : Prop := {
  rn_current : current_process k = p;
  rn_process : exists r, procs k !! p = Some r /\ state r = PROCESS_STATE_ACTIVE /\ esp = saved_esp r /\
    active_page_directory k = page_directory r /\ tss_stack k = tss_esp0 r;
}.

(** What no operation of the queues changes. *)
Definition fixed (k : kernel E) :=
  (global_list_bottom k, global_list_size k, global_sleep_ticks k, env k).

(** The pop and the switch, once the caller has been put where it belongs. *)
Lemma switch_lists k L p l : lists_rep k L -> L PReady = p :: l ->
  exists esp k', ('(p, q) ← process_queue_pop (procs k) (ready_queue k);
    let k := with_current (procs k) p (with_ready (procs k) q k) in
    m ← upd (procs k) p (set_state PROCESS_STATE_ACTIVE);
    r ← get m p;
    Ret (saved_esp r, with_context (page_directory r) (tss_esp0 r) (with_procs m k))) = Ret (esp, k') /\
  lists_rep k' (set_list L PReady l) /\ ~ queued (set_list L PReady l) p /\ runs k' p esp /\
  same_data (procs k) (procs k') /\ fixed k' = fixed k /\ semaphores k' = semaphores k.
Proof.
  intros R El. pose proof (lr_queues _ _ R PReady _ eq_refl) as Q. pose proof (ap_nodup _ (lr_apart _ _ R) PReady) as ND.
  pose proof (queue_bound _ _ _ Q ND (lr_small _ _ R)) as Bd. rewrite El in Q, ND, Bd. cbn [queue_of] in Q.
  destruct (pop_rep (procs k) (ready_queue k) p l Q ND) as (q' & Ep & Q'); [lia|]. rewrite Ep, bind_ret.
  destruct (chain_dom _ _ p (qr_chain _ _ _ Q) ltac:(left)) as [rp Erp].
  cbn [procs with_current with_ready]. rewrite (upd_Ret _ _ _ _ Erp), bind_ret.
  unfold get. rewrite lookup_insert_eq. cbn [of_option]. rewrite bind_ret.
  destruct (upd_state (procs k) p PROCESS_STATE_ACTIVE rp Erp) as [D N].
  destruct (lists_rep_pop k L PReady p l q' (with_current (procs k) p (with_ready (procs k) q' k)) R El Q' eq_refl)
    as [R' Np]; [intros []; reflexivity|].
  eexists _, _. split_and!; [reflexivity| |exact Np| |exact D|reflexivity|reflexivity].
  - pose proof (lists_rep_store _ _ _ R' D N) as [Q2 A2 S2]. split; auto.
  - split; [reflexivity|]. eexists. split_and!; [apply lookup_insert_eq|reflexivity..].
Qed.

(** [scheduler_to_next_process] without putting the caller back. *)
Lemma to_next_away k L regs r p l : lists_rep k L -> procs k !! current_process k = Some r -> L PReady = p :: l ->
  exists esp k', scheduler_to_next_process k regs false = Ret (esp, k') /\
    lists_rep k' (set_list L PReady l) /\ ~ queued (set_list L PReady l) p /\ runs k' p esp /\
    same_data (<[current_process k := set_saved_esp regs r]> (procs k)) (procs k') /\
    fixed k' = fixed k /\ semaphores k' = semaphores k.
Proof.
  intros R Er El. unfold scheduler_to_next_process. rewrite (upd_Ret _ _ _ _ Er), bind_ret. cbv zeta.
  rewrite bind_ret.
  pose proof (lists_rep_insert k L _ _ (set_saved_esp regs r) R Er eq_refl) as R1.
  exact (switch_lists _ L p l R1 El).
Qed.

(** [scheduler_to_next_process] with the caller put back at the tail. *)
Lemma to_next_back k L regs r p l : lists_rep k L -> procs k !! current_process k = Some r ->
  current_process k <> 0 -> ~ queued L (current_process k) -> L PReady ++ [current_process k] = p :: l ->
  exists esp k', scheduler_to_next_process k regs true = Ret (esp, k') /\
    lists_rep k' (set_list L PReady l) /\ ~ queued (set_list L PReady l) p /\ runs k' p esp /\
    same_data (<[current_process k := set_saved_esp regs r]> (procs k)) (procs k') /\
    fixed k' = fixed k /\ semaphores k' = semaphores k.
Proof.
  intros R Er Hnz Hq El. unfold scheduler_to_next_process. rewrite (upd_Ret _ _ _ _ Er), bind_ret. cbv zeta.
  pose proof (lists_rep_insert k L _ _ (set_saved_esp regs r) R Er eq_refl) as R1.
  destruct (push_ready_lists _ L (current_process k) (set_saved_esp regs r) R1 Hq Hnz) as (k1 & E1 & R2 & D1 & Rs & Sm);
    [apply lookup_insert_eq|].
  cbn [current_process with_procs] in *. rewrite E1, bind_ret.
  destruct (switch_lists k1 _ p l R2) as (esp & k' & E2 & R3 & Nq & Rn & D2 & F2 & S2); [now rewrite set_list_eq|].
  exists esp, k'. split_and!; [exact E2| | |exact Rn| | |].
  - eapply lists_rep_ext; [|exact R3]. intros x. symmetry. apply set_list_twice.
  - intros Hx. apply Nq. eapply queued_ext; [|exact Hx]. intros x. symmetry. apply set_list_twice.
  - eapply same_data_trans; [exact D1|exact D2].
  - rewrite F2. unfold rest in Rs. cbn in Rs. unfold fixed. injection Rs. intros. congruence.
  - now rewrite S2.
Qed.
End rep.

(** ** The global process list *)

(** What the global list and the parent relation depend on. *)
Definition gview (r : process) := (id r, attached_from r, global_next r, global_prev r).
Definition same_core (m m' : store) : Prop := forall x, gview <$> m' !! x = gview <$> m !! x.

Lemma same_data_core m m' : same_data m m' -> same_core m m'.
Proof.
  intros D x. specialize (D x). destruct (m' !! x) as [r'|], (m !! x) as [r|]; try discriminate; [|reflexivity].
  apply (inj Some) in D. cbn. f_equal. change (gview (erase r') = gview (erase r)). now rewrite D.
Qed.

Lemma same_core_refl m : same_core m m.
Proof. intros x. reflexivity. Qed.
Lemma same_core_trans m1 m2 m3 : same_core m1 m2 -> same_core m2 m3 -> same_core m1 m3.
Proof. intros A B x. now rewrite B, A. Qed.

Lemma same_core_insert m p r r' : m !! p = Some r -> gview r' = gview r -> same_core m (<[p := r']> m).
Proof.
  intros Em Er x. destruct (decide (p = x)) as [<-|];
    [rewrite lookup_insert_eq, Em; cbn; now rewrite Er|now rewrite lookup_insert_ne].
Qed.

Lemma same_core_lookup m m' p r' : same_core m m' -> m' !! p = Some r' -> exists r, m !! p = Some r /\ gview r' = gview r.
Proof.
  intros S Em. specialize (S p). rewrite Em in S. destruct (m !! p) as [r|]; [|discriminate].
  exists r. split; [reflexivity|]. exact (inj Some _ _ S).
Qed.

(** [l] linked both ways, [prev] before its first member. *)
Fixpoint dll (m : store) (prev : Z) (l : list Z) : Prop :=
  match l with
  | [] => True
  | p :: l' =>
      p <> 0 /\ (exists r, m !! p = Some r /\ global_prev r = prev /\ global_next r = default 0 (head l')) /\ dll m p l'
  end.

(** Two stores agree on the global links of [p]. *)
Definition same_glinks (m m' : store) (p : Z) : Prop :=
  (fun r => (global_next r, global_prev r)) <$> m' !! p = (fun r => (global_next r, global_prev r)) <$> m !! p.

Lemma dll_ext m m' prev l : (forall p, p ∈ l -> same_glinks m m' p) -> dll m prev l -> dll m' prev l.
Proof.
  revert prev. induction l as [|p l IH]; intros prev S; [auto|]. cbn [dll]. intros (Hp & (r & Er & E1 & E2) & D).
  split_and!; auto.
  - specialize (S p ltac:(left)). unfold same_glinks in S. rewrite Er in S.
    destruct (m' !! p) as [r'|]; [|discriminate]. exists r'. split; [reflexivity|].
    cbn in S. injection S. intros. split; congruence.
  - apply IH; auto. intros x Hx. apply S. now right.
Qed.

Lemma same_core_glinks m m' p : same_core m m' -> same_glinks m m' p.
Proof.
  intros S. specialize (S p). unfold same_glinks.
  destruct (m' !! p), (m !! p); try discriminate; [|reflexivity]. apply (inj Some) in S. unfold gview in S.
  cbn. injection S. intros. congruence.
Qed.

Lemma dll_dom m prev l p : dll m prev l -> p ∈ l -> p <> 0 /\ is_Some (m !! p).
Proof.
  revert prev. induction l as [|x l IH]; intros prev; [intros _ Hx; now apply elem_of_nil in Hx|].
  cbn [dll]. intros (Hx & (r & Er & _) & D) [->|Hin]%elem_of_cons; eauto.
Qed.

Lemma dll_app m prev l1 l2 : dll m prev (l1 ++ l2) ->
  dll m (default prev (last l1)) l2.
Proof.
  revert prev. induction l1 as [|x l1 IH]; intros prev; [auto|]. cbn [dll app]. intros (_ & _ & D).
  apply IH in D. destruct l1 as [|y l1]; [exact D|]. cbn [last] in *. destruct (last (y :: l1)) eqn:El; [exact D|].
  now apply last_None in El.
Qed.

Lemma same_glinks_ne m p r x : p <> x -> same_glinks m (<[p := r]> m) x.
Proof. intros. unfold same_glinks. now rewrite lookup_insert_ne. Qed.

Lemma same_glinks_trans m1 m2 m3 p : same_glinks m1 m2 p -> same_glinks m2 m3 p -> same_glinks m1 m3 p.
Proof. unfold same_glinks. congruence. Qed.

(** Appending: the last member's next and the new member's links. *)
Lemma dll_snoc m m' prev l p b rb rp : dll m prev l -> NoDup l -> last l = Some b -> p ∉ l -> p <> 0 ->
  m !! b = Some rb ->
  (forall x, x ∈ l -> x <> b -> same_glinks m m' x) ->
  m' !! b = Some (set_global_next p rb) ->
  m' !! p = Some rp -> global_next rp = 0 -> global_prev rp = b ->
  dll m' prev (l ++ [p]).
Proof.
  revert prev. induction l as [|x l IH]; intros prev D ND Lb Hn Hp Eb S Eb' Ep' N1 N2; [discriminate|].
  cbn [dll] in D. destruct D as (Hx & (r & Er & P1 & P2) & D). apply NoDup_cons in ND as [Nx ND].
  change ((x :: l) ++ [p]) with (x :: (l ++ [p])). cbn [dll].
  destruct l as [|y l].
  - cbn in Lb. injection Lb as ->. split_and!; auto.
    + rewrite Er in Eb. injection Eb as <-. exists (set_global_next p r). split_and!; auto.
    + cbn. split_and!; auto. exists rp. split_and!; auto.
  - change (last (x :: y :: l)) with (last (y :: l)) in Lb. split_and!; auto.
    + assert (Hxb : x <> b) by (intros ->; apply Nx; now apply last_Some_elem_of in Lb).
      specialize (S x ltac:(left) Hxb). unfold same_glinks in S. rewrite Er in S.
      destruct (m' !! x) as [r'|]; [|discriminate]. exists r'. split; [reflexivity|].
      cbn in S, P2 |- *. injection S. intros. split; congruence.
    + apply IH; auto; [intros Hin; apply Hn; now right|]. intros z Hz. apply S. now right.
Qed.

(** Removing a member whose neighbours have been joined. *)
Lemma dll_remove m m' prev l1 a p l2 ra rp : dll m prev (l1 ++ a :: p :: l2) -> NoDup (l1 ++ a :: p :: l2) ->
  m !! a = Some ra -> m !! p = Some rp ->
  (forall x, x ∈ l1 ++ l2 -> Some x <> head l2 -> same_glinks m m' x) ->
  m' !! a = Some (set_global_next (global_next rp) ra) ->
  (forall z rz, head l2 = Some z -> m !! z = Some rz -> m' !! z = Some (set_global_prev (global_prev rp) rz)) ->
  dll m' prev (l1 ++ a :: l2).
Proof.
  revert prev. induction l1 as [|x l1 IH]; intros prev D ND Ea Ep S Ea' Ez.
  - cbn [app dll] in D |- *. destruct D as (Ha & (r & Er & P1 & P2) & (Hp & (r2 & Er2 & P3 & P4) & D)).
    rewrite Ea in Er. injection Er as <-. rewrite Ep in Er2. injection Er2 as <-.
    split_and!; auto.
    + exists (set_global_next (global_next rp) ra). split_and!; auto.
    + destruct l2 as [|z l2]; [exact I|]. cbn [dll] in D |- *. destruct D as (Hz & (rz & Erz & P5 & P6) & D).
      split_and!; auto.
      * exists (set_global_prev (global_prev rp) rz). split_and!; auto.
      * apply dll_ext with m; [|exact D]. intros x Hx. apply S; [now right|]. cbn. intros [= ->].
        cbn [app] in ND. rewrite !NoDup_cons in ND. tauto.
  - cbn [app dll] in D |- *. destruct D as (Hx & (r & Er & P1 & P2) & D).
    cbn [app] in ND. apply NoDup_cons in ND as [Nx ND]. split_and!; auto.
    + assert (Hh : Some x <> head l2).
      { intros Eh. apply Nx. destruct l2; [discriminate|]. injection Eh as ->. rewrite elem_of_app. right. right. right. left. }
      specialize (S x ltac:(left) Hh). unfold same_glinks in S. rewrite Er in S.
      destruct (m' !! x) as [r'|]; [|discriminate]. exists r'. split; [reflexivity|].
      cbn in S. injection S. intros. destruct l1; cbn in *; split; congruence.
    + apply IH; auto. intros y Hy. apply S. cbn. now right.
Qed.

(** ** The process roster

    [G] lists every process, the idle one first.  [act] are the processes that
    are running or queued and [dead] those waiting to be deleted; a process
    that is neither running nor queued is parked until the process it waits
    for, the one attached to it, dies. *)
Record roster (m : store) (idle : Z) (act dead : Z -> Prop) (G : list Z) : Prop := {
  ro_live : forall p, act p -> p ∈ G;
  ro_dead : forall p, dead p -> act p;
  ro_links : dll m 0 G;
  ro_head : head G = Some idle;
  ro_nodup : NoDup G;
  ro_id : forall p r, m !! p = Some r -> p ∈ G -> (id r = 1 <-> p = idle);
  ro_idle : act idle /\ ~ dead idle;
  ro_parent : forall p r, m !! p = Some r -> p ∈ G -> ~ dead p -> attached_from r <> 0 ->
    attached_from r ∈ G /\ ~ act (attached_from r);
  ro_inj : forall p p' r r', m !! p = Some r -> m !! p' = Some r' -> p ∈ G -> p' ∈ G -> ~ dead p -> ~ dead p' ->
    attached_from r <> 0 -> attached_from r = attached_from r' -> p = p';
}.

Lemma roster_ext m m' idle act act' dead dead' G : same_core m m' ->
  (forall p, act' p <-> act p) -> (forall p, dead' p <-> dead p) ->
  roster m idle act dead G -> roster m' idle act' dead' G.
Proof.
  intros S Ea Ed []. split; auto.
  - intros p. rewrite Ea. auto.
  - intros p. rewrite Ea, Ed. auto.
  - eapply dll_ext; [|eassumption]. intros p _. now apply same_core_glinks.
  - intros p r' Er'. destruct (same_core_lookup _ _ _ _ S Er') as (r & Er & Eg).
    unfold gview in Eg. injection Eg as E1 _ _ _. rewrite E1. eauto.
  - rewrite Ea, Ed. assumption.
  - intros p r' Er'. destruct (same_core_lookup _ _ _ _ S Er') as (r & Er & Eg).
    unfold gview in Eg. injection Eg as _ E2 _ _. rewrite E2, Ea, Ed. eauto.
  - intros p p' r1 r2 Er1 Er2. destruct (same_core_lookup _ _ _ _ S Er1) as (r & Er & Eg).
    destruct (same_core_lookup _ _ _ _ S Er2) as (r3 & Er3 & Eg3).
    unfold gview in Eg, Eg3. injection Eg as _ E2 _ _. injection Eg3 as _ E3 _ _.
    rewrite E2, E3, !Ed. eauto.
Qed.

Lemma roster_process m idle act dead G p : roster m idle act dead G -> p ∈ G -> p <> 0 /\ is_Some (m !! p).
Proof. intros R. apply dll_dom with 0, R. Qed.

Lemma roster_bound m idle act dead G : roster m idle act dead G -> small m -> Z.of_nat (length G) + 1 < 2 ^ 32.
Proof.
  intros Ro Sm. unfold small in Sm. assert (Hl : (length G <= base.size m)%nat); [|lia].
  rewrite <- length_map_to_list, <- (length_fmap fst (map_to_list m)).
  apply submseteq_length, NoDup_submseteq; [apply Ro|]. intros x Hx.
  destruct (roster_process _ _ _ _ _ x Ro Hx) as [_ [rx Ex]]. apply list_elem_of_fmap. exists (x, rx).
  split; [reflexivity|now apply elem_of_map_to_list].
Qed.

(** A process dies and its parent, if any, is runnable again. *)
Lemma roster_kill m idle act dead G c rc : roster m idle act dead G -> m !! c = Some rc -> act c -> ~ dead c -> c <> idle ->
  roster m idle (fun p => act p \/ (attached_from rc <> 0 /\ p = attached_from rc)) (fun p => dead p \/ p = c) G.
Proof.
  intros [] Ec Ac Dc Nc. split; auto.
  - intros p [Hp|[Hz ->]]; [auto|]. apply (ro_parent0 c rc Ec (ro_live0 c Ac) Dc Hz).
  - intros p [Hp| ->]; auto.
  - split; [left; apply ro_idle0|]. intros [Hd| ->]; [now apply ro_idle0|contradiction].
  - intros p r Er Hp Hd Hz. destruct (ro_parent0 p r Er Hp ltac:(tauto) Hz) as [Q1 Q2].
    split; [assumption|]. intros [Ha|[Hz' Eq]]; [contradiction|].
    apply Hd. right. eapply ro_inj0; eauto; tauto.
  - intros p p' r r' Er Er' Hp Hp' Hd Hd' Hz Eq. eapply (ro_inj0 p p' r r'); eauto; tauto.
Qed.

(** ** The invariant of the kernel state *)

Section invariant.
Context {E : Type} `{ProcessEnv E}.

Definition active (k : kernel E) (L : lists) (p : Z) : Prop := p = current_process k \/ queued L p.

Record kernel_rep (k : kernel E) (idle : Z) (L : lists) (G : list Z) : Prop := {
  kr_lists : lists_rep k L;
  kr_current : ~ queued L (current_process k);
  kr_roster : roster (procs k) idle (active k L) (fun p => p ∈ L PDead) G;
  kr_runnable : idle = current_process k \/ idle ∈ L PReady;
  kr_bottom : last G = Some (global_list_bottom k);
  kr_count : global_list_size k = Z.of_nat (length G);
}.

Lemma current_process_known k idle L G : kernel_rep k idle L G ->
  current_process k <> 0 /\ exists r, procs k !! current_process k = Some r.
Proof.
  intros R. destruct (roster_process _ _ _ _ _ (current_process k) (kr_roster _ _ _ _ R)) as [? [r ?]]; [|eauto].
  apply (ro_live _ _ _ _ _ (kr_roster _ _ _ _ R)). now left.
Qed.

(** The rotation of a list of ready processes. *)
Lemma active_rotate k k' L L' p l : current_process k' = p -> L PReady ++ [current_process k] = p :: l ->
  (forall pl, L' pl = set_list L PReady l pl) -> forall x, active k' L' x <-> active k L x.
Proof.
  intros Ep El EL x. unfold active. rewrite Ep.
  assert (M : x ∈ L PReady \/ x = current_process k <-> x = p \/ x ∈ l).
  { rewrite <- (elem_of_cons l x p), <- El, elem_of_app, list_elem_of_singleton. tauto. }
  split.
  - intros [->|[a Ha]].
    + destruct (proj2 M (or_introl eq_refl)) as [Hx|Hx]; [right; now exists PReady|auto].
    + rewrite EL in Ha. unfold set_list in Ha. destruct (decide (a = PReady)) as [->|]; [|right; now exists a].
      destruct (proj2 M (or_intror Ha)) as [Hx|Hx]; [right; now exists PReady|auto].
  - intros [->|[a Ha]].
    + destruct (proj1 M (or_intror eq_refl)) as [Hx|Hx]; [auto|]. right. exists PReady. now rewrite EL, set_list_eq.
    + destruct (decide (a = PReady)) as [->|Na].
      * destruct (proj1 M (or_introl Ha)) as [Hx|Hx]; [auto|]. right. exists PReady. now rewrite EL, set_list_eq.
      * right. exists a. rewrite EL. now rewrite set_list_ne.
Qed.

Lemma fixed_eq (k k' : kernel E) : fixed k' = fixed k ->
  global_list_bottom k' = global_list_bottom k /\ global_list_size k' = global_list_size k /\
  global_sleep_ticks k' = global_sleep_ticks k /\ env k' = env k.
Proof. unfold fixed. intros F. injection F. auto. Qed.

(** Membership after the list of one place has been permuted or extended. *)
Lemma queued_push L pl l p x : l ≡ₚ p :: L pl -> queued (set_list L pl l) x <-> x = p \/ queued L x.
Proof.
  intros Pm. split.
  - intros [a Ha]. unfold set_list in Ha. destruct (decide (a = pl)) as [->|]; [|right; now exists a].
    rewrite Pm in Ha. apply elem_of_cons in Ha as [->|Ha]; [auto|]. right. now exists pl.
  - intros [->|[a Ha]].
    + exists pl. rewrite set_list_eq, Pm. left.
    + destruct (decide (a = pl)) as [->|Na]; [exists pl; rewrite set_list_eq, Pm; now right|].
      exists a. now rewrite set_list_ne.
Qed.

Lemma queued_pop L pl l p x : L pl = p :: l -> queued L x <-> x = p \/ queued (set_list L pl l) x.
Proof.
  intros El. split.
  - intros [a Ha]. destruct (decide (a = pl)) as [->|Na].
    + rewrite El in Ha. apply elem_of_cons in Ha as [->|Ha]; [auto|]. right. exists pl. now rewrite set_list_eq.
    + right. exists a. now rewrite set_list_ne.
  - intros [->|[a Ha]]; [exists pl; rewrite El; left|].
    unfold set_list in Ha. destruct (decide (a = pl)) as [->|]; [exists pl; rewrite El; now right|now exists a].
Qed.

(** Switching away from a caller that has already been put where it belongs. *)
Lemma leave_rep k idle L G act regs r : lists_rep k L -> procs k !! current_process k = Some r ->
  roster (procs k) idle act (fun p => p ∈ L PDead) G -> (forall x, act x <-> queued L x) ->
  idle ∈ L PReady -> last G = Some (global_list_bottom k) -> global_list_size k = Z.of_nat (length G) ->
  exists p l esp k', L PReady = p :: l /\ scheduler_to_next_process k regs false = Ret (esp, k') /\
    kernel_rep k' idle (set_list L PReady l) G /\ runs k' p esp /\
    same_data (<[current_process k := set_saved_esp regs r]> (procs k)) (procs k') /\
    fixed k' = fixed k /\ semaphores k' = semaphores k.
Proof.
  intros R Er Ro Act Hidle Hb Hc.
  destruct (L PReady) as [|p l] eqn:El; [now apply elem_of_nil in Hidle|].
  destruct (to_next_away k L regs r p l R Er El) as (esp & k' & E1 & R' & Np & Rn & D & F & S).
  exists p, l, esp, k'. split_and!; auto. pose proof (rn_current _ _ _ Rn) as Ec.
  destruct (fixed_eq _ _ F) as (Fb & Fs & _ & _).
  split; [exact R'|rewrite Ec; exact Np| | |congruence|congruence].
  - eapply roster_ext; [| | |exact Ro].
    + eapply same_core_trans; [|apply same_data_core, D]. apply same_core_insert with r; auto.
    + intros x. unfold active. rewrite Ec, Act. symmetry. now apply queued_pop.
    + intros x. now rewrite set_list_ne by congruence.
  - rewrite Ec. apply elem_of_cons in Hidle as [->|Hi]; [auto|right]. now rewrite set_list_eq.
Qed.

(** Yielding. *)
Lemma yield_rep k idle L G regs : kernel_rep k idle L G ->
  exists p l esp k' r, L PReady ++ [current_process k] = p :: l /\ procs k !! current_process k = Some r /\
    scheduler_to_next_process k regs true = Ret (esp, k') /\
    kernel_rep k' idle (set_list L PReady l) G /\ runs k' p esp /\
    same_data (<[current_process k := set_saved_esp regs r]> (procs k)) (procs k') /\
    fixed k' = fixed k /\ semaphores k' = semaphores k.
Proof.
  intros R. destruct (current_process_known _ _ _ _ R) as [Hnz [r Er]]. destruct R as [R Hc Ro Hi Hb Hn].
  destruct (L PReady ++ [current_process k]) as [|p l] eqn:El; [now destruct (L PReady)|].
  destruct (to_next_back k L regs r p l R Er Hnz Hc El) as (esp & k' & E1 & R' & Np & Rn & D & F & S).
  exists p, l, esp, k', r. split_and!; auto. pose proof (rn_current _ _ _ Rn) as Ec.
  destruct (fixed_eq _ _ F) as (Fb & Fs & _ & _).
  split; [exact R'|rewrite Ec; exact Np| | |congruence|congruence].
  - eapply roster_ext; [| | |exact Ro].
    + eapply same_core_trans; [|apply same_data_core, D]. apply same_core_insert with r; auto.
    + intros x. apply (active_rotate k k' L _ p l); auto.
    + intros x. now rewrite set_list_ne by congruence.
  - rewrite Ec, set_list_eq. assert (Hin : idle ∈ p :: l).
    { rewrite <- El, elem_of_app, list_elem_of_singleton. tauto. }
    apply elem_of_cons in Hin as [->|]; auto.
Qed.

Lemma current_not_idle k idle L G : kernel_rep k idle L G -> current_process k <> idle -> idle ∈ L PReady.
Proof. intros [_ _ _ [->|Hi] _ _] Hn; [congruence|assumption]. Qed.

(** Sleeping. *)
Lemma sleep_rep k idle L G regs ticks : kernel_rep k idle L G -> current_process k <> idle ->
  exists p l esp k' r, L PReady = p :: l /\ procs k !! current_process k = Some r /\
    let c := current_process k in
    let target := u64 (ticks + global_sleep_ticks k) in
    let m1 := <[c := set_state PROCESS_STATE_SLEEP (set_sleep_ticks target r)]> (procs k) in
    let L' := set_list (set_list L PSleep (insert_by (before m1 process_sort_by_sleep_ticks c) c (L PSleep))) PReady l in
    scheduler_set_sleep k regs ticks = Ret (esp, k') /\ kernel_rep k' idle L' G /\ runs k' p esp /\
    same_data (<[c := set_saved_esp regs (set_sleep_ticks target r)]> (procs k)) (procs k') /\
    fixed k' = fixed k /\ semaphores k' = semaphores k.
Proof.
  intros R Hni. pose proof (current_not_idle _ _ _ _ R Hni) as Hidle.
  destruct (current_process_known _ _ _ _ R) as [Hnz [r Er]]. destruct R as [R Hc Ro Hi Hb Hn].
  unfold scheduler_set_sleep. rewrite (upd_Ret _ _ _ _ Er), bind_ret.
  set (c := current_process k) in *. set (target := u64 (ticks + global_sleep_ticks k)).
  rewrite (upd_Ret _ _ _ (set_sleep_ticks target r)) by apply lookup_insert_eq.
  rewrite bind_ret, insert_insert_eq. set (m1 := <[c := set_state _ _]> (procs k)).
  pose proof (lists_rep_insert k L c r (set_state PROCESS_STATE_SLEEP (set_sleep_ticks target r)) R Er eq_refl) as R1.
  fold m1 in R1. pose proof (lr_queues _ _ R1 PSleep _ eq_refl) as Q. cbn [queue_of with_procs procs sleep_queue] in Q.
  assert (E1 : m1 !! c = Some (set_state PROCESS_STATE_SLEEP (set_sleep_ticks target r))) by apply lookup_insert_eq.
  destruct (sorted_push_rep m1 (sleep_queue k) (L PSleep) c (set_state PROCESS_STATE_SLEEP (set_sleep_ticks target r))
    process_sort_by_sleep_ticks Q) as (m2 & q2 & E2 & Q2 & Rl); auto.
  { apply (lr_apart _ _ R). } { intros Hin. apply Hc. now exists PSleep. }
  { eapply queue_bound; [exact Q|apply (lr_apart _ _ R)|apply (lr_small _ _ R1)]. }
  rewrite E2, bind_ret. set (l2 := insert_by _ c (L PSleep)) in *.
  assert (R2 : lists_rep (with_sleep m2 q2 k) (set_list L PSleep l2)).
  { apply (lists_rep_push (with_procs m1 k) L PSleep c m2 q2); auto; [apply insert_by_perm|intros []; reflexivity]. }
  assert (D2 : same_data m1 m2) by (eapply relinked_data, Rl).
  destruct (same_data_lookup _ _ _ _ D2 E1) as (r2 & Er2 & Ee2).
  destruct (leave_rep (with_sleep m2 q2 k) idle (set_list L PSleep l2) G (active k L) regs r2) as
    (p & l & esp & k' & El & E3 & R3 & Rn & D3 & F3 & S3); auto.
  { eapply roster_ext; [| | |exact Ro]; [|reflexivity|].
    - eapply same_core_trans; [|apply same_data_core, D2]. apply same_core_insert with r; auto.
    - intros x. now rewrite set_list_ne by congruence. }
  { intros x. unfold active. fold c. symmetry. apply queued_push, insert_by_perm. }
  rewrite set_list_ne in El by congruence. exists p, l, esp, k', r. split_and!; auto.
  eapply same_data_trans; [|exact D3]. intros x. cbn [current_process with_sleep procs]. fold c.
  destruct (decide (c = x)) as [<-|Nx].
  - rewrite !lookup_insert_eq. cbn [fmap option_fmap option_map].
    change (Some (set_saved_esp regs (erase r2)) = Some (set_saved_esp regs (erase (set_sleep_ticks target r)))).
    now rewrite Ee2.
  - rewrite !lookup_insert_ne by assumption. specialize (D2 x). unfold m1 in D2. now rewrite lookup_insert_ne in D2.
Qed.

(** Dying.  The parent waiting for the process, if any, is made ready. *)
Definition release_parent (L : lists) (q : Z) : lists :=
  if q =? 0 then L else set_list L PReady (L PReady ++ [q]).

Lemma release_parent_rep k idle L G q exit_code : kernel_rep k idle L G ->
  (q <> 0 -> q ∈ G /\ ~ active k L q) ->
  exists k', (if q =? 0 then Ret k
    else m ← upd (procs k) q (set_exit_code exit_code); scheduler_push_ready (with_procs m k) q) = Ret k' /\
    lists_rep k' (release_parent L q) /\ same_core (procs k) (procs k') /\
    fixed k' = fixed k /\ semaphores k' = semaphores k /\ current_process k' = current_process k /\
    (forall x, queued (release_parent L q) x <-> queued L x \/ (q <> 0 /\ x = q)) /\
    (forall x, x <> q -> erase <$> procs k' !! x = erase <$> procs k !! x).
Proof.
  intros R Hq. unfold release_parent. destruct (Z.eqb_spec q 0) as [->|Hz].
  { exists k. split_and!; auto; [apply R|apply same_core_refl|]. intros x. tauto. }
  destruct (Hq Hz) as [Hg Ha]. destruct (roster_process _ _ _ _ _ q (kr_roster _ _ _ _ R) Hg) as [_ [rq Erq]].
  destruct R as [R Hc Ro Hi Hb Hn]. rewrite (upd_Ret _ _ _ _ Erq), bind_ret.
  pose proof (lists_rep_insert k L q rq (set_exit_code exit_code rq) R Erq eq_refl) as R1.
  assert (Hqq : ~ queued L q) by (intros Hx; apply Ha; now right).
  destruct (push_ready_lists _ L q (set_exit_code exit_code rq) R1 Hqq Hz (lookup_insert_eq _ _ _))
    as (k1 & E1 & R2 & D & Rs & Sm).
  cbn [procs with_procs] in *. rewrite E1. exists k1. unfold rest in Rs. cbn in Rs. injection Rs as Ec Eb Es Et _ _ Ee.
  split_and!; auto.
  - eapply same_core_trans; [apply same_core_insert with rq|apply same_data_core, D]; auto.
  - unfold fixed. congruence.
  - intros x. rewrite queued_push with (p := q); [|rewrite Permutation_app_comm; reflexivity]. tauto.
  - intros x Hx. rewrite (D x), lookup_insert_ne by congruence. reflexivity.
Qed.

Lemma kill_rep k idle L G regs exit_code : kernel_rep k idle L G -> current_process k <> idle ->
  exists p l esp k' r, procs k !! current_process k = Some r /\
    let L1 := release_parent L (attached_from r) in
    let L2 := set_list L1 PDead (L1 PDead ++ [current_process k]) in
    L1 PReady = p :: l /\
    scheduler_kill_process k regs exit_code = Ret (esp, k') /\
    kernel_rep k' idle (set_list L2 PReady l) G /\ runs k' p esp /\
    fixed k' = fixed k /\ semaphores k' = semaphores k.
Proof.
  intros R Hni. pose proof (current_not_idle _ _ _ _ R Hni) as Hidle.
  destruct (current_process_known _ _ _ _ R) as [Hnz [r Er]].
  pose proof (kr_roster _ _ _ _ R) as Ro. pose proof (kr_current _ _ _ _ R) as Hc.
  set (c := current_process k) in *.
  assert (Hg : c ∈ G) by (apply (ro_live _ _ _ _ _ Ro); now left).
  assert (Hd : c ∉ L PDead) by (intros Hx; apply Hc; now exists PDead).
  unfold scheduler_kill_process. fold c. unfold get. rewrite Er. cbn [of_option]. rewrite bind_ret.
  replace (id r =? 1) with false.
  2:{ symmetry. apply Z.eqb_neq. rewrite (ro_id _ _ _ _ _ Ro c r Er Hg). assumption. }
  destruct (release_parent_rep k idle L G (attached_from r) exit_code R) as (k1 & E1 & R1 & C1 & F1 & S1 & Ec1 & Q1 & D1).
  { intros Hz. apply (ro_parent _ _ _ _ _ Ro c r Er Hg Hd Hz). }
  fold c in Ec1. rewrite E1, bind_ret, Ec1. set (L1 := release_parent L (attached_from r)) in *.
  assert (Hcq : ~ queued L1 c).
  { rewrite Q1. intros [Hx|[Hz Hx]]; [contradiction|].
    destruct (ro_parent _ _ _ _ _ Ro c r Er Hg Hd Hz) as [_ Ha]. apply Ha. left. now rewrite <- Hx. }
  destruct (dll_dom (procs k1) 0 G c) as [_ [rc Erc]]; auto.
  { eapply dll_ext; [|apply (ro_links _ _ _ _ _ Ro)]. intros x _. now apply same_core_glinks. }
  pose proof (lr_queues _ _ R1 PDead _ eq_refl) as Q. cbn [queue_of] in Q.
  destruct (push_rep (procs k1) (delete_queue k1) (L1 PDead) c rc Q) as (m2 & q2 & E2 & Q2 & Rl); auto.
  { apply (lr_apart _ _ R1). } { intros Hx. apply Hcq. now exists PDead. }
  { eapply queue_bound; [exact Q|apply (lr_apart _ _ R1)|apply (lr_small _ _ R1)]. }
  rewrite E2, bind_ret. set (L2 := set_list L1 PDead (L1 PDead ++ [c])).
  assert (Pm : L1 PDead ++ [c] ≡ₚ c :: L1 PDead) by (now rewrite Permutation_app_comm).
  assert (R2 : lists_rep (with_delete m2 q2 k1) L2).
  { apply (lists_rep_push k1 L1 PDead c m2 q2); auto. intros []; reflexivity. }
  assert (Dm : same_data (procs k1) m2) by (eapply relinked_data, Rl).
  destruct (same_data_lookup _ _ _ _ Dm Erc) as (r2 & Er2 & _).
  destruct (fixed_eq _ _ F1) as (Fb & Fs & _ & _).
  assert (Ready : L2 PReady = L1 PReady) by (unfold L2; now rewrite set_list_ne by congruence).
  destruct (leave_rep (with_delete m2 q2 k1) idle L2 G
    (fun p => active k L p \/ (attached_from r <> 0 /\ p = attached_from r)) regs r2) as
    (p & l & esp & k' & El & E3 & R3 & Rn & D3 & F3 & S3); auto.
  - cbn [current_process with_delete procs]. now rewrite Ec1.
  - eapply roster_ext; [| | |exact (roster_kill _ _ _ _ _ c r Ro Er (or_introl eq_refl) Hd Hni)].
    + eapply same_core_trans; [exact C1|apply same_data_core, Dm].
    + intros x. reflexivity.
    + intros x. unfold L2. rewrite set_list_eq, elem_of_app, list_elem_of_singleton.
      unfold L1, release_parent. destruct (_ =? 0); [tauto|]. rewrite set_list_ne by congruence. tauto.
  - intros x. unfold L2. rewrite queued_push with (p := c) by assumption. rewrite Q1. unfold active. fold c. tauto.
  - rewrite Ready. unfold L1, release_parent. destruct (_ =? 0); [assumption|].
    rewrite set_list_eq, elem_of_app. auto.
  - cbn. rewrite Fb. apply R.
  - cbn. rewrite Fs. apply R.
  - rewrite Ready in El. exists p, l, esp, k', r. split_and!; auto; [now rewrite F3|now rewrite S3].
Qed.

(** ** Adding a process *)

(** Who a process is and whom it answers to. *)
Definition pview (r : process) := (id r, attached_from r).

Lemma global_push_rep (k : kernel E) L G b rb p rp : lists_rep k L -> dll (procs k) 0 G -> NoDup G ->
  last G = Some (global_list_bottom k) -> global_list_bottom k = b ->
  procs k !! b = Some rb -> procs k !! p = Some rp -> p ∉ G -> p <> 0 ->
  let m' := <[p := set_global_next 0 (set_global_prev b rp)]> (<[b := set_global_next p rb]> (procs k)) in
  global_list_push k p = Ret (with_global m' p (u32 (global_list_size k + 1)) k) /\
  dll m' 0 (G ++ [p]) /\ lists_rep (with_global m' p (u32 (global_list_size k + 1)) k) L /\
  (forall x, pview <$> m' !! x = pview <$> procs k !! x).
Proof.
  intros R D ND Lb Eb Erb Erp Hp Hz m'.
  assert (Hbp : p <> b) by (intros ->; apply Hp; rewrite <- Eb; now apply last_Some_elem_of in Lb).
  assert (Erp1 : (<[b := set_global_next p rb]> (procs k)) !! p = Some rp) by (now rewrite lookup_insert_ne).
  split_and!.
  - unfold global_list_push. rewrite Eb, (upd_Ret _ _ _ _ Erb), bind_ret, (upd_Ret _ _ _ _ Erp1), bind_ret.
    rewrite (upd_Ret _ _ _ (set_global_prev b rp)) by apply lookup_insert_eq. now rewrite bind_ret, insert_insert_eq.
  - unfold m'. apply (dll_snoc (procs k) _ 0 G p b rb (set_global_next 0 (set_global_prev b rp))); auto.
    + congruence.
    + intros x Hx Hxb. unfold same_glinks. rewrite !lookup_insert_ne; congruence || (intros ->; contradiction).
    + rewrite lookup_insert_ne by congruence. apply lookup_insert_eq.
    + apply lookup_insert_eq.
  - pose proof (lists_rep_insert k L b rb (set_global_next p rb) R Erb eq_refl) as R1.
    pose proof (lists_rep_insert _ L p rp (set_global_next 0 (set_global_prev b rp)) R1 Erp1 eq_refl) as R2.
    destruct R2 as [Q A S]. split; auto.
  - intros x. unfold m'. destruct (decide (p = x)) as [<-|]; [now rewrite lookup_insert_eq, Erp|].
    rewrite lookup_insert_ne by assumption.
    destruct (decide (b = x)) as [<-|]; [now rewrite lookup_insert_eq, Erb|now rewrite lookup_insert_ne].
Qed.

Lemma same_data_pview m m' x : same_data m m' -> pview <$> m' !! x = pview <$> m !! x.
Proof.
  intros D. specialize (D x). destruct (m' !! x) as [r'|], (m !! x) as [r|]; try discriminate; [|reflexivity].
  apply (inj Some) in D. cbn. f_equal. change (pview (erase r') = pview (erase r)). now rewrite D.
Qed.

Lemma add_process_lists (k : kernel E) idle L G p rp act : lists_rep k L -> roster (procs k) idle act (fun x => x ∈ L PDead) G ->
  last G = Some (global_list_bottom k) -> global_list_size k = Z.of_nat (length G) ->
  procs k !! p = Some rp -> p ∉ G -> ~ queued L p -> p <> 0 ->
  exists k', scheduler_add_process k p = Ret k' /\ lists_rep k' (set_list L PReady (L PReady ++ [p])) /\
    dll (procs k') 0 (G ++ [p]) /\ global_list_bottom k' = p /\ global_list_size k' = Z.of_nat (length (G ++ [p])) /\
    (forall x, pview <$> procs k' !! x = pview <$> procs k !! x) /\
    current_process k' = current_process k /\ global_sleep_ticks k' = global_sleep_ticks k /\
    semaphores k' = semaphores k /\ env k' = env k.
Proof.
  intros R Ro Hb Hn Erp Hp Hq Hz. unfold scheduler_add_process. rewrite (upd_Ret _ _ _ _ Erp), bind_ret.
  destruct (upd_state (procs k) p PROCESS_STATE_READY rp Erp) as [D N]. set (m1 := <[p := _]> (procs k)) in *.
  pose proof (lists_rep_store k m1 L R D N) as R1.
  destruct (roster_process _ _ _ _ _ (global_list_bottom k) Ro) as [_ [rb Erb]]; [now apply last_Some_elem_of in Hb|].
  assert (Hbp : p <> global_list_bottom k) by (intros Eq; apply Hp; rewrite Eq; now apply last_Some_elem_of in Hb).
  assert (D1 : dll m1 0 G).
  { eapply dll_ext; [|apply Ro]. intros x _. apply same_core_glinks, same_data_core, D. }
  destruct (global_push_rep (with_procs m1 k) L G (global_list_bottom k) rb p (set_state PROCESS_STATE_READY rp)) as
    (E2 & D2 & R2 & V2); auto.
  { apply Ro. } { cbn. unfold m1. now rewrite lookup_insert_ne. } { apply lookup_insert_eq. }
  rewrite E2, bind_ret. set (k2 := with_global _ p _ _) in *. set (m2 := procs k2) in *.
  pose proof (lr_queues _ _ R2 PReady _ eq_refl) as Q. cbn [queue_of] in Q. fold k2 in Q.
  assert (Er2 : exists r2, m2 !! p = Some r2) by (eexists; apply lookup_insert_eq). destruct Er2 as [r2 Er2].
  destruct (push_rep m2 (ready_queue k2) (L PReady) p r2 Q) as (m3 & q3 & E3 & Q3 & Rl); auto.
  { apply (lr_apart _ _ R). } { intros Hin. apply Hq. now exists PReady. }
  { eapply queue_bound; [exact Q|apply (lr_apart _ _ R)|apply (lr_small _ _ R2)]. }
  rewrite E3, bind_ret. eexists. split; [reflexivity|]. assert (D3 : same_data m2 m3) by (eapply relinked_data, Rl).
  split_and!; auto.
  - apply (lists_rep_push k2 L PReady p m3 q3); auto; [now rewrite Permutation_app_comm|intros []; reflexivity].
  - eapply dll_ext; [|exact D2]. intros x _. apply same_core_glinks, same_data_core, D3.
  - cbn. rewrite Hn, length_app. cbn. rewrite u32_small; [lia|].
    pose proof (roster_bound _ _ _ _ _ Ro (lr_small _ _ R)). lia.
  - intros x. change (pview <$> m3 !! x = pview <$> procs k !! x). rewrite (same_data_pview _ _ _ D3), V2.
    apply same_data_pview, D.
Qed.

(** A new process joins, whose parent, if any, is parked for it alone. *)
Lemma roster_add m m' idle act act' dead G p : roster m idle act dead G -> dll m' 0 (G ++ [p]) -> p ∉ G ->
  (forall x, pview <$> m' !! x = pview <$> m !! x) -> (forall x, act' x -> act x \/ x = p) -> act' idle ->
  (forall x, dead x -> act' x) ->
  (forall r, m !! p = Some r -> id r <> 1 /\ (attached_from r <> 0 ->
     attached_from r ∈ G /\ ~ act' (attached_from r) /\ act (attached_from r))) ->
  roster m' idle act' dead (G ++ [p]).
Proof.
  intros Ro D Hp V Ha Hi Hd Hr.
  assert (Lk : forall x r', m' !! x = Some r' -> exists r, m !! x = Some r /\ id r' = id r /\ attached_from r' = attached_from r).
  { intros x r' Er'. specialize (V x). rewrite Er' in V. destruct (m !! x) as [r|]; [|discriminate].
    apply (inj Some) in V. unfold pview in V. injection V as E1 E2. eauto. }
  assert (Hg : forall x, x ∈ G ++ [p] <-> x ∈ G \/ x = p) by (intros; rewrite elem_of_app, list_elem_of_singleton; tauto).
  assert (Hpi : p <> idle) by (intros ->; apply Hp, (ro_live _ _ _ _ _ Ro), (ro_idle _ _ _ _ _ Ro)).
  destruct Ro. split; auto.
  - intros x Hx. rewrite Hg. destruct (Ha x Hx) as [Hx'|]; auto.
  - destruct G; [discriminate|assumption].
  - apply NoDup_app. split_and!; auto; [|apply NoDup_singleton].
    intros x Hx Hx'%list_elem_of_singleton. subst. contradiction.
  - intros x r' Er' Hx. destruct (Lk x r' Er') as (r & Er & -> & _). apply Hg in Hx as [Hx| ->]; [eauto|].
    split; [intros E1; destruct (Hr r Er); contradiction|intros ->; contradiction].
  - split; [assumption|]. apply ro_idle0.
  - intros x r' Er' Hx Hdx. destruct (Lk x r' Er') as (r & Er & _ & ->). intros Hz. rewrite Hg.
    apply Hg in Hx as [Hx| ->].
    + destruct (ro_parent0 x r Er Hx Hdx Hz) as [Q1 Q2]. split; [auto|]. intros Hx'.
      destruct (Ha _ Hx') as [|Eq]; [contradiction|]. rewrite Eq in Q1. contradiction.
    + destruct (Hr r Er) as [_ Hr']. destruct (Hr' Hz) as (Q1 & Q2 & _). auto.
  - intros x y r1 r2 Er1 Er2 Hx Hy Hdx Hdy.
    destruct (Lk x r1 Er1) as (r & Er & _ & ->). destruct (Lk y r2 Er2) as (s & Es & _ & ->). intros Hz Eq.
    apply Hg in Hx as [Hx| ->]; apply Hg in Hy as [Hy| ->]; auto.
    + eapply (ro_inj0 x y); eauto.
    + exfalso. destruct (ro_parent0 x r Er Hx Hdx Hz) as [_ Q]. apply Q. rewrite Eq. apply (Hr s Es). congruence.
    + exfalso. rewrite Eq in Hz. destruct (ro_parent0 y s Es Hy Hdy Hz) as [_ Q]. apply Q. rewrite <- Eq.
      apply (Hr r Er). congruence.
Qed.

(** A process just created: known to nobody. *)
Record fresh (k : kernel E) (L : lists) (G : list Z) (p : Z) (rp : process) : Prop := {
  fr_store : procs k !! p = Some rp;
  fr_nonzero : p <> 0;
  fr_new : p ∉ G;
  fr_id : id rp <> 1;
  fr_orphan : attached_from rp = 0;
}.

Lemma fresh_not_queued k idle L G p rp : kernel_rep k idle L G -> fresh k L G p rp -> ~ queued L p.
Proof. intros R F Hq. apply (fr_new _ _ _ _ _ F), (ro_live _ _ _ _ _ (kr_roster _ _ _ _ R)). now right. Qed.

Lemma add_process_rep k idle L G p rp : kernel_rep k idle L G -> fresh k L G p rp ->
  exists k', scheduler_add_process k p = Ret k' /\
    kernel_rep k' idle (set_list L PReady (L PReady ++ [p])) (G ++ [p]) /\ semaphores k' = semaphores k.
Proof.
  intros R F. pose proof (fresh_not_queued _ _ _ _ _ _ R F) as Hq. destruct F as [Erp Hz Hp Hid Ho].
  destruct R as [R Hc Ro Hi Hb Hn].
  destruct (add_process_lists k idle L G p rp (active k L) R Ro Hb Hn Erp Hp Hq Hz) as
    (k' & E1 & R' & D & B & Sz & V & Ec & Et & S & Ee).
  exists k'. split_and!; auto.
  assert (Pm : L PReady ++ [p] ≡ₚ p :: L PReady) by (now rewrite Permutation_app_comm).
  split; auto.
  - rewrite Ec, queued_push by exact Pm. intros [Eq|]; [|contradiction].
    apply Hp, (ro_live _ _ _ _ _ Ro). left. now rewrite Eq.
  - eapply (roster_ext (procs k') _ idle _ _ (fun x => x ∈ L PDead));
      [apply same_core_refl|reflexivity|intros x; now rewrite set_list_ne by congruence|].
    apply (roster_add (procs k) (procs k') idle (active k L) _ (fun x => x ∈ L PDead) G p Ro D Hp V).
    + intros x. unfold active. rewrite Ec, queued_push by exact Pm. tauto.
    + unfold active. rewrite Ec. destruct Hi as [Hi|Hi]; [auto|]. right. exists PReady.
      rewrite set_list_eq, elem_of_app. auto.
    + intros x Hx. right. exists PDead. now rewrite set_list_ne by congruence.
    + intros r Er. rewrite Erp in Er. injection Er as <-. split; [assumption|]. intros Hx. contradiction.
  - rewrite Ec, set_list_eq, elem_of_app. tauto.
  - rewrite B. apply last_snoc.
Qed.

Lemma kernel_rep_ext k idle L L' G : (forall pl, L' pl = L pl) -> kernel_rep k idle L G -> kernel_rep k idle L' G.
Proof.
  intros Eq [R Hc Ro Hi Hb Hn]. split; auto.
  - now apply (lists_rep_ext k L).
  - intros Hx. apply Hc. now apply (queued_ext L L').
  - eapply roster_ext; [apply same_core_refl| | |exact Ro].
    + intros x. unfold active. split; (intros [Hx|[a Ha]]; [auto|]; right; exists a); [now rewrite <- Eq|now rewrite Eq].
    + intros x. now rewrite Eq.
  - now rewrite Eq.
Qed.

(** Starting a process and waiting for it. *)
Lemma attach_rep k idle L G p rp regs cs : kernel_rep k idle L G -> fresh k L G p rp -> Z.land cs 3 = 0 ->
  current_process k <> idle ->
  exists q l esp k', L PReady ++ [p] = q :: l /\ scheduler_attach k regs cs p = Ret (esp, k') /\
    kernel_rep k' idle (set_list L PReady l) (G ++ [p]) /\ runs k' q esp /\ semaphores k' = semaphores k /\
    (exists r, procs k' !! p = Some r /\ attached_from r = current_process k) /\
    ~ active k' (set_list L PReady l) (current_process k).
Proof.
  intros R F Hcs Hni. pose proof (current_not_idle _ _ _ _ R Hni) as Hidle.
  pose proof (fresh_not_queued _ _ _ _ _ _ R F) as Hq. destruct F as [Erp Hz Hp Hid Ho].
  destruct (current_process_known _ _ _ _ R) as [Hnz [r Er]].
  destruct R as [R Hc Ro Hi Hb Hn]. set (c := current_process k) in *.
  assert (Hcg : c ∈ G) by (apply (ro_live _ _ _ _ _ Ro); now left).
  unfold scheduler_attach. rewrite Hcs. simpl negb. cbv iota. fold c. rewrite (upd_Ret _ _ _ _ Erp), bind_ret.
  set (m0 := <[p := set_attached_from c rp]> (procs k)).
  pose proof (lists_rep_insert k L p rp (set_attached_from c rp) R Erp eq_refl) as R0. fold m0 in R0.
  assert (Ro0 : roster m0 idle (active k L) (fun x => x ∈ L PDead) G).
  { (* the new process is not in the roster yet *)
    assert (Lk : forall x, x ∈ G -> m0 !! x = procs k !! x) by (intros x Hx; apply lookup_insert_ne; intros ->; contradiction).
    destruct Ro. split; auto; try (intros x y Hx Hy; rewrite Lk in Hx by assumption; eauto).
    - eapply dll_ext; [|eassumption]. intros x Hx. unfold same_glinks. now rewrite Lk.
    - intros x y rx ry Ex Ey Hx Hy. rewrite Lk in Ex, Ey by assumption. eauto. }
  destruct (add_process_lists (with_procs m0 k) idle L G p (set_attached_from c rp) (active k L) R0 Ro0 Hb Hn
    (lookup_insert_eq _ _ _) Hp Hq Hz) as (k1 & E1 & R1 & D1 & B1 & Sz1 & V1 & Ec1 & Et1 & S1 & Ee1).
  rewrite E1, bind_ret. set (L1 := set_list L PReady (L PReady ++ [p])) in *.
  assert (Pm : L PReady ++ [p] ≡ₚ p :: L PReady) by (now rewrite Permutation_app_comm).
  assert (Hc1 : ~ queued L1 c).
  { unfold L1. rewrite queued_push by exact Pm. intros [Eq|Hx]; [|contradiction]. apply Hp. now rewrite <- Eq. }
  assert (Ro1 : roster (procs k1) idle (queued L1) (fun x => x ∈ L1 PDead) (G ++ [p])).
  { eapply (roster_ext (procs k1) _ idle _ _ (fun x => x ∈ L PDead));
      [apply same_core_refl|reflexivity|intros x; unfold L1; now rewrite set_list_ne by congruence|].
    apply (roster_add m0 (procs k1) idle (active k L) _ (fun x => x ∈ L PDead) G p Ro0 D1 Hp V1).
    - intros x. unfold L1, active. rewrite queued_push by exact Pm. tauto.
    - exists PReady. unfold L1. rewrite set_list_eq, elem_of_app. auto.
    - intros x Hx. exists PDead. unfold L1. now rewrite set_list_ne by congruence.
    - intros r' Er'. unfold m0 in Er'. rewrite lookup_insert_eq in Er'. injection Er' as <-. cbn.
      split; [assumption|]. intros _. split_and!; auto. now left. }
  cbn [current_process with_procs] in Ec1. fold c in Ec1.
  destruct (dll_dom (procs k1) 0 (G ++ [p]) c D1) as [_ [rc Erc]]; [rewrite elem_of_app; auto|].
  destruct (leave_rep k1 idle L1 (G ++ [p]) (queued L1) regs rc) as (q & l & esp & k' & El & E3 & R3 & Rn & D3 & F3 & S3);
    auto; [now rewrite Ec1|unfold L1; rewrite set_list_eq, elem_of_app; auto|rewrite B1; apply last_snoc|].
  unfold L1 in El. rewrite set_list_eq in El. exists q, l, esp, k'. split_and!; auto.
  - eapply kernel_rep_ext; [|exact R3]. intros x. unfold L1. symmetry. apply set_list_twice.
  - now rewrite S3.
  - assert (Hpc : p <> c) by (intros ->; contradiction).
    specialize (D3 p). rewrite Ec1, lookup_insert_ne in D3 by congruence.
    specialize (V1 p). cbn [procs with_procs] in V1. unfold m0 in V1. rewrite lookup_insert_eq in V1.
    destruct (procs k1 !! p) as [r1|]; [|discriminate]. destruct (procs k' !! p) as [r2|]; [|discriminate].
    exists r2. split; [reflexivity|]. apply (inj Some) in V1, D3. unfold pview in V1. injection V1 as _ V1.
    change (attached_from (erase r2) = c). now rewrite D3.
  - unfold active. intros Hx. apply Hc1. rewrite (rn_current _ _ _ Rn) in Hx.
    apply (queued_pop L1 PReady l q); [unfold L1; now rewrite set_list_eq|].
    destruct Hx as [Hx|Hx]; [auto|]. right. eapply queued_ext; [|exact Hx]. intros y. unfold L1. symmetry.
    apply set_list_twice.
Qed.

(** ** Deleting and waking *)

(** Everything of a process but its links in the global list. *)
Definition gerase (r : process) : process := set_global_next 0 (set_global_prev 0 r).

Lemma gerase_insert (m : store) p r r' x : m !! p = Some r -> gerase r' = gerase r ->
  gerase <$> (<[p := r']> m) !! x = gerase <$> m !! x.
Proof.
  intros Em Er. destruct (decide (p = x)) as [<-|];
    [rewrite lookup_insert_eq, Em; cbn [fmap option_fmap option_map]; now rewrite Er|now rewrite lookup_insert_ne].
Qed.

Lemma dll_neighbours (m : store) l1 a p l2 rp : dll m 0 (l1 ++ a :: p :: l2) -> m !! p = Some rp ->
  global_prev rp = a /\ global_next rp = default 0 (head l2).
Proof.
  intros D Ep. replace (l1 ++ a :: p :: l2) with ((l1 ++ [a]) ++ p :: l2) in D
    by (now rewrite <- app_assoc).
  apply dll_app in D. rewrite last_snoc in D. cbn [dll default] in D. destruct D as (_ & (r & Er & P1 & P2) & _).
  rewrite Ep in Er. injection Er as <-. auto.
Qed.

Lemma global_pop_rep (k : kernel E) L l1 a p l2 rp : lists_rep k L ->
  dll (procs k) 0 (l1 ++ a :: p :: l2) -> NoDup (l1 ++ a :: p :: l2) ->
  last (l1 ++ a :: p :: l2) = Some (global_list_bottom k) -> procs k !! p = Some rp ->
  exists k', global_list_pop k p = Ret k' /\ lists_rep k' L /\ dll (procs k') 0 (l1 ++ a :: l2) /\
    last (l1 ++ a :: l2) = Some (global_list_bottom k') /\ global_list_size k' = u32 (global_list_size k - 1) /\
    (forall x, gerase <$> procs k' !! x = gerase <$> procs k !! x) /\
    current_process k' = current_process k /\ global_sleep_ticks k' = global_sleep_ticks k /\
    semaphores k' = semaphores k /\ env k' = env k.
Proof.
  intros R D ND Lb Erp. destruct (dll_neighbours _ _ _ _ _ _ D Erp) as [Pa Pn].
  destruct (dll_dom _ _ _ a D) as [_ [ra Era]]; [rewrite elem_of_app; right; left|].
  assert (Nap : a <> p).
  { intros ->. apply NoDup_app in ND as (_ & _ & ND). apply NoDup_cons in ND as [ND _]. apply ND. left. }
  pose proof (lists_rep_insert k L a ra (set_global_next (global_next rp) ra) R Era eq_refl) as R1.
  unfold global_list_pop, get. rewrite Erp. cbn [of_option]. rewrite bind_ret, Pa, (upd_Ret _ _ _ _ Era), bind_ret.
  set (m1 := <[a := _]> (procs k)) in *.
  assert (Lb' : (if p =? global_list_bottom k then a else global_list_bottom k) = default a (last l2) /\
                last (l1 ++ a :: l2) = Some (default a (last l2))).
  { rewrite !last_app in *. destruct l2 as [|n l2].
    - cbn in *. injection Lb as ->. now rewrite Z.eqb_refl.
    - cbn [last] in Lb |- *. change (match l2 with [] => Some n | _ :: _ => last l2 end) with (last (n :: l2)) in *.
      destruct (last (n :: l2)) as [b|] eqn:Eb; [|now apply last_None in Eb]. injection Lb as ->. cbn.
      replace (p =? global_list_bottom k) with false; [auto|]. symmetry. apply Z.eqb_neq. intros ->.
      apply last_Some_elem_of in Eb. apply NoDup_app in ND as (_ & _ & ND). rewrite !NoDup_cons in ND. tauto. }
  destruct Lb' as [Eb El]. rewrite Eb.
  assert (G1 : forall x, gerase <$> m1 !! x = gerase <$> procs k !! x) by (intros; now apply gerase_insert with ra).
  destruct l2 as [|n l2]; cbn [head default from_option Datatypes.id] in Pn; rewrite Pn.
  - rewrite Z.eqb_refl, bind_ret. eexists. split; [reflexivity|]. cbn [procs with_global].
    split_and!; auto; [destruct R1; split; auto|].
    apply (dll_remove (procs k) m1 0 l1 a p [] ra rp); auto.
    + intros x Hx _. rewrite app_nil_r in Hx. apply same_glinks_ne. intros ->.
      apply NoDup_app in ND as (_ & ND & _). apply (ND x); auto. left.
    + apply lookup_insert_eq.
    + discriminate.
  - destruct (dll_dom _ _ _ n D) as [Hn [rn Ern]]; [rewrite elem_of_app; right; right; right; left|].
    replace (n =? 0) with false by lia. cbv iota.
    apply NoDup_app in ND as (ND1 & ND2 & ND3). pose proof ND3 as ND4. rewrite !NoDup_cons in ND4. destruct ND4 as (N1 & N2 & N3 & _).
    assert (Nna : n <> a) by (intros ->; apply N1; right; left).
    assert (Nnp : n <> p) by (intros ->; apply N2; left).
    assert (Ern1 : m1 !! n = Some rn) by (unfold m1; now rewrite lookup_insert_ne).
    rewrite (upd_Ret _ _ _ _ Ern1), bind_ret.
    pose proof (lists_rep_insert _ L n rn (set_global_prev a rn) R1 Ern1 eq_refl) as R2.
    eexists. split; [reflexivity|]. cbn [procs with_global]. split_and!; auto; [destruct R2; split; auto| |].
    + apply (dll_remove (procs k) _ 0 l1 a p (n :: l2) ra rp); auto.
      * apply NoDup_app. auto.
      * intros x Hx Hh. cbn in Hh. eapply same_glinks_trans; [apply (same_glinks_ne _ a)|apply same_glinks_ne; congruence].
        intros ->. apply elem_of_app in Hx as [Hx|Hx]; [apply (ND2 x Hx); left|].
        apply N1. now right.
      * rewrite lookup_insert_ne by assumption. apply lookup_insert_eq.
      * intros z rz [= <-] Erz. rewrite Ern in Erz. injection Erz as <-. rewrite Pa. apply lookup_insert_eq.
    + intros x. rewrite (gerase_insert m1 n rn) by auto. apply G1.
Qed.

Lemma roster_remove m m' idle act act' dead dead' l1 a p l2 :
  roster m idle act dead (l1 ++ a :: p :: l2) -> dead p -> dll m' 0 (l1 ++ a :: l2) ->
  (forall x, x <> p -> pview <$> m' !! x = pview <$> m !! x) ->
  (forall x, act' x <-> act x /\ x <> p) -> (forall x, dead' x <-> dead x /\ x <> p) ->
  roster m' idle act' dead' (l1 ++ a :: l2).
Proof.
  intros Ro Hd D V Ha Hdd. set (G := l1 ++ a :: p :: l2) in *. set (G' := l1 ++ a :: l2) in *.
  assert (Pm : G ≡ₚ p :: G') by (unfold G, G'; solve_Permutation).
  assert (Hg : forall x, x ∈ G' <-> x ∈ G /\ x <> p).
  { intros x. pose proof (ro_nodup _ _ _ _ _ Ro) as ND. rewrite Pm in ND. apply NoDup_cons in ND as [Np _].
    rewrite Pm, elem_of_cons. split; [intros Hx; split; [auto|intros ->; contradiction]|tauto]. }
  assert (Lk : forall x r', x <> p -> m' !! x = Some r' ->
    exists r, m !! x = Some r /\ id r' = id r /\ attached_from r' = attached_from r).
  { intros x r' Hx Er'. specialize (V x Hx). rewrite Er' in V. destruct (m !! x) as [r|]; [|discriminate].
    apply (inj Some) in V. unfold pview in V. injection V as E1 E2. eauto. }
  destruct Ro. split; auto.
  - intros x. rewrite Ha, Hg. intros [? ?]. auto.
  - intros x. rewrite Ha, Hdd. intros [? ?]. auto.
  - unfold G, G' in *. destruct l1; assumption.
  - rewrite Pm in ro_nodup0. now apply NoDup_cons in ro_nodup0.
  - intros x r' Er' [Hx Hxp]%Hg. destruct (Lk x r' Hxp Er') as (r & Er & -> & _). eauto.
  - rewrite Ha, Hdd. destruct ro_idle0 as [I1 I2]. split; [split; [assumption|congruence]|tauto].
  - intros x r' Er' [Hx Hxp]%Hg Hdx. destruct (Lk x r' Hxp Er') as (r & Er & _ & ->). intros Hz.
    rewrite Hg, Ha. rewrite Hdd in Hdx. destruct (ro_parent0 x r Er Hx ltac:(tauto) Hz) as [Q1 Q2].
    split_and!; [assumption| |tauto]. intros Eq. apply Q2. rewrite Eq. auto.
  - intros x y r1 r2 Er1 Er2 [Hx Hxp]%Hg [Hy Hyp]%Hg Hdx Hdy.
    destruct (Lk x r1 Hxp Er1) as (r & Er & _ & ->). destruct (Lk y r2 Hyp Er2) as (s & Es & _ & ->).
    rewrite Hdd in Hdx, Hdy. intros. apply (ro_inj0 x y r s); auto; tauto.
Qed.

Lemma lists_rep_delete (k : kernel E) L p e : lists_rep k L -> ~ queued L p -> lists_rep (with_env (delete p (procs k)) e k) L.
Proof.
  intros [Q A S] Hp. split; auto.
  - intros pl q Eq. eapply queue_rep_ext; [|eapply Q; exact Eq]. intros x Hx. unfold next_of. cbn [procs with_env].
    rewrite lookup_delete_ne; [reflexivity|]. intros ->. apply Hp. now exists pl.
  - unfold small in *. cbn [procs with_env]. pose proof (map_size_delete p (procs k)) as Sz.
    revert Sz. destruct (procs k !! p); intros Sz; [lia|rewrite Sz; exact S].
Qed.

(** What a process other than the one being removed keeps. *)
Definition kept (m m' : store) (gone : list Z) : Prop :=
  forall x, x ∉ gone -> gerase <$> m' !! x = gerase <$> m !! x.

(** One round of the deletion loop. *)
Lemma delete_one k idle L G p l : kernel_rep k idle L G -> L PDead = p :: l ->
  exists q k1 k' G', process_queue_pop (procs k) (delete_queue k) = Ret (p, q) /\
    global_list_pop (with_delete (procs k) q k) p = Ret k1 /\ process_delete k1 p = Ret k' /\
    kernel_rep k' idle (set_list L PDead l) G' /\ (forall x, x ∈ G' <-> x ∈ G /\ x <> p) /\
    kept (procs k) (procs k') [p] /\ current_process k' = current_process k /\
    global_sleep_ticks k' = global_sleep_ticks k /\ semaphores k' = semaphores k.
Proof.
  intros R El. destruct R as [R Hc Ro Hi Hb Hn].
  pose proof (lr_queues _ _ R PDead _ eq_refl) as Q. cbn [queue_of] in Q. rewrite El in Q.
  pose proof (ap_nodup _ (lr_apart _ _ R) PDead) as ND. rewrite El in ND.
  destruct (pop_rep (procs k) (delete_queue k) p l Q ND) as (q & Ep & Q').
  { pose proof (queue_bound _ _ _ Q ND (lr_small _ _ R)). lia. }
  destruct (lists_rep_pop k L PDead p l q (with_delete (procs k) q k) R El Q' eq_refl) as [R1 Np];
    [intros []; reflexivity|].
  assert (Hdp : p ∈ L PDead) by (rewrite El; left).
  assert (Hpg : p ∈ G) by (apply (ro_live _ _ _ _ _ Ro), (ro_dead _ _ _ _ _ Ro), Hdp).
  assert (Hpi : p <> idle) by (intros ->; now apply (ro_idle _ _ _ _ _ Ro)).
  destruct (roster_process _ _ _ _ _ p Ro Hpg) as [_ [rp Erp]].
  apply list_elem_of_split in Hpg as (k1l & l2 & EG).
  destruct k1l as [|a l1 _] using rev_ind.
  { exfalso. pose proof (ro_head _ _ _ _ _ Ro) as Hh. rewrite EG in Hh. cbn in Hh. congruence. }
  rewrite <- app_assoc in EG. cbn [app] in EG. subst G.
  destruct (global_pop_rep (with_delete (procs k) q k) (set_list L PDead l) l1 a p l2 rp R1) as
    (k1 & E1 & R2 & D2 & Lb2 & Sz2 & G2 & Ec & Et & Es & Ee); auto; [apply Ro..|].
  cbn [procs with_delete current_process global_sleep_ticks semaphores global_list_size] in *.
  assert (Er1 : exists r1, procs k1 !! p = Some r1).
  { specialize (G2 p). rewrite Erp in G2. destruct (procs k1 !! p); [eauto|discriminate]. }
  destruct Er1 as [r1 Er1].
  eexists q, k1, _, (l1 ++ a :: l2). split_and!; [exact Ep|exact E1|unfold process_delete, get; rewrite Er1; reflexivity|..];
    cbn [current_process global_sleep_ticks semaphores procs with_env]; auto.
  - assert (Nl : p ∉ l1 ++ a :: l2).
    { pose proof (ro_nodup _ _ _ _ _ Ro) as NG. intros Hx.
      replace (l1 ++ a :: p :: l2) with ((l1 ++ [a]) ++ p :: l2) in NG by (now rewrite <- app_assoc).
      rewrite <- Permutation_middle in NG. apply NoDup_cons in NG as [NG _]. apply NG. now rewrite <- app_assoc. }
    assert (Act : forall x, active (with_env (delete p (procs k1)) (env k1) k1) (set_list L PDead l) x <-> active k L x /\ x <> p).
    { intros x. unfold active. cbn [current_process with_env]. rewrite Ec, (queued_pop L PDead l p x El).
      split; [|tauto]. intros [->|Hx]; (split; [tauto|]); intros Eq; [|subst x; contradiction].
      apply Hc. rewrite Eq. now exists PDead. }
    split; cbn [current_process with_env procs global_list_bottom global_list_size].
    + now apply lists_rep_delete.
    + rewrite Ec. intros Hx. apply Hc. apply (queued_pop L PDead l p _ El). auto.
    + eapply (roster_remove (procs k) _ idle (active k L)); eauto.
      * eapply dll_ext; [|exact D2]. intros x Hx. unfold same_glinks. rewrite lookup_delete_ne; [reflexivity|].
        intros ->. contradiction.
      * intros x Hx. rewrite lookup_delete_ne by congruence. specialize (G2 x).
        destruct (procs k1 !! x) as [r2|], (procs k !! x) as [r3|]; try discriminate; [|reflexivity].
        apply (inj Some) in G2. cbn. f_equal. change (pview (gerase r2) = pview (gerase r3)). now rewrite G2.
      * intros x. rewrite set_list_eq. rewrite El. rewrite elem_of_cons.
        apply NoDup_cons in ND as [Npl _]. split; [intros Hx; split; [auto|intros ->; contradiction]|tauto].
    + rewrite Ec, set_list_ne by congruence. assumption.
    + assumption.
    + rewrite Sz2, Hn, !length_app. cbn [length]. rewrite u32_small; [lia|].
      assert (Z.of_nat (length (l1 ++ a :: p :: l2)) + 1 < 2 ^ 32); [|rewrite length_app in *; cbn [length] in *; lia].
      eapply (roster_bound (procs k)); [exact Ro|apply R].
  - intros x. pose proof (ro_nodup _ _ _ _ _ Ro) as NG.
    assert (Pm : l1 ++ a :: p :: l2 ≡ₚ p :: (l1 ++ a :: l2)) by solve_Permutation.
    rewrite Pm in NG. apply NoDup_cons in NG as [NG _]. rewrite Pm, elem_of_cons.
    split; [intros Hx; split; [auto|intros ->; contradiction]|tauto].
  - intros x Hx. rewrite lookup_delete_ne; [apply G2|]. intros ->. apply Hx. left.
Qed.

Lemma kept_trans m1 m2 m3 g1 g2 g : kept m1 m2 g1 -> kept m2 m3 g2 -> (forall x, x ∉ g -> (x ∉ g1) /\ (x ∉ g2)) ->
  kept m1 m3 g.
Proof. intros A B S x Hx. destruct (S x Hx). rewrite (B x), (A x); auto. Qed.

Lemma delete_loop_rep fuel k idle L G : kernel_rep k idle L G -> (length (L PDead) < fuel)%nat ->
  exists k' G', delete_loop fuel k = Ret k' /\ kernel_rep k' idle (set_list L PDead []) G' /\
    (forall x, x ∈ G' <-> x ∈ G /\ x ∉ L PDead) /\ kept (procs k) (procs k') (L PDead) /\
    current_process k' = current_process k /\ global_sleep_ticks k' = global_sleep_ticks k /\
    semaphores k' = semaphores k.
Proof.
  revert k L G. induction fuel as [|f IH]; intros k L G R Hf; [lia|]. cbn [delete_loop].
  pose proof (lr_queues _ _ (kr_lists _ _ _ _ R) PDead _ eq_refl) as Q.
  pose proof (qr_size _ _ _ Q) as Sz. cbn [queue_of] in Sz.
  destruct (L PDead) as [|p l] eqn:El.
  - rewrite Sz. simpl. exists k, G. split_and!; auto; [|intros x; split; [intros ?; split; [auto|apply not_elem_of_nil]|tauto]|].
    + eapply kernel_rep_ext; [|exact R]. intros x. unfold set_list. now destruct (decide (x = PDead)) as [->|].
    + intros x _. reflexivity.
  - replace (size (delete_queue k) =? 0) with false by (symmetry; apply Z.eqb_neq; rewrite Sz; simpl; lia).
    destruct (delete_one k idle L G p l R El) as (q & k1 & k2 & G2 & E1 & E2 & E3 & R2 & Hg & Kp & Ec & Et & Es).
    rewrite E1, bind_ret, E2, bind_ret, E3, bind_ret.
    destruct (IH k2 (set_list L PDead l) G2 R2) as (k' & G' & E4 & R4 & Hg4 & Kp4 & Ec4 & Et4 & Es4);
      [rewrite set_list_eq; simpl in Hf; lia|].
    rewrite set_list_eq in Hg4, Kp4. exists k', G'. split_and!; auto; try congruence.
    + eapply kernel_rep_ext; [|exact R4]. intros x. symmetry. apply set_list_twice.
    + intros x. rewrite Hg4, Hg, elem_of_cons. tauto.
    + eapply kept_trans; [exact Kp|exact Kp4|]. intros x Hx. rewrite elem_of_cons in Hx.
      rewrite list_elem_of_singleton. tauto.
Qed.

(** When a process is due. *)
Definition wakes_at (m : store) (p : Z) : Z := default 0 (sleep_ticks <$> m !! p).

Fixpoint split_due (m : store) (t : Z) (l : list Z) : list Z * list Z :=
  match l with
  | [] => ([], [])
  | p :: l' => if wakes_at m p <=? t then (p :: (split_due m t l').1, (split_due m t l').2) else ([], l)
  end.

Lemma split_due_app m t l : (split_due m t l).1 ++ (split_due m t l).2 = l.
Proof. induction l as [|p l IH]; simpl; [reflexivity|]. destruct (_ <=? _); simpl; [now rewrite IH|reflexivity]. Qed.

Lemma wakes_at_data m m' p : same_data m m' -> wakes_at m' p = wakes_at m p.
Proof.
  intros D. unfold wakes_at. specialize (D p). destruct (m' !! p) as [r'|], (m !! p) as [r|]; try discriminate; [|reflexivity].
  apply (inj Some) in D. cbn. change (sleep_ticks (erase r') = sleep_ticks (erase r)). now rewrite D.
Qed.

Lemma split_due_data m m' t l : same_data m m' -> split_due m' t l = split_due m t l.
Proof. intros D. induction l as [|p l IH]; simpl; [reflexivity|]. now rewrite (wakes_at_data _ _ _ D), IH. Qed.

(** One sleeper woken. *)
Lemma wake_one k idle L G p l : kernel_rep k idle L G -> L PSleep = p :: l ->
  exists q k', process_queue_pop (procs k) (sleep_queue k) = Ret (p, q) /\
    scheduler_push_ready (with_sleep (procs k) q k) p = Ret k' /\
    kernel_rep k' idle (set_list (set_list L PSleep l) PReady (L PReady ++ [p])) G /\
    same_data (procs k) (procs k') /\ current_process k' = current_process k /\
    global_sleep_ticks k' = global_sleep_ticks k /\ semaphores k' = semaphores k.
Proof.
  intros R El. destruct R as [R Hc Ro Hi Hb Hn].
  pose proof (lr_queues _ _ R PSleep _ eq_refl) as Q. cbn [queue_of] in Q. rewrite El in Q.
  pose proof (ap_nodup _ (lr_apart _ _ R) PSleep) as ND. rewrite El in ND.
  destruct (pop_rep (procs k) (sleep_queue k) p l Q ND) as (q & Ep & Q').
  { pose proof (queue_bound _ _ _ Q ND (lr_small _ _ R)). lia. }
  destruct (lists_rep_pop k L PSleep p l q (with_sleep (procs k) q k) R El Q' eq_refl) as [R1 Np];
    [intros []; reflexivity|].
  destruct (chain_dom _ _ p (qr_chain _ _ _ Q) ltac:(left)) as [rp Erp].
  pose proof (chain_nonzero _ _ p (qr_chain _ _ _ Q) ltac:(left)) as Hz.
  destruct (push_ready_lists _ _ p rp R1 Np Hz Erp) as (k' & E1 & R2 & D & Rs & Sm).
  unfold rest in Rs. cbn in Rs. injection Rs as Ec Eb Es Et _ _ _.
  rewrite set_list_ne in R2 by congruence. exists q, k'. split_and!; auto.
  assert (Pm : L PReady ++ [p] ≡ₚ p :: set_list L PSleep l PReady)
    by (rewrite set_list_ne by congruence; now rewrite Permutation_app_comm).
  assert (Qx : forall x, queued (set_list (set_list L PSleep l) PReady (L PReady ++ [p])) x <-> queued L x).
  { intros x. rewrite (queued_push _ PReady _ p x Pm). symmetry. now apply queued_pop. }
  split; auto.
  - now rewrite Ec, Qx.
  - eapply roster_ext; [apply same_data_core; exact D| | |exact Ro].
    + intros x. unfold active. now rewrite Ec, Qx.
    + intros x. now rewrite !set_list_ne by congruence.
  - rewrite Ec, set_list_eq, elem_of_app. tauto.
  - now rewrite Eb.
  - now rewrite Es.
Qed.

Lemma wake_loop_rep fuel k idle L G : kernel_rep k idle L G -> (length (L PSleep) < fuel)%nat ->
  let t := global_sleep_ticks k in
  let woken := (split_due (procs k) t (L PSleep)).1 in
  let asleep := (split_due (procs k) t (L PSleep)).2 in
  exists k', wake_loop fuel k = Ret k' /\
    kernel_rep k' idle (set_list (set_list L PSleep asleep) PReady (L PReady ++ woken)) G /\
    same_data (procs k) (procs k') /\ current_process k' = current_process k /\
    global_sleep_ticks k' = t /\ semaphores k' = semaphores k.
Proof.
  revert k L. induction fuel as [|f IH]; intros k L R Hf; [lia|]. cbn [wake_loop]. cbv zeta.
  pose proof (lr_queues _ _ (kr_lists _ _ _ _ R) PSleep _ eq_refl) as Q. cbn [queue_of] in Q.
  rewrite (qr_top _ _ _ Q). destruct (L PSleep) as [|p l] eqn:El.
  - simpl. exists k. split_and!; auto; [|apply same_data_refl]. rewrite app_nil_r.
    eapply kernel_rep_ext; [|exact R]. intros x. unfold set_list.
    destruct (decide (x = PReady)) as [->|]; [reflexivity|]. now destruct (decide (x = PSleep)) as [->|].
  - destruct (chain_dom _ _ p (qr_chain _ _ _ Q) ltac:(left)) as [rp Erp].
    pose proof (chain_nonzero _ _ p (qr_chain _ _ _ Q) ltac:(left)) as Hz.
    cbn [head default from_option Datatypes.id]. replace (p =? 0) with false by lia.
    unfold get. rewrite Erp. cbn [of_option]. rewrite bind_ret. cbn [split_due].
    assert (Ew : wakes_at (procs k) p = sleep_ticks rp) by (unfold wakes_at; now rewrite Erp).
    rewrite Ew. destruct (sleep_ticks rp <=? global_sleep_ticks k); cbn [fst snd].
    + destruct (wake_one k idle L G p l R El) as (q & k1 & E1 & E2 & R1 & D1 & Ec1 & Et1 & Es1).
      rewrite E1, bind_ret, E2, bind_ret.
      destruct (IH k1 _ R1) as (k' & E3 & R3 & D3 & Ec3 & Et3 & Es3).
      { rewrite set_list_ne, set_list_eq by congruence. simpl in Hf. lia. }
      rewrite Et1, (split_due_data _ _ _ _ D1) in *. rewrite set_list_eq, set_list_ne, set_list_eq in R3 by congruence.
      exists k'. split_and!; [exact E3| |eapply same_data_trans; eauto|congruence..].
      eapply kernel_rep_ext; [|exact R3]. intros x. unfold set_list.
      destruct (decide (x = PReady)) as [->|]; [now rewrite <- app_assoc|]. now destruct (decide (x = PSleep)).
    + exists k. split_and!; auto; [|apply same_data_refl]. rewrite app_nil_r.
      eapply kernel_rep_ext; [|exact R]. intros x. unfold set_list.
      destruct (decide (x = PReady)) as [->|]; [reflexivity|]. now destruct (decide (x = PSleep)) as [->|].
Qed.

Lemma split_due_kept m m' gone t l : kept m m' gone -> (forall p, p ∈ l -> p ∉ gone) ->
  split_due m' t l = split_due m t l.
Proof.
  intros K. induction l as [|p l IH]; intros Hl; simpl; [reflexivity|].
  assert (E1 : wakes_at m' p = wakes_at m p).
  { unfold wakes_at. specialize (K p (Hl p ltac:(left))).
    destruct (m' !! p) as [r'|], (m !! p) as [r|]; try discriminate; [|reflexivity].
    apply (inj Some) in K. cbn. change (sleep_ticks (gerase r') = sleep_ticks (gerase r)). now rewrite K. }
  rewrite E1, IH; [reflexivity|]. intros x Hx. apply Hl. now right.
Qed.

(** The lists after the wake-up part of a tick. *)
Definition tick_time (k : kernel E) (L : lists) : Z :=
  match L PSleep with [] => global_sleep_ticks k | _ => u64 (global_sleep_ticks k + 1) end.

Definition woken_lists (k : kernel E) (L : lists) : lists :=
  let due := split_due (procs k) (tick_time k L) (L PSleep) in
  set_list (set_list L PSleep due.2) PReady (L PReady ++ due.1).

Lemma kernel_rep_ticks k idle L G n : kernel_rep k idle L G -> kernel_rep (with_sleep_ticks n k) idle L G.
Proof. intros [[Q A S] ? ? ? ? ?]. split; auto. split; auto. Qed.

Lemma wake_sleepers_rep k idle L G : kernel_rep k idle L G ->
  exists k', wake_sleepers k = Ret k' /\ kernel_rep k' idle (woken_lists k L) G /\
    same_data (procs k) (procs k') /\ current_process k' = current_process k /\ semaphores k' = semaphores k /\
    global_sleep_ticks k' =
      match L PSleep with
      | [] => global_sleep_ticks k
      | _ => if bool_decide (woken_lists k L PSleep = []) then 0 else tick_time k L
      end.
Proof.
  intros R. unfold wake_sleepers.
  pose proof (lr_queues _ _ (kr_lists _ _ _ _ R) PSleep _ eq_refl) as Q. cbn [queue_of] in Q.
  pose proof (qr_size _ _ _ Q) as Sz. rewrite Sz.
  destruct (L PSleep) as [|p l] eqn:El.
  - simpl. exists k. split_and!; auto; [|apply same_data_refl]. unfold woken_lists. rewrite El. simpl. rewrite app_nil_r.
    eapply kernel_rep_ext; [|exact R]. intros x. unfold set_list.
    destruct (decide (x = PReady)) as [->|]; [reflexivity|]. now destruct (decide (x = PSleep)) as [->|].
  - replace (Z.of_nat (length (p :: l)) =? 0) with false by (symmetry; apply Z.eqb_neq; simpl; lia).
    assert (Et : u64 (global_sleep_ticks k + 1) = tick_time k L) by (unfold tick_time; now rewrite El).
    rewrite Et. pose proof (kernel_rep_ticks _ _ _ _ (tick_time k L) R) as R1.
    destruct (wake_loop_rep (S (Z.to_nat (size (sleep_queue (with_sleep_ticks (tick_time k L) k))))) _ _ _ _ R1) as
      (k' & E1 & R2 & D & Ec & Et2 & Es).
    { cbn [sleep_queue with_sleep_ticks]. rewrite Sz, Nat2Z.id, El. lia. }
    cbn [procs with_sleep_ticks sleep_queue global_sleep_ticks semaphores current_process] in *. rewrite E1, bind_ret.
    change (kernel_rep k' idle (woken_lists k L) G) in R2.
    pose proof (lr_queues _ _ (kr_lists _ _ _ _ R2) PSleep _ eq_refl) as Q2. cbn [queue_of] in Q2.
    pose proof (qr_size _ _ _ Q2) as Sz2. eexists. split; [reflexivity|].
    assert (Test : (size (sleep_queue k') =? 0) = bool_decide (woken_lists k L PSleep = [])).
    { rewrite Sz2. destruct (woken_lists k L PSleep); [reflexivity|]. rewrite bool_decide_false by congruence.
      apply Z.eqb_neq. simpl. lia. }
    rewrite Test. destruct (bool_decide (woken_lists k L PSleep = [])).
    + split_and!; auto. now apply kernel_rep_ticks.
    + split_and!; auto.
Qed.

(** A tick of the timer, up to the choice of the next process. *)
Definition tick_lists (k : kernel E) (L : lists) : lists := set_list (woken_lists k L) PDead [].

Lemma tick_lists_ready k L : tick_lists k L PReady = L PReady ++ (split_due (procs k) (tick_time k L) (L PSleep)).1.
Proof. unfold tick_lists, woken_lists. now rewrite set_list_ne, set_list_eq by congruence. Qed.

Lemma switch_prefix k idle L G : kernel_rep k idle L G ->
  exists k1 k2 G', delete_loop (S (Z.to_nat (size (delete_queue k)))) k = Ret k1 /\ wake_sleepers k1 = Ret k2 /\
    kernel_rep k2 idle (tick_lists k L) G' /\ (forall x, x ∈ G' <-> x ∈ G /\ (x ∉ L PDead)) /\
    current_process k2 = current_process k /\ semaphores k2 = semaphores k /\
    (forall r, procs k !! current_process k = Some r ->
       exists r', procs k2 !! current_process k = Some r' /\ gerase (erase r') = gerase (erase r)) /\
    global_sleep_ticks k2 =
      match L PSleep with
      | [] => global_sleep_ticks k
      | _ => if bool_decide (tick_lists k L PSleep = []) then 0 else tick_time k L
      end.
Proof.
  intros R.
  pose proof (lr_queues _ _ (kr_lists _ _ _ _ R) PDead _ eq_refl) as Q. cbn [queue_of] in Q.
  destruct (delete_loop_rep (S (Z.to_nat (size (delete_queue k)))) k idle L G R) as
    (k1 & G' & E1 & R1 & Hg & Kp & Ec1 & Et1 & Es1).
  { rewrite (qr_size _ _ _ Q), Nat2Z.id. lia. }
  destruct (wake_sleepers_rep k1 idle _ G' R1) as (k2 & E2 & R2 & D & Ec2 & Es2 & Et2).
  assert (Dj : forall p, p ∈ L PSleep -> p ∉ L PDead).
  { intros p H1 H2. pose proof (ap_disj _ (lr_apart _ _ (kr_lists _ _ _ _ R)) p _ _ H1 H2). congruence. }
  assert (Tt : tick_time k1 (set_list L PDead []) = tick_time k L).
  { unfold tick_time. rewrite set_list_ne by congruence. now rewrite Et1. }
  assert (Wl : forall x, woken_lists k1 (set_list L PDead []) x = tick_lists k L x).
  { intros x. unfold tick_lists, woken_lists. rewrite Tt. rewrite !(set_list_ne L PDead []) by congruence.
    rewrite (split_due_kept _ _ _ _ _ Kp Dj). unfold set_list.
    destruct (decide (x = PReady)) as [->|]; [now rewrite decide_False|].
    destruct (decide (x = PSleep)) as [->|]; [now rewrite decide_False|reflexivity]. }
  exists k1, k2, G'. split_and!; auto; try congruence.
  - eapply kernel_rep_ext; [|exact R2]. intros x. symmetry. apply Wl.
  - intros r Er. assert (Hd : current_process k ∉ L PDead) by (intros Hx; apply (kr_current _ _ _ _ R); now exists PDead).
    specialize (Kp _ Hd). rewrite Er in Kp. destruct (procs k1 !! current_process k) as [r1|] eqn:Er1; [|discriminate].
    destruct (same_data_lookup _ _ _ _ D Er1) as (r2 & Er2 & Ee). exists r2. split; [assumption|].
    rewrite Ee. apply (inj Some) in Kp. change (erase (gerase r1) = erase (gerase r)). now rewrite Kp.
  - rewrite Et2, Wl, Tt, Et1. rewrite set_list_ne by congruence. reflexivity.
Qed.

Lemma kernel_rep_insert k idle L G p r r' : kernel_rep k idle L G -> procs k !! p = Some r ->
  queue_next r' = queue_next r -> gview r' = gview r -> kernel_rep (with_procs (<[p := r']> (procs k)) k) idle L G.
Proof.
  intros [R Hc Ro Hi Hb Hn] Er Nx Gv. split; auto.
  - now apply lists_rep_insert with r.
  - eapply roster_ext; [apply same_core_insert with r; eassumption| | |exact Ro]; intros; reflexivity.
Qed.

Lemma tick_rep (k : kernel E) (idle : Z) (L : lists) (G : list Z) (regs : Z) (r : process) :
  kernel_rep k idle L G -> procs k !! current_process k = Some r ->
  exists esp k' L' G', scheduler_switch k regs = Ret (esp, k') /\ kernel_rep k' idle L' G' /\
    (forall x, x ∈ G' <-> x ∈ G /\ (x ∉ L PDead)) /\ semaphores k' = semaphores k /\
    if u64 (alive_ticks r + 1) mod PROCESS_ALIVE_TICKS =? 0
    then exists p l, tick_lists k L PReady ++ [current_process k] = p :: l /\ runs k' p esp /\
           L' = set_list (tick_lists k L) PReady l
    else current_process k' = current_process k /\ esp = regs /\ L' = tick_lists k L.
Proof.
  intros R Er. destruct (switch_prefix k idle L G R) as (k1 & k2 & G' & E1 & E2 & R2 & Hg & Ec & Es & Hr & _).
  destruct (Hr r Er) as (r2 & Er2 & Ee). unfold scheduler_switch. rewrite E1, bind_ret, E2, bind_ret, Ec.
  assert (Ea : alive_ticks r2 = alive_ticks r).
  { change (alive_ticks (gerase (erase r2)) = alive_ticks (gerase (erase r))). now rewrite Ee. }
  unfold get. rewrite Er2. cbn [of_option]. rewrite bind_ret, Ea.
  set (r3 := set_saved_esp regs (set_alive_ticks (u64 (alive_ticks r + 1)) r2)).
  rewrite (upd_Ret _ _ _ _ Er2), bind_ret, (upd_Ret _ _ _ _ (lookup_insert_eq _ _ _)), bind_ret, insert_insert_eq.
  fold r3. cbv zeta. cbn [procs with_procs current_process]. rewrite Ec, lookup_insert_eq. cbn [of_option]. rewrite bind_ret.
  pose proof (kernel_rep_insert _ _ _ _ _ _ r3 R2 Er2 eq_refl eq_refl) as R3.
  set (k3 := with_procs (<[current_process k := r3]> (procs k2)) k2) in *.
  change (alive_ticks r3) with (u64 (alive_ticks r + 1)).
  destruct (u64 (alive_ticks r + 1) mod PROCESS_ALIVE_TICKS =? 0) eqn:Et.
  - destruct (yield_rep k3 idle _ G' regs R3) as (p & l & esp & k' & r' & El & _ & E4 & R4 & Rn & _ & _ & S4).
    change (current_process k3) with (current_process k2) in El. rewrite Ec in El.
    exists esp, k', (set_list (tick_lists k L) PReady l), G'. split_and!; auto; [now rewrite S4|]. exists p, l. auto.
  - exists regs, k3, (tick_lists k L), G'. split_and!; auto.
Qed.

(** ** The scheduler's contract *)

(** C6: Yielding is round robin.  In a consistent kernel state,
    scheduler_to_next_process with add_back never faults: the caller, its
    registers saved, goes to the tail of the ready queue, the process at the
    head of the extended queue becomes the running one, its page directory and
    interrupt stack are installed and its saved stack pointer is returned, and
    the state is consistent again. *)
Theorem yield_round_robin (k : kernel E) (idle : Z) (L : lists) (G : list Z) (regs : Z) :
  kernel_rep k idle L G ->
  exists p l esp k', L PReady ++ [current_process k] = p :: l /\
    scheduler_to_next_process k regs true = Ret (esp, k') /\
    kernel_rep k' idle (set_list L PReady l) G /\ runs k' p esp /\
    (exists r, procs k' !! current_process k = Some r /\ saved_esp r = regs).
Proof.
  intros R. destruct (yield_rep k idle L G regs R) as (p & l & esp & k' & r & El & Er & E1 & R' & Rn & D & _ & _).
  exists p, l, esp, k'. split_and!; auto.
  destruct (same_data_lookup _ _ (current_process k) (set_saved_esp regs r) D) as (r' & Er' & Ee);
    [apply lookup_insert_eq|].
  exists r'. split; [assumption|]. change (saved_esp (erase r') = regs). now rewrite Ee.
Qed.

(** C4: A timer tick.  In a consistent kernel state scheduler_switch never
    faults and runs out of no budget: it deletes every process on the delete
    queue and nothing else, wakes, in order, exactly the leading sleepers whose
    time has come, and then either keeps the running process, returning the
    registers it was given, or, on every fourth tick of its life, rotates the
    ready queue to the next process. *)
Theorem tick_spec (k : kernel E) (idle : Z) (L : lists) (G : list Z) (regs : Z) (r : process) :
  kernel_rep k idle L G -> procs k !! current_process k = Some r ->
  exists esp k' L' G', scheduler_switch k regs = Ret (esp, k') /\ kernel_rep k' idle L' G' /\
    (forall x, x ∈ G' <-> x ∈ G /\ (x ∉ L PDead)) /\
    if u64 (alive_ticks r + 1) mod PROCESS_ALIVE_TICKS =? 0
    then exists p l, tick_lists k L PReady ++ [current_process k] = p :: l /\ runs k' p esp /\
           L' = set_list (tick_lists k L) PReady l
    else current_process k' = current_process k /\ esp = regs /\ L' = tick_lists k L.
Proof.
  intros R Er. destruct (tick_rep k idle L G regs r R Er) as (esp & k' & L' & G' & E1 & R' & Hg & _ & C).
  exists esp, k', L', G'. auto.
Qed.

(** C7: Sleeping.  A process other than the idle one that sleeps [ticks] ticks
    is put on the sleep queue, in the order of wake-up times and before the
    sleepers due at the same tick, the process at the head of the ready queue
    runs, and the state stays consistent.  The idle process is ready, so there
    is always a process to run. *)
Theorem sleep_spec (k : kernel E) (idle : Z) (L : lists) (G : list Z) (regs ticks : Z) :
  kernel_rep k idle L G -> current_process k <> idle ->
  exists p l esp k' L', L PReady = p :: l /\
    scheduler_set_sleep k regs ticks = Ret (esp, k') /\ kernel_rep k' idle L' G /\ runs k' p esp /\
    wakes_at (procs k') (current_process k) = u64 (ticks + global_sleep_ticks k) /\
    L' PReady = l /\
    L' PSleep = insert_by (fun x => wakes_at (procs k) x <? u64 (ticks + global_sleep_ticks k))
                  (current_process k) (L PSleep).
Proof.
  intros R Hni. destruct (sleep_rep k idle L G regs ticks R Hni) as (p & l & esp & k' & r & El & Er & M). cbv zeta in M.
  destruct M as (E1 & R' & Rn & D & _ & _). eexists p, l, esp, k', _. split_and!; [exact El|exact E1|exact R'|exact Rn| | |].
  - rewrite (wakes_at_data _ _ _ D). unfold wakes_at. now rewrite lookup_insert_eq.
  - now rewrite set_list_eq.
  - rewrite set_list_ne, set_list_eq by congruence. apply insert_by_ext. intros x Hx.
    assert (Nx : current_process k <> x) by (intros Eq; apply (kr_current _ _ _ _ R); rewrite Eq; now exists PSleep).
    pose proof (kr_lists _ _ _ _ R) as [Q _ _]. destruct (chain_dom _ _ x (qr_chain _ _ _ (Q PSleep _ eq_refl)) Hx) as [rx Ex].
    unfold before. rewrite lookup_insert_eq, lookup_insert_ne, Ex by assumption.
    unfold wakes_at. now rewrite Ex.
Qed.

(** Dying.  Killing a process other than the idle one queues it for
    deletion, makes the process that waits for it, if any, ready again, runs
    the head of the ready queue, and keeps the state consistent. *)
Theorem kill_spec (k : kernel E) (idle : Z) (L : lists) (G : list Z) (regs code : Z) (r : process) :
  kernel_rep k idle L G -> current_process k <> idle -> procs k !! current_process k = Some r ->
  exists p l esp k' L', release_parent L (attached_from r) PReady = p :: l /\
    scheduler_kill_process k regs code = Ret (esp, k') /\ kernel_rep k' idle L' G /\ runs k' p esp /\
    L' PReady = l /\ L' PDead = L PDead ++ [current_process k].
Proof.
  intros R Hni Er. destruct (kill_rep k idle L G regs code R Hni) as (p & l & esp & k' & r' & Er' & M). cbv zeta in M.
  rewrite Er in Er'. injection Er' as <-. destruct M as (El & E1 & R' & Rn & _ & _).
  eexists p, l, esp, k', _. split_and!; [exact El|exact E1|exact R'|exact Rn| |]; rewrite ?set_list_eq; auto.
  rewrite set_list_ne, set_list_eq by congruence. f_equal.
  unfold release_parent. destruct (_ =? 0); [reflexivity|]. now rewrite set_list_ne by congruence.
Qed.

(** The idle process cannot be killed. *)
Lemma kill_idle (k : kernel E) idle L G regs code : kernel_rep k idle L G -> current_process k = idle ->
  scheduler_kill_process k regs code = Ret (regs, k).
Proof.
  intros R Ei. destruct (current_process_known _ _ _ _ R) as [_ [r Er]]. unfold scheduler_kill_process, get.
  rewrite Er. cbn [of_option]. rewrite bind_ret.
  assert (Hid : id r = 1).
  { apply (ro_id _ _ _ _ _ (kr_roster _ _ _ _ R) _ _ Er); [|assumption].
    apply (ro_live _ _ _ _ _ (kr_roster _ _ _ _ R)). now left. }
  now rewrite Hid.
Qed.
End invariant.
