(* ===== verification/Sem.v ===== *)
(** * Semaphores (kernel/src/semaphore.c) and the reachable kernel states

    A counting semaphore with a queue of the processes that wait for it, over
    the scheduler's state.  The second half closes the scheduling model: the
    operations of both files as steps, and the states they reach. *)
From S2P Require Import Prelude Procs Sched.

Definition sizeof_semaphore : Z := 20.

Section semaphore.
Context {E : Type} `{ProcessEnv E}.

Definition set_sem (k : kernel E) (p : Z) (s : semaphore) : kernel E :=
  with_sems (procs k) (<[p := s]> (semaphores k)) k.

Definition semaphore_init (k : kernel E) (sem initial_count : Z) : kernel E :=
  set_sem k sem (Semaphore false initial_count PROCESS_QUEUE_INIT).

Definition semaphore_create (k : kernel E) (initial_count : Z) : Z * kernel E :=
  let '(ret, e) := env_kmalloc (env k) sizeof_semaphore in
  let k := with_env (procs k) e k in
  if ret =? 0 then (0, k) else (ret, semaphore_init k ret initial_count).

Definition semaphore_acquire (k : kernel E) (regs sem count : Z) : outcome (Z * kernel E) :=
  s ← of_option (semaphores k !! sem);
  if sem_lock s then Spin
  else if count <=? sem_count s then
    Ret (regs, set_sem k sem (Semaphore false (sem_count s - count) (waiting_queue s)))
  else
    m ← upd (procs k) (current_process k) (set_state PROCESS_STATE_BLOCK);
    m ← upd m (current_process k) (set_waiting count);
    '(m, q) ← process_queue_push m (waiting_queue s) (current_process k);
    let k := with_sems m (<[sem := Semaphore false (sem_count s) q]> (semaphores k)) k in
    scheduler_to_next_process k regs false.

Fixpoint release_loop (fuel : nat) (k : kernel E) (sem : Z) : outcome (kernel E) :=
  match fuel with
  | O => NoFuel
  | S f =>
      s ← of_option (semaphores k !! sem);
      if size (waiting_queue s) =? 0 then Ret k
      else
        let proc := top (waiting_queue s) in
        r ← get (procs k) proc;
        if waiting_for_resource_count r <=? sem_count s then
          '(_, q) ← process_queue_pop (procs k) (waiting_queue s);
          let s := Semaphore (sem_lock s) (sem_count s - waiting_for_resource_count r) q in
          m ← upd (procs k) proc (set_state PROCESS_STATE_READY);
          k ← scheduler_push_ready (with_sems m (<[sem := s]> (semaphores k)) k) proc;
          release_loop f k sem
        else Ret k
  end.

Definition semaphore_release (k : kernel E) (sem count : Z) : outcome (kernel E) :=
  s ← of_option (semaphores k !! sem);
  if sem_lock s then Spin
  else
    let k := set_sem k sem (Semaphore true (u32 (sem_count s + count)) (waiting_queue s)) in
    k ← release_loop (S (Z.to_nat (size (waiting_queue s)))) k sem;
    s ← of_option (semaphores k !! sem);
    Ret (set_sem k sem (Semaphore false (sem_count s) (waiting_queue s))).

(** Only the kernel's own code may block on a kernel semaphore directly. *)
Definition semaphore_syscall_kacquire (k : kernel E) (regs cs sem count : Z) : outcome (Z * kernel E) :=
  if negb (Z.land cs 3 =? 0) then scheduler_kill_process k regs 13 else semaphore_acquire k regs sem count.

(** The system calls go through a descriptor of the caller.  [node_semaphore e n]
    is the semaphore of the node [n], 0 where it has none or is not a semaphore.
    The first result is what is left in eax. *)
Definition fd_semaphore (node_semaphore : E -> Z -> Z) (k : kernel E) (fd : Z) : outcome Z :=
  if (fd <? 0) || (MAX_FILE <=? fd) then Ret 0
  else
    r ← get (procs k) (current_process k);
    node ← of_option (file_nodes r !! Z.to_nat fd);
    Ret (if node =? 0 then 0 else node_semaphore (env k) node).

Definition semaphore_syscall_acquire (node_semaphore : E -> Z -> Z) (k : kernel E) (regs fd count : Z) :
  outcome (Z * Z * kernel E) :=
  sem ← fd_semaphore node_semaphore k fd;
  if sem =? 0 then Ret (-1, regs, k)
  else '(esp, k) ← semaphore_acquire k regs sem count; Ret (0, esp, k).

Definition semaphore_syscall_release (node_semaphore : E -> Z -> Z) (k : kernel E) (fd count : Z) :
  outcome (Z * kernel E) :=
  sem ← fd_semaphore node_semaphore k fd;
  if sem =? 0 then Ret (-1, k)
  else k ← semaphore_release k sem count; Ret (0, k).

(** ** Semaphores and the lists *)

Lemma queue_of_sems (k : kernel E) m s sem : forall pl, queue_of (with_sems m (<[sem := s]> (semaphores k)) k) pl =
  set_queue (queue_of k) (PWait sem) (waiting_queue s) pl.
Proof.
  intros pl. unfold set_queue. destruct (decide (pl = PWait sem)) as [->|Ne].
  - cbn. now rewrite lookup_insert_eq.
  - destruct pl as [| | |s']; try reflexivity. cbn. rewrite lookup_insert_ne by congruence. reflexivity.
Qed.

(** Changing the count or the lock of a semaphore. *)
Lemma kernel_rep_sem (k : kernel E) idle L G sem s s' : kernel_rep k idle L G -> semaphores k !! sem = Some s ->
  waiting_queue s' = waiting_queue s -> kernel_rep (set_sem k sem s') idle L G.
Proof.
  intros [[Q A S] Hc Ro Hi Hb Hn] Es Ew. split; auto. split; auto.
  intros pl q. unfold set_sem. rewrite queue_of_sems. unfold set_queue.
  destruct (decide (pl = PWait sem)) as [->|]; [|apply Q]. intros [= <-]. rewrite Ew. apply Q. cbn. now rewrite Es.
Qed.

(** What each waiter of a list is granted from [c], in order. *)
Definition needs (m : store) (p : Z) : Z := default 0 (waiting_for_resource_count <$> m !! p).

Fixpoint grant (m : store) (c : Z) (l : list Z) : list Z * list Z * Z :=
  match l with
  | [] => ([], [], c)
  | p :: l' =>
      if needs m p <=? c
      then let '(a, b, c') := grant m (c - needs m p) l' in (p :: a, b, c')
      else ([], l, c)
  end.

Lemma needs_data m m' p : same_data m m' -> needs m' p = needs m p.
Proof.
  intros D. unfold needs. specialize (D p). destruct (m' !! p) as [r'|], (m !! p) as [r|]; try discriminate; [|reflexivity].
  apply (inj Some) in D. cbn.
  change (waiting_for_resource_count (erase r') = waiting_for_resource_count (erase r)). now rewrite D.
Qed.

Lemma grant_data m m' c l : same_data m m' -> grant m' c l = grant m c l.
Proof.
  intros D. revert c. induction l as [|p l IH]; intros c; simpl; [reflexivity|].
  now rewrite (needs_data _ _ _ D), IH.
Qed.

Definition total_needs (m : store) (l : list Z) : Z := foldr (fun p n => needs m p + n) 0 l.

(** Granting conserves: what is left is what there was less what was given. *)
Lemma grant_spec m c l : let '(a, b, c') := grant m c l in
  a ++ b = l /\ c' = c - total_needs m a /\ match b with [] => True | p :: _ => c' < needs m p end.
Proof.
  revert c. induction l as [|p l IH]; intros c; simpl; [split_and!; auto; lia|].
  destruct (Z.leb_spec (needs m p) c).
  - specialize (IH (c - needs m p)). destruct (grant m (c - needs m p) l) as [[a b] c'].
    destruct IH as (<- & -> & Hb). simpl. split_and!; auto; lia.
  - simpl. split_and!; auto; lia.
Qed.

(** One waiter granted. *)
Lemma release_one (k : kernel E) idle L G sem s p l : kernel_rep k idle L G -> semaphores k !! sem = Some s ->
  L (PWait sem) = p :: l ->
  exists r q k', procs k !! p = Some r /\ top (waiting_queue s) = p /\
    process_queue_pop (procs k) (waiting_queue s) = Ret (p, q) /\
    let s' := Semaphore (sem_lock s) (sem_count s - waiting_for_resource_count r) q in
    (m ← upd (procs k) p (set_state PROCESS_STATE_READY);
     scheduler_push_ready (with_sems m (<[sem := s']> (semaphores k)) k) p) = Ret k' /\
    kernel_rep k' idle (set_list (set_list L (PWait sem) l) PReady (L PReady ++ [p])) G /\
    same_data (procs k) (procs k') /\ current_process k' = current_process k /\
    semaphores k' = <[sem := s']> (semaphores k).
Proof.
  intros R Es El. destruct R as [R Hc Ro Hi Hb Hn].
  assert (Eq : queue_of k (PWait sem) = Some (waiting_queue s)) by (cbn; now rewrite Es).
  pose proof (lr_queues _ _ R _ _ Eq) as Q. rewrite El in Q.
  pose proof (ap_nodup _ (lr_apart _ _ R) (PWait sem)) as ND. rewrite El in ND.
  destruct (pop_rep (procs k) (waiting_queue s) p l Q ND) as (q & Ep & Q').
  { pose proof (queue_bound _ _ _ Q ND (lr_small _ _ R)). lia. }
  destruct (chain_dom _ _ p (qr_chain _ _ _ Q) ltac:(left)) as [r Er].
  pose proof (chain_nonzero _ _ p (qr_chain _ _ _ Q) ltac:(left)) as Hz.
  set (s' := Semaphore (sem_lock s) (sem_count s - waiting_for_resource_count r) q).
  destruct (lists_rep_pop k L (PWait sem) p l q (with_sems (procs k) (<[sem := s']> (semaphores k)) k) R El Q' eq_refl)
    as [R1 Np]; [intros pl; apply queue_of_sems|].
  destruct (upd_state (procs k) p PROCESS_STATE_READY r Er) as [D0 N0].
  set (k1 := with_sems (procs k) (<[sem := s']> (semaphores k)) k) in *.
  pose proof (lists_rep_store k1 _ _ R1 D0 N0) as R2.
  destruct (push_ready_lists (with_procs (<[p := set_state PROCESS_STATE_READY r]> (procs k)) k1) _ p
    (set_state PROCESS_STATE_READY r) R2 Np Hz) as (k' & E1 & R3 & D & Rs & Sm); [apply lookup_insert_eq|].
  unfold rest in Rs. cbn in Rs. injection Rs as Ec Eb Esz Et _ _ _.
  rewrite set_list_ne in R3 by congruence. exists r, q, k'. cbv zeta. fold s'. split_and!; auto.
  - exact (qr_top _ _ _ Q).
  - rewrite (upd_Ret _ _ _ _ Er), bind_ret. exact E1.
  - assert (Pm : L PReady ++ [p] ≡ₚ p :: set_list L (PWait sem) l PReady)
      by (rewrite set_list_ne by congruence; now rewrite Permutation_app_comm).
    assert (Qx : forall x, queued (set_list (set_list L (PWait sem) l) PReady (L PReady ++ [p])) x <-> queued L x).
    { intros x. rewrite (queued_push _ PReady _ p x Pm). symmetry. now apply queued_pop. }
    split; auto.
    + now rewrite Ec, Qx.
    + eapply roster_ext; [apply same_data_core; eapply same_data_trans; [exact D0|exact D]| | |exact Ro].
      * intros x. unfold active. now rewrite Ec, Qx.
      * intros x. now rewrite !set_list_ne by congruence.
    + rewrite Ec, set_list_eq, elem_of_app. tauto.
    + now rewrite Eb.
    + now rewrite Esz.
  - eapply same_data_trans; [exact D0|exact D].
Qed.

Lemma release_loop_rep fuel (k : kernel E) idle L G sem s : kernel_rep k idle L G -> semaphores k !! sem = Some s ->
  (length (L (PWait sem)) < fuel)%nat ->
  let '(granted, waiting, remaining) := grant (procs k) (sem_count s) (L (PWait sem)) in
  exists k' q, release_loop fuel k sem = Ret k' /\
    kernel_rep k' idle (set_list (set_list L (PWait sem) waiting) PReady (L PReady ++ granted)) G /\
    same_data (procs k) (procs k') /\ current_process k' = current_process k /\
    semaphores k' = <[sem := Semaphore (sem_lock s) remaining q]> (semaphores k).
Proof.
  revert k L s. induction fuel as [|f IH]; intros k L s R Es Hf; [lia|]. cbn [release_loop].
  rewrite Es. cbn [of_option]. rewrite bind_ret.
  assert (Eq : queue_of k (PWait sem) = Some (waiting_queue s)) by (cbn; now rewrite Es).
  pose proof (lr_queues _ _ (kr_lists _ _ _ _ R) _ _ Eq) as Q. rewrite (qr_size _ _ _ Q).
  assert (Stop : kernel_rep k idle (set_list (set_list L (PWait sem) (L (PWait sem))) PReady (L PReady ++ [])) G).
  { rewrite app_nil_r. eapply kernel_rep_ext; [|exact R]. intros x. unfold set_list.
    destruct (decide (x = PReady)) as [->|]; [reflexivity|]. now destruct (decide (x = PWait sem)) as [->|]. }
  assert (Same : semaphores k = <[sem := Semaphore (sem_lock s) (sem_count s) (waiting_queue s)]> (semaphores k))
    by (symmetry; apply insert_id; rewrite Es; now destruct s).
  destruct (L (PWait sem)) as [|p l] eqn:El.
  - simpl. exists k, (waiting_queue s). split_and!; auto. apply same_data_refl.
  - replace (Z.of_nat (length (p :: l)) =? 0) with false by (symmetry; apply Z.eqb_neq; simpl; lia).
    destruct (release_one k idle L G sem s p l R Es El) as (r & q & k1 & Er & Et & E1 & E2 & R1 & D1 & Ec1 & Sm1).
    rewrite Et. unfold get. rewrite Er. cbn [of_option]. rewrite bind_ret. cbn [grant].
    assert (Ew : needs (procs k) p = waiting_for_resource_count r) by (unfold needs; now rewrite Er).
    rewrite Ew. destruct (Z.leb_spec (waiting_for_resource_count r) (sem_count s)).
    + rewrite E1, bind_ret. apply bind_Ret_inv in E2 as (m1 & E2 & E3). rewrite E2, bind_ret, E3, bind_ret.
      specialize (IH k1 _ (Semaphore (sem_lock s) (sem_count s - waiting_for_resource_count r) q) R1).
      rewrite Sm1, lookup_insert_eq in IH. specialize (IH eq_refl).
      rewrite set_list_ne, set_list_eq in IH by congruence. cbn [sem_count sem_lock] in IH.
      rewrite (grant_data _ _ _ _ D1) in IH.
      destruct (grant (procs k) _ l) as [[a b] c]. destruct IH as (k' & q' & E4 & R4 & D4 & Ec4 & Sm4); [simpl in Hf; lia|].
      exists k', q'. split_and!; [exact E4| |eapply same_data_trans; eauto|congruence|].
      * eapply kernel_rep_ext; [|exact R4]. intros x. unfold set_list.
        destruct (decide (x = PReady)) as [->|]; [rewrite decide_True by reflexivity; now rewrite <- app_assoc|].
        now destruct (decide (x = PWait sem)).
      * rewrite Sm4. apply insert_insert_eq.
    + exists k, (waiting_queue s). split_and!; auto. apply same_data_refl.
Qed.

(** Blocking on a semaphore. *)
Lemma acquire_blocks (k : kernel E) idle L G regs sem s n : kernel_rep k idle L G -> semaphores k !! sem = Some s ->
  sem_lock s = false -> sem_count s < n -> current_process k <> idle ->
  exists p l esp k' q, L PReady = p :: l /\ semaphore_acquire k regs sem n = Ret (esp, k') /\
    kernel_rep k' idle (set_list (set_list L (PWait sem) (L (PWait sem) ++ [current_process k])) PReady l) G /\
    runs k' p esp /\ needs (procs k') (current_process k) = n /\
    semaphores k' = <[sem := Semaphore false (sem_count s) q]> (semaphores k).
Proof.
  intros R Es Lk Hn Hni. pose proof (current_not_idle _ _ _ _ R Hni) as Hidle.
  destruct (current_process_known _ _ _ _ R) as [Hnz [r Er]]. destruct R as [R Hc Ro Hi Hb Hcn].
  unfold semaphore_acquire. rewrite Es. cbn [of_option]. rewrite bind_ret, Lk.
  replace (n <=? sem_count s) with false by lia. set (c := current_process k) in *.
  rewrite (upd_Ret _ _ _ _ Er), bind_ret, (upd_Ret _ _ _ _ (lookup_insert_eq _ _ _)), bind_ret, insert_insert_eq.
  set (r1 := set_waiting n (set_state PROCESS_STATE_BLOCK r)). set (m1 := <[c := r1]> (procs k)).
  pose proof (lists_rep_insert k L c r r1 R Er eq_refl) as R1. fold m1 in R1.
  assert (Eq : queue_of (with_procs m1 k) (PWait sem) = Some (waiting_queue s)) by (cbn; now rewrite Es).
  pose proof (lr_queues _ _ R1 _ _ Eq) as Q. cbn [procs with_procs] in Q.
  assert (E1 : m1 !! c = Some r1) by apply lookup_insert_eq.
  destruct (push_rep m1 (waiting_queue s) (L (PWait sem)) c r1 Q) as (m2 & q2 & E2 & Q2 & Rl); auto.
  { apply (lr_apart _ _ R). } { intros Hx. apply Hc. now exists (PWait sem). }
  { eapply queue_bound; [exact Q|apply (lr_apart _ _ R)|apply (lr_small _ _ R1)]. }
  rewrite E2, bind_ret. set (k2 := with_sems m2 _ k).
  assert (Pm : L (PWait sem) ++ [c] ≡ₚ c :: L (PWait sem)) by (now rewrite Permutation_app_comm).
  assert (R2 : lists_rep k2 (set_list L (PWait sem) (L (PWait sem) ++ [c]))).
  { apply (lists_rep_push (with_procs m1 k) L (PWait sem) c m2 q2); auto.
    intros pl. exact (queue_of_sems k m2 _ sem pl). }
  assert (D2 : same_data m1 m2) by (eapply relinked_data, Rl).
  destruct (same_data_lookup _ _ _ _ D2 E1) as (r2 & Er2 & Ee2).
  destruct (leave_rep k2 idle (set_list L (PWait sem) (L (PWait sem) ++ [c])) G (active k L) regs r2) as
    (p & l & esp & k' & El & E3 & R3 & Rn & D3 & F3 & S3); auto.
  { eapply roster_ext; [| | |exact Ro]; [|reflexivity|].
    - eapply same_core_trans; [|apply same_data_core, D2]. apply same_core_insert with r; auto.
    - intros x. now rewrite set_list_ne by congruence. }
  { intros x. unfold active. fold c. symmetry. now apply queued_push. }
  rewrite set_list_ne in El by congruence. exists p, l, esp, k', q2. split_and!; auto.
  rewrite (needs_data _ _ _ D3). unfold needs. cbn [current_process k2 with_sems]. fold c. rewrite lookup_insert_eq. cbn.
  change (waiting_for_resource_count (erase r2) = n). now rewrite Ee2.
Qed.

Lemma release_rep (k : kernel E) (idle : Z) (L : lists) (G : list Z) (sem n : Z) (s : semaphore) :
  kernel_rep k idle L G -> semaphores k !! sem = Some s -> sem_lock s = false -> 0 <= sem_count s + n < 2 ^ 32 ->
  exists k' L' s' granted, semaphore_release k sem n = Ret k' /\ kernel_rep k' idle L' G /\
    current_process k' = current_process k /\ semaphores k' = <[sem := s']> (semaphores k) /\ sem_lock s' = false /\
    granted ++ L' (PWait sem) = L (PWait sem) /\ L' PReady = L PReady ++ granted /\
    sem_count s' + total_needs (procs k) granted = sem_count s + n /\
    match L' (PWait sem) with [] => True | p :: _ => sem_count s' < needs (procs k) p end.
Proof.
  intros R Es Lk Hn. unfold semaphore_release. rewrite Es. cbn [of_option]. rewrite bind_ret, Lk.
  rewrite u32_small by lia. set (s0 := Semaphore true (sem_count s + n) (waiting_queue s)).
  pose proof (kernel_rep_sem _ _ _ _ _ _ s0 R Es eq_refl) as R0.
  assert (Eq : queue_of k (PWait sem) = Some (waiting_queue s)) by (cbn; now rewrite Es).
  pose proof (lr_queues _ _ (kr_lists _ _ _ _ R) _ _ Eq) as Q.
  pose proof (release_loop_rep (S (Z.to_nat (size (waiting_queue s)))) (set_sem k sem s0) idle L G sem s0 R0
    (lookup_insert_eq _ _ _)) as Lp.
  rewrite (qr_size _ _ _ Q), Nat2Z.id in *. specialize (Lp ltac:(lia)). cbn [sem_count s0 procs set_sem with_sems] in Lp.
  pose proof (grant_spec (procs k) (sem_count s + n) (L (PWait sem))) as Gr.
  destruct (grant (procs k) (sem_count s + n) (L (PWait sem))) as [[a b] c]. destruct Gr as (Eab & Ec & Hb).
  destruct Lp as (k1 & q & E1 & R1 & D1 & Ec1 & Sm1). rewrite E1, bind_ret, Sm1, lookup_insert_eq. cbn [of_option].
  rewrite bind_ret. eexists _, _, (Semaphore false c q), a. split_and!; [reflexivity| |exact Ec1| |reflexivity|..].
  - eapply kernel_rep_sem; [exact R1|rewrite Sm1; apply lookup_insert_eq|reflexivity].
  - unfold set_sem. cbn [semaphores with_sems]. rewrite Sm1. cbn [semaphores set_sem with_sems]. now rewrite !insert_insert_eq.
  - now rewrite set_list_ne, set_list_eq by congruence.
  - now rewrite set_list_eq.
  - cbn. lia.
  - rewrite set_list_ne, set_list_eq by congruence. exact Hb.
Qed.

(** ** The semaphore's contract *)

(** Acquiring.  On an unlocked semaphore, semaphore_acquire takes [n] at
    once when the count covers it, whoever else waits, and returns to the
    caller; otherwise a caller other than the idle process joins the tail of
    the waiting queue with its request recorded, the count stays as it is, and
    the head of the ready queue runs.  Nothing faults and the state stays
    consistent. *)
Theorem acquire_spec (k : kernel E) (idle : Z) (L : lists) (G : list Z) (regs sem n : Z) (s : semaphore) :
  kernel_rep k idle L G -> semaphores k !! sem = Some s -> sem_lock s = false ->
  n <= sem_count s \/ current_process k <> idle ->
  exists esp k' L' s', semaphore_acquire k regs sem n = Ret (esp, k') /\ kernel_rep k' idle L' G /\
    semaphores k' !! sem = Some s' /\ sem_lock s' = false /\
    if n <=? sem_count s
    then esp = regs /\ L' = L /\ sem_count s' = sem_count s - n
    else exists p l, L PReady = p :: l /\ runs k' p esp /\ sem_count s' = sem_count s /\
           L' (PWait sem) = L (PWait sem) ++ [current_process k] /\ needs (procs k') (current_process k) = n.
Proof.
  intros R Es Lk Hn. destruct (Z.leb_spec n (sem_count s)) as [Hle|Hlt].
  - unfold semaphore_acquire. rewrite Es. cbn [of_option]. rewrite bind_ret, Lk.
    replace (n <=? sem_count s) with true by lia.
    eexists _, _, L, _. split_and!; [reflexivity|eapply kernel_rep_sem; eauto|apply lookup_insert_eq|reflexivity..].
  - destruct (acquire_blocks k idle L G regs sem s n R Es Lk Hlt ltac:(lia)) as (p & l & esp & k' & q & El & E1 & R' & Rn & Nd & Sm).
    eexists esp, k', _, _. split_and!; [exact E1|exact R'|rewrite Sm; apply lookup_insert_eq|reflexivity|].
    exists p, l. split_and!; auto. now rewrite set_list_ne, set_list_eq by congruence.
Qed.

(** C5: Releasing.  On an unlocked semaphore, semaphore_release adds [n] and
    then serves the waiting queue strictly from its head: it makes ready, in
    order, the longest prefix of waiters the count covers, each taking what it
    asked for.  What is left is the old count plus [n] less the granted
    requests, and the waiter now at the head, if any, asks for more than that:
    no wake-up is lost. *)
Theorem release_spec (k : kernel E) (idle : Z) (L : lists) (G : list Z) (sem n : Z) (s : semaphore) :
  kernel_rep k idle L G -> semaphores k !! sem = Some s -> sem_lock s = false -> 0 <= sem_count s + n < 2 ^ 32 ->
  exists k' L' s' granted, semaphore_release k sem n = Ret k' /\ kernel_rep k' idle L' G /\
    current_process k' = current_process k /\ semaphores k' !! sem = Some s' /\ sem_lock s' = false /\
    granted ++ L' (PWait sem) = L (PWait sem) /\ L' PReady = L PReady ++ granted /\
    sem_count s' + total_needs (procs k) granted = sem_count s + n /\
    match L' (PWait sem) with [] => True | p :: _ => sem_count s' < needs (procs k) p end.
Proof.
  intros R Es Lk Hn. destruct (release_rep k idle L G sem n s R Es Lk Hn)
    as (k' & L' & s' & granted & E1 & R' & Ec & Sm & C). exists k', L', s', granted.
  split_and!; auto; [rewrite Sm; apply lookup_insert_eq|apply C..].
Qed.
End semaphore.

(** ** Kernel steps and reachable states *)

Section reach.
Context {E : Type} `{ProcessEnv E}.

(** What can happen next: a timer tick, a system call of the running process,
    or a process being created and added. *)
Inductive op :=
  | OpTick
  | OpYield
  | OpSleep (ticks : Z)
  | OpKill (code : Z)
  | OpSpawn (p : Z) (r : process)
  | OpAttach (p : Z) (r : process)
  | OpCreate (n : Z)
  | OpAcquire (sem n : Z)
  | OpRelease (sem n : Z).

(** A process just allocated at [p]. *)
Definition created (k : kernel E) (p : Z) (r : process) : Prop :=
  p <> 0 /\ procs k !! p = None /\ id r <> 1 /\ attached_from r = 0 /\ small (<[p := r]> (procs k)).

(** The idle process neither sleeps, nor waits; semaphores are real ones and
    counts fit. *)
Definition allowed (idle : Z) (k : kernel E) (o : op) : Prop :=
  match o with
  | OpTick | OpYield | OpKill _ => True
  | OpSleep _ => current_process k <> idle
  | OpSpawn p r => created k p r
  | OpAttach p r => current_process k <> idle /\ created k p r
  | OpCreate n => semaphores k !! (env_kmalloc (env k) sizeof_semaphore).1 = None
  | OpAcquire sem n => exists s, semaphores k !! sem = Some s /\ (n <= sem_count s \/ current_process k <> idle)
  | OpRelease sem n => exists s, semaphores k !! sem = Some s /\ 0 <= sem_count s + n < 2 ^ 32
  end.

Definition run_op (k : kernel E) (regs : Z) (o : op) : outcome (kernel E) :=
  match o with
  | OpTick => '(_, k) ← scheduler_switch k regs; Ret k
  | OpYield => '(_, k) ← scheduler_to_next_process k regs true; Ret k
  | OpSleep t => '(_, k) ← scheduler_set_sleep k regs t; Ret k
  | OpKill c => '(_, k) ← scheduler_kill_process k regs c; Ret k
  | OpSpawn p r => scheduler_add_process (with_procs (<[p := r]> (procs k)) k) p
  | OpAttach p r => '(_, k) ← scheduler_attach (with_procs (<[p := r]> (procs k)) k) regs 8 p; Ret k
  | OpCreate n => Ret (semaphore_create k n).2
  | OpAcquire sem n => '(_, k) ← semaphore_acquire k regs sem n; Ret k
  | OpRelease sem n => semaphore_release k sem n
  end.

Inductive reachable (idle : Z) (k0 : kernel E) : kernel E -> Prop :=
  | reach_start : reachable idle k0 k0
  | reach_step k regs o k' : reachable idle k0 k -> allowed idle k o -> run_op k regs o = Ret k' ->
      reachable idle k0 k'.

Definition consistent (idle : Z) (k : kernel E) : Prop :=
  (exists L G, kernel_rep k idle L G) /\ forall sem s, semaphores k !! sem = Some s -> sem_lock s = false.

(** Fewer processes known to be active is a weaker claim. *)
Lemma roster_shrink m idle (act act' dead dead' : Z -> Prop) G : roster m idle act dead G ->
  (forall x, act' x -> act x) -> (forall x, dead' x <-> dead x) -> (forall x, dead' x -> act' x) -> act' idle ->
  roster m idle act' dead' G.
Proof.
  intros Ro Ha Hd Hda Hi. split; try (apply Ro; fail).
  - intros p Hp. apply (ro_live _ _ _ _ _ Ro). auto.
  - exact Hda.
  - split; [assumption|]. rewrite Hd. apply (ro_idle _ _ _ _ _ Ro).
  - intros p r Er Hp Hdp Hz. rewrite Hd in Hdp. destruct (ro_parent _ _ _ _ _ Ro p r Er Hp Hdp Hz). auto.
  - intros p p' r r' Er Er' Hp Hp' Hdp Hdp'. rewrite Hd in Hdp, Hdp'. eapply (ro_inj _ _ _ _ _ Ro); eauto.
Qed.

Lemma created_rep (k : kernel E) idle L G p r : kernel_rep k idle L G -> created k p r ->
  kernel_rep (with_procs (<[p := r]> (procs k)) k) idle L G /\ fresh (with_procs (<[p := r]> (procs k)) k) L G p r.
Proof.
  intros R (Hz & En & Hid & Ho & Sm). pose proof R as [[Q A S] Hc Ro Hi Hb Hn].
  assert (Hp : p ∉ G) by (intros Hx; destruct (roster_process _ _ _ _ _ p Ro Hx) as [_ [? Ex]]; congruence).
  assert (Lk : forall x, x ∈ G -> <[p := r]> (procs k) !! x = procs k !! x)
    by (intros x Hx; apply lookup_insert_ne; intros ->; contradiction).
  split; [split; auto|split; auto; apply lookup_insert_eq].
  - split; auto. intros pl q Eq. eapply queue_rep_ext; [|eapply Q; exact Eq]. intros x Hx. apply next_insert_ne.
    intros ->. apply Hp, (ro_live _ _ _ _ _ Ro). right. now exists pl.
  - cbn [procs with_procs]. destruct Ro. split; auto; try (intros x y Hx Hy; rewrite Lk in Hx by assumption; eauto).
    + eapply dll_ext; [|eassumption]. intros x Hx. unfold same_glinks. now rewrite Lk.
    + intros x y rx ry Ex Ey Hx Hy. rewrite Lk in Ex, Ey by assumption. eauto.
Qed.

Lemma create_rep (k : kernel E) idle L G p n e : kernel_rep k idle L G -> semaphores k !! p = None ->
  kernel_rep (semaphore_init (with_env (procs k) e k) p n) idle (set_list L (PWait p) []) G.
Proof.
  intros [[Q A S] Hc Ro Hi Hb Hn] En.
  assert (Sub : forall x, queued (set_list L (PWait p) []) x -> queued L x).
  { intros x [pl Hx]. unfold set_list in Hx. destruct (decide (pl = PWait p)); [now apply elem_of_nil in Hx|now exists pl]. }
  split; auto.
  - split; [| |exact S].
    + intros pl q Eq. unfold semaphore_init, set_sem in Eq. rewrite queue_of_sems in Eq. unfold set_queue in Eq.
      unfold set_list. destruct (decide (pl = PWait p)) as [->|]; [|exact (Q pl q Eq)].
      injection Eq as <-. split; [reflexivity|congruence|reflexivity|exact I].
    + destruct A as [N D]. split; intros; unfold set_list in *; repeat case_decide; subst; try constructor; auto;
        try (match goal with Hx : _ ∈ [] |- _ => now apply elem_of_nil in Hx end); eauto.
  - eapply (roster_shrink (procs k) idle (active k L)); [exact Ro| | | |].
    + intros x [->|Hx]; [now left|right; auto].
    + intros x. now rewrite set_list_ne by congruence.
    + intros x Hx. right. exists PDead. exact Hx.
    + unfold active. destruct Hi as [Hi|Hi]; [now left|right]. exists PReady. now rewrite set_list_ne by congruence.
Qed.

Lemma step_safe idle (k : kernel E) regs o : consistent idle k -> allowed idle k o ->
  exists k', run_op k regs o = Ret k' /\ consistent idle k'.
Proof.
  intros [(L & G & R) Lk] Al. destruct o as [| |t|c|p r|p r|n|sem n|sem n]; cbn [run_op allowed] in *.
  - destruct (current_process_known _ _ _ _ R) as [_ [r Er]].
    destruct (tick_rep k idle L G regs r R Er) as (esp & k' & L' & G' & E1 & R' & _ & Sm & _).
    rewrite E1. exists k'. split; [reflexivity|]. split; [eauto|]. now rewrite Sm.
  - destruct (yield_rep k idle L G regs R) as (p & l & esp & k' & r & _ & _ & E1 & R' & _ & _ & _ & Sm).
    rewrite E1. exists k'. split; [reflexivity|]. split; [eauto|]. now rewrite Sm.
  - destruct (sleep_rep k idle L G regs t R Al) as (p & l & esp & k' & r & _ & _ & M). cbv zeta in M.
    destruct M as (E1 & R' & _ & _ & _ & Sm). rewrite E1. exists k'. split; [reflexivity|]. split; [eauto|]. now rewrite Sm.
  - destruct (decide (current_process k = idle)) as [Ei|Ni].
    + rewrite (kill_idle k idle L G regs c R Ei). exists k. split; [reflexivity|]. split; eauto.
    + destruct (kill_rep k idle L G regs c R Ni) as (p & l & esp & k' & r & _ & M). cbv zeta in M.
      destruct M as (_ & E1 & R' & _ & _ & Sm). rewrite E1. exists k'. split; [reflexivity|]. split; [eauto|]. now rewrite Sm.
  - destruct (created_rep k idle L G p r R Al) as [R0 F].
    destruct (add_process_rep _ idle L G p r R0 F) as (k' & E1 & R' & Sm).
    rewrite E1. exists k'. split; [reflexivity|]. split; [eauto|]. now rewrite Sm.
  - destruct Al as [Ni Cr]. destruct (created_rep k idle L G p r R Cr) as [R0 F].
    destruct (attach_rep _ idle L G p r regs 8 R0 F eq_refl Ni) as (q & l & esp & k' & _ & E1 & R' & _ & Sm & _).
    rewrite E1. exists k'. split; [reflexivity|]. split; [eauto|]. now rewrite Sm.
  - eexists. split; [reflexivity|]. unfold semaphore_create. destruct (env_kmalloc _ _) as [p e]. cbn [fst snd] in *.
    destruct (p =? 0); cbn [snd].
    + split; [|exact Lk]. exists L, G. destruct R as [[? ? ?] ? ? ? ? ?]. split; auto. split; auto.
    + split; [exists (set_list L (PWait p) []), G; now apply create_rep|].
      intros sem s. cbn. destruct (decide (p = sem)) as [<-|]; [rewrite lookup_insert_eq; now intros [= <-]|].
      rewrite lookup_insert_ne by assumption. apply Lk.
  - destruct Al as (s & Es & Hn). destruct (Z.leb_spec n (sem_count s)) as [Hle|Hlt].
    + unfold semaphore_acquire. rewrite Es. cbn [of_option]. rewrite bind_ret, (Lk _ _ Es).
      replace (n <=? sem_count s) with true by lia. eexists. split; [reflexivity|].
      split; [exists L, G; eapply kernel_rep_sem; eauto|]. intros sem' s' Hs'. cbn in Hs'.
      destruct (decide (sem = sem')) as [<-|]; [rewrite lookup_insert_eq in Hs'; now injection Hs' as <-|].
      rewrite lookup_insert_ne in Hs' by assumption. eauto.
    + destruct (acquire_blocks k idle L G regs sem s n R Es (Lk _ _ Es) Hlt ltac:(lia)) as
        (p & l & esp & k' & q & _ & E1 & R' & _ & _ & Sm).
      rewrite E1. exists k'. split; [reflexivity|]. split; [eauto|]. intros sem' s'. rewrite Sm.
      destruct (decide (sem = sem')) as [<-|]; [rewrite lookup_insert_eq; now intros [= <-]|].
      rewrite lookup_insert_ne by assumption. eauto.
  - destruct Al as (s & Es & Hn). destruct (release_rep k idle L G sem n s R Es (Lk _ _ Es) Hn) as
      (k' & L' & s' & granted & E1 & R' & _ & Sm & Lk' & _).
    exists k'. split; [exact E1|]. split; [eauto|]. intros sem2 s2. rewrite Sm.
    destruct (decide (sem = sem2)) as [<-|]; [rewrite lookup_insert_eq; now intros [= <-]|].
    rewrite lookup_insert_ne by assumption. eauto.
Qed.

Lemma reachable_consistent idle (k0 k : kernel E) : consistent idle k0 -> reachable idle k0 k -> consistent idle k.
Proof.
  intros C0 R. induction R as [|k regs o k' R IH Al E1]; [assumption|].
  destruct (step_safe idle k regs o IH Al) as (k2 & E2 & C2). congruence.
Qed.

(** scheduler_init makes the kernel state consistent. *)
Lemma init_rep (k : kernel E) (idle : Z) (r : process) :
  procs k = {[ idle := r ]} -> idle <> 0 -> id r = 1 -> attached_from r = 0 ->
  ready_queue k = PROCESS_QUEUE_INIT -> sleep_queue k = PROCESS_QUEUE_INIT -> delete_queue k = PROCESS_QUEUE_INIT ->
  semaphores k = ∅ ->
  exists k', scheduler_init k idle = Ret k' /\ kernel_rep k' idle (fun _ => []) [idle] /\ semaphores k' = ∅.
Proof.
  intros Ep Hz Hid Ho Q1 Q2 Q3 Q4. unfold scheduler_init. rewrite Ep.
  rewrite (upd_Ret _ _ _ _ (lookup_singleton_eq idle r)), bind_ret, (upd_Ret _ _ _ _ (lookup_insert_eq _ _ _)), bind_ret,
    (upd_Ret _ _ _ _ (lookup_insert_eq _ _ _)), bind_ret, !insert_insert_eq.
  set (r1 := set_global_prev 0 _). set (m1 := <[idle := r1]> _).
  assert (Em : m1 !! idle = Some r1) by apply lookup_insert_eq.
  eexists. split; [reflexivity|].
  assert (Emp : queue_rep m1 PROCESS_QUEUE_INIT []) by (split; [reflexivity|congruence|reflexivity|exact I]).
  assert (Only : forall p, p ∈ [idle] <-> p = idle) by (intros; apply list_elem_of_singleton).
  split; [|exact Q4].
  assert (Nq : forall p, ~ queued (fun _ => []) p) by (intros p [pl Hp]; now apply elem_of_nil in Hp).
  split.
  - split; [|split; [constructor|intros p pl pl' Hp; now apply elem_of_nil in Hp]|].
    + intros pl q. destruct pl; cbn; rewrite ?Q1, ?Q2, ?Q3, ?Q4; intros [= <-]; exact Emp.
    + unfold small. cbn [procs with_global]. unfold m1. rewrite insert_singleton_eq, map_size_singleton. lia.
  - apply Nq.
  - split; cbn [procs with_global].
    + intros p [->|Hp]; [now apply Only|now apply Nq in Hp].
    + intros p Hp. now apply elem_of_nil in Hp.
    + cbn. split_and!; auto. exists r1. auto.
    + reflexivity.
    + apply NoDup_singleton.
    + intros p r' Er' ->%Only. split; [auto|intros _]. rewrite Em in Er'. injection Er' as <-. exact Hid.
    + split; [now left|]. apply not_elem_of_nil.
    + intros p r' Er' ->%Only _. rewrite Em in Er'. injection Er' as <-. cbn. rewrite Ho. congruence.
    + intros p p' r' r2 _ _ ->%Only ->%Only. auto.
  - left. reflexivity.
  - reflexivity.
  - reflexivity.
Qed.

(** C1: No reachable kernel state is stuck.  From the state scheduler_init
    builds around the idle process, after any sequence of timer ticks, yields,
    sleeps, kills, spawns, attaches and semaphore operations, each allowed where
    it happens (the idle process never sleeps or waits), every further allowed
    operation returns: no NULL or freed process is ever followed, no queue walk
    runs out of budget, no lock is found taken, and there is always a process
    to run. *)
Theorem reachable_never_stuck (k0 k : kernel E) (idle : Z) (r : process) (o : op) (regs : Z) :
  procs k0 = {[ idle := r ]} -> idle <> 0 -> id r = 1 -> attached_from r = 0 ->
  ready_queue k0 = PROCESS_QUEUE_INIT -> sleep_queue k0 = PROCESS_QUEUE_INIT -> delete_queue k0 = PROCESS_QUEUE_INIT ->
  semaphores k0 = ∅ ->
  forall k1, scheduler_init k0 idle = Ret k1 -> reachable idle k1 k -> allowed idle k o ->
  exists k', run_op k regs o = Ret k' /\ reachable idle k1 k' /\
    exists p, procs k' !! current_process k' = Some p.
Proof.
  intros Ep Hz Hid Ho Q1 Q2 Q3 Q4 k1 E1 Rk Al.
  destruct (init_rep k0 idle r Ep Hz Hid Ho Q1 Q2 Q3 Q4) as (k1' & E1' & R1 & Sm1). rewrite E1 in E1'. injection E1' as <-.
  assert (C1 : consistent idle k1).
  { split; [eauto|]. intros sem s Hs. rewrite Sm1 in Hs. now rewrite lookup_empty in Hs. }
  pose proof (reachable_consistent _ _ _ C1 Rk) as C. destruct (step_safe idle k regs o C Al) as (k' & E2 & C2).
  exists k'. split_and!; [exact E2|eapply reach_step; eauto|]. destruct C2 as [(L & G & R) _].
  destruct (current_process_known _ _ _ _ R) as [_ [p Hp]]. eauto.
Qed.
End reach.

(** ** A concrete kernel

    The idle process at 0x100, two more at 0x200 and 0x300 and a semaphore at
    0x900, over an environment that does nothing. *)
Module Runs.
#[local] Instance no_env : ProcessEnv unit := {
  env_free_page_directory e _ := e;
  env_kfree e _ := e;
  env_release_node e _ := e;
  env_kmalloc e _ := (0x900, e);
}.

Definition proc (i : Z) : process :=
  Process i PROCESS_STATE_READY 0 0 0x1000 false 0 0 0x8000 (0x8000 + i) 0x9000 0 0xA000 [] 0 0 0 0.

Definition k0 : kernel unit :=
  Kernel {[ 0x100 := proc 1 ]} PROCESS_QUEUE_INIT PROCESS_QUEUE_INIT PROCESS_QUEUE_INIT 0 0 0 0 ∅ 0x1000 0 tt.

Definition out {A} (d : A) (o : outcome A) : A := match o with Ret a => a | _ => d end.

Definition k1 : kernel unit := out k0 (scheduler_init k0 0x100).
Definition spawned (k : kernel unit) (p i : Z) : kernel unit :=
  out k (scheduler_add_process (with_procs (<[p := proc i]> (procs k)) k) p).
Definition k3 : kernel unit := (semaphore_create (spawned (spawned k1 0x200 2) 0x300 3) 2).2.
Definition k4 : kernel unit := (out (0, k3) (scheduler_to_next_process k3 0x7000 true)).2.

Definition L3 : lists := set_list (set_list (set_list (fun _ => []) PReady [0x200]) PReady [0x200; 0x300]) (PWait 0x900) [].
Definition L4 : lists := set_list L3 PReady [0x300; 0x100].
Definition G3 : list Z := [0x100; 0x200; 0x300].

Lemma k1_rep : kernel_rep k1 0x100 (fun _ => []) [0x100].
Proof.
  destruct (init_rep k0 0x100 (proc 1)) as (k' & E1 & R & _); try reflexivity; [discriminate|].
  unfold k1. rewrite E1. exact R.
Qed.

Lemma spawned_rep k L G p i : kernel_rep k 0x100 L G -> created k p (proc i) ->
  kernel_rep (spawned k p i) 0x100 (set_list L PReady (L PReady ++ [p])) (G ++ [p]).
Proof.
  intros R C. destruct (created_rep k 0x100 L G p (proc i) R C) as [R0 F].
  destruct (add_process_rep _ _ _ _ _ _ R0 F) as (k' & E1 & R1 & _). unfold spawned. rewrite E1. exact R1.
Qed.

Lemma created_sem_rep k L G n : kernel_rep k 0x100 L G -> semaphores k !! 0x900 = None ->
  kernel_rep (semaphore_create k n).2 0x100 (set_list L (PWait 0x900) []) G.
Proof.
  intros R En. pose proof (create_rep k 0x100 L G 0x900 n (env k) R En) as R1. unfold semaphore_create.
  cbn [env_kmalloc no_env]. exact R1.
Qed.

Lemma k3_rep : kernel_rep k3 0x100 L3 G3.
Proof.
  assert (R2 : kernel_rep (spawned k1 0x200 2) 0x100 (set_list (fun _ => []) PReady [0x200]) [0x100; 0x200]).
  { apply (spawned_rep k1 (fun _ => []) [0x100] 0x200 2 k1_rep). unfold created, small. by_eval. }
  assert (R3 := spawned_rep _ _ _ 0x300 3 R2). rewrite set_list_eq in R3. cbn [app] in R3.
  apply created_sem_rep; [apply R3; unfold created, small; by_eval|by_eval].
Qed.

Lemma k4_rep : kernel_rep k4 0x100 L4 G3.
Proof.
  destruct (yield_rep k3 0x100 L3 G3 0x7000 k3_rep) as (p & l & esp & k' & r & El & _ & E1 & R & _).
  unfold k4. rewrite E1. cbn [out snd]. vm_compute in El. injection El as <- <-. exact R.
Qed.

Lemma yield_round_robin_witness : exists esp k', scheduler_to_next_process k3 0x7000 true = Ret (esp, k') /\
  current_process k' = 0x200.
Proof.
  destruct (yield_round_robin k3 0x100 L3 G3 0x7000 k3_rep) as (p & l & esp & k' & El & E1 & _ & Rn & _).
  exists esp, k'. split; [exact E1|]. rewrite (rn_current _ _ _ Rn). vm_compute in El. now injection El as <- _.
Defined.

(** The first tick of the process at 0x200 only counts it. *)
Lemma tick_spec_witness : exists k', scheduler_switch k4 0x6000 = Ret (0x6000, k') /\ current_process k' = 0x200.
Proof.
  destruct (tick_spec k4 0x100 L4 G3 0x6000 (default (proc 0) (procs k4 !! 0x200)) k4_rep)
    as (esp & k' & L' & G' & E1 & R & _ & C); [by_eval|].
  replace (_ =? 0) with false in C by by_eval. destruct C as (Ec & -> & EL).
  exists k'. split; [exact E1|]. rewrite Ec. by_eval.
Defined.

Lemma sleep_spec_witness : exists esp k', scheduler_set_sleep k4 0x6000 5 = Ret (esp, k') /\
  current_process k' = 0x300 /\ wakes_at (procs k') 0x200 = 5.
Proof.
  destruct (sleep_spec k4 0x100 L4 G3 0x6000 5 k4_rep) as (p & l & esp & k' & L' & El & E1 & _ & Rn & Wk & _); [by_eval|].
  exists esp, k'. split; [exact E1|]. rewrite (rn_current _ _ _ Rn). vm_compute in El. injection El as <- _.
  split; [reflexivity|exact Wk].
Defined.

Lemma kill_spec_witness : exists esp k', scheduler_kill_process k4 0x6000 1 = Ret (esp, k') /\
  current_process k' = 0x300.
Proof.
  destruct (kill_spec k4 0x100 L4 G3 0x6000 1 (default (proc 0) (procs k4 !! 0x200)) k4_rep)
    as (p & l & esp & k' & L' & El & E1 & _ & Rn & _); [by_eval|by_eval|].
  exists esp, k'. split; [exact E1|]. rewrite (rn_current _ _ _ Rn). vm_compute in El. now injection El as <- _.
Defined.

(** Three units are more than the semaphore has: the caller blocks. *)
Definition k5 : kernel unit := (out (0, k4) (semaphore_acquire k4 0x6000 0x900 3)).2.

Lemma acquire_spec_witness : exists esp k', semaphore_acquire k4 0x6000 0x900 3 = Ret (esp, k') /\
  current_process k' = 0x300 /\ needs (procs k') 0x200 = 3.
Proof.
  destruct (acquire_spec k4 0x100 L4 G3 0x6000 0x900 3 (Semaphore false 2 PROCESS_QUEUE_INIT) k4_rep)
    as (esp & k' & L' & s' & E1 & _ & _ & _ & C); [by_eval|by_eval|right; by_eval|].
  destruct C as (p & l & El & Rn & _ & _ & Nd).
  exists esp, k'. split; [exact E1|]. rewrite (rn_current _ _ _ Rn). vm_compute in El. injection El as <- _.
  split; [reflexivity|exact Nd].
Defined.

Lemma k5_rep : exists L, kernel_rep k5 0x100 L G3 /\ L (PWait 0x900) = [0x200].
Proof.
  destruct (acquire_blocks k4 0x100 L4 G3 0x6000 0x900 (Semaphore false 2 PROCESS_QUEUE_INIT) 3 k4_rep)
    as (p & l & esp & k' & q & El & E1 & R & _); [by_eval|reflexivity|by_eval|by_eval|].
  unfold k5. rewrite E1. eexists. split; [exact R|]. rewrite set_list_ne, set_list_eq by congruence. by_eval.
Qed.

(** Releasing two units serves it. *)
Lemma release_spec_witness : exists k' s', semaphore_release k5 0x900 2 = Ret k' /\
  semaphores k' !! 0x900 = Some s' /\ sem_count s' = 1.
Proof.
  destruct k5_rep as (L & R & Ew).
  destruct (release_spec k5 0x100 L G3 0x900 2 (default (Semaphore true 0 PROCESS_QUEUE_INIT) (semaphores k5 !! 0x900)) R)
    as (k' & L' & s' & gr & E1 & _ & _ & Es & _ & Ea & _ & Ec & Hd); [by_eval|by_eval|vm_compute; split; congruence|].
  exists k', s'. split_and!; [exact E1|exact Es|]. rewrite Ew in Ea.
  replace (sem_count (default _ _) + 2) with 4 in Ec by by_eval.
  destruct gr as [|g gr]; cbn [app] in Ea.
  - rewrite Ea in Hd. replace (needs _ _) with 3 in Hd by by_eval. cbn [total_needs foldr] in Ec. clear - Hd Ec. lia.
  - injection Ea as -> Ea. apply app_eq_nil in Ea as [-> _]. unfold total_needs in Ec. cbn [foldr] in Ec.
    assert (Ew3 : needs (procs k5) 0x200 = 3) by by_eval. rewrite Ew3 in Ec. clear -Ec. lia.
Defined.

(** From scheduler_init: a second process is spawned, and the idle process
    yields to it. *)
Lemma reachable_never_stuck_witness : exists k', run_op (spawned k1 0x200 2) 0x7000 OpYield = Ret k' /\
  reachable 0x100 k1 k' /\ exists p, procs k' !! current_process k' = Some p.
Proof.
  apply (reachable_never_stuck k0 (spawned k1 0x200 2) 0x100 (proc 1) OpYield 0x7000);
    try (by_eval || discriminate).
  apply (reach_step 0x100 k1 k1 0 (OpSpawn 0x200 (proc 2))); [apply reach_start| |by_eval].
  unfold allowed, created, small. by_eval.
Defined.
End Runs.
