(* ===== verification/CString.v ===== *)
(** * Strings and memory blocks (libc/src/string, libc/src/ctype)

    The string functions over byte-addressed memory.  [bytes m p l] says that
    the bytes from [p] on are [l], [cstr m p l] that [p] points to the string
    [l], terminated.  Addresses are not wrapped: a buffer does not straddle the
    end of the address space.  The contracts are stated on lists of bytes, with
    a frame: what a function does not write it leaves alone. *)
From S2P Require Import Prelude Mem.

(** ** The functions *)

Definition isprint (c : Z) : bool := (32 <=? c) && (c <=? 126).

(** [char] is signed on the target. *)
Definition toupper (chr : Z) : Z :=
  let is_lower := Z.b2z ((97 <=? chr) && (chr <=? 122)) in
  s8 (chr - 32 * is_lower).

Fixpoint memcmp_from (m : mem) (a b i : Z) (n : nat) : Z :=
  match n with
  | O => 0
  | S n' =>
      if load8 m (a + i) <? load8 m (b + i) then -1
      else if load8 m (b + i) <? load8 m (a + i) then 1
      else memcmp_from m a b (i + 1) n'
  end.
Definition memcmp (m : mem) (a b size : Z) : Z := memcmp_from m a b 0 (Z.to_nat size).

Definition copy_byte (dst src i : Z) (m : mem) : mem := store8 m (dst + i) (load8 m (src + i)).

Definition memcpy (m : mem) (dst src size : Z) : mem := for_range (copy_byte dst src) 0 (Z.to_nat size) m.

(** The second branch counts down. *)
Definition memmove (m : mem) (dst src size : Z) : mem :=
  if dst <? src then for_range (copy_byte dst src) 0 (Z.to_nat size) m
  else for_range (fun i => copy_byte dst src (size - 1 - i)) 0 (Z.to_nat size) m.

Definition memset (m : mem) (buf value size : Z) : mem := for_range (fun i m => store8 m (buf + i) value) 0 (Z.to_nat size) m.

Definition strlen (m : mem) (str : Z) : outcome Z :=
  while (fun len => Ret (if load8 m (str + len) =? 0 then inr len else inl (u32 (len + 1)))) 0.

(** The loop that copies a byte, advances both pointers and ends after a 0. *)
Definition copy_step '(m, d, src) : outcome ((mem * Z * Z) + (mem * Z * Z)) :=
  let m' := store8 m d (load8 m src) in
  Ret (if load8 m' d =? 0 then inr (m', d + 1, src + 1) else inl (m', d + 1, src + 1)).
Definition copy_string : mem * Z * Z -> outcome (mem * Z * Z) := while copy_step.

Definition strcpy (m : mem) (dst src : Z) : outcome mem := '(m, _, _) ← copy_string (m, dst, src); Ret m.

Definition strcat (m : mem) (dst src : Z) : outcome mem :=
  d ← while (fun d => Ret (if load8 m d =? 0 then inr d else inl (d + 1))) dst;
  '(m, _, _) ← copy_string (m, d, src); Ret m.

Definition strcmp_step (m : mem) '(p1, p2) : outcome ((Z * Z) + (Z * Z)) :=
  Ret (if negb (load8 m p1 =? 0) && (load8 m p1 =? load8 m p2) then inl (p1 + 1, p2 + 1) else inr (p1, p2)).
Definition strcmp (m : mem) (str1 str2 : Z) : outcome Z :=
  '(p1, p2) ← while (strcmp_step m) (str1, str2);
  Ret (load8 m p1 - load8 m p2).

Definition strcmp_case_insensitive (m : mem) (str1 str2 : Z) : outcome Z :=
  '(p1, p2) ← while (fun '(p1, p2) =>
    Ret (if negb (load8 m p1 =? 0) && negb (load8 m p2 =? 0) &&
            (toupper (s8 (load8 m p1)) =? toupper (s8 (load8 m p2)))
         then inl (p1 + 1, p2 + 1) else inr (p1, p2)))
    (str1, str2);
  Ret (toupper (s8 (load8 m p1)) - toupper (s8 (load8 m p2))).

Fixpoint strncmp_from (m : mem) (str1 str2 : Z) (n : nat) : Z :=
  match n with
  | O => 0
  | S n' =>
      if negb (load8 m str1 =? load8 m str2) then load8 m str1 - load8 m str2
      else if load8 m str1 =? 0 then 0
      else strncmp_from m (str1 + 1) (str2 + 1) n'
  end.
Definition strncmp (m : mem) (str1 str2 n : Z) : Z := strncmp_from m str1 str2 (Z.to_nat n).

Definition swap_bytes (str len i : Z) (m : mem) : mem :=
  let temp := load8 m (str + i) in
  let m := store8 m (str + i) (load8 m (str + (len - i - 1))) in
  store8 m (str + (len - i - 1)) temp.

Definition strrev (m : mem) (str : Z) : outcome mem :=
  len ← strlen m str;
  Ret (for_range (swap_bytes str len) 0 (Z.to_nat (len / 2)) m).

(** Is the byte [c] one of the delimiters?  The loop of strtok_r over
    [delimiters], run twice there. *)
Definition delimiter_step (m : mem) (delimiters c i : Z) : outcome (Z + bool) :=
  let d := load8 m (delimiters + i) in
  Ret (if d =? 0 then inr false else if c =? d then inr true else inl (i + 1)).
Definition is_delimiter (m : mem) (delimiters c : Z) : outcome bool := while (delimiter_step m delimiters c) 0.

Definition skip_step (m : mem) (delimiters token : Z) : outcome (Z + Z) :=
  if load8 m token =? 0 then Ret (inr token)
  else b ← is_delimiter m delimiters (load8 m token); Ret (if b : bool then inl (token + 1) else inr token).
Definition skip_delimiters (m : mem) (delimiters : Z) : Z -> outcome Z := while (skip_step m delimiters).

(** The position of the first delimiter from [token] on, or of the end. *)
Definition find_step (m : mem) (delimiters token pos : Z) : outcome (Z + Z * bool) :=
  if load8 m (token + pos) =? 0 then Ret (inr (pos, false))
  else b ← is_delimiter m delimiters (load8 m (token + pos)); Ret (if b : bool then inr (pos, true) else inl (pos + 1)).
Definition find_delimiter (m : mem) (delimiters token : Z) : outcome (Z * bool) :=
  while (find_step m delimiters token) 0.

(** Returns the token (0 for NULL), the new [*token_ptr] and memory. *)
Definition strtok_r (m : mem) (str delimiters token_ptr : Z) : outcome (Z * Z * mem) :=
  let token := if str =? 0 then token_ptr else str in
  if (str =? 0) && ((token =? 0) || (load8 m token =? 0)) then Ret (0, token, m)
  else
    token ← skip_delimiters m delimiters token;
    if load8 m token =? 0 then Ret (0, token, m)
    else
      '(pos, found) ← find_delimiter m delimiters token;
      if found : bool then Ret (token, token + (pos + 1), store8 m (token + pos) 0)
      else Ret (token, token + pos, m).

(** strtok keeps its position in a static variable, [p]. *)
Definition strtok (m : mem) (str delimiters p : Z) : outcome (Z * Z * mem) := strtok_r m str delimiters p.

(** ** Blocks of bytes *)

Definition bytes (m : mem) (p : Z) (l : list Z) : Prop :=
  forall i b, l !! i = Some b -> load8 m (p + Z.of_nat i) = b.

(** [l] is in bytes, none of them 0. *)
Definition text (l : list Z) : Prop := Forall (fun b => 0 < b < 256) l.

Record cstr (m : mem) (p : Z) (l : list Z) : Prop := {
  cs_text : text l;
  cs_bytes : bytes m p l;
  cs_end : load8 m (p + Z.of_nat (length l)) = 0;
}.

(** The blocks [p, p+n) and [q, q+k) do not overlap. *)
Definition disjoint (p n q k : Z) : Prop := p + n <= q \/ q + k <= p.

Lemma bytes_nil m p : bytes m p [].
Proof. intros i b. now rewrite lookup_nil. Qed.

Lemma bytes_cons m p b l : bytes m p (b :: l) <-> load8 m p = b /\ bytes m (p + 1) l.
Proof.
  split.
  - intros H. split; [rewrite <- (H 0%nat b eq_refl); f_equal; lia|]. intros i x Hx.
    rewrite <- (H (S i) x Hx). f_equal. lia.
  - intros [Hb Hl] [|i] x Hx; [injection Hx as <-; rewrite <- Hb; f_equal; lia|].
    rewrite <- (Hl i x Hx). f_equal. lia.
Qed.

Lemma bytes_app m p l k : bytes m p (l ++ k) <-> bytes m p l /\ bytes m (p + Z.of_nat (length l)) k.
Proof.
  revert p. induction l as [|b l IH]; intros p; cbn [app length].
  - replace (p + Z.of_nat 0) with p by lia. split; [split; [apply bytes_nil|auto]|tauto].
  - rewrite !bytes_cons, IH. replace (p + 1 + Z.of_nat (length l)) with (p + Z.of_nat (S (length l))) by lia. tauto.
Qed.

Lemma bytes_frame m m' p l : (forall i, (i < length l)%nat -> load8 m' (p + Z.of_nat i) = load8 m (p + Z.of_nat i)) ->
  bytes m p l -> bytes m' p l.
Proof. intros F B i b Hb. rewrite F by (eapply lookup_lt_Some; eauto). eauto. Qed.

Lemma cstr_nil m p : cstr m p [] <-> load8 m p = 0.
Proof.
  split; [intros [_ _ E]; rewrite <- E; cbn; f_equal; lia|]. intros E. split; [constructor|apply bytes_nil|].
  rewrite <- E. cbn. f_equal. lia.
Qed.

Lemma cstr_cons m p b l : cstr m p (b :: l) <-> 0 < b < 256 /\ load8 m p = b /\ cstr m (p + 1) l.
Proof.
  split.
  - intros [[? ?]%Forall_cons B E]. apply bytes_cons in B as [? ?]. split_and!; auto; try lia. split; auto.
    rewrite <- E. cbn. f_equal. lia.
  - intros (? & ? & [T B E]). split; [constructor; auto|apply bytes_cons; auto|]. rewrite <- E. cbn. f_equal. lia.
Qed.

(** What a string is in memory determines it. *)
Lemma cstr_inj m p l l' : cstr m p l -> cstr m p l' -> l = l'.
Proof.
  revert p l'. induction l as [|b l IH]; intros p [|b' l'] C C'; [reflexivity| | |];
    rewrite ?cstr_nil, ?cstr_cons in *; destruct_and?; try lia. f_equal; [lia|eauto].
Qed.

(** ** Simple loops *)

Lemma strlen_spec m p l : cstr m p l -> Z.of_nat (length l) < 2 ^ 32 -> strlen m p = Ret (Z.of_nat (length l)).
Proof.
  intros C Hl. unfold strlen. eapply (while_loop _ (S (length l))); [|discriminate|lia].
  enough (G : forall k l' , cstr m (p + k) l' -> 0 <= k -> k + Z.of_nat (length l') < 2 ^ 32 ->
    loop (fun len => Ret (if load8 m (p + len) =? 0 then inr len else inl (u32 (len + 1)))) (S (length l')) k =
    Ret (k + Z.of_nat (length l'))).
  { apply (G 0 l); try lia. now rewrite Z.add_0_r. }
  clear C Hl l. intros k l. revert k. induction l as [|b l IH]; intros k C Hk Hl.
  - apply cstr_nil in C. cbn. rewrite C. cbn. f_equal. lia.
  - apply cstr_cons in C as (Hb & E & C). cbn [length] in *. rewrite loop_S, E.
    replace (b =? 0) with false by lia. rewrite bind_ret. cbv beta iota.
    rewrite u32_small by lia. rewrite IH by (try replace (p + (k + 1)) with (p + k + 1) by lia; auto; lia).
    f_equal. lia.
Qed.

(** ** Copying *)

Lemma copy_up_spec m dst src n : (dst <= src \/ src + Z.of_nat n <= dst) -> forall a,
  load8 (for_range (copy_byte dst src) 0 n m) a =
  if (dst <=? a) && (a <? dst + Z.of_nat n) then load8 m (src + (a - dst)) else load8 m a.
Proof.
  intros D. induction n as [|n IH]; intros a; [cbn; case_test; auto; lia|].
  rewrite for_range_last. unfold copy_byte at 1. rewrite load8_store8, Z.add_0_l, !IH by lia.
  destruct (Z.eqb_spec (dst + Z.of_nat n) a) as [<-|Na].
  - repeat case_test; try clia. rewrite u8_small by apply load8_range. f_equal. lia.
  - repeat case_test; auto; lia.
Qed.

Lemma copy_down_spec m dst src size n : src <= dst -> Z.of_nat n <= size -> forall a,
  load8 (for_range (fun i => copy_byte dst src (size - 1 - i)) 0 n m) a =
  if (dst + size - Z.of_nat n <=? a) && (a <? dst + size) then load8 m (src + (a - dst)) else load8 m a.
Proof.
  intros D. induction n as [|n IH]; intros Hn a; [cbn; case_test; auto; lia|].
  rewrite for_range_last. unfold copy_byte at 1. rewrite load8_store8, Z.add_0_l, !IH by lia.
  destruct (Z.eqb_spec (dst + (size - 1 - Z.of_nat n)) a) as [<-|Na].
  - repeat case_test; try clia. rewrite u8_small by apply load8_range. f_equal. lia.
  - repeat case_test; auto; lia.
Qed.

(** Overlapping or not, memmove moves the block: afterwards the destination
    holds what the source held, and nothing else has changed. *)
Lemma memmove_load m dst src size a : 0 <= size -> load8 (memmove m dst src size) a =
  if (dst <=? a) && (a <? dst + size) then load8 m (src + (a - dst)) else load8 m a.
Proof.
  intros Hs. unfold memmove. case_test.
  - rewrite copy_up_spec by lia. now rewrite Z2Nat.id.
  - rewrite copy_down_spec by lia. rewrite Z2Nat.id by lia. now replace (dst + size - size) with dst by lia.
Qed.

Lemma memcpy_load m dst src size a : 0 <= size -> disjoint dst size src size -> load8 (memcpy m dst src size) a =
  if (dst <=? a) && (a <? dst + size) then load8 m (src + (a - dst)) else load8 m a.
Proof. intros Hs [D|D]; unfold memcpy; rewrite copy_up_spec, ?Z2Nat.id by lia; reflexivity. Qed.

Lemma memset_load m buf value size a : 0 <= size -> load8 (memset m buf value size) a =
  if (buf <=? a) && (a <? buf + size) then u8 value else load8 m a.
Proof.
  intros Hs. rewrite <- (Z2Nat.id size) at 2 by exact Hs. unfold memset. clear Hs. generalize (Z.to_nat size). intros n.
  induction n as [|n IH]; [cbn; case_test; auto; lia|]. rewrite for_range_last, load8_store8, IH.
  destruct (Z.eqb_spec (buf + (0 + Z.of_nat n)) a); repeat case_test; auto; lia.
Qed.

Lemma moved_bytes m m' dst src l : (forall a, dst <= a < dst + Z.of_nat (length l) ->
  load8 m' a = load8 m (src + (a - dst))) -> bytes m src l -> bytes m' dst l.
Proof.
  intros F B i b Hb. pose proof (lookup_lt_Some _ _ _ Hb). rewrite F by lia. rewrite <- (B i b Hb). f_equal. lia.
Qed.

(** memmove moves a block whatever the overlap: the destination holds
    afterwards the bytes the source held before, and no byte outside the
    destination changes. *)
Lemma memmove_spec (m : mem) (dst src : Z) (l : list Z) :
  bytes m src l ->
  let m' := memmove m dst src (Z.of_nat (length l)) in
  bytes m' dst l /\ forall a, ~ (dst <= a < dst + Z.of_nat (length l)) -> load8 m' a = load8 m a.
Proof.
  intros B m'. split.
  - eapply moved_bytes; [|exact B]. intros a Ha. unfold m'. rewrite memmove_load by lia.
    now replace (_ && _) with true by lia.
  - intros a Ha. unfold m'. rewrite memmove_load by lia. now replace (_ && _) with false by lia.
Qed.

Lemma copy_step_eq m d src : copy_step (m, d, src) =
  Ret (if load8 (store8 m d (load8 m src)) d =? 0 then inr (store8 m d (load8 m src), d + 1, src + 1)
       else inl (store8 m d (load8 m src), d + 1, src + 1)).
Proof. reflexivity. Qed.

(** The copying loop, for a string that the copy does not overwrite. *)
Lemma copy_string_spec m d src l : cstr m src l -> Z.of_nat (length l) < 2 ^ 32 ->
  disjoint d (Z.of_nat (length l) + 1) src (Z.of_nat (length l) + 1) ->
  exists m', copy_string (m, d, src) = Ret (m', d + Z.of_nat (length l) + 1, src + Z.of_nat (length l) + 1) /\
    cstr m' d l /\ forall a, ~ (d <= a <= d + Z.of_nat (length l)) -> load8 m' a = load8 m a.
Proof.
  intros C Hl D. unfold copy_string.
  enough (G : exists m', loop copy_step (S (length l)) (m, d, src) =
      Ret (m', d + Z.of_nat (length l) + 1, src + Z.of_nat (length l) + 1) /\
    cstr m' d l /\ forall a, ~ (d <= a <= d + Z.of_nat (length l)) -> load8 m' a = load8 m a).
  { destruct G as (m' & E & H). exists m'. split; [|exact H].
    eapply while_loop; [exact E|discriminate|lia]. }
  clear Hl. revert m d src C D. induction l as [|b l IH]; intros m d src C D.
  - apply cstr_nil in C. exists (store8 m d 0). cbn [length]. rewrite loop_S, copy_step_eq.
    rewrite C, load8_store8, Z.eqb_refl. cbn. split_and!; [do 2 f_equal; [f_equal|]; lia| |].
    + apply cstr_nil. now rewrite load8_store8, Z.eqb_refl.
    + intros a Ha. rewrite load8_store8. now replace (d =? a) with false by lia.
  - apply cstr_cons in C as (Hb & E & C). cbn [length] in *. rewrite loop_S, copy_step_eq.
    rewrite E, load8_store8, Z.eqb_refl, u8_small by lia. replace (b =? 0) with false by lia.
    rewrite bind_ret. cbv beta iota.
    destruct (IH (store8 m d b) (d + 1) (src + 1)) as (m' & Em & C' & F).
    + split; [apply C| |].
      * eapply bytes_frame; [|apply C]. intros i Hi. rewrite load8_store8.
        now replace (d =? _) with false by (unfold disjoint in D; lia).
      * rewrite load8_store8. replace (d =? _) with false by (unfold disjoint in D; lia). apply (cs_end _ _ _ C).
    + unfold disjoint in *. lia.
    + exists m'. rewrite Em. split_and!; [do 2 f_equal; [f_equal|]; lia| |].
      * apply cstr_cons. split_and!; auto; try lia. rewrite F by lia. rewrite load8_store8, Z.eqb_refl. apply u8_small. lia.
      * intros a Ha. rewrite F by lia. rewrite load8_store8. now replace (d =? a) with false by lia.
Qed.

Lemma strcpy_spec m dst src l : cstr m src l -> Z.of_nat (length l) < 2 ^ 32 ->
  disjoint dst (Z.of_nat (length l) + 1) src (Z.of_nat (length l) + 1) ->
  exists m', strcpy m dst src = Ret m' /\ cstr m' dst l /\
    forall a, ~ (dst <= a <= dst + Z.of_nat (length l)) -> load8 m' a = load8 m a.
Proof.
  intros C Hl D. destruct (copy_string_spec m dst src l C Hl D) as (m' & E & H).
  exists m'. unfold strcpy. rewrite E. auto.
Qed.

Lemma find_end_spec m p l : cstr m p l -> Z.of_nat (length l) < 2 ^ 32 ->
  while (fun d => Ret (if load8 m d =? 0 then inr d else inl (d + 1))) p = Ret (p + Z.of_nat (length l)).
Proof.
  intros C Hl. eapply (while_loop _ (S (length l))); [|discriminate|lia]. clear Hl. revert p C.
  induction l as [|b l IH]; intros p C; rewrite loop_S.
  - apply cstr_nil in C. rewrite C. cbn. f_equal. lia.
  - apply cstr_cons in C as (Hb & E & C). cbn [length]. rewrite E. replace (b =? 0) with false by lia.
    rewrite bind_ret. cbv beta iota. rewrite IH by assumption. f_equal. lia.
Qed.

(** strcat appends the source where the destination ends, provided the result
    does not run into the source. *)
Lemma strcat_spec m dst src l k : cstr m dst l -> cstr m src k -> Z.of_nat (length l) < 2 ^ 32 -> Z.of_nat (length k) < 2 ^ 32 ->
  disjoint dst (Z.of_nat (length l + length k) + 1) src (Z.of_nat (length k) + 1) ->
  exists m', strcat m dst src = Ret m' /\ cstr m' dst (l ++ k) /\
    forall a, ~ (dst <= a <= dst + Z.of_nat (length l + length k)) -> load8 m' a = load8 m a.
Proof.
  intros C K Hl Hk D. unfold strcat. rewrite (find_end_spec m dst l C Hl), bind_ret. unfold disjoint in D.
  destruct (copy_string_spec m (dst + Z.of_nat (length l)) src k K Hk) as (m' & E & C' & F); [unfold disjoint; lia|].
  rewrite E. exists m'. split_and!; [reflexivity| |].
  - split; [apply Forall_app; split; [apply C|apply C']| |].
    + apply bytes_app. split; [|apply C']. eapply bytes_frame; [|apply C]. intros i Hi. apply F. lia.
    + rewrite length_app. replace (dst + _) with (dst + Z.of_nat (length l) + Z.of_nat (length k)) by lia. apply (cs_end _ _ _ C').
  - intros a Ha. apply F. lia.
Qed.

(** ** Comparing *)

(** The difference of the first two bytes that differ, the end of a string
    counting as a 0. *)
Fixpoint str_diff (l k : list Z) : Z :=
  match l, k with
  | [], [] => 0
  | [], b :: _ => - b
  | a :: _, [] => a
  | a :: l', b :: k' => if a =? b then str_diff l' k' else a - b
  end.

(** Lexicographic order. *)
Inductive lex_lt : list Z -> list Z -> Prop :=
  | lex_prefix b k : lex_lt [] (b :: k)
  | lex_first a b l k : a < b -> lex_lt (a :: l) (b :: k)
  | lex_next a l k : lex_lt l k -> lex_lt (a :: l) (a :: k).

Lemma str_diff_eq l k : text l -> text k -> str_diff l k = 0 <-> l = k.
Proof.
  intros Tl. revert k. induction Tl as [|a l Ha Tl IH]; intros k Tk; destruct Tk as [|b k Hb Tk]; cbn;
    try (split; [lia|discriminate]); [tauto|].
  destruct (Z.eqb_spec a b) as [->|Ne]; [rewrite IH by assumption; split; congruence|split; [lia|congruence]].
Qed.

Lemma str_diff_lt l k : text l -> text k -> str_diff l k < 0 <-> lex_lt l k.
Proof.
  intros Tl. revert k. induction Tl as [|a l Ha Tl IH]; intros k Tk; destruct Tk as [|b k Hb Tk]; cbn.
  - split; [lia|inversion 1].
  - split; [constructor|lia].
  - split; [lia|inversion 1].
  - destruct (Z.eqb_spec a b) as [->|Ne].
    + rewrite IH by assumption. split; [constructor; assumption|]. inversion 1; subst; [lia|assumption].
    + split; [intros; constructor; lia|]. inversion 1; subst; [lia|congruence].
Qed.

Lemma strcmp_diff m p q l k : cstr m p l -> cstr m q k -> Z.of_nat (length l) < 2 ^ 32 ->
  strcmp m p q = Ret (str_diff l k).
Proof.
  intros C K Hl. unfold strcmp.   enough (G : exists p' q', loop (strcmp_step m) (S (length l)) (p, q) = Ret (p', q') /\ load8 m p' - load8 m q' = str_diff l k).
  { destruct G as (p' & q' & E & D). erewrite while_loop; [|exact E|discriminate|lia]. cbn. now rewrite D. }
  clear Hl. revert p q k C K. induction l as [|a l IH]; intros p q k C K; rewrite loop_S; cbn [strcmp_step].
  - apply cstr_nil in C. rewrite C. exists p, q. split; [reflexivity|]. rewrite C.
    destruct k as [|b k]; [apply cstr_nil in K|apply cstr_cons in K as (? & K & _)]; rewrite K; reflexivity.
  - apply cstr_cons in C as (Ha & E & C). cbn [length]. rewrite E. replace (a =? 0) with false by lia.
    destruct k as [|b k].
    + apply cstr_nil in K. rewrite K. replace (a =? 0) with false by lia. exists p, q. split; [reflexivity|].
      rewrite E, K. cbn. lia.
    + apply cstr_cons in K as (Hb & Eb & K). rewrite Eb. cbn [str_diff negb andb]. destruct (Z.eqb_spec a b) as [->|Ne].
      * rewrite bind_ret. apply IH; assumption.
      * exists p, q. split; [reflexivity|]. lia.
Qed.

(** strcmp orders strings lexicographically by unsigned bytes: on two
    terminated strings it returns 0 exactly when they are equal and a negative
    number exactly when the first comes before the second. *)
Theorem strcmp_spec (m : mem) (p q : Z) (l k : list Z) :
  cstr m p l -> cstr m q k -> Z.of_nat (length l) < 2 ^ 32 ->
  exists d, strcmp m p q = Ret d /\ (d = 0 <-> l = k) /\ (d < 0 <-> lex_lt l k).
Proof.
  intros C K Hl. exists (str_diff l k). split; [now apply strcmp_diff|].
  split; [apply str_diff_eq|apply str_diff_lt]; (apply C || apply K).
Qed.

(** strncmp sees the first [n] bytes. *)
Lemma strncmp_diff m p q l k n : cstr m p l -> cstr m q k ->
  strncmp_from m p q n = str_diff (take n l) (take n k).
Proof.
  revert p q l k. induction n as [|n IH]; intros p q l k C K; [reflexivity|]. cbn [strncmp_from].
  destruct l as [|a l]; destruct k as [|b k]; rewrite ?cstr_nil, ?cstr_cons in *; destruct_and?; cbn [take str_diff].
  - replace (load8 m p =? load8 m q) with true by lia. now replace (load8 m p =? 0) with true by lia.
  - replace (load8 m p =? load8 m q) with false by lia. cbn. lia.
  - replace (load8 m p =? load8 m q) with false by lia. cbn. lia.
  - destruct (Z.eqb_spec a b) as [->|Ne].
    + replace (load8 m p =? load8 m q) with true by lia. replace (load8 m p =? 0) with false by lia. cbn. now apply IH.
    + replace (load8 m p =? load8 m q) with false by lia. cbn. lia.
Qed.

Lemma memcmp_zero m p q n i : memcmp_from m p q i n = 0 <->
  forall j, 0 <= j < Z.of_nat n -> load8 m (p + (i + j)) = load8 m (q + (i + j)).
Proof.
  revert i. induction n as [|n IH]; intros i; cbn [memcmp_from]; [split; [intros; lia|reflexivity]|].
  case_test; [|case_test].
  - split; [discriminate|]. intros H. specialize (H 0). rewrite Z.add_0_r in H. lia.
  - split; [discriminate|]. intros H. specialize (H 0). rewrite Z.add_0_r in H. lia.
  - rewrite IH. split; intros H j Hj.
    + destruct (decide (j = 0)) as [->|]; [rewrite Z.add_0_r; lia|]. specialize (H (j - 1)).
      replace (i + 1 + (j - 1)) with (i + j) in H by lia. apply H. lia.
    + replace (i + 1 + j) with (i + (j + 1)) by lia. apply H. lia.
Qed.

(** ** Reversal *)

Lemma swaps_load m str len n : 2 * Z.of_nat n <= len -> forall j, 0 <= j < len ->
  load8 (for_range (swap_bytes str len) 0 n m) (str + j) =
  if (j <? Z.of_nat n) || (len - Z.of_nat n <=? j) then load8 m (str + (len - 1 - j)) else load8 m (str + j).
Proof.
  induction n as [|n IH]; intros Hn j Hj; [cbn; case_test; auto; lia|].
  rewrite for_range_last. unfold swap_bytes at 1. cbv zeta.
  rewrite Z.add_0_l, !load8_store8, !(u8_small (load8 _ _)) by apply load8_range. rewrite !IH by lia.
  repeat case_test; try clia; f_equal; lia.
Qed.

Lemma swaps_frame m str len n a : 2 * Z.of_nat n <= len -> ~ (str <= a < str + len) ->
  load8 (for_range (swap_bytes str len) 0 n m) a = load8 m a.
Proof.
  induction n as [|n IH]; intros Hn Ha; [reflexivity|].
  rewrite for_range_last. unfold swap_bytes at 1. cbv zeta. rewrite !load8_store8, IH by lia.
  repeat case_test; auto; lia.
Qed.

Lemma strrev_spec m p l : cstr m p l -> Z.of_nat (length l) < 2 ^ 32 ->
  exists m', strrev m p = Ret m' /\ cstr m' p (rev l) /\
    forall a, ~ (p <= a < p + Z.of_nat (length l)) -> load8 m' a = load8 m a.
Proof.
  intros C Hl. unfold strrev. rewrite (strlen_spec m p l C Hl), bind_ret. remember (Z.of_nat (length l)) as len eqn:El.
  exists (for_range (swap_bytes p len) 0 (Z.to_nat (len / 2)) m). split; [reflexivity|].
  assert (Hn : 2 * Z.of_nat (Z.to_nat (len / 2)) <= len <= 2 * Z.of_nat (Z.to_nat (len / 2)) + 1).
  { pose proof (Z_div_mod_eq_full len 2). pose proof (Z.mod_pos_bound len 2). pose proof (Z.div_pos len 2). lia. }
  split.
  - split.
    + apply Forall_rev, C.
    + intros i b Hb. pose proof (lookup_lt_Some _ _ _ Hb) as Hi. rewrite length_rev in Hi.
      rewrite rev_alt in Hb. change (reverse l !! i = Some b) in Hb. rewrite reverse_lookup in Hb by assumption.
      rewrite swaps_load by lia. apply (cs_bytes _ _ _ C) in Hb.
      rewrite <- Hb. case_test; f_equal; lia.
    + rewrite length_rev, <- El. rewrite swaps_frame by lia. rewrite El. apply (cs_end _ _ _ C).
  - intros a Ha. apply swaps_frame; lia.
Qed.

(** ** Tokens *)

(** The runs of [l] between delimiters, empty ones included, and the tokens,
    which are the others. *)
Fixpoint split_at (ds l : list Z) : list (list Z) :=
  match l with
  | [] => [[]]
  | b :: l' =>
      if decide (b ∈ ds) then [] :: split_at ds l'
      else match split_at ds l' with w :: ws => (b :: w) :: ws | [] => [[b]] end
  end.
Definition tokens (ds l : list Z) : list (list Z) := filter (fun w => w <> []) (split_at ds l).

(** What strtok_r computes along the way. *)
Fixpoint skip (ds l : list Z) : list Z :=
  match l with [] => [] | b :: l' => if decide (b ∈ ds) then skip ds l' else l end.
Fixpoint word (ds l : list Z) : list Z :=
  match l with [] => [] | b :: l' => if decide (b ∈ ds) then [] else b :: word ds l' end.

Lemma split_at_ne ds l : split_at ds l <> [].
Proof. destruct l; cbn; [discriminate|]. case_decide; [discriminate|]. now destruct (split_at ds l). Qed.

Lemma tokens_skip ds l : tokens ds l = tokens ds (skip ds l).
Proof.
  induction l as [|b l IH]; [reflexivity|]. cbn [skip]. case_decide as D; [|reflexivity].
  rewrite <- IH. unfold tokens. cbn [split_at]. now rewrite decide_True.
Qed.

Lemma split_at_word ds l : split_at ds l =
  word ds l :: if decide ((length (word ds l) < length l)%nat) then split_at ds (drop (S (length (word ds l))) l) else [].
Proof.
  induction l as [|b l IH]; [reflexivity|]. cbn [split_at word]. destruct (decide (b ∈ ds)) as [D|D].
  - cbn [length]. now rewrite decide_True by lia.
  - rewrite IH. cbn [length drop].
    destruct (decide (length (word ds l) < length l)%nat); [now rewrite decide_True by lia|now rewrite decide_False by lia].
Qed.

Lemma tokens_word ds l : tokens ds [] = [] /\ (forall b l', skip ds l = b :: l' ->
  tokens ds l = word ds (b :: l') :: tokens ds (drop (S (length (word ds (b :: l')))) (b :: l'))).
Proof.
  split; [reflexivity|]. intros b l' E. rewrite tokens_skip, E. unfold tokens at 1. rewrite split_at_word.
  assert (Nb : b ∉ ds).
  { clear -E. induction l as [|x l IH]; [discriminate|]. cbn in E. case_decide; [auto|now injection E as -> ->]. }
  assert (Nw : word ds (b :: l') <> []) by (cbn; now rewrite decide_False).
  rewrite filter_cons_True by assumption. f_equal. case_decide as D; [reflexivity|].
  rewrite drop_ge by lia. reflexivity.
Qed.

Lemma skip_length ds l : (length (skip ds l) <= length l)%nat.
Proof. induction l; cbn; [lia|]. case_decide; cbn; lia. Qed.
Lemma word_length ds l : (length (word ds l) <= length l)%nat.
Proof. induction l; cbn; [lia|]. case_decide; cbn; lia. Qed.
Lemma skip_suffix ds l : skip ds l = drop (length l - length (skip ds l)) l.
Proof.
  induction l as [|b l IH]; [reflexivity|]. cbn [skip]. case_decide.
  - pose proof (skip_length ds l). cbn [length]. replace (S (length l) - length (skip ds l))%nat with
      (S (length l - length (skip ds l))) by lia. exact IH.
  - now rewrite Nat.sub_diag.
Qed.
Lemma word_prefix ds l : word ds l = take (length (word ds l)) l.
Proof. induction l as [|b l IH]; [reflexivity|]. cbn [word]. case_decide; [reflexivity|]. cbn. now f_equal. Qed.

Lemma cstr_drop m p l n : cstr m p l -> (n <= length l)%nat -> cstr m (p + Z.of_nat n) (drop n l).
Proof.
  revert p l. induction n as [|n IH]; intros p l C Hn.
  - now replace (p + Z.of_nat 0) with p by lia.
  - destruct l as [|b l]; [cbn in Hn; lia|]. apply cstr_cons in C as (_ & _ & C).
    replace (p + Z.of_nat (S n)) with (p + 1 + Z.of_nat n) by lia. apply IH; [assumption|]. cbn in Hn. lia.
Qed.

Lemma cstr_frame m m' p l : cstr m p l -> (forall a, p <= a <= p + Z.of_nat (length l) -> load8 m' a = load8 m a) ->
  cstr m' p l.
Proof.
  intros C F. split; [apply C| |rewrite F by lia; apply (cs_end _ _ _ C)].
  eapply bytes_frame; [|apply C]. intros i Hi. apply F. lia.
Qed.

Section strtok.
Variable m : mem.
Variable d : Z.
Variable ds : list Z.
Hypothesis Hd : cstr m d ds.
Hypothesis Hds : Z.of_nat (length ds) < 2 ^ 32.

Lemma is_delimiter_spec c : is_delimiter m d c = Ret (bool_decide (c ∈ ds)).
Proof.
  unfold is_delimiter. eapply (while_loop _ (S (length ds))); [|discriminate|lia].
  enough (G : forall i l, cstr m (d + i) l ->
    loop (delimiter_step m d c) (S (length l)) i = Ret (bool_decide (c ∈ l))).
  { apply (G 0). now rewrite Z.add_0_r. }
  intros i l. revert i. induction l as [|b l IH]; intros i C; rewrite loop_S; unfold delimiter_step at 2; cbv zeta.
  - apply cstr_nil in C. rewrite C. cbn. now rewrite bool_decide_eq_false_2 by apply not_elem_of_nil.
  - apply cstr_cons in C as (Hb & E & C). cbn [length]. rewrite E. replace (b =? 0) with false by lia.
    destruct (Z.eqb_spec c b) as [->|Ne]; rewrite bind_ret; cbv beta iota.
    + now rewrite bool_decide_eq_true_2 by now left.
    + rewrite IH by now replace (d + (i + 1)) with (d + i + 1) by lia. f_equal. apply bool_decide_ext.
      rewrite elem_of_cons. intuition congruence.
Qed.

Lemma skip_delimiters_spec p l : cstr m p l -> Z.of_nat (length l) < 2 ^ 32 ->
  skip_delimiters m d p = Ret (p + Z.of_nat (length l - length (skip ds l))).
Proof.
  intros C Hl. unfold skip_delimiters. eapply (while_loop _ (S (length l))); [|discriminate|lia]. clear Hl. revert p C.
  induction l as [|b l IH]; intros p C; rewrite loop_S; unfold skip_step at 2.
  - apply cstr_nil in C. rewrite C. cbn. f_equal. lia.
  - apply cstr_cons in C as (Hb & E & C). cbn [skip]. rewrite E. replace (b =? 0) with false by lia.
    rewrite is_delimiter_spec, !bind_ret. case_decide as D.
    + rewrite bool_decide_eq_true_2 by assumption. cbn [length]. rewrite IH by assumption.
      pose proof (skip_length ds l). f_equal. lia.
    + rewrite bool_decide_eq_false_2 by assumption. f_equal. lia.
Qed.

Lemma find_delimiter_spec p l : cstr m p l -> Z.of_nat (length l) < 2 ^ 32 ->
  find_delimiter m d p = Ret (Z.of_nat (length (word ds l)), bool_decide (length (word ds l) < length l)%nat).
Proof.
  intros C Hl. unfold find_delimiter. eapply (while_loop _ (S (length l))); [|discriminate|lia]. clear Hl.
  enough (G : forall k, cstr m (p + k) l -> loop (find_step m d p) (S (length l)) k =
    Ret (k + Z.of_nat (length (word ds l)), bool_decide (length (word ds l) < length l)%nat)).
  { apply (G 0). now rewrite Z.add_0_r. }
  clear C. induction l as [|b l IH]; intros k C; rewrite loop_S; unfold find_step at 2.
  - apply cstr_nil in C. rewrite C. cbn. do 2 f_equal. lia.
  - apply cstr_cons in C as (Hb & E & C). cbn [word]. rewrite E. replace (b =? 0) with false by lia.
    rewrite is_delimiter_spec, !bind_ret. destruct (decide (b ∈ ds)) as [D|D].
    + rewrite (bool_decide_eq_true_2 (b ∈ ds)) by assumption. cbn [length]. rewrite bool_decide_eq_true_2 by lia. do 2 f_equal. lia.
    + rewrite (bool_decide_eq_false_2 (b ∈ ds)) by assumption. cbn [length].
      rewrite IH by now replace (p + (k + 1)) with (p + k + 1) by lia. f_equal. f_equal; [lia|].
      apply bool_decide_ext. lia.
Qed.

(** One call, on the string [l] at [p], whether passed in or resumed. *)
Lemma strtok_r_step str p tp l : (if str =? 0 then tp else str) = p -> p <> 0 -> cstr m p l ->
  Z.of_nat (length l) < 2 ^ 32 ->
  match skip ds l with
  | [] => exists q, strtok_r m str d tp = Ret (0, q, m)
  | w => let t := p + Z.of_nat (length l - length w) in let n := Z.of_nat (length (word ds w)) in
         exists q m', strtok_r m str d tp = Ret (t, q, m') /\ cstr m' t (word ds w) /\
           cstr m' q (drop (S (length (word ds w))) w) /\
           p <= t /\ q + Z.of_nat (length (drop (S (length (word ds w))) w)) <= p + Z.of_nat (length l) /\
           (t + n < q \/ q = t + n /\ (length w <= length (word ds w))%nat) /\
           forall a, ~ (p <= a < p + Z.of_nat (length l)) -> load8 m' a = load8 m a
  end.
Proof.
  intros Ep Hp C Hl. unfold strtok_r. rewrite Ep.
  assert (Et : (str =? 0) && ((p =? 0) || (load8 m p =? 0)) = true -> l = []).
  { intros H. destruct l as [|b l]; [reflexivity|]. apply cstr_cons in C as (? & ? & _). lia. }
  destruct ((str =? 0) && _) eqn:Eg.
  { rewrite Et by reflexivity. cbn. eauto. } clear Et Eg.
  rewrite (skip_delimiters_spec p l C Hl), bind_ret. pose proof (skip_length ds l) as Hs.
  assert (Cs : cstr m (p + Z.of_nat (length l - length (skip ds l))) (skip ds l)).
  { rewrite (skip_suffix ds l) at 2. apply cstr_drop; [assumption|lia]. }
  destruct (skip ds l) as [|b w] eqn:Ew.
  { apply cstr_nil in Cs. rewrite Cs. cbn. eauto. }
  set (wl := b :: w) in *. cbv zeta. set (t := p + Z.of_nat (length l - length wl)) in *.
  replace (load8 m t =? 0) with false by (apply cstr_cons in Cs; lia).
  rewrite (find_delimiter_spec t wl Cs) by lia. rewrite bind_ret. pose proof (word_length ds wl) as Hw.
  assert (Cp : cstr m (t + Z.of_nat (length (word ds wl))) (drop (length (word ds wl)) wl)) by (apply cstr_drop; auto).
  assert (Bw : text (word ds wl) /\ bytes m t (word ds wl)).
  { split; rewrite word_prefix; [apply Forall_take, Cs|]. intros i x Hx. apply lookup_take_Some in Hx as [Hx _].
    now apply (cs_bytes _ _ _ Cs). }
  clearbody wl. case_bool_decide as D.
  - eexists _, _. split_and!; [reflexivity| | |unfold t; lia|rewrite length_drop; unfold t; lia|left; lia|].
    + split; [apply Bw| |rewrite load8_store8, Z.eqb_refl; reflexivity].
      eapply bytes_frame; [|apply Bw]. intros i Hi. rewrite load8_store8. now replace (_ =? _) with false by lia.
    + eapply cstr_frame with m.
      * replace (t + _) with (t + Z.of_nat (S (length (word ds wl)))) by lia. apply cstr_drop; [assumption|lia].
      * intros a Ha. rewrite load8_store8. now replace (_ =? _) with false by lia.
    + intros a Ha. rewrite load8_store8. now replace (_ =? _) with false by (unfold t in *; lia).
  - eexists _, _. split_and!; [reflexivity| | |unfold t; lia|rewrite length_drop; unfold t; lia|right; lia|reflexivity].
    + split; [apply Bw..|]. rewrite drop_ge in Cp by lia. now apply cstr_nil in Cp.
    + rewrite drop_ge in Cp by lia. rewrite drop_ge by lia. exact Cp.
Qed.
End strtok.

(** The loop of a client of strtok: the pointers it is given, until NULL. *)
Fixpoint strtok_all (fuel : nat) (m : mem) (str d tp : Z) : outcome (list Z * mem) :=
  match fuel with
  | O => NoFuel
  | S f =>
      '(t, q, m) ← strtok_r m str d tp;
      if t =? 0 then Ret ([], m) else '(ts, m) ← strtok_all f m 0 d q; Ret (t :: ts, m)
  end.

Lemma strtok_all_spec n l ds m str p d tp : (length l < n)%nat -> (if str =? 0 then tp else str) = p -> 0 < p ->
  cstr m p l -> cstr m d ds -> Z.of_nat (length l) < 2 ^ 32 -> Z.of_nat (length ds) < 2 ^ 32 ->
  disjoint p (Z.of_nat (length l)) d (Z.of_nat (length ds) + 1) ->
  exists ts m', strtok_all n m str d tp = Ret (ts, m') /\ Forall2 (cstr m') ts (tokens ds l) /\
    (forall a, ~ (p <= a < p + Z.of_nat (length l)) -> load8 m' a = load8 m a).
Proof.
  revert l m str p tp. induction n as [|n IH]; intros l m str p tp Hn Ep Hp C D Hl Hds Dj; [lia|].
  pose proof (strtok_r_step m d ds D Hds str p tp l Ep ltac:(lia) C Hl) as S1. cbn [strtok_all].
  pose proof (skip_length ds l) as Hs. destruct (tokens_word ds l) as [_ Tw].
  destruct (skip ds l) as [|b w] eqn:Ew.
  - destruct S1 as [q E1]. rewrite E1. exists [], m. rewrite tokens_skip, Ew. split_and!; [reflexivity|constructor|auto].
  - cbv zeta in S1. specialize (Tw b w eq_refl). remember (b :: w) as wl eqn:Ewl.
    destruct S1 as (q & m1 & E1 & Ct & Cq & Ht & Hq & Hd & F). rewrite E1, bind_ret.
    replace (_ =? 0) with false by lia. rewrite length_drop in Hq. unfold disjoint in Dj.
    assert (Hw : (0 < length wl)%nat) by (subst wl; cbn; lia). pose proof (word_length ds wl) as Hwl.
    destruct (IH (drop (S (length (word ds wl))) wl) m1 0 q q) as (ts & m2 & E2 & T2 & F2); rewrite ?length_drop; auto; try lia.
    { eapply cstr_frame; [exact D|]. intros a Ha. apply F. lia. }
    { unfold disjoint. lia. }
    rewrite E2, bind_ret. eexists _, m2. split_and!; [reflexivity| |].
    + rewrite Tw. constructor; [|exact T2]. eapply cstr_frame; [exact Ct|]. intros a Ha. apply F2.
      rewrite length_drop. lia.
    + intros a Ha. rewrite F2 by (rewrite length_drop; lia). apply F. lia.
Qed.

(** Strtok_r splits a string.  Calling it on a string, then with NULL until
    it returns NULL, gives pointers to exactly the maximal runs of
    non-delimiter bytes, in order, each terminated in place; it never faults,
    and no byte outside the string changes. *)
Theorem strtok_splits (m : mem) (p d : Z) (l ds : list Z) :
  cstr m p l -> cstr m d ds -> 0 < p -> Z.of_nat (length l) < 2 ^ 32 -> Z.of_nat (length ds) < 2 ^ 32 ->
  disjoint p (Z.of_nat (length l)) d (Z.of_nat (length ds) + 1) ->
  exists ts m', strtok_all (S (length l)) m p d 0 = Ret (ts, m') /\ Forall2 (cstr m') ts (tokens ds l) /\
    (forall a, ~ (p <= a < p + Z.of_nat (length l)) -> load8 m' a = load8 m a).
Proof.
  intros C D Hp Hl Hds Dj. apply (strtok_all_spec (S (length l)) l ds m p p d 0); auto; try lia.
  now replace (p =? 0) with false by lia.
Qed.

(** ** Concrete strings *)

Fixpoint put (m : mem) (p : Z) (l : list Z) : mem :=
  match l with [] => m | b :: l' => store8 (put m (p + 1) l') p b end.

Fixpoint cstrb (m : mem) (p : Z) (l : list Z) : bool :=
  match l with
  | [] => load8 m p =? 0
  | b :: l' => (0 <? b) && (b <? 256) && (load8 m p =? b) && cstrb m (p + 1) l'
  end.

Lemma cstrb_sound m p l : cstrb m p l = true -> cstr m p l.
Proof.
  revert p. induction l as [|b l IH]; intros p H; cbn in H.
  - apply cstr_nil. lia.
  - apply cstr_cons. apply andb_true_iff in H as [H C]. split_and!; [lia|lia|lia|auto].
Qed.

Fixpoint bytesb (m : mem) (p : Z) (l : list Z) : bool :=
  match l with [] => true | b :: l' => (load8 m p =? b) && bytesb m (p + 1) l' end.

Lemma bytesb_sound m p l : bytesb m p l = true -> bytes m p l.
Proof.
  revert p. induction l as [|b l IH]; intros p H; [apply bytes_nil|]. cbn in H.
  apply andb_true_iff in H as [H C]. apply bytes_cons. split; [lia|auto].
Qed.

(** [by_string] proves that a concrete memory holds a concrete string. *)
Ltac by_string := first [apply cstrb_sound; vm_compute; reflexivity | apply bytesb_sound; vm_compute; reflexivity].

(** At 100: //ab/c.  At 200: the one delimiter /. *)
Definition path_mem : mem := put (put ∅ 200 [47; 0]) 100 [47; 47; 97; 98; 47; 99; 0].

Lemma strtok_splits_witness : exists m', strtok_all 7 path_mem 100 200 0 = Ret ([102; 105], m') /\
  cstr m' 102 [97; 98] /\ cstr m' 105 [99].
Proof.
  destruct (strtok_splits path_mem 100 200 [47; 47; 97; 98; 47; 99] [47]) as (ts & m' & E & T & _);
    [by_string|by_string|lia|by_eval|by_eval|left; by_eval|].
  replace (tokens _ _) with [[97; 98]; [99]] in T by by_eval.
  assert (Et : exists m0, strtok_all 7 path_mem 100 200 0 = Ret ([102; 105], m0)) by (eexists; vm_compute; reflexivity).
  destruct Et as [m0 Et]. cbn [length] in E. rewrite Et in E. injection E as <- <-.
  exists m0. split; [exact Et|]. split; [exact (Forall2_lookup_lr _ _ _ 0%nat _ _ T eq_refl eq_refl)|].
  exact (Forall2_lookup_lr _ _ _ 1%nat _ _ T eq_refl eq_refl).
Defined.

Lemma strcmp_spec_witness : exists d, strcmp path_mem 102 105 = Ret d.
Proof.
  destruct (strcmp_spec path_mem 102 105 [97; 98; 47; 99] [99]) as (d & E & _); [by_string|by_string|by_eval|].
  now exists d.
Defined.

Lemma memmove_spec_witness : bytes (memmove path_mem 101 100 6) 101 [47; 47; 97; 98; 47; 99].
Proof. apply (memmove_spec path_mem 101 100 [47; 47; 97; 98; 47; 99]). by_string. Defined.
