(* ===== verification/CStdlib.v ===== *)
(** * Number conversion and the environment (libc/src/stdlib)

    itoa and atoi on strings in memory, the environment look-up, and the length
    computation the formatted output uses to size its buffers.  Signed
    arithmetic wraps in the model; the theorems keep to ranges where the code
    does not overflow, unless they say otherwise. *)
From S2P Require Import Prelude Mem CString.

Definition itoa_step (buff radix : Z) '(m, n, cnt) : outcome ((mem * Z * Z) + (mem * Z)) :=
  if n =? 0 then Ret (inr (m, cnt))
  else if u32 radix =? 0 then Fault
  else
    let i := s32 (n mod u32 radix) in
    let m := store8 m (buff + cnt) (if i <? 10 then i + 48 else i + 97 - 10) in
    Ret (inl (m, n / u32 radix, s32 (cnt + 1))).

Definition itoa (m : mem) (num buff radix : Z) : outcome mem :=
  if num =? 0 then Ret (store8 (store8 m buff 48) (buff + 1) 0)
  else
    let sign := (radix =? 10) && (num <? 0) in
    let n := if sign then u32 (- num) else u32 num in
    '(m, cnt) ← while (itoa_step buff radix) (m, n, 0);
    let '(m, cnt) := if sign then (store8 m (buff + cnt) 45, s32 (cnt + 1)) else (m, cnt) in
    strrev (store8 m (buff + cnt) 0) buff.

Definition atoi_step (m : mem) '(p, ret) : outcome ((Z * Z) + Z) :=
  Ret (if load8 m p =? 0 then inr ret else inl (p + 1, s32 (s32 (ret * 10) + s8 (load8 m p) - 48))).

Definition atoi (m : mem) (buff : Z) : outcome Z :=
  let neg := load8 m buff =? 45 in
  let sign := if neg then -1 else 1 in
  let p := if neg then buff + 1 else buff in
  ret ← while (atoi_step m) (p, 0);
  Ret (s32 (ret * sign)).

(** intlen of vdprintf.c and kutils.c. *)
Definition intlen_step (radix : Z) '(n, len) : outcome ((Z * Z) + Z) :=
  if n =? 0 then Ret (inr len)
  else if u32 radix =? 0 then Fault
  else Ret (inl (n / u32 radix, u32 (len + 1))).

Definition intlen (num radix : Z) : outcome Z :=
  if num =? 0 then Ret 1
  else
    let neg := (radix =? 10) && (num <? 0) in
    while (intlen_step radix) (if neg then (u32 (- num), 1) else (u32 num, 0)).

(** [environment_pointer] points to an array of pointers that ends in NULL. *)
Definition getenv_step (m : mem) (environment_pointer name name_len i : Z) : outcome (Z + Z) :=
  let entry := load32 m (environment_pointer + 4 * i) in
  Ret (if entry =? 0 then inr 0
       else if (strncmp m entry name name_len =? 0) && (load8 m (entry + name_len) =? 61)
            then inr (entry + (name_len + 1)) else inl (i + 1)).

Definition getenv (m : mem) (environment_pointer name : Z) : outcome Z :=
  if (environment_pointer =? 0) || (name =? 0) then Ret 0
  else
    name_len ← strlen m name;
    while (getenv_step m environment_pointer name name_len) 0.

(** ** Numerals *)

(** The digits of [n], least significant first; a 32-bit number has at most 32
    in any base. *)
Fixpoint digits (fuel : nat) (radix n : Z) : list Z :=
  match fuel with
  | O => []
  | S f => if n =? 0 then [] else n mod radix :: digits f radix (n / radix)
  end.

Definition digit_char (i : Z) : Z := if i <? 10 then i + 48 else i + 97 - 10.

(** The text of an integer: signed in base 10, two's complement in the others. *)
Definition int_text (num radix : Z) : list Z :=
  if num =? 0 then [48]
  else
    let sign := (radix =? 10) && (num <? 0) in
    let n := if sign then u32 (- num) else u32 num in
    (if sign then [45] else []) ++ reverse (map digit_char (digits 32 radix n)).

Lemma digits_range fuel radix n : 0 < radix -> Forall (fun i => 0 <= i < radix) (digits fuel radix n).
Proof.
  intros Hr. revert n. induction fuel as [|f IH]; intros n; cbn; [constructor|].
  case_test; constructor; [apply Z.mod_pos_bound; lia|apply IH].
Qed.

Lemma digits_length fuel radix n : (length (digits fuel radix n) <= fuel)%nat.
Proof. revert n. induction fuel as [|f IH]; intros n; cbn; [lia|]. case_test; cbn; [lia|]. specialize (IH (n / radix)). lia. Qed.

Lemma digits_length_pow fuel radix n k : 2 <= radix -> 0 <= n < radix ^ Z.of_nat k -> (length (digits fuel radix n) <= k)%nat.
Proof.
  intros Hr. revert n k. induction fuel as [|f IH]; intros n k Hn; cbn; [lia|]. case_test; cbn; [lia|]. destruct k as [|k]; [cbn in Hn; lia|].
  rewrite Nat2Z.inj_succ, Z.pow_succ_r in Hn by lia. specialize (IH (n / radix) k). enough (0 <= n / radix < radix ^ Z.of_nat k) by (specialize (IH ltac:(assumption)); lia).
  split; [apply Z.div_pos; lia|apply Z.div_lt_upper_bound; lia].
Qed.

Lemma digit_char_range i : 0 <= i < 36 -> 48 <= digit_char i < 123.
Proof. unfold digit_char. case_test; lia. Qed.

Lemma div_shrinks n radix f : 2 <= radix -> 0 <= n < 2 ^ Z.of_nat (S f) -> 0 <= n / radix < 2 ^ Z.of_nat f.
Proof.
  intros Hr Hn. split; [apply Z.div_pos; lia|]. apply Z.div_lt_upper_bound; [lia|].
  rewrite Nat2Z.inj_succ, Z.pow_succ_r in Hn by lia. nia.
Qed.

(** A digit loop over enough fuel writes the digits, least significant first. *)
Lemma itoa_loop buff radix f : 2 <= radix <= 36 -> forall m n cnt, 0 <= n < 2 ^ Z.of_nat f -> 0 <= cnt -> cnt + Z.of_nat f < 2 ^ 31 ->
  exists m', loop (itoa_step buff radix) (S f) (m, n, cnt) = Ret (m', cnt + Z.of_nat (length (digits f radix n))) /\
    bytes m' (buff + cnt) (map digit_char (digits f radix n)) /\
    forall a, ~ (buff + cnt <= a < buff + cnt + Z.of_nat (length (digits f radix n))) -> load8 m' a = load8 m a.
Proof.
  intros Hr. induction f as [|f IH]; intros m n cnt Hn Hc Hb; rewrite loop_S.
  - exists m. replace n with 0 by (cbn in Hn; lia). cbn. split_and!; [do 2 f_equal; lia|apply bytes_nil|auto].
  - cbn [digits]. unfold itoa_step at 2. case_test.
    + exists m. cbn. split_and!; [do 2 f_equal; lia|apply bytes_nil|auto].
    + rewrite (u32_small radix) by lia. replace (radix =? 0) with false by lia. cbv zeta. rewrite bind_ret.
      pose proof (Z.mod_pos_bound n radix). pose proof (digit_char_range (n mod radix)).
      rewrite !s32_small by lia. change (if _ <? 10 then _ else _) with (digit_char (n mod radix)).
      destruct (IH (store8 m (buff + cnt) (digit_char (n mod radix))) (n / radix) (cnt + 1)) as (m' & E1 & B & F);
        [apply div_shrinks; lia|lia|lia|].
      exists m'. rewrite E1. cbn [length map]. split_and!; [do 2 f_equal; lia| |].
      * apply bytes_cons. rewrite F by lia. rewrite load8_store8, Z.eqb_refl, u8_small by lia.
        split; [reflexivity|]. now replace (buff + cnt + 1) with (buff + (cnt + 1)) by lia.
      * intros a Ha. rewrite F by lia. rewrite load8_store8. now replace (_ =? _) with false by lia.
Qed.

Lemma digit_text fuel radix n : 2 <= radix <= 36 -> text (map digit_char (digits fuel radix n)).
Proof.
  intros Hr. apply Forall_map. eapply Forall_impl; [apply (digits_range fuel radix n); lia|].
  intros i Hi. cbv beta in Hi. change (0 < digit_char i < 256). pose proof (digit_char_range i). lia.
Qed.

Lemma bytes_store_after m p l a v : bytes m p l -> p + Z.of_nat (length l) <= a -> bytes (store8 m a v) p l.
Proof.
  intros B Ha. eapply bytes_frame; [|exact B]. intros i Hi. rewrite load8_store8.
  now replace (_ =? _) with false by lia.
Qed.

Lemma text_one b : 0 < b < 256 -> text [b].
Proof. intros. apply Forall_cons. split; [assumption|constructor]. Qed.

(** Ending a block with a 0 makes a string of it. *)
Lemma terminate m p l : text l -> bytes m p l -> cstr (store8 m (p + Z.of_nat (length l)) 0) p l.
Proof.
  intros T B. split; [assumption|apply bytes_store_after; [assumption|lia]|].
  rewrite load8_store8, Z.eqb_refl. reflexivity.
Qed.

Lemma int_text_length num radix : (length (int_text num radix) <= 33)%nat.
Proof.
  unfold int_text. case_test; [cbn; lia|]. rewrite length_app, length_reverse, length_map.
  pose proof (digits_length 32 radix (if (radix =? 10) && (num <? 0) then u32 (- num) else u32 num)).
  case_test; cbn [length]; lia.
Qed.

(** itoa writes the numeral of the integer, with its sign in base 10 and as
    an unsigned 32-bit number in every other base from 2 to 36, and terminates
    it; it writes nothing else but the numeral and its 0. *)
Lemma itoa_ret (m : mem) (num buff radix : Z) :
  2 <= radix <= 36 ->
  exists m', itoa m num buff radix = Ret m' /\ cstr m' buff (int_text num radix) /\
    forall a, ~ (buff <= a <= buff + Z.of_nat (length (int_text num radix))) -> load8 m' a = load8 m a.
Proof.
  intros Hr. unfold itoa, int_text. case_test.
  { eexists. split_and!; [reflexivity| |].
    - eapply (terminate (store8 m buff 48) buff [48]); [apply text_one; lia|].
      apply bytes_cons. split; [now rewrite load8_store8, Z.eqb_refl|apply bytes_nil].
    - intros a Ha. cbn in Ha. rewrite !load8_store8. repeat case_test; auto; lia. }
  set (n := if _ : bool then u32 (- num) else u32 num).
  assert (Hn : 0 <= n < 2 ^ Z.of_nat 32).
  { subst n. case_test; [pose proof (u32_range (- num))|pose proof (u32_range num)]; cbn; lia. }
  destruct (itoa_loop buff radix 32 Hr m n 0 Hn) as (m1 & E1 & B & F); [lia|cbn; lia|].
  rewrite (while_loop (itoa_step buff radix) 33 _ _ E1) by (discriminate || (cbn; lia)). rewrite bind_ret.
  pose proof (digits_length 32 radix n) as Hl. pose proof (digit_text 32 radix n Hr) as T.
  rewrite Z.add_0_r in B, F. cbv zeta. remember (map digit_char (digits 32 radix n)) as t eqn:Et.
  assert (Elen : length (digits 32 radix n) = length t) by (now rewrite Et, length_map).
  rewrite Elen in *. rewrite Z.add_0_l in *. clear E1 Et Elen Hn. clearbody n.
  assert (G : forall m2 t2, text t2 -> bytes m2 buff t2 -> (length t2 <= 33)%nat ->
    (forall a, ~ (buff <= a < buff + Z.of_nat (length t2)) -> load8 m2 a = load8 m a) ->
    exists m', strrev (store8 m2 (buff + Z.of_nat (length t2)) 0) buff = Ret m' /\ cstr m' buff (reverse t2) /\
      forall a, ~ (buff <= a <= buff + Z.of_nat (length t2)) -> load8 m' a = load8 m a).
  { intros m2 t2 T2 B2 Hl2 F2. destruct (strrev_spec _ _ _ (terminate m2 buff t2 T2 B2) ltac:(lia)) as (m' & Es & C & F').
    exists m'. split_and!; [exact Es|now rewrite rev_alt in C|]. intros a Ha. rewrite F' by lia.
    rewrite load8_store8. replace (_ =? _) with false by lia. apply F2. lia. }
  case_test.
  - cbn beta iota. rewrite s32_small by lia.
    destruct (G (store8 m1 (buff + Z.of_nat (length t)) 45) (t ++ [45])) as (m' & Es & C & F').
    + apply Forall_app. split; [assumption|apply text_one; lia].
    + apply bytes_app. split; [apply bytes_store_after; [assumption|lia]|]. apply bytes_cons.
      split; [now rewrite load8_store8, Z.eqb_refl|apply bytes_nil].
    + rewrite length_app. cbn. lia.
    + intros a Ha. rewrite length_app in Ha. cbn in Ha. rewrite load8_store8. replace (_ =? _) with false by lia. apply F. lia.
    + rewrite length_app in *. cbn [length] in *. replace (Z.of_nat (length t) + 1) with (Z.of_nat (length t + 1)) by lia.
      exists m'. rewrite reverse_app in C. split_and!; [exact Es|exact C|]. intros a Ha. apply F'.
      cbn [app length] in Ha. rewrite length_reverse in Ha. lia.
  - destruct (G m1 t T B ltac:(lia) F) as (m' & Es & C & F'). exists m'. cbn [app].
    split_and!; [exact Es|exact C|]. intros a Ha. apply F'. now rewrite length_reverse in Ha.
Qed.

(** intlen is the length of the numeral: the buffers it sizes hold it exactly. *)
Lemma intlen_loop radix f : 2 <= radix <= 36 -> forall n len, 0 <= n < 2 ^ Z.of_nat f -> 0 <= len -> len + Z.of_nat f < 2 ^ 31 ->
  loop (intlen_step radix) (S f) (n, len) = Ret (len + Z.of_nat (length (digits f radix n))).
Proof.
  intros Hr. induction f as [|f IH]; intros n len Hn Hl Hb; rewrite loop_S; unfold intlen_step at 2; cbn [digits].
  - replace n with 0 by (cbn in Hn; lia). cbn. f_equal. lia.
  - case_test; [cbn; f_equal; lia|]. rewrite (u32_small radix) by lia. replace (radix =? 0) with false by lia.
    rewrite bind_ret. cbn beta iota. rewrite u32_small by lia.
    rewrite IH by (try apply div_shrinks; lia). f_equal. cbn [length]. lia.
Qed.

Lemma intlen_spec num radix : 2 <= radix <= 36 -> intlen num radix = Ret (Z.of_nat (length (int_text num radix))).
Proof.
  intros Hr. unfold intlen, int_text. case_test; [reflexivity|]. cbv zeta.
  assert (G : forall n len, 0 <= n < 4294967296 -> 0 <= len <= 1 ->
    while (intlen_step radix) (n, len) = Ret (len + Z.of_nat (length (digits 32 radix n)))).
  { intros n len Hn Hl. eapply (while_loop _ 33); [apply intlen_loop; auto; cbn; lia|discriminate|cbn; lia]. }
  destruct ((radix =? 10) && (num <? 0)); cbn [app length]; rewrite length_reverse, length_map.
  - rewrite G by (auto using u32_range; lia). f_equal. lia.
  - rewrite G by (auto using u32_range; lia). f_equal.
Qed.

(** ** Reading numerals *)

Definition dec (r b : Z) : Z := r * 10 + b - 48.

Lemma foldl_dec f n : 0 <= n < 2 ^ Z.of_nat f -> foldl dec 0 (reverse (map digit_char (digits f 10 n))) = n.
Proof.
  revert n. induction f as [|f IH]; intros n Hn; cbn [digits]; [cbn in *; lia|].
  case_test; [cbn; lia|]. cbn [map]. rewrite reverse_cons, foldl_app, IH by (apply div_shrinks; lia).
  cbn. unfold dec, digit_char. pose proof (Z.mod_pos_bound n 10). replace (n mod 10 <? 10) with true by lia.
  pose proof (Z_div_mod_eq_full n 10). lia.
Qed.

Lemma foldl_dec_grows l r : Forall (fun b => 48 <= b < 58) l -> 0 <= r -> r <= foldl dec r l.
Proof.
  intros D. revert r. induction D as [|b l Hb D IH]; intros r Hr; cbn [foldl]; [lia|].
  assert (Ed : dec r b = r * 10 + b - 48) by reflexivity. specialize (IH (dec r b)). lia.
Qed.

(** Reading a numeral whose value and prefixes stay in range. *)
Lemma atoi_loop m p l r : cstr m p l -> Forall (fun b => 48 <= b < 58) l -> 0 <= r -> foldl dec r l < 2 ^ 31 ->
  loop (atoi_step m) (S (length l)) (p, r) = Ret (foldl dec r l).
Proof.
  intros C D Hr Hv. revert p r C Hr Hv. induction D as [|b l Hb D IH]; intros p r C Hr Hv; rewrite loop_S; unfold atoi_step at 2.
  - apply cstr_nil in C. now rewrite C.
  - apply cstr_cons in C as (_ & E & C). rewrite E. replace (b =? 0) with false by lia.
    rewrite bind_ret. cbn [foldl length] in *.
    cbv beta in Hb. assert (Ed : dec r b = r * 10 + b - 48) by reflexivity.
    pose proof (foldl_dec_grows l (dec r b) D ltac:(lia)) as M.
    assert (Eb : s8 b = b) by (unfold s8; rewrite Z.mod_small; lia).
    rewrite Eb, (s32_small (r * 10)), s32_small, <- Ed by lia. apply IH; [assumption|lia|lia].
Qed.

Lemma int_text_10 num : -2 ^ 31 < num < 2 ^ 31 -> exists l, Forall (fun b => 48 <= b < 58) l /\ l <> [] /\
  foldl dec 0 l = Z.abs num /\ int_text num 10 = if num <? 0 then 45 :: l else l.
Proof.
  intros Hn. unfold int_text. case_test.
  - subst. exists [48]. split_and!; [repeat constructor; lia|discriminate|reflexivity|reflexivity].
  - set (l := reverse _). exists l. assert (Hl : l <> [] /\ foldl dec 0 l = Z.abs num /\ Forall (fun b => 48 <= b < 58) l).
    { subst l. rewrite Z.eqb_refl. cbn [andb].
      replace (if num <? 0 then u32 (- num) else u32 num) with (Z.abs num) by (case_test; rewrite u32_small; lia).
      split_and!.
      - intros Hl. apply (f_equal length) in Hl. rewrite length_reverse, length_map in Hl. cbn [digits] in Hl.
        replace (Z.abs num =? 0) with false in Hl by lia. discriminate.
      - apply foldl_dec. cbn. lia.
      - apply Forall_reverse, Forall_map. eapply Forall_impl; [apply (digits_range 32 10); lia|].
        intros i Hi. cbv beta in Hi. change (48 <= digit_char i < 58). unfold digit_char.
        replace (i <? 10) with true by lia. lia. }
    split_and!; try apply Hl. rewrite Z.eqb_refl. cbn [andb]. clearbody l. case_test; reflexivity.
Qed.

(** Numbers survive printing and reading: itoa in base 10 returns, writes
    the signed numeral and its terminating 0 and nothing else, and atoi applied
    to it gives the integer back, for every int but the smallest (whose negation
    overflows in itoa). *)
Theorem atoi_itoa (m : mem) (num buff : Z) :
  -2 ^ 31 < num < 2 ^ 31 ->
  exists m', itoa m num buff 10 = Ret m' /\ cstr m' buff (int_text num 10) /\
    (forall a, ~ (buff <= a <= buff + Z.of_nat (length (int_text num 10))) -> load8 m' a = load8 m a) /\
    atoi m' buff = Ret num.
Proof.
  intros Hn. destruct (itoa_ret m num buff 10 ltac:(lia)) as (m2 & E2 & C & F).
  exists m2. split_and!; [assumption..|]. clear E2 F.
  pose proof (int_text_length num 10) as Hlen.
  destruct (int_text_10 num Hn) as (l & D & Hne & Hv & Et). rewrite Et in C, Hlen.
  unfold atoi. destruct (num <? 0) eqn:En; zbool; cbn [length] in Hlen.
  - apply cstr_cons in C as (_ & E1 & C). rewrite E1, Z.eqb_refl. cbv zeta iota.
    rewrite (while_loop (atoi_step m2) (S (length l)) _ _ (atoi_loop m2 _ l 0 C D ltac:(lia) ltac:(lia))) by (discriminate || lia).
    rewrite bind_ret. f_equal. rewrite s32_small; lia.
  - destruct l as [|b l]; [congruence|]. assert (Hb : 48 <= b < 58) by (inversion D; lia).
    assert (E1 : load8 m2 buff = b) by (apply cstr_cons in C; lia). rewrite E1. replace (b =? 45) with false by lia. cbv zeta iota.
    rewrite (while_loop (atoi_step m2) (S (length (b :: l))) _ _ (atoi_loop m2 _ _ 0 C D ltac:(lia) ltac:(lia))) by (discriminate || lia).
    rewrite bind_ret. f_equal. rewrite s32_small; lia.
Qed.

Lemma atoi_itoa_witness : exists m', itoa ∅ (-120) 100 10 = Ret m' /\ cstr m' 100 [45; 49; 50; 48] /\ atoi m' 100 = Ret (-120).
Proof.
  destruct (atoi_itoa ∅ (-120) 100) as (m' & E & C & _ & A); [lia|]. exists m'. auto.
Defined.

(** ** The environment *)

(** The array of environment strings. *)
Inductive environ (m : mem) : Z -> list (list Z) -> Prop :=
  | environ_end ep : load32 m ep = 0 -> environ m ep []
  | environ_entry ep l ls : load32 m ep <> 0 -> cstr m (load32 m ep) l -> environ m (ep + 4) ls -> environ m ep (l :: ls).

(** The value of a variable: what follows [name=] in the first entry that
    starts with it. *)
Definition lookup_env (name : list Z) (ls : list (list Z)) : option (list Z) :=
  head (omap (fun l => if decide (take (S (length name)) l = name ++ [61]) then Some (drop (S (length name)) l) else None) ls).

Lemma str_diff_self l : str_diff l l = 0.
Proof. induction l as [|a l IH]; cbn; [reflexivity|]. now rewrite Z.eqb_refl. Qed.

(** An entry is the variable's exactly when the two tests of getenv succeed. *)
Lemma getenv_test m entry l name p : cstr m entry l -> cstr m p name ->
  (strncmp_from m entry p (length name) =? 0) && (load8 m (entry + Z.of_nat (length name)) =? 61) =
  bool_decide (take (S (length name)) l = name ++ [61]).
Proof.
  intros C N. rewrite (strncmp_diff m entry p l name _ C N), (take_ge name) by lia.
  assert (Tl : text (take (length name) l)) by apply Forall_take, C.
  destruct (Z.eqb_spec (str_diff (take (length name) l) name) 0) as [E|E]; cbn [andb].
  - apply str_diff_eq in E; [|assumption|apply N]. symmetry.
    destruct (decide (length name < length l)%nat) as [Hlt|Hge].
    + destruct (lookup_lt_is_Some_2 l (length name) Hlt) as [b Hb]. rewrite (take_S_r _ _ b Hb), E.
      rewrite (cs_bytes _ _ _ C _ _ Hb). destruct (Z.eqb_spec b 61) as [->|Ne].
      * now apply bool_decide_eq_true_2.
      * apply bool_decide_eq_false_2. intros H. apply app_inj_2 in H as [_ H]; [congruence|reflexivity].
    + apply (f_equal length) in E as El. rewrite length_take in El.
      assert (load8 m (entry + Z.of_nat (length name)) = 0) as ->
        by (rewrite <- (cs_end _ _ _ C); f_equal; lia). cbn.
      apply bool_decide_eq_false_2. intros H. apply (f_equal length) in H. rewrite length_app, length_take in H. cbn [length] in H. lia.
  - symmetry. apply bool_decide_eq_false_2. intros H. apply E. apply (f_equal (take (length name))) in H.
    rewrite take_take, take_app_length in H. replace (_ `min` _)%nat with (length name) in H by lia.
    rewrite H. apply str_diff_self.
Qed.

(** getenv finds a variable: on a NULL-terminated environment it returns a
    pointer to the value in the first entry of the form name=value, and NULL
    when no entry has that form. *)
Theorem getenv_spec (m : mem) (ep p : Z) (name : list Z) (ls : list (list Z)) :
  environ m ep ls -> cstr m p name -> ep <> 0 -> p <> 0 ->
  Z.of_nat (length name) < 2 ^ 32 -> Z.of_nat (length ls) < 2 ^ 32 ->
  match lookup_env name ls with
  | Some v => exists q, getenv m ep p = Ret q /\ 0 < q /\ cstr m q v
  | None => getenv m ep p = Ret 0
  end.
Proof.
  intros Ev N He Hp Hn Hls. unfold getenv. replace (_ || _) with false by lia.
  rewrite (strlen_spec m p name N Hn), bind_ret.
  assert (G : forall i, environ m (ep + 4 * i) ls ->
    exists q, loop (getenv_step m ep p (Z.of_nat (length name))) (S (length ls)) i = Ret q /\
      match lookup_env name ls with Some v => 0 < q /\ cstr m q v | None => q = 0 end).
  { clear Ev Hls. induction ls as [|l ls IH]; intros i Ev; rewrite loop_S; unfold getenv_step at 2; cbv zeta.
    - inversion Ev as [? E|]; subst. rewrite E. exists 0. split; reflexivity.
    - inversion Ev as [|? ? ? Hnz C Ev']; subst. replace (_ =? 0) with false by lia.
      unfold strncmp. rewrite Nat2Z.id, (getenv_test m _ l name p C N). unfold lookup_env. cbn [omap list_omap].
      case_bool_decide as D; rewrite bind_ret; cbv beta iota.
      + rewrite decide_True by assumption. cbn [head]. eexists. split; [reflexivity|].
        pose proof (load32_range m (ep + 4 * i)). split; [lia|]. replace (_ + 1) with (Z.of_nat (S (length name))) by lia. apply cstr_drop; [assumption|].
        apply (f_equal length) in D. rewrite length_take, length_app in D. cbn [length] in D. lia.
      + rewrite decide_False by assumption. apply IH. now replace (ep + 4 * (i + 1)) with (ep + 4 * i + 4) by lia. }
  destruct (G 0) as (q & E & V); [now rewrite Z.mul_0_r, Z.add_0_r|].
  rewrite (while_loop _ _ _ _ E) by (discriminate || lia).
  destruct (lookup_env name ls); [eauto|now subst q].
Qed.

(** At 0x100 the array, at 0x200 the entries AB=x and A=yz. *)
Definition env_mem : mem :=
  put (put (put (store32 (store32 (store32 ∅ 0x100 0x200) 0x104 0x210) 0x108 0) 0x200 [65; 66; 61; 120; 0])
    0x210 [65; 61; 121; 122; 0]) 0x300 [65; 0].

Lemma getenv_spec_witness : exists q, getenv env_mem 0x100 0x300 = Ret q /\ 0 < q /\ cstr env_mem q [121; 122].
Proof.
  apply (getenv_spec env_mem 0x100 0x300 [65] [[65; 66; 61; 120]; [65; 61; 121; 122]]); try (by_eval || by_string).
  apply environ_entry; [by_eval|by_string|]. apply environ_entry; [by_eval|by_string|].
  apply environ_end. by_eval.
Defined.
