(* ===== verification/CTime.v ===== *)
(** * Calendar time (libc/src/time)

    gmtime and mktime.  Divisions truncate ([Z.quot], [Z.rem]) and ints wrap as
    in C.  [tm_isdst], which neither function reads or sets, is left out.  The
    year loop of gmtime takes one iteration per year since 1970, within the
    budget of [while] for every time before the year 5.8 million, where the
    int arithmetic of mktime overflows anyway. *)
From S2P Require Import Prelude.

Definition SECS_PER_DAY : Z := 86400.
Definition EPOCH_WEEKDAY : Z := 4.

Record tm := Tm {
  tm_sec : Z; tm_min : Z; tm_hour : Z; tm_mday : Z; tm_mon : Z; tm_year : Z; tm_wday : Z; tm_yday : Z;
}.

Definition is_leap_year (year : Z) : bool :=
  if Z.rem year 400 =? 0 then true
  else if Z.rem year 4 =? 0 then negb (Z.rem year 100 =? 0)
  else false.

Definition days_in_month (month : Z) (leap_year : bool) : Z :=
  if month <=? 7 then
    if Z.rem month 2 =? 1 then 31
    else if month =? 2 then 28 + Z.b2z leap_year
    else 30
  else if Z.rem month 2 =? 0 then 31 else 30.

(** The days from the epoch to the start of a year, as both functions compute
    them in three additions to an int or a time_t. *)
Definition add_leap_days (wrap : Z -> Z) (year days : Z) : Z :=
  let days := wrap (days + s32 (Z.quot (s32 (year - 1)) 4 - Z.quot 1970 4)) in
  let days := wrap (days - s32 (Z.quot (s32 (year - 1)) 100 - Z.quot 1970 100)) in
  wrap (days + s32 (Z.quot (s32 (year - 1)) 400 - Z.quot 1970 400)).

Definition mktime (tp : tm) : Z :=
  let leap_year := is_leap_year (tm_year tp) in
  let t := s32 (s32 (tm_year tp - 1970) * 365) in
  let t := add_leap_days s64 (tm_year tp) t in
  let t := s64 (t * SECS_PER_DAY) in
  let t := for_range (fun m t => s64 (t + s32 (days_in_month m leap_year * SECS_PER_DAY))) 1 (Z.to_nat (tm_mon tp - 1)) t in
  let t := s64 (t + s32 (s32 (tm_mday tp - 1) * SECS_PER_DAY)) in
  let t := s64 (t + tm_sec tp) in
  let t := s64 (t + s32 (tm_min tp * 60)) in
  s64 (t + s32 (tm_hour tp * 3600)).

Definition year_step '(clone, year) : outcome ((Z * Z) + (Z * Z)) :=
  let sec := 365 * SECS_PER_DAY in
  let sec := if is_leap_year year then sec + SECS_PER_DAY else sec in
  Ret (if sec <=? clone then inl (s64 (clone - sec), s32 (year + 1)) else inr (clone, year)).

Definition month_step (leap_year : bool) '(clone, mon) : outcome ((Z * Z) + (Z * Z)) :=
  let sec := s32 (days_in_month mon leap_year * SECS_PER_DAY) in
  Ret (if sec <=? clone then inl (s64 (clone - sec), s32 (mon + 1)) else inr (clone, mon)).

Definition gmtime (timer : Z) : outcome tm :=
  '(clone, year) ← while year_step (timer, 1970);
  let yday := s32 (Z.quot clone SECS_PER_DAY) in
  let leap_year := is_leap_year year in
  '(clone, mon) ← while (month_step leap_year) (clone, 1);
  let mday := s32 (1 + Z.quot clone SECS_PER_DAY) in
  let clone := Z.rem clone SECS_PER_DAY in
  let hour := s32 (Z.quot clone 3600) in
  let clone := Z.rem clone 3600 in
  let min := s32 (Z.quot clone 60) in
  let sec := s32 (Z.rem clone 60) in
  let eday := s32 (s32 (year - 1970) * 365) in
  let eday := add_leap_days s32 year eday in
  let eday := s32 (eday + yday) in
  Ret (Tm sec min hour mday mon year (Z.rem (s32 (EPOCH_WEEKDAY + eday)) 7) yday).

(** The seconds between two times, before the conversion to double: time_t is
    signed, so the subtraction is the unsigned one. *)
Definition difftime (time1 time0 : Z) : Z := u64 (u64 time1 - u64 time0).

(** ** The calendar *)

(** Days from the epoch to 1 January of a year, and to the start of a month. *)
Definition days_before (y : Z) : Z := (y - 1970) * 365 + ((y - 1) / 4 - 492) - ((y - 1) / 100 - 19) + ((y - 1) / 400 - 4).

Definition year_length (y : Z) : Z := 365 + Z.b2z (is_leap_year y).

Fixpoint days_to_month (leap : bool) (n : nat) : Z :=
  match n with O => 0 | S n' => days_to_month leap n' + days_in_month (1 + Z.of_nat n') leap end.

Lemma is_leap_year_spec y : 0 <= y -> is_leap_year y = (y mod 4 =? 0) && (negb (y mod 100 =? 0) || (y mod 400 =? 0)).
Proof.
  intros Hy. unfold is_leap_year. rewrite !Z.rem_mod_nonneg by lia.
  pose proof (Z_div_mod_eq_full y 4). pose proof (Z_div_mod_eq_full y 400). pose proof (Z.mod_pos_bound y 4).
  destruct (Z.eqb_spec (y mod 400) 0), (Z.eqb_spec (y mod 4) 0), (Z.eqb_spec (y mod 100) 0); try reflexivity; lia.
Qed.

(** A year of the calendar has 365 or 366 days. *)
Lemma days_before_next y : 1 <= y -> days_before (y + 1) = days_before y + year_length y.
Proof.
  intros Hy. unfold days_before, year_length. rewrite is_leap_year_spec by lia.
  replace (y + 1 - 1) with y by lia.
  destruct (Z.eqb_spec (y mod 4) 0), (Z.eqb_spec (y mod 100) 0), (Z.eqb_spec (y mod 400) 0); cbn [andb orb negb Z.b2z];
    Z.to_euclidean_division_equations; lia.
Qed.

Lemma days_in_month_range m leap : 28 <= days_in_month m leap <= 31.
Proof. unfold days_in_month. destruct leap; repeat case_test; cbn; lia. Qed.

Lemma days_to_year leap : days_to_month leap 12 = 365 + Z.b2z leap.
Proof. destruct leap; reflexivity. Qed.

Lemma days_to_month_S leap n : days_to_month leap (S n) = days_to_month leap n + days_in_month (1 + Z.of_nat n) leap.
Proof. reflexivity. Qed.

Lemma days_to_month_bounds leap n : 28 * Z.of_nat n <= days_to_month leap n <= 31 * Z.of_nat n.
Proof. induction n as [|n IH]; cbn [days_to_month]; [lia|]. pose proof (days_in_month_range (1 + Z.of_nat n) leap). lia. Qed.

(** ** The loops *)

Lemma s64_small x : - 2 ^ 63 <= x < 2 ^ 63 -> s64 x = x.
Proof. intros. unfold s64. rewrite Z.mod_small; lia. Qed.

Lemma year_loop n clone y : 1970 <= y -> y + Z.of_nat n < 2 ^ 31 -> 0 <= clone < 2 ^ 62 -> clone < 31536000 * Z.of_nat n ->
  exists clone' y', loop year_step (S n) (clone, y) = Ret (clone', y') /\
    clone + SECS_PER_DAY * days_before y = clone' + SECS_PER_DAY * days_before y' /\
    0 <= clone' < SECS_PER_DAY * year_length y' /\ y <= y' <= y + Z.of_nat n.
Proof.
  revert clone y. induction n as [|n IH]; intros clone y Hy Hb Hc Hn; [lia|]. rewrite loop_S. unfold year_step at 2. cbv zeta.
  assert (Es : (if is_leap_year y then 365 * SECS_PER_DAY + SECS_PER_DAY else 365 * SECS_PER_DAY) = SECS_PER_DAY * year_length y).
  { unfold year_length, SECS_PER_DAY. destruct (is_leap_year y); cbn; lia. }
  rewrite Es. assert (Hl : 365 <= year_length y <= 366) by (unfold year_length; destruct (is_leap_year y); cbn; lia).
  pose proof (days_before_next y ltac:(lia)) as Hd. unfold SECS_PER_DAY in *.
  case_test; rewrite bind_ret; cbv beta iota.
  - rewrite s64_small, s32_small by lia.
    destruct (IH (clone - 86400 * year_length y) (y + 1)) as (clone' & y' & E1 & Es' & Hr); [lia..|].
    exists clone', y'. split_and!; [exact E1|lia|lia|lia|lia|lia].
  - exists clone, y. split_and!; [reflexivity|lia..].
Qed.

Lemma month_loop leap n k clone : (k + n = 12)%nat -> 0 <= clone ->
  clone < SECS_PER_DAY * (days_to_month leap 12 - days_to_month leap k) ->
  exists clone' j, loop (month_step leap) (S n) (clone, 1 + Z.of_nat k) = Ret (clone', 1 + Z.of_nat j) /\
    clone + SECS_PER_DAY * days_to_month leap k = clone' + SECS_PER_DAY * days_to_month leap j /\
    0 <= clone' < SECS_PER_DAY * days_in_month (1 + Z.of_nat j) leap /\ (j < 12)%nat.
Proof.
  revert k clone. induction n as [|n IH]; intros k clone Hk H0 Hc.
  - replace k with 12%nat in Hc by lia. lia.
  - rewrite loop_S. unfold month_step at 2. cbv zeta. pose proof (days_in_month_range (1 + Z.of_nat k) leap).
    pose proof (days_to_month_bounds leap 12). pose proof (days_to_month_bounds leap k).
    unfold SECS_PER_DAY in *. rewrite s32_small by lia. case_test; rewrite bind_ret; cbv beta iota.
    + rewrite s64_small, s32_small by lia. replace (1 + Z.of_nat k + 1) with (1 + Z.of_nat (S k)) by lia.
      destruct (IH (S k) (clone - days_in_month (1 + Z.of_nat k) leap * 86400)) as (c' & j & E1 & Es & Hr); [lia|lia| |].
      * rewrite (days_to_month_S leap k). lia.
      * exists c', j. split_and!; [exact E1| |apply Hr..]. rewrite (days_to_month_S leap k) in Es. lia.
    + exists clone, k. split_and!; [reflexivity|lia..].
Qed.

(** ** The round trip *)

(** A date and time of the calendar. *)
Definition valid_tm (t : tm) : Prop :=
  0 <= tm_sec t < 60 /\ 0 <= tm_min t < 60 /\ 0 <= tm_hour t < 24 /\ 1 <= tm_mon t <= 12 /\
  1 <= tm_mday t <= days_in_month (tm_mon t) (is_leap_year (tm_year t)).

(** The seconds from the epoch to a date and time. *)
Definition seconds (t : tm) : Z :=
  SECS_PER_DAY * (days_before (tm_year t) + days_to_month (is_leap_year (tm_year t)) (Z.to_nat (tm_mon t - 1)) + tm_mday t - 1)
  + 3600 * tm_hour t + 60 * tm_min t + tm_sec t.

Lemma add_leap_days_spec wrap y : (forall x, - 2 ^ 31 <= x < 2 ^ 31 -> wrap x = x) -> 1970 <= y < 5000000 ->
  add_leap_days wrap y ((y - 1970) * 365) = days_before y.
Proof.
  intros W Hy. unfold add_leap_days, days_before. rewrite (s32_small (y - 1)) by lia. rewrite !Z.quot_div_nonneg by lia.
  change (1970 / 4) with 492. change (1970 / 100) with 19. change (1970 / 400) with 4.
  assert (B4 : 0 <= (y - 1) / 4 < 1250000) by (split; [apply Z.div_pos|apply Z.div_lt_upper_bound]; lia).
  assert (B100 : 0 <= (y - 1) / 100 < 50000) by (split; [apply Z.div_pos|apply Z.div_lt_upper_bound]; lia).
  assert (B400 : 0 <= (y - 1) / 400 < 12500) by (split; [apply Z.div_pos|apply Z.div_lt_upper_bound]; lia).
  rewrite !s32_small by lia. cbv zeta.
  rewrite (W ((y - 1970) * 365 + _)) by lia. rewrite (W (_ - ((y - 1) / 100 - 19))) by lia. now rewrite W by lia.
Qed.

Lemma days_before_bounds y : 1970 <= y < 5000000 -> 0 <= days_before y < 1830000000.
Proof. intros Hy. unfold days_before. Z.to_euclidean_division_equations. lia. Qed.

Lemma days_before_grows y : 1970 <= y -> 365 * (y - 1970) <= days_before y.
Proof. intros Hy. unfold days_before. Z.to_euclidean_division_equations. lia. Qed.

Lemma month_sum leap n t : 0 <= t < 2 ^ 62 -> (n <= 12)%nat ->
  for_range (fun m t => s64 (t + s32 (days_in_month m leap * SECS_PER_DAY))) 1 n t = t + SECS_PER_DAY * days_to_month leap n.
Proof.
  intros Ht. induction n as [|n IH]; intros Hn; [cbn; lia|]. rewrite for_range_last, IH, days_to_month_S by lia.
  pose proof (days_in_month_range (1 + Z.of_nat n) leap). pose proof (days_to_month_bounds leap n).
  unfold SECS_PER_DAY. rewrite s32_small, s64_small by lia. lia.
Qed.

(** On a date of the calendar mktime computes the seconds since the epoch. *)
Lemma mktime_seconds t : valid_tm t -> 1970 <= tm_year t < 5000000 -> mktime t = seconds t.
Proof.
  intros (Hs & Hm & Hh & Hmo & Hd) Hy. unfold mktime, seconds.
  pose proof (days_in_month_range (tm_mon t) (is_leap_year (tm_year t))).
  pose proof (days_before_bounds (tm_year t) Hy) as B.
  pose proof (days_to_month_bounds (is_leap_year (tm_year t)) (Z.to_nat (tm_mon t - 1))).
  rewrite (s32_small (tm_year t - 1970)), s32_small by lia. cbv zeta.
  rewrite add_leap_days_spec by (try (intros; apply s64_small); lia).
  unfold SECS_PER_DAY at 2. rewrite (s64_small (days_before _ * _)) by lia.
  rewrite month_sum by lia. set (d := days_to_month _ _) in *. unfold SECS_PER_DAY.
  rewrite (s32_small (tm_mday t - 1)), (s32_small ((tm_mday t - 1) * 86400)), (s32_small (tm_min t * 60)), (s32_small (tm_hour t * 3600)) by lia.
  rewrite (s64_small (days_before _ * 86400 + 86400 * d + _)) by lia.
  rewrite (s64_small (_ + tm_sec t)) by lia. rewrite (s64_small (_ + tm_min t * 60)) by lia.
  rewrite s64_small by lia. lia.
Qed.

(** gmtime gives the date and time of the calendar whose seconds are the time. *)
Lemma gmtime_spec (t : Z) :
  0 <= t < 2 ^ 47 ->
  exists d, gmtime t = Ret d /\ valid_tm d /\ 1970 <= tm_year d < 5000000 /\ seconds d = t /\
    tm_wday d = (EPOCH_WEEKDAY + t / SECS_PER_DAY) mod 7 /\
    tm_yday d = t / SECS_PER_DAY - days_before (tm_year d).
Proof.
  intros Ht. unfold gmtime.
  destruct (year_loop (Z.to_nat (t / 31536000 + 1)) t 1970) as (c1 & y & E1 & S1 & H1 & Hy).
  { lia. } { Z.to_euclidean_division_equations. lia. } { lia. } { Z.to_euclidean_division_equations. lia. }
  change (days_before 1970) with 0 in S1.
  assert (Hyb : 1970 <= y < 5000000) by (Z.to_euclidean_division_equations; lia).
  rewrite (while_loop _ _ _ _ E1) by (discriminate || (Z.to_euclidean_division_equations; lia)). rewrite bind_ret.
  assert (H2 : c1 < SECS_PER_DAY * (days_to_month (is_leap_year y) 12 - days_to_month (is_leap_year y) 0)).
  { rewrite days_to_year. cbn [days_to_month]. unfold year_length in H1. lia. }
  destruct (month_loop (is_leap_year y) 12 0 c1 eq_refl) as (c2 & j & E2 & S2 & H3 & Hj); [lia|exact H2|].
  change (1 + Z.of_nat 0) with 1 in E2. rewrite (while_loop _ _ _ _ E2) by (discriminate || lia). rewrite bind_ret.
  cbn [days_to_month] in S2. pose proof (days_in_month_range (1 + Z.of_nat j) (is_leap_year y)).
  pose proof (days_to_month_bounds (is_leap_year y) j). pose proof (days_before_bounds y Hyb) as Hdb.
  set (dm := days_to_month (is_leap_year y) j) in *. set (dim := days_in_month (1 + Z.of_nat j) (is_leap_year y)) in *.
  assert (Hyl : 365 <= year_length y <= 366) by (unfold year_length; destruct (is_leap_year y); cbn; lia).
  unfold SECS_PER_DAY in *.
  rewrite (Z.quot_div_nonneg c1), (Z.quot_div_nonneg c2), (Z.rem_mod_nonneg c2) by lia.
  pose proof (Z.mod_pos_bound c2 86400 ltac:(lia)) as Hr. pose proof (Z_div_mod_eq_full c2 86400) as Er.
  set (r := c2 mod 86400) in *. set (q := c2 / 86400) in *. cbv zeta.
  rewrite (Z.quot_div_nonneg r), (Z.rem_mod_nonneg r) by lia.
  pose proof (Z.mod_pos_bound r 3600 ltac:(lia)) as Hr2. pose proof (Z_div_mod_eq_full r 3600) as Er2.
  set (r2 := r mod 3600) in *. set (h := r / 3600) in *.
  rewrite (Z.quot_div_nonneg r2), (Z.rem_mod_nonneg r2) by lia.
  pose proof (Z.mod_pos_bound r2 60 ltac:(lia)) as Hr3. pose proof (Z_div_mod_eq_full r2 60) as Er3.
  set (se := r2 mod 60) in *. set (mi := r2 / 60) in *.
  assert (Hyd : c1 / 86400 = dm + q).
  { symmetry. apply (Z.div_unique c1 86400 (dm + q) r); lia. }
  assert (Htd : t / 86400 = days_before y + (dm + q)).
  { symmetry. apply (Z.div_unique t 86400 _ r); lia. }
  rewrite Hyd, (s32_small (y - 1970)), (s32_small ((y - 1970) * 365)) by lia.
  rewrite add_leap_days_spec by (try (intros; apply s32_small); lia).
  unfold EPOCH_WEEKDAY. rewrite (s32_small (dm + q)), (s32_small (days_before y + _)), (s32_small (4 + _)), (s32_small se), (s32_small mi), (s32_small h), (s32_small (1 + q)) by lia. rewrite Z.rem_mod_nonneg by lia.
  eexists. split; [reflexivity|].
  assert (V : valid_tm (Tm se mi h (1 + q) (1 + Z.of_nat j) y ((4 + (days_before y + (dm + q))) mod 7) (dm + q))).
  { unfold valid_tm. cbn. fold dim. lia. }
  split; [exact V|]. split; [exact Hyb|]. unfold seconds, SECS_PER_DAY. cbn [tm_sec tm_min tm_hour tm_mday tm_mon tm_year tm_wday tm_yday].
  replace (Z.to_nat (1 + Z.of_nat j - 1)) with j by lia. fold dm. rewrite Htd. split_and!; [lia|reflexivity|lia].
Qed.

(** C32: The calendar is right.  For every time from the epoch to the year 4.4
    million gmtime returns a date and time of the Gregorian calendar, mktime
    takes it back to the same time, and the day of the week and the day of the
    year are those of that date. *)
Theorem mktime_gmtime (t : Z) :
  0 <= t < 2 ^ 47 ->
  exists d, gmtime t = Ret d /\ valid_tm d /\ mktime d = t /\
    tm_wday d = (EPOCH_WEEKDAY + t / SECS_PER_DAY) mod 7 /\
    tm_yday d = t / SECS_PER_DAY - days_before (tm_year d).
Proof.
  intros Ht. destruct (gmtime_spec t Ht) as (d & E & V & Y & S & W). exists d. rewrite mktime_seconds by assumption. auto.
Qed.

(** 29 February 2024, a Thursday. *)
Lemma mktime_gmtime_witness : exists d, gmtime 1709210096 = Ret d /\
  d = Tm 56 34 12 29 2 2024 4 59 /\ mktime d = 1709210096.
Proof.
  destruct (mktime_gmtime 1709210096) as (d & E & _ & M & _); [lia|].
  exists d. split_and!; [exact E| |exact M]. assert (E2 : gmtime 1709210096 = Ret (Tm 56 34 12 29 2 2024 4 59)) by by_eval.
  congruence.
Defined.
