(* ===== verification/CStdio.v ===== *)
(** * Formatted output and input (libc/src/stdio, kernel/src/kutils.c)

    vdprintf and vdscanf of the C library and kvprintf of the kernel.  Strings
    and results are in memory; a [va_list] is the list of the values passed,
    taking from an empty one a [Fault].  The system calls below them, write and
    read, and the console are parameters, acting on a state [W].  The two
    printing functions read their format with the same code, [printf_piece]. *)
From S2P Require Import Prelude Mem CString CStdlib.

Definition INT_MAX : Z := 2147483647.
Definition EOF : Z := -1.

(** The [n] bytes from [p] on. *)
Definition peek (m : mem) (p n : Z) : list Z := map (fun i => load8 m (p + i)) (seqZ 0 n).

Definition va_arg (args : list Z) : outcome (Z * list Z) :=
  match args with [] => Fault | a :: args => Ret (a, args) end.

(** The text of a null pointer. *)
Definition null_text : list Z := [40; 110; 117; 108; 108; 41].

(** The length of a run of plain characters, its first one included. *)
Definition literal_step (m : mem) (format amount : Z) : outcome (Z + Z) :=
  let c := load8 m (format + amount) in
  Ret (if (c =? 0) || (c =? 37) then inr amount else inl (u32 (amount + 1))).
Definition literal_length (m : mem) (format : Z) : outcome Z := while (literal_step m format) 1.

(** The b, d and x conversions, through the array [char str[len + 1]] of a block of their
    own: the [len + 1] bytes of the stack below [sp], where the caller's data ends. *)
Definition int_piece (sp : Z) (m : mem) (format : Z) (args : list Z) (radix : Z) : outcome (list Z * mem * Z * list Z) :=
  '(integer, args) ← va_arg args;
  len ← intlen integer radix;
  let str := sp - (len + 1) in
  m ← itoa m integer str radix;
  Ret (peek m str len, m, format, args).

(** What one iteration prints, with the memory, format and arguments after it. *)
Definition printf_piece (sp : Z) (m : mem) (format : Z) (args : list Z) : outcome (list Z * mem * Z * list Z) :=
  if negb (load8 m format =? 37) || (load8 m (format + 1) =? 37) then
    let format := if load8 m format =? 37 then format + 1 else format in
    amount ← literal_length m format;
    Ret (peek m format amount, m, format + amount, args)
  else
    let c := load8 m (format + 1) in
    if c =? 99 then '(a, args) ← va_arg args; Ret ([u8 a], m, format + 2, args)
    else if c =? 115 then
      '(str, args) ← va_arg args;
      if str =? 0 then Ret (null_text, m, format + 2, args)
      else len ← strlen m str; Ret (peek m str len, m, format + 2, args)
    else if c =? 98 then int_piece sp m (format + 2) args 2
    else if c =? 100 then int_piece sp m (format + 2) args 10
    else if c =? 120 then int_piece sp m (format + 2) args 16
    else len ← strlen m format; Ret (peek m format len, m, format + len, args).

Section printf.
Context {W : Type}.
Variable syscall_write : W -> Z -> list Z -> Z * W.

Definition print (w : W) (fd : Z) (data : list Z) : bool * W :=
  let '(written, w) := syscall_write w fd data in
  (u32 written =? Z.of_nat (length data), w).

Definition vdprintf_step (fd sp : Z) '(m, w, format, args, written) : outcome ((mem * W * Z * list Z * Z) + Z * mem * W) :=
  if load8 m format =? 0 then Ret (inr (written, m, w))
  else
    let maxrem := u32 (INT_MAX - written) in
    '(data, m, format, args) ← printf_piece sp m format args;
    let len := Z.of_nat (length data) in
    if maxrem <? len then Ret (inr (-1, m, w))
    else
      let '(ok, w) := print w fd data in
      Ret (if ok : bool then inl (m, w, format, args, s32 (written + len)) else inr (-1, m, w)).

Definition vdprintf (m : mem) (w : W) (fd sp format : Z) (args : list Z) : outcome (Z * mem * W) :=
  while (vdprintf_step fd sp) (m, w, format, args, 0).
End printf.

Section kvprintf.
Context {W : Type}.
(** video_printc with the default colours. *)
Variable video_printc : W -> Z -> W.

Definition kprint (w : W) (data : list Z) : W := foldl video_printc w data.

Definition kvprintf_step (sp : Z) '(m, w, format, args) : outcome ((mem * W * Z * list Z) + mem * W) :=
  if load8 m format =? 0 then Ret (inr (m, w))
  else
    '(data, m, format, args) ← printf_piece sp m format args;
    Ret (inl (m, kprint w data, format, args)).

Definition kvprintf (m : mem) (w : W) (sp format : Z) (args : list Z) : outcome (mem * W) :=
  while (kvprintf_step sp) (m, w, format, args).
End kvprintf.

(** ** What a format means *)

(** What lies outside of the 34 bytes below [sp], which the longest array does not exceed:
    at most 33 bytes of sign and digits, and the byte of the end. *)
Definition elsewhere (sp a : Z) : Prop := a < sp - 34 \/ sp <= a.
Definition unchanged (sp : Z) (m m' : mem) : Prop := forall a, elsewhere sp a -> load8 m' a = load8 m a.

Lemma unchanged_trans sp m m1 m2 : unchanged sp m m1 -> unchanged sp m1 m2 -> unchanged sp m m2.
Proof. intros U1 U2 a A. now rewrite U2, U1. Qed.

(** A string that is elsewhere. *)
Definition string_at (m : mem) (sp p : Z) (s : list Z) : Prop :=
  cstr m p s /\ disjoint p (Z.of_nat (length s) + 1) (sp - 34) 34 /\ Z.of_nat (length s) < 2 ^ 31.

(** [renders m sp fmt args out]: the format [fmt] with [args] prints [out].  A
    conversion that is not one prints the rest of the format as it is. *)
Inductive renders (m : mem) (sp : Z) : list Z -> list Z -> list Z -> Prop :=
  | r_end args : renders m sp [] args []
  | r_plain b fmt args out : b <> 37 -> renders m sp fmt args out -> renders m sp (b :: fmt) args (b :: out)
  | r_percent fmt args out : renders m sp fmt args out -> renders m sp (37 :: 37 :: fmt) args (37 :: out)
  | r_char fmt a args out : renders m sp fmt args out -> renders m sp (37 :: 99 :: fmt) (a :: args) (u8 a :: out)
  | r_null fmt args out : renders m sp fmt args out -> renders m sp (37 :: 115 :: fmt) (0 :: args) (null_text ++ out)
  | r_string fmt p s args out : p <> 0 -> string_at m sp p s -> renders m sp fmt args out ->
      renders m sp (37 :: 115 :: fmt) (p :: args) (s ++ out)
  | r_int fmt c radix a args out : (c, radix) ∈ [(98, 2); (100, 10); (120, 16)] -> renders m sp fmt args out ->
      renders m sp (37 :: c :: fmt) (a :: args) (int_text a radix ++ out)
  | r_other fmt args : (forall c fmt', fmt = c :: fmt' -> c ∉ [37; 99; 115; 98; 100; 120]) ->
      renders m sp (37 :: fmt) args (37 :: fmt).

Lemma renders_frame m m' sp fmt args out : unchanged sp m m' ->
  renders m sp fmt args out -> renders m' sp fmt args out.
Proof.
  intros F R. induction R; try (constructor; assumption).
  apply r_string; auto. destruct H0 as (C & D & L). split_and!; auto. eapply cstr_frame; [exact C|].
  intros a Ha. apply F. unfold disjoint in D. unfold elsewhere. lia.
Qed.

Lemma length_peek m p n : 0 <= n -> Z.of_nat (length (peek m p n)) = n.
Proof. intros. unfold peek. rewrite length_map, length_seqZ. lia. Qed.

Lemma peek_bytes m p l : bytes m p l -> peek m p (Z.of_nat (length l)) = l.
Proof.
  intros B. apply list_eq_same_length with (length l); [|pose proof (length_peek m p (Z.of_nat (length l))); lia|].
  { reflexivity. }
  intros i x y Hi Hx Hy. unfold peek in Hx. apply list_lookup_fmap_Some in Hx as (j & -> & Hj).
  apply lookup_seqZ in Hj as [-> _]. exact (B i y Hy).
Qed.

(** The run of plain characters [printf_piece] takes at once. *)
Fixpoint run (fmt : list Z) : list Z :=
  match fmt with [] => [] | b :: fmt' => if b =? 37 then [] else b :: run fmt' end.

Lemma run_prefix fmt : fmt = run fmt ++ drop (length (run fmt)) fmt.
Proof. induction fmt as [|b fmt IH]; [reflexivity|]. cbn [run]. case_test; [reflexivity|]. cbn. now f_equal. Qed.

Lemma literal_spec m p b fmt : cstr m p (b :: fmt) -> Z.of_nat (length fmt) < 2 ^ 31 ->
  literal_length m p = Ret (Z.of_nat (length (b :: run fmt))).
Proof.
  intros C Hl. apply cstr_cons in C as (_ & _ & C). unfold literal_length.
  eapply (while_loop _ (S (length fmt))); [|discriminate|lia].
  enough (G : forall k, cstr m (p + k) fmt -> 1 <= k -> k + Z.of_nat (length fmt) < 2 ^ 32 ->
    loop (literal_step m p) (S (length fmt)) k = Ret (k + Z.of_nat (length (run fmt)))).
  { rewrite G by (auto; lia). f_equal. cbn. lia. }
  clear C Hl. induction fmt as [|c fmt IH]; intros k C Hk Hl; rewrite loop_S; unfold literal_step at 2; cbv zeta; cbn [run].
  - apply cstr_nil in C. rewrite C. cbn. f_equal. lia.
  - apply cstr_cons in C as (Hc & E & C). rewrite E. replace (c =? 0) with false by lia. cbn [orb].
    destruct (c =? 37); rewrite bind_ret; cbn [length] in *; [f_equal; lia|]. rewrite u32_small by lia.
    rewrite IH by (try replace (p + (k + 1)) with (p + k + 1) by lia; auto; lia). f_equal. lia.
Qed.

Lemma renders_run m sp fmt args out : renders m sp fmt args out ->
  exists out', out = run fmt ++ out' /\ renders m sp (drop (length (run fmt)) fmt) args out'.
Proof.
  induction 1; cbn [run]; try (eexists; split; [reflexivity|constructor; assumption]).
  - destruct IHrenders as (out' & -> & R). replace (b =? 37) with false by lia. exists out'. split; [reflexivity|exact R].
Qed.

Lemma run_length fmt : (length (run fmt) <= length fmt)%nat.
Proof. induction fmt as [|b fmt IH]; cbn; [lia|]. case_test; cbn; lia. Qed.

(** A run that starts with [b], which has been accepted as plain. *)
Lemma literal_piece m sp format b fmt args out : cstr m format (b :: fmt) -> Z.of_nat (length (b :: fmt)) < 2 ^ 31 ->
  renders m sp fmt args out -> exists out',
  (literal_length m format = Ret (Z.of_nat (S (length (run fmt)))) /\
   peek m format (Z.of_nat (S (length (run fmt)))) = b :: run fmt) /\
  b :: out = (b :: run fmt) ++ out' /\ renders m sp (drop (length (run fmt)) fmt) args out'.
Proof.
  intros C L R. destruct (renders_run _ _ _ _ _ R) as (out' & -> & R'). exists out'. cbn [length] in L.
  split_and!; [rewrite (literal_spec m format b fmt C) by lia; reflexivity| |reflexivity|exact R'].
  apply (peek_bytes m format (b :: run fmt)). pose proof (cs_bytes _ _ _ C) as B.
  rewrite (run_prefix fmt), app_comm_cons in B. now apply bytes_app in B as [B _].
Qed.

(** One iteration: a piece of the output, and the format from there on. *)
Lemma piece_spec m sp format fmt args out : string_at m sp format fmt -> fmt <> [] -> renders m sp fmt args out ->
  exists data m' n args' out', printf_piece sp m format args = Ret (data, m', format + Z.of_nat n, args') /\
    out = data ++ out' /\ (0 < n <= length fmt)%nat /\ string_at m' sp (format + Z.of_nat n) (drop n fmt) /\
    renders m' sp (drop n fmt) args' out' /\ unchanged sp m m'.
Proof.
  intros (C & D & L) Hne R. assert (U0 : unchanged sp m m) by now intros a. unfold printf_piece.
  assert (S0 : forall n, (n <= length fmt)%nat -> string_at m sp (format + Z.of_nat n) (drop n fmt)).
  { intros n Hn. split; [apply cstr_drop; assumption|]. rewrite length_drop. unfold disjoint in *. lia. }
  assert (Int : forall radix c a args fmt2 out2, 2 <= radix <= 36 -> fmt = 37 :: c :: fmt2 -> renders m sp fmt2 args out2 ->
    exists data m' n args' out', int_piece sp m (format + 2) (a :: args) radix = Ret (data, m', format + Z.of_nat n, args') /\
    int_text a radix ++ out2 = data ++ out' /\ (0 < n <= length fmt)%nat /\ string_at m' sp (format + Z.of_nat n) (drop n fmt) /\
    renders m' sp (drop n fmt) args' out' /\ unchanged sp m m').
  { intros radix c a args2 fmt2 out2 Hr -> R2. unfold int_piece. cbn [va_arg]. rewrite bind_ret.
    rewrite intlen_spec, bind_ret by assumption. pose proof (int_text_length a radix) as Ht. set (str := sp - (Z.of_nat (length (int_text a radix)) + 1)).
    cbv zeta. destruct (itoa_ret m a str radix Hr) as (m' & E & Ct & F). rewrite E, bind_ret, (peek_bytes _ _ _ (cs_bytes _ _ _ Ct)).
    assert (F2 : unchanged sp m m') by (intros x Hx; apply F; unfold elsewhere, str in *; lia).
    exists (int_text a radix), m', 2%nat, args2, out2. split_and!; [reflexivity|reflexivity|lia|cbn; lia| | |exact F2].
    - destruct (S0 2%nat) as (C2 & D2 & L2); [cbn; lia|]. split_and!; auto. eapply cstr_frame; [exact C2|].
      intros x Hx. apply F2. unfold disjoint in D2. unfold elsewhere. lia.
    - eapply renders_frame; eassumption. }
  destruct R as [|b fmt args out Hb R|fmt args out R|fmt a args out R|fmt args out R|fmt p s args out Hp Hs R
    |fmt c radix a args out Hc R|fmt args Ho]; [congruence|..].
  - destruct (literal_piece m sp format b fmt args out C L R) as (out' & E & -> & R').
    apply cstr_cons in C as (_ & Eb & _). rewrite Eb. replace (b =? 37) with false by lia. cbn [negb orb]. cbv zeta.
    destruct E as [E Ep]. rewrite E, bind_ret, Ep. pose proof (run_length fmt).
    exists (b :: run fmt), m, (S (length (run fmt))), args, out'.
    split_and!; [reflexivity|reflexivity|lia|cbn [length]; lia|apply S0; cbn [length]; lia|exact R'|exact U0].
  - apply cstr_cons in C as (_ & E0 & C). assert (L' : Z.of_nat (length (37 :: fmt)) < 2 ^ 31) by (cbn [length] in *; lia).
    destruct (literal_piece m sp (format + 1) 37 fmt args out C L' R) as (out' & E & -> & R').
    apply cstr_cons in C as (_ & E1 & _). rewrite E0, E1. cbn [Z.eqb Pos.eqb negb orb]. cbv zeta.
    destruct E as [E Ep]. rewrite E, bind_ret, Ep. pose proof (run_length fmt).
    exists (37 :: run fmt), m, (S (S (length (run fmt)))), args, out'. cbn [length] in *.
    split_and!; [do 3 f_equal; lia|reflexivity|lia|lia|apply S0; cbn [length]; lia|exact R'|exact U0].
  - apply cstr_cons in C as (_ & E0 & C). apply cstr_cons in C as (_ & E1 & _). rewrite E0, E1. cbn.
    exists [u8 a], m, 2%nat, args, out. split_and!; [reflexivity|reflexivity|lia|cbn; lia|apply S0; cbn; lia|exact R|exact U0].
  - apply cstr_cons in C as (_ & E0 & C). apply cstr_cons in C as (_ & E1 & _). rewrite E0, E1. cbn.
    exists null_text, m, 2%nat, args, out. split_and!; [reflexivity|reflexivity|lia|cbn; lia|apply S0; cbn; lia|exact R|exact U0].
  - apply cstr_cons in C as (_ & E0 & C). apply cstr_cons in C as (_ & E1 & _). rewrite E0, E1. cbn [Z.eqb Pos.eqb negb orb va_arg].
    cbv zeta. rewrite bind_ret. replace (p =? 0) with false by lia. destruct Hs as (Cs & Ds & Ls).
    rewrite (strlen_spec _ _ _ Cs), bind_ret, (peek_bytes _ _ _ (cs_bytes _ _ _ Cs)) by lia.
    exists s, m, 2%nat, args, out. split_and!; [reflexivity|reflexivity|lia|cbn; lia|apply S0; cbn; lia|exact R|exact U0].
  - apply cstr_cons in C as (_ & E0 & C). apply cstr_cons in C as (_ & E1 & _). rewrite E0, E1.
    assert (Hr : 2 <= radix <= 36) by (rewrite !elem_of_cons in Hc; destruct Hc as [[= -> ->]|[[= -> ->]|[[= -> ->]|Hc%elem_of_nil]]]; lia || contradiction).
    specialize (Int radix c a args fmt out Hr eq_refl R). rewrite !elem_of_cons in Hc.
    destruct Hc as [[= -> ->]|[[= -> ->]|[[= -> ->]|Hc%elem_of_nil]]]; [exact Int..|contradiction].
  - pose proof C as C0. apply cstr_cons in C as (_ & E0 & C). rewrite E0.
    assert (E1 : load8 m (format + 1) ∉ [37; 99; 115; 98; 100; 120]).
    { destruct fmt as [|c fmt]; [apply cstr_nil in C; rewrite C; rewrite !elem_of_cons, elem_of_nil; lia|].
      apply cstr_cons in C as (_ & E1 & _). rewrite E1. eauto. }
    rewrite !elem_of_cons, elem_of_nil in E1. repeat match goal with |- context [load8 m (format + 1) =? ?c] => replace (load8 m (format + 1) =? c) with false by lia end.
    cbn [Z.eqb Pos.eqb negb orb]. cbv zeta.
    rewrite (strlen_spec _ _ _ C0), bind_ret, (peek_bytes _ _ _ (cs_bytes _ _ _ C0)) by (cbn [length] in *; lia).
    exists (37 :: fmt), m, (length (37 :: fmt)), args, []. rewrite drop_all.
    split_and!; [reflexivity|now rewrite app_nil_r|cbn [length]; lia|lia|rewrite <- (drop_all (37 :: fmt)); apply S0; lia|constructor|exact U0].
Qed.

(** ** The printing loops *)

(** Any number of iterations: [emit] is what an iteration does with its piece. *)
Lemma printf_loop {W} (video_printc : W -> Z -> W) sp n fmt : (length fmt < n)%nat -> forall m w format args out,
  string_at m sp format fmt -> renders m sp fmt args out ->
  exists m', loop (kvprintf_step video_printc sp) n (m, w, format, args) = Ret (m', kprint video_printc w out) /\ unchanged sp m m'.
Proof.
  revert fmt. induction n as [|n IH]; intros fmt Hn m w format args out S R; [lia|].
  rewrite loop_S. unfold kvprintf_step at 2. destruct fmt as [|b fmt].
  - destruct S as (C & _). apply cstr_nil in C. rewrite C. inversion R; subst. now exists m.
  - pose proof S as (C & _). apply cstr_cons in C as (Hb & Eb & _). rewrite Eb. replace (b =? 0) with false by lia.
    destruct (piece_spec m sp format (b :: fmt) args out S ltac:(discriminate) R) as (data & m' & k & args' & out' & E & -> & Hk & S' & R' & U).
    rewrite E, !bind_ret. cbv beta iota. destruct (IH (drop k (b :: fmt))) with (m := m') (w := kprint video_printc w data) (format := format + Z.of_nat k) (args := args') (out := out') as (m2 & E2 & U2); auto.
    { rewrite length_drop. lia. }
    exists m2. rewrite E2. split; [|eapply unchanged_trans; eassumption]. unfold kprint. now rewrite foldl_app.
Qed.

(** The kernel's printf puts every byte of the rendering on the console, and changes no
    memory but that of its arrays. *)
Lemma kvprintf_spec {W} (video_printc : W -> Z -> W) m w sp format fmt args out :
  string_at m sp format fmt -> renders m sp fmt args out ->
  exists m', kvprintf video_printc m w sp format args = Ret (m', kprint video_printc w out) /\ unchanged sp m m'.
Proof.
  intros S R. destruct (printf_loop video_printc sp (Datatypes.S (length fmt)) fmt ltac:(lia) m w format args out S R) as (m' & E & U).
  exists m'. split; [|exact U]. unfold kvprintf. eapply while_loop; [exact E|discriminate|destruct S as (_ & _ & L); lia].
Qed.

Section written.
Context {W : Type}.
Variable syscall_write : W -> Z -> list Z -> Z * W.
(** What has been written to [fd]. *)
Variable output : W -> list Z.

(** write takes everything it is given. *)
Definition writes_all (fd : Z) : Prop := forall w data, exists w',
  syscall_write w fd data = (Z.of_nat (length data), w') /\ output w' = output w ++ data.

Lemma vdprintf_loop fd sp n fmt : writes_all fd -> (length fmt < n)%nat -> forall m w format args out written,
  string_at m sp format fmt -> renders m sp fmt args out -> 0 <= written -> written + Z.of_nat (length out) <= INT_MAX ->
  exists m' w', loop (vdprintf_step syscall_write fd sp) n (m, w, format, args, written) = Ret (written + Z.of_nat (length out), m', w') /\
    output w' = output w ++ out /\ unchanged sp m m'.
Proof.
  intros Wr. revert fmt. induction n as [|n IH]; intros fmt Hn m w format args out written S R H0 Hw; [lia|].
  rewrite loop_S. unfold vdprintf_step at 2. unfold INT_MAX in *. destruct fmt as [|b fmt].
  - destruct S as (C & _). apply cstr_nil in C. rewrite C. inversion R; subst. exists m, w. cbn. rewrite app_nil_r. split_and!; [do 3 f_equal; lia|reflexivity|now intros a].
  - pose proof S as (C & _). apply cstr_cons in C as (Hb & Eb & _). rewrite Eb. replace (b =? 0) with false by lia.
    destruct (piece_spec m sp format (b :: fmt) args out S ltac:(discriminate) R) as (data & m' & k & args' & out' & E & -> & Hk & S' & R' & U).
    rewrite length_app in *. cbv zeta. rewrite E, !bind_ret. cbv beta iota. rewrite u32_small by lia.
    replace (2147483647 - written <? Z.of_nat (length data)) with false by lia. unfold print.
    destruct (Wr w data) as (w1 & E1 & O1). rewrite E1, u32_small, Z.eqb_refl, bind_ret, s32_small by lia. cbv beta iota.
    destruct (IH (drop k (b :: fmt))) with (m := m') (w := w1) (format := format + Z.of_nat k) (args := args') (out := out')
      (written := written + Z.of_nat (length data)) as (m2 & w' & E2 & O2 & U2); auto; try lia.
    { rewrite length_drop. lia. }
    exists m2, w'. rewrite E2, O2, O1, app_assoc. split_and!; [do 3 f_equal; lia|reflexivity|eapply unchanged_trans; eassumption].
Qed.

(** C33: printf prints what its format means.  When write takes everything it is
    given, the format and its strings lie elsewhere than in the 34 bytes of stack that are
    free below the caller's data, and the rendering of the format with its arguments fits
    an int, vdprintf writes exactly that rendering and returns its length; and no memory
    has changed but those 34 bytes: the arrays that it converts numbers in, of the size of
    the number and one byte, ending where the caller's data starts, are never written
    behind their end. *)
Theorem vdprintf_spec (m : mem) (w : W) (fd sp format : Z) (fmt args out : list Z) :
  writes_all fd -> string_at m sp format fmt -> renders m sp fmt args out -> Z.of_nat (length out) <= INT_MAX ->
  exists m' w', vdprintf syscall_write m w fd sp format args = Ret (Z.of_nat (length out), m', w') /\
    output w' = output w ++ out /\ (forall a, a < sp - 34 \/ sp <= a -> load8 m' a = load8 m a).
Proof.
  intros Wr S R Hl. destruct (vdprintf_loop fd sp (Datatypes.S (length fmt)) fmt Wr ltac:(lia) m w format args out 0 S R ltac:(lia) ltac:(lia))
    as (m' & w' & E & O & U).
  exists m', w'. split_and!; [|exact O|exact U]. unfold vdprintf. eapply while_loop; [exact E|discriminate|destruct S as (_ & _ & L); lia].
Qed.
End written.

Definition log_write (w : list Z) (fd : Z) (data : list Z) : Z * list Z := (Z.of_nat (length data), w ++ data).

(** x=%d%% with -12, the caller's data starting with a 7 at 1000. *)
Lemma vdprintf_spec_witness : let m := put (put ∅ 100 [120; 61; 37; 100; 37; 37; 0]) 1000 [7] in
  exists m' w, vdprintf log_write m [] 1 1000 100 [-12] = Ret (6, m', w) /\
  w = [120; 61; 45; 49; 50; 37] /\ (forall a, a < 1000 - 34 \/ 1000 <= a -> load8 m' a = load8 m a).
Proof.
  cbv zeta. set (m := put _ 1000 [7]). apply (vdprintf_spec log_write (fun w => w) m [] 1 1000 100
    [120; 61; 37; 100; 37; 37] [-12] [120; 61; 45; 49; 50; 37]).
  - intros w data. exists (w ++ data). auto.
  - split_and!; [by_string|left; by_eval|by_eval].
  - apply r_plain; [lia|]. apply r_plain; [lia|]. apply (r_int _ _ _ 100 10 (-12) [] [37]); [by_eval|].
    apply r_percent, r_end.
  - by_eval.
Defined.

(** ** Formatted input *)

Section vdscanf.
Context {W : Type}.
(** read(fd, &c, 1): the result, the byte read and the state after. *)
Variable read : W -> Z -> Z * Z * W.

Definition is_space (c : Z) : bool :=
  (c =? 32) || (c =? 10) || (c =? 13) || (c =? 9) || (c =? 11) || (c =? 12).

(** [scan_stream_t] over the world: the character put back, or EOF. *)
Record scan_stream := ScanStream { fd : Z; ungot_char : Z; world : W }.

Definition stream_getc (s : scan_stream) : Z * scan_stream :=
  if negb (ungot_char s =? EOF) then (ungot_char s, ScanStream (fd s) EOF (world s))
  else
    let '(r, c, w) := read (world s) (fd s) in
    let s := ScanStream (fd s) (ungot_char s) w in
    if r <=? 0 then (EOF, s) else (u8 c, s).

Definition stream_ungetc (s : scan_stream) (c : Z) : scan_stream := ScanStream (fd s) c (world s).

Definition unget_unless_eof (s : scan_stream) (c : Z) : scan_stream := if c =? EOF then s else stream_ungetc s c.

(** Reading on while the character is a space; the first other one is put back. *)
Definition space_step (s : scan_stream) : outcome (scan_stream + Z * scan_stream) :=
  let '(c, s) := stream_getc s in Ret (if is_space c then inl s else inr (c, s)).
Definition skip_spaces (s : scan_stream) : outcome scan_stream :=
  '(c, s) ← while space_step s;
  Ret (unget_unless_eof s c).

(** %c: the result says whether the conversion succeeded. *)
Definition scan_char (m : mem) (s : scan_stream) (args : list Z) : outcome (bool * mem * scan_stream * list Z) :=
  let '(c, s) := stream_getc s in
  if c =? EOF then Ret (false, m, s, args)
  else
    '(ptr, args) ← va_arg args;
    Ret (true, if ptr =? 0 then m else store8 m ptr c, s, args).

Definition string_step (ptr : Z) '(m, s, count) : outcome ((mem * scan_stream * Z) + (Z * mem * scan_stream * Z)) :=
  let '(c, s) := stream_getc s in
  Ret (if negb (c =? EOF) && negb (is_space c)
       then inl (if ptr =? 0 then m else store8 m (ptr + count) c, s, s32 (count + 1))
       else inr (c, m, s, count)).

Definition scan_string (m : mem) (s : scan_stream) (args : list Z) : outcome (bool * mem * scan_stream * list Z) :=
  '(ptr, args) ← va_arg args;
  '(c, m, s, count) ← while (string_step ptr) (m, s, 0);
  let s := unget_unless_eof s c in
  let m := if ptr =? 0 then m else store8 m (ptr + count) 0 in
  Ret (negb ((count =? 0) && (c =? EOF)), m, s, args).

Definition decimal_step '(c, s, num) : outcome ((Z * scan_stream * Z) + (Z * scan_stream * Z)) :=
  if (48 <=? c) && (c <=? 57) then
    let num := s32 (s32 (num * 10) + (c - 48)) in
    let '(c, s) := stream_getc s in Ret (inl (c, s, num))
  else Ret (inr (c, s, num)).

Definition scan_decimal (m : mem) (s : scan_stream) (args : list Z) : outcome (bool * mem * scan_stream * list Z) :=
  let '(c, s) := stream_getc s in
  if c =? EOF then Ret (false, m, s, args)
  else
    let neg := c =? 45 in
    let '(c, s) := if (c =? 45) || (c =? 43) then stream_getc s else (c, s) in
    if (c <? 48) || (57 <? c) then Ret (false, m, unget_unless_eof s c, args)
    else
      '(c, s, num) ← while decimal_step (c, s, 0);
      let s := unget_unless_eof s c in
      '(ptr, args) ← va_arg args;
      Ret (true, if ptr =? 0 then m else store32 m ptr (if neg then s32 (- num) else num), s, args).

Definition hex_value (c : Z) : option Z :=
  if (48 <=? c) && (c <=? 57) then Some (c - 48)
  else if (97 <=? c) && (c <=? 102) then Some (c - 97 + 10)
  else if (65 <=? c) && (c <=? 70) then Some (c - 65 + 10)
  else None.

Definition hex_step '(c, s, num, valid) : outcome ((Z * scan_stream * Z * bool) + (Z * scan_stream * Z * bool)) :=
  match hex_value c with
  | Some d => let '(c, s) := stream_getc s in Ret (inl (c, s, u32 (num * 16 + d), true))
  | None => Ret (inr (c, s, num, valid))
  end.

Definition scan_hex (m : mem) (s : scan_stream) (args : list Z) : outcome (bool * mem * scan_stream * list Z) :=
  let '(c, s) := stream_getc s in
  if c =? EOF then Ret (false, m, s, args)
  else
    let '(c, s) :=
      if c =? 48 then
        let '(next, s) := stream_getc s in
        if (next =? 120) || (next =? 88) then stream_getc s else (c, stream_ungetc s next)
      else (c, s) in
    '(c, s, num, valid) ← while hex_step (c, s, 0, false);
    let s := unget_unless_eof s c in
    if negb valid then Ret (false, m, s, args)
    else '(ptr, args) ← va_arg args; Ret (true, if ptr =? 0 then m else store32 m ptr num, s, args).

(** The conversions that skip white space first. *)
Definition skips (c : Z) : bool := (c =? 115) || (c =? 100) || (c =? 120).

(** An unknown conversion ends the scan, as a failed one does. *)
Definition scan_conversion (c : Z) (m : mem) (s : scan_stream) (args : list Z) : outcome (bool * mem * scan_stream * list Z) :=
  if c =? 99 then scan_char m s args
  else if c =? 115 then scan_string m s args
  else if c =? 100 then scan_decimal m s args
  else if c =? 120 then scan_hex m s args
  else Ret (false, m, s, args).

(** A character of the format that the input has to repeat. *)
Definition scan_literal (c : Z) (s : scan_stream) : bool * scan_stream :=
  let '(x, s) := stream_getc s in
  if x =? c then (true, s) else (false, unget_unless_eof s x).

Definition vdscanf_step '(m, s, format, args, assigned) :
  outcome ((mem * scan_stream * Z * list Z * Z) + (Z * mem * scan_stream)) :=
  let c := load8 m format in
  if c =? 0 then Ret (inr (assigned, m, s))
  else if is_space (s8 c) then s ← skip_spaces s; Ret (inl (m, s, format + 1, args, assigned))
  else if negb (c =? 37) then
    let '(ok, s) := scan_literal (s8 c) s in
    Ret (if ok then inl (m, s, format + 1, args, assigned) else inr (assigned, m, s))
  else
    let format := format + 1 in
    let c := load8 m format in
    if c =? 37 then
      let '(ok, s) := scan_literal 37 s in
      Ret (if ok then inl (m, s, format + 1, args, assigned) else inr (assigned, m, s))
    else
      s ← (if skips c then skip_spaces s else Ret s);
      '(ok, m, s, args) ← scan_conversion c m s args;
      Ret (if ok : bool then inl (m, s, format + 1, args, s32 (assigned + 1)) else inr (assigned, m, s)).

(** The stream is a local of vdscanf: with it goes the character put back last. *)
Definition vdscanf (m : mem) (w : W) (fd format : Z) (args : list Z) : outcome (Z * mem * W) :=
  '(assigned, m, s) ← while vdscanf_step (m, ScanStream fd EOF w, format, args, 0);
  Ret (assigned, m, world s).
End vdscanf.

Section scanned.
Context {W : Type}.
Variable read : W -> Z -> Z * Z * W.
(** What is left to read. *)
Variable input : W -> list Z.

(** read delivers the input byte by byte, and 0 at its end. *)
Definition reads_input : Prop := forall w fd,
  match input w with
  | [] => exists c w', read w fd = (0, c, w') /\ input w' = []
  | b :: l => exists w', read w fd = (1, b, w') /\ input w' = l
  end.

(** What the stream will deliver. *)
Definition pending (s : scan_stream (W := W)) : list Z :=
  (if ungot_char s =? EOF then [] else [ungot_char s]) ++ input (world s).

Definition next_char (l : list Z) : Z := default EOF (head l).

Hypothesis Rd : reads_input.

Lemma getc_spec s : Forall (fun b => 0 <= b < 256) (pending s) ->
  exists s', stream_getc read s = (next_char (pending s), s') /\ pending s' = tail (pending s) /\ ungot_char s' = EOF.
Proof.
  intros B. unfold stream_getc, pending in *. destruct (Z.eqb_spec (ungot_char s) EOF) as [E|Ne]; cbn [negb app].
  - pose proof (Rd (world s) (fd s)) as H. destruct (input (world s)) as [|b l].
    + destruct H as (c & w' & -> & E'). eexists. split; [reflexivity|]. cbn. now rewrite E, E'.
    + destruct H as (w' & -> & E'). cbn in B. apply Forall_cons in B as [Hb _]. cbn. rewrite u8_small by lia.
      eexists. split; [reflexivity|]. cbn. now rewrite E, E'.
  - eexists. split; [reflexivity|]. split; reflexivity.
Qed.

(** Putting back what has just been read. *)
Lemma unget_spec s l : Forall (fun b => 0 <= b < 256) l -> pending s = tail l -> ungot_char s = EOF ->
  pending (unget_unless_eof s (next_char l)) = l.
Proof.
  intros B E U. unfold unget_unless_eof. destruct l as [|b l]; [exact E|].
  apply Forall_cons in B as [Hb _]. change (next_char (b :: l)) with b.
  unfold pending in E |- *. rewrite U in E. unfold EOF in *. replace (b =? -1) with false by lia.
  cbn [stream_ungetc ungot_char world] in *. replace (b =? -1) with false by lia. cbn in *. now rewrite E.
Qed.

Lemma skip_spaces_spec sp l s : pending s = sp ++ l -> Forall (fun b => is_space b = true) sp -> is_space (next_char l) = false ->
  Forall (fun b => 0 <= b < 256) (sp ++ l) -> Z.of_nat (length sp) < 2 ^ 31 ->
  exists s', skip_spaces read s = Ret s' /\ pending s' = l.
Proof.
  intros E Sp Nl B Hl. unfold skip_spaces.
  assert (G : exists s', loop (space_step read) (S (length sp)) s = Ret (next_char l, s') /\ pending s' = tail l /\ ungot_char s' = EOF).
  { clear Hl. revert s E. induction Sp as [|b sp Hb Sp IH]; intros s E; rewrite loop_S; unfold space_step at 2; cbn [app] in *;
      rewrite <- E in B; destruct (getc_spec s B) as (s' & -> & Et & U); rewrite E in Et |- *.
    - rewrite Nl. exists s'. auto.
    - change (next_char (b :: sp ++ l)) with b. rewrite Hb, bind_ret. apply IH; [|assumption].
      rewrite E in B. now apply Forall_cons in B as [_ B]. }
  destruct G as (s' & E1 & Et & U). erewrite while_loop; [|exact E1|discriminate|lia]. rewrite bind_ret.
  eexists. split; [reflexivity|]. apply Forall_app in B as [_ B]. now apply unget_spec.
Qed.

Definition is_digit (c : Z) : bool := (48 <=? c) && (c <=? 57).

(** The decimal loop, with its first character already read. *)
Lemma decimal_loop ds rest s num : pending s = tail (ds ++ rest) -> ungot_char s = EOF ->
  Forall (fun b => 48 <= b < 58) ds -> is_digit (next_char rest) = false -> Forall (fun b => 0 <= b < 256) (ds ++ rest) ->
  0 <= num -> foldl dec num ds < 2 ^ 31 ->
  exists s', loop (decimal_step read) (S (length ds)) (next_char (ds ++ rest), s, num) = Ret (next_char rest, s', foldl dec num ds) /\
    pending s' = tail rest /\ ungot_char s' = EOF.
Proof.
  intros E U D. revert s num E U. induction D as [|b ds Hb D IH]; intros s num E U Nr B Hn Hv; rewrite loop_S; unfold decimal_step at 2.
  - cbn [app] in *. unfold is_digit in Nr. rewrite Nr. exists s. auto.
  - change (next_char ((b :: ds) ++ rest)) with b. cbn [app tail foldl length] in *. cbv beta in Hb.
    replace ((48 <=? b) && (b <=? 57)) with true by lia. apply Forall_cons in B as [_ B].
    assert (Ed : dec num b = num * 10 + b - 48) by reflexivity.
    pose proof (foldl_dec_grows ds (dec num b) D ltac:(lia)) as M. cbv zeta.
    rewrite (s32_small (num * 10)), s32_small by lia. replace (num * 10 + (b - 48)) with (dec num b) by lia.
    rewrite <- E in B. destruct (getc_spec s B) as (s1 & -> & E1 & U1). rewrite E in E1, B |- *. rewrite bind_ret.
    apply IH; auto. lia.
Qed.

(** The conversion, with the white space before it. *)
Lemma scan_decimal_spec m s ptr num sp rest : -2 ^ 31 < num < 2 ^ 31 -> pending s = sp ++ int_text num 10 ++ rest ->
  Forall (fun b => is_space b = true) sp -> is_digit (next_char rest) = false ->
  Forall (fun b => 0 <= b < 256) (sp ++ int_text num 10 ++ rest) -> Z.of_nat (length sp) < 2 ^ 31 -> ptr <> 0 ->
  exists s1 s2, skip_spaces read s = Ret s1 /\ scan_decimal read m s1 [ptr] = Ret (true, store32 m ptr num, s2, []) /\
    pending s2 = rest /\ input (world s2) = tail rest.
Proof.
  intros Hn E Sp Nr B Hsp Hp. destruct (int_text_10 num Hn) as (ds & D & Hne & Hv & Et).
  destruct ds as [|d ds]; [congruence|]. assert (Hd : 48 <= d < 58) by (apply Forall_cons in D as [Hd _]; exact Hd).
  assert (Ns : is_space (next_char (int_text num 10 ++ rest)) = false).
  { rewrite Et. destruct (num <? 0); [reflexivity|]. change (is_space d = false). unfold is_space. lia. }
  destruct (skip_spaces_spec sp _ s E Sp Ns B Hsp) as (s1 & E1 & P1). exists s1.
  apply Forall_app in B as [_ B]. rewrite <- P1 in B. destruct (getc_spec s1 B) as (s2 & E2 & P2 & U2). rewrite P1 in *.
  pose proof (int_text_length num 10) as Hlen.
  unfold scan_decimal. rewrite E2.
  assert (Dec : forall s3, pending s3 = tail ((d :: ds) ++ rest) -> ungot_char s3 = EOF -> Forall (fun b => 0 <= b < 256) ((d :: ds) ++ rest) ->
    exists s4, while (decimal_step read) (d, s3, 0) = Ret (next_char rest, s4, Z.abs num) /\
      pending (unget_unless_eof s4 (next_char rest)) = rest /\ input (world (unget_unless_eof s4 (next_char rest))) = tail rest).
  { intros s3 P3 U3 B3. destruct (decimal_loop (d :: ds) rest s3 0 P3 U3 D Nr B3) as (s4 & E4 & P4 & U4); [lia|lia|].
    exists s4. rewrite Hv in E4. split_and!; [eapply while_loop; [exact E4|discriminate|]| |].
    - rewrite Et in Hlen. destruct (num <? 0); cbn [length] in *; lia.
    - apply unget_spec; auto. now apply Forall_app in B3 as [_ B3].
    - rewrite <- P4. unfold pending. rewrite U4. unfold unget_unless_eof. now case_test. }
  rewrite Et in *. destruct (num <? 0) eqn:En; zbool; cbn [app tail] in *.
  - change (next_char (45 :: d :: ds ++ rest)) with 45. cbn [Z.eqb Pos.eqb EOF orb]. apply Forall_cons in B as [_ B].
    rewrite <- P2 in B. destruct (getc_spec s2 B) as (s3 & E3 & P3 & U3). rewrite P2 in *. rewrite E3.
    change (next_char (d :: ds ++ rest)) with d. replace ((d <? 48) || (57 <? d)) with false by lia.
    destruct (Dec s3 P3 U3 B) as (s4 & E4 & P4). rewrite E4, bind_ret. cbn [va_arg]. rewrite bind_ret.
    replace (ptr =? 0) with false by lia. rewrite s32_small by lia. replace (- Z.abs num) with num by lia. eauto.
  - change (next_char (d :: ds ++ rest)) with d. unfold EOF. replace (d =? -1) with false by lia.
    replace (d =? 45) with false by lia. replace (d =? 43) with false by lia. cbn [orb].
    replace ((d <? 48) || (57 <? d)) with false by lia.
    destruct (Dec s2 P2 U2 B) as (s4 & E4 & P4). rewrite E4, bind_ret. cbn [va_arg]. rewrite bind_ret.
    replace (ptr =? 0) with false by lia. replace (Z.abs num) with num by lia. eauto.
Qed.

(** C34: numbers survive output and input, but not what follows them.  On an input that
    starts with white space and the text vdprintf writes for %d (of any int but the least
    one, which overflows vdscanf's positive count), and goes on with no digit, vdscanf with
    %d stores the same int at its argument and returns 1; but of the rest of the input the
    first character is gone: it has been read to find the end of the number, and put back
    into a stream that ends with the call. *)
Theorem vdscanf_decimal (m : mem) (w : W) (fd format ptr num : Z) (sp rest : list Z) :
  cstr m format [37; 100] -> ptr <> 0 -> -2 ^ 31 < num < 2 ^ 31 ->
  input w = sp ++ int_text num 10 ++ rest -> Forall (fun b => is_space b = true) sp ->
  is_digit (next_char rest) = false -> Forall (fun b => 0 <= b < 256) (sp ++ int_text num 10 ++ rest) ->
  Z.of_nat (length sp) < 2 ^ 31 ->
  disjoint (format + 2) 1 ptr 4 ->
  exists w', vdscanf read m w fd format [ptr] = Ret (1, store32 m ptr num, w') /\ input w' = tail rest.
Proof.
  intros C Hp Hn Ei Sp Nr B Hsp Dj. apply cstr_cons in C as (_ & E0 & C). apply cstr_cons in C as (_ & E1 & C). apply cstr_nil in C.
  destruct (scan_decimal_spec m (ScanStream fd EOF w) ptr num sp rest Hn Ei Sp Nr B Hsp Hp) as (s1 & s & Es & Ed & _ & Ep).
  exists (world s). split; [|exact Ep]. unfold vdscanf. rewrite (while_loop _ 2 _ (Ret (1, store32 m ptr num, s))); [reflexivity| |discriminate|lia].
  rewrite loop_S. unfold vdscanf_step at 2. cbv zeta. rewrite E0. cbn [Z.eqb Pos.eqb negb].
  change (is_space (s8 37)) with false. cbv iota. rewrite E1. cbn [Z.eqb Pos.eqb]. change (skips 100) with true. cbv iota.
  rewrite Es, bind_ret. change (scan_conversion read 100 m s1 [ptr]) with (scan_decimal read m s1 [ptr]). rewrite Ed, !bind_ret.
  cbv beta iota. rewrite loop_S. unfold vdscanf_step at 2. cbv zeta.
  rewrite load8_store32_ne by (unfold disjoint in Dj; lia). replace (format + 1 + 1) with (format + 2) in * by lia.
  rewrite C. reflexivity.
Qed.
End scanned.

Definition read_list (w : list Z) (fd : Z) : Z * Z * list Z :=
  match w with [] => (0, 0, []) | b :: l => (1, b, l) end.

(** Two spaces, -12, a comma and a 5: the comma is lost. *)
Lemma vdscanf_decimal_witness : exists w, vdscanf read_list (put ∅ 100 [37; 100; 0]) [32; 32; 45; 49; 50; 44; 53] 0 100 [200] =
  Ret (1, store32 (put ∅ 100 [37; 100; 0]) 200 (-12), w) /\ w = [53].
Proof.
  apply (vdscanf_decimal read_list (fun w => w)) with (sp := [32; 32]) (rest := [44; 53]); try (by_eval || by_string || lia).
  - intros [|b l] fd; cbn; eauto.
Defined.
