(* ===== verification/Fs.v ===== *)
(** * File-system data (kernel/include/filesystem.h, libc/include/sys/filesystem.h)

    The nodes, descriptors and iterators every file system works on.  Pointers
    are addresses, 0 being NULL.  A union is one field per word it occupies, so
    that its members alias in the model as they do in memory. *)
From S2P Require Import Prelude Mem.

(** ** Constants *)

Definition RAMFS_DATANODE_SIZE : Z := 512.
Definition RAMFS_PIPE_SIZE : Z := RAMFS_DATANODE_SIZE * 4.
Definition FILENAME_LIMIT : Z := 256.

Definition FS_NODE_TYPE_MASK : Z := 15.
Definition FS_NODE_TYPE_FILE : Z := 0.
Definition FS_NODE_TYPE_DIRECTORY : Z := 1.
Definition FS_NODE_TYPE_MEMORY : Z := 3.
Definition FS_NODE_TYPE_PIPE : Z := 4.
Definition FS_NODE_TYPE_SEMAPHORE : Z := 5.
Definition FS_NODE_FLAG_HIDDEN : Z := 16.
Definition FS_NODE_FLAG_MOUNTPOINT : Z := 32.

Definition FILE_OPEN_READ : Z := 1.
Definition FILE_OPEN_WRITE : Z := 2.
Definition FILE_OPEN_TRUNCATE : Z := 4.
Definition FILE_OPEN_CREATE : Z := 8.
Definition FILE_OPEN_EXCLUSIVE : Z := 16.
Definition FILE_OPEN_ONLYDIR : Z := 32.
Definition FILE_OPEN_APPEND : Z := 64.

Inductive FS_ERR :=
  | ERR_FS_SUCCESS | ERR_FS_FAILED | ERR_FS_ENTRY_EXISTED | ERR_FS_BAD_CLUSTER | ERR_FS_NOT_FOUND
  | ERR_FS_TARGET_NOT_FOUND | ERR_FS_DIR_NOT_EMPTY | ERR_FS_INVALID_FSINFO | ERR_FS_MAX_DEPTH_REACHED
  | ERR_FS_NOT_ENOUGH_SPACE | ERR_FS_OOM | ERR_FS_NOT_FILE | ERR_FS_NOT_DIR | ERR_FS_NOT_SUPPORTED | ERR_FS_EOF.
#[export] Instance FS_ERR_eq_dec : EqDecision FS_ERR.
Proof. solve_decision. Defined.

(** [if(err)] *)
Definition failed (e : FS_ERR) : bool := bool_decide (e <> ERR_FS_SUCCESS).

(** ** Nodes, descriptors, iterators *)

(** [fs_node_t].  [node_addr] is also the start cluster of a FAT32 node,
    [node_sem] the semaphore of a semaphore node and the bytes_available of a
    pipe.  The lock, a semaphore inside the node, is its count. *)
Record fs_node := FsNode {
  name : list Z;
  fs : Z;
  parent : Z;
  children : Z;
  next_sibling : Z;
  flags : Z;
  mount_target : Z;
  creation_milisecond : Z;
  creation_timestamp : Z;
  modified_timestamp : Z;
  accessed_timestamp : Z;
  size : Z;
  refcount : Z;
  lock : Z;
  node_addr : Z;
  node_sem : Z;
  space_available : Z;
}.

Definition set_name v n := FsNode v (fs n) (parent n) (children n) (next_sibling n) (flags n) (mount_target n)
  (creation_milisecond n) (creation_timestamp n) (modified_timestamp n) (accessed_timestamp n) (size n)
  (refcount n) (lock n) (node_addr n) (node_sem n) (space_available n).
Definition set_parent v n := FsNode (name n) (fs n) v (children n) (next_sibling n) (flags n) (mount_target n)
  (creation_milisecond n) (creation_timestamp n) (modified_timestamp n) (accessed_timestamp n) (size n)
  (refcount n) (lock n) (node_addr n) (node_sem n) (space_available n).
Definition set_children v n := FsNode (name n) (fs n) (parent n) v (next_sibling n) (flags n) (mount_target n)
  (creation_milisecond n) (creation_timestamp n) (modified_timestamp n) (accessed_timestamp n) (size n)
  (refcount n) (lock n) (node_addr n) (node_sem n) (space_available n).
Definition set_next_sibling v n := FsNode (name n) (fs n) (parent n) (children n) v (flags n) (mount_target n)
  (creation_milisecond n) (creation_timestamp n) (modified_timestamp n) (accessed_timestamp n) (size n)
  (refcount n) (lock n) (node_addr n) (node_sem n) (space_available n).
Definition set_flags v n := FsNode (name n) (fs n) (parent n) (children n) (next_sibling n) v (mount_target n)
  (creation_milisecond n) (creation_timestamp n) (modified_timestamp n) (accessed_timestamp n) (size n)
  (refcount n) (lock n) (node_addr n) (node_sem n) (space_available n).
Definition set_mount_target v n := FsNode (name n) (fs n) (parent n) (children n) (next_sibling n) (flags n) v
  (creation_milisecond n) (creation_timestamp n) (modified_timestamp n) (accessed_timestamp n) (size n)
  (refcount n) (lock n) (node_addr n) (node_sem n) (space_available n).
Definition set_modified_timestamp v n := FsNode (name n) (fs n) (parent n) (children n) (next_sibling n)
  (flags n) (mount_target n) (creation_milisecond n) (creation_timestamp n) v (accessed_timestamp n) (size n)
  (refcount n) (lock n) (node_addr n) (node_sem n) (space_available n).
Definition set_accessed_timestamp v n := FsNode (name n) (fs n) (parent n) (children n) (next_sibling n)
  (flags n) (mount_target n) (creation_milisecond n) (creation_timestamp n) (modified_timestamp n) v (size n)
  (refcount n) (lock n) (node_addr n) (node_sem n) (space_available n).
Definition set_size v n := FsNode (name n) (fs n) (parent n) (children n) (next_sibling n) (flags n)
  (mount_target n) (creation_milisecond n) (creation_timestamp n) (modified_timestamp n) (accessed_timestamp n)
  v (refcount n) (lock n) (node_addr n) (node_sem n) (space_available n).
Definition set_refcount v n := FsNode (name n) (fs n) (parent n) (children n) (next_sibling n) (flags n)
  (mount_target n) (creation_milisecond n) (creation_timestamp n) (modified_timestamp n) (accessed_timestamp n)
  (size n) v (lock n) (node_addr n) (node_sem n) (space_available n).
Definition set_lock v n := FsNode (name n) (fs n) (parent n) (children n) (next_sibling n) (flags n)
  (mount_target n) (creation_milisecond n) (creation_timestamp n) (modified_timestamp n) (accessed_timestamp n)
  (size n) (refcount n) v (node_addr n) (node_sem n) (space_available n).

(** [file_description_t].  [position] is also the index of a directory being
    listed; the last two are datanodes in the RAM file system, clusters in FAT32. *)
Record file_description := FileDescription {
  fd_node : Z;
  mode : Z;
  position : Z;
  fd_current : Z;
  fd_last : Z;
}.

Definition set_fd_node v n := FileDescription v (mode n) (position n) (fd_current n) (fd_last n).
Definition set_mode v n := FileDescription (fd_node n) v (position n) (fd_current n) (fd_last n).
Definition set_position v n := FileDescription (fd_node n) (mode n) v (fd_current n) (fd_last n).
Definition set_fd_current v n := FileDescription (fd_node n) (mode n) (position n) v (fd_last n).
Definition set_fd_last v n := FileDescription (fd_node n) (mode n) (position n) (fd_current n) v.

Record directory_iterator := DirectoryIterator { di_node : Z; current_index : Z; di_current : Z }.

(** ** Node types *)

Definition FS_NODE_GET_TYPE (n : fs_node) : Z := Z.land (flags n) FS_NODE_TYPE_MASK.
Definition FS_NODE_IS_FILE (n : fs_node) : bool := FS_NODE_GET_TYPE n =? FS_NODE_TYPE_FILE.
Definition FS_NODE_IS_DIRECTORY (n : fs_node) : bool := FS_NODE_GET_TYPE n =? FS_NODE_TYPE_DIRECTORY.
Definition FS_NODE_IS_PIPE (n : fs_node) : bool := FS_NODE_GET_TYPE n =? FS_NODE_TYPE_PIPE.
Definition FS_NODE_IS_SEMAPHORE (n : fs_node) : bool := FS_NODE_GET_TYPE n =? FS_NODE_TYPE_SEMAPHORE.
Definition FS_NODE_IS_MEMORY (n : fs_node) : bool := FS_NODE_GET_TYPE n =? FS_NODE_TYPE_MEMORY.
Definition FS_NODE_IS_MOUNTPOINT (n : fs_node) : bool := negb (Z.land (flags n) FS_NODE_FLAG_MOUNTPOINT =? 0).

Definition has_flag (mode flag : Z) : bool := negb (Z.land mode flag =? 0).

(** ** Allocators

    A heap as the file systems use it: [alloc] gives an address that is not in
    use, or 0 when there is no room. *)
Class Allocator (H : Type) := {
  alloc : H -> Z -> Z * H;
  release : H -> Z -> H;
  garbage : H -> Z -> mem;   (** what the block at an address holds when it is handed out *)
  live : H -> Z -> Prop;
  alloc_live : forall h n b, live (alloc h n).2 b <-> live h b \/ (b = (alloc h n).1 /\ b <> 0);
  alloc_fresh : forall h n, ~ live h (alloc h n).1;
  release_live : forall h a b, live (release h a) b <-> live h b /\ b <> a;
  live_nonzero : forall h, ~ live h 0;
}.

(** The simplest allocator gives out addresses in increasing order; its state is
    the next address and the blocks in use. *)
Module Bump.
Record bump := { next_block : Z; used : gset Z }.
Definition bump_alloc (h : bump) (size : Z) : Z * bump :=
  let p := Z.max (next_block h) 1 in (p, {| next_block := p + 1; used := {[p]} ∪ used h |}).
Definition bump_release (h : bump) (p : Z) : bump := {| next_block := next_block h; used := used h ∖ {[p]} |}.
Definition bump_live (h : bump) (p : Z) : Prop := p ∈ used h /\ 0 < p < next_block h.

#[export] Program Instance bump_allocator : Allocator bump := {
  alloc := bump_alloc; release := bump_release; garbage := fun _ _ => ∅; live := bump_live }.
Next Obligation. intros [n s] k b. unfold bump_live, bump_alloc. cbn. rewrite elem_of_union, elem_of_singleton.
  destruct (Z.lt_ge_cases b n), (decide (b = Z.max n 1)); intuition lia. Qed.
Next Obligation. intros [n s] k [_ Hb]. cbn in Hb. lia. Qed.
Next Obligation. intros [n s] a b. unfold bump_live, bump_release. cbn. rewrite elem_of_difference, elem_of_singleton. tauto. Qed.
Next Obligation. intros [n s] [_ Hb]. lia. Qed.
End Bump.
