(* ===== verification/Ramfs.v ===== *)
(** * The RAM file system (kernel/src/filesystem/ramfs.c)

    Files and directories are chains of 512-byte datanodes on a heap of their
    own; a ramnode holds what is known of one and points to its chain.  The
    state keeps the objects of each type in a store of their own; following a
    pointer to something that is not there is a [Fault].  The bytes a caller
    passes or gets back are lists, in the order they lie in its buffer.  What
    freshly allocated memory holds is up to the allocator. *)
From S2P Require Import Prelude Mem Fs.

Definition END_ENTRY : Z := 0.
Definition EMPTY_ENTRY : Z := 1.
Definition DIRECTORY_ENTRY_COUNT : Z := RAMFS_DATANODE_SIZE / 4.
Definition sizeof_datanode : Z := 4 + RAMFS_DATANODE_SIZE.
Definition sizeof_ramfs_node : Z := 68.
Definition sizeof_semaphore : Z := 20.
Definition TIMER_FREQUENCY : Z := 1000.

Record datanode := Datanode { next : Z; data : mem }.

(** [ramfs_node_t] with the name that follows it.  [rn_data] is the first word of
    the union: the datanode chain of a file or directory, the first datanode of
    a pipe, the address of a memory node, the semaphore of a semaphore node. *)
Record ramfs_node := RamfsNode {
  rn_name : list Z;
  rn_size : Z;
  rn_milisecond : Z;
  rn_creation : Z;
  rn_modified : Z;
  rn_accessed : Z;
  rn_flags : Z;
  rn_lock : Z;
  rn_data : Z;
  rn_last : Z;
  rn_bytes_available : Z;
  rn_space_available : Z;
  rn_head : Z;
  rn_tail : Z;
}.

Definition set_rn_size v n := RamfsNode (rn_name n) v (rn_milisecond n) (rn_creation n) (rn_modified n)
  (rn_accessed n) (rn_flags n) (rn_lock n) (rn_data n) (rn_last n) (rn_bytes_available n) (rn_space_available n)
  (rn_head n) (rn_tail n).
Definition set_rn_modified v n := RamfsNode (rn_name n) (rn_size n) (rn_milisecond n) (rn_creation n) v
  (rn_accessed n) (rn_flags n) (rn_lock n) (rn_data n) (rn_last n) (rn_bytes_available n) (rn_space_available n)
  (rn_head n) (rn_tail n).
Definition set_rn_accessed v n := RamfsNode (rn_name n) (rn_size n) (rn_milisecond n) (rn_creation n)
  (rn_modified n) v (rn_flags n) (rn_lock n) (rn_data n) (rn_last n) (rn_bytes_available n)
  (rn_space_available n) (rn_head n) (rn_tail n).
Definition set_rn_flags v n := RamfsNode (rn_name n) (rn_size n) (rn_milisecond n) (rn_creation n)
  (rn_modified n) (rn_accessed n) v (rn_lock n) (rn_data n) (rn_last n) (rn_bytes_available n)
  (rn_space_available n) (rn_head n) (rn_tail n).
Definition set_rn_data v n := RamfsNode (rn_name n) (rn_size n) (rn_milisecond n) (rn_creation n)
  (rn_modified n) (rn_accessed n) (rn_flags n) (rn_lock n) v (rn_last n) (rn_bytes_available n)
  (rn_space_available n) (rn_head n) (rn_tail n).
Definition set_rn_last v n := RamfsNode (rn_name n) (rn_size n) (rn_milisecond n) (rn_creation n)
  (rn_modified n) (rn_accessed n) (rn_flags n) (rn_lock n) (rn_data n) v (rn_bytes_available n)
  (rn_space_available n) (rn_head n) (rn_tail n).
Definition set_rn_head v n := RamfsNode (rn_name n) (rn_size n) (rn_milisecond n) (rn_creation n)
  (rn_modified n) (rn_accessed n) (rn_flags n) (rn_lock n) (rn_data n) (rn_last n) (rn_bytes_available n)
  (rn_space_available n) v (rn_tail n).
Definition set_rn_tail v n := RamfsNode (rn_name n) (rn_size n) (rn_milisecond n) (rn_creation n)
  (rn_modified n) (rn_accessed n) (rn_flags n) (rn_lock n) (rn_data n) (rn_last n) (rn_bytes_available n)
  (rn_space_available n) (rn_head n) v.

(** The semaphores are counts here; who waits for them is in Sem.v. *)
Record state (H : Type) := State {
  rheap : H;
  kheap : H;
  datanodes : gmap Z datanode;
  ramnodes : gmap Z ramfs_node;
  nodes : gmap Z fs_node;
  sems : gmap Z Z;
  memory : mem;
  ticks : Z;
  now : Z;
}.
Arguments State {H}. Arguments rheap {H}. Arguments kheap {H}. Arguments datanodes {H}. Arguments ramnodes {H}.
Arguments nodes {H}. Arguments sems {H}. Arguments memory {H}. Arguments ticks {H}. Arguments now {H}.

Section ramfs.
Context {H : Type} `{Allocator H}.

Definition with_rheap v (st : state H) : state H :=
  State v (kheap st) (datanodes st) (ramnodes st) (nodes st) (sems st) (memory st) (ticks st) (now st).
Definition with_kheap v (st : state H) : state H :=
  State (rheap st) v (datanodes st) (ramnodes st) (nodes st) (sems st) (memory st) (ticks st) (now st).
Definition with_datanodes v (st : state H) : state H :=
  State (rheap st) (kheap st) v (ramnodes st) (nodes st) (sems st) (memory st) (ticks st) (now st).
Definition with_ramnodes v (st : state H) : state H :=
  State (rheap st) (kheap st) (datanodes st) v (nodes st) (sems st) (memory st) (ticks st) (now st).
Definition with_nodes v (st : state H) : state H :=
  State (rheap st) (kheap st) (datanodes st) (ramnodes st) v (sems st) (memory st) (ticks st) (now st).
Definition with_sems v (st : state H) : state H :=
  State (rheap st) (kheap st) (datanodes st) (ramnodes st) (nodes st) v (memory st) (ticks st) (now st).
Definition with_memory v (st : state H) : state H :=
  State (rheap st) (kheap st) (datanodes st) (ramnodes st) (nodes st) (sems st) v (ticks st) (now st).

Definition get_dn (st : state H) (p : Z) : outcome datanode := of_option (datanodes st !! p).
Definition get_rn (st : state H) (p : Z) : outcome ramfs_node := of_option (ramnodes st !! p).
Definition get_node (st : state H) (p : Z) : outcome fs_node := of_option (nodes st !! p).
Definition put_dn (p : Z) (d : datanode) (st : state H) : state H := with_datanodes (<[p := d]> (datanodes st)) st.
Definition put_rn (p : Z) (r : ramfs_node) (st : state H) : state H := with_ramnodes (<[p := r]> (ramnodes st)) st.
Definition put_node (p : Z) (n : fs_node) (st : state H) : state H := with_nodes (<[p := n]> (nodes st)) st.

(** [p->next = q] *)
Definition set_next (p q : Z) (st : state H) : outcome (state H) :=
  d ← get_dn st p; Ret (put_dn p (Datanode q (data d)) st).

(** ** Allocation *)

Definition rmalloc (st : state H) (size : Z) : Z * state H :=
  let '(p, h) := alloc (rheap st) size in (p, with_rheap h st).

(** rfree, of an object of either type. *)
Definition rfree (st : state H) (p : Z) : state H :=
  with_ramnodes (delete p (ramnodes st)) (with_datanodes (delete p (datanodes st)) (with_rheap (release (rheap st) p) st)).

(** rmalloc(sizeof(ramfs_datanode_t)); every caller sets [next] before it is read. *)
Definition malloc_datanode (st : state H) : Z * state H :=
  let '(p, st') := rmalloc st sizeof_datanode in
  (p, if p =? 0 then st' else put_dn p (Datanode 0 (garbage (rheap st) p)) st').

Definition semaphore_create (st : state H) (initial_count : Z) : Z * state H :=
  let '(p, h) := alloc (kheap st) sizeof_semaphore in
  let st := with_kheap h st in
  (p, if p =? 0 then st else with_sems (<[p := initial_count]> (sems st)) st).

Definition kfree (st : state H) (p : Z) : state H :=
  with_sems (delete p (sems st)) (with_kheap (release (kheap st) p) st).

Definition create_new_node (st : state H) (name : list Z) (flags size data : Z) : Z * state H :=
  let namelen := Z.of_nat (length name) in
  let namelen := if FILENAME_LIMIT <=? namelen then FILENAME_LIMIT - 1 else namelen in
  let '(node, st) := rmalloc st (sizeof_ramfs_node + namelen + 1) in
  if node =? 0 then (0, st)
  else
    let '(lock, st) := semaphore_create st 1 in
    if lock =? 0 then (0, rfree st node)
    else
      let rn := RamfsNode (take (Z.to_nat namelen) name) size (u16 (ticks st * 1000 / TIMER_FREQUENCY)) (now st) 0 0 flags lock data in
      if Z.land flags FS_NODE_TYPE_MASK =? FS_NODE_TYPE_PIPE then
        let '(bytes_available, st) := semaphore_create st 0 in
        let '(space_available, st) := semaphore_create st RAMFS_PIPE_SIZE in
        if (bytes_available =? 0) || (space_available =? 0) then
          let st := if bytes_available =? 0 then st else kfree st bytes_available in
          let st := if space_available =? 0 then st else kfree st space_available in
          (0, rfree st node)
        else (node, put_rn node (rn data bytes_available space_available 0 0) st)
      else (node, put_rn node (rn 0 0 0 0 0) st).

(** What to_fs_node leaves in the node that held [old]. *)
Definition to_fs_node (st : state H) (ramnode parent : Z) (old : fs_node) : outcome fs_node :=
  r ← get_rn st ramnode;
  p ← get_node st parent;
  let ty t := Z.land (rn_flags r) FS_NODE_TYPE_MASK =? t in
  Ret (FsNode (rn_name r) (fs p) parent 0 0 (rn_flags r) (mount_target old) (rn_milisecond r) (rn_creation r)
    (rn_modified r) (rn_accessed r) (rn_size r) 0 1 ramnode
    (if ty FS_NODE_TYPE_SEMAPHORE then rn_data r else if ty FS_NODE_TYPE_PIPE then rn_bytes_available r else node_sem old)
    (if ty FS_NODE_TYPE_PIPE then rn_space_available r else space_available old)).

(** ** Chains of datanodes *)

Definition remove_step '(current, st) : outcome ((Z * state H) + state H) :=
  if current =? 0 then Ret (inr st)
  else d ← get_dn st current; Ret (inl (next d, rfree st current)).
Definition remove_datanode_chain (st : state H) (node : Z) : outcome (state H) := while remove_step (node, st).

Definition copy_step '(current, copied, ret, st) : outcome ((Z * Z * Z * state H) + (Z * state H)) :=
  if current =? 0 then Ret (inr (ret, st))
  else
    let '(p, st) := malloc_datanode st in
    st ← (if copied =? 0 then Ret st else set_next copied p st);
    if p =? 0 then Ret (inr (0, st))
    else
      d ← get_dn st current;
      Ret (inl (next d, p, if copied =? 0 then p else ret, put_dn p (Datanode 0 (data d)) st)).
Definition copy_datanode_chain (st : state H) (datanode : Z) : outcome (Z * state H) := while copy_step (datanode, 0, 0, st).

(** memset(data, 0, RAMFS_DATANODE_SIZE): every byte read is 0. *)
Definition zeroed : mem := ∅.

Definition clear_data (clear : bool) (p : Z) (st : state H) : outcome (state H) :=
  if clear then d ← get_dn st p; Ret (put_dn p (Datanode (next d) zeroed) st) else Ret st.

(** The loop clears the node before the one it has just allocated. *)
Definition allocate_step (clear : bool) (start_node : Z) '(current_node, count, st) :
  outcome ((Z * Z * state H) + (Z * state H)) :=
  if count =? 0 then Ret (inr (start_node, st))
  else
    let '(p, st) := malloc_datanode st in
    st ← set_next current_node p st;
    if p =? 0 then st ← remove_datanode_chain st start_node; Ret (inr (0, st))
    else
      st ← clear_data clear current_node st;
      st ← set_next p 0 st;
      Ret (inl (p, u32 (count - 1), st)).

Definition ramfs_allocate_datanodes (st : state H) (count : Z) (clear : bool) : outcome (Z * state H) :=
  if count =? 0 then Ret (0, st)
  else
    let '(start_node, st) := malloc_datanode st in
    if start_node =? 0 then Ret (0, st)
    else
      st ← clear_data clear start_node st;
      let count := u32 (count - 1) in
      if count =? 0 then st ← set_next start_node 0 st; Ret (start_node, st)
      else while (allocate_step clear start_node) (start_node, count, st).

Definition last_step (st : state H) (p : Z) : outcome (Z + Z) :=
  d ← get_dn st p; Ret (if next d =? 0 then inr p else inl (next d)).
Definition ramfs_get_last_datanode_of_chain (st : state H) (datanode : Z) : outcome Z :=
  if datanode =? 0 then Ret 0 else while (last_step st) datanode.

(** ** Reading and writing a chain *)

Definition peek_data (d : datanode) (off n : Z) : list Z := map (fun i => load8 (data d) (off + i)) (seqZ 0 n).

Fixpoint poke (m : mem) (off : Z) (l : list Z) : mem :=
  match l with [] => m | b :: l => poke (store8 m off b) (off + 1) l end.

(** The results carry what has gone into the buffer so far. *)
Definition skip_step (st : state H) '(start, data_offset) : outcome ((Z * Z) + (Z * Z * bool)) :=
  if RAMFS_DATANODE_SIZE <=? data_offset then
    d ← get_dn st start;
    Ret (if next d =? 0 then inr (start, data_offset, false) else inl (next d, data_offset - RAMFS_DATANODE_SIZE))
  else Ret (inr (start, data_offset, true)).

Definition read_step (st : state H) '(start, size, buffer) : outcome ((Z * Z * list Z) + (FS_ERR * Z * list Z)) :=
  d ← get_dn st start;
  let read_size := if size <? RAMFS_DATANODE_SIZE then size else RAMFS_DATANODE_SIZE in
  let buffer := buffer ++ peek_data d 0 read_size in
  let size := u32 (size - read_size) in
  Ret (if size =? 0 then inr (ERR_FS_SUCCESS, start, buffer)
       else if next d =? 0 then inr (ERR_FS_EOF, start, buffer)
       else inl (next d, size, buffer)).

Definition read_file (st : state H) (start size data_offset : Z) : outcome (FS_ERR * Z * list Z) :=
  '(start, data_offset, ok) ← while (skip_step st) (start, data_offset);
  if negb ok then Ret (ERR_FS_EOF, start, [])
  else if 0 <? data_offset then
    d ← get_dn st start;
    let read_size := RAMFS_DATANODE_SIZE - data_offset in
    if size <=? read_size then Ret (ERR_FS_SUCCESS, start, peek_data d data_offset size)
    else
      let buffer := peek_data d data_offset read_size in
      if next d =? 0 then Ret (ERR_FS_EOF, start, buffer)
      else while (read_step st) (next d, u32 (size - read_size), buffer)
  else while (read_step st) (start, size, []).

Definition grow_step '(start, data_offset, st) : outcome ((Z * Z * state H) + (Z * Z * state H * bool)) :=
  if RAMFS_DATANODE_SIZE <=? data_offset then
    d ← get_dn st start;
    '(p, st) ← (if next d =? 0 then
      '(p, st) ← ramfs_allocate_datanodes st (data_offset / RAMFS_DATANODE_SIZE) false;
      st ← set_next start p st; Ret (p, st)
    else Ret (next d, st));
    Ret (if p =? 0 then inr (start, data_offset, st, false)
         else inl (p, data_offset - RAMFS_DATANODE_SIZE * (data_offset / RAMFS_DATANODE_SIZE), st))
  else Ret (inr (start, data_offset, st, true)).

(** memcpy into a datanode. *)
Definition poke_dn (st : state H) (p off : Z) (l : list Z) : outcome (state H) :=
  d ← get_dn st p; Ret (put_dn p (Datanode (next d) (poke (data d) off l)) st).

(** [buffer] is what is left to write. *)
Definition write_step '(start, buffer, written, st) :
  outcome ((Z * list Z * Z * state H) + (FS_ERR * Z * Z * state H)) :=
  let size := Z.of_nat (length buffer) in
  let write_size := if size <? RAMFS_DATANODE_SIZE then size else RAMFS_DATANODE_SIZE in
  st ← poke_dn st start 0 (take (Z.to_nat write_size) buffer);
  let written := u32 (written + write_size) in
  if size - write_size =? 0 then Ret (inr (ERR_FS_SUCCESS, start, written, st))
  else
    d ← get_dn st start;
    Ret (if next d =? 0 then inr (ERR_FS_EOF, start, written, st)
         else inl (next d, drop (Z.to_nat write_size) buffer, written, st)).

(** The second half of write_file, at the start of a datanode. *)
Definition write_datanodes (st : state H) (start : Z) (buffer : list Z) (written : Z) : outcome (FS_ERR * Z * Z * state H) :=
  let estimated_datanode := Z.of_nat (length buffer) / RAMFS_DATANODE_SIZE in
  if 0 <? estimated_datanode then
    '(p, st) ← ramfs_allocate_datanodes st estimated_datanode false;
    st ← set_next start p st;
    if p =? 0 then Ret (ERR_FS_NOT_ENOUGH_SPACE, start, written, st)
    else while write_step (start, buffer, written, st)
  else while write_step (start, buffer, written, st).

Definition write_file (st : state H) (start : Z) (buffer : list Z) (data_offset : Z) : outcome (FS_ERR * Z * Z * state H) :=
  '(start, data_offset, st, ok) ← while grow_step (start, data_offset, st);
  if negb ok then Ret (ERR_FS_NOT_ENOUGH_SPACE, start, 0, st)
  else if 0 <? data_offset then
    let size := Z.of_nat (length buffer) in
    let full_write_size := RAMFS_DATANODE_SIZE - data_offset in
    let write_size := if size <=? full_write_size then size else full_write_size in
    st ← poke_dn st start data_offset (take (Z.to_nat write_size) buffer);
    let buffer := drop (Z.to_nat write_size) buffer in
    if size - write_size =? 0 then Ret (ERR_FS_SUCCESS, start, write_size, st)
    else
      d ← get_dn st start;
      '(p, st) ← (if next d =? 0 then
        '(p, st) ← ramfs_allocate_datanodes st 1 false;
        st ← set_next start p st; Ret (p, st)
      else Ret (next d, st));
      if p =? 0 then Ret (ERR_FS_NOT_ENOUGH_SPACE, start, write_size, st)
      else write_datanodes st p buffer write_size
  else write_datanodes st start buffer 0.

(** ** Directories *)

Definition entry (d : datanode) (i : Z) : Z := load32 (data d) (4 * i).
Definition set_entry (st : state H) (p i v : Z) : outcome (state H) :=
  d ← get_dn st p; Ret (put_dn p (Datanode (next d) (store32 (data d) (4 * i) v)) st).

(** fix_empty_entries looks for the first entry of the run of empty ones the
    directory ends in: the datanode, 0 for none yet, and the index. *)
Fixpoint scan_empty (d : datanode) (current : Z) (n : nat) (entry_id start_node first_empty : Z) : bool * Z * Z :=
  match n with
  | O => (false, start_node, first_empty)
  | S n' =>
      if entry d entry_id =? END_ENTRY then (true, start_node, first_empty)
      else if entry d entry_id =? EMPTY_ENTRY then
        if start_node =? 0 then scan_empty d current n' (entry_id + 1) current entry_id
        else scan_empty d current n' (entry_id + 1) start_node first_empty
      else scan_empty d current n' (entry_id + 1) 0 first_empty
  end.

Definition fix_step (st : state H) '(current, start_node, first_empty) : outcome ((Z * Z * Z) + (Z * Z)) :=
  d ← get_dn st current;
  let '(stop, start_node, first_empty) := scan_empty d current (Z.to_nat DIRECTORY_ENTRY_COUNT) 0 start_node first_empty in
  Ret (if stop || (next d =? 0) then inr (start_node, first_empty) else inl (next d, start_node, first_empty)).

Definition clear_entries (d : datanode) (from : Z) : datanode :=
  Datanode (next d) (for_range (fun i m => store32 m (4 * i) END_ENTRY) from (Z.to_nat (DIRECTORY_ENTRY_COUNT - from)) (data d)).

Definition fix_empty_entries (st : state H) (node : Z) : outcome (state H) :=
  r ← get_rn st node;
  '(start_node, first_empty) ← while (fix_step st) (rn_data r, 0, 0);
  if start_node =? 0 then Ret st
  else
    d ← get_dn st start_node;
    let st := put_dn start_node (clear_entries d first_empty) st in
    st ← remove_datanode_chain st (next d);
    set_next start_node 0 st.

Definition ramfs_make_diriter_adapter (dir : file_description) (diriter : directory_iterator) : directory_iterator :=
  DirectoryIterator (di_node diriter) (current_index diriter) (fd_current dir).
Definition ramfs_save_diriter_adapter (dir : file_description) (diriter : directory_iterator) : file_description :=
  set_fd_current (di_current diriter) dir.

Definition ramfs_setup_directory_iterator (st : state H) (node : Z) : outcome (FS_ERR * directory_iterator) :=
  n ← get_node st node;
  r ← get_rn st (node_addr n);
  Ret (ERR_FS_SUCCESS, DirectoryIterator node (-1) (rn_data r)).

(** On to the next entry that is not empty: its datanode and index, or the end
    of the chain. *)
Definition entry_step (st : state H) '(p, i) : outcome ((Z * Z) + (Z * Z * bool)) :=
  d ← get_dn st p;
  if i =? DIRECTORY_ENTRY_COUNT then Ret (if next d =? 0 then inr (p, i, false) else inl (next d, 0))
  else if DIRECTORY_ENTRY_COUNT <? i then Fault
  else Ret (if entry d i =? EMPTY_ENTRY then inl (p, i + 1) else inr (p, i, true)).

Definition ramfs_iterate_directory (st : state H) (diriter : directory_iterator) (ret_node : fs_node) :
  outcome (FS_ERR * directory_iterator * fs_node) :=
  '(p, i, more) ← while (entry_step st) (di_current diriter, current_index diriter + 1);
  let eof := (ERR_FS_EOF, DirectoryIterator (di_node diriter) i (di_current diriter), ret_node) in
  if negb more then Ret eof
  else
    d ← get_dn st p;
    if entry d i =? END_ENTRY then Ret eof
    else
      n ← to_fs_node st (entry d i) (di_node diriter) ret_node;
      Ret (ERR_FS_SUCCESS, DirectoryIterator (di_node diriter) i p, n).

(** One datanode of the search of ramfs_add_entry: the free entry found so far
    (datanode 0 for none), or [None] when the name is taken. *)
Fixpoint scan_names (st : state H) (name : list Z) (d : datanode) (p : Z) (n : nat) (entry_id : Z) (free : Z * Z) :
  outcome (option (Z * Z)) :=
  match n with
  | O => Ret (Some free)
  | S n' =>
      let e := entry d entry_id in
      if (e =? END_ENTRY) || (e =? EMPTY_ENTRY) then
        let free := if free.1 =? 0 then (p, entry_id) else free in
        if e =? END_ENTRY then Ret (Some free) else scan_names st name d p n' (entry_id + 1) free
      else
        r ← get_rn st e;
        if bool_decide (rn_name r = name) then Ret None else scan_names st name d p n' (entry_id + 1) free
  end.

Definition search_step (st : state H) (name : list Z) '(p, free) :
  outcome ((Z * (Z * Z)) + option (Z * (Z * Z))) :=
  d ← get_dn st p;
  r ← scan_names st name d p (Z.to_nat DIRECTORY_ENTRY_COUNT) 0 free;
  Ret (match r with
       | None => inr None
       | Some free => if next d =? 0 then inr (Some (p, free)) else inl (next d, free)
       end).

(** The result holds what ends up in the node the caller passed as [new_node]. *)
Definition ramfs_add_entry (st : state H) (parent : Z) (name : list Z) (data flags size : Z) (new_node : fs_node) :
  outcome (FS_ERR * fs_node * state H) :=
  let new_node := set_flags 0 new_node in
  pn ← get_node st parent;
  pr ← get_rn st (node_addr pn);
  found ← while (search_step st name) (rn_data pr, (0, 0));
  match found with
  | None => Ret (ERR_FS_ENTRY_EXISTED, new_node, st)
  | Some (final_datanode, (p, empty_entry)) =>
      let '(ramnode, st) := create_new_node st name flags size data in
      if ramnode =? 0 then Ret (ERR_FS_NOT_ENOUGH_SPACE, new_node, st)
      else
        d ← get_dn st p;
        let finish st :=
          st ← set_entry st p empty_entry ramnode;
          n ← to_fs_node st ramnode parent new_node;
          Ret (ERR_FS_SUCCESS, set_size size n, st) in
        if entry d empty_entry =? END_ENTRY then
          if empty_entry <? DIRECTORY_ENTRY_COUNT - 1 then
            st ← set_entry st p (empty_entry + 1) END_ENTRY; finish st
          else
            let '(q, st) := malloc_datanode st in
            if q =? 0 then Ret (ERR_FS_NOT_ENOUGH_SPACE, new_node, rfree st ramnode)
            else
              st ← set_next final_datanode q (put_dn q (Datanode 0 zeroed) st); finish st
        else finish st
  end.

Definition ramfs_add_memory_entry (st : state H) (parent : Z) (name : list Z) (mem_addr mem_size : Z) (new_node : fs_node) :=
  ramfs_add_entry st parent name mem_addr FS_NODE_TYPE_MEMORY mem_size new_node.

Definition ramfs_create_special_node (st : state H) (parent : Z) (name : list Z) (type : Z) (new_node : fs_node) :
  outcome (FS_ERR * fs_node * state H) :=
  if Z.land type FS_NODE_TYPE_MASK =? FS_NODE_TYPE_PIPE then
    '(data, st) ← ramfs_allocate_datanodes st 1 false;
    if data =? 0 then Ret (ERR_FS_NOT_ENOUGH_SPACE, new_node, st)
    else ramfs_add_entry st parent name data type 0 new_node
  else ramfs_add_entry st parent name 0 type 0 new_node.

(** Does the datanode hold an entry other than . and ..? *)
Fixpoint scan_content (st : state H) (d : datanode) (n : nat) (entry_id : Z) : outcome bool :=
  match n with
  | O => Ret false
  | S n' =>
      let e := entry d entry_id in
      if e =? END_ENTRY then Ret false
      else if e =? EMPTY_ENTRY then Ret true
      else
        r ← get_rn st e;
        if bool_decide (rn_name r = [46]) || bool_decide (rn_name r = [46; 46]) then scan_content st d n' (entry_id + 1)
        else Ret true
  end.

Definition content_step (st : state H) (p : Z) : outcome (Z + bool) :=
  d ← get_dn st p;
  b ← scan_content st d (Z.to_nat DIRECTORY_ENTRY_COUNT) 0;
  Ret (if b : bool then inr true else if next d =? 0 then inr false else inl (next d)).

Fixpoint scan_entry (d : datanode) (e : Z) (n : nat) (entry_id : Z) : option Z :=
  match n with
  | O => None
  | S n' =>
      if entry d entry_id =? END_ENTRY then None
      else if entry d entry_id =? EMPTY_ENTRY then scan_entry d e n' (entry_id + 1)
      else if entry d entry_id =? e then Some entry_id
      else scan_entry d e n' (entry_id + 1)
  end.

Definition find_step (st : state H) (e : Z) (p : Z) : outcome (Z + option (Z * Z)) :=
  d ← get_dn st p;
  Ret (match scan_entry d e (Z.to_nat DIRECTORY_ENTRY_COUNT) 0 with
       | Some i => inr (Some (p, i))
       | None => if next d =? 0 then inr None else inl (next d)
       end).

Definition ramfs_remove_entry (st : state H) (parent remove_node : Z) (remove_content : bool) : outcome (FS_ERR * state H) :=
  pn ← get_node st parent;
  rmn ← get_node st remove_node;
  pr ← get_rn st (node_addr pn);
  rr ← get_rn st (node_addr rmn);
  not_empty ← (if FS_NODE_IS_DIRECTORY rmn && remove_content then while (content_step st) (rn_data rr) else Ret false);
  if not_empty : bool then Ret (ERR_FS_DIR_NOT_EMPTY, st)
  else
    found ← while (find_step st (node_addr rmn)) (rn_data pr);
    match found with
    | None => Ret (ERR_FS_NOT_FOUND, st)
    | Some (p, entry_id) =>
        let type := Z.land (rn_flags rr) FS_NODE_TYPE_MASK in
        st ← (if negb (type =? FS_NODE_TYPE_MEMORY) && negb (type =? FS_NODE_TYPE_SEMAPHORE) && remove_content
              then remove_datanode_chain st (rn_data rr) else Ret st);
        let st := rfree st (node_addr rmn) in
        d ← get_dn st p;
        if entry_id <? DIRECTORY_ENTRY_COUNT - 1 then
          if entry d (entry_id + 1) =? END_ENTRY then
            st ← set_entry st p entry_id END_ENTRY;
            st ← (if (entry_id =? 0) || (entry d (entry_id - 1) =? EMPTY_ENTRY)
                  then fix_empty_entries st (node_addr pn) else Ret st);
            Ret (ERR_FS_SUCCESS, st)
          else st ← set_entry st p entry_id EMPTY_ENTRY; Ret (ERR_FS_SUCCESS, st)
        else
          st ← set_entry st p entry_id EMPTY_ENTRY;
          st ← fix_empty_entries st (node_addr pn);
          Ret (ERR_FS_SUCCESS, st)
    end.

(** ** Nodes *)

Definition ramfs_update_entry (st : state H) (node : Z) : outcome (FS_ERR * state H) :=
  n ← get_node st node;
  r ← get_rn st (node_addr n);
  let r := set_rn_flags (flags n) r in
  let r := set_rn_accessed (accessed_timestamp n) r in
  let r := set_rn_modified (modified_timestamp n) r in
  let r := set_rn_size (size n) r in
  let r := set_rn_flags (Z.lor (Z.land (rn_flags r) (Z.lnot FS_NODE_TYPE_MASK)) (FS_NODE_GET_TYPE n)) r in
  let r := if FS_NODE_IS_SEMAPHORE n then set_rn_data (node_sem n) r else r in
  Ret (ERR_FS_SUCCESS, put_rn (node_addr n) r st).

(** A local variable before it is written. *)
Definition uninitialised : fs_node := FsNode [] 0 0 0 0 0 0 0 0 0 0 0 0 0 0 0 0.

Definition ramfs_mkdir (st : state H) (parent : Z) (name : list Z) (flags new_node : Z) : outcome (FS_ERR * state H) :=
  n ← get_node st new_node;
  let st := put_node new_node (set_flags 0 n) st in
  '(datanode_chain, st) ← ramfs_allocate_datanodes st 1 true;
  if datanode_chain =? 0 then Ret (ERR_FS_NOT_ENOUGH_SPACE, st)
  else
    '(err, n, st) ← ramfs_add_entry st parent name datanode_chain (Z.lor FS_NODE_TYPE_DIRECTORY flags) 0 n;
    let st := put_node new_node n st in
    if failed err then Ret (err, st)
    else
      r ← get_rn st (node_addr n);
      '(err, _, st) ← ramfs_add_entry st new_node [46] (rn_data r) (Z.lor FS_NODE_TYPE_DIRECTORY FS_NODE_FLAG_HIDDEN) 0 uninitialised;
      if failed err then Ret (err, st)
      else
        pn ← get_node st parent;
        pr ← get_rn st (node_addr pn);
        '(err, _, st) ← ramfs_add_entry st new_node [46; 46] (rn_data pr) (Z.lor FS_NODE_TYPE_DIRECTORY FS_NODE_FLAG_HIDDEN) 0 uninitialised;
        Ret (err, st).

Definition ramfs_node_create (st : state H) (parent : Z) (name : list Z) (flags new_node : Z) : outcome (FS_ERR * state H) :=
  '(datanode_chain, st) ← ramfs_allocate_datanodes st 1 false;
  if datanode_chain =? 0 then Ret (ERR_FS_NOT_ENOUGH_SPACE, st)
  else
    n ← get_node st new_node;
    '(err, n, st) ← ramfs_add_entry st parent name datanode_chain (Z.lor flags FS_NODE_TYPE_FILE) 0 n;
    Ret (err, put_node new_node n st).

Definition ramfs_node_copy (st : state H) (node new_parent copied : Z) (new_name : list Z) : outcome (FS_ERR * state H) :=
  n ← get_node st node;
  r ← get_rn st (node_addr n);
  '(copied_datanode, st) ← copy_datanode_chain st (rn_data r);
  if copied_datanode =? 0 then Ret (ERR_FS_NOT_ENOUGH_SPACE, st)
  else
    c ← get_node st copied;
    '(err, c, st) ← ramfs_add_entry st new_parent new_name copied_datanode (flags n) (size n) c;
    Ret (err, put_node copied c st).

Definition ramfs_node_move (st : state H) (node new_parent : Z) (new_name : list Z) : outcome (FS_ERR * state H) :=
  n ← get_node st node;
  r ← get_rn st (node_addr n);
  '(err, copied, st) ← ramfs_add_entry st new_parent new_name (rn_data r) (flags n) (size n) uninitialised;
  if failed err then Ret (err, st)
  else
    '(err, st) ← ramfs_remove_entry st (parent n) node false;
    if failed err then Ret (err, st)
    else Ret (ERR_FS_SUCCESS, put_node node copied st).

Definition ramfs_node_reset (st : state H) (node : Z) : outcome (FS_ERR * state H) :=
  n ← get_node st node;
  if FS_NODE_IS_MEMORY n then Ret (ERR_FS_SUCCESS, st)
  else
    r ← get_rn st (node_addr n);
    d ← get_dn st (rn_data r);
    st ← remove_datanode_chain st (next d);
    st ← set_next (rn_data r) 0 st;
    Ret (ERR_FS_SUCCESS, put_node node (set_size 0 n) st).

(** ** Pipes

    The system calls that acquire a semaphore return when the count covers the
    request; with no one else running to release it, waiting is [Spin]. *)

Definition kacquire (st : state H) (sem n : Z) : outcome (state H) :=
  c ← of_option (sems st !! sem);
  if n <=? c then Ret (with_sems (<[sem := c - n]> (sems st)) st) else Spin.

Definition krelease (st : state H) (sem n : Z) : outcome (state H) :=
  c ← of_option (sems st !! sem); Ret (with_sems (<[sem := u32 (c + n)]> (sems st)) st).

(** Give the lock of a node up, wait for the semaphore, and take the lock back. *)
Definition wait_unlocked (st : state H) (node sem : Z) : outcome (state H) :=
  n ← get_node st node;
  let st := put_node node (set_lock (u32 (lock n + 1)) n) st in
  st ← kacquire st sem 1;
  n ← get_node st node;
  if 1 <=? lock n then Ret (put_node node (set_lock (lock n - 1) n) st) else Spin.

(** Having acquired one unit, take as many more as [count] asks for and are
    there. *)
Definition bulk_acquire (st : state H) (sem count : Z) : outcome (Z * state H) :=
  c ← of_option (sems st !! sem);
  let available := u32 (1 + c) in
  let total := if count <? available then count else available in
  st ← (if 1 <? total then kacquire st sem (total - 1) else Ret st);
  Ret (total, st).

Definition pipe_read_step (ramnode : Z) '(remaining, head_offset, buffer, st) :
  outcome ((Z * Z * list Z * state H) + (Z * list Z * state H)) :=
  if remaining <=? 0 then Ret (inr (head_offset, buffer, st))
  else
    r ← get_rn st ramnode;
    let first := rn_data r in
    if first =? 0 then Ret (inr (head_offset, buffer, st))
    else
      let chunk_avail := u32 (RAMFS_DATANODE_SIZE - head_offset) in
      let chunk_read := if remaining <? chunk_avail then remaining else chunk_avail in
      if chunk_read =? 0 then Ret (inr (head_offset, buffer, st))
      else
        d ← get_dn st first;
        let buffer := buffer ++ peek_data d head_offset chunk_read in
        let remaining := remaining - chunk_read in
        let head_offset := head_offset + chunk_read in
        if head_offset =? RAMFS_DATANODE_SIZE then
          let st := if next d =? 0 then st else rfree (put_rn ramnode (set_rn_data (next d) r) st) first in
          Ret (inl (remaining, 0, buffer, st))
        else Ret (inl (remaining, head_offset, buffer, st)).

Definition ramfs_pipe_read (st : state H) (file : file_description) (count : Z) :
  outcome (FS_ERR * list Z * file_description * state H) :=
  n ← get_node st (fd_node file);
  let ramnode := node_addr n in
  if count =? 0 then Ret (ERR_FS_SUCCESS, [], file, st)
  else
    st ← wait_unlocked st (fd_node file) (node_sem n);
    '(to_read_total, st) ← bulk_acquire st (node_sem n) count;
    r ← get_rn st ramnode;
    '(head_offset, buffer, st) ← while (pipe_read_step ramnode) (to_read_total, rn_head r, [], st);
    let actual_read_size := Z.of_nat (length buffer) in
    r ← get_rn st ramnode;
    let file := set_fd_current (rn_data r) (set_position head_offset file) in
    n ← get_node st (fd_node file);
    let n := set_size (u32 (size n - actual_read_size)) n in
    let st := put_rn ramnode (set_rn_size (size n) (set_rn_head head_offset r)) (put_node (fd_node file) n st) in
    st ← krelease st (space_available n) actual_read_size;
    Ret (ERR_FS_SUCCESS, buffer, file, st).

(** [buffer] is what is left to write, at most [remaining] of it. *)
Definition pipe_write_step (ramnode : Z) '(remaining, tail_offset, buffer, written, st) :
  outcome ((Z * Z * list Z * Z * state H) + (Z * Z * state H)) :=
  if remaining <=? 0 then Ret (inr (tail_offset, written, st))
  else
    r ← get_rn st ramnode;
    let last := rn_last r in
    if last =? 0 then Ret (inr (tail_offset, written, st))
    else
      let chunk_avail := u32 (RAMFS_DATANODE_SIZE - tail_offset) in
      let chunk_write := if remaining <? chunk_avail then remaining else chunk_avail in
      st ← poke_dn st last tail_offset (take (Z.to_nat chunk_write) buffer);
      let buffer := drop (Z.to_nat chunk_write) buffer in
      let remaining := remaining - chunk_write in
      let written := written + chunk_write in
      let tail_offset := tail_offset + chunk_write in
      if tail_offset =? RAMFS_DATANODE_SIZE then
        d ← get_dn st last;
        '(p, st) ← (if next d =? 0 then
          '(p, st) ← ramfs_allocate_datanodes st 1 false;
          st ← set_next last p st; Ret (p, st)
        else Ret (next d, st));
        if p =? 0 then Ret (inr (tail_offset, written, st))
        else
          r ← get_rn st ramnode;
          Ret (inl (remaining, 0, buffer, written, put_rn ramnode (set_rn_last p r) st))
      else Ret (inl (remaining, tail_offset, buffer, written, st)).

Definition ramfs_pipe_write (st : state H) (file : file_description) (buffer : list Z) :
  outcome (FS_ERR * Z * file_description * state H) :=
  n ← get_node st (fd_node file);
  let ramnode := node_addr n in
  let count := Z.of_nat (length buffer) in
  if count =? 0 then Ret (ERR_FS_SUCCESS, 0, file, st)
  else
    st ← wait_unlocked st (fd_node file) (space_available n);
    '(to_write_total, st) ← bulk_acquire st (space_available n) count;
    r ← get_rn st ramnode;
    '(tail_offset, actual_write_size, st) ← while (pipe_write_step ramnode) (to_write_total, rn_tail r, buffer, 0, st);
    r ← get_rn st ramnode;
    let file := set_position tail_offset file in
    n ← get_node st (fd_node file);
    let n := set_size (u32 (size n + actual_write_size)) n in
    let st := put_rn ramnode (set_rn_size (size n) (set_rn_tail tail_offset r)) (put_node (fd_node file) n st) in
    st ← krelease st (node_sem n) actual_write_size;
    Ret (ERR_FS_SUCCESS, actual_write_size, file, st).

(** ** Files *)

Definition seek_step (st : state H) (seek_position : Z) '(current_datanode, current_size) : outcome ((Z * Z) + (Z * Z)) :=
  let current_size := u32 (current_size + RAMFS_DATANODE_SIZE) in
  if seek_position <=? current_size then Ret (inr (current_datanode, u32 (current_size - RAMFS_DATANODE_SIZE)))
  else
    d ← get_dn st current_datanode;
    Ret (if next d =? 0 then inr (current_datanode, current_size) else inl (next d, current_size)).

Definition ramfs_file_seek_absolute (st : state H) (file : file_description) (seek_position : Z) :
  outcome (FS_ERR * file_description) :=
  let seek_position := if seek_position <? 0 then 0 else seek_position in
  n ← get_node st (fd_node file);
  if FS_NODE_IS_MEMORY n then
    Ret (ERR_FS_SUCCESS, set_position (if size n <? seek_position then size n else seek_position) file)
  else
    r ← get_rn st (node_addr n);
    let forward := position file <? seek_position in
    let current_datanode := if forward then fd_current file else rn_data r in
    let current_size := if forward then u32 (position file - Z.rem (position file) RAMFS_DATANODE_SIZE) else 0 in
    '(current_datanode, current_size) ← while (seek_step st seek_position) (current_datanode, current_size);
    let file := set_position (if u32 (current_size + RAMFS_DATANODE_SIZE) <? seek_position then size n else seek_position) file in
    Ret (ERR_FS_SUCCESS, set_fd_current current_datanode file).

(** The offset of a position in the datanode it is kept with: a full datanode is
    left only when there is something to read or write behind it. *)
Definition datanode_offset (position : Z) : Z :=
  let offset := Z.rem position RAMFS_DATANODE_SIZE in
  if negb (position =? 0) && (offset =? 0) then RAMFS_DATANODE_SIZE else offset.

(** What is left of a memory node at the descriptor's position; [None] at its
    end. *)
Definition memory_window (st : state H) (n : fs_node) (file : file_description) (count : Z) : outcome (option (Z * Z)) :=
  r ← get_rn st (node_addr n);
  let remain_size := u32 (size n - position file) in
  Ret (if size n <=? position file then None
       else Some (rn_data r + position file, if remain_size <? count then remain_size else count)).

(** The bytes read come with the descriptor as it is left. *)
Definition ramfs_file_read (st : state H) (file : file_description) (count : Z) :
  outcome (FS_ERR * list Z * file_description * state H) :=
  n ← get_node st (fd_node file);
  if FS_NODE_IS_MEMORY n then
    w ← memory_window st n file count;
    Ret (match w with
         | None => (ERR_FS_EOF, [], set_position (size n) file, st)
         | Some (addr, safe_size) =>
             (ERR_FS_SUCCESS, map (fun i => load8 (memory st) (addr + i)) (seqZ 0 safe_size), file, st)
         end)
  else if FS_NODE_IS_PIPE n then ramfs_pipe_read st file count
  else
    '(err, p, buffer) ← read_file st (fd_current file) count (datanode_offset (position file));
    Ret (err, buffer, set_fd_current p file, st).

Definition ramfs_file_write (st : state H) (file : file_description) (buffer : list Z) :
  outcome (FS_ERR * Z * file_description * state H) :=
  n ← get_node st (fd_node file);
  if FS_NODE_IS_MEMORY n then
    w ← memory_window st n file (Z.of_nat (length buffer));
    Ret (match w with
         | None => (ERR_FS_EOF, 0, set_position (size n) file, st)
         | Some (addr, safe_size) =>
             (ERR_FS_SUCCESS, safe_size, file, with_memory (poke (memory st) addr (take (Z.to_nat safe_size) buffer)) st)
         end)
  else if FS_NODE_IS_PIPE n then ramfs_pipe_write st file buffer
  else if has_flag (mode file) FILE_OPEN_APPEND then
    '(err, p, written, st) ← write_file st (fd_last file) buffer (datanode_offset (s32 (size n)));
    Ret (err, written, set_fd_last p file, st)
  else
    '(err, p, written, st) ← write_file st (fd_current file) buffer (datanode_offset (s32 (position file)));
    Ret (err, written, set_fd_current p file, st).

Definition ramfs_file_open (st : state H) (file : file_description) (node mode : Z) : outcome file_description :=
  n ← get_node st node;
  if FS_NODE_IS_MEMORY n || FS_NODE_IS_SEMAPHORE n then Ret file
  else
    r ← get_rn st (node_addr n);
    let chain := rn_data r in
    let file := if has_flag mode FILE_OPEN_WRITE || has_flag mode FILE_OPEN_READ then set_fd_current chain file else file in
    if has_flag mode FILE_OPEN_APPEND then
      last ← ramfs_get_last_datanode_of_chain st chain; Ret (set_fd_last last file)
    else Ret file.

(** The root directory, once the heap is there.  [root] is where fs->root_node
    lies. *)
Definition ramfs_init (st : state H) (fs root : Z) : outcome (FS_ERR * state H) :=
  '(datanode_chain, st) ← ramfs_allocate_datanodes st 1 true;
  if datanode_chain =? 0 then Ret (ERR_FS_NOT_ENOUGH_SPACE, st)
  else
    let '(root_ramnode, st) := create_new_node st [47] FS_NODE_TYPE_DIRECTORY 0 datanode_chain in
    if root_ramnode =? 0 then Ret (ERR_FS_NOT_ENOUGH_SPACE, st)
    else
      n ← get_node st root;
      Ret (ERR_FS_SUCCESS, put_node root (FsNode [47] fs 0 0 0 FS_NODE_TYPE_DIRECTORY (mount_target n) (creation_milisecond n)
        (creation_timestamp n) (modified_timestamp n) (accessed_timestamp n) (size n) 69420 1 root_ramnode (node_sem n)
        (space_available n)) st).
End ramfs.

(** ** The bytes of a chain *)

Definition dn_bytes (d : datanode) : list Z := peek_data d 0 RAMFS_DATANODE_SIZE.

(** [chain_to last m ps bytes]: the datanodes [ps] are linked in this order, the
    last one to [last], and hold [bytes]; a [chain] is linked to nothing. *)
Fixpoint chain_to (last : Z) (m : gmap Z datanode) (ps : list Z) (bytes : list Z) : Prop :=
  match ps with
  | [] => bytes = []
  | p :: ps' => p <> 0 /\ exists d rest, m !! p = Some d /\ next d = default last (head ps') /\
      bytes = dn_bytes d ++ rest /\ chain_to last m ps' rest
  end.
Abbreviation chain := (chain_to 0).

Lemma peek_data_length d off n : length (peek_data d off n) = Z.to_nat n.
Proof. unfold peek_data. now rewrite length_map, length_seqZ. Qed.

Lemma peek_data_sub d off n : 0 <= off -> off + n <= RAMFS_DATANODE_SIZE ->
  peek_data d off n = take (Z.to_nat n) (drop (Z.to_nat off) (dn_bytes d)).
Proof.
  intros Ho Hn. unfold dn_bytes. apply list_eq_same_length with (Z.to_nat n); [|apply peek_data_length|].
  { rewrite length_take, length_drop, peek_data_length. lia. }
  intros i x y Hi Hx Hy. rewrite lookup_take, decide_True, lookup_drop in Hy by assumption. unfold peek_data in *.
  apply list_lookup_fmap_Some in Hx as (j & -> & Hj). apply list_lookup_fmap_Some in Hy as (k & -> & Hk).
  apply lookup_seqZ in Hj as [-> _]. apply lookup_seqZ in Hk as [-> _]. f_equal. lia.
Qed.

Lemma dn_bytes_length d : length (dn_bytes d) = 512%nat.
Proof. apply peek_data_length. Qed.

Lemma chain_length last m ps bytes : chain_to last m ps bytes -> Z.of_nat (length bytes) = RAMFS_DATANODE_SIZE * Z.of_nat (length ps).
Proof.
  revert bytes. induction ps as [|p ps IH]; intros bytes C; cbn [chain_to] in C; [now subst|].
  destruct C as (_ & d & rest & _ & _ & -> & C). rewrite length_app, dn_bytes_length. specialize (IH _ C).
  unfold RAMFS_DATANODE_SIZE in *. cbn [length]. lia.
Qed.

Lemma chain_head m p ps bytes : chain m (p :: ps) bytes -> exists d rest, m !! p = Some d /\ p <> 0 /\
  next d = default 0 (head ps) /\ bytes = dn_bytes d ++ rest /\ chain m ps rest /\ ((next d =? 0) = match ps with [] => true | _ => false end).
Proof.
  intros (Hp & d & rest & Ed & En & Eb & C). exists d, rest. split_and!; auto. rewrite En.
  destruct ps as [|q ps]; [reflexivity|]. destruct C as (Hq & _). cbn. lia.
Qed.

Lemma dn_chain_ext last m m' ps bytes : (forall p, p ∈ ps -> m' !! p = m !! p) -> chain_to last m ps bytes -> chain_to last m' ps bytes.
Proof.
  revert bytes. induction ps as [|p ps IH]; intros bytes E C; cbn [chain_to] in *; [assumption|].
  destruct C as (Hp & d & rest & Ed & En & Eb & C). split; [assumption|]. exists d, rest.
  rewrite E by now left. split_and!; auto. apply IH; [|assumption]. intros q Hq. apply E. now right.
Qed.

Lemma chain_app last m ps qs bytes : chain_to last m (ps ++ qs) bytes <->
  exists b1 b2, bytes = b1 ++ b2 /\ chain_to (default last (head qs)) m ps b1 /\ chain_to last m qs b2.
Proof.
  revert bytes. induction ps as [|p ps IH]; intros bytes; cbn [app chain_to].
  - split; [intros C; exists [], bytes; auto|]. intros (b1 & b2 & -> & -> & C). exact C.
  - split.
    + intros (Hp & d & rest & Ed & En & -> & C). apply IH in C as (b1 & b2 & -> & C1 & C2).
      exists (dn_bytes d ++ b1), b2. rewrite app_assoc. split_and!; auto. exists d, b1. split_and!; auto.
      rewrite En. now destruct ps, qs.
    + intros (b1 & b2 & -> & (Hp & d & rest & Ed & En & -> & C1) & C2). split; [assumption|].
      exists d, (rest ++ b2). rewrite app_assoc. split_and!; auto; [|apply IH; eauto].
      rewrite En. now destruct ps, qs.
Qed.

Lemma chain_one last m p bytes : chain_to last m [p] bytes <->
  p <> 0 /\ exists d, m !! p = Some d /\ next d = last /\ bytes = dn_bytes d.
Proof.
  cbn. split.
  - intros (Hp & d & rest & Ed & En & -> & ->). rewrite app_nil_r. eauto.
  - intros (Hp & d & Ed & En & ->). split; [assumption|]. exists d, []. rewrite app_nil_r. auto.
Qed.

(** ** Reading a chain *)

Section reading.
Context {H : Type} `{Allocator H}.
Variable st : state H.

Abbreviation reads := (read_step st).

(** The datanode a position of a chain is kept with: the one that holds the byte
    before it, or the first. *)
Definition datanode_index (position : Z) : nat := Z.to_nat ((position - 1) / RAMFS_DATANODE_SIZE).

Lemma read_loop ps : forall p bytes size buffer, chain (datanodes st) (p :: ps) bytes -> 0 <= size < 2 ^ 32 ->
  exists q, loop reads (S (length ps)) (p, size, buffer) =
    Ret (if size <=? Z.of_nat (length bytes) then ERR_FS_SUCCESS else ERR_FS_EOF, q, buffer ++ take (Z.to_nat size) bytes) /\
    (p :: ps) !! datanode_index (Z.min size (Z.of_nat (length bytes))) = Some q.
Proof.
  unfold datanode_index. induction ps as [|p' ps IH]; intros p bytes size buffer C Hs;
    destruct (chain_head _ _ _ _ C) as (d & rest & Ed & _ & En & -> & Cr & Ez); rewrite loop_S; unfold read_step at 2;
    unfold get_dn; rewrite Ed; cbn [of_option]; rewrite bind_ret; cbv zeta; unfold RAMFS_DATANODE_SIZE in *;
    rewrite length_app, dn_bytes_length.
  - cbn in Cr. subst rest. rewrite app_nil_r, Ez. cbn [length]. destruct (Z.ltb_spec size 512) as [Hlt|Hge].
    + rewrite Z.sub_diag. change (u32 0 =? 0) with true. rewrite bind_ret. cbv iota.
      replace (size <=? _) with true by lia. exists p. split; [|].
      { do 2 f_equal. rewrite peek_data_sub by (unfold RAMFS_DATANODE_SIZE; lia). reflexivity. }
      replace (Z.to_nat _) with 0%nat; [reflexivity|]. Z.to_euclidean_division_equations; lia.
    + rewrite u32_small by lia. change (peek_data d 0 512) with (dn_bytes d).
      destruct (Z.eqb_spec (size - 512) 0) as [Hz|Hz]; rewrite bind_ret; cbv iota.
      * replace (size <=? _) with true by lia. exists p. replace size with 512 by lia.
        rewrite take_ge by (rewrite dn_bytes_length; lia). split; reflexivity.
      * replace (size <=? _) with false by lia. exists p. split.
        -- now rewrite take_ge by (rewrite dn_bytes_length; lia).
        -- replace (Z.to_nat _) with 0%nat; [reflexivity|]. Z.to_euclidean_division_equations; lia.
  - rewrite Ez. destruct (Z.ltb_spec size 512) as [Hlt|Hge].
    + rewrite Z.sub_diag. change (u32 0 =? 0) with true. rewrite bind_ret. cbv iota.
      replace (size <=? _) with true by lia. exists p. split; [|].
      { do 2 f_equal. rewrite peek_data_sub by (unfold RAMFS_DATANODE_SIZE; lia). rewrite take_app_le by (rewrite dn_bytes_length; lia). reflexivity. }
      replace (Z.to_nat _) with 0%nat; [reflexivity|]. Z.to_euclidean_division_equations; lia.
    + rewrite u32_small by lia. change (peek_data d 0 512) with (dn_bytes d).
      destruct (Z.eqb_spec (size - 512) 0) as [Hz|Hz]; rewrite bind_ret; cbv iota.
      * replace (size <=? _) with true by lia. exists p. replace size with 512 by lia. split.
        -- rewrite take_app_le, take_ge by (rewrite dn_bytes_length; lia). reflexivity.
        -- replace (Z.min _ _) with 512 by lia. reflexivity.
      * replace (next d) with p' by (rewrite En; reflexivity).
        destruct (IH p' rest (size - 512) (buffer ++ dn_bytes d) Cr ltac:(lia)) as (q & E1 & Hq).
        exists q. cbn [length]. rewrite E1. split.
        -- replace (size - 512 <=? _) with (size <=? Z.of_nat (512 + length rest)) by lia. rewrite <- app_assoc. replace (Z.to_nat size) with (512 + Z.to_nat (size - 512))%nat by lia.
           rewrite <- (dn_bytes_length d), take_app_add. reflexivity.
        -- replace (Z.to_nat ((Z.min size _ - 1) / 512)) with (S (Z.to_nat ((Z.min (size - 512) (Z.of_nat (length rest)) - 1) / 512))).
           { exact Hq. }
           assert (0 < Z.of_nat (length rest)) by (pose proof (chain_length _ _ _ _ Cr) as L; unfold RAMFS_DATANODE_SIZE in L; cbn [length] in L; lia).
           Z.to_euclidean_division_equations; lia.
Qed.

Lemma take_2 {A} (l k : list A) n : (length l <= n)%nat -> take n (l ++ k) = l ++ take (n - length l) k.
Proof. intros Hn. rewrite take_app. now rewrite take_ge by lia. Qed.

Lemma read_while p ps bytes size buffer : chain (datanodes st) (p :: ps) bytes -> 0 <= size < 2 ^ 32 -> Z.of_nat (length ps) < 2 ^ 32 ->
  exists q, while reads (p, size, buffer) =
    Ret (if size <=? Z.of_nat (length bytes) then ERR_FS_SUCCESS else ERR_FS_EOF, q, buffer ++ take (Z.to_nat size) bytes) /\
    (p :: ps) !! datanode_index (Z.min size (Z.of_nat (length bytes))) = Some q.
Proof.
  intros C Hs Hl. destruct (read_loop ps p bytes size buffer C Hs) as (q & E1 & Hq). exists q. split; [|exact Hq].
  eapply while_loop; [exact E1|discriminate|lia].
Qed.

(** read_file from an offset of at most one datanode. *)
Lemma read_file_spec p ps bytes size off : chain (datanodes st) (p :: ps) bytes -> 0 <= off <= RAMFS_DATANODE_SIZE ->
  0 < size < 2 ^ 31 -> Z.of_nat (length ps) < 2 ^ 31 ->
  exists q, read_file st p size off =
    Ret (if off + size <=? Z.of_nat (length bytes) then ERR_FS_SUCCESS else ERR_FS_EOF, q, take (Z.to_nat size) (drop (Z.to_nat off) bytes)) /\
    (p :: ps) !! datanode_index (Z.min (off + size) (Z.of_nat (length bytes))) = Some q.
Proof.
  intros C Ho Hs Hl. unfold read_file. destruct (chain_head _ _ _ _ C) as (d & rest & Ed & _ & En & Eb & Cr & Ez).
  pose proof (chain_length _ _ _ _ Cr) as Lr. pose proof (dn_bytes_length d) as Ld. unfold RAMFS_DATANODE_SIZE in *.
  assert (Gd : get_dn st p = Ret d) by (unfold get_dn; now rewrite Ed).
  destruct (Z.eqb_spec off 512) as [->|Ne].
  - destruct ps as [|p' ps].
    + rewrite (while_loop (skip_step st) 1 _ (Ret (p, 512, false))) by
        (discriminate || lia || (rewrite loop_S; unfold skip_step; change (RAMFS_DATANODE_SIZE <=? 512) with true; cbv iota; rewrite Gd, bind_ret, Ez; reflexivity)).
      rewrite bind_ret. cbn [negb]. cbn in Cr. subst. rewrite app_nil_r in *. rewrite Ld.
      replace (512 + size <=? _) with false by lia. exists p. rewrite drop_ge by lia. rewrite take_nil. split; [reflexivity|].
      unfold datanode_index. replace (Z.to_nat _) with 0%nat; [reflexivity|]. unfold RAMFS_DATANODE_SIZE. Z.to_euclidean_division_equations; lia.
    + rewrite (while_loop (skip_step st) 2 _ (Ret (p', 0, true))) by
        (discriminate || lia || (rewrite loop_S; unfold skip_step at 2; change (RAMFS_DATANODE_SIZE <=? 512) with true; cbv iota; rewrite Gd, bind_ret, Ez, En; reflexivity)).
      rewrite bind_ret. cbn [negb]. change (0 <? 0) with false. cbv iota.
      destruct (read_while p' ps rest size [] Cr ltac:(lia) ltac:(cbn [length] in Hl; lia)) as (q & E1 & Hq). exists q. rewrite E1. subst bytes.
      rewrite length_app, Ld. split.
      * replace (512 + size <=? _) with (size <=? Z.of_nat (length rest)) by lia.
        rewrite drop_app_ge by lia. replace (Z.to_nat 512 - length (dn_bytes d))%nat with 0%nat by lia. reflexivity.
      * unfold datanode_index in *. replace (Z.to_nat _) with (S (Z.to_nat ((Z.min size (Z.of_nat (length rest)) - 1) / RAMFS_DATANODE_SIZE))); [exact Hq|].
        cbn [length] in Lr. unfold RAMFS_DATANODE_SIZE. Z.to_euclidean_division_equations; lia.
  - rewrite (while_loop (skip_step st) 1 _ (Ret (p, off, true))) by
      (discriminate || lia || (rewrite loop_S; unfold skip_step; replace (RAMFS_DATANODE_SIZE <=? off) with false by (unfold RAMFS_DATANODE_SIZE; lia); reflexivity)).
    rewrite bind_ret. cbn [negb]. destruct (Z.ltb_spec 0 off) as [Hlt|Hge].
    + rewrite Gd, bind_ret. subst bytes. rewrite length_app, Ld. unfold RAMFS_DATANODE_SIZE.
      destruct (Z.leb_spec size (512 - off)) as [Hle|Hgt].
      * exists p. replace (off + size <=? _) with true by lia. split.
        -- rewrite peek_data_sub by (unfold RAMFS_DATANODE_SIZE; lia). rewrite drop_app_le, take_app_le by (rewrite ?length_drop, Ld; lia). reflexivity.
        -- unfold datanode_index. replace (Z.to_nat _) with 0%nat; [reflexivity|]. unfold RAMFS_DATANODE_SIZE. Z.to_euclidean_division_equations; lia.
      * assert (Ep : peek_data d off (512 - off) = drop (Z.to_nat off) (dn_bytes d)).
        { rewrite peek_data_sub by (unfold RAMFS_DATANODE_SIZE; lia). apply take_ge. rewrite length_drop, Ld. lia. }
        assert (Et : take (Z.to_nat size) (drop (Z.to_nat off) (dn_bytes d ++ rest)) =
                     drop (Z.to_nat off) (dn_bytes d) ++ take (Z.to_nat (size - (512 - off))) rest).
        { rewrite drop_app_le by lia. rewrite take_2 by (rewrite length_drop; lia). rewrite length_drop, Ld. do 2 f_equal. lia. }
        rewrite Et, Ep, Ez. destruct ps as [|p' ps].
        -- cbn in Cr. subst rest. exists p. cbn [length]. replace (off + size <=? _) with false by lia. rewrite take_nil, app_nil_r.
           split; [reflexivity|]. unfold datanode_index. replace (Z.to_nat _) with 0%nat; [reflexivity|].
           unfold RAMFS_DATANODE_SIZE. Z.to_euclidean_division_equations; lia.
        -- rewrite u32_small by lia. replace (next d) with p' by (rewrite En; reflexivity).
           destruct (read_while p' ps rest (size - (512 - off)) (drop (Z.to_nat off) (dn_bytes d)) Cr ltac:(lia) ltac:(cbn [length] in Hl; lia)) as (q & E1 & Hq).
           exists q. rewrite E1. split.
           ++ now replace (off + size <=? Z.of_nat (512 + length rest)) with (size - (512 - off) <=? Z.of_nat (length rest)) by lia.
           ++ unfold datanode_index in *. replace (Z.to_nat _) with (S (Z.to_nat ((Z.min (size - (512 - off)) (Z.of_nat (length rest)) - 1) / RAMFS_DATANODE_SIZE))); [exact Hq|].
              cbn [length] in Lr. unfold RAMFS_DATANODE_SIZE. Z.to_euclidean_division_equations; lia.
    + replace off with 0 by lia. destruct (read_while p ps bytes size [] C ltac:(lia) ltac:(lia)) as (q & E1 & Hq).
      exists q. rewrite E1. cbn [Z.to_nat app]. rewrite drop_0, Z.add_0_l. split; [reflexivity|exact Hq].
Qed.

Lemma chain_drop m ps bytes i : chain m ps bytes -> (i <= length ps)%nat -> chain m (drop i ps) (drop (512 * i) bytes).
Proof.
  revert ps bytes. induction i as [|i IH]; intros ps bytes C Hi; [now rewrite Nat.mul_0_r, !drop_0|].
  destruct ps as [|p ps]; [cbn in Hi; lia|]. destruct (chain_head _ _ _ _ C) as (d & rest & _ & _ & _ & -> & Cr & _).
  cbn [drop length] in *. replace (512 * S i)%nat with (length (dn_bytes d) + 512 * i)%nat by (rewrite dn_bytes_length; lia).
  rewrite drop_app_add. apply IH; [assumption|lia].
Qed.

(** A regular file's descriptor: the chain of the file and the datanode the
    position is kept with. *)
Record file_at (file : file_description) (ps : list Z) (bytes : list Z) : Prop := {
  fa_node : exists n r, nodes st !! fd_node file = Some n /\ FS_NODE_IS_MEMORY n = false /\ FS_NODE_IS_PIPE n = false /\
    ramnodes st !! node_addr n = Some r /\ head ps = Some (rn_data r);
  fa_chain : chain (datanodes st) ps bytes;
  fa_small : Z.of_nat (length ps) < 2 ^ 22;
  fa_position : 0 <= position file <= Z.of_nat (length bytes);
  fa_current : ps !! datanode_index (position file) = Some (fd_current file);
}.

Lemma position_split pos : 0 <= pos < 2 ^ 31 -> 0 <= datanode_offset pos <= RAMFS_DATANODE_SIZE /\
  pos = 512 * Z.of_nat (datanode_index pos) + datanode_offset pos /\ (0 < pos -> 0 < datanode_offset pos).
Proof.
  intros Hp. unfold datanode_offset, datanode_index, RAMFS_DATANODE_SIZE. rewrite Z.rem_mod_nonneg by lia.
  destruct (Z.eqb_spec pos 0), (Z.eqb_spec (pos mod 512) 0); cbn [negb andb]; Z.to_euclidean_division_equations; lia.
Qed.

Lemma datanode_index_add k x : 0 < x \/ k = 0 -> 0 <= k -> datanode_index (512 * k + x) = (Z.to_nat k + datanode_index x)%nat.
Proof. intros Hx Hk. unfold datanode_index, RAMFS_DATANODE_SIZE. Z.to_euclidean_division_equations; lia. Qed.

(** Reading a regular file.  With the descriptor at a position of the file,
    ramfs_file_read returns the next bytes of the chain, as many as asked for or
    as there are, SUCCESS exactly when there are enough, and leaves the
    descriptor on the datanode that belongs to the position behind them. *)
Lemma ramfs_file_read_spec (file : file_description) (ps bytes : list Z) (count : Z) :
  file_at file ps bytes -> 0 < count < 2 ^ 30 ->
  exists q, ramfs_file_read st file count =
    Ret (if position file + count <=? Z.of_nat (length bytes) then ERR_FS_SUCCESS else ERR_FS_EOF,
         take (Z.to_nat count) (drop (Z.to_nat (position file)) bytes), set_fd_current q file, st) /\
    file_at (set_position (Z.min (position file + count) (Z.of_nat (length bytes))) (set_fd_current q file)) ps bytes.
Proof.
  intros [(n & r & En & Hm & Hpi & Er & Eh) C Sm Hp Hc] Hs. unfold ramfs_file_read, get_node. rewrite En. cbn [of_option].
  rewrite bind_ret, Hm, Hpi. pose proof (chain_length _ _ _ _ C) as Lc. unfold RAMFS_DATANODE_SIZE in Lc.
  destruct (position_split (position file) ltac:(lia)) as (Ho & Es & Hpos). set (off := datanode_offset (position file)) in *.
  set (i := datanode_index (position file)) in *. pose proof (lookup_lt_Some _ _ _ Hc) as Hi.
  pose proof (chain_drop _ _ _ i C ltac:(lia)) as Cd. rewrite (drop_S _ _ _ Hc) in Cd.
  destruct (read_file_spec _ _ _ count off Cd Ho ltac:(lia)) as (q & E1 & Hq); [rewrite length_drop; lia|].
  rewrite E1, bind_ret. rewrite length_drop in *. eexists. split.
  - rewrite drop_drop. replace (512 * i + Z.to_nat off)%nat with (Z.to_nat (position file)) by lia.
    replace (off + count <=? _) with (position file + count <=? Z.of_nat (length bytes)) by lia. reflexivity.
  - split; cbn [set_position set_fd_current fd_node position fd_current].
    + exists n, r. auto.
    + assumption.
    + assumption.
    + lia.
    + rewrite <- (drop_S _ _ _ Hc), lookup_drop in Hq. rewrite <- Hq. f_equal.
      replace (Z.min (position file + count) (Z.of_nat (length bytes))) with
        (512 * Z.of_nat i + Z.min (off + count) (Z.of_nat (length bytes - 512 * i))) by lia.
      rewrite datanode_index_add by lia. now rewrite Nat2Z.id.
Qed.
End reading.

(** ** A file *)

Module Runs.
Import Bump.

(** A file of 600 bytes in two datanodes and a descriptor at position 510. *)
Definition file_bytes : list Z := map (fun i => u8 (7 * i)) (seqZ 0 512).
Definition st0 : state bump :=
  State {| next_block := 10; used := {[1; 2; 3]} |} {| next_block := 10; used := {[9]} |}
    {[ 1 := Datanode 2 (poke ∅ 0 file_bytes); 2 := Datanode 0 (poke ∅ 0 [1; 2; 3; 4]) ]}
    {[ 3 := RamfsNode [102] 600 0 0 0 0 FS_NODE_TYPE_FILE 9 1 0 0 0 0 0 ]}
    {[ 100 := FsNode [102] 0 0 0 0 FS_NODE_TYPE_FILE 0 0 0 0 0 600 1 0 3 0 0 ]}
    {[ 9 := 1 ]} ∅ 0 0.
Definition file0 : file_description := FileDescription 100 FILE_OPEN_READ 510 1 0.
Definition bytes0 : list Z := file_bytes ++ [1; 2; 3; 4] ++ replicate 508 0.

Lemma file_at0 : file_at st0 file0 [1; 2] bytes0.
Proof.
  split.
  - do 2 eexists. split_and!; [vm_compute; reflexivity..].
  - split; [discriminate|]. do 2 eexists. split_and!; [reflexivity|reflexivity| |].
    2:{ split; [discriminate|]. exists (Datanode 0 (poke ∅ 0 [1; 2; 3; 4])). exists []. split_and!; reflexivity. }
    vm_compute. reflexivity.
  - reflexivity.
  - vm_compute. split; discriminate.
  - reflexivity.
Qed.

(** Four bytes across the two datanodes. *)
Lemma ramfs_file_read_across :
  file_at st0 file0 [1; 2] bytes0 /\ exists q, ramfs_file_read st0 file0 4 = Ret (ERR_FS_SUCCESS, [242; 249; 1; 2], set_fd_current q file0, st0) /\
    file_at st0 (set_position 514 (set_fd_current q file0)) [1; 2] bytes0.
Proof. split; [exact file_at0|]. exact (ramfs_file_read_spec st0 file0 [1; 2] bytes0 4 file_at0 (conj eq_refl eq_refl)). Defined.
End Runs.
