(* ===== verification/RamfsPipe.v ===== *)
(** * Pipes are bounded queues (kernel/src/filesystem/ramfs.c)

    A pipe node keeps its bytes in a chain of datanodes, from the offset [head]
    of the first to the offset [tail] of the last, and counts bytes and free
    space in two semaphores.  [pipe_rep] relates all of it to the list of the
    bytes in flight; reading takes from the front of the list and writing
    appends to it. *)
From S2P Require Import Prelude Mem Fs Ramfs.

(** ** Writing into a datanode *)

Definition is_bytes (l : list Z) : Prop := Forall (fun b => 0 <= b < 256) l.

Lemma load8_poke m off l a : is_bytes l -> load8 (poke m off l) a =
  if (off <=? a) && (a <? off + Z.of_nat (length l)) then default 0 (l !! Z.to_nat (a - off)) else load8 m a.
Proof.
  revert m off. induction l as [|b l IH]; intros m off B; cbn [poke length].
  - now replace (_ && _) with false by lia.
  - apply Forall_cons in B as [Hb B]. rewrite IH by assumption. rewrite load8_store8, u8_small by lia.
    destruct (Z.eqb_spec off a) as [->|Ne].
    + replace (a + 1 <=? a) with false by lia. cbn [andb]. replace (_ && _) with true by lia.
      now rewrite Z.sub_diag.
    + destruct (Z.ltb_spec off a).
      * replace (Z.to_nat (a - off)) with (S (Z.to_nat (a - (off + 1)))) by lia. cbn [lookup list_lookup].
        now replace ((off + 1 <=? a) && (a <? off + 1 + Z.of_nat (length l))) with
          ((off <=? a) && (a <? off + Z.of_nat (S (length l)))) by lia.
      * replace (off + 1 <=? a) with false by lia. now replace (off <=? a) with false by lia.
Qed.

Lemma dn_bytes_lookup d i : dn_bytes d !! i = if decide (i < 512)%nat then Some (load8 (data d) (Z.of_nat i)) else None.
Proof.
  unfold dn_bytes, peek_data. case_decide.
  - apply list_lookup_fmap_Some. exists (Z.of_nat i). split; [reflexivity|]. apply lookup_seqZ. unfold RAMFS_DATANODE_SIZE. lia.
  - apply lookup_ge_None. rewrite length_map, length_seqZ. unfold RAMFS_DATANODE_SIZE. lia.
Qed.

Lemma dn_bytes_poke d nx off l : is_bytes l -> 0 <= off -> off + Z.of_nat (length l) <= 512 ->
  dn_bytes (Datanode nx (poke (data d) off l)) =
  take (Z.to_nat off) (dn_bytes d) ++ l ++ drop (Z.to_nat off + length l) (dn_bytes d).
Proof.
  intros B Ho Hl. pose proof (dn_bytes_length d) as Ld. apply list_eq. intros i. rewrite dn_bytes_lookup. cbn [data].
  case_decide as Hi.
  - rewrite load8_poke by assumption. destruct (decide (i < Z.to_nat off)%nat) as [H1|H1].
    + rewrite lookup_app_l by (rewrite length_take; lia). rewrite lookup_take, decide_True, dn_bytes_lookup, decide_True by lia.
      now replace (_ && _) with false by lia.
    + rewrite lookup_app_r by (rewrite length_take; lia). rewrite length_take, Ld. replace (Z.to_nat off `min` 512)%nat with (Z.to_nat off) by lia.
      destruct (decide (i - Z.to_nat off < length l)%nat) as [H2|H2].
      * rewrite lookup_app_l by lia. replace (_ && _) with true by lia.
        destruct (lookup_lt_is_Some_2 l (i - Z.to_nat off)%nat H2) as [b Eb]. rewrite Eb.
        replace (Z.to_nat (Z.of_nat i - off)) with (i - Z.to_nat off)%nat by lia. now rewrite Eb.
      * rewrite lookup_app_r, lookup_drop, dn_bytes_lookup, decide_True by lia. replace (_ && _) with false by lia.
        do 3 f_equal; lia.
  - symmetry. apply lookup_ge_None. rewrite !length_app, length_take, length_drop. lia.
Qed.

Lemma dn_bytes_range d : is_bytes (dn_bytes d).
Proof.
  apply Forall_lookup. intros i b Hb. rewrite dn_bytes_lookup in Hb. case_decide; [|discriminate].
  injection Hb as <-. apply load8_range.
Qed.

Lemma peek_dn d off n : 0 <= off -> off + n <= 512 -> peek_data d off n = take (Z.to_nat n) (drop (Z.to_nat off) (dn_bytes d)).
Proof. intros. apply peek_data_sub; unfold RAMFS_DATANODE_SIZE; lia. Qed.

Section pipe.
Context {H : Type} `{Allocator H}.

(** ** The bytes between head and tail *)

Record queue_at (st : state H) (ramnode : Z) (ps : list Z) (h t : Z) (q : list Z) : Prop := {
  qa_node : exists r, ramnodes st !! ramnode = Some r /\ head ps = Some (rn_data r) /\ last ps = Some (rn_last r);
  qa_bytes : exists bytes, chain (datanodes st) ps bytes /\ q = take (length q) (drop (Z.to_nat h) bytes);
  qa_length : h + Z.of_nat (length q) = 512 * (Z.of_nat (length ps) - 1) + t;
  qa_head : 0 <= h < 512;
  qa_tail : 0 <= t < 512;
  qa_nodup : NoDup ps;
  qa_apart : ramnode ∉ ps;
  qa_live : forall p, p = ramnode \/ p ∈ ps -> live (rheap st) p;
}.

Lemma queue_at_ext st st' ramnode ps h t q : ramnodes st' = ramnodes st -> datanodes st' = datanodes st -> rheap st' = rheap st ->
  queue_at st ramnode ps h t q -> queue_at st' ramnode ps h t q.
Proof. intros E1 E2 E3 []. split; rewrite ?E1, ?E2, ?E3; auto. Qed.

(** Only the two ends are used of the ramnode. *)
Lemma queue_at_node st st' ramnode ps h t q r r' : ramnodes st !! ramnode = Some r -> ramnodes st' !! ramnode = Some r' ->
  rn_data r' = rn_data r -> rn_last r' = rn_last r -> datanodes st' = datanodes st -> rheap st' = rheap st ->
  queue_at st ramnode ps h t q -> queue_at st' ramnode ps h t q.
Proof.
  intros Er Er' Ed El E2 E3 [(r0 & Er0 & Eh & Elast)]. split; rewrite ?E2, ?E3; auto.
  exists r'. rewrite Er in Er0. injection Er0 as <-. now rewrite Ed, El.
Qed.

(** The loops leave [head] and [tail] to be set once they are done. *)
Definition same_ends (ramnode : Z) (st st' : state H) : Prop := forall r, ramnodes st !! ramnode = Some r ->
  exists r', ramnodes st' !! ramnode = Some r' /\ rn_head r' = rn_head r /\ rn_tail r' = rn_tail r.

Lemma same_ends_refl ramnode st : same_ends ramnode st st.
Proof. intros r Er. eauto. Qed.
Lemma same_ends_trans ramnode st1 st2 st3 : same_ends ramnode st1 st2 -> same_ends ramnode st2 st3 -> same_ends ramnode st1 st3.
Proof. intros E1 E2 r Er. destruct (E1 r Er) as (r' & Er' & <- & <-). apply E2, Er'. Qed.

Lemma pipe_read_loop ramnode t n : forall remaining h buffer st ps q, queue_at st ramnode ps h t q ->
  0 <= remaining <= Z.of_nat (length q) -> remaining < Z.of_nat n ->
  exists ps' h' st', loop (pipe_read_step ramnode) n (remaining, h, buffer, st) =
      Ret (h', buffer ++ take (Z.to_nat remaining) q, st') /\
    queue_at st' ramnode ps' h' t (drop (Z.to_nat remaining) q) /\ nodes st' = nodes st /\ sems st' = sems st /\
    same_ends ramnode st st'.
Proof.
  induction n as [|n IH]; intros remaining h buffer st ps q Q Hr Hn; [lia|]. rewrite loop_S. unfold pipe_read_step at 2.
  destruct (Z.leb_spec remaining 0) as [Hz|Hp].
  { replace remaining with 0 by lia. exists ps, h, st. cbn. rewrite app_nil_r, drop_0. auto using same_ends_refl. }
  pose proof Q as [(r & Er & Eh & El) (bytes & C & Eq) Hl Hh Ht ND Ap Lv]. unfold get_rn. rewrite Er. cbn [of_option]. rewrite bind_ret.
  destruct ps as [|p ps]; [discriminate|]. injection Eh as Eh. rewrite <- Eh.
  destruct (chain_head _ _ _ _ C) as (d & rest & Ed & Hpz & En & -> & Cr & Ez). replace (p =? 0) with false by lia.
  unfold RAMFS_DATANODE_SIZE. rewrite u32_small by lia. cbv zeta.
  set (c := if remaining <? 512 - h then remaining else 512 - h).
  assert (Hc : 0 < c <= remaining /\ c <= 512 - h /\ (c = remaining \/ c = 512 - h)) by (unfold c; case_test; lia).
  clearbody c. replace (c =? 0) with false by lia. unfold get_dn. rewrite Ed. cbn [of_option]. rewrite bind_ret.
  pose proof (dn_bytes_length d) as Ld.
  assert (Ep : peek_data d h c = take (Z.to_nat c) q).
  { rewrite peek_dn by lia. rewrite Eq, take_take. rewrite drop_app_le by lia.
    rewrite take_app_le by (rewrite length_drop; lia). f_equal. lia. }
  assert (Et : buffer ++ take (Z.to_nat remaining) q = (buffer ++ peek_data d h c) ++ take (Z.to_nat (remaining - c)) (drop (Z.to_nat c) q)).
  { rewrite Ep, <- app_assoc. f_equal. rewrite <- (take_drop (Z.to_nat c) (take (Z.to_nat remaining) q)).
    rewrite take_take, skipn_firstn_comm. f_equal; [f_equal; lia|]. f_equal. lia. }
  assert (Edrop : drop (Z.to_nat remaining) q = drop (Z.to_nat (remaining - c)) (drop (Z.to_nat c) q)).
  { rewrite drop_drop. f_equal. lia. }
  rewrite Et, Edrop. destruct (Z.eqb_spec (h + c) 512) as [Hf|Hf].
  - destruct ps as [|p' ps]; [cbn [length] in Hl; lia|]. rewrite Ez, bind_ret. cbv beta iota.
    set (st1 := rfree _ p).
    assert (Q1 : queue_at st1 ramnode (p' :: ps) 0 t (drop (Z.to_nat c) q)).
    { apply NoDup_cons in ND as [Np ND]. assert (Npr : p <> ramnode) by (intros ->; apply Ap; now left). split.
      - exists (set_rn_data (next d) r). cbn. rewrite lookup_delete_ne, lookup_insert_eq by assumption. rewrite En.
        split_and!; auto.
      - exists rest. split.
        + eapply dn_chain_ext; [|exact Cr]. intros x Hx. cbn. apply lookup_delete_ne. intros ->. contradiction.
        + rewrite drop_0, length_drop. rewrite Eq at 1. rewrite skipn_firstn_comm, drop_drop, drop_app_ge by lia.
          rewrite Ld. replace (Z.to_nat h + Z.to_nat c - 512)%nat with 0%nat by lia. now rewrite drop_0.
      - rewrite length_drop. cbn [length] in *. lia.
      - lia.
      - assumption.
      - assumption.
      - intros Hx. apply Ap. now right.
      - intros x Hx. cbn. apply release_live. split; [apply Lv; destruct Hx; [now left|right; now right]|].
        destruct Hx as [->|Hx]; [auto|]. intros ->. contradiction. }
    destruct (IH (remaining - c) 0 (buffer ++ peek_data d h c) st1 _ _ Q1) as (ps' & h' & st' & E1 & Q' & En' & Es' & Em'); [rewrite length_drop; lia|lia|].
    exists ps', h', st'. rewrite E1. split_and!; auto. eapply same_ends_trans; [|exact Em']. intros r0 Er0.
    rewrite Er in Er0. injection Er0 as <-. eexists. unfold st1. cbn. rewrite lookup_delete_ne, lookup_insert_eq; [auto|].
    intros ->. apply Ap. now left.
  - rewrite bind_ret. cbv beta iota. assert (c = remaining) as -> by lia.
    destruct (IH (remaining - remaining) (h + remaining) (buffer ++ peek_data d h remaining) st (p :: ps) (drop (Z.to_nat remaining) q))
      as (ps' & h' & st' & E1 & Q' & En' & Es' & Em'); [|rewrite length_drop; lia|lia|exists ps', h', st'; rewrite E1; auto].
    split; [exists r; split_and!; [exact Er|cbn; now rewrite Eh|exact El]| |rewrite length_drop; lia|lia|assumption..].
    exists (dn_bytes d ++ rest). split; [assumption|]. rewrite length_drop. rewrite Eq at 1. rewrite skipn_firstn_comm, drop_drop.
    do 2 f_equal; lia.
Qed.

(** Memory for [n] datanodes, allocated one after the other. *)
Fixpoint room (n : nat) (h : H) : Prop :=
  match n with O => True | S n => (alloc h sizeof_datanode).1 <> 0 /\ room n (alloc h sizeof_datanode).2 end.

Lemma room_le k n h : room n h -> (k <= n)%nat -> room k h.
Proof. revert n h. induction k as [|k IH]; intros [|n] h R L; cbn in *; try lia; auto. destruct R as [A R]. split; [exact A|]. apply (IH n); [exact R|lia]. Qed.

Lemma allocate_one k st : room (S k) (rheap st) -> exists p, p <> 0 /\ ~ live (rheap st) p /\ exists st',
  ramfs_allocate_datanodes st 1 false = Ret (p, st') /\ nodes st' = nodes st /\ sems st' = sems st /\
  ramnodes st' = ramnodes st /\ (exists d, datanodes st' = <[p := d]> (datanodes st) /\ next d = 0) /\
  (forall x, live (rheap st') x <-> live (rheap st) x \/ x = p) /\ room k (rheap st').
Proof.
  intros [R Rk]. pose proof (alloc_fresh (rheap st) sizeof_datanode) as F.
  pose proof (alloc_live (rheap st) sizeof_datanode) as L. exists (alloc (rheap st) sizeof_datanode).1.
  split_and!; [exact R|exact F|]. unfold ramfs_allocate_datanodes, malloc_datanode, rmalloc. change (1 =? 0) with false. cbv iota.
  destruct (alloc (rheap st) sizeof_datanode) as [p h]. cbn [fst snd] in *. replace (p =? 0) with false by lia.
  cbv iota. unfold clear_data. rewrite bind_ret. change (u32 (1 - 1) =? 0) with true. cbv zeta iota.
  unfold set_next, get_dn. cbn [datanodes put_dn with_datanodes]. rewrite lookup_insert_eq. cbn [of_option]. rewrite !bind_ret.
  eexists. split; [reflexivity|]. split_and!; try reflexivity.
  - eexists. cbn. rewrite insert_insert_eq. split; reflexivity.
  - intros x. cbn. rewrite L. split; [intros [?|[? _]]; auto|intros [?|?]; [auto|right; split; congruence]].
  - exact Rk.
Qed.

(** What is in flight, as the bytes up to [tail] less those before [head]. *)
Lemma queue_prefix (b1 D : list Z) h t L : h + Z.of_nat L = Z.of_nat (length b1) + t -> 0 <= h -> 0 <= t <= Z.of_nat (length D) ->
  take L (drop (Z.to_nat h) (b1 ++ D)) = drop (Z.to_nat h) (b1 ++ take (Z.to_nat t) D).
Proof.
  intros E Hh Ht. rewrite firstn_skipn_comm. f_equal.
  replace (Z.to_nat h + L)%nat with (length b1 + Z.to_nat t)%nat by lia. now rewrite take_app_add.
Qed.

Lemma pipe_write_loop ramnode h n : forall remaining t buffer written st ps q, room (Z.to_nat ((t + remaining) / 512)) (rheap st) -> queue_at st ramnode ps h t q ->
  is_bytes buffer -> 0 <= remaining <= Z.of_nat (length buffer) -> remaining < Z.of_nat n ->
  exists ps' t' st', loop (pipe_write_step ramnode) n (remaining, t, buffer, written, st) = Ret (t', written + remaining, st') /\
    queue_at st' ramnode ps' h t' (q ++ take (Z.to_nat remaining) buffer) /\ nodes st' = nodes st /\ sems st' = sems st /\
    same_ends ramnode st st'.
Proof.
  induction n as [|n IH]; intros remaining t buffer written st ps q Rm Q B Hr Hn; [lia|].
  rewrite loop_S. unfold pipe_write_step at 2. destruct (Z.leb_spec remaining 0) as [Hz|Hp].
  { replace remaining with 0 by lia. exists ps, t, st. cbn. rewrite app_nil_r, Z.add_0_r. auto using same_ends_refl. }
  destruct Q as [(r & Er & Eh & El) (bytes & C & Eq) Hl Hh Ht ND Ap Lv]. unfold get_rn. rewrite Er. cbn [of_option]. rewrite bind_ret.
  apply last_Some in El as (ps0 & ->). apply chain_app in C as (b1 & b2 & -> & C1 & C2). apply chain_one in C2 as (Hlz & d & Ed & En & ->).
  set (pl := rn_last r) in *. replace (pl =? 0) with false by lia. unfold RAMFS_DATANODE_SIZE. rewrite u32_small by lia. cbv zeta.
  set (c := if remaining <? 512 - t then remaining else 512 - t).
  assert (Hc : 0 < c <= remaining /\ c <= 512 - t /\ (c = remaining \/ c = 512 - t)) by (unfold c; case_test; lia).
  clearbody c. unfold poke_dn, get_dn. rewrite Ed. cbn [of_option]. rewrite !bind_ret.
  set (chunk := take (Z.to_nat c) buffer). assert (Lc : Z.of_nat (length chunk) = c) by (unfold chunk; rewrite length_take; lia).
  assert (Bc : is_bytes chunk) by apply Forall_take, B. pose proof (dn_bytes_length d) as Ld.
  set (d1 := Datanode (next d) (poke (data d) t chunk)).
  assert (Ed1 : dn_bytes d1 = take (Z.to_nat t) (dn_bytes d) ++ chunk ++ drop (Z.to_nat t + length chunk) (dn_bytes d))
    by (apply dn_bytes_poke; auto; lia).
  set (st1 := put_dn pl d1 st). rewrite length_app in Hl. cbn [length] in Hl.
  pose proof (chain_length _ _ _ _ C1) as L1. unfold RAMFS_DATANODE_SIZE in L1.
  apply NoDup_app in ND as (ND0 & Nl & _). assert (Npl : pl ∉ ps0) by (intros Hx; apply (Nl _ Hx); now left).
  rewrite (queue_prefix _ _ _ t) in Eq by lia.
  assert (Etake : q ++ take (Z.to_nat remaining) buffer = (q ++ chunk) ++ take (Z.to_nat (remaining - c)) (drop (Z.to_nat c) buffer)).
  { rewrite <- app_assoc. f_equal. unfold chunk. rewrite <- (take_drop (Z.to_nat c) (take (Z.to_nat remaining) buffer)).
    rewrite take_take, skipn_firstn_comm. f_equal; f_equal; lia. }
  assert (Eq1 : forall tail_bytes, q ++ chunk = take (length (q ++ chunk)) (drop (Z.to_nat h) (b1 ++ dn_bytes d1 ++ tail_bytes))).
  { intros tb. set (X := drop (Z.to_nat t + length chunk) (dn_bytes d)) in *.
    replace (b1 ++ dn_bytes d1 ++ tb) with ((b1 ++ take (Z.to_nat t) (dn_bytes d)) ++ chunk ++ X ++ tb)
      by (rewrite Ed1, <- !app_assoc; reflexivity).
    rewrite drop_app_le by (rewrite length_app, length_take; lia). rewrite <- Eq, (app_assoc q). now rewrite take_app_length. }
  rewrite Etake. destruct (Z.eqb_spec (t + c) 512) as [Hf|Hf].
  - replace (datanodes st1 !! pl) with (Some d1) by (symmetry; apply lookup_insert_eq). cbn [of_option]. rewrite bind_ret.
    cbn [next d1]. rewrite En. cbn [Z.eqb].
    replace ((t + remaining) / 512) with (1 + (0 + (remaining - c)) / 512) in Rm by (Z.to_euclidean_division_equations; lia).
    rewrite Z2Nat.inj_add in Rm by (Z.to_euclidean_division_equations; lia).
    destruct (allocate_one _ st1 Rm) as (p & Hpz & Np & st2 & E2 & En2 & Es2 & Er2 & (d2 & Ed2 & Enx2) & Lv2 & Rm2).
    rewrite E2, bind_ret. unfold set_next, get_dn. rewrite Ed2.
    assert (Npp : p <> pl) by (intros ->; apply Np, Lv; right; apply elem_of_app; right; now left).
    rewrite lookup_insert_ne by assumption. cbn [datanodes st1 put_dn with_datanodes]. rewrite lookup_insert_eq. cbn [of_option].
    rewrite !bind_ret. replace (p =? 0) with false by lia. unfold get_rn. cbn [ramnodes put_dn with_datanodes]. rewrite Er2.
    cbn [ramnodes st1 put_dn with_datanodes]. rewrite Er. cbn [of_option]. rewrite !bind_ret. cbv beta iota.
    set (st3 := put_rn _ _ _).
    assert (Q3 : queue_at st3 ramnode (ps0 ++ [pl; p]) h 0 (q ++ chunk)).
    { split.
      - eexists. split; [unfold st3; cbn; apply lookup_insert_eq|]. cbn [rn_data rn_last set_rn_last]. split.
        + rewrite <- Eh. now destruct ps0.
        + now rewrite last_app.
      - exists (b1 ++ dn_bytes d1 ++ dn_bytes d2). split; [|apply Eq1]. apply chain_app. exists b1, (dn_bytes d1 ++ dn_bytes d2).
        split_and!; [reflexivity|eapply dn_chain_ext; [|exact C1]|].
        + intros x Hx. unfold st3. cbn [datanodes put_rn with_ramnodes put_dn with_datanodes]. rewrite Ed2. cbn [datanodes st1 put_dn with_datanodes].
          rewrite !lookup_insert_ne; auto; try (intros ->; contradiction).
          intros ->. apply Np, Lv. right. apply elem_of_app. now left.
        + unfold st3. cbn [datanodes put_rn with_ramnodes put_dn with_datanodes]. rewrite Ed2. cbn [datanodes st1 put_dn with_datanodes].
          split; [assumption|]. exists (Datanode p (data d1)), (dn_bytes d2). split_and!; [apply lookup_insert_eq|reflexivity|reflexivity|].
          apply chain_one. split; [assumption|]. exists d2. split_and!; auto.
          rewrite lookup_insert_ne, lookup_insert_eq by congruence. reflexivity.
      - rewrite !length_app. cbn [length]. lia.
      - assumption.
      - lia.
      - change [pl; p] with ([pl] ++ [p]). rewrite app_assoc. apply NoDup_app. split_and!.
        + apply NoDup_app. split_and!; auto using NoDup_singleton.
        + intros x Hx Hx2%list_elem_of_singleton. subst x. apply Np, Lv. now right.
        + apply NoDup_singleton.
      - intros Hx. change [pl; p] with ([pl] ++ [p]) in Hx. rewrite app_assoc in Hx. apply elem_of_app in Hx as [Hx|Hx%list_elem_of_singleton]; [auto|].
        subst p. apply Np, Lv. now left.
      - intros x Hx. unfold st3. cbn [rheap put_rn with_ramnodes put_dn with_datanodes]. apply Lv2.
        change [pl; p] with ([pl] ++ [p]) in Hx. rewrite app_assoc, elem_of_app, list_elem_of_singleton in Hx.
        destruct Hx as [->|[Hx| ->]]; [left; apply Lv; auto|left; apply Lv; auto|auto]. }
    destruct (IH (remaining - c) 0 (drop (Z.to_nat c) buffer) (written + c) st3 _ _ Rm2 Q3) as (ps' & t' & st' & E1 & Q' & En' & Es' & Em').
    { apply Forall_drop, B. } { rewrite length_drop. lia. } { lia. }
    exists ps', t', st'. rewrite E1. split_and!; [do 2 f_equal; f_equal; lia|exact Q'|rewrite En'; exact En2|rewrite Es'; exact Es2|].
    eapply same_ends_trans; [|exact Em']. intros r0 Er0. rewrite Er in Er0. injection Er0 as <-. eexists. unfold st3. cbn.
    rewrite lookup_insert_eq. auto.
  - rewrite bind_ret. cbv beta iota. assert (c = remaining) as -> by lia.
    assert (Q1 : queue_at st1 ramnode (ps0 ++ [pl]) h (t + remaining) (q ++ chunk)).
    { split; auto; try lia.
      - exists r. split_and!; [exact Er|exact Eh|apply last_snoc].
      - exists (b1 ++ dn_bytes d1). split; [|specialize (Eq1 []); now rewrite app_nil_r in Eq1]. apply chain_app.
        exists b1, (dn_bytes d1). split_and!; [reflexivity|eapply dn_chain_ext; [|exact C1]|].
        + intros x Hx. cbn. apply lookup_insert_ne. intros ->. contradiction.
        + apply chain_one. split; [assumption|]. exists d1. split_and!; [apply lookup_insert_eq|exact En|reflexivity].
      - rewrite !length_app. cbn [length]. lia.
      - apply NoDup_app. split_and!; auto. apply NoDup_singleton. }
    replace (t + remaining) with (t + remaining + (remaining - remaining)) in Rm by lia.
    destruct (IH (remaining - remaining) (t + remaining) (drop (Z.to_nat remaining) buffer) (written + remaining) st1 _ _ Rm Q1)
      as (ps' & t' & st' & E1 & Q' & En' & Es' & Em').
    { apply Forall_drop, B. } { rewrite length_drop. lia. } { lia. }
    exists ps', t', st'. rewrite E1. split_and!; [do 2 f_equal; f_equal; lia|exact Q'|exact En'|exact Es'|exact Em'].
Qed.

(** ** Pipes *)

(** [pipe_rep st node q]: the node is a pipe with the bytes [q] in flight. *)
Record pipe_rep (st : state H) (node : Z) (q : list Z) : Prop := {
  pp_pipe : exists n r ps, nodes st !! node = Some n /\ ramnodes st !! node_addr n = Some r /\
    queue_at st (node_addr n) ps (rn_head r) (rn_tail r) q /\
    sems st !! node_sem n = Some (Z.of_nat (length q)) /\
    sems st !! space_available n = Some (RAMFS_PIPE_SIZE - Z.of_nat (length q)) /\
    node_sem n <> space_available n /\ size n = Z.of_nat (length q) /\ 0 <= lock n < 2 ^ 32 - 1;
  pp_small : Z.of_nat (length q) <= RAMFS_PIPE_SIZE;
}.

Lemma wait_unlocked_spec (st : state H) node sem n c : nodes st !! node = Some n -> 0 <= lock n < 2 ^ 32 - 1 ->
  sems st !! sem = Some c ->
  wait_unlocked st node sem = if 1 <=? c then Ret (with_sems (<[sem := c - 1]> (sems st)) st) else Spin.
Proof.
  intros En Hl Ec. unfold wait_unlocked, get_node, kacquire. rewrite En. cbn [of_option]. rewrite bind_ret.
  cbn [sems put_node with_nodes]. rewrite Ec. cbn [of_option]. rewrite bind_ret. case_test; [|reflexivity].
  rewrite bind_ret. cbn [nodes with_sems put_node with_nodes]. rewrite lookup_insert_eq. cbn [of_option]. rewrite bind_ret.
  destruct n. cbn [Fs.lock set_lock] in *. rewrite u32_small by lia. replace (1 <=? _) with true by lia.
  unfold put_node, with_nodes, with_sems. destruct st. cbn in *. rewrite insert_insert_eq, Z.add_simpl_r, insert_id by assumption.
  reflexivity.
Qed.

Lemma bulk_acquire_spec (st : state H) sem c count : sems st !! sem = Some c -> 0 <= c < 2 ^ 32 - 1 -> 1 <= count ->
  bulk_acquire st sem count =
    Ret (Z.min count (c + 1), with_sems (<[sem := c + 1 - Z.min count (c + 1)]> (sems st)) st).
Proof.
  intros Ec Hc Hn. unfold bulk_acquire. rewrite Ec. cbn [of_option]. rewrite bind_ret, u32_small by lia. cbv zeta.
  replace (if count <? 1 + c then count else 1 + c) with (Z.min count (c + 1)) by (case_test; lia).
  case_test.
  - unfold kacquire. rewrite Ec. cbn [of_option]. rewrite bind_ret. replace (_ <=? c) with true by lia. rewrite bind_ret.
    replace (c - (Z.min count (c + 1) - 1)) with (c + 1 - Z.min count (c + 1)) by lia. reflexivity.
  - rewrite bind_ret. replace (c + 1 - Z.min count (c + 1)) with c by lia. rewrite insert_id by assumption. now destruct st.
Qed.

Lemma krelease_spec (st : state H) sem c n : sems st !! sem = Some c -> 0 <= c + n < 2 ^ 32 ->
  krelease st sem n = Ret (with_sems (<[sem := c + n]> (sems st)) st).
Proof. intros Ec Hc. unfold krelease. rewrite Ec. cbn [of_option]. now rewrite bind_ret, u32_small by lia. Qed.

(** C36: A pipe hands out the bytes written to it in their order.  Reading an
    empty pipe waits; otherwise ramfs_pipe_read returns the oldest bytes in
    flight, as many as asked for or as there are, they are gone from the pipe,
    and their room is given back to the writers. *)
Theorem ramfs_pipe_read_fifo (st : state H) (file : file_description) (q : list Z) (count : Z) :
  pipe_rep st (fd_node file) q -> 0 < count < 2 ^ 32 ->
  match q with
  | [] => ramfs_pipe_read st file count = Spin
  | _ => exists file' st', ramfs_pipe_read st file count = Ret (ERR_FS_SUCCESS, take (Z.to_nat count) q, file', st') /\
      pipe_rep st' (fd_node file) (drop (Z.to_nat count) q)
  end.
Proof.
  intros [(n & r & ps & En & Er & Q & Es & Ea & Ne & Ez & Hl) Sm] Hc. unfold RAMFS_PIPE_SIZE, RAMFS_DATANODE_SIZE in *.
  assert (Eread : ramfs_pipe_read st file count = ramfs_pipe_read st file count) by reflexivity.
  unfold ramfs_pipe_read at 2 in Eread. unfold get_node in Eread. rewrite En in Eread. cbn [of_option] in Eread.
  rewrite bind_ret in Eread. replace (count =? 0) with false in Eread by lia. cbv zeta in Eread.
  rewrite (wait_unlocked_spec _ _ _ _ _ En Hl Es) in Eread.
  assert (Hq : q = [] \/ 1 <= Z.of_nat (length q)) by (destruct q; [now left|right; cbn [length]; lia]).
  destruct Hq as [-> |Hq]; [exact Eread|]. set (goal := match q with [] => _ | _ => _ end).
  assert (G : exists file' st', ramfs_pipe_read st file count = Ret (ERR_FS_SUCCESS, take (Z.to_nat count) q, file', st') /\
      pipe_rep st' (fd_node file) (drop (Z.to_nat count) q)); [|unfold goal; destruct q; [cbn in Hq; lia|exact G]].
  clear goal. replace (1 <=? _) with true in Eread by lia. rewrite bind_ret in Eread.
  rewrite (bulk_acquire_spec _ _ (Z.of_nat (length q) - 1)) in Eread; [|cbn; apply lookup_insert_eq|lia|lia].
  rewrite bind_ret in Eread. cbv beta iota in Eread. replace (Z.of_nat (length q) - 1 + 1) with (Z.of_nat (length q)) in Eread by lia.
  remember (Z.min count (Z.of_nat (length q))) as k eqn:Hk.
  match type of Eread with context [get_rn ?s _] => set (st1 := s) in Eread end.
  assert (Er1 : get_rn st1 (node_addr n) = Ret r) by (unfold get_rn; cbn; now rewrite Er). rewrite Er1, bind_ret in Eread.
  assert (Q1 : queue_at st1 (node_addr n) ps (rn_head r) (rn_tail r) q) by (eapply queue_at_ext; [..|exact Q]; reflexivity).
  destruct (pipe_read_loop _ _ (S (Z.to_nat k)) k _ [] _ _ _ Q1) as (ps' & h' & st2 & E2 & Q2 & En2 & Es2 & Em2); [lia|lia|].
  rewrite (while_loop _ _ _ _ E2) in Eread by (discriminate || lia). rewrite bind_ret in Eread. cbv beta iota in Eread.
  cbn [app] in Eread. rewrite length_take in Eread. replace (Z.of_nat (Z.to_nat k `min` length q)) with k in Eread by lia.
  assert (Et : take (Z.to_nat k) q = take (Z.to_nat count) q)
    by (destruct (decide (count <= Z.of_nat (length q))); [f_equal; lia|rewrite !take_ge by lia; reflexivity]).
  assert (Ed : drop (Z.to_nat k) q = drop (Z.to_nat count) q)
    by (destruct (decide (count <= Z.of_nat (length q))); [f_equal; lia|rewrite !drop_ge by lia; reflexivity]).
  rewrite Et in Eread. rewrite Ed in Q2. destruct (Em2 r Er) as (r2 & Er2 & _ & Et2). unfold get_rn in Eread. rewrite Er2 in Eread.
  cbn [of_option fd_node set_fd_current set_position] in Eread. rewrite bind_ret, En2 in Eread. change (nodes st1) with (nodes st) in Eread.
  rewrite En in Eread. cbn [of_option] in Eread. rewrite bind_ret in Eread.
  rewrite (krelease_spec _ _ (2048 - Z.of_nat (length q))) in Eread;
    [|cbn; rewrite Es2; cbn; rewrite !lookup_insert_ne by assumption; exact Ea|lia].
  rewrite bind_ret in Eread. eexists _, _. split; [exact Eread|]. clear Eread.
  assert (Ld : Z.of_nat (length (drop (Z.to_nat count) q)) = Z.of_nat (length q) - k) by (rewrite length_drop; lia).
  split; [|rewrite Ld; unfold RAMFS_PIPE_SIZE, RAMFS_DATANODE_SIZE; lia].
  eexists _, _, ps'. cbn [nodes ramnodes sems with_sems put_rn with_ramnodes put_node with_nodes].
  rewrite Ld, Es2. split_and!; [apply lookup_insert_eq|apply lookup_insert_eq|..];
    cbn [node_addr node_sem space_available set_size size lock rn_head rn_tail set_rn_size set_rn_head].
  all: try assumption; try lia.
  - rewrite Et2. eapply queue_at_node; [exact Er2|cbn; apply lookup_insert_eq|..|exact Q2]; reflexivity.
  - unfold st1. cbn. rewrite lookup_insert_ne, lookup_insert_eq by auto. f_equal; lia.
  - rewrite lookup_insert_eq. unfold RAMFS_PIPE_SIZE, RAMFS_DATANODE_SIZE. f_equal; lia.
  - rewrite u32_small by lia. lia.
Qed.

(** C37: Writing to a full pipe waits; otherwise, with memory for the datanodes (one, and
    one more for each 512 bytes of the buffer), ramfs_pipe_write appends the bytes of the buffer to the bytes in flight, as
    many as there is room for, returns how many, and announces them to the
    readers; a pipe never holds more than RAMFS_PIPE_SIZE bytes. *)
Theorem ramfs_pipe_write_fifo (st : state H) (file : file_description) (q buffer : list Z) :
  pipe_rep st (fd_node file) q -> room (S (length buffer / 512)) (rheap st) -> is_bytes buffer -> 0 < Z.of_nat (length buffer) < 2 ^ 32 ->
  let w := Z.min (Z.of_nat (length buffer)) (RAMFS_PIPE_SIZE - Z.of_nat (length q)) in
  if w =? 0 then ramfs_pipe_write st file buffer = Spin
  else exists file' st', ramfs_pipe_write st file buffer = Ret (ERR_FS_SUCCESS, w, file', st') /\
    pipe_rep st' (fd_node file) (q ++ take (Z.to_nat w) buffer).
Proof.
  intros [(n & r & ps & En & Er & Q & Es & Ea & Ne & Ez & Hl) Sm] Rm B Hb w. unfold RAMFS_PIPE_SIZE, RAMFS_DATANODE_SIZE in *.
  assert (Ew : ramfs_pipe_write st file buffer = ramfs_pipe_write st file buffer) by reflexivity.
  unfold ramfs_pipe_write at 2 in Ew. unfold get_node in Ew. rewrite En in Ew. cbn [of_option] in Ew.
  rewrite bind_ret in Ew. replace (Z.of_nat (length buffer) =? 0) with false in Ew by lia. cbv zeta in Ew.
  rewrite (wait_unlocked_spec _ _ _ _ _ En Hl Ea) in Ew. change (512 * 4) with 2048 in *.
  assert (Hw : w = Z.min (Z.of_nat (length buffer)) (2048 - Z.of_nat (length q))) by reflexivity. clearbody w.
  destruct (Z.eqb_spec w 0) as [Hz|Hz]; [replace (1 <=? _) with false in Ew by lia; exact Ew|].
  replace (1 <=? _) with true in Ew by lia. rewrite bind_ret in Ew.
  rewrite (bulk_acquire_spec _ _ (2048 - Z.of_nat (length q) - 1)) in Ew; [|cbn; apply lookup_insert_eq|lia|lia].
  rewrite bind_ret in Ew. cbv beta iota in Ew. replace (2048 - Z.of_nat (length q) - 1 + 1) with (2048 - Z.of_nat (length q)) in Ew by lia.
  rewrite <- Hw in Ew. match type of Ew with context [get_rn ?s _] => set (st1 := s) in Ew end.
  assert (Er1 : get_rn st1 (node_addr n) = Ret r) by (unfold get_rn; cbn; now rewrite Er). rewrite Er1, bind_ret in Ew.
  assert (Q1 : queue_at st1 (node_addr n) ps (rn_head r) (rn_tail r) q) by (eapply queue_at_ext; [..|exact Q]; reflexivity).
  assert (Rm1 : room (Z.to_nat ((rn_tail r + w) / 512)) (rheap st1)).
  { apply (room_le _ _ _ Rm). pose proof (qa_tail _ _ _ _ _ _ Q1). rewrite <- (Nat2Z.id (S _)). apply Z2Nat.inj_le; [Z.to_euclidean_division_equations; lia|lia|].
    rewrite Nat2Z.inj_succ, Nat2Z.inj_div. Z.to_euclidean_division_equations; lia. }
  destruct (pipe_write_loop _ _ (S (Z.to_nat w)) w _ buffer 0 _ _ _ Rm1 Q1 B) as (ps' & t' & st2 & E2 & Q2 & En2 & Es2 & Em2); [lia|lia|].
  rewrite (while_loop _ _ _ _ E2) in Ew by (discriminate || lia). rewrite bind_ret, Z.add_0_l in Ew. cbv beta iota in Ew.
  destruct (Em2 r Er) as (r2 & Er2 & Eh2 & _). unfold get_rn in Ew. rewrite Er2 in Ew. cbn [of_option fd_node set_position] in Ew.
  rewrite bind_ret, En2 in Ew. change (nodes st1) with (nodes st) in Ew. rewrite En in Ew. cbn [of_option] in Ew. rewrite bind_ret in Ew.
  rewrite (krelease_spec _ _ (Z.of_nat (length q))) in Ew;
    [|cbn; rewrite Es2; cbn; rewrite !lookup_insert_ne by auto; exact Es|lia].
  rewrite bind_ret in Ew. eexists _, _. split; [exact Ew|]. clear Ew.
  assert (Ld : Z.of_nat (length (q ++ take (Z.to_nat w) buffer)) = Z.of_nat (length q) + w) by (rewrite length_app, length_take; lia).
  split; [|rewrite Ld; unfold RAMFS_PIPE_SIZE, RAMFS_DATANODE_SIZE; lia].
  eexists _, _, ps'. cbn [nodes ramnodes sems with_sems put_rn with_ramnodes put_node with_nodes].
  rewrite Ld, Es2. split_and!; [apply lookup_insert_eq|apply lookup_insert_eq|..];
    cbn [node_addr node_sem space_available set_size size lock rn_head rn_tail set_rn_size set_rn_tail].
  all: try assumption; try lia.
  - rewrite Eh2. eapply queue_at_node; [exact Er2|cbn; apply lookup_insert_eq|..|exact Q2]; reflexivity.
  - rewrite lookup_insert_eq. f_equal; lia.
  - unfold st1. cbn. rewrite lookup_insert_ne, lookup_insert_eq by auto. unfold RAMFS_PIPE_SIZE, RAMFS_DATANODE_SIZE. f_equal; lia.
  - rewrite u32_small by lia. lia.
Qed.
End pipe.

(** ** A pipe *)

Module Runs.
Import Bump.

(** Three bytes in flight, in the middle of a datanode. *)
Definition st0 : state bump :=
  State {| next_block := 10; used := {[4; 5]} |} {| next_block := 10; used := {[7; 8; 9]} |}
    {[ 4 := Datanode 0 (poke ∅ 500 [97; 98; 99]) ]}
    {[ 5 := RamfsNode [112] 3 0 0 0 0 FS_NODE_TYPE_PIPE 9 4 4 7 8 500 503 ]}
    {[ 101 := FsNode [112] 0 0 0 0 FS_NODE_TYPE_PIPE 0 0 0 0 0 3 1 0 5 7 8 ]}
    {[ 7 := 3; 8 := 2045; 9 := 1 ]} ∅ 0 0.
Definition pipe0 : file_description := FileDescription 101 (FILE_OPEN_READ + FILE_OPEN_WRITE) 0 0 0.

Lemma pipe_rep0 : pipe_rep st0 101 [97; 98; 99].
Proof.
  split; [|vm_compute; discriminate]. do 2 eexists. exists [4].
  split_and!; [reflexivity|vm_compute; reflexivity|..]; try (vm_compute; congruence).
  split; try (vm_compute; intuition congruence).
  - eexists. split_and!; reflexivity.
  - exists (dn_bytes (Datanode 0 (poke ∅ 500 [97; 98; 99]))). split; [|vm_compute; reflexivity].
    apply chain_one. split; [discriminate|]. eexists. split_and!; reflexivity.
  - apply NoDup_singleton.
  - intros H%list_elem_of_singleton. discriminate.
  - intros p [-> |H%list_elem_of_singleton]; [|subst p]; split; [set_solver|vm_compute; auto|set_solver|vm_compute; auto].
Qed.

Lemma bump_room n h : room (H := bump) n h.
Proof. revert h. induction n as [|n IH]; intros [b u]; [exact I|]. split; [cbn; lia|apply IH]. Qed.

(** Two of the three bytes, and the pipe after it. *)
Lemma ramfs_pipe_read_witness :
  pipe_rep st0 101 [97; 98; 99] /\ exists file' st', ramfs_pipe_read st0 pipe0 2 = Ret (ERR_FS_SUCCESS, [97; 98], file', st') /\
    pipe_rep st' 101 [99].
Proof. split; [exact pipe_rep0|]. exact (ramfs_pipe_read_fifo st0 pipe0 _ 2 pipe_rep0 (conj eq_refl eq_refl)). Defined.

(** Twenty bytes, into a second datanode. *)
Lemma ramfs_pipe_write_witness :
  pipe_rep st0 101 [97; 98; 99] /\ room (H := bump) 1 (rheap st0) /\ exists file' st',
    ramfs_pipe_write st0 pipe0 (replicate 20 65) = Ret (ERR_FS_SUCCESS, 20, file', st') /\ pipe_rep st' 101 ([97; 98; 99] ++ replicate 20 65).
Proof.
  split; [exact pipe_rep0|]. split; [apply bump_room|].
  exact (ramfs_pipe_write_fifo st0 pipe0 [97; 98; 99] (replicate 20 65) pipe_rep0 (bump_room _ _) ltac:(by_eval) ltac:(by_eval)).
Defined.
End Runs.
