(* ===== verification/FileOps.v ===== *)
(** * Operations on nodes and descriptors (kernel/src/filesystem/node_op.c, file_op.c)

    What the kernel does with a node or a descriptor whatever file system it
    belongs to: check it, call the file system through its function pointers,
    and keep the position, the size and the timestamps.  [fs_t] is the record of
    those pointers and [NodeStore] what this layer needs of the state below it;
    the RAM file system is an instance at the end, with what a read through both
    layers gives. *)
From S2P Require Import Prelude Mem CString Fs Ramfs.

Definition FS_EMPTY : Z := 0.
Definition FS_FAT32 : Z := 1.
Definition FS_EXT2 : Z := 2.
Definition FS_RAMFS : Z := 3.
Definition UNIVERSAL_COPY_SIZE : Z := 512.
Definition SEEK_ABSOLUTE : Z := 0.
Definition SEEK_RELATIVE : Z := 1.
Definition SEEK_BOTTOM : Z := 2.
Definition DT_FIFO : Z := 1.
Definition DT_DIR : Z := 4.
Definition DT_REG : Z := 8.

(** The function pointers of a file system; [None] is a null one. *)
Record fs_t (S : Type) := FsT {
  type : Z;
  fs_remove_entry : option (S -> Z -> Z -> bool -> outcome (FS_ERR * S));
  fs_make_diriter_adapter : option (file_description -> directory_iterator -> directory_iterator);
  fs_save_diriter_adapter : option (file_description -> directory_iterator -> file_description);
  fs_setup_directory_iterator : option (S -> Z -> outcome (FS_ERR * directory_iterator));
  fs_iterate_directory : option (S -> directory_iterator -> fs_node -> outcome (FS_ERR * directory_iterator * fs_node));
  fs_mkdir : option (S -> Z -> list Z -> Z -> Z -> outcome (FS_ERR * S));
  fs_node_create : option (S -> Z -> list Z -> Z -> Z -> outcome (FS_ERR * S));
  fs_node_copy : option (S -> Z -> Z -> Z -> list Z -> outcome (FS_ERR * S));
  fs_node_move : option (S -> Z -> Z -> list Z -> outcome (FS_ERR * S));
  fs_node_reset : option (S -> Z -> outcome (FS_ERR * S));
  fs_node_sync : option (S -> Z -> outcome (FS_ERR * S));
  fs_file_seek_absolute : option (S -> file_description -> Z -> outcome (FS_ERR * file_description));
  fs_file_read : option (S -> file_description -> Z -> outcome (FS_ERR * list Z * file_description * S));
  fs_file_write : option (S -> file_description -> list Z -> outcome (FS_ERR * Z * file_description * S));
  fs_file_open : option (S -> file_description -> Z -> Z -> outcome file_description);
}.
Arguments FsT {S}. Arguments type {S}. Arguments fs_remove_entry {S}. Arguments fs_make_diriter_adapter {S}.
Arguments fs_save_diriter_adapter {S}. Arguments fs_setup_directory_iterator {S}. Arguments fs_iterate_directory {S}.
Arguments fs_mkdir {S}. Arguments fs_node_create {S}. Arguments fs_node_copy {S}. Arguments fs_node_move {S}.
Arguments fs_node_reset {S}. Arguments fs_node_sync {S}. Arguments fs_file_seek_absolute {S}.
Arguments fs_file_read {S}. Arguments fs_file_write {S}. Arguments fs_file_open {S}.

(** The nodes, the file systems by address, and the clock. *)
Class NodeStore (S : Type) := {
  node_at : S -> Z -> outcome fs_node;
  update_node : S -> Z -> fs_node -> S;
  fs_at : S -> Z -> outcome (fs_t S);
  timer_get_current_time : S -> Z;
  node_at_update : forall st p n, node_at (update_node st p n) p = Ret n;
  fs_at_update : forall st p n f, fs_at (update_node st p n) f = fs_at st f;
}.

Section file_ops.
Context {S : Type} `{NodeStore S}.

(** [node->fs] *)
Definition node_fs (st : S) (node : Z) : outcome (fs_t S) := n ← node_at st node; fs_at st (fs n).

(** if(node->fs->op) return node->fs->op(...); return ERR_FS_NOT_SUPPORTED; *)
Definition dispatch {A B} (op : option A) (call : A -> outcome B) (unsupported : B) : outcome B :=
  match op with Some f => call f | None => Ret unsupported end.

(** ** Nodes *)

(** [diriter] is what the iterator holds before the call. *)
Definition node_setup_directory_iterator (st : S) (diriter : directory_iterator) (node : Z) : outcome (FS_ERR * directory_iterator) :=
  f ← node_fs st node; dispatch (fs_setup_directory_iterator f) (fun op => op st node) (ERR_FS_NOT_SUPPORTED, diriter).

Definition node_iterate_directory (st : S) (diriter : directory_iterator) (ret_node : fs_node) :
  outcome (FS_ERR * directory_iterator * fs_node) :=
  f ← node_fs st (di_node diriter);
  dispatch (fs_iterate_directory f) (fun op => op st diriter ret_node) (ERR_FS_NOT_SUPPORTED, diriter, ret_node).

(** strcmp or, in a FAT32 directory, strcmp_case_insensitive says equal. *)
Definition same_name (type : Z) (a b : list Z) : bool :=
  if type =? FS_FAT32 then bool_decide (map (fun c => toupper (s8 c)) a = map (fun c => toupper (s8 c)) b) else bool_decide (a = b).

Definition find_entry_step (st : S) (type : Z) (nodename : list Z) '(diriter, ret_node) :
  outcome ((directory_iterator * fs_node) + (FS_ERR * fs_node)) :=
  '(err, diriter, ret_node) ← node_iterate_directory st diriter ret_node;
  Ret (if failed err then inr (if bool_decide (err = ERR_FS_EOF) then ERR_FS_NOT_FOUND else err, ret_node)
       else if same_name type nodename (name ret_node) then inr (ERR_FS_SUCCESS, ret_node)
       else inl (diriter, ret_node)).

(** The result holds what is left in the node [ret_node] points to. *)
Definition node_find (st : S) (parent : Z) (nodename : list Z) (ret_node : fs_node) : outcome (FS_ERR * fs_node) :=
  p ← node_at st parent;
  if negb (FS_NODE_IS_DIRECTORY p) then Ret (ERR_FS_NOT_DIR, ret_node)
  else
    let ret_node := set_flags 0 ret_node in
    '(err, diriter) ← node_setup_directory_iterator st (DirectoryIterator 0 0 0) parent;
    if failed err then Ret (err, ret_node)
    else
      f ← node_fs st parent;
      while (find_entry_step st (type f) nodename) (diriter, ret_node).

Definition node_mkdir (st : S) (parent : Z) (name : list Z) (flags new_node : Z) : outcome (FS_ERR * S) :=
  p ← node_at st parent;
  if negb (FS_NODE_IS_DIRECTORY p) then Ret (ERR_FS_NOT_DIR, st)
  else f ← node_fs st parent; dispatch (fs_mkdir f) (fun op => op st parent name flags new_node) (ERR_FS_NOT_SUPPORTED, st).

Definition node_create (st : S) (parent : Z) (name : list Z) (flags new_node : Z) : outcome (FS_ERR * S) :=
  p ← node_at st parent;
  if negb (FS_NODE_IS_DIRECTORY p) then Ret (ERR_FS_NOT_DIR, st)
  else if Z.land flags FS_NODE_TYPE_MASK =? FS_NODE_TYPE_DIRECTORY then Ret (ERR_FS_NOT_SUPPORTED, st)
  else
    n ← node_at st new_node;
    let st := update_node st new_node (set_flags 0 n) in
    f ← node_fs st parent; dispatch (fs_node_create f) (fun op => op st parent name flags new_node) (ERR_FS_NOT_SUPPORTED, st).

Definition node_sync (st : S) (node : Z) : outcome (FS_ERR * S) :=
  f ← node_fs st node; dispatch (fs_node_sync f) (fun op => op st node) (ERR_FS_NOT_SUPPORTED, st).

Definition node_reset (st : S) (node : Z) : outcome (FS_ERR * S) :=
  f ← node_fs st node; dispatch (fs_node_reset f) (fun op => op st node) (ERR_FS_NOT_SUPPORTED, st).

Definition node_move (st : S) (node new_parent : Z) (new_name : option (list Z)) : outcome (FS_ERR * S) :=
  p ← node_at st new_parent;
  n ← node_at st node;
  if negb (FS_NODE_IS_DIRECTORY p) then Ret (ERR_FS_NOT_DIR, st)
  else if negb (fs n =? fs p) then Ret (ERR_FS_NOT_SUPPORTED, st)
  else
    f ← node_fs st node;
    dispatch (fs_node_move f) (fun op => op st node new_parent (default (name n) new_name)) (ERR_FS_NOT_SUPPORTED, st).

(** ** Descriptors *)

Definition make_diriter_adapter (st : S) (dir : file_description) (diriter : directory_iterator) : outcome (FS_ERR * directory_iterator) :=
  let diriter := DirectoryIterator (di_node diriter) (s32 (position dir)) (di_current diriter) in
  f ← node_fs st (fd_node dir);
  dispatch (fs_make_diriter_adapter f) (fun op => Ret (ERR_FS_SUCCESS, op dir diriter)) (ERR_FS_NOT_SUPPORTED, diriter).

Definition save_diriter_adapter (st : S) (dir : file_description) (diriter : directory_iterator) : outcome (FS_ERR * file_description) :=
  let dir := set_position (current_index diriter) dir in
  f ← node_fs st (fd_node dir);
  dispatch (fs_save_diriter_adapter f) (fun op => Ret (ERR_FS_SUCCESS, op dir diriter)) (ERR_FS_SUCCESS, dir).

Definition file_setup_directory_iterator (st : S) (dir : file_description) : outcome (FS_ERR * file_description) :=
  n ← node_at st (fd_node dir);
  if negb (FS_NODE_IS_DIRECTORY n) then Ret (ERR_FS_NOT_DIR, dir)
  else if negb (has_flag (mode dir) FILE_OPEN_READ) then Ret (ERR_FS_FAILED, dir)
  else
    '(err, diriter) ← node_setup_directory_iterator st (DirectoryIterator 0 0 0) (fd_node dir);
    if failed err then Ret (err, dir) else save_diriter_adapter st dir diriter.

(** [dirent_t]; a node's name always ends within d_name. *)
Record dirent := Dirent { d_ino : Z; d_type : Z; d_name : list Z }.

(** [garbage] is what the local iterator's node pointer holds: nothing sets it. *)
Definition file_iterate_directory (garbage : Z) (st : S) (dir : file_description) (ent : dirent) :
  outcome (FS_ERR * file_description * dirent) :=
  n ← node_at st (fd_node dir);
  if negb (FS_NODE_IS_DIRECTORY n) then Ret (ERR_FS_NOT_DIR, dir, ent)
  else if negb (has_flag (mode dir) FILE_OPEN_READ) then Ret (ERR_FS_NOT_DIR, dir, ent)
  else
    '(err, diriter) ← make_diriter_adapter st dir (DirectoryIterator garbage 0 0);
    if failed err then Ret (err, dir, ent)
    else
      '(err, diriter, ret_node) ← node_iterate_directory st diriter uninitialised;
      if failed err then Ret (err, dir, ent)
      else
        '(err, dir) ← save_diriter_adapter st dir diriter;
        if failed err then Ret (err, dir, ent)
        else
          let d_type := if FS_NODE_IS_DIRECTORY ret_node then DT_DIR else if FS_NODE_IS_PIPE ret_node then DT_FIFO else DT_REG in
          Ret (ERR_FS_SUCCESS, dir, Dirent 0 d_type (name ret_node)).

Definition set_accessed (st : S) (node : Z) : outcome S :=
  n ← node_at st node; Ret (update_node st node (set_accessed_timestamp (timer_get_current_time st) n)).
Definition set_modified (st : S) (node : Z) : outcome S :=
  n ← node_at st node; Ret (update_node st node (set_modified_timestamp (timer_get_current_time st) n)).

Definition file_open (st : S) (file : file_description) (node mode : Z) : outcome (FS_ERR * file_description * S) :=
  n ← node_at st node;
  if has_flag mode FILE_OPEN_ONLYDIR && negb (FS_NODE_IS_DIRECTORY n) then Ret (ERR_FS_NOT_DIR, file, st)
  else
    st ← (if has_flag mode FILE_OPEN_WRITE && has_flag mode FILE_OPEN_TRUNCATE
          then '(_, st) ← node_reset st (fd_node file); Ret st else Ret st);
    let file := set_position 0 (set_mode mode (set_fd_node node file)) in
    f ← node_fs st node;
    match fs_file_open f with
    | None => Ret (ERR_FS_NOT_SUPPORTED, file, st)
    | Some op => file ← op st file node mode; st ← set_accessed st node; Ret (ERR_FS_SUCCESS, file, st)
    end.

(** The last result is what is written to [*final_position]. *)
Definition file_seek (st : S) (file : file_description) (offset whence : Z) : outcome (FS_ERR * file_description * option Z) :=
  if has_flag (mode file) FILE_OPEN_APPEND then Ret (ERR_FS_FAILED, file, None)
  else
    n ← node_at st (fd_node file);
    let absolute_position :=
      if whence =? SEEK_ABSOLUTE then offset
      else if whence =? SEEK_RELATIVE then Z.max 0 (s64 (position file + offset))
      else if whence =? SEEK_BOTTOM then size n else 0 in
    f ← node_fs st (fd_node file);
    '(err, file) ← dispatch (fs_file_seek_absolute f) (fun op => op st file absolute_position) (ERR_FS_NOT_SUPPORTED, file);
    Ret (err, file, if failed err then None else Some (position file)).

Definition fs_read (st : S) (file : file_description) (count : Z) : outcome (FS_ERR * list Z * file_description * S) :=
  f ← node_fs st (fd_node file);
  dispatch (fs_file_read f) (fun op => op st file count) (ERR_FS_NOT_SUPPORTED, [], file, st).

Definition file_read (st : S) (file : file_description) (count : Z) : outcome (FS_ERR * list Z * file_description * S) :=
  if negb (has_flag (mode file) FILE_OPEN_READ) then Ret (ERR_FS_FAILED, [], file, st)
  else
    n ← node_at st (fd_node file);
    if FS_NODE_IS_PIPE n then fs_read st file count
    else if position file =? size n then Ret (ERR_FS_EOF, [], file, st)
    else
      let count := if size n <? position file + count then u32 (size n - position file) else count in
      '(err, buffer, file, st) ← fs_read st file count;
      if negb (bool_decide (err = ERR_FS_SUCCESS)) && negb (bool_decide (err = ERR_FS_EOF)) then Ret (err, buffer, file, st)
      else Ret (err, buffer, set_position (position file + Z.of_nat (length buffer)) file, st).

Definition fs_write (st : S) (file : file_description) (buffer : list Z) : outcome (FS_ERR * Z * file_description * S) :=
  f ← node_fs st (fd_node file);
  dispatch (fs_file_write f) (fun op => op st file buffer) (ERR_FS_NOT_SUPPORTED, 0, file, st).

Definition file_write (st : S) (file : file_description) (buffer : list Z) : outcome (FS_ERR * Z * file_description * S) :=
  if negb (has_flag (mode file) FILE_OPEN_WRITE) then Ret (ERR_FS_FAILED, 0, file, st)
  else
    n ← node_at st (fd_node file);
    if negb (FS_NODE_IS_FILE n) && negb (FS_NODE_IS_PIPE n) && negb (FS_NODE_IS_MEMORY n) then Ret (ERR_FS_NOT_FILE, 0, file, st)
    else
      '(err, written, file, st) ← fs_write st file buffer;
      if failed err then Ret (err, written, file, st)
      else
        n ← node_at st (fd_node file);
        if FS_NODE_IS_PIPE n then
          st ← set_modified st (fd_node file); Ret (ERR_FS_SUCCESS, written, file, st)
        else if has_flag (mode file) FILE_OPEN_APPEND then
          let size := u32 (size n + written) in
          st ← set_modified (update_node st (fd_node file) (set_size size n)) (fd_node file);
          Ret (ERR_FS_SUCCESS, written, set_position size file, st)
        else
          let file := set_position (position file + written) file in
          let st := if size n <? position file then update_node st (fd_node file) (set_size (u32 (position file)) n) else st in
          st ← set_modified st (fd_node file);
          Ret (ERR_FS_SUCCESS, written, file, st).

(** ** Copying between file systems *)

(** A descriptor on the stack before it is opened. *)
Definition uninitialised_fd : file_description := FileDescription 0 0 0 0 0.

Definition universal_copy_step '(remain_size, src_file, dst_file, final_err, st) :
  outcome ((Z * file_description * file_description * FS_ERR * S) + (FS_ERR * S)) :=
  if remain_size =? 0 then Ret (inr (final_err, st))
  else
    let write_size := if UNIVERSAL_COPY_SIZE <=? remain_size then UNIVERSAL_COPY_SIZE else remain_size in
    '(err, buffer, src_file, st) ← file_read st src_file write_size;
    if negb (bool_decide (err = ERR_FS_SUCCESS)) && negb (bool_decide (err = ERR_FS_EOF)) then Ret (inr (err, st))
    else
      '(err, written, dst_file, st) ← file_write st dst_file buffer;
      Ret (if failed err then inr (err, st) else inl (u32 (remain_size - written), src_file, dst_file, err, st)).

Definition universal_copy (st : S) (node new_parent copied : Z) (new_name : list Z) : outcome (FS_ERR * S) :=
  '(err, st) ← node_create st new_parent new_name 0 copied;
  if failed err then Ret (err, st)
  else
    '(err, src_file, st) ← file_open st uninitialised_fd node FILE_OPEN_READ;
    if failed err then Ret (err, st)
    else
      '(err, dst_file, st) ← file_open st uninitialised_fd copied (Z.lor FILE_OPEN_WRITE FILE_OPEN_CREATE);
      if failed err then Ret (err, st)
      else
        n ← node_at st node;
        '(final_err, st) ← while universal_copy_step (size n, src_file, dst_file, ERR_FS_SUCCESS, st);
        '(_, st) ← node_sync st copied;
        Ret (final_err, st).

(** [ramfs_universal_copy] reads the datanodes itself and so belongs to the RAM
    file system: here it is a parameter, and its definition is below. *)
Definition node_copy (ramfs_universal_copy : S -> Z -> Z -> Z -> list Z -> outcome (FS_ERR * S))
    (st : S) (node new_parent copied : Z) (new_name : option (list Z)) : outcome (FS_ERR * S) :=
  p ← node_at st new_parent;
  n ← node_at st node;
  if negb (FS_NODE_IS_DIRECTORY p) then Ret (ERR_FS_NOT_DIR, st)
  else if negb (FS_NODE_IS_FILE n) then Ret (ERR_FS_NOT_FILE, st)
  else
    let new_name := default (name n) new_name in
    f ← node_fs st node;
    if fs n =? fs p then dispatch (fs_node_copy f) (fun op => op st node new_parent copied new_name) (ERR_FS_NOT_SUPPORTED, st)
    else if type f =? FS_RAMFS then ramfs_universal_copy st node new_parent copied new_name
    else universal_copy st node new_parent copied new_name.

(** ** Opening *)

(** Truncating on opening goes wrong: file_open resets [file->node], the node
    the descriptor was of, instead of the node being opened.  vfs_open hands it a
    descriptor whose node is NULL, so every open that asks for FILE_OPEN_WRITE and
    FILE_OPEN_TRUNCATE of a node that may be opened follows a null pointer. *)
Theorem file_open_truncate_faults (st : S) (file : file_description) (node mode : Z) (n : fs_node) :
  node_at st 0 = Fault -> fd_node file = 0 -> node_at st node = Ret n ->
  has_flag mode FILE_OPEN_WRITE = true -> has_flag mode FILE_OPEN_TRUNCATE = true ->
  has_flag mode FILE_OPEN_ONLYDIR = false ->
  file_open st file node mode = Fault.
Proof.
  intros N0 Ef En Mw Mt Md. unfold file_open. rewrite En, bind_ret, Md, Mw, Mt. cbn [andb].
  unfold node_reset, node_fs. now rewrite Ef, N0.
Qed.
End file_ops.

(** ** The RAM file system *)

Section ramfs_store.
Context {H : Type} `{Allocator H}.

(** Where the RAM file system's [fs_t] lies, and the other file systems. *)
Variable ramfs : Z.
Variable others : Z -> option (fs_t (state H)).

(** The pointers ramfs_init sets. *)
Definition ramfs_fs : fs_t (state H) := FsT FS_RAMFS (Some ramfs_remove_entry) (Some ramfs_make_diriter_adapter)
  (Some ramfs_save_diriter_adapter) (Some ramfs_setup_directory_iterator) (Some ramfs_iterate_directory)
  (Some ramfs_mkdir) (Some ramfs_node_create) (Some ramfs_node_copy) (Some ramfs_node_move) (Some ramfs_node_reset)
  (Some ramfs_update_entry) (Some ramfs_file_seek_absolute) (Some ramfs_file_read) (Some ramfs_file_write) (Some ramfs_file_open).

#[local] Program Instance ramfs_store : NodeStore (state H) := {
  node_at := get_node;
  update_node st p n := put_node p n st;
  fs_at st f := if f =? ramfs then Ret ramfs_fs else of_option (others f);
  timer_get_current_time := now;
}.
Next Obligation. intros st p n. unfold get_node. cbn. now rewrite lookup_insert_eq. Qed.
Next Obligation. reflexivity. Qed.

(** The bytes of a datanode, written to the destination until they are all there. *)
Definition copy_bytes_step (bytes : list Z) '(written_size, dst_file, st) :
  outcome ((Z * file_description * state H) + (option FS_ERR * file_description * state H)) :=
  if Z.of_nat (length bytes) <=? written_size then Ret (inr (None, dst_file, st))
  else
    '(err, write_size, dst_file, st) ← file_write st dst_file (drop (Z.to_nat written_size) bytes);
    Ret (if failed err && negb (bool_decide (err = ERR_FS_EOF)) then inr (Some err, dst_file, st)
         else inl (u32 (written_size + write_size), dst_file, st)).

Definition copy_node_step (ramnode : Z) '(current_datanode, dst_file, st) :
  outcome ((Z * file_description * state H) + (option FS_ERR * state H)) :=
  if current_datanode =? 0 then Ret (inr (None, st))
  else
    d ← get_dn st current_datanode;
    r ← get_rn st ramnode;
    let size := if next d =? 0 then rn_size r mod RAMFS_DATANODE_SIZE else RAMFS_DATANODE_SIZE in
    '(err, dst_file, st) ← while (copy_bytes_step (peek_data d 0 size)) (0, dst_file, st);
    match err with
    | Some err => Ret (inr (Some err, st))
    | None => d ← get_dn st current_datanode; Ret (inl (next d, dst_file, st))
    end.

Definition ramfs_universal_copy (st : state H) (node new_parent copied : Z) (new_name : list Z) : outcome (FS_ERR * state H) :=
  '(err, st) ← node_create st new_parent new_name 0 copied;
  if failed err then Ret (err, st)
  else
    '(err, dst_file, st) ← file_open st uninitialised_fd copied FILE_OPEN_WRITE;
    if failed err then Ret (err, st)
    else
      n ← get_node st node;
      r ← get_rn st (node_addr n);
      '(err, st) ← while (copy_node_step (node_addr n)) (rn_data r, dst_file, st);
      match err with
      | Some err => Ret (err, st)
      | None => '(_, st) ← node_sync st copied; Ret (ERR_FS_SUCCESS, st)
      end.
End ramfs_store.

Module Runs.
Import Bump Ramfs.Runs.
#[local] Instance bump_store : NodeStore (state bump) := ramfs_store 0 (fun _ => None).

Lemma file_open_truncate_witness : file_open st0 (FileDescription 0 0 0 0 0) 100 6 = Fault.
Proof. exact (file_open_truncate_faults st0 (FileDescription 0 0 0 0 0) 100 6 _ eq_refl eq_refl eq_refl eq_refl eq_refl eq_refl). Defined.
End Runs.
