(* ===== verification/RamfsWrite.v ===== *)
(** * Writing files (kernel/src/filesystem/ramfs.c)

    What ramfs_file_write leaves in a file: the bytes before the position, the
    buffer, and then the old bytes only as long as no new datanodes were linked
    in front of them. *)
From S2P Require Import Prelude Mem Fs Ramfs RamfsPipe.

Section write.
Context {H : Type} `{Allocator H}.

(** ** Fresh datanodes *)

(** [st'] is [st] with the datanodes [new] allocated and [edited] rewritten. *)
Record grown (st st' : state H) (edited new : list Z) : Prop := {
  gr_state : st' = with_datanodes (datanodes st') (with_rheap (rheap st') st);
  gr_kept : forall x, x ∉ edited -> x ∉ new -> datanodes st' !! x = datanodes st !! x;
  gr_live : forall x, live (rheap st') x <-> live (rheap st) x \/ x ∈ new;
  gr_fresh : forall x, x ∈ new -> ~ live (rheap st) x;
  gr_nodup : NoDup new;
}.

Lemma grown_refl st e : grown st st e [].
Proof.
  split; auto; [now destruct st| |intros x Hx; now apply elem_of_nil in Hx|apply NoDup_nil_2].
  intros x. rewrite elem_of_nil. tauto.
Qed.

Lemma grown_trans st1 st2 st3 e1 e2 n1 n2 : grown st1 st2 e1 n1 -> grown st2 st3 e2 n2 ->
  grown st1 st3 (e1 ++ e2) (n1 ++ n2).
Proof.
  intros [S1 K1 L1 F1 N1] [S2 K2 L2 F2 N2]. split.
  - destruct st1, st2, st3. unfold with_datanodes, with_rheap in *. cbn in *. congruence.
  - intros x He Hn. rewrite not_elem_of_app in He, Hn. rewrite K2, K1; tauto.
  - intros x. rewrite L2, L1, elem_of_app. tauto.
  - intros x [Hx|Hx]%elem_of_app; [auto|]. intros Hl. apply (F2 x Hx), L1. auto.
  - apply NoDup_app. split_and!; auto. intros x Hx Hx2. apply (F2 x Hx2), L1. auto.
Qed.

Lemma grown_weaken st st' e e' n n' : grown st st' e n -> n = n' -> (forall x, x ∈ e -> x ∈ e' \/ x ∈ n) -> grown st st' e' n'.
Proof. intros [] <- He. split; auto. intros x Hx Hn. apply gr_kept0; auto. intros Hx'. destruct (He x Hx'); auto. Qed.

Lemma grown_put (st : state H) p d : grown st (put_dn p d st) [p] [].
Proof.
  destruct (grown_refl st [p]) as [_ _ L F N]. split; auto.
  intros x Hx _. cbn. apply lookup_insert_ne. intros ->. apply Hx. now left.
Qed.

Lemma malloc_grown k (st : state H) : room (S k) (rheap st) -> exists p st', malloc_datanode st = (p, st') /\ p <> 0 /\ grown st st' [] [p] /\
  (exists d, datanodes st' !! p = Some d /\ next d = 0) /\ room k (rheap st').
Proof.
  intros [R Rk]. pose proof (alloc_fresh (rheap st) sizeof_datanode) as F.
  pose proof (alloc_live (rheap st) sizeof_datanode) as L. unfold malloc_datanode, rmalloc.
  destruct (alloc (rheap st) sizeof_datanode) as [p h]. cbn [fst snd] in *. replace (p =? 0) with false by lia.
  do 2 eexists. split_and!; [reflexivity|assumption| | |exact Rk].
  - split; [now destruct st| | | |apply NoDup_singleton].
    + intros x _ Hx. cbn. apply lookup_insert_ne. intros ->. apply Hx. now left.
    + intros x. cbn. rewrite L, list_elem_of_singleton. split; [tauto|intros [?|?]; [auto|right; subst; auto]].
    + intros x Hx%list_elem_of_singleton. subst x. exact F.
  - eexists. cbn. rewrite lookup_insert_eq. split; reflexivity.
Qed.

Lemma set_next_eq (st : state H) p q d : datanodes st !! p = Some d -> set_next p q st = Ret (put_dn p (Datanode q (data d)) st).
Proof. intros E. unfold set_next, get_dn. now rewrite E. Qed.

(** The loop of ramfs_allocate_datanodes, after the first datanode. *)
Lemma allocate_loop start k n : forall cur d st, room (n + k) (rheap st) -> Z.of_nat n < 2 ^ 32 -> datanodes st !! cur = Some d -> next d = 0 ->
  live (rheap st) cur ->
  exists qs bytes st', loop (allocate_step false start) (S n) (cur, Z.of_nat n, st) = Ret (start, st') /\
    length qs = n /\ grown st st' [cur] qs /\ chain (datanodes st') qs bytes /\
    datanodes st' !! cur = Some (Datanode (default 0 (head qs)) (data d)) /\ room k (rheap st').
Proof.
  induction n as [|n IH]; intros cur d st R Hn Ed En Hl; rewrite loop_S; unfold allocate_step at 2.
  - exists [], [], st. change (Z.of_nat 0 =? 0) with true. cbv iota. rewrite bind_ret. split_and!; try reflexivity.
    + apply grown_refl.
    + rewrite Ed. destruct d. cbn in *. congruence.
    + exact R.
  - replace (Z.of_nat (S n) =? 0) with false by lia.
    destruct (malloc_grown _ st R) as (p & st1 & E1 & Hp & G1 & (d1 & Ed1 & En1) & R1). rewrite E1.
    assert (Ne : cur <> p) by (intros ->; apply (gr_fresh _ _ _ _ G1 p); [now left|assumption]).
    rewrite (set_next_eq _ _ _ d) by (rewrite (gr_kept _ _ _ _ G1); [exact Ed|apply not_elem_of_nil|now rewrite list_elem_of_singleton]).
    rewrite bind_ret. replace (p =? 0) with false by lia. unfold clear_data. rewrite bind_ret.
    set (st2 := put_dn cur _ st1). rewrite (set_next_eq _ _ _ d1) by (cbn; rewrite lookup_insert_ne; assumption).
    rewrite !bind_ret. rewrite u32_small by lia. replace (Z.of_nat (S n) - 1) with (Z.of_nat n) by lia.
    set (st3 := put_dn p _ st2).
    assert (G3 : grown st st3 [cur] [p]).
    { eapply grown_weaken; [eapply grown_trans; [exact G1|eapply grown_trans; apply grown_put]|reflexivity|clear; set_solver]. }
    destruct (IH p (Datanode 0 (data d1)) st3 R1 ltac:(lia)) as (qs & bytes & st' & E' & Lq & G' & C & Ep & R').
    { cbn. apply lookup_insert_eq. } { reflexivity. } { apply (gr_live _ _ _ _ G3). right. now left. }
    exists (p :: qs), (dn_bytes (Datanode (default 0 (head qs)) (data (Datanode 0 (data d1)))) ++ bytes), st'. rewrite E'. split_and!.
    + reflexivity.
    + cbn. congruence.
    + eapply grown_weaken; [eapply grown_trans; [exact G3|exact G']|reflexivity|clear; set_solver].
    + split; [assumption|]. eexists _, bytes. split_and!; [exact Ep|reflexivity|reflexivity|exact C].
    + rewrite (gr_kept _ _ _ _ G'); [|now rewrite list_elem_of_singleton|].
      * cbn. rewrite lookup_insert_ne, lookup_insert_eq by auto. reflexivity.
      * intros Hx. apply (gr_fresh _ _ _ _ G' cur Hx), (gr_live _ _ _ _ G3). now left.
    + exact R'.
Qed.

Lemma allocate_chain k (st : state H) count : room (Z.to_nat count + k) (rheap st) -> 0 < count < 2 ^ 32 ->
  exists p qs bytes st', ramfs_allocate_datanodes st count false = Ret (p, st') /\ length (p :: qs) = Z.to_nat count /\
    grown st st' [] (p :: qs) /\ chain (datanodes st') (p :: qs) bytes /\ room k (rheap st').
Proof.
  intros R Hc. unfold ramfs_allocate_datanodes. replace (count =? 0) with false by lia.
  replace (Z.to_nat count + k)%nat with (S (Z.to_nat (count - 1) + k)) in R by lia.
  destruct (malloc_grown _ st R) as (p & st1 & E1 & Hp & G1 & (d & Ed & En) & R1). rewrite E1. replace (p =? 0) with false by lia.
  unfold clear_data at 1. rewrite bind_ret, u32_small by lia. cbv zeta.
  assert (Lp : live (rheap st1) p) by (apply (gr_live _ _ _ _ G1); right; now left).
  destruct (Z.eqb_spec (count - 1) 0) as [Hz|Hz].
  - rewrite (set_next_eq _ _ _ _ Ed), bind_ret. exists p, [], (dn_bytes (Datanode 0 (data d))). eexists. split_and!; [reflexivity|cbn; lia| | |rewrite Hz in R1; exact R1].
    + eapply grown_weaken; [eapply grown_trans; [exact G1|apply grown_put]|reflexivity|clear; set_solver].
    + apply chain_one. split; [assumption|]. eexists. split_and!; [apply lookup_insert_eq|reflexivity|reflexivity].
  - destruct (allocate_loop p k (Z.to_nat (count - 1)) p d st1 R1 ltac:(lia) Ed En Lp) as (qs & bytes & st' & E' & Lq & G' & C & Ep & R').
    rewrite Z2Nat.id in E' by lia. rewrite (while_loop _ _ _ _ E') by (discriminate || lia).
    exists p, qs, (dn_bytes (Datanode (default 0 (head qs)) (data d)) ++ bytes), st'. split_and!.
    + reflexivity.
    + cbn. lia.
    + eapply grown_weaken; [eapply grown_trans; [exact G1|exact G']|reflexivity|clear; set_solver].
    + split; [assumption|]. eexists _, bytes. split_and!; [exact Ep|reflexivity|reflexivity|exact C].
    + exact R'.
Qed.

(** ** Filling datanodes *)

Lemma poke_dn_eq (st : state H) p off l d : datanodes st !! p = Some d ->
  poke_dn st p off l = Ret (put_dn p (Datanode (next d) (poke (data d) off l)) st).
Proof. intros E. unfold poke_dn, get_dn. now rewrite E. Qed.

Lemma chain_cons (m : gmap Z datanode) p ps d rest : p <> 0 -> m !! p = Some d -> next d = default 0 (head ps) -> chain m ps rest ->
  chain m (p :: ps) (dn_bytes d ++ rest).
Proof. intros Hp Ed En C. split; [assumption|]. exists d, rest. auto. Qed.

Lemma chain_grown (st st' : state H) e new ps bytes last : grown st st' e new -> (forall x, x ∈ ps -> x ∉ e) ->
  (forall x, x ∈ ps -> live (rheap st) x) -> chain_to last (datanodes st) ps bytes -> chain_to last (datanodes st') ps bytes.
Proof.
  intros G He Hl C. eapply dn_chain_ext; [|exact C]. intros x Hx. apply (gr_kept _ _ _ _ G); auto.
  intros Hn. apply (gr_fresh _ _ _ _ G x Hn). auto.
Qed.

Lemma write_loop ps : forall p bytes buffer written st, chain (datanodes st) (p :: ps) bytes -> NoDup (p :: ps) ->
  (forall x, x ∈ p :: ps -> live (rheap st) x) -> is_bytes buffer -> (length buffer <= length bytes)%nat ->
  0 <= written -> written + Z.of_nat (length buffer) < 2 ^ 32 ->
  exists q st', loop write_step (S (length ps)) (p, buffer, written, st) =
      Ret (ERR_FS_SUCCESS, q, written + Z.of_nat (length buffer), st') /\
    (p :: ps) !! datanode_index (Z.of_nat (length buffer)) = Some q /\
    chain (datanodes st') (p :: ps) (buffer ++ drop (length buffer) bytes) /\ grown st st' (p :: ps) [].
Proof.
  induction ps as [|p' ps IH]; intros p bytes buffer written st C ND Lv B Hl Hw Hs;
    destruct (chain_head _ _ _ _ C) as (d & rest & Ed & Hp & En & -> & Cr & Ez);
    rewrite loop_S; unfold write_step at 2; cbv zeta; pose proof (dn_bytes_length d) as Ld; rewrite length_app, Ld in Hl;
    set (w := if Z.of_nat (length buffer) <? RAMFS_DATANODE_SIZE then Z.of_nat (length buffer) else RAMFS_DATANODE_SIZE);
    assert (Hwz : w = Z.min (Z.of_nat (length buffer)) 512) by (unfold w, RAMFS_DATANODE_SIZE; case_test; lia); clearbody w;
    rewrite (poke_dn_eq _ _ _ _ _ Ed), bind_ret;
    set (d1 := Datanode (next d) (poke (data d) 0 (take (Z.to_nat w) buffer)));
    assert (Ed1 : dn_bytes d1 = take (Z.to_nat w) buffer ++ drop (Z.to_nat w) (dn_bytes d))
      by (unfold d1; rewrite dn_bytes_poke; [rewrite length_take; replace (Z.to_nat 0 + Z.to_nat w `min` length buffer)%nat with (Z.to_nat w) by lia; reflexivity|now apply Forall_take|lia|rewrite length_take; lia]).
  - cbn in Cr. subst rest. cbn [length] in Hl. replace (_ =? 0) with true by lia. rewrite u32_small by lia.
    exists p, (put_dn p d1 st). rewrite bind_ret. split_and!.
    + do 2 f_equal. replace w with (Z.of_nat (length buffer)) by lia. reflexivity.
    + unfold datanode_index, RAMFS_DATANODE_SIZE. replace (Z.to_nat _) with 0%nat; [reflexivity|]. Z.to_euclidean_division_equations; lia.
    + apply chain_one. split; [assumption|]. exists d1. split_and!; [apply lookup_insert_eq|exact En|].
      rewrite Ed1, app_nil_r. rewrite take_ge by lia. do 2 f_equal. lia.
    + apply grown_put.
  - destruct (Z.eqb_spec (Z.of_nat (length buffer) - w) 0) as [Hz|Hz].
    + rewrite u32_small by lia. exists p, (put_dn p d1 st). rewrite bind_ret. split_and!.
      * do 2 f_equal. replace w with (Z.of_nat (length buffer)) by lia. reflexivity.
      * unfold datanode_index, RAMFS_DATANODE_SIZE. replace (Z.to_nat _) with 0%nat; [reflexivity|]. Z.to_euclidean_division_equations; lia.
      * replace (buffer ++ _) with (dn_bytes d1 ++ rest).
        -- apply NoDup_cons in ND as [Np _]. apply chain_cons; [assumption|apply lookup_insert_eq|exact En|].
           eapply dn_chain_ext; [|exact Cr]. intros x Hx. cbn. apply lookup_insert_ne. intros ->. contradiction.
        -- rewrite Ed1, take_ge by lia. rewrite drop_app_le, app_assoc by lia. do 3 f_equal. lia.
      * eapply grown_weaken; [apply grown_put|reflexivity|]. intros x Hx%list_elem_of_singleton. subst x. left. now left.
    + assert (w = 512) as -> by lia. rewrite u32_small by lia. apply NoDup_cons in ND as [Np ND].
      unfold get_dn. cbn [datanodes put_dn with_datanodes]. rewrite lookup_insert_eq. cbn [of_option]. rewrite bind_ret.
      change (next d1) with (next d). rewrite Ez, bind_ret.
      replace (next d) with p' by (rewrite En; reflexivity). cbv beta iota.
      destruct (IH p' rest (drop (Z.to_nat 512) buffer) (written + 512) (put_dn p d1 st)) as (q & st' & E1 & Eq & C' & G').
      { eapply dn_chain_ext; [|exact Cr]. intros x Hx. cbn. apply lookup_insert_ne. intros ->. contradiction. }
      { assumption. } { intros x Hx. cbn. apply Lv. now right. } { now apply Forall_drop. }
      { rewrite length_drop. lia. } { lia. } { rewrite length_drop. lia. }
      exists q, st'. cbn [length]. rewrite E1. rewrite length_drop in *. split_and!.
      * do 3 f_equal; lia.
      * rewrite <- Eq. replace (Z.of_nat (length buffer)) with (512 * 1 + Z.of_nat (length buffer - Z.to_nat 512)) by lia.
        now rewrite datanode_index_add by lia.
      * replace (buffer ++ _) with (dn_bytes d1 ++ (drop (Z.to_nat 512) buffer ++ drop (length buffer - Z.to_nat 512) rest)).
        -- apply chain_cons; [assumption| |exact En|exact C']. rewrite (gr_kept _ _ _ _ G') by (assumption || apply not_elem_of_nil).
           apply lookup_insert_eq.
        -- rewrite Ed1. rewrite (drop_ge (dn_bytes d)) by lia. rewrite app_nil_r, app_assoc, take_drop. f_equal.
           rewrite drop_app_ge by lia. rewrite Ld. f_equal.
      * eapply grown_weaken; [eapply grown_trans; [apply grown_put|exact G']|reflexivity|]. intros x. rewrite elem_of_app, list_elem_of_singleton.
        intros [->|Hx]; left; [now left|now right].
Qed.

Lemma write_while p ps bytes buffer written st : chain (datanodes st) (p :: ps) bytes -> NoDup (p :: ps) ->
  (forall x, x ∈ p :: ps -> live (rheap st) x) -> is_bytes buffer -> (length buffer <= length bytes)%nat ->
  0 <= written -> written + Z.of_nat (length buffer) < 2 ^ 32 -> Z.of_nat (length ps) < 2 ^ 32 ->
  exists q st', while write_step (p, buffer, written, st) = Ret (ERR_FS_SUCCESS, q, written + Z.of_nat (length buffer), st') /\
    (p :: ps) !! datanode_index (Z.of_nat (length buffer)) = Some q /\
    chain (datanodes st') (p :: ps) (buffer ++ drop (length buffer) bytes) /\ grown st st' (p :: ps) [].
Proof.
  intros C ND Lv B Hl Hw Hs Hn. destruct (write_loop ps p bytes buffer written st) as (q & st' & E1 & R); auto.
  exists q, st'. split; [|exact R]. eapply while_loop; [exact E1|discriminate|lia].
Qed.

(** ** The outcome of a write at the offset [off] of a datanode

    When [len] bytes from there fill a datanode beyond the first boundary, the
    rest of the chain is replaced. *)
Definition replaces_chain (off : Z) (len : nat) : bool := (if off =? 0 then 512 else 1024 - off) <=? Z.of_nat len.

(** [ps], [bytes]: the chain behind the datanode [p] and all it held; [q]: the
    datanode the write ends in. *)
Record written (st st' : state H) (p : Z) (ps bytes buffer : list Z) (off q : Z) (ps' bytes' : list Z) : Prop := {
  wr_chain : chain (datanodes st') (p :: ps') bytes';
  wr_content : take (Z.to_nat off + length buffer) bytes' = take (Z.to_nat off) bytes ++ buffer;
  wr_length : (Z.to_nat off + length buffer <= length bytes')%nat;
  wr_last : (p :: ps') !! datanode_index (off + Z.of_nat (length buffer)) = Some q;
  wr_kept : replaces_chain off (length buffer) = false ->
    drop (Z.to_nat off + length buffer) bytes `prefix_of` drop (Z.to_nat off + length buffer) bytes';
  wr_lost : replaces_chain off (length buffer) = true -> (length bytes' <= Z.to_nat off + length buffer + 512)%nat;
  wr_nodup : NoDup (p :: ps');
  wr_bound : (length ps' <= length ps + length buffer + (if (off =? 0)%Z then 0 else 1))%nat;
  wr_grown : exists new, grown st st' (p :: ps) new /\ forall x, x ∈ ps' -> x ∈ ps \/ x ∈ new;
}.

Lemma write_datanodes_spec p ps bytes buffer w st : room (length buffer / 512) (rheap st) -> chain (datanodes st) (p :: ps) bytes -> NoDup (p :: ps) ->
  (forall x, x ∈ p :: ps -> live (rheap st) x) -> is_bytes buffer -> 0 <= w -> w + Z.of_nat (length buffer) < 2 ^ 31 ->
  Z.of_nat (length ps) < 2 ^ 31 ->
  exists q ps' bytes' st', write_datanodes st p buffer w = Ret (ERR_FS_SUCCESS, q, w + Z.of_nat (length buffer), st') /\
    written st st' p ps bytes buffer 0 q ps' bytes'.
Proof.
  intros R C ND Lv B Hw Hs Hn. unfold write_datanodes, RAMFS_DATANODE_SIZE. destruct (chain_head _ _ _ _ C) as (d & rest & Ed & Hp & En & Eb & Cr & _).
  pose proof (dn_bytes_length d) as Ld. destruct (Z.ltb_spec 0 (Z.of_nat (length buffer) / 512)) as [He|He].
  - destruct (allocate_chain 0 st (Z.of_nat (length buffer) / 512)) as (p2 & qs & b2 & st1 & E1 & Lq & G1 & C1 & _);
      [rewrite Nat.add_0_r; apply (room_le _ _ _ R); change 512 with (Z.of_nat 512); rewrite <- Nat2Z.inj_div; lia|Z.to_euclidean_division_equations; lia|]. rewrite E1, bind_ret.
    assert (Np : p ∉ p2 :: qs) by (intros Hx; apply (gr_fresh _ _ _ _ G1 p Hx), Lv; now left).
    rewrite (set_next_eq _ _ _ d), bind_ret by (rewrite (gr_kept _ _ _ _ G1); [exact Ed|apply not_elem_of_nil|assumption]).
    replace (p2 =? 0) with false by (destruct C1; lia). set (st2 := put_dn p _ st1).
    assert (C2 : chain (datanodes st2) (p :: p2 :: qs) (dn_bytes d ++ b2)).
    { apply (chain_cons _ _ _ (Datanode p2 (data d))); [assumption|apply lookup_insert_eq|reflexivity|].
      eapply dn_chain_ext; [|exact C1]. intros x Hx. apply lookup_insert_ne. intros ->. contradiction. }
    pose proof (chain_length _ _ _ _ C2) as L2. unfold RAMFS_DATANODE_SIZE in L2. cbn [length] in L2, Lq.
    assert (G2 : grown st st2 [p] (p2 :: qs)).
    { eapply grown_weaken; [eapply grown_trans; [exact G1|apply grown_put]|apply app_nil_r|]. intros x. cbn. tauto. }
    destruct (write_while p (p2 :: qs) (dn_bytes d ++ b2) buffer w st2) as (q & st' & E' & Eq & C' & G'); auto.
    { apply NoDup_cons. split; [assumption|apply (gr_nodup _ _ _ _ G1)]. }
    { intros x Hx. apply (gr_live _ _ _ _ G2). apply elem_of_cons in Hx as [-> |Hx]; [left; apply Lv; now left|now right]. }
    { Z.to_euclidean_division_equations; lia. } { lia. } { cbn [length]. Z.to_euclidean_division_equations; lia. }
    exists q, (p2 :: qs), (buffer ++ drop (length buffer) (dn_bytes d ++ b2)), st'. split; [exact E'|]. split.
    + exact C'.
    + change (Z.to_nat 0 + length buffer)%nat with (length buffer). now rewrite take_app_length.
    + rewrite length_app, length_drop. cbn. lia.
    + exact Eq.
    + unfold replaces_chain. cbn [Z.eqb]. intros ?. Z.to_euclidean_division_equations; lia.
    + intros _. rewrite length_app, length_drop. Z.to_euclidean_division_equations; lia.
    + apply NoDup_cons. split; [assumption|apply (gr_nodup _ _ _ _ G1)].
    + cbn [length Z.eqb]. Z.to_euclidean_division_equations; lia.
    + exists (p2 :: qs). split; [|auto]. eapply grown_weaken; [eapply grown_trans; [exact G2|exact G']|apply app_nil_r|].
      intros x. rewrite app_nil_r, elem_of_app, list_elem_of_singleton, (elem_of_cons (p2 :: qs)), (elem_of_cons ps). tauto.
  - subst bytes. destruct (write_while p ps (dn_bytes d ++ rest) buffer w st) as (q & st' & E' & Eq & C' & G'); auto.
    { rewrite length_app. Z.to_euclidean_division_equations; lia. } { lia. } { lia. }
    exists q, ps, (buffer ++ drop (length buffer) (dn_bytes d ++ rest)), st'. split; [exact E'|]. split.
    + exact C'.
    + change (Z.to_nat 0 + length buffer)%nat with (length buffer). now rewrite take_app_length.
    + rewrite length_app, length_drop. cbn. lia.
    + exact Eq.
    + intros _. change (Z.to_nat 0 + length buffer)%nat with (length buffer). now rewrite drop_app_length.
    + unfold replaces_chain. cbn [Z.eqb]. intros ?. Z.to_euclidean_division_equations; lia.
    + assumption.
    + cbn [Z.eqb]. lia.
    + exists []. auto.
Qed.

Lemma prefix_drop {A} (l k : list A) n : l `prefix_of` k -> drop n l `prefix_of` drop n k.
Proof. intros [x ->]. rewrite drop_app. eexists. reflexivity. Qed.

(** A write that goes on in the next datanode, which [st1] already links. *)
Lemma written_cons st st1 st' p ps0 new1 p2 ps2 old bytes2 d (buf X : list Z) off q ps2' bytes2' :
  datanodes st1 !! p = Some d -> next d = p2 -> p <> 0 -> p ∉ p2 :: ps2 -> live (rheap st1) p ->
  (0 < length buf)%nat -> 0 < off <= 512 -> off + Z.of_nat (length X) = 512 -> dn_bytes d = take (Z.to_nat off) old ++ X ->
  drop 512 old `prefix_of` bytes2 -> grown st st1 (p :: ps0) new1 -> (forall x, x ∈ p2 :: ps2 -> x ∈ ps0 \/ x ∈ new1) ->
  (length ps2 <= length ps0)%nat ->
  written st1 st' p2 ps2 bytes2 buf 0 q ps2' bytes2' ->
  written st st' p ps0 old (X ++ buf) off q (p2 :: ps2') (dn_bytes d ++ bytes2').
Proof.
  intros Ed En Hp Np Lp Hb Ho HX Eb Pre G1 In1 Hl [C' Cont Len Last Kept Lost ND Bound (new2 & G2 & In2)].
  pose proof (dn_bytes_length d) as Ld. change (Z.to_nat 0 + length buf)%nat with (length buf) in *.
  change (take (Z.to_nat 0) bytes2 ++ buf) with buf in Cont. change (0 + Z.of_nat (length buf)) with (Z.of_nat (length buf)) in Last. cbn [Z.eqb] in Bound.
  assert (Np' : p ∉ p2 :: ps2').
  { rewrite elem_of_cons in *. intros [->|Hx]; [tauto|]. destruct (In2 p Hx) as [?|Hn]; [tauto|]. apply (gr_fresh _ _ _ _ G2 p Hn Lp). }
  assert (Er : forall n, replaces_chain off (length X + n) = replaces_chain 0 n).
  { intros n. unfold replaces_chain. replace (off =? 0) with false by lia. cbn [Z.eqb]. lia. }
  split.
  - apply chain_cons; [assumption| |assumption|exact C'].
    rewrite (gr_kept _ _ _ _ G2); [exact Ed|assumption|]. intros Hn. apply (gr_fresh _ _ _ _ G2 p Hn Lp).
  - rewrite length_app. replace (Z.to_nat off + (length X + length buf))%nat with (length (dn_bytes d) + length buf)%nat by lia.
    rewrite take_app_add, Cont, Eb, app_assoc. reflexivity.
  - rewrite !length_app. lia.
  - rewrite length_app. replace (off + Z.of_nat (length X + length buf)) with (512 * 1 + Z.of_nat (length buf)) by lia.
    rewrite datanode_index_add by lia. exact Last.
  - rewrite length_app, Er. intros Hr. specialize (Kept Hr). rewrite Nat.add_assoc.
    replace (Z.to_nat off + length X + length buf)%nat with (length (dn_bytes d) + length buf)%nat by lia.
    rewrite drop_app_add. etrans; [|exact Kept]. rewrite Ld, <- drop_drop. now apply prefix_drop.
  - rewrite length_app, Er. intros Hr. specialize (Lost Hr). rewrite length_app. lia.
  - apply NoDup_cons. auto.
  - rewrite length_app. replace (off =? 0) with false by lia. cbn [length]. lia.
  - exists (new1 ++ new2). split.
    + eapply grown_weaken; [eapply grown_trans; [exact G1|exact G2]|reflexivity|]. intros x. rewrite !elem_of_app, !elem_of_cons.
      specialize (In1 x). rewrite elem_of_cons in In1. tauto.
    + intros x. rewrite elem_of_app, elem_of_cons. specialize (In1 x). specialize (In2 x). rewrite elem_of_cons in In1. tauto.
Qed.
(** write_file links a datanode behind the last one of a chain when it needs one. *)
Lemma link_next k (st : state H) p ps d rest : room (S k) (rheap st) -> datanodes st !! p = Some d -> p <> 0 -> next d = default 0 (head ps) ->
  chain (datanodes st) ps rest -> NoDup (p :: ps) -> (forall x, x ∈ p :: ps -> live (rheap st) x) ->
  exists p2 ps2 bytes2 new st1, (if next d =? 0 then
      '(p2, st1) ← ramfs_allocate_datanodes st 1 false; st1 ← set_next p p2 st1; Ret (p2, st1)
    else Ret (next d, st)) = Ret (p2, st1) /\
    p2 <> 0 /\ datanodes st1 !! p = Some (Datanode p2 (data d)) /\ chain (datanodes st1) (p2 :: ps2) bytes2 /\
    rest `prefix_of` bytes2 /\ grown st st1 [p] new /\ (forall x, x ∈ p2 :: ps2 -> x ∈ ps \/ x ∈ new) /\ (length ps2 <= length ps)%nat /\
    NoDup (p2 :: ps2) /\ p ∉ p2 :: ps2 /\ room k (rheap st1).
Proof.
  intros R Ed Hp En C ND Lv. apply NoDup_cons in ND as [Np ND]. destruct ps as [|p2 ps2].
  - cbn in En. rewrite En. change (0 =? 0) with true. cbv iota.
    destruct (allocate_chain k st 1 R ltac:(lia)) as (p2 & qs & b2 & st1 & E1 & Lq & G1 & C1 & R1). rewrite E1, bind_ret.
    assert (qs = []) as -> by (destruct qs; [reflexivity|cbn in Lq; lia]).
    assert (Nq : p ∉ [p2]) by (intros Hx; apply (gr_fresh _ _ _ _ G1 p Hx), Lv; now left).
    rewrite (set_next_eq _ _ _ d), bind_ret by (rewrite (gr_kept _ _ _ _ G1); [exact Ed|apply not_elem_of_nil|assumption]).
    exists p2, [], b2, [p2]. eexists. split_and!; [reflexivity|destruct C1; assumption|apply lookup_insert_eq| | | |auto|reflexivity|apply NoDup_singleton|assumption|exact R1].
    + eapply dn_chain_ext; [|exact C1]. intros x Hx. apply lookup_insert_ne. intros ->. contradiction.
    + cbn in C. subst rest. apply prefix_nil.
    + eapply grown_weaken; [eapply grown_trans; [exact G1|apply grown_put]|apply app_nil_r|]. intros x. cbn. tauto.
  - cbn in En. assert (Hz : p2 <> 0) by (destruct C; assumption). replace (next d =? 0) with false by lia.
    exists p2, ps2, rest, [], st. split_and!; auto using grown_refl; [..|apply (room_le _ _ _ R); lia].
    + now rewrite En.
    + rewrite Ed, <- En. now destruct d.
    + cbn. lia.
Qed.

Lemma write_file_spec p ps bytes buffer off (st : state H) : room (S (length buffer / 512)) (rheap st) -> chain (datanodes st) (p :: ps) bytes -> NoDup (p :: ps) ->
  (forall x, x ∈ p :: ps -> live (rheap st) x) -> is_bytes buffer -> 0 <= off <= RAMFS_DATANODE_SIZE ->
  0 < Z.of_nat (length buffer) < 2 ^ 30 -> Z.of_nat (length ps) < 2 ^ 30 ->
  exists q ps' bytes' st', write_file st p buffer off = Ret (ERR_FS_SUCCESS, q, Z.of_nat (length buffer), st') /\
    written st st' p ps bytes buffer off q ps' bytes'.
Proof.
  intros R C ND Lv B Ho Hb Hn. unfold RAMFS_DATANODE_SIZE in Ho. destruct (chain_head _ _ _ _ C) as (d & rest & Ed & Hp & En & Eb & Cr & _).
  pose proof (dn_bytes_length d) as Ld. unfold write_file.
  destruct (Z.eqb_spec off 512) as [-> |Ne].
  - destruct (link_next _ st p ps d rest R Ed Hp En Cr ND Lv) as (p2 & ps2 & b2 & new & st1 & E1 & Hp2 & Ed1 & C1 & Pre & G1 & In1 & L1 & ND1 & Np1 & R1).
    assert (Es : while grow_step (p, 512, st) = Ret (p2, 0, st1, true)).
    { apply (while_loop _ 2); [|discriminate|lia]. rewrite loop_S. unfold grow_step at 2. change (RAMFS_DATANODE_SIZE <=? 512) with true. cbv iota.
      unfold get_dn. rewrite Ed. cbn [of_option]. rewrite bind_ret. change (512 / RAMFS_DATANODE_SIZE) with 1.
      rewrite E1, bind_ret. replace (p2 =? 0) with false by lia. reflexivity. }
    rewrite Es, bind_ret. cbn [negb]. change (0 <? 0) with false. cbv iota.
    assert (Lv1 : forall x, x ∈ p2 :: ps2 -> live (rheap st1) x).
    { intros x Hx. apply (gr_live _ _ _ _ G1). destruct (In1 x Hx); [left; apply Lv; now right|now right]. }
    destruct (write_datanodes_spec p2 ps2 b2 buffer 0 st1) as (q & ps' & bytes' & st' & E2 & W); auto; try lia.
    exists q, (p2 :: ps'), (dn_bytes (Datanode p2 (data d)) ++ bytes'), st'. rewrite E2. split; [do 3 f_equal; lia|].
    apply (written_cons st st1 st' p ps new p2 ps2 bytes b2 _ buffer [] 512); auto; try (cbn; lia).
    + apply (gr_live _ _ _ _ G1). left. apply Lv. now left.
    + rewrite app_nil_r. subst bytes. rewrite take_app_le, take_ge by lia. reflexivity.
    + subst bytes. rewrite <- Ld, drop_app_length. exact Pre.
    + eapply grown_weaken; [exact G1|reflexivity|]. intros x Hx%list_elem_of_singleton. subst x. left. now left.
  - rewrite (while_loop grow_step 1 _ (Ret (p, off, st, true))) by
      (discriminate || lia || (rewrite loop_S; unfold grow_step; replace (RAMFS_DATANODE_SIZE <=? off) with false by (unfold RAMFS_DATANODE_SIZE; lia); reflexivity)).
    rewrite bind_ret. cbn [negb]. destruct (Z.ltb_spec 0 off) as [Hlt|Hge].
    + unfold RAMFS_DATANODE_SIZE. set (w := if Z.of_nat (length buffer) <=? 512 - off then Z.of_nat (length buffer) else 512 - off).
      assert (Hw : w = Z.min (Z.of_nat (length buffer)) (512 - off)) by (unfold w; case_test; lia). clearbody w.
      rewrite (poke_dn_eq _ _ _ _ _ Ed), bind_ret. set (d1 := Datanode (next d) _). set (st1 := put_dn p d1 st).
      assert (Bw : is_bytes (take (Z.to_nat w) buffer)) by now apply Forall_take.
      assert (Ed1 : dn_bytes d1 = take (Z.to_nat off) (dn_bytes d) ++ take (Z.to_nat w) buffer ++ drop (Z.to_nat off + Z.to_nat w) (dn_bytes d)).
      { unfold d1. rewrite dn_bytes_poke by (auto || (rewrite ?length_take; lia)). rewrite length_take.
        now replace (Z.to_nat w `min` length buffer)%nat with (Z.to_nat w) by lia. }
      assert (C1 : forall bs, chain (datanodes st) ps bs -> chain (datanodes st1) ps bs).
      { intros bs. apply dn_chain_ext. intros x Hx. apply lookup_insert_ne. intros ->. apply NoDup_cons in ND as [Np _]. contradiction. }
      assert (G1 : grown st st1 (p :: ps) []).
      { eapply grown_weaken; [apply grown_put|reflexivity|]. intros x Hx%list_elem_of_singleton. subst x. left. now left. }
      destruct (Z.eqb_spec (Z.of_nat (length buffer) - w) 0) as [Hz|Hz].
      * exists p, ps, (dn_bytes d1 ++ rest), st1. split; [do 3 f_equal; lia|].
        assert (Ew : take (Z.to_nat w) buffer = buffer) by (apply take_ge; lia). rewrite Ew in Ed1.
        split.
        -- apply chain_cons; [assumption|apply lookup_insert_eq|exact En|auto].
        -- rewrite Ed1, (app_assoc (take _ _)), <- (app_assoc (_ ++ _)).
           rewrite take_app_length' by (rewrite length_app, length_take; lia). subst bytes. now rewrite take_app_le by lia.
        -- rewrite length_app, dn_bytes_length. lia.
        -- unfold datanode_index, RAMFS_DATANODE_SIZE. replace (Z.to_nat _) with 0%nat; [reflexivity|]. Z.to_euclidean_division_equations; lia.
        -- intros _. rewrite Ed1, (app_assoc (take _ _)), <- (app_assoc (_ ++ _)).
           rewrite drop_app_length' by (rewrite length_app, length_take; lia).
           subst bytes. rewrite drop_app_le by lia. now replace (Z.to_nat w) with (length buffer) by lia.
        -- unfold replaces_chain. replace (off =? 0) with false by lia. lia.
        -- assumption.
        -- lia.
        -- exists []. auto.
      * assert (w = 512 - off) as -> by lia. unfold get_dn at 1.
        replace (datanodes st1 !! p) with (Some d1) by (symmetry; apply lookup_insert_eq). cbn [of_option]. rewrite bind_ret.
        assert (Lv1 : forall x, x ∈ p :: ps -> live (rheap st1) x) by (intros x Hx; apply Lv, Hx).
        destruct (link_next _ st1 p ps d1 rest R (lookup_insert_eq _ _ _) Hp En (C1 _ Cr) ND Lv1)
          as (p2 & ps2 & b2 & new & st2 & E2 & Hp2 & Ed2 & C2 & Pre & G2 & In2 & L2 & ND2 & Np2 & R2).
        rewrite E2, bind_ret. replace (p2 =? 0) with false by lia.
        assert (Lv2 : forall x, x ∈ p2 :: ps2 -> live (rheap st2) x).
        { intros x Hx. apply (gr_live _ _ _ _ G2). destruct (In2 x Hx); [left; apply Lv1; now right|now right]. }
        destruct (write_datanodes_spec p2 ps2 b2 (drop (Z.to_nat (512 - off)) buffer) (512 - off) st2)
          as (q & ps' & bytes' & st' & E3 & W); auto; try (rewrite ?length_drop; lia); [apply (room_le _ _ _ R2), Nat.Div0.div_le_mono; rewrite length_drop; lia|now apply Forall_drop|].
        exists q, (p2 :: ps'), (dn_bytes (Datanode p2 (data d1)) ++ bytes'), st'. rewrite E3. split; [rewrite length_drop; do 3 f_equal; lia|].
        rewrite <- (take_drop (Z.to_nat (512 - off)) buffer) at 1.
        apply (written_cons st st2 st' p ps new p2 ps2 bytes b2); auto; try (rewrite ?length_take, ?length_drop; lia).
        -- apply (gr_live _ _ _ _ G2). left. apply Lv1. now left.
        -- change (dn_bytes (Datanode p2 (data d1))) with (dn_bytes d1). rewrite Ed1. rewrite (drop_ge (dn_bytes d)) by lia.
           rewrite app_nil_r. subst bytes. now rewrite take_app_le by lia.
        -- subst bytes. rewrite <- Ld, drop_app_length. exact Pre.
        -- eapply grown_weaken; [eapply grown_trans; [exact G1|exact G2]|reflexivity|]. intros x.
           rewrite elem_of_app, list_elem_of_singleton. intros [?| ->]; [auto|left; now left].
    + assert (off = 0) as -> by lia. destruct (write_datanodes_spec p ps bytes buffer 0 st) as (q & ps' & bytes' & st' & E2 & W); auto; try lia; [apply (room_le _ _ _ R); lia|].
      exists q, ps', bytes', st'. rewrite E2. split; [do 3 f_equal; lia|exact W].
Qed.

(** ** Files *)

(** A regular file on the heap. *)
Record file_rep (st : state H) (file : file_description) (ps bytes : list Z) : Prop := {
  fr_at : file_at st file ps bytes;
  fr_nodup : NoDup ps;
  fr_live : forall p, p ∈ ps -> live (rheap st) p;
}.

(** The position and the offset the write starts at. *)
Lemma ramfs_file_write_rep (st : state H) (file : file_description) (ps bytes buffer : list Z) : room (S (length buffer / 512)) (rheap st) ->
  file_rep st file ps bytes -> has_flag (mode file) FILE_OPEN_APPEND = false -> is_bytes buffer -> (0 < length buffer)%nat ->
  Z.of_nat (length ps + length buffer) < 2 ^ 21 ->
  let stop := (Z.to_nat (position file) + length buffer)%nat in
  exists q ps' bytes' st', ramfs_file_write st file buffer = Ret (ERR_FS_SUCCESS, Z.of_nat (length buffer), set_fd_current q file, st') /\
    file_rep st' (set_position (position file + Z.of_nat (length buffer)) (set_fd_current q file)) ps' bytes' /\
    file_rep st' file ps' bytes' /\
    take stop bytes' = take (Z.to_nat (position file)) bytes ++ buffer /\
    (replaces_chain (datanode_offset (position file)) (length buffer) = false -> drop stop bytes `prefix_of` drop stop bytes') /\
    (replaces_chain (datanode_offset (position file)) (length buffer) = true -> (length bytes' <= stop + 512)%nat) /\
    st' = with_datanodes (datanodes st') (with_rheap (rheap st') st).
Proof.
  intros R [[(n & r & En & Hm & Hpi & Er & Eh) C Sm Hp Hc] ND Lv] Ha B Hb Hs stop. unfold ramfs_file_write, get_node. rewrite En. cbn [of_option].
  rewrite bind_ret, Hm, Hpi, Ha. pose proof (chain_length _ _ _ _ C) as Lc. unfold RAMFS_DATANODE_SIZE in Lc.
  rewrite s32_small by lia. destruct (position_split (position file) ltac:(lia)) as (Ho & Es & Hpos).
  set (off := datanode_offset (position file)) in *. destruct (list_elem_of_split_length _ _ _ Hc) as (l1 & psr & -> & Hi).
  rewrite Hi in Es. apply chain_app in C as (b1 & b2 & -> & C1 & C2). cbn [head default] in C1.
  set (cur := fd_current file) in *. pose proof (chain_length _ _ _ _ C1) as L1. unfold RAMFS_DATANODE_SIZE in L1.
  apply NoDup_app in ND as (ND1 & Nx & ND2). rewrite !length_app in *. cbn [length] in *.
  assert (Lv2 : forall x, x ∈ cur :: psr -> live (rheap st) x) by (intros x Hx; apply Lv, elem_of_app; now right).
  destruct (write_file_spec cur psr b2 buffer off st R C2 ND2 Lv2 B Ho ltac:(lia) ltac:(lia))
    as (q & ps' & b' & st' & E1 & [C' Cont Len Last Kept Lost ND' Bound (new & G & In)]).
  rewrite E1, bind_ret. exists q, (l1 ++ cur :: ps'), (b1 ++ b'), st'.
  assert (Nl1 : forall x, x ∈ l1 -> x ∉ cur :: ps').
  { intros x Hx Hx'. specialize (Nx x Hx). rewrite elem_of_cons in *. destruct Hx' as [?|Hx']; [tauto|].
    destruct (In x Hx') as [?|Hn]; [tauto|]. apply (gr_fresh _ _ _ _ G x Hn), Lv, elem_of_app. now left. }
  assert (Bnd : (if off =? 0 then 0%nat else 1%nat) = 0%nat \/ (if off =? 0 then 0%nat else 1%nat) = 1%nat) by (case_test; auto).
  assert (Rep : forall pos c, 0 <= pos <= Z.of_nat (length (b1 ++ b')) -> (l1 ++ cur :: ps') !! datanode_index pos = Some c ->
    file_rep st' (set_position pos (set_fd_current c file)) (l1 ++ cur :: ps') (b1 ++ b')).
  { intros pos c Hpos' Hc'. split; [split|..].
    - exists n, r. rewrite (gr_state _ _ _ _ G). cbn [nodes ramnodes with_datanodes with_rheap fd_node set_position set_fd_current].
      split_and!; auto. rewrite <- Eh. now destruct l1.
    - apply chain_app. exists b1, b'. split_and!; [reflexivity| |exact C']. cbn [head default].
      eapply chain_grown; [exact G| | |exact C1]; intros x Hx; [apply Nx, Hx|apply Lv, elem_of_app; now left].
    - rewrite length_app. cbn [length]. lia.
    - exact Hpos'.
    - exact Hc'.
    - apply NoDup_app. auto.
    - intros x Hx. apply (gr_live _ _ _ _ G). apply elem_of_app in Hx as [Hx|Hx]; [left; apply Lv, elem_of_app; auto|].
      apply elem_of_cons in Hx as [-> |Hx]; [left; apply Lv2; now left|].
      destruct (In x Hx) as [?|?]; [left; apply Lv2; now right|auto]. }
  split_and!.
  - reflexivity.
  - apply Rep; [rewrite length_app; lia|]. rewrite Es, <- Z.add_assoc, datanode_index_add by lia. rewrite Nat2Z.id.
    now rewrite lookup_app_r, Nat.add_sub' by lia.
  - replace file with (set_position (position file) (set_fd_current cur file)) by (now destruct file).
    apply Rep; [rewrite length_app; lia|]. now rewrite list_lookup_middle.
  - unfold stop. replace (Z.to_nat (position file) + length buffer)%nat with (length b1 + (Z.to_nat off + length buffer))%nat by lia.
    replace (Z.to_nat (position file)) with (length b1 + Z.to_nat off)%nat by lia. now rewrite !take_app_add, Cont, app_assoc.
  - unfold stop. intros Hk. replace (Z.to_nat (position file) + length buffer)%nat with (length b1 + (Z.to_nat off + length buffer))%nat by lia.
    rewrite !drop_app_add. auto.
  - unfold stop. intros Hk. specialize (Lost Hk). rewrite length_app. lia.
  - apply (gr_state _ _ _ _ G).
Qed.
End write.
