(* ===== verification/RamfsFiles.v ===== *)
(** * Files through both layers (file_op.c over ramfs.c)

    Reading and writing a regular file of the RAM file system with file_read and
    file_write: the position moves, reads stop at the size, and what is written
    can be read back. *)
From S2P Require Import Prelude Mem Fs Ramfs RamfsPipe RamfsWrite FileOps.

Section files.
Context {H : Type} `{Allocator H}.
Variable ramfs : Z.
Variable others : Z -> option (fs_t (state H)).
#[local] Instance store : NodeStore (state H) := ramfs_store ramfs others.

(** The descriptor is of the regular file [n] of the RAM file system. *)
Record regular (st : state H) (file : file_description) (n : fs_node) : Prop := {
  re_node : nodes st !! fd_node file = Some n;
  re_fs : fs n = ramfs;
  re_file : FS_NODE_IS_FILE n = true;
  re_size : 0 <= size n < 2 ^ 31;
}.

Lemma regular_node st file n : regular st file n -> node_at st (fd_node file) = Ret n.
Proof. intros [E _ _]. cbn. unfold get_node. now rewrite E. Qed.

Lemma regular_fs st file n : regular st file n -> node_fs st (fd_node file) = Ret (ramfs_fs (H := H)).
Proof. intros R. unfold node_fs. rewrite (regular_node _ _ _ R), bind_ret. cbn. now rewrite (re_fs _ _ _ R), Z.eqb_refl. Qed.

Lemma regular_types st file n : regular st file n -> FS_NODE_IS_PIPE n = false /\ FS_NODE_IS_MEMORY n = false.
Proof.
  intros [_ _ E]. unfold FS_NODE_IS_FILE, FS_NODE_IS_PIPE, FS_NODE_IS_MEMORY in *. apply Z.eqb_eq in E. rewrite E.
  split; reflexivity.
Qed.

Lemma file_at_fields (st : state H) file file' ps bytes : file_at st file ps bytes -> fd_node file' = fd_node file ->
  position file' = position file -> fd_current file' = fd_current file -> file_at st file' ps bytes.
Proof. intros [] E1 E2 E3. split; rewrite ?E1, ?E2, ?E3; assumption. Qed.

Lemma file_at_node (st st' : state H) file ps bytes n n' : file_at st file ps bytes -> nodes st !! fd_node file = Some n ->
  nodes st' !! fd_node file = Some n' -> flags n' = flags n -> node_addr n' = node_addr n ->
  ramnodes st' = ramnodes st -> datanodes st' = datanodes st -> file_at st' file ps bytes.
Proof.
  intros [(n0 & r & En & Hm & Hp & Er & Eh) C Sm Po Cu] En1 En' Ef Ea E1 E2. rewrite En1 in En. injection En as <-.
  split; rewrite ?E2; auto. exists n', r. unfold FS_NODE_IS_MEMORY, FS_NODE_IS_PIPE, FS_NODE_GET_TYPE in *.
  rewrite Ef, Ea, E1. auto.
Qed.

(** ** Reading *)

Lemma file_read_regular (st : state H) file n ps bytes count : regular st file n -> file_at st file ps bytes ->
  has_flag (mode file) FILE_OPEN_READ = true -> position file < size n -> 0 < count < 2 ^ 30 ->
  let k := Z.min count (size n - position file) in
  exists file', file_read st file count =
      Ret (if position file + k <=? Z.of_nat (length bytes) then ERR_FS_SUCCESS else ERR_FS_EOF,
           take (Z.to_nat k) (drop (Z.to_nat (position file)) bytes), file', st) /\
    position file' = Z.min (position file + k) (Z.of_nat (length bytes)) /\ file_at st file' ps bytes.
Proof.
  intros R F M Hs Hc k. pose proof (fa_position _ _ _ _ F) as Hp. pose proof (re_size _ _ _ R) as Hn. unfold file_read.
  rewrite M. cbn [negb]. rewrite (regular_node _ _ _ R), bind_ret. destruct (regular_types _ _ _ R) as [-> Em]. cbv iota zeta.
  replace (position file =? size n) with false by lia. unfold fs_read. rewrite (regular_fs _ _ _ R), bind_ret. cbn [dispatch ramfs_fs fs_file_read].
  replace (if size n <? _ then _ else count) with k.
  2:{ unfold k. case_test; [rewrite u32_small by lia|]; lia. }
  destruct (ramfs_file_read_spec st file ps bytes k F ltac:(lia)) as (q & E & F'). rewrite E, bind_ret.
  assert (El : Z.of_nat (length (take (Z.to_nat k) (drop (Z.to_nat (position file)) bytes))) =
    Z.min (position file + k) (Z.of_nat (length bytes)) - position file) by (rewrite length_take, length_drop; lia).
  destruct (position file + k <=? Z.of_nat (length bytes)); cbn [negb andb bool_decide decide decide_rel].
  all: eexists; split; [reflexivity|]; cbn [position set_position set_fd_current]; rewrite El.
  all: split; [lia|]; eapply file_at_fields; [exact F'|reflexivity|cbn; lia|reflexivity].
Qed.

(** ** Writing *)

(** Storing the new size and time keeps the rest. *)
Lemma regular_update (st : state H) file n n' : regular st file n -> flags n' = flags n -> fs n' = fs n -> 0 <= size n' < 2 ^ 31 ->
  regular (put_node (fd_node file) n' st) file n'.
Proof.
  intros [E1 E2 E3 _] Ef Es Hs. split; [apply lookup_insert_eq|congruence| |assumption].
  unfold FS_NODE_IS_FILE, FS_NODE_GET_TYPE in *. now rewrite Ef.
Qed.

(** What file_write leaves: [st'] differs from [st] in the datanodes, the heap they
    are on and the node of the file, whose size now covers the bytes written. *)
Lemma file_write_regular (st : state H) file n ps bytes buffer : room (S (length buffer / 512)) (rheap st) -> regular st file n -> file_rep st file ps bytes ->
  has_flag (mode file) FILE_OPEN_WRITE = true -> has_flag (mode file) FILE_OPEN_APPEND = false -> is_bytes buffer ->
  (0 < length buffer)%nat -> Z.of_nat (length ps + length buffer) < 2 ^ 21 ->
  let stop := (Z.to_nat (position file) + length buffer)%nat in
  exists file' n' ps' bytes' st', file_write st file buffer = Ret (ERR_FS_SUCCESS, Z.of_nat (length buffer), file', st') /\
    position file' = position file + Z.of_nat (length buffer) /\ fd_node file' = fd_node file /\ mode file' = mode file /\
    regular st' file n' /\ size n' = Z.max (size n) (Z.of_nat stop) /\
    file_rep st' file' ps' bytes' /\ file_rep st' file ps' bytes' /\
    take stop bytes' = take (Z.to_nat (position file)) bytes ++ buffer /\
    (replaces_chain (datanode_offset (position file)) (length buffer) = false -> drop stop bytes `prefix_of` drop stop bytes') /\
    (replaces_chain (datanode_offset (position file)) (length buffer) = true -> (length bytes' <= stop + 512)%nat).
Proof.
  intros Rm R F Mw Ma B Hb Hs stop. pose proof (fa_position _ _ _ _ (fr_at _ _ _ _ F)) as Hp.
  pose proof (chain_length _ _ _ _ (fa_chain _ _ _ _ (fr_at _ _ _ _ F))) as Lc. unfold RAMFS_DATANODE_SIZE in Lc.
  unfold file_write. rewrite Mw. cbn [negb].
  rewrite (regular_node _ _ _ R), bind_ret. rewrite (re_file _ _ _ R). cbn [negb andb]. unfold fs_write.
  rewrite (regular_fs _ _ _ R), bind_ret. cbn [dispatch ramfs_fs fs_file_write].
  destruct (ramfs_file_write_rep st file ps bytes buffer Rm F Ma B Hb Hs) as (q & ps' & b' & st1 & E & F1 & F2 & Cont & Kept & Lost & Es).
  rewrite E, bind_ret. change (failed ERR_FS_SUCCESS) with false. cbv iota. cbn [fd_node set_fd_current].
  assert (R1 : regular st1 file n) by (destruct R as [E1 E2 E3]; split; auto; now rewrite Es).
  rewrite (regular_node _ _ _ R1), bind_ret. destruct (regular_types _ _ _ R1) as [-> _]. cbn [mode set_fd_current position set_position fd_node].
  rewrite Ma. cbv zeta. set (n1 := set_size (Z.max (size n) (Z.of_nat stop)) n).
  set (st2 := put_node (fd_node file) (set_modified_timestamp (now st1) n1) st1).
  assert (Eset : forall sz : bool, set_modified (if sz then update_node st1 (fd_node file) (set_size (u32 (position file + Z.of_nat (length buffer))) n) else st1)
    (fd_node file) = Ret (put_node (fd_node file) (set_modified_timestamp (now st1) (if sz then set_size (u32 (position file + Z.of_nat (length buffer))) n else n)) st1)).
  { intros [|]; unfold set_modified.
    - rewrite node_at_update, bind_ret. cbn. unfold put_node. cbn. rewrite insert_insert_eq. reflexivity.
    - rewrite (regular_node _ _ _ R1), bind_ret. reflexivity. }
  rewrite Eset, bind_ret. clear Eset. pose proof (re_size _ _ _ R) as Hn.
  match goal with |- context [set_modified_timestamp _ ?x] => replace x with n1 end.
  2:{ unfold n1, stop. case_test; [rewrite u32_small by lia; f_equal; lia|].
      rewrite Z.max_l by lia. now destruct n. }
  fold st2. assert (R2 : regular st2 file (set_modified_timestamp (now st1) n1)) by (eapply regular_update; [exact R1|reflexivity|reflexivity|cbn; lia]).
  assert (Ffix : forall f, fd_node f = fd_node file -> file_rep st1 f ps' b' -> file_rep st2 f ps' b').
  { intros f Ef [Fa ND Lv]. split; [|exact ND|exact Lv]. eapply file_at_node; [exact Fa|rewrite Ef; apply (re_node _ _ _ R1)|rewrite Ef; apply (re_node _ _ _ R2)|reflexivity..]. }
  eexists _, _, ps', b', _. split; [reflexivity|]. split_and!; [reflexivity|reflexivity|reflexivity|..].
  - exact R2.
  - reflexivity.
  - apply Ffix; [reflexivity|]. destruct F1 as [Fa ND Lv]. split; auto.
  - apply Ffix; [reflexivity|exact F2].
  - exact Cont.
  - exact Kept.
  - exact Lost.
Qed.

(** Reading a regular file of the RAM file system through file_read.  At its
    size the answer is EOF; before it, the bytes at the position come back, as
    many as asked for or as there are up to the size, the position moves behind
    them and the descriptor stays on the file's chain. *)
Theorem file_read_spec (st : state H) (file : file_description) (n : fs_node) (ps bytes : list Z) (count : Z) :
  regular st file n -> file_at st file ps bytes -> has_flag (mode file) FILE_OPEN_READ = true ->
  position file <= size n <= Z.of_nat (length bytes) -> 0 < count < 2 ^ 30 ->
  let k := Z.min count (size n - position file) in
  if position file =? size n then file_read st file count = Ret (ERR_FS_EOF, [], file, st)
  else exists file', file_read st file count =
      Ret (ERR_FS_SUCCESS, take (Z.to_nat k) (drop (Z.to_nat (position file)) bytes), file', st) /\
    position file' = position file + k /\ file_at st file' ps bytes.
Proof.
  intros R F M Hs Hc k. destruct (Z.eqb_spec (position file) (size n)) as [E|E].
  2:{ destruct (file_read_regular st file n ps bytes count R F M ltac:(lia) Hc) as (file' & E1 & Ep & F1). fold k in E1, Ep.
      exists file'. replace (position file + k <=? _) with true in E1 by lia. split_and!; [exact E1|lia|exact F1]. }
  unfold file_read. rewrite M. cbn [negb]. rewrite (regular_node _ _ _ R), bind_ret.
  destruct (regular_types _ _ _ R) as [-> _]. cbv iota. now rewrite E, Z.eqb_refl.
Qed.

(** Writing a regular file of the RAM file system through file_write, with
    memory for the datanodes.  All the bytes are written, behind what was there before the
    position; the position moves behind them and the size grows to it if it was
    smaller.  When the write does not fill a datanode beyond the first boundary,
    the bytes behind it are the old ones. *)
Theorem file_write_spec (st : state H) (file : file_description) (n : fs_node) (ps bytes buffer : list Z) :
  room (S (length buffer / 512)) (rheap st) -> regular st file n -> file_rep st file ps bytes ->
  has_flag (mode file) FILE_OPEN_WRITE = true -> has_flag (mode file) FILE_OPEN_APPEND = false ->
  is_bytes buffer -> (0 < length buffer)%nat -> Z.of_nat (length ps + length buffer) < 2 ^ 21 ->
  let stop := (Z.to_nat (position file) + length buffer)%nat in
  exists file' n' ps' bytes' st', file_write st file buffer = Ret (ERR_FS_SUCCESS, Z.of_nat (length buffer), file', st') /\
    position file' = Z.of_nat stop /\ regular st' file' n' /\ size n' = Z.max (size n) (Z.of_nat stop) /\
    file_rep st' file' ps' bytes' /\ take stop bytes' = take (Z.to_nat (position file)) bytes ++ buffer /\
    (replaces_chain (datanode_offset (position file)) (length buffer) = false -> drop stop bytes `prefix_of` drop stop bytes').
Proof.
  intros Rm R F Mw Ma B Hb Hs stop. pose proof (fa_position _ _ _ _ (fr_at _ _ _ _ F)) as Hp.
  destruct (file_write_regular st file n ps bytes buffer Rm R F Mw Ma B Hb Hs)
    as (file' & n' & ps' & bytes' & st' & E & Ep & Ef & Em & [R1 R2 R3 R4] & Es & F1 & _ & Cont & Kept & _).
  exists file', n', ps', bytes', st'. split_and!; auto; [unfold stop; lia|split; auto; now rewrite Ef].
Qed.

(** C38: what file_write writes to a regular file of the RAM file system is what file_read
    then reads at the same place: with a descriptor open for both and not for appending, at
    a position within the file, when there is memory for the datanodes (one, and one more
    for each 512 bytes written) and the datanodes of the file and the bytes to write are
    together fewer than 2^21, all bytes are written, and reading as many from where the write began gives them back.
    (On FAT32 it is not so: [FatFile.fat32_file_write_crossing].) *)
Theorem file_write_read (st : state H) (file : file_description) (n : fs_node) (ps bytes buffer : list Z) :
  room (S (length buffer / 512)) (rheap st) -> regular st file n -> file_rep st file ps bytes -> position file <= size n ->
  has_flag (mode file) FILE_OPEN_WRITE = true -> has_flag (mode file) FILE_OPEN_READ = true ->
  has_flag (mode file) FILE_OPEN_APPEND = false ->
  is_bytes buffer -> (0 < length buffer)%nat -> Z.of_nat (length ps + length buffer) < 2 ^ 21 ->
  exists file' st' file'', file_write st file buffer = Ret (ERR_FS_SUCCESS, Z.of_nat (length buffer), file', st') /\
    file_read st' file (Z.of_nat (length buffer)) = Ret (ERR_FS_SUCCESS, buffer, file'', st').
Proof.
  intros Rm R F Hsz Mw Mr Ma B Hb Hs. pose proof (fa_position _ _ _ _ (fr_at _ _ _ _ F)) as Hp.
  destruct (file_write_regular st file n ps bytes buffer Rm R F Mw Ma B Hb Hs)
    as (file' & n' & ps' & bytes' & st' & E & Ep & Ef & Em & [R1 R2 R3 R4] & Es & F1 & F2 & Cont & _).
  pose proof (f_equal length Cont) as Lt. rewrite length_take, length_app, length_take in Lt.
  pose proof (chain_length _ _ _ _ (fa_chain _ _ _ _ (fr_at _ _ _ _ F))) as Lc. unfold RAMFS_DATANODE_SIZE in Lc.
  assert (R' : regular st' file n') by (split; auto; now rewrite <- Ef).
  destruct (file_read_regular st' file n' ps' bytes' (Z.of_nat (length buffer)) R' (fr_at _ _ _ _ F2) Mr) as (file'' & E' & _); [lia..|].
  exists file', st', file''. split; [exact E|]. rewrite E'. replace (_ <=? _) with true by lia. do 4 f_equal.
  replace (Z.to_nat (Z.min _ _)) with (length buffer) by lia.
  rewrite firstn_skipn_comm. rewrite Cont.
  apply drop_app_length'. rewrite length_take. lia.
Qed.

(** A write that fills a datanode beyond the first boundary cuts the file off
    behind it: write_file links the new datanodes in place of the rest of the
    chain.  With more than 512 bytes of the file behind the write, the size is as
    it was, and reading on from there to the size meets EOF short of it. *)
Theorem file_write_drops_rest (st : state H) (file : file_description) (n : fs_node) (ps bytes buffer : list Z) :
  room (S (length buffer / 512)) (rheap st) -> regular st file n -> file_rep st file ps bytes ->
  has_flag (mode file) FILE_OPEN_WRITE = true -> has_flag (mode file) FILE_OPEN_READ = true ->
  has_flag (mode file) FILE_OPEN_APPEND = false ->
  is_bytes buffer -> (0 < length buffer)%nat -> Z.of_nat (length ps + length buffer) < 2 ^ 21 ->
  let stop := position file + Z.of_nat (length buffer) in
  replaces_chain (datanode_offset (position file)) (length buffer) = true -> stop + 512 < size n < 2 ^ 30 ->
  exists file' n' st' left file'', file_write st file buffer = Ret (ERR_FS_SUCCESS, Z.of_nat (length buffer), file', st') /\
    regular st' file' n' /\ size n' = size n /\ position file' = stop /\ mode file' = mode file /\
    file_read st' file' (size n - stop) = Ret (ERR_FS_EOF, left, file'', st') /\ Z.of_nat (length left) <= 512.
Proof.
  intros Rm R F Mw Mr Ma B Hb Hs stop Hr Hsz. pose proof (fa_position _ _ _ _ (fr_at _ _ _ _ F)) as Hp.
  destruct (file_write_regular st file n ps bytes buffer Rm R F Mw Ma B Hb Hs)
    as (file' & n' & ps' & bytes' & st' & E & Ep & Ef & Em & [R1 R2 R3 R4] & Es & F1 & _ & _ & _ & Lost). specialize (Lost Hr).
  assert (R' : regular st' file' n') by (split; auto; now rewrite Ef).
  destruct (file_read_regular st' file' n' ps' bytes' (size n - stop) R' (fr_at _ _ _ _ F1)) as (file'' & E' & _);
    [now rewrite Em|lia..|].
  eexists file', n', st', _, file''. split_and!; [exact E|exact R'|lia|exact Ep|exact Em| |].
  - rewrite E'. replace (_ <=? _) with false by lia. reflexivity.
  - rewrite length_take, length_drop. lia.
Qed.
End files.

(** ** Runs *)

Module Runs.
Import Bump Ramfs.Runs.

Definition no_others : Z -> option (fs_t (state bump)) := fun _ => None.
#[local] Instance bump_store : NodeStore (state bump) := ramfs_store 0 no_others.

(** The file of 600 bytes, its descriptor open for both at position 510. *)
Definition node0 : fs_node := FsNode [102] 0 0 0 0 FS_NODE_TYPE_FILE 0 0 0 0 0 600 1 0 3 0 0.
Definition file1 : file_description := FileDescription 100 3 510 1 0.

Lemma regular0 : regular 0 st0 file1 node0.
Proof. split; by_eval. Qed.

Lemma file_rep0 : file_rep st0 file1 [1; 2] bytes0.
Proof.
  split; [eapply file_at_fields; [exact file_at0|reflexivity..]|by_eval|].
  intros p Hp. apply elem_of_cons in Hp as [-> |Hp%list_elem_of_singleton]; [|subst p]; split; by_eval.
Qed.

Lemma file_read_witness : regular 0 st0 file1 node0 /\ exists file', file_read st0 file1 1000 =
  Ret (ERR_FS_SUCCESS, take 90 (drop 510 bytes0), file', st0) /\ position file' = 600 /\ file_at st0 file' [1; 2] bytes0.
Proof.
  split; [exact regular0|].
  exact (file_read_spec 0 no_others st0 file1 node0 [1; 2] bytes0 1000 regular0 (fr_at _ _ _ _ file_rep0) eq_refl
    ltac:(by_eval) ltac:(by_eval)).
Defined.

(** A hundred bytes across the boundary. *)
Lemma file_write_witness : file_rep st0 file1 [1; 2] bytes0 /\ exists file' st' bytes',
  file_write st0 file1 (replicate 100 65) = Ret (ERR_FS_SUCCESS, 100, file', st') /\
  take 610 bytes' = take 510 bytes0 ++ replicate 100 65 /\ drop 610 bytes0 `prefix_of` drop 610 bytes'.
Proof.
  split; [exact file_rep0|].
  destruct (file_write_spec 0 no_others st0 file1 node0 [1; 2] bytes0 (replicate 100 65) (RamfsPipe.Runs.bump_room _ _) regular0 file_rep0 eq_refl eq_refl
    ltac:(by_eval) ltac:(by_eval) ltac:(by_eval)) as (file' & n' & ps' & bytes' & st' & E & _ & _ & _ & _ & Cont & Kept).
  exists file', st', bytes'. split_and!; [exact E|exact Cont|exact (Kept ltac:(by_eval))].
Defined.

Lemma file_write_read_witness : exists file' st' file'',
  file_write st0 file1 (replicate 700 66) = Ret (ERR_FS_SUCCESS, 700, file', st') /\
  file_read st' file1 700 = Ret (ERR_FS_SUCCESS, replicate 700 66, file'', st').
Proof.
  exact (file_write_read 0 no_others st0 file1 node0 [1; 2] bytes0 (replicate 700 66) (RamfsPipe.Runs.bump_room _ _) regular0 file_rep0
    ltac:(by_eval) eq_refl eq_refl eq_refl ltac:(by_eval) ltac:(by_eval) ltac:(by_eval)).
Defined.

(** A file of 1500 zeros in three datanodes; 512 bytes are written over its
    beginning. *)
Definition st3 : state bump :=
  State {| next_block := 10; used := {[1; 2; 3; 4]} |} {| next_block := 10; used := {[9]} |}
    {[ 1 := Datanode 2 ∅; 2 := Datanode 4 ∅; 4 := Datanode 0 ∅ ]}
    {[ 3 := RamfsNode [102] 1500 0 0 0 0 FS_NODE_TYPE_FILE 9 1 0 0 0 0 0 ]}
    {[ 100 := FsNode [102] 0 0 0 0 FS_NODE_TYPE_FILE 0 0 0 0 0 1500 1 0 3 0 0 ]}
    {[ 9 := 1 ]} ∅ 0 0.
Definition node3 : fs_node := FsNode [102] 0 0 0 0 FS_NODE_TYPE_FILE 0 0 0 0 0 1500 1 0 3 0 0.
Definition file3 : file_description := FileDescription 100 3 0 1 0.
Definition bytes3 : list Z := dn_bytes (Datanode 0 ∅) ++ dn_bytes (Datanode 0 ∅) ++ dn_bytes (Datanode 0 ∅) ++ [].

Lemma file_rep3 : file_rep st3 file3 [1; 2; 4] bytes3.
Proof.
  split; [split|by_eval|].
  - do 2 eexists. split_and!; [vm_compute; reflexivity..].
  - unfold bytes3. split; [discriminate|]. do 2 eexists. split_and!; [reflexivity|reflexivity|reflexivity|].
    split; [discriminate|]. do 2 eexists. split_and!; [reflexivity|reflexivity|reflexivity|].
    split; [discriminate|]. do 2 eexists. split_and!; reflexivity.
  - reflexivity.
  - vm_compute. split; discriminate.
  - reflexivity.
  - intros p Hp. apply elem_of_cons in Hp as [-> |Hp]; [|apply elem_of_cons in Hp as [-> |Hp%list_elem_of_singleton]; [|subst p]]; split; by_eval.
Qed.

Lemma file_write_drops_rest_witness : file_rep st3 file3 [1; 2; 4] bytes3 /\ exists file' st' left file'',
  file_write st3 file3 (replicate 512 65) = Ret (ERR_FS_SUCCESS, 512, file', st') /\
  file_read st' file' 988 = Ret (ERR_FS_EOF, left, file'', st') /\ Z.of_nat (length left) <= 512.
Proof.
  split; [exact file_rep3|].
  destruct (file_write_drops_rest 0 no_others st3 file3 node3 [1; 2; 4] bytes3 (replicate 512 65) (RamfsPipe.Runs.bump_room _ _) ltac:(split; by_eval)
    file_rep3 eq_refl eq_refl eq_refl ltac:(by_eval) ltac:(by_eval) ltac:(by_eval) ltac:(by_eval) ltac:(by_eval))
    as (file' & n' & st' & left & file'' & E & _ & _ & _ & _ & E' & L).
  exists file', st', left, file''. split_and!; [exact E|exact E'|exact L].
Defined.
End Runs.
