(* ===== verification/Validate.v ===== *)
(** * Checking user pointers (kernel/src/kutils.c)

    A system call may be handed any address.  These are the checks the kernel
    makes before it follows one, with what exactly they accept. *)
From S2P Require Import Prelude Mem.

(** From the build configuration (example.env). *)
Definition KERNEL_START : Z := 3221225472.

Section validate.
Variable is_user : bool.

(** Reading a byte where the pages of the running process are mapped.  Elsewhere
    the processor faults, and page_fault_handler ends in kernel_panic for every
    address below the kernel ([Interrupts.page_fault_handler]). *)
Definition user_load (mapped : Z -> bool) (m : mem) (a : Z) : outcome Z := if mapped a then Ret (load8 m a) else Fault.

Definition validate_user_buffer (buf size : Z) : bool :=
  if negb is_user then true
  else
    let end_ := u32 (buf + size) in
    if end_ <? buf then false
    else if KERNEL_START <? end_ then false
    else true.

(** How the two checks below read a byte of the string. *)
Variable load : Z -> outcome Z.

Definition string_step (p : Z) : outcome (Z + bool) :=
  if p <? KERNEL_START then c ← load p; Ret (if c =? 0 then inr true else inl (p + 1)) else Ret (inr false).

Definition validate_user_string (str : Z) : outcome bool :=
  if negb is_user then Ret true
  else if KERNEL_START <=? str then Ret false
  else while string_step str.

Definition double_null_step (str max_len i : Z) : outcome (Z + bool) :=
  if i <? max_len then
    if negb (validate_user_buffer (u32 (str + i)) 1) then Ret (inr false)
    else if 0 <? i then
      c ← load (u32 (str + i));
      if c =? 0 then
        p ← load (u32 (str + (i - 1)));
        Ret (if p =? 0 then inr true else inl (i + 1))
      else Ret (inl (i + 1))
    else Ret (inl (i + 1))
  else Ret (inr true).

Definition validate_user_double_null (str max_len : Z) : outcome bool :=
  if str =? 0 then Ret true else while (double_null_step str max_len) 0.
End validate.

(** ** What they accept *)

(** A buffer of a user process is accepted exactly when it ends at or below
    the kernel, wrapping around the address space not being a way past it. *)
Theorem validate_user_buffer_spec (buf size : Z) : 0 <= buf < 2 ^ 32 -> 0 <= size < 2 ^ 32 ->
  validate_user_buffer true buf size = true <-> buf + size <= KERNEL_START.
Proof.
  intros Hb Hs. unfold validate_user_buffer, KERNEL_START, u32. cbn [negb].
  destruct (Z_lt_ge_dec (buf + size) (2 ^ 32)).
  - rewrite Z.mod_small by lia. replace (buf + size <? buf) with false by lia. case_test; split; lia || congruence.
  - replace ((buf + size) mod 2 ^ 32) with (buf + size - 2 ^ 32) by (Z.to_euclidean_division_equations; lia).
    replace (_ <? buf) with true by lia. split; lia || congruence.
Qed.

Section strings.
Variable mapped : Z -> bool.
Variable m : mem.

(** From [str] up to [q] there are characters, in mapped pages. *)
Definition characters (str q : Z) : Prop := forall p, str <= p < q -> mapped p = true /\ load8 m p <> 0.

(** How the check of a string below the kernel ends. *)
Inductive checked (str : Z) : outcome bool -> Prop :=
  | checked_end q : str <= q < KERNEL_START -> characters str q -> mapped q = true -> load8 m q = 0 -> checked str (Ret true)
  | checked_long : characters str KERNEL_START -> checked str (Ret false)
  | checked_fault q : str <= q < KERNEL_START -> characters str q -> mapped q = false -> checked str Fault.

Lemma characters_cons str q : mapped str = true -> load8 m str <> 0 -> characters (str + 1) q -> characters str q.
Proof. intros Hm Hc C p Hp. destruct (Z.eq_dec p str) as [->|]; [now split|]. apply C. lia. Qed.

(** The three ends exclude each other. *)
Lemma checked_unique str o o' : checked str o -> checked str o' -> o = o'.
Proof.
  assert (N : forall q q', str <= q < KERNEL_START -> characters str q' -> q < q' -> mapped q = true /\ load8 m q <> 0).
  { intros q q' Hq C L. apply C. lia. }
  intros [q Hq C M Z|C|q Hq C M] [q' Hq' C' M' Z'|C'|q' Hq' C' M']; try reflexivity; exfalso.
  - destruct (N q KERNEL_START Hq C'); [lia|congruence].
  - destruct (Z.lt_trichotomy q q') as [L|[->|L]]; [destruct (N q q' Hq C' L)| |destruct (N q' q Hq' C L)]; congruence.
  - destruct (N q' KERNEL_START Hq' C); [lia|congruence].
  - destruct (N q' KERNEL_START Hq' C); [lia|congruence].
  - destruct (Z.lt_trichotomy q q') as [L|[->|L]]; [destruct (N q q' Hq C' L)| |destruct (N q' q Hq' C L)]; congruence.
  - destruct (N q KERNEL_START Hq C'); [lia|congruence].
Qed.

Lemma string_loop n p : p <= KERNEL_START -> KERNEL_START - p <= Z.of_nat n ->
  exists o, loop (string_step (user_load mapped m)) (S n) p = o /\ checked p o.
Proof.
  revert p. induction n as [|n IH]; intros p Hp Hn; rewrite loop_S; unfold string_step at 2;
    destruct (Z.ltb_spec p KERNEL_START) as [Hl|Hl].
  1: lia.
  1,3: exists (Ret false); rewrite bind_ret; split; [reflexivity|]; constructor; intros q Hq; lia.
  assert (Rd : user_load mapped m p = if mapped p then Ret (load8 m p) else Fault) by reflexivity. rewrite Rd. destruct (mapped p) eqn:M; cycle 1.
  { exists Fault. split; [reflexivity|]. apply (checked_fault p p); [lia| |exact M]. intros q Hq. lia. }
  rewrite !bind_ret. destruct (Z.eqb_spec (load8 m p) 0) as [E|E].
  { exists (Ret true). split; [reflexivity|]. apply (checked_end p p); auto; [lia|]. intros q Hq. lia. }
  destruct (IH (p + 1) ltac:(lia) ltac:(lia)) as (o & E1 & C). exists o. split; [exact E1|].
  destruct C as [q Hq C Mq Z|C|q Hq C Mq].
  - apply (checked_end p q); auto using characters_cons; lia.
  - constructor. now apply characters_cons.
  - apply (checked_fault p q); auto using characters_cons; lia.
Qed.

Lemma validate_checked (str : Z) : 0 <= str < KERNEL_START ->
  checked str (validate_user_string true (user_load mapped m) str).
Proof.
  intros Hs. unfold validate_user_string. cbn [negb]. replace (KERNEL_START <=? str) with false by lia.
  destruct (string_loop (Z.to_nat (KERNEL_START - str)) str ltac:(lia) ltac:(lia)) as (o & E & C).
  replace (while (string_step (user_load mapped m)) str) with o; [exact C|]. symmetry. eapply while_loop; [exact E| |unfold KERNEL_START in *; lia].
  now destruct C.
Qed.

(** C40: validate_user_string on the memory of a user process always comes to an end.  It
    accepts a string exactly when it ends below the kernel and lies in mapped pages up to
    its end; it rejects it exactly when it starts in the kernel or goes on up to it in
    mapped pages; and it takes a page fault, which the kernel does not survive, exactly when
    it meets an unmapped page first.  A kernel process's string is accepted unread. *)
Theorem validate_user_string_spec (is_user : bool) (str : Z) : 0 <= str ->
  let result := validate_user_string is_user (user_load mapped m) str in
  (result = Ret true <-> is_user = false \/ exists q, str <= q < KERNEL_START /\ characters str q /\ mapped q = true /\ load8 m q = 0) /\
  (result = Ret false <-> is_user = true /\ (KERNEL_START <= str \/ characters str KERNEL_START)) /\
  (result = Fault <-> is_user = true /\ exists q, str <= q < KERNEL_START /\ characters str q /\ mapped q = false) /\
  (result = Ret true \/ result = Ret false \/ result = Fault).
Proof.
  intros Hs. cbv zeta. destruct is_user; cycle 1.
  { unfold validate_user_string. cbn [negb]. split_and!; try (split; [|intros [? _]]; congruence); [split; auto|now left]. }
  destruct (Z.ltb_spec str KERNEL_START) as [L|L]; cycle 1.
  { unfold validate_user_string. cbn [negb]. replace (KERNEL_START <=? str) with true by lia.
    split_and!; [split; [discriminate|intros [|(q & Hq & _)]; [discriminate|lia]]|split; auto|split; [discriminate|intros (_ & q & Hq & _); lia]|auto]. }
  pose proof (validate_checked str ltac:(lia)) as C. set (result := validate_user_string _ _ _) in *. clearbody result.
  assert (U : forall o, checked str o <-> result = o) by (intros o; split; [intros C'; exact (checked_unique str _ _ C C')|now intros <-]).
  split_and!; [rewrite <- U|rewrite <- U|rewrite <- U|destruct C; auto].
  - split; [intros C'; inversion C' as [q| |]; subst; right; now exists q|intros [|(q & ? & ? & ? & ?)]; [discriminate|]]. now apply (checked_end str q).
  - split; [intros C'; inversion C'; subst; auto|intros [_ [|]]; [lia|now constructor]].
  - split; [intros C'; inversion C' as [| |q]; subst; split; [reflexivity|now exists q]|intros (_ & q & ? & ? & ?)]. now apply (checked_fault str q).
Qed.
End strings.

Lemma validate_user_buffer_witness : validate_user_buffer true 3221221376 4096 = true /\ validate_user_buffer true 4294963200 8192 = false.
Proof.
  split.
  - apply (validate_user_buffer_spec 3221221376 4096); [lia|lia|]. by_eval.
  - apply not_true_is_false. rewrite (validate_user_buffer_spec 4294963200 8192) by lia. by_eval.
Defined.

(** A page with the string A; a string that runs out of it. *)
Definition one_page (a : Z) : bool := a / 4096 =? 0.

Lemma validate_user_string_witness : validate_user_string true (user_load one_page (store8 ∅ 100 65)) 100 = Ret true /\
  validate_user_string true (user_load one_page (store8 ∅ 4095 65)) 4095 = Fault.
Proof.
  split.
  - apply (validate_user_string_spec one_page (store8 ∅ 100 65) true 100); [lia|]. right. exists 101.
    split_and!; [by_eval|by_eval| |reflexivity|reflexivity]. intros p Hp. assert (p = 100) as -> by lia. by_eval.
  - apply (validate_user_string_spec one_page (store8 ∅ 4095 65) true 4095); [lia|]. split; [reflexivity|]. exists 4096.
    split_and!; [by_eval|by_eval| |reflexivity]. intros p Hp. assert (p = 4095) as -> by lia. by_eval.
Defined.
