(* ===== verification/Vfs.v ===== *)
(** * The virtual file system (kernel/src/filesystem/vfs_op.c, vfs.c)

    The tree of the nodes in use, the walk of a path through it, and the system
    calls on descriptors.  The state is the RAM file system's; the other file
    systems, the address of the RAM file system and of its root node, and what
    fresh kernel memory holds are parameters.  A file's lock is a count here, and
    waiting for it is [Spin]; who waits is in Sem.v. *)
From S2P Require Import Prelude Mem CString Fs Ramfs FileOps Validate.

Definition MAX_FILE : Z := 128.
Definition MAX_ALLOCATION : Z := 512.
Definition sizeof_fs_node : Z := 348.

(** The part of [process_t] the descriptors use. *)
Record proc_files := ProcFiles {
  is_user : bool;
  cwd : Z;
  file_count : Z;
  file_descriptor_table : list file_description;
}.

Definition set_fde (fd : Z) (f : file_description) (count : Z) (p : proc_files) : proc_files :=
  ProcFiles (is_user p) (cwd p) count (<[Z.to_nat fd := f]> (file_descriptor_table p)).

Section vfs.
Context {H : Type} `{Allocator H}.
Variable ramfs : Z.
Variable ramfs_root : Z.
Variable others : Z -> option (fs_t (state H)).
Variable dirty : Z -> fs_node.
(** Which addresses are mapped for the process that calls. *)
Variable mapped : Z -> bool.
#[local] Instance store : NodeStore (state H) := ramfs_store ramfs others.

Definition kmalloc (st : state H) (n : Z) : Z * state H := let '(p, h) := alloc (kheap st) n in (p, with_kheap h st).

(** kmalloc(sizeof(fs_node_t)) *)
Definition malloc_node (st : state H) : Z * state H :=
  let '(p, st) := kmalloc st sizeof_fs_node in (p, if p =? 0 then st else put_node p (dirty p) st).
Definition free_node (st : state H) (p : Z) : state H := with_nodes (delete p (nodes st)) (kfree st p).

(** [p->field = v] of a node. *)
Definition edit_node (st : state H) (p : Z) (f : fs_node -> fs_node) : outcome (state H) :=
  n ← get_node st p; Ret (put_node p (f n) st).

(** ** The tree *)

(** Along the siblings from [current], the one before [node], 0 when there is none. *)
Definition before_step (st : state H) (node current : Z) : outcome (Z + Z) :=
  if current =? 0 then Ret (inr 0)
  else n ← get_node st current; Ret (if next_sibling n =? node then inr current else inl (next_sibling n)).

Definition unlink_and_free_node (st : state H) (node : Z) : outcome (state H) :=
  n ← get_node st node;
  let parent := parent n in
  st ← (if parent =? 0 then Ret st
    else
      p ← get_node st parent;
      if children p =? node then edit_node st parent (set_children (next_sibling n))
      else
        current ← while (before_step st node) (children p);
        if current =? 0 then Ret st else edit_node st current (set_next_sibling (next_sibling n)));
  let st := if FS_NODE_IS_SEMAPHORE n && negb (node_sem n =? 0) then kfree st (node_sem n) else st in
  Ret (free_node st node).

Definition last_sibling_step (st : state H) (current : Z) : outcome (Z + Z) :=
  n ← get_node st current; Ret (if next_sibling n =? 0 then inr current else inl (next_sibling n)).

(** Add a node behind the children of [parent]. *)
Definition link_node (st : state H) (parent new_node : Z) : outcome (state H) :=
  p ← get_node st parent;
  if children p =? 0 then edit_node st parent (set_children new_node)
  else
    current_sibling ← while (last_sibling_step st) (children p);
    edit_node st current_sibling (set_next_sibling new_node).

Definition cleanup_step '(target, st) : outcome ((Z * state H) + state H) :=
  if target =? 0 then Ret (inr st)
  else
    n ← get_node st target;
    if (0 <? refcount n) || negb (children n =? 0) then Ret (inr st)
    else
      parent_became_empty ← (if parent n =? 0 then Ret false
        else p ← get_node st (parent n); Ret ((children p =? target) && (next_sibling n =? 0)));
      st ← unlink_and_free_node st target;
      Ret (if parent_became_empty : bool then inl (parent n, st) else inr st).

Definition vfs_cleanup_node_tree (st : state H) (start_node : Z) : outcome (state H) := while cleanup_step (start_node, st).

Definition dot : list Z := [46].
Definition dotdot : list Z := [46; 46].

Definition vfs_remove_node (st : state H) (parent node : Z) : outcome (FS_ERR * state H) :=
  p ← get_node st parent;
  n ← get_node st node;
  if negb (FS_NODE_IS_DIRECTORY p) then Ret (ERR_FS_NOT_DIR, st)
  else if bool_decide (name n = dot) || bool_decide (name n = dotdot) then Ret (ERR_FS_FAILED, st)
  else
    f ← node_fs st parent;
    match fs_remove_entry f with
    | None => Ret (ERR_FS_NOT_SUPPORTED, st)
    | Some op =>
        '(err, st) ← op st parent node true;
        if failed err then Ret (err, st)
        else st ← unlink_and_free_node st node; Ret (ERR_FS_SUCCESS, st)
    end.

(** ** The walk of a path *)

(** strtok_r(..., "/", &token): the next name and what [token] points to. *)
Definition next_token (token : list Z) : option (list Z * list Z) :=
  match skip [47] token with
  | [] => None
  | l => Some (word [47] l, drop (S (length (word [47] l))) l)
  end.

Definition find_child_step (st : state H) (current_name : list Z) (current : Z) : outcome (Z + Z) :=
  if current =? 0 then Ret (inr 0)
  else n ← get_node st current; Ret (if bool_decide (name n = current_name) then inr current else inl (next_sibling n)).

(** How the walk ends: at a node, at a name to be created in a directory, or in an
    error, after which the nodes found on the way are dropped or not. *)
Inductive walked :=
  | Reached (current_node : Z)
  | Missing (parent_node : Z) (current_name : list Z)
  | Failed (err : FS_ERR) (nuke : bool).

(** Into a mount. *)
Definition cross_mount (st : state H) (node : Z) : outcome Z :=
  n ← get_node st node; Ret (if FS_NODE_IS_MOUNTPOINT n && negb (mount_target n =? 0) then mount_target n else node).

(** A name that is not among the children in the tree is looked up on the disk. *)
Definition discover (do_create_node fail_if_existed is_last_token : bool) (st : state H) (parent_node : Z)
    (current_name : list Z) (search_stack : list Z) : outcome (walked * list Z * state H) :=
  if MAX_ALLOCATION <=? Z.of_nat (length search_stack) then Ret (Failed ERR_FS_MAX_DEPTH_REACHED false, search_stack, st)
  else
    let '(new_node, st) := malloc_node st in
    if new_node =? 0 then Ret (Failed ERR_FS_NOT_ENOUGH_SPACE true, search_stack, st)
    else
      let search_stack := search_stack ++ [new_node] in
      '(err, n) ← node_find (put_node new_node (set_parent 0 (dirty new_node)) st) parent_node current_name
        (set_parent 0 (dirty new_node));
      let st := put_node new_node n st in
      if failed err then
        Ret (if bool_decide (err = ERR_FS_NOT_FOUND) && is_last_token then
               if do_create_node then Missing parent_node current_name else Failed ERR_FS_TARGET_NOT_FOUND true
             else Failed err true, search_stack, st)
      else if fail_if_existed && is_last_token then Ret (Failed ERR_FS_ENTRY_EXISTED true, search_stack, st)
      else st ← link_node st parent_node new_node; Ret (Reached new_node, search_stack, st).

Definition walk_step (do_create_node fail_if_existed : bool) '(current_node, token, search_stack, st) :
  outcome ((Z * list Z * list Z * state H) + (walked * list Z * state H)) :=
  match next_token token with
  | None => Ret (inr (Reached current_node, search_stack, st))
  | Some (current_name, token) =>
      n ← get_node st current_node;
      if bool_decide (current_name = dot) then
        current_node ← cross_mount st current_node; Ret (inl (current_node, token, search_stack, st))
      else if bool_decide (current_name = dotdot) then
        current_node ← cross_mount st (if parent n =? 0 then current_node else parent n);
        Ret (inl (current_node, token, search_stack, st))
      else
        child ← while (find_child_step st current_name) (children n);
        '(w, search_stack, st) ← (if child =? 0
          then discover do_create_node fail_if_existed (bool_decide (token = [])) st current_node current_name search_stack
          else Ret (Reached child, search_stack, st));
        match w with
        | Reached child => current_node ← cross_mount st child; Ret (inl (current_node, token, search_stack, st))
        | w => Ret (inr (w, search_stack, st))
        end
  end.

(** nuke_search_stack_and_ret *)
Definition nuke_step (st : state H) (node current : Z) : outcome (Z + Z) :=
  n ← get_node st current;
  Ret (if (next_sibling n =? 0) || (next_sibling n =? node) then inr current else inl (next_sibling n)).

Definition nuke_search_stack (st : state H) (search_stack : list Z) : outcome (state H) :=
  match search_stack with
  | [] => Ret st
  | first :: _ =>
      n ← get_node st first;
      st ← (if parent n =? 0 then Ret st
        else
          p ← get_node st (parent n);
          if children p =? first then edit_node st (parent n) (set_children (next_sibling n))
          else if children p =? 0 then Ret st
          else
            current_sibling ← while (nuke_step st first) (children p);
            c ← get_node st current_sibling;
            if next_sibling c =? first then edit_node st current_sibling (set_next_sibling (next_sibling n)) else Ret st);
      Ret (foldl free_node st search_stack)
  end.

Definition create_step (st : state H) (parent_node : Z) (current_name : list Z) (create_flags : Z) : outcome (FS_ERR * Z * state H) :=
  let '(new_node, st) := malloc_node st in
  if new_node =? 0 then Ret (ERR_FS_NOT_ENOUGH_SPACE, 0, st)
  else
    let type := Z.land create_flags FS_NODE_TYPE_MASK in
    f ← node_fs st parent_node;
    '(err, st) ← (if negb (type =? FS_NODE_TYPE_FILE) && negb (type =? FS_NODE_TYPE_DIRECTORY) then
        if negb (FileOps.type f =? FS_RAMFS) then Ret (ERR_FS_NOT_SUPPORTED, st)
        else
          n ← get_node st new_node;
          '(err, n, st) ← ramfs_create_special_node st parent_node current_name type n;
          Ret (err, put_node new_node n st)
      else if type =? FS_NODE_TYPE_DIRECTORY then node_mkdir st parent_node current_name create_flags new_node
      else node_create st parent_node current_name create_flags new_node);
    if failed err then Ret (err, 0, free_node st new_node)
    else
      st ← link_node st parent_node new_node;
      st ← edit_node st new_node (set_next_sibling 0);
      Ret (ERR_FS_SUCCESS, new_node, st).

(** The walk, the creation and the last check; the second result is the node. *)
Definition find_and_create (st : state H) (path : list Z) (cwd mode create_flags : Z) : outcome (FS_ERR * Z * state H) :=
  let do_create_node := has_flag mode FILE_OPEN_CREATE && negb (has_flag mode FILE_OPEN_ONLYDIR) in
  let fail_if_existed := has_flag mode FILE_OPEN_EXCLUSIVE in
  let start := match path with 47 :: path => (ramfs_root, path) | _ => (cwd, path) end in
  '(w, search_stack, st) ← while (walk_step do_create_node fail_if_existed) (start.1, start.2, [], st);
  '(err, node, st) ← match w with
    | Reached node => Ret (ERR_FS_SUCCESS, node, st)
    | Missing parent_node current_name => create_step st parent_node current_name create_flags
    | Failed err _ => Ret (err, 0, st)
    end;
  let keep := match w with Failed _ false => true | _ => false end in
  if failed err then
    st ← (if keep : bool then Ret st else nuke_search_stack st search_stack); Ret (err, 0, st)
  else
    n ← get_node st node;
    if has_flag mode FILE_OPEN_ONLYDIR && negb (FS_NODE_IS_DIRECTORY n) then
      st ← nuke_search_stack st search_stack; Ret (ERR_FS_NOT_DIR, 0, st)
    else Ret (ERR_FS_SUCCESS, node, st).

Definition vfs_find_and_create_node (st : state H) (path : list Z) (cwd mode create_flags : Z) : outcome (FS_ERR * Z * state H) :=
  _ ← get_node st cwd;
  let '(pathcpy, st) := kmalloc st (Z.of_nat (length path) + 1) in
  if pathcpy =? 0 then Ret (ERR_FS_NOT_ENOUGH_SPACE, 0, st)
  else
    let '(search_stack, st) := kmalloc st (4 * MAX_ALLOCATION) in
    '(err, node, st) ← (if search_stack =? 0 then Ret (ERR_FS_NOT_ENOUGH_SPACE, 0, st)
      else find_and_create st path cwd mode create_flags);
    Ret (err, node, kfree (kfree st search_stack) pathcpy).

(** ** The system calls *)

(** A string in memory. *)
Definition string_at_step (m : mem) '(p, l) : outcome ((Z * list Z) + list Z) :=
  Ret (if load8 m p =? 0 then inr (rev l) else inl (p + 1, load8 m p :: l)).
Definition string_at (m : mem) (p : Z) : outcome (list Z) := while (string_at_step m) (p, []).

(** The index of the first free descriptor. *)
Definition free_descriptor (proc : proc_files) : option nat :=
  fst <$> list_find (fun f => fd_node f = 0) (take (Z.to_nat MAX_FILE) (file_descriptor_table proc)).

(** The result is the descriptor or -1. *)
Definition vfs_open (st : state H) (proc : proc_files) (path mode : Z) : outcome (Z * proc_files * state H) :=
  ok ← validate_user_string (is_user proc) (user_load mapped (memory st)) path;
  if negb ok then Ret (-1, proc, st)
  else if MAX_FILE <=? file_count proc then Ret (-1, proc, st)
  else if cwd proc =? 0 then Ret (-1, proc, st)
  else
    path ← string_at (memory st) path;
    '(err, node, st) ← vfs_find_and_create_node st path (cwd proc) mode 0;
    if failed err then Ret (-1, proc, st)
    else
      match free_descriptor proc with
      | None => st ← vfs_cleanup_node_tree st node; Ret (-1, proc, st)
      | Some fd =>
          fde ← of_option (file_descriptor_table proc !! fd);
          '(err, fde, st) ← file_open st fde node mode;
          if failed err then
            st ← vfs_cleanup_node_tree st node;
            Ret (-1, set_fde (Z.of_nat fd) (set_fd_node 0 fde) (file_count proc) proc, st)
          else
            st ← edit_node st node (fun n => set_refcount (s32 (refcount n + 1)) n);
            Ret (Z.of_nat fd, set_fde (Z.of_nat fd) fde (file_count proc + 1) proc, st)
      end.

(** The open descriptor [fd], if it is one. *)
Definition open_fde (proc : proc_files) (fd : Z) : outcome (option file_description) :=
  if (fd <? 0) || (MAX_FILE <=? fd) then Ret None
  else
    fde ← of_option (file_descriptor_table proc !! Z.to_nat fd);
    Ret (if fd_node fde =? 0 then None else Some fde).

Definition lock_node (st : state H) (node : Z) : outcome (state H) :=
  n ← get_node st node;
  if 1 <=? lock n then Ret (put_node node (set_lock (lock n - 1) n) st) else Spin.

(** The first result is what is left in eax. *)
Definition vfs_lock (st : state H) (proc : proc_files) (fd : Z) : outcome (Z * state H) :=
  f ← open_fde proc fd;
  match f with
  | None => Ret (-1, st)
  | Some fde => st ← lock_node st (fd_node fde); Ret (0, st)
  end.

Definition vfs_unlock (st : state H) (proc : proc_files) (fd : Z) : outcome (state H) :=
  f ← open_fde proc fd;
  match f with
  | None => Ret st
  | Some fde => edit_node st (fd_node fde) (fun n => set_lock (u32 (lock n + 1)) n)
  end.

Definition vfs_close (st : state H) (proc : proc_files) (fd : Z) : outcome (proc_files * state H) :=
  f ← open_fde proc fd;
  match f with
  | None => Ret (proc, st)
  | Some fde =>
      '(_, st) ← vfs_lock st proc fd;
      '(_, st) ← node_sync st (fd_node fde);
      st ← edit_node st (fd_node fde) (fun n => set_refcount (s32 (refcount n - 1)) n);
      st ← vfs_cleanup_node_tree st (fd_node fde);
      let proc := set_fde fd (set_fd_node 0 fde) (u32 (file_count proc - 1)) proc in
      st ← vfs_unlock st proc fd;
      Ret (proc, st)
  end.

(** The bytes read are in the caller's buffer, whatever is returned. *)
Definition vfs_read (st : state H) (proc : proc_files) (fd buffer size : Z) : outcome (Z * proc_files * state H) :=
  if negb (validate_user_buffer (is_user proc) buffer size) then Ret (-1, proc, st)
  else
    f ← open_fde proc fd;
    match f with
    | None => Ret (-1, proc, st)
    | Some fde =>
        if negb (has_flag (mode fde) FILE_OPEN_READ) then Ret (-1, proc, st)
        else
          '(_, st) ← vfs_lock st proc fd;
          '(err, bytes, fde, st) ← file_read st fde size;
          let st := with_memory (poke (memory st) buffer bytes) st in
          let proc := set_fde fd fde (file_count proc) proc in
          let ret := if bool_decide (err = ERR_FS_SUCCESS) then s32 (Z.of_nat (length bytes))
                     else if bool_decide (err = ERR_FS_EOF) then 0 else -1 in
          st ← vfs_unlock st proc fd;
          Ret (ret, proc, st)
    end.

Definition vfs_write (st : state H) (proc : proc_files) (fd buffer size : Z) : outcome (Z * proc_files * state H) :=
  if negb (validate_user_buffer (is_user proc) buffer size) then Ret (-1, proc, st)
  else
    f ← open_fde proc fd;
    match f with
    | None => Ret (-1, proc, st)
    | Some fde =>
        if negb (has_flag (mode fde) FILE_OPEN_WRITE) then Ret (-1, proc, st)
        else
          '(_, st) ← vfs_lock st proc fd;
          '(err, written, fde, st) ← file_write st fde (map (fun i => load8 (memory st) (buffer + i)) (seqZ 0 size));
          let proc := set_fde fd fde (file_count proc) proc in
          let ret := if bool_decide (err = ERR_FS_SUCCESS) then s32 written else -1 in
          st ← vfs_unlock st proc fd;
          Ret (ret, proc, st)
    end.

(** The first result is what is left in [*position]. *)
Definition vfs_seek (st : state H) (proc : proc_files) (fd hoff loff whence position : Z) : outcome (Z * proc_files * state H) :=
  f ← open_fde proc fd;
  match f with
  | None => Ret (-1, proc, st)
  | Some fde =>
      let offset := s64 (Z.lor (Z.shiftl (u32 hoff) 32) (u32 loff)) in
      '(_, st) ← vfs_lock st proc fd;
      '(err, fde, final) ← file_seek st fde offset whence;
      let proc := set_fde fd fde (file_count proc) proc in
      st ← vfs_unlock st proc fd;
      Ret (if bool_decide (err = ERR_FS_SUCCESS) then default position final else -1, proc, st)
  end.

(** [proc] is [None] before there are processes; 12 is ERR_FS_NOT_DIR. *)
Definition vfs_mount (st : state H) (proc : option proc_files) (target_path mount_path : Z) : outcome (Z * state H) :=
  ok ← match proc with
    | None => Ret true
    | Some proc =>
        ok ← validate_user_string (is_user proc) (user_load mapped (memory st)) target_path;
        if ok : bool then validate_user_string (is_user proc) (user_load mapped (memory st)) mount_path else Ret false
    end;
  if negb ok then Ret (-1, st)
  else
    target_path ← string_at (memory st) target_path;
    mount_path ← string_at (memory st) mount_path;
    '(err, target_node, st) ← vfs_find_and_create_node st target_path ramfs_root FILE_OPEN_READ 0;
    if failed err then Ret (-1, st)
    else
      '(err, mount_node, st) ← vfs_find_and_create_node st mount_path ramfs_root FILE_OPEN_CREATE
        (Z.lor FS_NODE_TYPE_DIRECTORY FS_NODE_FLAG_MOUNTPOINT);
      if failed err then Ret (-1, st)
      else
        n ← get_node st mount_node;
        if negb (FS_NODE_IS_DIRECTORY n) then Ret (12, st)
        else
          st ← edit_node st mount_node (fun n => set_flags (Z.lor (flags n) FS_NODE_FLAG_MOUNTPOINT) (set_mount_target target_node n));
          st ← edit_node st target_node (fun n => set_refcount (s32 (refcount n + 1)) n);
          st ← edit_node st mount_node (fun n => set_refcount (s32 (refcount n + 1)) n);
          Ret (0, st).

(** ** Start-up *)

Definition path_dev : list Z := [47; 100; 101; 118].
Definition path_stdin : list Z := path_dev ++ [47; 115; 116; 100; 105; 110].
Definition path_stdout : list Z := path_dev ++ [47; 115; 116; 100; 111; 117; 116].
Definition path_proc : list Z := [47; 112; 114; 111; 99].

(** The four nodes the kernel keeps, /dev, stdin, stdout and /proc, once the RAM
    file system's heap is there; [None] when one of them cannot be made. *)
Definition vfs_init (st : state H) : outcome (option (Z * Z * Z * Z) * state H) :=
  '(err, st) ← ramfs_init st ramfs ramfs_root;
  if failed err then Ret (None, st)
  else
    '(err, kern_dev, st) ← vfs_find_and_create_node st path_dev ramfs_root FILE_OPEN_CREATE FS_NODE_TYPE_DIRECTORY;
    if failed err then Ret (None, st)
    else
      '(err, kern_stdin, st) ← vfs_find_and_create_node st path_stdin kern_dev FILE_OPEN_CREATE FS_NODE_TYPE_PIPE;
      if failed err then Ret (None, st)
      else
        '(err, kern_stdout, st) ← vfs_find_and_create_node st path_stdout kern_dev FILE_OPEN_CREATE FS_NODE_TYPE_PIPE;
        if failed err then Ret (None, st)
        else
          '(err, kern_proc, st) ← vfs_find_and_create_node st path_proc ramfs_root FILE_OPEN_CREATE FS_NODE_TYPE_DIRECTORY;
          if failed err then Ret (None, st)
          else
            st ← edit_node st kern_dev (set_refcount 69420);
            st ← edit_node st kern_stdin (set_refcount 69420);
            st ← edit_node st kern_stdout (set_refcount 69420);
            st ← edit_node st kern_proc (set_refcount 69420);
            Ret (Some (kern_dev, kern_stdin, kern_stdout, kern_proc), st).
End vfs.

(** A boot sector's FAT32 signature, at the offsets of [fat32_bootrecord_t]. *)
Definition fat32_check (sect : Z -> Z) : bool :=
  ((sect 66 =? 40) || (sect 66 =? 41)) &&
  forallb (fun i => let b := sect (82 + i) in
    (b =? 32) || ((65 <=? b) && (b <=? 90)) || ((97 <=? b) && (b <=? 122)) || ((48 <=? b) && (b <=? 57))) (seqZ 0 8).

(** [sect] is the first sector of the partition, as the disk driver reads it. *)
Definition vfs_detectfs (sect : Z -> Z) : Z := if fat32_check sect then FS_FAT32 else FS_EMPTY.
