(* ===== verification/VfsWalk.v ===== *)
(** * Walking a path through the tree (kernel/src/filesystem/vfs_op.c)

    A path whose names are all found in the tree of nodes in use leads to the node
    its tokens resolve to, whatever the mode; and what closing a descriptor does to
    the lock of its node. *)
From S2P Require Import Prelude Mem CString Fs Ramfs FileOps Validate Vfs.

Section walk.
Context {H : Type} `{Allocator H}.
Variable ramfs : Z.
Variable ramfs_root : Z.
Variable others : Z -> option (fs_t (state H)).
Variable dirty : Z -> fs_node.

(** ** What a path means *)

(** The siblings from a node on. *)
Fixpoint siblings (m : gmap Z fs_node) (cur : Z) (l : list (Z * fs_node)) : Prop :=
  match l with
  | [] => cur = 0
  | (p, n) :: l' => p = cur /\ cur <> 0 /\ m !! cur = Some n /\ siblings m (next_sibling n) l'
  end.

(** One name from a directory, before mounts: ., .. or the first child of that
    name. *)
Inductive names (m : gmap Z fs_node) (p : Z) : list Z -> Z -> Prop :=
  | names_dot n : m !! p = Some n -> names m p dot p
  | names_dotdot n : m !! p = Some n -> names m p dotdot (if parent n =? 0 then p else parent n)
  | names_child n l1 c nc l2 :
      m !! p = Some n -> siblings m (children n) (l1 ++ (c, nc) :: l2) -> name nc <> dot -> name nc <> dotdot ->
      Forall (fun s => name s.2 <> name nc) l1 -> Z.of_nat (length l1) < 2 ^ 31 -> c <> 0 ->
      names m p (name nc) c.

Definition crosses (m : gmap Z fs_node) (c c' : Z) : Prop := exists n, m !! c = Some n /\
  c' = if FS_NODE_IS_MOUNTPOINT n && negb (mount_target n =? 0) then mount_target n else c.

Inductive resolves (m : gmap Z fs_node) : Z -> list (list Z) -> Z -> Prop :=
  | resolves_nil p n : m !! p = Some n -> resolves m p [] p
  | resolves_cons p word c c' words q : names m p word c -> crosses m c c' -> resolves m c' words q ->
      resolves m p (word :: words) q.

(** ** The walk follows it *)

Lemma next_token_spec token : match next_token token with
  | None => tokens [47] token = []
  | Some (w, rest) => tokens [47] token = w :: tokens [47] rest /\ (length rest < length token)%nat
  end.
Proof.
  unfold next_token. pose proof (tokens_skip [47] token) as E. pose proof (skip_length [47] token) as L.
  destruct (skip [47] token) as [|b l] eqn:Es; [exact E|]. destruct (tokens_word [47] token) as [_ T].
  rewrite (T b l Es). split; [reflexivity|]. rewrite length_drop. cbn [length] in *. lia.
Qed.

Lemma find_child_loop (st : state H) w c nc l2 l1 : forall cur, siblings (nodes st) cur (l1 ++ (c, nc) :: l2) ->
  Forall (fun s => name s.2 <> name nc) l1 -> name nc = w -> loop (find_child_step st w) (S (length l1)) cur = Ret c.
Proof.
  induction l1 as [|[p n] l1 IH]; intros cur Sb F Ew; rewrite loop_S; unfold find_child_step at 2, get_node.
  - destruct Sb as (-> & Hc & -> & _). replace (cur =? 0) with false by lia. cbn [of_option]. rewrite bind_ret, Ew.
    now rewrite bool_decide_eq_true_2.
  - destruct Sb as (-> & Hc & -> & Sb). apply Forall_cons in F as [Fn F]. replace (cur =? 0) with false by lia.
    cbn [of_option]. rewrite bind_ret. rewrite bool_decide_eq_false_2 by (cbn in Fn; congruence). rewrite bind_ret.
    cbn [length]. now apply IH.
Qed.

Lemma cross_mount_spec (st : state H) c c' : crosses (nodes st) c c' -> cross_mount st c = Ret c'.
Proof. intros (n & E & ->). unfold cross_mount, get_node. now rewrite E. Qed.

Lemma walk_step_names (do_create fail : bool) (st : state H) p word rest token c c' stack :
  next_token token = Some (word, rest) -> names (nodes st) p word c -> crosses (nodes st) c c' ->
  walk_step ramfs others dirty do_create fail (p, token, stack, st) = Ret (inl (c', rest, stack, st)).
Proof.
  intros Et N C. unfold walk_step. rewrite Et. unfold get_node at 1.
  destruct N as [n En|n En|n l1 c nc l2 En Sb N1 N2 F L Hc]; rewrite En; cbn [of_option]; rewrite bind_ret.
  - rewrite bool_decide_eq_true_2 by reflexivity. now rewrite (cross_mount_spec _ _ _ C), bind_ret.
  - rewrite bool_decide_eq_false_2, bool_decide_eq_true_2 by (reflexivity || discriminate).
    now rewrite (cross_mount_spec _ _ _ C), bind_ret.
  - rewrite !bool_decide_eq_false_2 by assumption.
    rewrite (while_loop _ _ _ _ (find_child_loop st (name nc) c nc l2 l1 _ Sb F eq_refl)) by (discriminate || lia).
    rewrite bind_ret. replace (c =? 0) with false by lia. rewrite bind_ret. now rewrite (cross_mount_spec _ _ _ C), bind_ret.
Qed.

Lemma walk_loop (do_create fail : bool) (st : state H) stack n : forall token p q, (length token < n)%nat ->
  resolves (nodes st) p (tokens [47] token) q ->
  loop (walk_step ramfs others dirty do_create fail) n (p, token, stack, st) = Ret (Reached q, stack, st).
Proof.
  induction n as [|n IH]; intros token p q Hn R; [lia|]. rewrite loop_S. pose proof (next_token_spec token) as T.
  destruct (next_token token) as [[w rest]|] eqn:Et.
  - destruct T as [Ew Lr]. rewrite Ew in R. inversion R as [|? ? c c' ? ? N C R']; subst.
    rewrite (walk_step_names _ _ st p w rest token c c' stack Et N C), bind_ret. apply IH; [lia|assumption].
  - rewrite T in R. inversion R; subst. unfold walk_step at 2. now rewrite Et.
Qed.

(** The kernel's heap has room for the copy of the path and for the search stack. *)
Definition walk_room (h : H) (path : list Z) : bool :=
  let '(pathcpy, h) := alloc h (Z.of_nat (length path) + 1) in
  negb (pathcpy =? 0) && negb ((alloc h (4 * MAX_ALLOCATION)).1 =? 0).

(** What is returned when the path leads to [q], the node [n]. *)
Definition walk_result (h : H) (path : list Z) (mode : Z) (q : Z) (n : fs_node) : FS_ERR * Z :=
  if negb (walk_room h path) then (ERR_FS_NOT_ENOUGH_SPACE, 0)
  else if has_flag mode FILE_OPEN_ONLYDIR && negb (FS_NODE_IS_DIRECTORY n) then (ERR_FS_NOT_DIR, 0)
  else (ERR_FS_SUCCESS, q).

(** Where the walk of a path starts, and the path behind it. *)
Definition start_of (path : list Z) (cwd : Z) : Z := match path with 47 :: _ => ramfs_root | _ => cwd end.

Lemma tokens_slash path : tokens [47] (47 :: path) = tokens [47] path.
Proof. rewrite (tokens_skip [47] (47 :: path)), (tokens_skip [47] path). reflexivity. Qed.

Lemma find_and_create_ok (st : state H) (path : list Z) (cwd mode create_flags q : Z) (n : fs_node) :
  resolves (nodes st) (start_of path cwd) (tokens [47] path) q -> nodes st !! q = Some n -> Z.of_nat (length path) < 2 ^ 31 ->
  find_and_create ramfs ramfs_root others dirty st path cwd mode create_flags =
    Ret (if has_flag mode FILE_OPEN_ONLYDIR && negb (FS_NODE_IS_DIRECTORY n) then (ERR_FS_NOT_DIR, 0, st) else (ERR_FS_SUCCESS, q, st)).
Proof.
  intros R En Hl. unfold find_and_create. set (start := match path with 47 :: path => _ | _ => _ end).
  assert (Es : start.1 = start_of path cwd /\ tokens [47] start.2 = tokens [47] path /\ (length start.2 <= length path)%nat).
  { unfold start, start_of. destruct path as [|b path]; [cbn; auto|].
    destruct (Z.eq_dec b 47) as [-> |Nb]; [cbn [fst snd]; rewrite tokens_slash; cbn; auto|].
    destruct b as [|b|b]; [cbn; auto| |cbn; auto]. do 6 (destruct b as [b|b|]; try (cbn; auto; congruence)). }
  clearbody start. destruct Es as (E1 & E2 & E3). rewrite <- E1, <- E2 in R.
  rewrite (while_loop _ _ _ _ (walk_loop _ _ st [] (S (length start.2)) start.2 start.1 q ltac:(lia) R)) by (discriminate || lia).
  rewrite bind_ret. cbv beta iota. rewrite bind_ret. change (failed ERR_FS_SUCCESS) with false. cbv iota.
  unfold get_node at 1. rewrite En. cbn [of_option]. rewrite bind_ret. destruct (_ && _); reflexivity.
Qed.

Lemma vfs_find_ok (st : state H) (path : list Z) (cwd mode create_flags q : Z) (n : fs_node) :
  (exists n, nodes st !! cwd = Some n) -> Z.of_nat (length path) < 2 ^ 31 ->
  resolves (nodes st) (start_of path cwd) (tokens [47] path) q -> nodes st !! q = Some n ->
  exists st', vfs_find_and_create_node ramfs ramfs_root others dirty st path cwd mode create_flags = Ret (walk_result (kheap st) path mode q n, st') /\
    nodes st' = nodes st /\ ramnodes st' = ramnodes st /\ datanodes st' = datanodes st /\ memory st' = memory st.
Proof.
  intros (nc & Ec) Hl R En. unfold vfs_find_and_create_node, get_node at 1, walk_result, walk_room. rewrite Ec. cbn [of_option]. rewrite bind_ret.
  unfold kmalloc. destruct (alloc (kheap st) _) as [pathcpy h1]. cbn [kheap with_kheap]. destruct (pathcpy =? 0); [eexists; split_and!; reflexivity|].
  destruct (alloc h1 _) as [stack h2]. cbn [negb andb fst]. destruct (stack =? 0); [eexists; split; [reflexivity|]; split_and!; reflexivity|]. cbn [negb].
  set (st2 := with_kheap h2 _). rewrite (find_and_create_ok st2 path cwd mode create_flags q n R En Hl), bind_ret.
  destruct (_ && _); eexists; (split; [reflexivity|]); split_and!; reflexivity.
Qed.

(** C39: A path whose names are all in the tree.  vfs_find_and_create_node finds the
    node that its tokens resolve to, through ., .., children and mounts, from the
    root or from the working directory, provided that the kernel's heap has room for a copy
    of the path and for its search stack (else it returns ERR_FS_NOT_ENOUGH_SPACE) and that
    FILE_OPEN_ONLYDIR, if asked for, is met (else ERR_FS_NOT_DIR).  In every case it leaves
    every node, file and directory as it was.  The mode plays no other part, so
    FILE_OPEN_EXCLUSIVE does not keep an existing node from being opened. *)
Theorem vfs_find_resolves (st : state H) (path : list Z) (cwd mode create_flags q : Z) (n : fs_node) :
  (exists n, nodes st !! cwd = Some n) -> Z.of_nat (length path) < 2 ^ 31 ->
  resolves (nodes st) (start_of path cwd) (tokens [47] path) q -> nodes st !! q = Some n ->
  exists st', vfs_find_and_create_node ramfs ramfs_root others dirty st path cwd mode create_flags =
      Ret (if negb (walk_room (kheap st) path) then (ERR_FS_NOT_ENOUGH_SPACE, 0, st')
           else if has_flag mode FILE_OPEN_ONLYDIR && negb (FS_NODE_IS_DIRECTORY n) then (ERR_FS_NOT_DIR, 0, st')
           else (ERR_FS_SUCCESS, q, st')) /\
    nodes st' = nodes st /\ ramnodes st' = ramnodes st /\ datanodes st' = datanodes st /\ memory st' = memory st.
Proof.
  intros Ec Hl R En. destruct (vfs_find_ok st path cwd mode create_flags q n Ec Hl R En) as (st' & E & S). exists st'. split; [|exact S].
  rewrite E. unfold walk_result. destruct (negb _); [reflexivity|]. now destruct (_ && _).
Qed.

(** ** Closing *)

Definition opened (proc : proc_files) (fd : Z) (fde : file_description) : Prop :=
  0 <= fd < MAX_FILE /\ file_descriptor_table proc !! Z.to_nat fd = Some fde /\ fd_node fde <> 0.

Lemma open_fde_opened proc fd fde : opened proc fd fde -> open_fde proc fd = Ret (Some fde).
Proof.
  intros (Hf & E & Hn). unfold open_fde. replace (_ || _) with false by lia. rewrite E. cbn [of_option]. rewrite bind_ret.
  now replace (fd_node fde =? 0) with false by lia.
Qed.

Lemma vfs_lock_spec (st : state H) proc fd fde n : opened proc fd fde -> nodes st !! fd_node fde = Some n ->
  vfs_lock st proc fd = if 1 <=? lock n then Ret (0, put_node (fd_node fde) (set_lock (lock n - 1) n) st) else Spin.
Proof.
  intros O E. unfold vfs_lock, lock_node, get_node. rewrite (open_fde_opened _ _ _ O), bind_ret, E. cbn [of_option].
  rewrite bind_ret. now destruct (1 <=? lock n).
Qed.

(** Closing a descriptor leaves its node locked.  vfs_close clears the
    descriptor before it unlocks through it, so vfs_unlock finds nothing to unlock:
    while another descriptor keeps the node alive, its lock stays taken, and whoever
    locks, reads, writes or closes the file next waits for good. *)
Theorem vfs_close_leaves_locked (st : state H) (proc proc2 : proc_files) (fd fd2 : Z) (fde fde2 : file_description)
    (n : fs_node) (r : ramfs_node) :
  opened proc fd fde -> opened proc2 fd2 fde2 -> fd_node fde2 = fd_node fde ->
  nodes st !! fd_node fde = Some n -> fs n = ramfs -> ramnodes st !! node_addr n = Some r -> lock n = 1 ->
  1 < refcount n < 2 ^ 31 ->
  exists proc' st', vfs_close ramfs others st proc fd = Ret (proc', st') /\
    (exists n', nodes st' !! fd_node fde = Some n' /\ lock n' = 0) /\
    vfs_lock st' proc2 fd2 = Spin.
Proof.
  intros O O2 E2 En Ef Er El Hr. unfold vfs_close. rewrite (open_fde_opened _ _ _ O), bind_ret.
  rewrite (vfs_lock_spec _ _ _ _ _ O En), El. change (1 <=? 1) with true. cbv iota. rewrite bind_ret.
  change (1 - 1) with 0. set (n1 := set_lock 0 n). set (st1 := put_node _ n1 st).
  assert (E1 : nodes st1 !! fd_node fde = Some n1) by apply lookup_insert_eq.
  unfold node_sync, node_fs. cbn [node_at fs_at ramfs_store store]. unfold get_node at 1. rewrite E1. cbn [of_option]. rewrite bind_ret.
  change (fs n1) with (fs n). rewrite Ef, Z.eqb_refl, bind_ret. cbn [dispatch ramfs_fs fs_node_sync].
  unfold ramfs_update_entry. unfold get_node at 1. rewrite E1. cbn [of_option]. rewrite bind_ret. unfold get_rn.
  change (ramnodes st1 !! node_addr n1) with (ramnodes st !! node_addr n). rewrite Er. cbn [of_option]. rewrite !bind_ret.
  set (st2 := put_rn _ _ st1). unfold edit_node, get_node at 1. change (nodes st2) with (nodes st1). rewrite E1. cbn [of_option]. rewrite !bind_ret.
  set (n3 := set_refcount _ n1). set (st3 := put_node _ n3 st2).
  assert (E3 : nodes st3 !! fd_node fde = Some n3) by apply lookup_insert_eq.
  assert (Ec : vfs_cleanup_node_tree st3 (fd_node fde) = Ret st3).
  { apply (while_loop _ 1); [|discriminate|lia]. rewrite loop_S. unfold cleanup_step at 2. destruct O as (_ & _ & Hn).
    replace (fd_node fde =? 0) with false by lia. unfold get_node. rewrite E3. cbn [of_option]. rewrite bind_ret.
    replace (0 <? refcount n3) with true; [reflexivity|]. unfold n3. cbn [refcount set_refcount n1 set_lock]. rewrite s32_small by lia. lia. }
  rewrite Ec, bind_ret. unfold vfs_unlock. destruct O as (Hf & Et & _).
  assert (Eo : open_fde (set_fde fd (set_fd_node 0 fde) (u32 (file_count proc - 1)) proc) fd = Ret None).
  { unfold open_fde. replace (_ || _) with false by lia. cbn. rewrite list_lookup_insert_eq by (eapply lookup_lt_Some; exact Et). reflexivity. }
  rewrite Eo, !bind_ret. do 2 eexists. split; [reflexivity|]. split; [exists n3; split; [exact E3|reflexivity]|].
  rewrite <- E2 in E3. now rewrite (vfs_lock_spec _ _ _ _ _ O2 E3).
Qed.
End walk.

(** ** Runs *)

Module Runs.
Import Bump.

(** A root with one directory, which has a file of two descriptors in it. *)
Definition root_node : fs_node := FsNode [47] 10 0 101 0 FS_NODE_TYPE_DIRECTORY 0 0 0 0 0 0 1 1 30 0 0.
Definition dir_node : fs_node := FsNode [100] 10 100 102 0 FS_NODE_TYPE_DIRECTORY 0 0 0 0 0 0 0 1 31 0 0.
Definition file_node : fs_node := FsNode [102] 10 101 0 0 FS_NODE_TYPE_FILE 0 0 0 0 0 0 2 1 32 0 0.
Definition st0 : state bump :=
  State {| next_block := 40; used := {[32]} |} {| next_block := 200; used := {[100; 101; 102]} |} ∅
    {[ 32 := RamfsNode [102] 0 0 0 0 0 FS_NODE_TYPE_FILE 0 33 0 0 0 0 0 ]}
    {[ 100 := root_node; 101 := dir_node; 102 := file_node ]} ∅ ∅ 0 0.
Definition dirty0 (p : Z) : fs_node := uninitialised.
Definition fde0 : file_description := FileDescription 102 FILE_OPEN_READ 0 33 0.
Definition proc0 : proc_files := ProcFiles false 100 2 (fde0 :: fde0 :: replicate 126 (FileDescription 0 0 0 0 0)).

(** /d/./../d/f, with FILE_OPEN_EXCLUSIVE. *)
Definition path0 : list Z := [47; 100; 47; 46; 47; 46; 46; 47; 100; 47; 102].

Lemma path0_resolves : resolves (nodes st0) (start_of 100 path0 100) (tokens [47] path0) 102.
Proof.
  change (tokens [47] path0) with [[100]; dot; dotdot; [100]; [102]]. change (start_of 100 path0 100) with 100.
  assert (D : names (nodes st0) 100 [100] 101).
  { apply (names_child _ 100 root_node [] 101 dir_node []); [reflexivity|split_and!; [reflexivity|discriminate|reflexivity|reflexivity]|discriminate|discriminate|constructor|by_eval|discriminate]. }
  assert (C : forall c, c ∈ [100; 101; 102] -> crosses (nodes st0) c c).
  { intros c Hc. repeat (apply elem_of_cons in Hc as [-> |Hc]; [eexists; split; reflexivity|]). now apply elem_of_nil in Hc. }
  eapply resolves_cons; [exact D|apply C; by_eval|].
  eapply resolves_cons; [eapply names_dot; reflexivity|apply C; by_eval|].
  eapply resolves_cons; [eapply (names_dotdot _ _ dir_node); reflexivity|apply (C 100); by_eval|].
  eapply resolves_cons; [exact D|apply C; by_eval|].
  eapply resolves_cons; [|apply (C 102); by_eval|eapply resolves_nil; reflexivity].
  apply (names_child _ 101 dir_node [] 102 file_node []); [reflexivity|split_and!; [reflexivity|discriminate|reflexivity|reflexivity]|discriminate|discriminate|constructor|by_eval|discriminate].
Qed.

Lemma vfs_find_resolves_witness : resolves (nodes st0) (start_of 100 path0 100) (tokens [47] path0) 102 /\
  exists st', vfs_find_and_create_node 10 100 (fun _ => None) dirty0 st0 path0 100
    (Z.lor FILE_OPEN_CREATE FILE_OPEN_EXCLUSIVE) 0 = Ret (ERR_FS_SUCCESS, 102, st').
Proof.
  split; [exact path0_resolves|].
  destruct (vfs_find_resolves 10 100 (fun _ => None) dirty0 st0 path0 100 (Z.lor FILE_OPEN_CREATE FILE_OPEN_EXCLUSIVE) 0 102 file_node)
    as (st' & E & _); [exists root_node; reflexivity|by_eval|exact path0_resolves|reflexivity|].
  exists st'. exact E.
Defined.

Lemma vfs_close_leaves_locked_witness : exists proc' st', vfs_close 10 (fun _ => None) st0 proc0 0 = Ret (proc', st') /\
  vfs_lock st' proc0 1 = Spin.
Proof.
  destruct (vfs_close_leaves_locked 10 (fun _ => None) st0 proc0 proc0 0 1 fde0 fde0 file_node
    (RamfsNode [102] 0 0 0 0 0 FS_NODE_TYPE_FILE 0 33 0 0 0 0 0)) as (proc' & st' & E & _ & L);
    [split_and!; by_eval|split_and!; by_eval|reflexivity|reflexivity|reflexivity|reflexivity|reflexivity|by_eval|].
  exists proc', st'. split; [exact E|exact L].
Defined.
End Runs.
