(* ===== verification/Disk.v ===== *)
(** * Disks

    What is on a disk, as the file systems see it: bytes, sector [lba] at address
    [512 * lba] on.  [Ata] relates the disk driver to these operations. *)
From S2P Require Import Prelude Mem CString.

Definition SECTOR : Z := 512.

Definition disk_read (c : mem) (lba n : Z) : list Z :=
  map (fun i => load8 c (SECTOR * lba + i)) (seqZ 0 (SECTOR * n)).
Definition disk_write (c : mem) (lba : Z) (l : list Z) : mem := put c (SECTOR * lba) l.

Lemma load8_put m p l a : load8 (put m p l) a =
  if decide (p <= a < p + Z.of_nat (length l)) then u8 (default 0 (l !! Z.to_nat (a - p))) else load8 m a.
Proof.
  revert p. induction l as [|b l IH]; intros p; cbn [put length].
  - rewrite decide_False by lia. reflexivity.
  - rewrite load8_store8, IH. destruct (Z.eqb_spec p a) as [->|].
    + rewrite decide_True by lia. now rewrite Z.sub_diag.
    + destruct (decide (p + 1 <= a < p + 1 + Z.of_nat (length l))).
      * rewrite decide_True by lia. replace (Z.to_nat (a - p)) with (S (Z.to_nat (a - (p + 1)))) by lia. reflexivity.
      * rewrite decide_False by lia. reflexivity.
Qed.

Lemma length_disk_read c lba n : length (disk_read c lba n) = Z.to_nat (SECTOR * n).
Proof. unfold disk_read. now rewrite length_map, length_seqZ. Qed.

Lemma lookup_disk_read c lba n (i : nat) : Z.of_nat i < SECTOR * n ->
  disk_read c lba n !! i = Some (load8 c (SECTOR * lba + Z.of_nat i)).
Proof.
  intros Hi. unfold disk_read. change (map ?f ?l) with (f <$> l). rewrite list_lookup_fmap.
  rewrite lookup_seqZ_lt by lia. reflexivity.
Qed.

Lemma disk_read_nth c lba n (i : nat) : Z.of_nat i < SECTOR * n ->
  default 0 (disk_read c lba n !! i) = load8 c (SECTOR * lba + Z.of_nat i).
Proof. intros. now rewrite lookup_disk_read. Qed.

Lemma disk_read_ext c c' lba n :
  (forall a, SECTOR * lba <= a < SECTOR * (lba + n) -> load8 c' a = load8 c a) -> disk_read c' lba n = disk_read c lba n.
Proof.
  intros E. unfold disk_read. apply list_fmap_ext. intros i x Hx.
  apply list_elem_of_lookup_2, elem_of_seqZ in Hx. apply E. unfold SECTOR in *. lia.
Qed.

(** A list of bytes. *)
Definition bytes_list (l : list Z) : Prop := Forall (fun b => 0 <= b < 256) l.

Lemma disk_read_bytes c lba n : bytes_list (disk_read c lba n).
Proof. unfold disk_read, bytes_list. apply Forall_fmap, Forall_forall. intros. apply load8_range. Qed.

Lemma bytes_list_nth l i : bytes_list l -> u8 (default 0 (l !! i)) = default 0 (l !! i).
Proof. intros B. destruct (l !! i) eqn:E; cbn; [|reflexivity]. apply u8_small. eapply Forall_lookup_1 in B; eauto. Qed.

(** Sectors that are written read back, the others stay. *)
Lemma disk_read_write c lba l n : bytes_list l -> Z.of_nat (length l) = SECTOR * n ->
  disk_read (disk_write c lba l) lba n = l.
Proof.
  intros B L. apply list_eq. intros i. destruct (decide (i < length l)%nat) as [Hi|Hi].
  - rewrite lookup_disk_read by lia. unfold disk_write. rewrite load8_put, decide_True by lia.
    replace (Z.to_nat _) with i by lia. rewrite bytes_list_nth by assumption.
    destruct (lookup_lt_is_Some_2 l i Hi) as [b ->]. reflexivity.
  - rewrite !lookup_ge_None_2; [reflexivity|lia|]. rewrite length_disk_read. lia.
Qed.

Lemma disk_read_write_ne c lba l n lba' n' : Z.of_nat (length l) = SECTOR * n -> lba + n <= lba' \/ lba' + n' <= lba ->
  disk_read (disk_write c lba l) lba' n' = disk_read c lba' n'.
Proof.
  intros L D. apply disk_read_ext. intros a Ha. unfold disk_write. rewrite load8_put, decide_False; [reflexivity|].
  unfold SECTOR in *. lia.
Qed.

(** ** Words in a buffer, little-endian *)

Definition byte_at (l : list Z) (i : Z) : Z := default 0 (l !! Z.to_nat i).
Definition word16 (l : list Z) (i : Z) : Z := byte_at l i + 2 ^ 8 * byte_at l (i + 1).
Definition word32 (l : list Z) (i : Z) : Z := word16 l i + 2 ^ 16 * word16 l (i + 2).
Definition le16 (v : Z) : list Z := [u8 v; u8 (v / 2 ^ 8)].
Definition le32 (v : Z) : list Z := le16 v ++ le16 (v / 2 ^ 16).

(** [new] copied over [l] from index [i] on; it must fit. *)
Definition splice (l : list Z) (i : Z) (new : list Z) : list Z :=
  take (Z.to_nat i) l ++ new ++ drop (Z.to_nat i + length new) l.

Lemma length_splice l i new : 0 <= i -> i + Z.of_nat (length new) <= Z.of_nat (length l) -> length (splice l i new) = length l.
Proof. intros. unfold splice. rewrite !length_app, length_take, length_drop. lia. Qed.

Lemma lookup_splice l i new (j : nat) : 0 <= i -> i + Z.of_nat (length new) <= Z.of_nat (length l) ->
  splice l i new !! j = if decide (i <= Z.of_nat j < i + Z.of_nat (length new)) then new !! (j - Z.to_nat i)%nat else l !! j.
Proof.
  intros H0 H1. unfold splice. destruct (decide (Z.of_nat j < i)).
  - rewrite lookup_app_l, lookup_take_lt by (rewrite ?length_take; lia). now rewrite decide_False by lia.
  - rewrite lookup_app_r; rewrite length_take; [|lia]. rewrite Nat.min_l by lia. case_decide.
    + rewrite lookup_app_l by lia. reflexivity.
    + rewrite lookup_app_r, lookup_drop by lia. f_equal. lia.
Qed.

Lemma byte_at_splice l i new j : 0 <= i -> i + Z.of_nat (length new) <= Z.of_nat (length l) -> 0 <= j ->
  byte_at (splice l i new) j = if decide (i <= j < i + Z.of_nat (length new)) then byte_at new (j - i) else byte_at l j.
Proof.
  intros. unfold byte_at. rewrite lookup_splice by lia. rewrite Z2Nat.id by lia.
  case_decide; [|reflexivity]. do 2 f_equal. lia.
Qed.

Lemma word32_le32 v : word32 (le32 v) 0 = u32 v.
Proof.
  rewrite byte_split. unfold word32, word16.
  change (byte_at (le32 v) 0) with (u8 v). change (byte_at (le32 v) (0 + 1)) with (u8 (v / 2 ^ 8)).
  change (byte_at (le32 v) (0 + 2)) with (u8 (v / 2 ^ 16)). change (byte_at (le32 v) (0 + 2 + 1)) with (u8 (v / 2 ^ 16 / 2 ^ 8)).
  rewrite Z.div_div by lia. change (2 ^ 16 * 2 ^ 8) with (2 ^ 24). lia.
Qed.

Lemma word16_le16 v : word16 (le16 v) 0 = u16 v.
Proof.
  unfold word16. change (byte_at (le16 v) 0) with (u8 v). change (byte_at (le16 v) (0 + 1)) with (u8 (v / 2 ^ 8)).
  unfold u8, u16. change (2 ^ 16) with (2 ^ 8 * 2 ^ 8). rewrite Z.rem_mul_r by lia. reflexivity.
Qed.

Lemma word32_splice l i v : 0 <= i -> i + 4 <= Z.of_nat (length l) -> word32 (splice l i (le32 v)) i = u32 v.
Proof.
  intros. rewrite <- word32_le32. unfold word32, word16. rewrite !byte_at_splice by (cbn; lia).
  rewrite !decide_True by (cbn; lia). repeat f_equal; lia.
Qed.

Lemma word32_splice_ne l i j v : 0 <= i -> 0 <= j -> i + 4 <= Z.of_nat (length l) -> i + 4 <= j \/ j + 4 <= i ->
  word32 (splice l i (le32 v)) j = word32 l j.
Proof.
  intros. unfold word32, word16. rewrite !byte_at_splice by (cbn; lia). rewrite !decide_False by (cbn; lia). reflexivity.
Qed.

Lemma le32_bytes v : bytes_list (le32 v).
Proof. repeat constructor; apply u8_range. Qed.

Lemma bytes_list_splice l i new : bytes_list l -> bytes_list new -> bytes_list (splice l i new).
Proof. intros. unfold splice, bytes_list in *. auto using Forall_app_2, Forall_take, Forall_drop. Qed.
