(* ===== verification/Ports.v ===== *)
(** * The machine's ports (kernel/src/system/io.c)

    The interface between the drivers and the devices behind the ports they read
    and write. *)
From S2P Require Import Prelude.

(** Reading a port may change what is behind it. *)
Class Ports (D : Type) := {
  port_inb : D -> Z -> Z * D;
  port_inw : D -> Z -> Z * D;
  port_outb : D -> Z -> Z -> D;
  port_outw : D -> Z -> Z -> D;
}.

Definition io_wait {D} `{Ports D} (d : D) : D := port_outb d 128 0.
