(* ===== verification/Ata.v ===== *)
(** * The disk driver (kernel/src/driver/ata/ata_pio.c)

    Programmed I/O on the primary ATA bus.  The ports are the interface [Ports];
    what the drive behind them does is the interface [AtaDrive], the parts of the
    ATA standard's PIO protocols the driver relies on: a drive is ready or in the
    middle of a transfer, and its status says so once it is no longer busy.  An
    access to one sector reads or writes that sector ([access_read_sector],
    [access_write_sector]); an access to more never ends, since the driver waits
    for the drive to stop asking for the sector that comes next
    ([access_many_hangs]). *)
From S2P Require Import Prelude Mem CString Disk Ports.

Definition PORT_ATA_PIO_DATA : Z := 496.
Definition PORT_ATA_PIO_ERROR : Z := 497.
Definition PORT_ATA_PIO_FEATURE : Z := 497.
Definition PORT_ATA_PIO_SECTOR_COUNT : Z := 498.
Definition PORT_ATA_PIO_LBA_LO : Z := 499.
Definition PORT_ATA_PIO_LBA_MI : Z := 500.
Definition PORT_ATA_PIO_LBA_HI : Z := 501.
Definition PORT_ATA_PIO_DRIVE : Z := 502.
Definition PORT_ATA_PIO_STAT : Z := 503.
Definition PORT_ATA_PIO_COMM : Z := 503.
Definition PORT_ATA_PIO_ALT_STAT : Z := 1014.
Definition PORT_ATA_PIO_DEV_CTRL : Z := 1014.

Definition ATA_PIO_CMD_READ_SECTORS : Z := 32.
Definition ATA_PIO_CMD_WRITE_SECTORS : Z := 48.
Definition ATA_PIO_CMD_CACHE_FLUSH : Z := 231.
Definition ATA_PIO_CMD_IDENTIFY : Z := 236.

Definition ATA_PIO_STAT_ERR : Z := 1.
Definition ATA_PIO_STAT_DRQ : Z := 8.
Definition ATA_PIO_STAT_DF : Z := 32.
Definition ATA_PIO_STAT_BSY : Z := 128.

Inductive ATA_PIO_ERR :=
  | ERR_ATA_PIO_SUCCESS | ERR_ATA_PIO_UNKNOWN | ERR_ATA_PIO_NO_DEV | ERR_ATA_PIO_DRIVE_FAULT
  | ERR_ATA_PIO_ERR_BIT_SET | ERR_ATA_PIO_METHOD_NOT_AVAILABLE | ERR_ATA_PIO_INVALID_PARAMS.
#[export] Instance ATA_PIO_ERR_eq_dec : EqDecision ATA_PIO_ERR.
Proof. solve_decision. Defined.

Section ata.
Context {D : Type} `{Ports D}.

(** The static variables of the file the driver looks at, and the devices.  What
    IDENTIFY says of DMA, cables and LBA48, which nothing reads, is left out. *)
Record ata := Ata {
  LBA28_mode : bool;
  total_addressable_sec_LBA28 : Z;
  ata_lock : bool;
  dev : D;
}.

Definition with_lock (b : bool) (s : ata) : ata := Ata (LBA28_mode s) (total_addressable_sec_LBA28 s) b (dev s).
Definition with_dev (d : D) (s : ata) : ata := Ata (LBA28_mode s) (total_addressable_sec_LBA28 s) (ata_lock s) d.

(** [stat & mask] as a condition *)
Definition bit_set (stat mask : Z) : bool := negb (Z.land stat mask =? 0).

Definition wait_400ns (d : D) : D :=
  let read d := (port_inb d PORT_ATA_PIO_ALT_STAT).2 in read (read (read (read d))).

(** while((stat = port_inb(STAT)) & mask); *)
Definition poll_step (mask : Z) (d : D) : outcome (D + Z * D) :=
  let '(stat, d) := port_inb d PORT_ATA_PIO_STAT in
  Ret (if bit_set stat mask then inl d else inr (stat, d)).

Definition wait_until_not_busy (d : D) : outcome (Z * D) := while (poll_step ATA_PIO_STAT_BSY) d.

Definition status_error (stat : Z) : ATA_PIO_ERR :=
  if bit_set stat ATA_PIO_STAT_ERR then ERR_ATA_PIO_ERR_BIT_SET
  else if bit_set stat ATA_PIO_STAT_DF then ERR_ATA_PIO_DRIVE_FAULT
  else ERR_ATA_PIO_SUCCESS.

Definition wait_until_data_ready (d : D) : outcome (ATA_PIO_ERR * D) :=
  '(stat, d) ← while (poll_step (Z.lor ATA_PIO_STAT_BSY ATA_PIO_STAT_DRQ)) d;
  Ret (status_error stat, d).

Definition wait_ata (return_error : bool) (d : D) : outcome (ATA_PIO_ERR * D) :=
  let d := wait_400ns d in
  '(_, d) ← wait_until_not_busy d;
  Ret (if return_error then let '(stat, d) := port_inb d PORT_ATA_PIO_STAT in (status_error stat, d)
       else (ERR_ATA_PIO_SUCCESS, d)).

Definition software_reset (d : D) : outcome D :=
  let d := wait_400ns (port_outb d PORT_ATA_PIO_DEV_CTRL 4) in
  let d := wait_400ns (port_outb d PORT_ATA_PIO_DEV_CTRL 0) in
  '(_, d) ← wait_until_not_busy d; Ret d.

Definition ata_pio_identify (d : D) : outcome (ATA_PIO_ERR * D) :=
  let d := wait_400ns (port_outb d PORT_ATA_PIO_DRIVE 160) in
  let d := port_outb d PORT_ATA_PIO_SECTOR_COUNT 0 in
  let d := port_outb d PORT_ATA_PIO_LBA_LO 0 in
  let d := port_outb d PORT_ATA_PIO_LBA_MI 0 in
  let d := port_outb d PORT_ATA_PIO_LBA_HI 0 in
  let d := wait_400ns (port_outb d PORT_ATA_PIO_COMM ATA_PIO_CMD_IDENTIFY) in
  let '(stat, d) := port_inb d PORT_ATA_PIO_STAT in
  if stat =? 0 then Ret (ERR_ATA_PIO_NO_DEV, d)
  else
    '(_, d) ← wait_until_not_busy d;
    let '(lo, d) := port_inb d PORT_ATA_PIO_LBA_LO in
    let '(hi, d) := if lo =? 0 then (0, d) else port_inb d PORT_ATA_PIO_LBA_HI in
    if negb (hi =? 0) then Ret (ERR_ATA_PIO_NO_DEV, d)
    else Ret (ERR_ATA_PIO_SUCCESS, port_outb d PORT_ATA_PIO_DEV_CTRL 2).

(** The index in error_msg, which has eight entries: with no bit set the code
    reads past its end. *)
Fixpoint first_bit (err i : Z) (n : nat) : Z :=
  match n with O => i | S n' => if bit_set err (Z.shiftl 1 i) then i else first_bit err (i + 1) n' end.
Definition ata_pio_get_error (d : D) : outcome (Z * D) :=
  let '(err, d) := port_inb d PORT_ATA_PIO_ERROR in
  d ← software_reset d;
  let i := first_bit err 0 8 in
  if i =? 8 then Fault else Ret (i, d).

(** ** Reading and writing sectors

    A buffer is the list of its bytes. *)

(** The 256 words of a sector, read to offset [o] of the buffer or written from there. *)
Fixpoint read_words (n : nat) (o : nat) (buff : list Z) (d : D) : list Z * D :=
  match n with
  | O => (buff, d)
  | S n' =>
      let '(dat, d) := port_inw d PORT_ATA_PIO_DATA in
      read_words n' (o + 2) (<[(o + 1)%nat := u8 (Z.shiftr dat 8)]> (<[o := Z.land dat 255]> buff)) d
  end.
Fixpoint write_words (n : nat) (o : nat) (buff : list Z) (d : D) : D :=
  match n with
  | O => d
  | S n' =>
      let dat := Z.lor (default 0 (buff !! o)) (Z.shiftl (default 0 (buff !! (o + 1)%nat)) 8) in
      write_words n' (o + 2) buff (port_outw d PORT_ATA_PIO_DATA dat)
  end.

Fixpoint transfer_sectors (read_op : bool) (n : nat) (o : nat) (buff : list Z) (d : D) :
  outcome (ATA_PIO_ERR * list Z * D) :=
  match n with
  | O => Ret (ERR_ATA_PIO_SUCCESS, buff, d)
  | S n' =>
      let '(buff, d) := if read_op then read_words 256 o buff d else (buff, write_words 256 o buff d) in
      '(err, d) ← wait_until_data_ready d;
      if bool_decide (err <> ERR_ATA_PIO_SUCCESS) then Ret (err, buff, d)
      else transfer_sectors read_op n' (o + 512) buff d
  end.

Definition issue_access (read_op : bool) (lba sector_cnt : Z) (d : D) : D :=
  let d := wait_400ns (port_outb d PORT_ATA_PIO_DRIVE (Z.lor 224 (Z.land (Z.shiftr lba 24) 15))) in
  let d := port_outb d PORT_ATA_PIO_FEATURE 0 in
  let d := port_outb d PORT_ATA_PIO_SECTOR_COUNT (u8 sector_cnt) in
  let d := port_outb d PORT_ATA_PIO_LBA_LO (Z.land lba 255) in
  let d := port_outb d PORT_ATA_PIO_LBA_MI (Z.land (Z.shiftr lba 8) 255) in
  let d := port_outb d PORT_ATA_PIO_LBA_HI (Z.land (Z.shiftr lba 16) 255) in
  port_outb d PORT_ATA_PIO_COMM (if read_op then ATA_PIO_CMD_READ_SECTORS else ATA_PIO_CMD_WRITE_SECTORS).

(** The buffer must have 512 bytes for each sector. *)
Definition ata_pio_LBA28_access (s : ata) (read_op : bool) (lba sector_cnt : Z) (buff : list Z) :
  outcome (ATA_PIO_ERR * list Z * ata) :=
  if negb (LBA28_mode s) then Ret (ERR_ATA_PIO_METHOD_NOT_AVAILABLE, buff, s)
  else if sector_cnt =? 0 then Ret (ERR_ATA_PIO_INVALID_PARAMS, buff, s)
  else if Z.of_nat (length buff) <? sector_cnt * 512 then Fault
  else if ata_lock s then Spin
  else
    '(_, d) ← wait_until_not_busy (port_outb (dev s) PORT_ATA_PIO_DEV_CTRL 2);
    '(err, d) ← wait_ata true (issue_access read_op lba sector_cnt d);
    if bool_decide (err <> ERR_ATA_PIO_SUCCESS) then Ret (err, buff, with_dev d s)
    else
      '(err, buff, d) ← transfer_sectors read_op (Z.to_nat sector_cnt) 0 buff d;
      if bool_decide (err <> ERR_ATA_PIO_SUCCESS) then Ret (err, buff, with_dev d s)
      else
        let d := if read_op then d else port_outb d PORT_ATA_PIO_COMM ATA_PIO_CMD_CACHE_FLUSH in
        '(_, d) ← wait_ata false d;
        Ret (ERR_ATA_PIO_SUCCESS, buff, with_dev d s).

(** [words] collects the 256 words IDENTIFY answers with. *)
Fixpoint identify_words (n : nat) (d : D) : list Z * D :=
  match n with
  | O => ([], d)
  | S n' => let '(w, d) := port_inw d PORT_ATA_PIO_DATA in let '(ws, d) := identify_words n' d in (w :: ws, d)
  end.

Definition ata_pio_init (s : ata) : outcome (ATA_PIO_ERR * list Z * ata) :=
  let '(stat, d) := port_inb (dev s) PORT_ATA_PIO_STAT in
  if stat =? 255 then Ret (ERR_ATA_PIO_NO_DEV, [], with_dev d s)
  else
    d ← software_reset d;
    '(dev_err, d) ← ata_pio_identify d;
    if bool_decide (dev_err <> ERR_ATA_PIO_SUCCESS) then Ret (dev_err, [], with_dev d s)
    else
      '(err, d) ← wait_ata true d;
      if bool_decide (err <> ERR_ATA_PIO_SUCCESS) then Ret (err, [], with_dev d s)
      else
        let '(buff, d) := identify_words 256 d in
        let total := u32 (Z.lor (default 0 (buff !! 60%nat)) (Z.shiftl (default 0 (buff !! 61%nat)) 16)) in
        Ret (ERR_ATA_PIO_SUCCESS, buff, Ata (negb (total =? 0)) total (ata_lock s) d).
End ata.
Arguments ata D : clear implicits.

(** ** What a drive does

    The task-file registers, and the phases of a command.  [DataIn lba n i]: the
    drive is giving the sector [lba], [n] sectors are left with it, [i] words of
    it are gone; [DataOut lba n l]: it is taking sector [lba] and has got the
    bytes [l]. *)
Record regs := Regs { r_count : Z; r_lo : Z; r_mi : Z; r_hi : Z; r_drive : Z }.
Definition lba_of (r : regs) : Z := r_lo r + 2 ^ 8 * r_mi r + 2 ^ 16 * r_hi r + 2 ^ 24 * (r_drive r - 224).
Definition count_of (r : regs) : Z := if r_count r =? 0 then 256 else r_count r.

Inductive phase :=
  | Ready (r : regs)
  | DataIn (lba n : Z) (i : nat)
  | DataOut (lba n : Z) (l : list Z).
Definition wants_data (p : phase) : bool := match p with Ready _ => false | _ => true end.

(** [drives d c p k]: behind the ports is a drive with content [c] in phase [p],
    which goes on to say that it is busy for [k] more looks at its status. *)
Class AtaDrive (D : Type) `{Ports D} := {
  capacity : Z;
  capacity_lba28 : capacity <= 2 ^ 28;
  drives : D -> mem -> phase -> nat -> Prop;
  busy_ends : forall d c p k, drives d c p k -> Z.of_nat k < 2 ^ 31;
  alt_status : forall d c p k, drives d c p k -> drives (port_inb d PORT_ATA_PIO_ALT_STAT).2 c p (pred k);
  status : forall d c p k, drives d c p k ->
    let '(stat, d') := port_inb d PORT_ATA_PIO_STAT in
    drives d' c p (pred k) /\ bit_set stat ATA_PIO_STAT_BSY = (0 <? Z.of_nat k) /\
    (k = 0%nat -> bit_set stat ATA_PIO_STAT_DRQ = wants_data p /\ status_error stat = ERR_ATA_PIO_SUCCESS);
  out_dev_ctrl : forall d c r k, drives d c (Ready r) k -> drives (port_outb d PORT_ATA_PIO_DEV_CTRL 2) c (Ready r) k;
  out_drive : forall d c r v, drives d c (Ready r) 0 -> 224 <= v < 240 ->
    drives (port_outb d PORT_ATA_PIO_DRIVE v) c (Ready (Regs (r_count r) (r_lo r) (r_mi r) (r_hi r) v)) 0;
  out_feature : forall d c r v, drives d c (Ready r) 0 -> drives (port_outb d PORT_ATA_PIO_FEATURE v) c (Ready r) 0;
  out_count : forall d c r v, drives d c (Ready r) 0 -> 0 <= v < 256 ->
    drives (port_outb d PORT_ATA_PIO_SECTOR_COUNT v) c (Ready (Regs v (r_lo r) (r_mi r) (r_hi r) (r_drive r))) 0;
  out_lo : forall d c r v, drives d c (Ready r) 0 -> 0 <= v < 256 ->
    drives (port_outb d PORT_ATA_PIO_LBA_LO v) c (Ready (Regs (r_count r) v (r_mi r) (r_hi r) (r_drive r))) 0;
  out_mi : forall d c r v, drives d c (Ready r) 0 -> 0 <= v < 256 ->
    drives (port_outb d PORT_ATA_PIO_LBA_MI v) c (Ready (Regs (r_count r) (r_lo r) v (r_hi r) (r_drive r))) 0;
  out_hi : forall d c r v, drives d c (Ready r) 0 -> 0 <= v < 256 ->
    drives (port_outb d PORT_ATA_PIO_LBA_HI v) c (Ready (Regs (r_count r) (r_lo r) (r_mi r) v (r_drive r))) 0;
  command_read : forall d c r, drives d c (Ready r) 0 -> 224 <= r_drive r < 240 -> lba_of r + count_of r <= capacity ->
    exists k, drives (port_outb d PORT_ATA_PIO_COMM ATA_PIO_CMD_READ_SECTORS) c (DataIn (lba_of r) (count_of r) 0) k;
  command_write : forall d c r, drives d c (Ready r) 0 -> 224 <= r_drive r < 240 -> lba_of r + count_of r <= capacity ->
    exists k, drives (port_outb d PORT_ATA_PIO_COMM ATA_PIO_CMD_WRITE_SECTORS) c (DataOut (lba_of r) (count_of r) []) k;
  command_flush : forall d c r, drives d c (Ready r) 0 ->
    exists k, drives (port_outb d PORT_ATA_PIO_COMM ATA_PIO_CMD_CACHE_FLUSH) c (Ready r) k;
  data_in : forall d c lba n i, drives d c (DataIn lba n i) 0 -> (i < 256)%nat ->
    let '(w, d') := port_inw d PORT_ATA_PIO_DATA in
    let a := SECTOR * lba + 2 * Z.of_nat i in
    w = load8 c a + 2 ^ 8 * load8 c (a + 1) /\
    if decide (i < 255)%nat then drives d' c (DataIn lba n (i + 1)) 0
    else exists k, if n =? 1 then exists r, drives d' c (Ready r) k else drives d' c (DataIn (lba + 1) (n - 1) 0) k;
  data_out : forall d c lba n l w, drives d c (DataOut lba n l) 0 -> (length l < 512)%nat -> 0 <= w < 2 ^ 16 ->
    let l' := l ++ [w mod 2 ^ 8; w / 2 ^ 8] in
    let d' := port_outw d PORT_ATA_PIO_DATA w in
    if decide (length l < 510)%nat then drives d' c (DataOut lba n l') 0
    else exists k, if n =? 1 then exists r, drives d' (disk_write c lba l') (Ready r) k
                   else drives d' (disk_write c lba l') (DataOut (lba + 1) (n - 1) []) k;
}.

Section access.
Context {D : Type} `{AtaDrive D}.

Lemma wait_400ns_drives d c p k : drives d c p k -> exists k', drives (wait_400ns d) c p k' /\ (k = 0%nat -> k' = 0%nat).
Proof.
  intros Hd. unfold wait_400ns. exists (pred (pred (pred (pred k)))).
  split; [repeat apply alt_status; assumption|lia].
Qed.

Lemma wait_400ns_ready d c p : drives d c p 0 -> drives (wait_400ns d) c p 0.
Proof. intros Hd. unfold wait_400ns. do 4 apply alt_status in Hd. exact Hd. Qed.

Lemma poll_done mask p : bit_set mask ATA_PIO_STAT_BSY = true ->
  (forall stat, bit_set stat mask = bit_set stat ATA_PIO_STAT_BSY || (bit_set mask ATA_PIO_STAT_DRQ && bit_set stat ATA_PIO_STAT_DRQ)) ->
  bit_set mask ATA_PIO_STAT_DRQ && wants_data p = false -> forall k d c, drives d c p k ->
  exists stat d', while (poll_step mask) d = Ret (stat, d') /\ drives d' c p 0 /\ status_error stat = ERR_ATA_PIO_SUCCESS.
Proof.
  intros HB HM HW k d c Hd. pose proof (busy_ends _ _ _ _ Hd) as Hk.
  enough (E : exists stat d', loop (poll_step mask) (S k) d = Ret (stat, d') /\ drives d' c p 0 /\ status_error stat = ERR_ATA_PIO_SUCCESS).
  { destruct E as (stat & d' & E & ?). exists stat, d'. split; [|assumption]. eapply while_loop; [exact E|congruence|lia]. }
  clear Hk. revert d Hd. induction k as [|k IH]; intros d Hd; rewrite loop_S; unfold poll_step at 2;
    pose proof (status _ _ _ _ Hd) as Hs; destruct (port_inb d PORT_ATA_PIO_STAT) as [stat d'];
    destruct Hs as (Hd' & Hb & Hz); rewrite HM, Hb.
  - destruct Hz as [Hq He]; [reflexivity|]. exists stat, d'. rewrite Hq, HW. auto.
  - apply IH. exact Hd'.
Qed.

Lemma bit_set_lor stat a b : bit_set stat (Z.lor a b) = bit_set stat a || bit_set stat b.
Proof.
  unfold bit_set. rewrite Z.land_lor_distr_r.
  destruct (Z.eqb_spec (Z.lor (Z.land stat a) (Z.land stat b)) 0) as [E|E].
  - apply Z.lor_eq_0_iff in E as [-> ->]. reflexivity.
  - destruct (Z.eqb_spec (Z.land stat a) 0) as [Ea|], (Z.eqb_spec (Z.land stat b) 0) as [Eb|]; try reflexivity.
    rewrite Ea, Eb in E. now elim E.
Qed.

Lemma wait_until_not_busy_drives d c p k : drives d c p k ->
  exists stat d', wait_until_not_busy d = Ret (stat, d') /\ drives d' c p 0.
Proof.
  intros Hd. destruct (poll_done ATA_PIO_STAT_BSY p) with k d c as (stat & d' & ? & ? & ?); auto.
  - intros stat. cbn. now rewrite orb_false_r.
  - exists stat, d'. auto.
Qed.

Lemma wait_ata_drives b d c p k : drives d c p k ->
  exists d', wait_ata b d = Ret (ERR_ATA_PIO_SUCCESS, d') /\ drives d' c p 0.
Proof.
  intros Hd. destruct (wait_400ns_drives _ _ _ _ Hd) as (k' & Hd' & _).
  destruct (wait_until_not_busy_drives _ _ _ _ Hd') as (stat & d1 & E & Hd1).
  unfold wait_ata. rewrite E, bind_ret. destruct b; [|eauto].
  pose proof (status _ _ _ _ Hd1) as Hs. destruct (port_inb d1 PORT_ATA_PIO_STAT) as [s2 d2].
  destruct Hs as (Hd2 & _ & Hz). destruct Hz as [_ ->]; [reflexivity|]. eauto.
Qed.

Lemma wait_until_data_ready_drives d c r k : drives d c (Ready r) k ->
  exists d', wait_until_data_ready d = Ret (ERR_ATA_PIO_SUCCESS, d') /\ drives d' c (Ready r) 0.
Proof.
  intros Hd. destruct (poll_done (Z.lor ATA_PIO_STAT_BSY ATA_PIO_STAT_DRQ) (Ready r)) with k d c as (stat & d' & E & ? & Hs); auto.
  - intros stat. now rewrite bit_set_lor.
  - exists d'. unfold wait_until_data_ready. rewrite E, bind_ret, Hs. auto.
Qed.

(** The loop does not end while the drive wants to go on with the transfer. *)
Lemma wait_until_data_ready_hangs d c p k : drives d c p k -> wants_data p = true -> wait_until_data_ready d = NoFuel.
Proof.
  intros Hd Hp. unfold wait_until_data_ready. rewrite while_never; [reflexivity|].
  intros n. revert d k Hd. induction n as [|n IH]; intros d k Hd; [reflexivity|]. rewrite loop_S. unfold poll_step at 2.
  pose proof (status _ _ _ _ Hd) as Hs. destruct (port_inb d PORT_ATA_PIO_STAT) as [stat d'].
  destruct Hs as (Hd' & Hb & Hz). rewrite bit_set_lor, Hb. destruct k as [|k].
  - destruct Hz as [-> _]; [reflexivity|]. rewrite Hp. eapply IH, Hd'.
  - eapply IH, Hd'.
Qed.

(** ** Issuing a command *)

Lemma lba_bytes lba : 0 <= lba < 2 ^ 28 ->
  lba_of (Regs 0 (Z.land lba 255) (Z.land (Z.shiftr lba 8) 255) (Z.land (Z.shiftr lba 16) 255)
    (Z.lor 224 (Z.land (Z.shiftr lba 24) 15))) = lba /\ 224 <= Z.lor 224 (Z.land (Z.shiftr lba 24) 15) < 240.
Proof.
  intros Hl. change 255 with (Z.ones 8). change 15 with (Z.ones 4). rewrite !Z.land_ones, !Z.shiftr_div_pow2 by lia.
  assert (Hr : 0 <= lba / 2 ^ 24 < 16) by (split; [apply Z.div_pos|apply Z.div_lt_upper_bound]; lia).
  assert (Hd : Z.lor 224 ((lba / 2 ^ 24) mod 2 ^ 4) = 224 + lba / 2 ^ 24).
  { rewrite (Z.mod_small (lba / 2 ^ 24)) by lia.
    revert Hr. generalize (lba / 2 ^ 24). apply (forall_below 16 (fun k => Z.lor 224 k = 224 + k)). by_eval. }
  rewrite Hd. unfold lba_of. cbn [r_lo r_mi r_hi r_drive].
  pose proof (byte_split lba) as B. rewrite u32_small in B by lia. unfold u8 in B.
  rewrite (Z.mod_small (lba / 2 ^ 24)) in B by lia. lia.
Qed.

Definition transferring (read_op : bool) (lba n : Z) : phase := if read_op then DataIn lba n 0 else DataOut lba n [].

Lemma issue_access_drives read_op d c r lba n : drives d c (Ready r) 0 -> 0 <= lba -> 0 < n <= 256 -> lba + n <= capacity ->
  exists k, drives (issue_access read_op lba n d) c (transferring read_op lba n) k.
Proof.
  intros Hd Hl Hn Hc. pose proof capacity_lba28. destruct (lba_bytes lba) as [L V]; [lia|].
  unfold issue_access. set (v := Z.lor 224 _) in *.
  assert (Hd' := wait_400ns_ready _ _ _ (out_drive _ _ _ v Hd V)). revert Hd'.
  generalize (wait_400ns (port_outb d PORT_ATA_PIO_DRIVE v)). clear d Hd. intros d Hd'. cbv zeta. pose proof (u8_range n).
  assert (forall x, 0 <= Z.land x 255 < 256).
  { intros x. change 255 with (Z.ones 8). rewrite Z.land_ones by lia. apply Z.mod_pos_bound. lia. }
  apply (out_feature _ _ _ 0), (out_count _ _ _ (u8 n)), (out_lo _ _ _ (Z.land lba 255)),
    (out_mi _ _ _ (Z.land (Z.shiftr lba 8) 255)), (out_hi _ _ _ (Z.land (Z.shiftr lba 16) 255)) in Hd'; auto.
  cbn [r_count r_lo r_mi r_hi r_drive] in Hd'.
  assert (Cn : count_of (Regs (u8 n) 0 0 0 0) = n).
  { unfold count_of. cbn [r_count]. destruct (decide (n = 256)) as [->|]; [reflexivity|].
    rewrite u8_small by lia. destruct (Z.eqb_spec n 0); lia. }
  destruct read_op; [apply command_read in Hd'|apply command_write in Hd'];
    change (lba_of (Regs (u8 n) ?a ?b ?e v)) with (lba_of (Regs 0 a b e v)) in *;
    change (count_of (Regs (u8 n) ?a ?b ?e v)) with (count_of (Regs (u8 n) 0 0 0 0)) in *;
    rewrite ?L, ?Cn in *; auto.
Qed.

(** ** Transferring a sector *)

(** What follows the last word of a sector. *)
Definition after_sector (read_op : bool) (d : D) (c : mem) (lba n : Z) : Prop :=
  exists k, if n =? 1 then exists r, drives d c (Ready r) k
            else drives d c (transferring read_op (lba + 1) (n - 1)) k.

Lemma read_words_drives c lba m n : forall i buff d, (n + i = 256)%nat -> (0 < n)%nat ->
  drives d c (DataIn lba m i) 0 -> (512 <= length buff)%nat ->
  let '(buff', d') := read_words n (2 * i) buff d in
  (forall j, buff' !! j = if decide (2 * i <= j < 512)%nat then Some (load8 c (SECTOR * lba + Z.of_nat j)) else buff !! j) /\
  after_sector true d' c lba m.
Proof.
  induction n as [|n IH]; intros i buff d Hn H0n Hd Hb; [lia|]. cbn [read_words].
  pose proof (data_in _ _ _ _ _ Hd ltac:(lia)) as Hw. destruct (port_inw d PORT_ATA_PIO_DATA) as [w d'].
  destruct Hw as [Hw Hd'].
  set (a := SECTOR * lba + 2 * Z.of_nat i) in *.
  pose proof (load8_range c a) as Ra. pose proof (load8_range c (a + 1)) as Ra1.
  assert (Hlo : Z.land w 255 = load8 c a).
  { change 255 with (Z.ones 8). rewrite Z.land_ones, Hw by lia. rewrite Z.mul_comm, Z_mod_plus_full. apply Z.mod_small. lia. }
  assert (Hhi : u8 (Z.shiftr w 8) = load8 c (a + 1)).
  { rewrite Z.shiftr_div_pow2, Hw by lia. rewrite Z.mul_comm, Z.div_add, Z.div_small by lia. apply u8_small. lia. }
  rewrite Hlo, Hhi.
  assert (Hput : forall j, <[(2 * i + 1)%nat := load8 c (a + 1)]> (<[(2 * i)%nat := load8 c a]> buff) !! j =
    if decide (2 * i <= j < 2 * i + 2)%nat then Some (load8 c (SECTOR * lba + Z.of_nat j)) else buff !! j).
  { intros j. rewrite !list_lookup_insert, length_insert.
    destruct (decide (2 * i <= j < 2 * i + 2)%nat) as [Hj|Hj]; repeat case_decide; try lia; try reflexivity;
      f_equal; f_equal; subst a; lia. }
  destruct (decide (i < 255)%nat) as [Hi|Hi].
  - replace (2 * i + 2)%nat with (2 * (i + 1))%nat by lia.
    specialize (IH (i + 1)%nat (<[(2 * i + 1)%nat := load8 c (a + 1)]> (<[(2 * i)%nat := load8 c a]> buff)) d').
    destruct (read_words n _ _ d') as [buff' d2]. destruct IH as [Hl Ha]; [lia|lia|assumption|now rewrite !length_insert|].
    split; [|assumption]. intros j. rewrite Hl, Hput. repeat case_decide; try lia; reflexivity.
  - destruct n; [|lia]. cbn [read_words]. split; [|exact Hd'].
    intros j. rewrite Hput. repeat case_decide; try lia; reflexivity.
Qed.

Lemma write_words_drives c lba m n : forall i buff d, (n + i = 256)%nat -> (0 < n)%nat -> bytes_list buff ->
  drives d c (DataOut lba m (take (2 * i) buff)) 0 -> (512 <= length buff)%nat ->
  after_sector false (write_words n (2 * i) buff d) (disk_write c lba (take 512 buff)) lba m.
Proof.
  induction n as [|n IH]; intros i buff d Hn H0n B Hd Hb; [lia|]. cbn [write_words].
  destruct (lookup_lt_is_Some_2 buff (2 * i)) as [x Hx]; [lia|].
  destruct (lookup_lt_is_Some_2 buff (2 * i + 1)) as [y Hy]; [lia|]. rewrite Hx, Hy. cbn [from_option id].
  pose proof (Forall_lookup_1 _ _ _ _ B Hx). pose proof (Forall_lookup_1 _ _ _ _ B Hy). cbn beta in *.
  cbn [from_option id]; rewrite lor_shiftl by lia.
  pose proof (data_out _ _ _ _ _ (x + 2 ^ 8 * y) Hd) as Hw. rewrite length_take in Hw. cbv zeta in Hw.
  replace ((x + 2 ^ 8 * y) mod 2 ^ 8) with x in Hw by (rewrite Z.mul_comm, Z_mod_plus_full; now rewrite Z.mod_small by lia).
  replace ((x + 2 ^ 8 * y) / 2 ^ 8) with y in Hw by (rewrite Z.mul_comm, Z.div_add, Z.div_small by lia; lia).
  specialize (Hw ltac:(lia) ltac:(lia)).
  replace (take (2 * i) buff ++ [x; y]) with (take (2 * (i + 1)) buff) in Hw.
  2: { replace (2 * (i + 1))%nat with (S (S (2 * i))) by lia.
       replace (2 * i + 1)%nat with (S (2 * i)) in Hy by lia.
       rewrite (take_S_r _ _ _ Hy), (take_S_r _ _ _ Hx). now rewrite <- app_assoc. }
  case_decide.
  - replace (2 * i + 2)%nat with (2 * (i + 1))%nat by lia. apply IH; auto; lia.
  - destruct n; [|lia]. replace (2 * (i + 1))%nat with 512%nat in Hw by lia. exact Hw.
Qed.

(** ** Whole accesses *)

(** The driver is between two accesses: the mode is on, nobody holds the lock, the
    drive is ready. *)
Definition drive_ready (s : ata D) (c : mem) : Prop :=
  LBA28_mode s = true /\ ata_lock s = false /\ exists r k, drives (dev s) c (Ready r) k.

(** The driver up to the first word of the data. *)
Lemma access_start read_op s c lba n buff : drive_ready s c -> 0 <= lba -> 0 < n <= 256 -> lba + n <= capacity ->
  n * 512 <= Z.of_nat (length buff) ->
  exists d, drives d c (transferring read_op lba n) 0 /\
    ata_pio_LBA28_access s read_op lba n buff =
      '(err, buff, d) ← transfer_sectors read_op (Z.to_nat n) 0 buff d;
      if bool_decide (err <> ERR_ATA_PIO_SUCCESS) then Ret (err, buff, with_dev d s)
      else
        let d := if read_op then d else port_outb d PORT_ATA_PIO_COMM ATA_PIO_CMD_CACHE_FLUSH in
        '(_, d) ← wait_ata false d;
        Ret (ERR_ATA_PIO_SUCCESS, buff, with_dev d s).
Proof.
  intros (Hm & Hk & r & k & Hd) Hl Hn Hc Hb. unfold ata_pio_LBA28_access. rewrite Hm, Hk. cbn [negb].
  replace (n =? 0) with false by lia. replace (Z.of_nat (length buff) <? n * 512) with false by lia.
  destruct (wait_until_not_busy_drives _ _ _ _ (out_dev_ctrl _ _ _ _ Hd)) as (stat & d1 & -> & Hd1).
  destruct (issue_access_drives read_op _ _ _ lba n Hd1 Hl Hn Hc) as (k2 & Hd2).
  destruct (wait_ata_drives true _ _ _ _ Hd2) as (d3 & E3 & Hd3).
  exists d3. split; [exact Hd3|]. rewrite bind_ret, E3, bind_ret. rewrite bool_decide_eq_false_2 by auto. reflexivity.
Qed.

Lemma read_sector_ok (s : ata D) (c : mem) (lba : Z) (buff : list Z) :
  drive_ready s c -> 0 <= lba < capacity -> (512 <= length buff)%nat ->
  exists s', ata_pio_LBA28_access s true lba 1 buff = Ret (ERR_ATA_PIO_SUCCESS, disk_read c lba 1 ++ drop 512 buff, s') /\
    drive_ready s' c.
Proof.
  intros Hs Hl Hb. destruct (access_start true s c lba 1 buff) as (d & Hd & ->); auto; [lia..|].
  pose proof (read_words_drives c lba 1 256 0 buff d eq_refl ltac:(lia) Hd Hb) as Hw.
  change (Z.to_nat 1) with 1%nat. cbn [transfer_sectors]. change (2 * 0)%nat with 0%nat in Hw.
  destruct (read_words 256 0 buff d) as [buff' d']. destruct Hw as [Hj (k & r & Hd')].
  destruct (wait_until_data_ready_drives _ _ _ _ Hd') as (d2 & -> & Hd2).
  rewrite bind_ret. rewrite bool_decide_eq_false_2 by auto. rewrite bind_ret, bool_decide_eq_false_2 by auto.
  destruct (wait_ata_drives false _ _ _ _ Hd2) as (d3 & E3 & Hd3). cbv zeta. rewrite E3, bind_ret.
  exists (with_dev d3 s). split.
  - repeat f_equal. apply list_eq. intros j. rewrite Hj. pose proof (length_disk_read c lba 1) as HL.
    change (Z.to_nat (SECTOR * 1)) with 512%nat in HL. case_decide.
    + rewrite lookup_app_l by lia. rewrite lookup_disk_read; [reflexivity|unfold SECTOR; lia].
    + rewrite lookup_app_r, lookup_drop, HL by lia. f_equal. lia.
  - destruct Hs as (? & ? & _). split_and!; eauto.
Qed.

(** C13: reading one sector into a buffer puts the sector's 512 bytes at its start and
    leaves the rest of the buffer, the disk and the driver's state as they were, and the
    drive ready, however long the drive is busy in between. *)
Theorem access_read_sector (s : ata D) (c : mem) (lba : Z) (buff : list Z) :
  drive_ready s c -> 0 <= lba < capacity -> (512 <= length buff)%nat ->
  exists s', ata_pio_LBA28_access s true lba 1 buff = Ret (ERR_ATA_PIO_SUCCESS, disk_read c lba 1 ++ drop 512 buff, s') /\
    drive_ready s' c.
Proof. exact (read_sector_ok s c lba buff). Qed.

(** Writing one sector puts the first 512 bytes of the buffer there and nothing
    anywhere else, and leaves the buffer as it was and the drive ready. *)
Theorem access_write_sector (s : ata D) (c : mem) (lba : Z) (buff : list Z) :
  drive_ready s c -> 0 <= lba < capacity -> (512 <= length buff)%nat -> bytes_list buff ->
  exists s', ata_pio_LBA28_access s false lba 1 buff = Ret (ERR_ATA_PIO_SUCCESS, buff, s') /\
    drive_ready s' (disk_write c lba (take 512 buff)).
Proof.
  intros Hs Hl Hb B. destruct (access_start false s c lba 1 buff) as (d & Hd & ->); auto; [lia..|].
  destruct (write_words_drives c lba 1 256 0 buff d eq_refl ltac:(lia) B Hd Hb) as (k & r & Hd').
  change (Z.to_nat 1) with 1%nat. cbn [transfer_sectors]. change (2 * 0)%nat with 0%nat in Hd'.
  destruct (wait_until_data_ready_drives _ _ _ _ Hd') as (d2 & -> & Hd2).
  rewrite bind_ret. rewrite bool_decide_eq_false_2 by auto. rewrite bind_ret, bool_decide_eq_false_2 by auto.
  destruct (command_flush _ _ _ Hd2) as (k3 & Hf).
  destruct (wait_ata_drives false _ _ _ _ Hf) as (d3 & E3 & Hd3). cbv zeta. rewrite E3, bind_ret.
  exists (with_dev d3 s). split; [reflexivity|]. destruct Hs as (? & ? & _). split_and!; eauto.
Qed.

(** An access to more than one sector never returns: after the first one the drive
    asks for, or offers, the next, and wait_until_data_ready waits for it to stop. *)
Theorem access_many_hangs (s : ata D) (c : mem) (read_op : bool) (lba n : Z) (buff : list Z) :
  drive_ready s c -> 0 <= lba -> 1 < n <= 256 -> lba + n <= capacity -> n * 512 <= Z.of_nat (length buff) ->
  bytes_list buff -> ata_pio_LBA28_access s read_op lba n buff = NoFuel.
Proof.
  intros Hs Hl Hn Hc Hb B. destruct (access_start read_op s c lba n buff) as (d & Hd & ->); auto; [lia..|].
  destruct (Z.to_nat n) as [|m] eqn:E; [lia|]. cbn [transfer_sectors].
  destruct read_op; cbn [transferring] in Hd.
  - pose proof (read_words_drives c lba n 256 0 buff d eq_refl ltac:(lia) Hd ltac:(lia)) as Hw.
    change (2 * 0)%nat with 0%nat in Hw. destruct (read_words 256 0 buff d) as [buff' d'].
    destruct Hw as [_ (k & Hd')]. replace (n =? 1) with false in Hd' by lia.
    rewrite (wait_until_data_ready_hangs _ _ _ _ Hd'); reflexivity.
  - destruct (write_words_drives c lba n 256 0 buff d eq_refl ltac:(lia) B Hd ltac:(lia)) as (k & Hd').
    change (2 * 0)%nat with 0%nat in Hd'. replace (n =? 1) with false in Hd' by lia.
    rewrite (wait_until_data_ready_hangs _ _ _ _ Hd'); reflexivity.
Qed.
End access.

(** ** A drive

    The fastest drive there is: never busy. *)
Module Runs.
Record drive := Drive { content : mem; doing : phase }.

Definition ready_out (r : regs) (p v : Z) : regs :=
  if p =? PORT_ATA_PIO_SECTOR_COUNT then Regs v (r_lo r) (r_mi r) (r_hi r) (r_drive r)
  else if p =? PORT_ATA_PIO_LBA_LO then Regs (r_count r) v (r_mi r) (r_hi r) (r_drive r)
  else if p =? PORT_ATA_PIO_LBA_MI then Regs (r_count r) (r_lo r) v (r_hi r) (r_drive r)
  else if p =? PORT_ATA_PIO_LBA_HI then Regs (r_count r) (r_lo r) (r_mi r) v (r_drive r)
  else if p =? PORT_ATA_PIO_DRIVE then Regs (r_count r) (r_lo r) (r_mi r) (r_hi r) v
  else r.

Definition drive_outb (d : drive) (p v : Z) : drive :=
  match doing d with
  | Ready r =>
      Drive (content d)
        (if p =? PORT_ATA_PIO_COMM then
           if v =? ATA_PIO_CMD_READ_SECTORS then DataIn (lba_of r) (count_of r) 0
           else if v =? ATA_PIO_CMD_WRITE_SECTORS then DataOut (lba_of r) (count_of r) []
           else Ready r
         else Ready (ready_out r p v))
  | _ => d
  end.

Definition next_sector (read_op : bool) (lba n : Z) : phase :=
  if n =? 1 then Ready (Regs 0 0 0 0 224) else transferring read_op (lba + 1) (n - 1).

#[export] Instance drive_ports : Ports drive := {
  port_inb d p := (if wants_data (doing d) then 88 else 80, d);
  port_inw d p :=
    match doing d with
    | DataIn lba n i =>
        let a := SECTOR * lba + 2 * Z.of_nat i in
        (load8 (content d) a + 2 ^ 8 * load8 (content d) (a + 1),
         Drive (content d) (if decide (i < 255)%nat then DataIn lba n (i + 1) else next_sector true lba n))
    | _ => (0, d)
    end;
  port_outb := drive_outb;
  port_outw d p w :=
    match doing d with
    | DataOut lba n l =>
        let l' := l ++ [w mod 2 ^ 8; w / 2 ^ 8] in
        if decide (length l < 510)%nat then Drive (content d) (DataOut lba n l')
        else Drive (disk_write (content d) lba l') (next_sector false lba n)
    | _ => d
    end }.

#[export] Program Instance drive_ata : AtaDrive drive := {
  capacity := 2 ^ 28; drives d c p k := d = Drive c p /\ k = 0%nat }.
Solve Obligations with (try (cbn; intros; destruct_and?; subst; solve [lia | tauto | split; [reflexivity|lia]])).
Next Obligation. cbn. intros d c p k [-> ->]. destruct p; cbn; split_and!; auto. Qed.
Next Obligation. cbn. intros d c r [-> _] _ _. now exists 0%nat. Qed.
Next Obligation. cbn. intros d c r [-> _] _ _. now exists 0%nat. Qed.
Next Obligation. cbn. intros d c r [-> _]. now exists 0%nat. Qed.
Next Obligation.
  cbn. intros d c lba n i [-> _] Hi. cbn. split; [reflexivity|]. case_decide; [auto|].
  exists 0%nat. unfold next_sector, transferring. destruct (n =? 1); eauto.
Qed.
Next Obligation.
  cbn. intros d c lba n l w [-> _] Hl Hw. cbn. case_decide; [auto|].
  exists 0%nat. unfold next_sector, transferring. destruct (n =? 1); eauto.
Qed.

Definition platter : mem := put ∅ (512 * 70000 + 510) [85; 170].
Definition driver : ata drive := Ata true 100000 false (Drive platter (Ready (Regs 0 0 0 0 224))).

Lemma driver_ready : drive_ready driver platter.
Proof. split_and!; [reflexivity..|]. exists (Regs 0 0 0 0 224), 0%nat. split; reflexivity. Qed.

Lemma access_read_sector_witness :
  exists s', ata_pio_LBA28_access driver true 70000 1 (replicate 512 0) = Ret (ERR_ATA_PIO_SUCCESS, disk_read platter 70000 1 ++ [], s') /\
    drive_ready s' platter.
Proof. apply (access_read_sector driver platter 70000 (replicate 512 0)); [exact driver_ready|cbn; lia|rewrite length_replicate; lia]. Defined.

Lemma access_write_sector_witness :
  exists s', ata_pio_LBA28_access driver false 3 1 (replicate 512 7) = Ret (ERR_ATA_PIO_SUCCESS, replicate 512 7, s') /\
    drive_ready s' (disk_write platter 3 (take 512 (replicate 512 7))).
Proof.
  apply (access_write_sector driver platter 3 (replicate 512 7)); [exact driver_ready|cbn; lia|rewrite length_replicate; lia|].
  apply Forall_replicate. lia.
Defined.

Lemma access_many_hangs_witness : ata_pio_LBA28_access driver true 70000 2 (replicate 1024 0) = NoFuel.
Proof.
  apply (access_many_hangs driver platter true 70000 2 (replicate 1024 0));
    [exact driver_ready|lia|lia|cbn; lia|rewrite length_replicate; lia|apply Forall_replicate; lia].
Defined.
End Runs.
