(* ===== verification/Fat.v ===== *)
(** * FAT32: the volume (kernel/src/filesystem/fat32.c, include/fat_type.h)

    The tables of a FAT32 volume and the chains of clusters its files are made
    of.  A volume is what [fs_t] keeps of one (where it starts, its boot record,
    its file system information sector) and the disk.  The code looks at the
    result of no disk access, and the model is of a disk that carries out every one.
    The driver in the source does so for an access to one sector
    ([Ata.access_read_sector], [Ata.access_write_sector]) and never returns from one to
    more ([Ata.access_many_hangs]; for clusters, [FatDisk]); so what is shown of a volume holds with that driver
    where a cluster is one sector, and of larger clusters it says what the code of the
    file system does with a driver that returns.  Reading an array past its end or dividing
    by zero is a [Fault]. *)
From S2P Require Import Prelude Mem CString CTime Disk Fs.

Definition FAT_ATTR_READ_ONLY : Z := 1.
Definition FAT_ATTR_HIDDEN : Z := 2.
Definition FAT_ATTR_SYSTEM : Z := 4.
Definition FAT_ATTR_VOLUME_ID : Z := 8.
Definition FAT_ATTR_DIRECTORY : Z := 16.
Definition FAT_ATTR_ARCHIVE : Z := 32.
Definition FAT_EOC : Z := 268435448.
Definition FAT_BAD_CLUSTER : Z := 268435447.
Definition FAT_FREE_CLUSTER : Z := 0.

(** ** The boot record and the file system information sector *)

(** The fields of [fat32_bootrecord_t] the code reads. *)
Record fat32_bootrecord := Fat32Bootrecord {
  bytes_per_sector : Z;
  sectors_per_cluster : Z;
  reserved_sectors : Z;
  FATs : Z;
  total_sectors : Z;
  sectors_per_FAT_16 : Z;
  large_sector_count : Z;
  sectors_per_FAT : Z;
  rootdir_cluster : Z;
  fsinfo_sector : Z;
}.

Definition bootrec_of_bytes (l : list Z) : fat32_bootrecord :=
  Fat32Bootrecord (word16 l 11) (byte_at l 13) (word16 l 14) (byte_at l 16) (word16 l 19) (word16 l 22) (word32 l 32)
    (word32 l 36) (word32 l 44) (word16 l 48).

Record fat32_fsinfo := Fat32Fsinfo {
  lead_signature : Z;
  reserved1 : list Z;
  mid_signature : Z;
  free_cluster_count : Z;
  available_clusters_start : Z;
  reserved2 : list Z;
  trail_signature : Z;
}.

Definition fsinfo_of_bytes (l : list Z) : fat32_fsinfo :=
  Fat32Fsinfo (word32 l 0) (take 480 (drop 4 l)) (word32 l 484) (word32 l 488) (word32 l 492) (take 12 (drop 496 l)) (word32 l 508).
Definition bytes_of_fsinfo (f : fat32_fsinfo) : list Z :=
  le32 (lead_signature f) ++ reserved1 f ++ le32 (mid_signature f) ++ le32 (free_cluster_count f) ++
  le32 (available_clusters_start f) ++ reserved2 f ++ le32 (trail_signature f).
Definition set_free_cluster_count v f := Fat32Fsinfo (lead_signature f) (reserved1 f) (mid_signature f) v
  (available_clusters_start f) (reserved2 f) (trail_signature f).
Definition set_available_clusters_start v f := Fat32Fsinfo (lead_signature f) (reserved1 f) (mid_signature f)
  (free_cluster_count f) v (reserved2 f) (trail_signature f).

Record volume := Volume { LBA_start : Z; bootrec : fat32_bootrecord; fsinfo : fat32_fsinfo; disk : mem }.

Definition with_disk (c : mem) (v : volume) : volume := Volume (LBA_start v) (bootrec v) (fsinfo v) c.
Definition with_fsinfo (f : fat32_fsinfo) (v : volume) : volume := Volume (LBA_start v) (bootrec v) f (disk v).

(** ata_pio_LBA28_access of sectors of the partition: the driver sends the low 28
    bits of the address.  The access is taken to succeed; the driver of the source does
    for one sector only (see above). *)
Definition lba28 (x : Z) : Z := u32 x mod 2 ^ 28.
Definition read_sectors (v : volume) (sector n : Z) : list Z := disk_read (disk v) (lba28 (LBA_start v + sector)) n.
Definition write_sectors (v : volume) (sector : Z) (l : list Z) : volume :=
  with_disk (disk_write (disk v) (lba28 (LBA_start v + sector)) l) v.

Definition get_bootrec (LBA_start : Z) (c : mem) : fat32_bootrecord := bootrec_of_bytes (disk_read c (lba28 LBA_start) 1).
Definition get_fsinfo (LBA_start : Z) (b : fat32_bootrecord) (c : mem) : fat32_fsinfo :=
  fsinfo_of_bytes (disk_read c (lba28 (LBA_start + fsinfo_sector b)) 1).
Definition update_fsinfo (v : volume) : volume := write_sectors v (fsinfo_sector (bootrec v)) (bytes_of_fsinfo (fsinfo v)).

Definition get_total_sectors (b : fat32_bootrecord) : Z := if total_sectors b =? 0 then large_sector_count b else total_sectors b.
Definition get_FAT_size (b : fat32_bootrecord) : Z := if sectors_per_FAT_16 b =? 0 then sectors_per_FAT b else sectors_per_FAT_16 b.
Definition get_first_data_sector (b : fat32_bootrecord) : Z := u32 (reserved_sectors b + FATs b * get_FAT_size b).
Definition get_first_FAT_sector (b : fat32_bootrecord) : Z := reserved_sectors b.
Definition get_total_data_sectors (b : fat32_bootrecord) : Z := u32 (get_total_sectors b - get_first_data_sector b).
(** The divisor is zero in no boot record of a FAT32 volume. *)
Definition get_total_clusters (b : fat32_bootrecord) : Z := get_total_data_sectors b / sectors_per_cluster b.

(** [sectors_per_cluster * bytes_per_sector] *)
Definition cluster_size (b : fat32_bootrecord) : Z := u32 (sectors_per_cluster b * bytes_per_sector b).
(** [((cluster - 2) * sectors_per_cluster) + first_data_sector] *)
Definition first_sector (b : fat32_bootrecord) (cluster : Z) : Z :=
  u32 (u32 (u32 (cluster - 2) * sectors_per_cluster b) + get_first_data_sector b).

(** The buffers for a cluster hold [cluster_size] bytes, the driver transfers
    512 for each sector. *)
Definition read_cluster (v : volume) (cluster : Z) : list Z :=
  read_sectors v (first_sector (bootrec v) cluster) (sectors_per_cluster (bootrec v)).
Definition write_cluster (v : volume) (cluster : Z) (l : list Z) : volume :=
  write_sectors v (first_sector (bootrec v) cluster) l.

(** ** The allocation table *)

(** The sector of a cluster's entry, and where in it the entry is: a place inside
    the 512-byte buffer. *)
Definition FAT_place (b : fat32_bootrecord) (cluster : Z) : outcome (Z * Z) :=
  let FAT_offset := s32 (u32 (cluster * 4)) in
  if bytes_per_sector b =? 0 then Fault
  else
    let entry_offset := Z.rem FAT_offset (bytes_per_sector b) in
    if (entry_offset <? 0) || (508 <? entry_offset) then Fault
    else Ret (u32 (get_first_FAT_sector b + Z.quot FAT_offset (bytes_per_sector b)), entry_offset).

Definition set_FAT_entry (v : volume) (cluster val : Z) : outcome volume :=
  '(FAT_sector, entry_offset) ← FAT_place (bootrec v) cluster;
  let FAT := read_sectors v FAT_sector 1 in
  Ret (write_sectors v FAT_sector (splice FAT entry_offset (le32 val))).

Definition get_FAT_entry (v : volume) (cluster : Z) : outcome Z :=
  '(FAT_sector, entry_offset) ← FAT_place (bootrec v) cluster;
  let FAT := read_sectors v FAT_sector 1 in
  Ret (Z.land (word32 FAT entry_offset) 268435455).

Definition count_step (v : volume) '(i, free_count) : outcome ((Z * Z) + Z) :=
  if i <? u32 (get_total_clusters (bootrec v) + 2) then
    FAT_val ← get_FAT_entry v i;
    Ret (inl (u32 (i + 1), if FAT_val =? 0 then u32 (free_count + 1) else free_count))
  else Ret (inr free_count).
Definition count_free_cluster (v : volume) : outcome Z := while (count_step v) (2, 0).

(** ** Chains of clusters *)

Definition is_last (FAT_val : Z) : bool := FAT_EOC <=? FAT_val.

(** The loop of fat32_allocate_clusters: the cluster looked at, the first and the
    last one taken, how many are still wanted and free. *)
Definition allocate_step '(v, current, start, prev, count, free) :
  outcome ((volume * Z * Z * Z * Z * Z) + (volume * Z * Z * Z)) :=
  if count =? 0 then Ret (inr (v, u32 (current - 1), start, free))
  else
    FAT_val ← get_FAT_entry v current;
    if FAT_val =? FAT_FREE_CLUSTER then
      v ← (if start =? 0 then Ret v else set_FAT_entry v prev current);
      Ret (inl (v, u32 (current + 1), if start =? 0 then current else start, current, u32 (count - 1), u32 (free - 1)))
    else Ret (inl (v, u32 (current + 1), start, prev, count, free)).

(** [clear] makes the code read each new cluster into a buffer of its own, where
    it should write the buffer's zeros: it has no effect. *)
Definition fat32_allocate_clusters (v : volume) (cluster_count : Z) (clear : bool) : outcome (Z * volume) :=
  '(v, current_cluster, start_cluster, free) ←
    while allocate_step (v, available_clusters_start (fsinfo v), 0, 0, cluster_count, free_cluster_count (fsinfo v));
  if start_cluster =? 0 then Ret (0, v)
  else
    v ← set_FAT_entry v current_cluster FAT_EOC;
    let v := with_fsinfo (set_free_cluster_count free (set_available_clusters_start current_cluster (fsinfo v))) v in
    Ret (start_cluster, update_fsinfo v).

Definition expand_cluster_chain (v : volume) (end_cluster cluster_count : Z) (clear : bool) : outcome (Z * volume) :=
  '(new_chain, v) ← fat32_allocate_clusters v cluster_count clear;
  if new_chain =? 0 then Ret (0, v)
  else v ← set_FAT_entry v end_cluster new_chain; Ret (new_chain, v).

Definition free_step '(v, current, free) : outcome ((volume * Z * Z) + (volume * Z * Z)) :=
  if (current <? FAT_EOC) && negb (current =? FAT_BAD_CLUSTER) then
    FAT_val ← get_FAT_entry v current;
    v ← set_FAT_entry v current FAT_FREE_CLUSTER;
    Ret (inl (v, FAT_val, u32 (free + 1)))
  else Ret (inr (v, current, free)).

Definition free_cluster_chain (v : volume) (start_cluster : Z) : outcome (FS_ERR * volume) :=
  '(v, current, free) ← while free_step (v, start_cluster, free_cluster_count (fsinfo v));
  if current =? FAT_BAD_CLUSTER then Ret (ERR_FS_BAD_CLUSTER, v)
  else
    let f := if start_cluster <? available_clusters_start (fsinfo v)
             then set_available_clusters_start start_cluster (fsinfo v) else fsinfo v in
    Ret (ERR_FS_SUCCESS, update_fsinfo (with_fsinfo (set_free_cluster_count free f) v)).

Definition cut_cluster_chain (v : volume) (start_cluster : Z) : outcome (FS_ERR * volume) :=
  FAT_val ← get_FAT_entry v start_cluster;
  if is_last FAT_val then Ret (ERR_FS_SUCCESS, v)
  else if FAT_val =? FAT_BAD_CLUSTER then Ret (ERR_FS_BAD_CLUSTER, v)
  else
    '(err, v) ← free_cluster_chain v FAT_val;
    if failed err then Ret (err, v)
    else v ← set_FAT_entry v start_cluster FAT_EOC; Ret (ERR_FS_SUCCESS, v).

Definition copy_step '(v, current, copied) : outcome ((volume * Z * Z) + volume) :=
  let v := write_cluster v copied (read_cluster v current) in
  current ← get_FAT_entry v current;
  if is_last current || (current =? FAT_BAD_CLUSTER) then Ret (inr v)
  else '(copied, v) ← expand_cluster_chain v copied 1 false; Ret (inl (v, current, copied)).

Definition copy_cluster_chain (v : volume) (start_cluster : Z) : outcome (Z * volume) :=
  '(copied, v) ← fat32_allocate_clusters v 1 false;
  if copied =? 0 then Ret (0, v)
  else v ← while copy_step (v, start_cluster, copied); Ret (copied, v).

Definition last_step (v : volume) '(current, FAT_val) : outcome ((Z * Z) + Z) :=
  if (FAT_val <? FAT_EOC) && negb (FAT_val =? FAT_BAD_CLUSTER)
  then next ← get_FAT_entry v FAT_val; Ret (inl (FAT_val, next))
  else Ret (inr current).
Definition fat32_get_last_cluster_of_chain (v : volume) (start_cluster : Z) : outcome Z :=
  FAT_val ← get_FAT_entry v start_cluster; while (last_step v) (start_cluster, FAT_val).
