(* ===== verification/FatChain.v ===== *)
(** * FAT32: chains of clusters

    The allocation table as a function from clusters to entries ([fat]), and what
    the operations of [Fat] on chains do to it: on a volume whose tables have the
    shape the format asks for ([good]), each is a change of that function and
    leaves every byte outside the table and the information sector alone
    ([frame]). *)
From S2P Require Import Prelude Mem CString Disk Fs Fat.

Definition entry_mask : Z := 268435455.

(** Clusters are numbered from 2. *)
Definition entries (v : volume) : Z := get_total_clusters (bootrec v) + 2.
Definition fat_base (v : volume) : Z := SECTOR * (LBA_start v + reserved_sectors (bootrec v)).
Definition fsinfo_base (v : volume) : Z := SECTOR * (LBA_start v + fsinfo_sector (bootrec v)).
Definition fat (v : volume) (k : Z) : Z := Z.land (load32 (disk v) (fat_base v + 4 * k)) entry_mask.

(** The first sector of a cluster's data. *)
Definition data_sector (v : volume) (k : Z) : Z :=
  LBA_start v + get_first_data_sector (bootrec v) + (k - 2) * sectors_per_cluster (bootrec v).

(** The format: sectors of 512 bytes, a power of two of them in a cluster; the information sector before the table, the
    table before the data; everything within the addresses the driver can send. *)
Record good (v : volume) : Prop := {
  good_sector : bytes_per_sector (bootrec v) = SECTOR;
  good_cluster : 1 <= sectors_per_cluster (bootrec v) <= 128;
  good_power : exists k, 0 <= k /\ sectors_per_cluster (bootrec v) = 2 ^ k;
  good_start : 0 <= LBA_start v;
  good_fsinfo : 0 <= fsinfo_sector (bootrec v) < reserved_sectors (bootrec v);
  good_table : 2 < entries v < FAT_BAD_CLUSTER /\ reserved_sectors (bootrec v) * 128 + entries v <= get_first_data_sector (bootrec v) * 128;
  good_end : LBA_start v + get_first_data_sector (bootrec v) + get_total_clusters (bootrec v) * sectors_per_cluster (bootrec v) <= 2 ^ 28;
  good_reserved1 : length (reserved1 (fsinfo v)) = 480%nat /\ length (reserved2 (fsinfo v)) = 12%nat;
}.

(** An address that belongs neither to the table nor to the information sector. *)
Definition outside (v : volume) (a : Z) : Prop :=
  ~ (fat_base v <= a < fat_base v + 4 * entries v) /\ ~ (fsinfo_base v <= a < fsinfo_base v + SECTOR).

Record frame (v v' : volume) : Prop := {
  frame_start : LBA_start v' = LBA_start v;
  frame_bootrec : bootrec v' = bootrec v;
  frame_reserved : length (reserved1 (fsinfo v')) = length (reserved1 (fsinfo v)) /\ length (reserved2 (fsinfo v')) = length (reserved2 (fsinfo v));
  frame_bytes : forall a, outside v a -> load8 (disk v') a = load8 (disk v) a;
}.

#[export] Instance frame_preorder : PreOrder frame.
Proof.
  split; [intros v; split; auto|]. intros v1 v2 v3 [S1 B1 [R1 R1'] F1] [S2 B2 [R2 R2'] F2].
  split; try congruence; [split; congruence|]. intros a Ha. rewrite F2; [auto|].
  unfold outside, fat_base, fsinfo_base, entries in *. now rewrite S1, B1.
Qed.

Lemma good_frame v v' : good v -> frame v v' -> good v'.
Proof.
  intros [] [S B [R R'] _]. split; unfold entries in *; rewrite ?S, ?B, ?R, ?R'; auto.
Qed.

Lemma entries_frame v v' : frame v v' -> entries v' = entries v.
Proof. intros [_ B _ _]. unfold entries. now rewrite B. Qed.

Section table.
Context (v : volume) (G : good v).

Lemma lba28_small x : 0 <= x < 2 ^ 28 -> lba28 x = x.
Proof. intros. unfold lba28. rewrite u32_small by lia. apply Z.mod_small. lia. Qed.

Lemma FAT_place_spec k : 0 <= k < entries v ->
  FAT_place (bootrec v) k = Ret (reserved_sectors (bootrec v) + k / 128, 4 * (k mod 128)).
Proof.
  intros Hk. destruct G as [Hs _ _ _ _ [Ht1 Ht2] He _]. unfold FAT_BAD_CLUSTER in *. unfold FAT_place, get_first_FAT_sector. rewrite Hs.
  rewrite u32_small, s32_small by lia. unfold SECTOR. cbn [Z.eqb].
  rewrite Z.rem_mod_nonneg, Z.quot_div_nonneg by lia.
  replace (k * 4) with (4 * k) by lia. change 512 with (4 * 128).
  rewrite Z.mul_mod_distr_l, Z.div_mul_cancel_l by lia.
  pose proof (Z.mod_pos_bound k 128). replace ((4 * (k mod 128) <? 0) || (508 <? 4 * (k mod 128))) with false by lia.
  repeat f_equal. apply u32_small. pose proof (good_start v G). pose proof (good_fsinfo v G).
  assert (0 <= k / 128) by (apply Z.div_pos; lia). assert (128 * (k / 128) <= k) by (apply Z.mul_div_le; lia).
  assert (0 <= get_total_clusters (bootrec v) * sectors_per_cluster (bootrec v)); [|lia].
  apply Z.mul_nonneg_nonneg; unfold entries in *; [lia|]. pose proof (good_cluster v G). lia.
Qed.

(** The table's sectors are within reach, before the data. *)
Lemma table_sector k : 0 <= k < entries v ->
  0 <= LBA_start v + (reserved_sectors (bootrec v) + k / 128) < 2 ^ 28 /\
  SECTOR * (LBA_start v + (reserved_sectors (bootrec v) + k / 128)) + 4 * (k mod 128) = fat_base v + 4 * k.
Proof.
  intros Hk. destruct G as [Hs Hc _ H0 Hf [Ht1 Ht2] He _].
  assert (0 <= k / 128) by (apply Z.div_pos; lia). assert (128 * (k / 128) <= k) by (apply Z.mul_div_le; lia).
  assert (0 <= get_total_clusters (bootrec v) * sectors_per_cluster (bootrec v)).
  { apply Z.mul_nonneg_nonneg; unfold entries in *; lia. }
  split; [lia|]. unfold fat_base, SECTOR. pose proof (Z.div_mod k 128). lia.
Qed.

Lemma word32_disk_read c lba i : 0 <= i <= 508 -> word32 (disk_read c lba 1) i = load32 c (SECTOR * lba + i).
Proof.
  intros Hi. unfold word32, word16, byte_at, load32. rewrite !disk_read_nth by (unfold SECTOR; lia).
  rewrite !Z2Nat.id by lia. replace (i + 2 + 1) with (i + 3) by lia. rewrite !Z.add_assoc. lia.
Qed.

Lemma get_FAT_entry_spec k : 0 <= k < entries v -> get_FAT_entry v k = Ret (fat v k).
Proof.
  intros Hk. unfold get_FAT_entry. rewrite FAT_place_spec by assumption. rewrite bind_ret. unfold fat, read_sectors.
  destruct (table_sector k Hk) as [R E]. rewrite lba28_small by assumption.
  pose proof (Z.mod_pos_bound k 128). rewrite word32_disk_read by lia. now rewrite E.
Qed.

Lemma byte_at_le32 w i : 0 <= i < 4 -> byte_at (le32 w) i = load8 (store32 ∅ 0 w) i.
Proof.
  intros. unfold store32. rewrite !load8_store8.
  assert (i = 0 \/ i = 1 \/ i = 2 \/ i = 3) as [-> | [-> | [-> | -> ]]] by lia; cbn [Z.eqb Z.add Pos.eqb].
  1-3: reflexivity. change (byte_at (le32 w) 3) with (u8 (w / 2 ^ 16 / 2 ^ 8)). rewrite Z.div_div by lia. reflexivity.
Qed.

(** Writing an entry back with its sector is a store of four bytes. *)
Lemma set_FAT_entry_bytes k val : 0 <= k < entries v ->
  exists c, set_FAT_entry v k val = Ret (with_disk c v) /\
    forall a, load8 c a = load8 (store32 (disk v) (fat_base v + 4 * k) val) a.
Proof.
  intros Hk. unfold set_FAT_entry. rewrite FAT_place_spec by assumption. rewrite bind_ret.
  destruct (table_sector k Hk) as [R E]. unfold write_sectors, read_sectors. rewrite lba28_small by assumption.
  eexists. split; [reflexivity|]. intros a. set (b := fat_base v + 4 * k) in *.
  set (lba := LBA_start v + (reserved_sectors (bootrec v) + k / 128)) in *.
  pose proof (Z.mod_pos_bound k 128). set (o := 4 * (k mod 128)) in *.
  assert (L : Z.of_nat (length (disk_read (disk v) lba 1)) = SECTOR) by now rewrite length_disk_read.
  unfold SECTOR in L. unfold disk_write. rewrite load8_put, length_splice by (cbn; lia).
  case_decide as Ha.
  - assert (B : bytes_list (splice (disk_read (disk v) lba 1) o (le32 val))).
    { apply bytes_list_splice; [apply disk_read_bytes|apply le32_bytes]. }
    rewrite bytes_list_nth by assumption.
    change (default 0 (?l !! Z.to_nat ?i)) with (byte_at l i). rewrite byte_at_splice by (cbn; lia). change (Z.of_nat (length (le32 val))) with 4.
    case_decide as Hb.
    + rewrite byte_at_le32 by lia. unfold store32. rewrite !load8_store8. replace (a - SECTOR * lba - o) with (a - b) by lia.
      replace (b =? a) with (0 =? a - b) by lia. replace (b + 1 =? a) with (0 + 1 =? a - b) by lia.
      replace (b + 2 =? a) with (0 + 2 =? a - b) by lia. replace (b + 3 =? a) with (0 + 3 =? a - b) by lia.
      repeat case_match; try reflexivity. lia.
    + unfold byte_at. rewrite disk_read_nth by (unfold SECTOR in *; lia). rewrite Z2Nat.id by lia.
      rewrite load8_store32_ne by lia. f_equal. lia.
  - rewrite load8_store32_ne; [reflexivity|]. unfold SECTOR in *. lia.
Qed.

Lemma load32_ext c c' a : (forall i, a <= i < a + 4 -> load8 c' i = load8 c i) -> load32 c' a = load32 c a.
Proof. intros E. unfold load32. now rewrite !E by lia. Qed.

Lemma set_FAT_entry_spec k val : 0 <= k < entries v ->
  exists v', set_FAT_entry v k val = Ret v' /\ frame v v' /\ fsinfo v' = fsinfo v /\
    forall j, 0 <= j -> fat v' j = if j =? k then Z.land (u32 val) entry_mask else fat v j.
Proof.
  intros Hk. destruct (set_FAT_entry_bytes k val Hk) as (c & E & Hc). exists (with_disk c v). rewrite E.
  split_and!; [reflexivity| |reflexivity|].
  - split; [reflexivity..|auto|]. intros a [Ho _]. cbn [with_disk disk]. rewrite Hc, load8_store32_ne by lia. reflexivity.
  - intros j Hj. unfold fat. change (fat_base (with_disk c v)) with (fat_base v). cbn [with_disk disk].
    rewrite (load32_ext (store32 (disk v) (fat_base v + 4 * k) val)) by auto. destruct (Z.eqb_spec j k) as [->|].
    + now rewrite load32_store32.
    + now rewrite load32_store32_ne by lia.
Qed.

Lemma length_bytes_of_fsinfo : length (bytes_of_fsinfo (fsinfo v)) = 512%nat.
Proof.
  unfold bytes_of_fsinfo. rewrite !length_app. destruct (good_reserved1 v G) as [-> ->]. reflexivity.
Qed.

Lemma update_fsinfo_spec : frame v (update_fsinfo v) /\ fsinfo (update_fsinfo v) = fsinfo v /\
  (forall j, 0 <= j -> fat (update_fsinfo v) j = fat v j) /\
  forall a, ~ (fsinfo_base v <= a < fsinfo_base v + SECTOR) -> load8 (disk (update_fsinfo v)) a = load8 (disk v) a.
Proof.
  assert (W : forall a, ~ (fsinfo_base v <= a < fsinfo_base v + SECTOR) -> load8 (disk (update_fsinfo v)) a = load8 (disk v) a).
  { intros a Ha. unfold update_fsinfo, write_sectors. cbn [with_disk disk]. destruct G as [Hs Hc _ H0 Hf [Ht1 Ht2] He _].
    assert (0 <= get_total_clusters (bootrec v) * sectors_per_cluster (bootrec v)).
    { apply Z.mul_nonneg_nonneg; unfold entries in *; lia. }
    rewrite lba28_small by lia. unfold disk_write. rewrite load8_put, length_bytes_of_fsinfo.
    rewrite decide_False; [reflexivity|]. unfold fsinfo_base, SECTOR in *. lia. }
  split_and!; [|reflexivity| |exact W].
  - split; [reflexivity..|auto|]. intros a [_ Ha]. auto.
  - intros j Hj. unfold fat. change (fat_base (update_fsinfo v)) with (fat_base v). f_equal. apply load32_ext.
    intros i Hi. apply W. destruct G. unfold fat_base, fsinfo_base, SECTOR in *. lia.
Qed.
End table.

(** ** Chains *)

(** Each cluster's entry is the next one. *)
Fixpoint path (f : Z -> Z) (l : list Z) : Prop :=
  match l with
  | k :: t => match t with k' :: _ => f k = k' | [] => True end /\ path f t
  | [] => True
  end.

Lemma path_prefix f l m : path f (l ++ m) -> path f l.
Proof.
  induction l as [|k t IH]; intros P; [exact I|]. destruct P as [P1 P2]. split; [|apply IH, P2]. destruct t; [exact I|exact P1].
Qed.
Lemma path_suffix f l m : path f (l ++ m) -> path f m.
Proof. induction l as [|k t IH]; intros P; [exact P|]. apply IH, P. Qed.

Definition in_table (v : volume) (l : list Z) : Prop := Forall (fun k => 2 <= k < entries v) l.

(** [l] is the chain of clusters that starts at its head. *)
Record chain (v : volume) (l : list Z) : Prop := {
  chain_path : path (fat v) l;
  chain_last : exists k, last l = Some k /\ FAT_EOC <= fat v k;
  chain_table : in_table v l;
  chain_nodup : NoDup l;
}.

Definition head (l : list Z) : Z := default 0 (hd_error l).

Lemma path_ext f f' l : (forall k, k ∈ l -> f' k = f k) -> path f l -> path f' l.
Proof.
  induction l as [|k t IH]; intros E P; cbn in *; [auto|]. destruct P as [P1 P2]. split.
  - destruct t; [exact I|]. rewrite E by apply list_elem_of_here. exact P1.
  - apply IH; [|exact P2]. intros. apply E. now apply list_elem_of_further.
Qed.

Lemma path_app f l m : path f l -> path f m -> (forall k, last l = Some k -> m <> [] -> f k = head m) -> path f (l ++ m).
Proof.
  induction l as [|k t IH]; intros P Q E; cbn [app]; [exact Q|]. destruct P as [P1 P2]. cbn [path]. destruct t as [|k' t].
  - destruct m as [|x m]; cbn [app]; [split; auto|]. split; [|exact Q]. rewrite (E k); [reflexivity|reflexivity|discriminate].
  - split; [exact P1|]. apply IH; [exact P2|exact Q|]. intros j Hj Hm. apply E; auto.
Qed.

Lemma in_table_length v l : good v -> in_table v l -> NoDup l -> Z.of_nat (length l) < FAT_BAD_CLUSTER.
Proof.
  intros G T N. destruct (good_table v G) as [Ht _].
  assert (H : l ⊆+ seqZ 0 (entries v)).
  { apply NoDup_submseteq; [exact N|]. intros k Hk. apply elem_of_seqZ. eapply Forall_forall in T; [|exact Hk]. lia. }
  apply submseteq_length in H. rewrite length_seqZ in H. lia.
Qed.

Lemma chain_frame v v' l : chain v l -> frame v v' -> (forall k, k ∈ l -> fat v' k = fat v k) -> chain v' l.
Proof.
  intros [P [k [Hk E]] T N] F H. split; auto.
  - eapply path_ext; eauto.
  - exists k. rewrite H; auto. now apply last_Some_elem_of.
  - unfold in_table. now rewrite (entries_frame v v').
Qed.


Lemma fat_range v k : 0 <= fat v k < 2 ^ 28.
Proof.
  unfold fat, entry_mask. change 268435455 with (Z.ones 28). rewrite Z.land_ones by lia. apply Z.mod_pos_bound. lia.
Qed.

Lemma mask_small x : 0 <= x < 2 ^ 28 -> Z.land (u32 x) entry_mask = x.
Proof.
  intros. rewrite u32_small by lia. unfold entry_mask. change 268435455 with (Z.ones 28). rewrite Z.land_ones by lia.
  apply Z.mod_small. lia.
Qed.

(** *** The end of a chain *)

Lemma last_loop v k t : good v -> in_table v (k :: t) -> path (fat v) (k :: t) ->
  (exists e, last (k :: t) = Some e /\ FAT_EOC <= fat v e) ->
  loop (last_step v) (S (length t)) (k, fat v k) = Ret (default 0 (last (k :: t))).
Proof.
  intros G. revert k. induction t as [|k' t IH]; intros k T P E; rewrite loop_S; unfold last_step at 2.
  - destruct E as (e & [= <-] & E). replace (fat v k <? FAT_EOC) with false by lia. reflexivity.
  - destruct P as [-> P]. inversion_clear T as [|? ? Hk T']. pose proof (Forall_inv T') as Hk'. cbn beta in Hk'.
    destruct (good_table v G) as [Ht _]. unfold FAT_BAD_CLUSTER in Ht.
    replace ((k' <? FAT_EOC) && negb (k' =? FAT_BAD_CLUSTER)) with true by (unfold FAT_EOC, FAT_BAD_CLUSTER; lia).
    rewrite get_FAT_entry_spec by (auto; lia). rewrite !bind_ret. apply IH; auto.
Qed.

Lemma get_last_cluster_spec v k t : good v -> chain v (k :: t) ->
  fat32_get_last_cluster_of_chain v k = Ret (default 0 (last (k :: t))).
Proof.
  intros G [P E T N]. unfold fat32_get_last_cluster_of_chain. pose proof (Forall_inv T) as Hk. cbn beta in Hk.
  rewrite get_FAT_entry_spec, bind_ret by (auto; lia).
  pose proof (in_table_length v _ G T N) as L. unfold FAT_BAD_CLUSTER in L. cbn [length] in L.
  eapply while_loop; [apply last_loop; auto|congruence|lia].
Qed.

(** *** Releasing a chain *)

Lemma free_loop l : forall v free, good v -> in_table v l -> NoDup l -> path (fat v) l ->
  (exists e, last l = Some e /\ FAT_EOC <= fat v e) ->
  exists v' x, loop free_step (S (length l)) (v, head l, free) = Ret (v', x, u32 (free + Z.of_nat (length l))) /\
    frame v v' /\ fsinfo v' = fsinfo v /\ FAT_EOC <= x /\
    forall j, 0 <= j -> fat v' j = if bool_decide (j ∈ l) then 0 else fat v j.
Proof.
  induction l as [|k t IH]; intros v free G T N P E; [now destruct E as (? & ? & _)|].
  inversion_clear T as [|? ? Hk T']. inversion_clear N as [|? ? Hkt N']. destruct P as [P1 P2].
  destruct (good_table v G) as [Ht _]. unfold FAT_BAD_CLUSTER in Ht. rewrite loop_S. unfold free_step at 2. change (head (k :: t)) with k.
  replace ((k <? FAT_EOC) && negb (k =? FAT_BAD_CLUSTER)) with true by (unfold FAT_EOC, FAT_BAD_CLUSTER; lia).
  rewrite get_FAT_entry_spec, bind_ret by (auto; lia).
  destruct (set_FAT_entry_spec v G k FAT_FREE_CLUSTER ltac:(lia)) as (v1 & -> & F1 & I1 & U1). rewrite !bind_ret.
  change (Z.land (u32 FAT_FREE_CLUSTER) entry_mask) with 0 in U1.
  destruct t as [|k' t].
  - destruct E as (e & [= <-] & E). cbn [length]. rewrite loop_S. unfold free_step at 2.
    replace (fat v k <? FAT_EOC) with false by lia. cbn [andb]. rewrite bind_ret.
    exists v1, (fat v k). split_and!; auto. intros j Hj. rewrite U1 by assumption.
    destruct (Z.eqb_spec j k) as [->|]; [now rewrite bool_decide_eq_true_2 by apply list_elem_of_here|].
    rewrite bool_decide_eq_false_2; [reflexivity|]. now intros ->%list_elem_of_singleton.
  - rewrite P1. destruct (IH v1 (u32 (free + 1))) as (v' & x & L & F' & I' & X & U'); auto.
    + eapply good_frame; eauto.
    + unfold in_table. now rewrite (entries_frame v v1).
    + eapply path_ext; [|exact P2]. intros j Hj. eapply Forall_forall in T' as Hr; [|exact Hj]. cbn beta in Hr.
      rewrite U1 by lia. destruct (Z.eqb_spec j k) as [->|]; [contradiction|reflexivity].
    + destruct E as (e & He & E). exists e. split; [exact He|]. assert (e ∈ k' :: t) by (apply last_Some_elem_of; exact He).
      eapply Forall_forall in T' as Hr; [|eassumption]. cbn beta in Hr. rewrite U1 by lia.
      destruct (Z.eqb_spec e k) as [->|]; [contradiction|assumption].
    + exists v', x. split; [|split_and!].
      * change (head (k' :: t)) with k' in L. cbn [length] in L |- *. rewrite L. do 2 f_equal. unfold u32.
        rewrite Zplus_mod_idemp_l. f_equal. lia.
      * etransitivity; eauto.
      * congruence.
      * exact X.
      * intros j Hj. rewrite U' by assumption. destruct (bool_decide_reflect (j ∈ k' :: t)) as [Hin|Hin].
        -- now rewrite bool_decide_eq_true_2 by (apply list_elem_of_further; exact Hin).
        -- rewrite U1 by assumption. destruct (Z.eqb_spec j k) as [->|].
           ++ now rewrite bool_decide_eq_true_2 by apply list_elem_of_here.
           ++ rewrite bool_decide_eq_false_2; [reflexivity|]. intros [?|?]%elem_of_cons; contradiction.
Qed.

Lemma free_cluster_chain_spec v l : good v -> chain v l -> 
  exists v', free_cluster_chain v (head l) = Ret (ERR_FS_SUCCESS, v') /\ frame v v' /\
    fsinfo v' = set_free_cluster_count (u32 (free_cluster_count (fsinfo v) + Z.of_nat (length l)))
      (set_available_clusters_start (Z.min (head l) (available_clusters_start (fsinfo v))) (fsinfo v)) /\
    forall j, 0 <= j -> fat v' j = if bool_decide (j ∈ l) then 0 else fat v j.
Proof.
  intros G [P E T N]. pose proof (in_table_length v l G T N) as L. unfold FAT_BAD_CLUSTER in L.
  destruct (free_loop l v (free_cluster_count (fsinfo v)) G T N P E) as (v1 & x & W & F1 & I1 & X & U1).
  unfold free_cluster_chain. erewrite while_loop; [|exact W|congruence|lia]. rewrite bind_ret.
  replace (x =? FAT_BAD_CLUSTER) with false by (unfold FAT_EOC, FAT_BAD_CLUSTER in *; lia). rewrite I1.
  match goal with |- context [with_fsinfo ?F v1] => set (f := F) end.
  assert (Ef : f = set_free_cluster_count (u32 (free_cluster_count (fsinfo v) + Z.of_nat (length l)))
      (set_available_clusters_start (Z.min (head l) (available_clusters_start (fsinfo v))) (fsinfo v))).
  { subst f. f_equal. case_test; [now rewrite Z.min_l by lia|]. rewrite Z.min_r by lia. now destruct (fsinfo v). }
  assert (F2 : frame v (with_fsinfo f v1)).
  { destruct F1 as [A B [R R'] D]. split; auto. cbn [with_fsinfo fsinfo]. rewrite Ef. auto. }
  destruct (update_fsinfo_spec (with_fsinfo f v1)) as (F3 & I3 & U3 & _); [eapply good_frame; eauto|].
  eexists. split; [reflexivity|]. split_and!; [etransitivity; eauto|now rewrite I3|].
  intros j Hj. rewrite U3 by assumption. apply U1. assumption.
Qed.

(** *** Allocating a chain *)

(** The free clusters from [lo] on, in order. *)
Definition frees (v : volume) (lo : Z) : list Z := filter (fun k => fat v k = 0) (seqZ lo (entries v - lo)).

Lemma frees_cons v lo : lo < entries v -> fat v lo = 0 -> frees v lo = lo :: frees v (lo + 1).
Proof.
  intros. unfold frees. rewrite seqZ_cons by lia. rewrite filter_cons_True by assumption. do 3 f_equal; lia.
Qed.
Lemma frees_skip v lo : lo < entries v -> fat v lo <> 0 -> frees v lo = frees v (lo + 1).
Proof.
  intros. unfold frees. rewrite seqZ_cons by lia. rewrite filter_cons_False by assumption. do 2 f_equal; lia.
Qed.
Lemma frees_end v lo : entries v <= lo -> frees v lo = [].
Proof. intros. unfold frees. now rewrite seqZ_nil by lia. Qed.
Lemma elem_of_frees v lo k : k ∈ frees v lo <-> fat v k = 0 /\ lo <= k < entries v.
Proof. unfold frees. rewrite list_elem_of_filter, elem_of_seqZ. intuition lia. Qed.
Lemma filter_ext_in (P Q : Z -> Prop) `{forall x, Decision (P x)} `{forall x, Decision (Q x)} (l : list Z) :
  (forall x, x ∈ l -> P x <-> Q x) -> filter P l = filter Q l.
Proof.
  induction l as [|x l IH]; intros E; [reflexivity|]. rewrite !filter_cons, IH by (intros; apply E; now apply list_elem_of_further).
  pose proof (E x (list_elem_of_here _ _)). repeat case_decide; tauto.
Qed.
Lemma frees_ext v v' lo : entries v' = entries v -> (forall k, lo <= k -> fat v' k = fat v k) -> frees v' lo = frees v lo.
Proof.
  intros E H. unfold frees. rewrite E. apply filter_ext_in. intros x Hx%elem_of_seqZ. now rewrite H by lia.
Qed.

Lemma path_ext_last f f' t p : path f (t ++ [p]) -> (forall j, j ∈ t -> f' j = f j) -> path f' (t ++ [p]).
Proof.
  revert p. induction t as [|k t IH]; [cbn; auto|]. intros p [P1 P2] E. cbn [app path]. split.
  - destruct (t ++ [p]) eqn:Et; [exact I|]. rewrite E by apply list_elem_of_here. exact P1.
  - apply IH; [exact P2|]. intros. apply E. now apply list_elem_of_further.
Qed.

Lemma path_link f f' t p c : path f (t ++ [p]) -> (forall j, j ∈ t -> f' j = f j) -> f' p = c -> path f' (t ++ [p; c]).
Proof.
  intros P E Ec. change [p; c] with ([p] ++ [c]). rewrite app_assoc.
  apply path_app; [eapply path_ext_last; eauto|cbn; auto|]. intros k. rewrite last_snoc. intros [= <-] _. exact Ec.
Qed.

(** What the scan has taken so far: a path of clusters before the one it looks at. *)
Record taken (v : volume) (cur : Z) (tk : list Z) : Prop := {
  taken_path : path (fat v) tk;
  taken_range : Forall (fun k => 2 <= k < cur) tk;
  taken_nodup : NoDup tk;
}.

Lemma last_nodup (t : list Z) p j : NoDup (t ++ [p]) -> j ∈ t -> j <> p.
Proof. intros N Hj ->. apply NoDup_app in N as (_ & N & _). apply (N p Hj), list_elem_of_here. Qed.

(** Taking one more: its predecessor, if any, is linked to it. *)
Lemma take_one v cur tk : good v -> 2 <= cur < entries v -> taken v cur tk -> 
  exists v', (if head tk =? 0 then Ret v else set_FAT_entry v (default 0 (last tk)) cur) = Ret v' /\
    frame v v' /\ fsinfo v' = fsinfo v /\ taken v' (cur + 1) (tk ++ [cur]) /\
    forall j, 0 <= j -> j ∉ tk -> fat v' j = fat v j.
Proof.
  intros G Hc [P R N]. destruct (good_table v G) as [Ht _]. unfold FAT_BAD_CLUSTER in Ht.
  assert (R' : Forall (fun k => 2 <= k < cur + 1) (tk ++ [cur])).
  { apply Forall_app_2; [eapply Forall_impl; [exact R|cbn; lia]|repeat constructor; lia]. }
  assert (N' : NoDup (tk ++ [cur])).
  { apply NoDup_app. split_and!; [assumption| |apply NoDup_singleton]. intros x Hx ->%list_elem_of_singleton.
    eapply Forall_forall in R; [|exact Hx]. cbn in R. lia. }
  destruct tk as [|p t _] using rev_ind.
  - exists v. split_and!; auto; [reflexivity|]. split; [cbn; auto|exact R'|exact N'].
  - assert (Hp : 2 <= p < cur) by (apply Forall_app in R as [_ R]; now inversion R).
    assert (Hh : (head (t ++ [p]) =? 0) = false).
    { assert (2 <= head (t ++ [p]) < cur); [|lia].
      destruct t; cbn [app] in R |- *; inversion R; assumption. }
    rewrite Hh, last_snoc. cbn [default from_option].
    destruct (set_FAT_entry_spec v G p cur ltac:(lia)) as (v1 & E1 & F1 & I1 & U1). rewrite mask_small in U1 by lia.
    exists v1. split_and!; auto.
    + split; [|exact R'|exact N']. rewrite <- app_assoc. cbn [app]. apply (path_link (fat v)); [exact P| |].
      * intros j Hj. pose proof (last_nodup t p j N Hj). apply Forall_app in R as [R _].
        eapply Forall_forall in R; [|exact Hj]. cbn beta in R. rewrite U1 by lia. now replace (j =? p) with false by lia.
      * rewrite U1 by lia. now rewrite Z.eqb_refl.
    + intros j Hj Hn. rewrite U1 by assumption. destruct (Z.eqb_spec j p) as [->|]; [|reflexivity].
      exfalso. apply Hn, elem_of_app. right. apply list_elem_of_here.
Qed.

Lemma head_app l m : l <> [] -> head (l ++ m) = head l.
Proof. destruct l; [congruence|reflexivity]. Qed.

(** The scan from [cur] has taken [tk] before and takes [rest]. *)
Record allocated (v v' : volume) (tk rest : list Z) : Prop := {
  allocated_frame : frame v v';
  allocated_fsinfo : fsinfo v' = fsinfo v;
  allocated_path : path (fat v') (tk ++ rest);
  allocated_others : forall j, 0 <= j -> j ∉ tk ++ rest -> fat v' j = fat v j;
}.

Lemma allocate_step_found v cur tk count free : good v -> 2 <= cur < entries v -> taken v cur tk -> fat v cur = 0 -> 0 < count < 2 ^ 32 ->
  exists v', allocate_step (v, cur, head tk, default 0 (last tk), count, free) =
      Ret (inl (v', cur + 1, head (tk ++ [cur]), cur, count - 1, u32 (free - 1))) /\
    frame v v' /\ fsinfo v' = fsinfo v /\ taken v' (cur + 1) (tk ++ [cur]) /\ forall j, 0 <= j -> j ∉ tk -> fat v' j = fat v j.
Proof.
  intros G Hc T Hf Hn. destruct (good_table v G) as [Ht _]. unfold FAT_BAD_CLUSTER in Ht. unfold allocate_step.
  replace (count =? 0) with false by lia. rewrite get_FAT_entry_spec by (auto; lia). rewrite bind_ret, Hf. cbn [Z.eqb FAT_FREE_CLUSTER].
  destruct (take_one v cur tk G Hc T) as (v' & -> & F & I & T' & U). rewrite bind_ret.
  exists v'. split; [|auto]. rewrite !(u32_small (cur + 1)), (u32_small (count - 1)) by lia. do 3 f_equal.
  destruct tk as [|k t]; [reflexivity|]. change (head ((k :: t) ++ [cur])) with (head (k :: t)).
  pose proof (Forall_inv (taken_range _ _ _ T)) as Hk. cbn beta in Hk. change (head (k :: t)) with k.
  now replace (k =? 0) with false by lia.
Qed.

Lemma allocate_step_skip v cur tk count free : good v -> 2 <= cur < entries v -> fat v cur <> 0 -> 0 < count < 2 ^ 32 ->
  allocate_step (v, cur, head tk, default 0 (last tk), count, free) = Ret (inl (v, cur + 1, head tk, default 0 (last tk), count, free)).
Proof.
  intros G Hc Hf Hn. destruct (good_table v G) as [Ht _]. unfold FAT_BAD_CLUSTER in Ht. unfold allocate_step.
  replace (count =? 0) with false by lia. rewrite get_FAT_entry_spec by (auto; lia). rewrite bind_ret. unfold FAT_FREE_CLUSTER.
  replace (fat v cur =? 0) with false by lia. now rewrite u32_small by lia.
Qed.

Lemma fat_allocate_loop d : forall v cur tk count free, good v -> Z.to_nat (entries v - cur) = d -> 2 <= cur <= entries v ->
  taken v cur tk -> Z.of_nat count <= Z.of_nat (length (frees v cur)) -> u32 free = free ->
  (count = 0%nat -> last tk = Some (cur - 1)) ->
  let rest := take count (frees v cur) in
  exists v', loop allocate_step (S d) (v, cur, head tk, default 0 (last tk), Z.of_nat count, free) =
      Ret (v', default 0 (last (tk ++ rest)), head (tk ++ rest), u32 (free - Z.of_nat count)) /\ allocated v v' tk rest.
Proof.
  induction d as [|d IH]; intros v cur tk count free G Hd Hc T Hn Hf Hz rest; subst rest; rewrite loop_S;
    destruct (good_table v G) as [Ht _]; unfold FAT_BAD_CLUSTER in Ht; destruct count as [|count].
  1, 3: rewrite take_0, app_nil_r; specialize (Hz eq_refl); rewrite Hz; exists v; split; [|split; rewrite ?app_nil_r; auto; [reflexivity|apply (taken_path _ _ _ T)]];
    change (Ret (v, u32 (cur - 1), head tk, free) = Ret (v, cur - 1, head tk, u32 (free - 0)));
    rewrite u32_small by lia; rewrite Z.sub_0_r, Hf; reflexivity.
  - rewrite frees_end in Hn by lia. cbn in Hn. lia.
  - assert (Hl : Z.of_nat (S count) < 2 ^ 32).
    { assert (length (frees v cur) <= length (seqZ cur (entries v - cur)))%nat by apply length_filter. rewrite length_seqZ in *. lia. }
    destruct (decide (fat v cur = 0)) as [Hz0|Hz0].
    + destruct (allocate_step_found v cur tk (Z.of_nat (S count)) free) as (v1 & -> & F1 & I1 & T1 & U1); auto; [lia..|]. rewrite bind_ret.
      assert (Efr : frees v1 (cur + 1) = frees v (cur + 1)).
      { apply frees_ext; [apply entries_frame; assumption|]. intros k Hk. apply U1; [lia|]. intros Hin.
        pose proof (taken_range _ _ _ T) as R. eapply Forall_forall in R; [|exact Hin]. cbn in R. lia. }
      rewrite frees_cons in Hn |- * by (auto; lia). cbn [length take] in *.
      destruct (IH v1 (cur + 1) (tk ++ [cur]) count (u32 (free - 1))) as (v' & L & [F2 I2 P2 U2]);
        rewrite ?(entries_frame v v1), ?Efr by assumption; try lia.
      { eapply good_frame; eauto. } { exact T1. } { apply u32_small, u32_range. } { intros _. rewrite last_snoc. f_equal. lia. }
      rewrite last_snoc, Efr in L. cbn [default from_option id] in L.
      exists v'. replace (Z.of_nat (S count) - 1) with (Z.of_nat count) by lia. rewrite <- app_assoc in *. cbn [app] in *.
      split; [rewrite L; do 2 f_equal; unfold u32; rewrite Zminus_mod_idemp_l; f_equal; lia|].
      split; [etransitivity; eauto|congruence|now rewrite <- Efr|].
      intros j Hj Hnot. rewrite U2; [|assumption|]; [apply U1; [assumption|]|rewrite Efr; exact Hnot].
      intros Hin. apply Hnot, elem_of_app. now left.
    + rewrite allocate_step_skip by (auto; lia). rewrite bind_ret, frees_skip by (auto; lia). rewrite frees_skip in Hn by (auto; lia).
      apply IH; auto; try lia. destruct T as [P R N]. split; auto. eapply Forall_impl; [exact R|cbn; lia].
Qed.

Lemma frees_nodup v lo n : NoDup (take n (frees v lo)).
Proof. apply (sublist_NoDup _ (frees v lo)); [apply NoDup_filter, NoDup_seqZ|apply sublist_take]. Qed.

Lemma frees_table v lo n : 2 <= lo -> in_table v (take n (frees v lo)).
Proof.
  intros. apply Forall_forall. intros k Hk. apply elem_of_take in Hk as (i & Hi & _).
  apply list_elem_of_lookup_2, elem_of_frees in Hi. lia.
Qed.

Lemma snoc_of_nonempty (l : list Z) : l <> [] -> exists t p, l = t ++ [p].
Proof. destruct l as [|p t _] using rev_ind; [congruence|eauto]. Qed.

(** When enough clusters are free from the one the information sector suggests,
    fat32_allocate_clusters takes the first [n] of them, in order, links them into a
    chain of their own and ends it; every other entry of the table is as it was, and so
    is every byte outside the table and the information sector, whose free count and
    suggestion move on.  [clear] makes no difference. *)
Lemma allocate_clusters_spec (v : volume) (n : nat) (clear : bool) :
  let hint := available_clusters_start (fsinfo v) in
  let free := free_cluster_count (fsinfo v) in
  let new := take n (frees v hint) in
  good v -> 2 <= hint <= entries v -> (0 < n <= length (frees v hint))%nat -> u32 free = free ->
  exists v', fat32_allocate_clusters v (Z.of_nat n) clear = Ret (head new, v') /\ chain v' new /\ frame v v' /\
    (forall j, 0 <= j -> j ∉ new -> fat v' j = fat v j) /\
    fsinfo v' = set_free_cluster_count (u32 (free - Z.of_nat n)) (set_available_clusters_start (default 0 (last new)) (fsinfo v)).
Proof.
  intros hint free new G Hh Hn Hf. destruct (good_table v G) as [Ht _]. unfold FAT_BAD_CLUSTER in Ht.
  destruct (fat_allocate_loop _ v hint [] n free G eq_refl Hh) as (v1 & L & [F1 I1 P1 U1]); [split; cbn; auto using NoDup_nil_2|lia|exact Hf|lia|].
  cbn [app] in *. fold new in L, P1, U1. unfold fat32_allocate_clusters. fold hint free.
  erewrite while_loop; [|exact L|congruence|rewrite Nat2Z.inj_succ; lia]. rewrite bind_ret.
  pose proof (frees_table v hint n ltac:(lia)) as T. fold new in T. pose proof (frees_nodup v hint n) as N. fold new in N.
  destruct (snoc_of_nonempty new) as (t & p & E).
  { intros E. apply (f_equal length) in E. subst new. rewrite length_take in E. cbn in E. lia. }
  rewrite E in *. rewrite last_snoc in *. cbn [default from_option id].
  assert (Hhd : 2 <= head (t ++ [p])) by (destruct t; apply Forall_inv in T; apply T).
  replace (head (t ++ [p]) =? 0) with false by lia.
  assert (Hp : 2 <= p < entries v) by (apply Forall_app in T as [_ T]; now apply Forall_inv in T).
  assert (G1 : good v1) by (eapply good_frame; eauto).
  destruct (set_FAT_entry_spec v1 G1 p FAT_EOC) as (v2 & -> & F2 & I2 & U2); [rewrite (entries_frame v v1 F1); lia|]. rewrite bind_ret.
  change (Z.land (u32 FAT_EOC) entry_mask) with FAT_EOC in U2. rewrite I2, I1.
  set (f := set_free_cluster_count _ _). set (v3 := with_fsinfo f v2).
  assert (F3 : frame v v3).
  { assert (F : frame v v2) by (etransitivity; eauto). destruct F as [A B [R R'] D]. split; auto. }
  destruct (update_fsinfo_spec v3) as (F4 & I4 & U4 & _); [exact (good_frame _ _ G F3)|].
  assert (F : frame v (update_fsinfo v3)) by (transitivity v3; assumption).
  assert (U : forall j, 0 <= j -> fat (update_fsinfo v3) j = if j =? p then FAT_EOC else fat v1 j).
  { intros j Hj. rewrite U4 by assumption. apply U2. assumption. }
  eexists. split; [reflexivity|]. split_and!; [split| |intros j Hj Hnot|]; auto.
  - eapply path_ext_last; [exact P1|]. intros j Hj. pose proof (last_nodup _ _ _ N Hj).
    apply Forall_app in T as [T _]. eapply Forall_forall in T; [|exact Hj]. cbn in T. rewrite U by lia.
    now replace (j =? p) with false by lia.
  - exists p. rewrite last_snoc. split; [reflexivity|]. rewrite U, Z.eqb_refl by lia. unfold FAT_EOC. lia.
  - unfold in_table. now rewrite (entries_frame _ _ F).
  - rewrite U by assumption. destruct (Z.eqb_spec j p) as [->|]; [|now apply U1].
    exfalso. apply Hnot, elem_of_app. right. apply list_elem_of_here.
Qed.

(** *** Growing, cutting, and giving back *)

Lemma chain_entry_nonzero v l k : good v -> chain v l -> k ∈ l -> fat v k <> 0.
Proof.
  intros G [P (e & He & E) T _] Hk. apply list_elem_of_split in Hk as (l1 & l2 & ->).
  destruct l2 as [|k' l2].
  - rewrite last_snoc in He. injection He as ->. unfold FAT_EOC in E. lia.
  - assert (Ek : fat v k = k').
    { clear -P. induction l1 as [|x l1 IH]; [apply P|]. apply IH. apply P. }
    apply Forall_app in T as [_ T]. apply Forall_inv_tail, Forall_inv in T. cbn in T. lia.
Qed.

(** Clusters of a chain are not free. *)
Lemma chain_not_free v l lo n k : good v -> chain v l -> k ∈ l -> k ∉ take n (frees v lo).
Proof.
  intros G C Hk Hin. apply elem_of_take in Hin as (i & Hi & _). apply list_elem_of_lookup_2, elem_of_frees in Hi as [Hz _].
  now apply (chain_entry_nonzero v l k).
Qed.

(** expand_cluster_chain puts the first [n] free clusters behind a chain and leaves
    every other entry and every byte outside the tables as it was. *)
Lemma expand_cluster_chain_spec (v : volume) (l : list Z) (e : Z) (n : nat) (clear : bool) :
  let hint := available_clusters_start (fsinfo v) in
  let new := take n (frees v hint) in
  good v -> chain v l -> last l = Some e -> 2 <= hint <= entries v -> (0 < n <= length (frees v hint))%nat ->
  u32 (free_cluster_count (fsinfo v)) = free_cluster_count (fsinfo v) ->
  exists v', expand_cluster_chain v e (Z.of_nat n) clear = Ret (head new, v') /\ chain v' (l ++ new) /\ frame v v' /\
    forall j, 0 <= j -> j ∉ l ++ new -> fat v' j = fat v j.
Proof.
  intros hint new G C He Hh Hn Hf.
  destruct (allocate_clusters_spec v n clear G Hh Hn Hf) as (v1 & E & C1 & F1 & U1 & _). fold hint new in E, C1, U1.
  assert (D : forall k, k ∈ l -> k ∉ new) by (intros; eapply chain_not_free; eauto).
  assert (Cl : chain v1 l).
  { eapply chain_frame; eauto. intros k Hk. apply U1; [|auto]. destruct C as [_ _ T _]. eapply Forall_forall in T; [|exact Hk]. cbn in T. lia. }
  assert (G1 : good v1) by (eapply good_frame; eauto). destruct (good_table v1 G1) as [Ht _]. unfold FAT_BAD_CLUSTER in Ht.
  unfold expand_cluster_chain. rewrite E, bind_ret.
  assert (Hnew : 2 <= head new < entries v1).
  { destruct C1 as [_ (q & Hq & _) T _]. destruct new as [|k t]; [discriminate|]. now apply Forall_inv in T. }
  replace (head new =? 0) with false by lia.
  assert (Hel : e ∈ l) by now apply last_Some_elem_of.
  assert (He2 : 2 <= e < entries v1) by (destruct Cl as [_ _ T _]; eapply Forall_forall in T; [|exact Hel]; exact T).
  destruct (set_FAT_entry_spec v1 G1 e (head new)) as (v2 & -> & F2 & I2 & U2); [lia|]. rewrite bind_ret.
  rewrite mask_small in U2 by lia. exists v2. split; [reflexivity|].
  assert (Un : forall k, k ∈ new -> fat v2 k = fat v1 k).
  { intros k Hk. rewrite U2; [|destruct C1 as [_ _ T _]; eapply Forall_forall in T; [|exact Hk]; cbn in T; lia].
    destruct (Z.eqb_spec k e) as [->|]; [exfalso; eapply D; eauto|reflexivity]. }
  destruct (last_Some l e) as [Hl _]. destruct (Hl He) as [t ->]. clear Hl.
  split_and!; [|transitivity v1; assumption|].
  - assert (C2 : chain v2 new) by (eapply chain_frame; eauto).
    destruct Cl as [P _ T N], C2 as [P' Q T' N'].
    assert (Ht' : forall j, j ∈ t -> fat v2 j = fat v1 j).
    { intros j Hj. pose proof (last_nodup t e j N Hj). apply Forall_app in T as [T _]. eapply Forall_forall in T; [|exact Hj].
      cbn in T. rewrite U2 by lia. now replace (j =? e) with false by lia. }
    split.
    + apply path_app; [eapply path_ext_last; eauto|exact P'|]. intros k. rewrite last_snoc. intros [= <-] _.
      rewrite U2, Z.eqb_refl by lia. reflexivity.
    + destruct Q as (q & Hq & Q). exists q. split; [|exact Q]. now rewrite last_app, Hq.
    + apply Forall_app_2; [|exact T']. now rewrite (entries_frame v1 v2 F2).
    + apply NoDup_app. auto.
  - intros j Hj Hnot. rewrite U2 by assumption. destruct (Z.eqb_spec j e) as [->|].
    + exfalso. apply Hnot, elem_of_app. now left.
    + apply U1; [assumption|]. intros Hin. apply Hnot, elem_of_app. now right.
Qed.

(** Cut_cluster_chain ends a chain at a cluster and frees the clusters behind it; the
    entries of no other cluster change. *)
Theorem cut_cluster_chain_spec (v : volume) (l : list Z) (k : Z) (t : list Z) :
  good v -> chain v (l ++ k :: t) ->
  exists v', cut_cluster_chain v k = Ret (ERR_FS_SUCCESS, v') /\ chain v' (l ++ [k]) /\ frame v v' /\
    (forall j, j ∈ t -> fat v' j = 0) /\ forall j, 0 <= j -> j ∉ k :: t -> fat v' j = fat v j.
Proof.
  intros G C. assert (C' := C). destruct C' as [P E T N]. destruct (good_table v G) as [Ht _]. unfold FAT_BAD_CLUSTER in Ht.
  assert (Hk : 2 <= k < entries v) by (apply Forall_app in T as [_ T]; now apply Forall_inv in T).
  unfold cut_cluster_chain. rewrite get_FAT_entry_spec, bind_ret by (auto; lia). unfold is_last.
  destruct t as [|k' t].
  { destruct E as (e & He & E). rewrite last_snoc in He. injection He as ->. replace (FAT_EOC <=? fat v e) with true by lia.
    exists v. split_and!; [reflexivity|exact C|reflexivity|now intros ? ?%not_elem_of_nil|auto]. }
  destruct (path_suffix _ _ _ P) as [Ek Pt].
  apply Forall_app in T as [Tl Tt]. apply Forall_inv_tail in Tt.
  apply NoDup_app in N as (Nl & D & Nt). inversion_clear Nt as [|? ? Nk Nt'].
  assert (Ct : chain v (k' :: t)).
  { split; auto. destruct E as (e & He & E). exists e. rewrite last_app in He.
    change (last (k :: k' :: t)) with (last (k' :: t)) in He.
    destruct (last (k' :: t)) eqn:Q; [auto|]. now apply last_None in Q. }
  pose proof (Forall_inv Tt) as Hk'. cbn beta in Hk'. rewrite Ek.
  replace (FAT_EOC <=? k') with false by (unfold FAT_EOC; lia). replace (k' =? FAT_BAD_CLUSTER) with false by (unfold FAT_BAD_CLUSTER; lia).
  destruct (free_cluster_chain_spec v _ G Ct) as (v1 & W & F1 & _ & U1). change (head (k' :: t)) with k' in W. rewrite W, bind_ret.
  cbn [failed bool_decide]. assert (G1 : good v1) by (eapply good_frame; eauto).
  destruct (set_FAT_entry_spec v1 G1 k FAT_EOC) as (v2 & -> & F2 & I2 & U2); [rewrite (entries_frame v v1 F1); lia|].
  change (Z.land (u32 FAT_EOC) entry_mask) with FAT_EOC in U2. rewrite bind_ret. exists v2. 
  assert (F : frame v v2) by (transitivity v1; assumption).
  assert (Ul : forall j, j ∈ l -> fat v2 j = fat v j).
  { intros j Hj. specialize (D j Hj). eapply Forall_forall in Tl; [|exact Hj]. cbn in Tl. rewrite U2, U1 by lia.
    rewrite bool_decide_eq_false_2 by (intros ?; apply D; now apply list_elem_of_further).
    destruct (Z.eqb_spec j k) as [->|]; [exfalso; apply D, list_elem_of_here|reflexivity]. }
  split_and!; [reflexivity| |exact F| |].
  - split.
    + eapply path_ext_last; [|exact Ul]. apply (path_prefix _ _ (k' :: t)). rewrite <- app_assoc. exact P.
    + exists k. rewrite last_snoc. split; [reflexivity|]. rewrite U2, Z.eqb_refl by lia. unfold FAT_EOC. lia.
    + unfold in_table. rewrite (entries_frame v v2 F). apply Forall_app_2; [exact Tl|now repeat constructor].
    + apply NoDup_app. split_and!; [exact Nl| |apply NoDup_singleton]. intros x Hx ->%list_elem_of_singleton.
      apply (D k Hx), list_elem_of_here.
  - intros j Hj. assert (2 <= j) by (eapply Forall_forall in Tt; [|exact Hj]; cbn in Tt; lia).
    rewrite U2, U1 by lia. rewrite bool_decide_eq_true_2 by assumption. destruct (Z.eqb_spec j k) as [->|]; [contradiction|reflexivity].
  - intros j Hj Hnot. rewrite U2, U1 by assumption. destruct (Z.eqb_spec j k) as [->|]; [exfalso; apply Hnot, list_elem_of_here|].
    rewrite bool_decide_eq_false_2; [reflexivity|]. intros ?. apply Hnot. now apply list_elem_of_further.
Qed.

(** C12: giving an allocated chain back leaves the table as it was before the allocation,
    and the number of free clusters. *)
Theorem allocate_free_roundtrip (v : volume) (n : nat) (clear : bool) :
  let hint := available_clusters_start (fsinfo v) in
  let free := free_cluster_count (fsinfo v) in
  good v -> 2 <= hint <= entries v -> (0 < n <= length (frees v hint))%nat -> u32 free = free ->
  exists start v1 v2, fat32_allocate_clusters v (Z.of_nat n) clear = Ret (start, v1) /\
    free_cluster_chain v1 start = Ret (ERR_FS_SUCCESS, v2) /\ frame v v2 /\
    (forall j, 0 <= j -> fat v2 j = fat v j) /\ free_cluster_count (fsinfo v2) = free.
Proof.
  intros hint free G Hh Hn Hf.
  destruct (allocate_clusters_spec v n clear G Hh Hn Hf) as (v1 & E & C1 & F1 & U1 & I1). fold hint free in E, C1, U1, I1.
  assert (G1 : good v1) by (eapply good_frame; eauto).
  destruct (free_cluster_chain_spec v1 _ G1 C1) as (v2 & W & F2 & I2 & U2).
  exists (head (take n (frees v hint))), v1, v2. split_and!; auto; [transitivity v1; assumption| |].
  - intros j Hj. rewrite U2 by assumption. case_bool_decide as Hin; [|now apply U1].
    apply elem_of_take in Hin as (i & Hi & _). apply list_elem_of_lookup_2, elem_of_frees in Hi. symmetry. apply Hi.
  - rewrite I2, I1. cbn [set_free_cluster_count set_available_clusters_start free_cluster_count].
    rewrite length_take, Nat.min_l by lia. unfold u32 at 1 2. rewrite Zplus_mod_idemp_l.
    replace (free - Z.of_nat n + Z.of_nat n) with free by lia. exact Hf.
Qed.

(** ** A volume of twenty clusters

    Clusters 3, 5 and 6 are a file, cluster 2 the root directory. *)
Module Runs.
Definition boot : fat32_bootrecord := Fat32Bootrecord 512 1 2 1 23 1 0 0 2 1.
Definition info : fat32_fsinfo :=
  Fat32Fsinfo 1096897106 (replicate 480 0) 1631679090 16 2 (replicate 12 0) 2857697280.
Definition table : list Z :=
  le32 268435448 ++ le32 268435455 ++ le32 268435455 ++ le32 5 ++ le32 0 ++ le32 6 ++ le32 268435455.
Definition vol : volume := Volume 10 boot info (put ∅ (512 * 12) table).

Lemma vol_good : good vol.
Proof. split; try (vm_compute; intuition congruence). exists 0. split; [lia|reflexivity]. Qed.

Lemma vol_chain : chain vol [3; 5; 6].
Proof.
  split.
  - vm_compute. auto.
  - exists 6. split; [reflexivity|vm_compute; discriminate].
  - repeat constructor; vm_compute; congruence.
  - apply (bool_decide_unpack _). vm_compute. exact I.
Qed.

Lemma cut_cluster_chain_witness :
  exists v', cut_cluster_chain vol 5 = Ret (ERR_FS_SUCCESS, v') /\ chain v' ([3] ++ [5]) /\ frame vol v' /\
    (forall j, j ∈ [6] -> fat v' j = 0) /\ forall j, 0 <= j -> j ∉ [5; 6] -> fat v' j = fat vol j.
Proof. apply (cut_cluster_chain_spec vol [3] 5 [6]); [exact vol_good|exact vol_chain]. Defined.

Lemma allocate_free_roundtrip_witness :
  exists start v1 v2, fat32_allocate_clusters vol 3 true = Ret (start, v1) /\
    free_cluster_chain v1 start = Ret (ERR_FS_SUCCESS, v2) /\ frame vol v2 /\
    (forall j, 0 <= j -> fat v2 j = fat vol j) /\ free_cluster_count (fsinfo v2) = 16.
Proof.
  apply (allocate_free_roundtrip vol 3 true); [exact vol_good|vm_compute; intuition congruence| |reflexivity].
  assert (E : length (frees vol (available_clusters_start (fsinfo vol))) = 16%nat) by (vm_compute; reflexivity). rewrite E. lia.
Defined.

(** The first free clusters are 4, 7 and 8. *)
Example allocates_in_order :
  match fat32_allocate_clusters vol 3 false with
  | Ret (start, v') => bool_decide ((start, fat v' 4, fat v' 7, fat v' 8) = (4, 7, 8, FAT_EOC))
  | _ => false
  end = true.
Proof. vm_compute. reflexivity. Qed.
End Runs.
