(* ===== verification/FatFile.v ===== *)
(** * FAT32: the contents of files (kernel/src/filesystem/fat32.c)

    Reading, writing and positioning in a file, which is a chain of clusters.  A
    descriptor keeps the cluster its position is in; at a position on a border
    between clusters that is the cluster before the border. *)
From S2P Require Import Prelude Mem CString Disk Fs Fat FatChain.

(** Following the chain while the offset is a cluster or more. *)
Definition skip_step (v : volume) '(cluster, offset) : outcome ((Z * Z) + (FS_ERR * Z * Z)) :=
  let csize := cluster_size (bootrec v) in
  if csize <=? offset then
    FAT_val ← get_FAT_entry v cluster;
    Ret (if FAT_val =? FAT_BAD_CLUSTER then inr (ERR_FS_BAD_CLUSTER, cluster, offset)
         else if is_last FAT_val then inr (ERR_FS_EOF, cluster, offset)
         else inl (FAT_val, offset - csize))
  else Ret (inr (ERR_FS_SUCCESS, cluster, offset)).

(** The cluster after this one, or why there is none. *)
Definition next_cluster (v : volume) (cluster : Z) : outcome (FS_ERR * Z) :=
  FAT_val ← get_FAT_entry v cluster;
  Ret (if is_last FAT_val then (ERR_FS_EOF, cluster)
       else if FAT_val =? FAT_BAD_CLUSTER then (ERR_FS_BAD_CLUSTER, cluster)
       else (ERR_FS_SUCCESS, FAT_val)).

(** [data] is what has been copied to the caller's buffer. *)
Definition read_step (v : volume) '(cluster, size, data) : outcome ((Z * Z * list Z) + (FS_ERR * list Z * Z)) :=
  let csize := cluster_size (bootrec v) in
  let ext_buffer := read_cluster v cluster in
  if size <? csize then Ret (inr (ERR_FS_SUCCESS, data ++ take (Z.to_nat size) ext_buffer, cluster))
  else
    let size := size - csize in
    let data := data ++ ext_buffer in
    if size =? 0 then Ret (inr (ERR_FS_SUCCESS, data, cluster))
    else
      '(err, cluster) ← next_cluster v cluster;
      Ret (if failed err then inr (err, data, cluster) else inl (cluster, size, data)).

(** The result holds what is read and what is left in [*start_cluster]; the number
    of bytes read is the length of the data. *)
Definition read_file (v : volume) (start_cluster size cluster_offset : Z) : outcome (FS_ERR * list Z * Z) :=
  let csize := cluster_size (bootrec v) in
  '(err, cluster, offset) ← while (skip_step v) (start_cluster, cluster_offset);
  if failed err then Ret (err, [], cluster)
  else if 0 <? offset then
    let ext_buffer := read_cluster v cluster in
    let remain_size := csize - offset in
    if size <=? remain_size
    then Ret (ERR_FS_SUCCESS, take (Z.to_nat size) (drop (Z.to_nat offset) ext_buffer), cluster)
    else
      let data := take (Z.to_nat remain_size) (drop (Z.to_nat offset) ext_buffer) in
      '(err, cluster) ← next_cluster v cluster;
      if failed err then Ret (err, data, cluster) else while (read_step v) (cluster, size - remain_size, data)
  else while (read_step v) (cluster, size, []).

(** Following the chain before a write, with new clusters behind its end. *)
Definition reach_step '(v, cluster, offset) : outcome ((volume * Z * Z) + (FS_ERR * volume * Z * Z)) :=
  let csize := cluster_size (bootrec v) in
  if csize <=? u32 offset then
    FAT_val ← get_FAT_entry v cluster;
    if is_last FAT_val then
      if csize =? 0 then Fault
      else
        '(new_cluster, v) ← expand_cluster_chain v cluster (u32 offset / csize) false;
        Ret (if new_cluster =? 0 then inr (ERR_FS_NOT_ENOUGH_SPACE, v, cluster, offset)
             else inl (v, new_cluster, s32 (offset - csize * (u32 offset / csize))))
    else if FAT_val =? FAT_BAD_CLUSTER then Ret (inr (ERR_FS_BAD_CLUSTER, v, cluster, offset))
    else Ret (inl (v, FAT_val, s32 (offset - csize)))
  else Ret (inr (ERR_FS_SUCCESS, v, cluster, offset)).

(** [buffer] is what is left to write, [actual] what has been written. *)
Definition write_step (file_size next_position : Z) '(v, cluster, buffer, actual) :
  outcome ((volume * Z * list Z * Z) + (FS_ERR * Z * Z * volume)) :=
  let csize := cluster_size (bootrec v) in
  let size := Z.of_nat (length buffer) in
  if size <? csize then
    let ext_buffer := if next_position <=? file_size then splice (read_cluster v cluster) 0 buffer
                      else buffer ++ replicate (Z.to_nat (csize - size)) 0 in
    Ret (inr (ERR_FS_SUCCESS, actual + size, cluster, write_cluster v cluster ext_buffer))
  else
    let v := write_cluster v cluster (take (Z.to_nat csize) buffer) in
    let buffer := drop (Z.to_nat csize) buffer in
    let actual := actual + csize in
    if Z.of_nat (length buffer) =? 0 then Ret (inr (ERR_FS_SUCCESS, actual, cluster, v))
    else
      FAT_val ← get_FAT_entry v cluster;
      Ret (if is_last FAT_val then inr (ERR_FS_SUCCESS, actual, cluster, v)
           else if FAT_val =? FAT_BAD_CLUSTER then inr (ERR_FS_BAD_CLUSTER, actual, cluster, v)
           else inl (v, FAT_val, buffer, actual)).

(** The part of write_file after the first, partial cluster. *)
Definition write_rest (v : volume) (cluster : Z) (buffer : list Z) (actual file_size next_position : Z) :
  outcome (FS_ERR * Z * Z * volume) :=
  let csize := cluster_size (bootrec v) in
  if csize =? 0 then Fault
  else
    let estimated_clusters := s32 (Z.of_nat (length buffer) / csize) in
    '(enough, v) ← (if 0 <? estimated_clusters
                     then '(new_cluster, v) ← expand_cluster_chain v cluster estimated_clusters false; Ret (negb (new_cluster =? 0), v)
                     else Ret (true, v));
    if negb enough then Ret (ERR_FS_NOT_ENOUGH_SPACE, actual, cluster, v)
    else while (write_step file_size next_position) (v, cluster, buffer, actual).

Definition write_file (v : volume) (start_cluster : Z) (buffer : list Z) (cluster_offset file_size next_position : Z) :
  outcome (FS_ERR * Z * Z * volume) :=
  let csize := cluster_size (bootrec v) in
  '(err, v, cluster, offset) ← while reach_step (v, start_cluster, cluster_offset);
  if failed err then Ret (err, 0, cluster, v)
  else if 0 <? offset then
    let size := Z.of_nat (length buffer) in
    let remain_size := csize - offset in
    let n := if size <=? remain_size then size else remain_size in
    let v := write_cluster v cluster (splice (read_cluster v cluster) offset (take (Z.to_nat n) buffer)) in
    if size <=? remain_size then Ret (ERR_FS_SUCCESS, size, cluster, v)
    else write_rest v cluster (drop (Z.to_nat remain_size) buffer) remain_size file_size next_position
  else write_rest v cluster buffer 0 file_size next_position.

(** ** Descriptors *)

Definition seek_step (v : volume) (seek_position : Z) '(cluster, current_size) : outcome ((Z * Z) + (FS_ERR * Z * Z)) :=
  let csize := cluster_size (bootrec v) in
  let current_size := u32 (current_size + csize) in
  if seek_position <=? current_size then Ret (inr (ERR_FS_SUCCESS, cluster, u32 (current_size - csize)))
  else
    FAT_val ← get_FAT_entry v cluster;
    Ret (if FAT_val =? FAT_BAD_CLUSTER then inr (ERR_FS_BAD_CLUSTER, cluster, current_size)
         else if is_last FAT_val then inr (ERR_FS_SUCCESS, cluster, current_size)
         else inl (FAT_val, current_size)).

(** [node] is file->node. *)
Definition fat32_file_seek_absolute (v : volume) (node : fs_node) (file : file_description) (seek_position : Z) :
  outcome (FS_ERR * file_description) :=
  let csize := cluster_size (bootrec v) in
  let seek_position := if seek_position <? 0 then 0 else seek_position in
  if position file =? seek_position then Ret (ERR_FS_SUCCESS, file)
  else
    let '(cluster, current_size) :=
      if position file <=? seek_position then (fd_current file, u32 (Z.land (position file) (Z.lnot (csize - 1))))
      else (node_addr node, 0) in
    '(err, cluster, current_size) ← while (seek_step v seek_position) (cluster, current_size);
    if failed err then Ret (err, file)
    else
      let pos := if u32 (current_size + csize) <? seek_position then size node else seek_position in
      Ret (ERR_FS_SUCCESS, set_fd_current cluster (set_position pos file)).

(** The offset the two operations below start from: at a border the descriptor's
    cluster is the one before. *)
Definition border_offset (csize position : Z) : Z :=
  let offset := Z.rem position csize in if (offset =? 0) && (0 <? position) then csize else offset.

Definition fat32_file_read (v : volume) (file : file_description) (size : Z) : outcome (FS_ERR * list Z * file_description) :=
  let csize := s32 (cluster_size (bootrec v)) in
  if csize =? 0 then Fault
  else
    '(err, data, cluster) ← read_file v (fd_current file) size (u32 (border_offset csize (position file)));
    Ret (err, data, set_fd_current cluster file).

Definition fat32_file_write (v : volume) (node : fs_node) (file : file_description) (data : list Z) :
  outcome (FS_ERR * Z * file_description * volume) :=
  let csize := s32 (cluster_size (bootrec v)) in
  if csize =? 0 then Fault
  else
    let append := has_flag (mode file) FILE_OPEN_APPEND in
    let pos := s32 (if append then size node else position file) in
    '(err, actual, cluster, v) ← write_file v (if append then fd_last file else fd_current file) data
      (border_offset csize pos) (size node) (u32 (pos + Z.of_nat (length data)));
    Ret (err, actual, (if append then set_fd_last cluster file else set_fd_current cluster file), v).

Definition fat32_file_open (v : volume) (node : fs_node) (file : file_description) (mode : Z) : outcome file_description :=
  let file := if has_flag mode FILE_OPEN_WRITE || has_flag mode FILE_OPEN_READ then set_fd_current (node_addr node) file else file in
  if has_flag mode FILE_OPEN_APPEND
  then last ← fat32_get_last_cluster_of_chain v (node_addr node); Ret (set_fd_last last file)
  else Ret file.

(** ** The bytes of a chain *)

Definition chain_data (v : volume) (l : list Z) : list Z := concat (map (read_cluster v) l).

(** A chain, or what is left of one from some cluster on. *)
Record links (v : volume) (l : list Z) : Prop := {
  links_path : path (fat v) l;
  links_last : exists k, last l = Some k /\ FAT_EOC <= fat v k;
  links_table : in_table v l;
}.

Lemma chain_links v l : chain v l -> links v l.
Proof. intros []. split; auto. Qed.

Lemma links_next v k k' t : links v (k :: k' :: t) -> fat v k = k' /\ links v (k' :: t).
Proof.
  intros [[P1 P2] (e & He & E) T]. split; [exact P1|]. split; [exact P2|exists e; auto|now apply Forall_inv_tail in T].
Qed.

Lemma links_end v k : links v [k] -> FAT_EOC <= fat v k.
Proof. intros [_ (e & [= <-] & E) _]. exact E. Qed.

Lemma links_head v k t : links v (k :: t) -> 2 <= k < entries v.
Proof. intros [_ _ T]. now apply Forall_inv in T. Qed.

Lemma links_drop v l n : (n < length l)%nat -> links v l -> links v (drop n l).
Proof.
  revert l. induction n as [|n IH]; intros l Hn L; [exact L|]. destruct l as [|k [|k' t]]; cbn in Hn; [lia|lia|].
  apply IH; [cbn; lia|]. now apply links_next in L.
Qed.

Section data.
Context (v : volume) (G : good v).
Let cs : Z := cluster_size (bootrec v).

Lemma cluster_size_good : cs = SECTOR * sectors_per_cluster (bootrec v) /\ 512 <= cs <= 65536.
Proof.
  subst cs. unfold cluster_size. rewrite (good_sector v G). pose proof (good_cluster v G). unfold SECTOR.
  rewrite u32_small by lia. lia.
Qed.

Lemma data_sector_bounds k : 2 <= k < entries v ->
  0 <= data_sector v k /\ data_sector v k + sectors_per_cluster (bootrec v) <= 2 ^ 28 /\
  fat_base v + 4 * entries v <= SECTOR * data_sector v k.
Proof.
  intros Hk. destruct G as [Hs Hc _ H0 Hf [Ht1 Ht2] He _]. unfold data_sector, entries, fat_base, SECTOR in *.
  pose proof (Z.mul_le_mono_nonneg_r (k - 2 + 1) (get_total_clusters (bootrec v)) (sectors_per_cluster (bootrec v))).
  assert (0 <= (k - 2) * sectors_per_cluster (bootrec v)) by (apply Z.mul_nonneg_nonneg; lia). lia.
Qed.

Lemma cluster_lba k : 2 <= k < entries v -> lba28 (LBA_start v + first_sector (bootrec v) k) = data_sector v k.
Proof.
  intros Hk. destruct (data_sector_bounds k Hk) as (B0 & B1 & B2). destruct G as [Hs Hc _ H0 Hf [Ht1 Ht2] He _].
  unfold data_sector, first_sector, fat_base, SECTOR, FAT_BAD_CLUSTER in *.
  assert (0 <= (k - 2) * sectors_per_cluster (bootrec v)) by (apply Z.mul_nonneg_nonneg; lia).
  rewrite (u32_small (k - 2)), (u32_small (_ * _)), (u32_small (_ + _)) by lia.
  rewrite lba28_small by lia. lia.
Qed.

Lemma read_cluster_eq k : 2 <= k < entries v ->
  read_cluster v k = disk_read (disk v) (data_sector v k) (sectors_per_cluster (bootrec v)).
Proof. intros. unfold read_cluster, read_sectors. now rewrite cluster_lba. Qed.

Lemma length_read_cluster k : Z.of_nat (length (read_cluster v k)) = cs.
Proof.
  unfold read_cluster, read_sectors. rewrite length_disk_read. destruct cluster_size_good as [-> _].
  pose proof (good_cluster v G). unfold SECTOR. lia.
Qed.

Lemma length_chain_data l : Z.of_nat (length (chain_data v l)) = cs * Z.of_nat (length l).
Proof.
  induction l as [|k t IH]; [cbn; lia|]. unfold chain_data in *. cbn [map concat length]. rewrite length_app.
  rewrite !Nat2Z.inj_add, length_read_cluster, IH. lia.
Qed.

Lemma chain_data_cons k t : chain_data v (k :: t) = read_cluster v k ++ chain_data v t.
Proof. reflexivity. Qed.

Lemma next_cluster_some k k' t : links v (k :: k' :: t) -> next_cluster v k = Ret (ERR_FS_SUCCESS, k').
Proof.
  intros L. pose proof (links_head _ _ _ L). destruct (links_next _ _ _ _ L) as [E L']. pose proof (links_head _ _ _ L').
  pose proof (good_table v G) as [Ht _]. unfold FAT_BAD_CLUSTER in Ht. unfold next_cluster.
  rewrite get_FAT_entry_spec, bind_ret, E by (auto; lia). unfold is_last, FAT_EOC, FAT_BAD_CLUSTER.
  replace (268435448 <=? k') with false by lia. now replace (k' =? 268435447) with false by lia.
Qed.

Lemma next_cluster_none k : links v [k] -> next_cluster v k = Ret (ERR_FS_EOF, k).
Proof.
  intros L. pose proof (links_head _ _ _ L). pose proof (links_end _ _ L). unfold next_cluster.
  rewrite get_FAT_entry_spec, bind_ret by (auto; lia). unfold is_last. now replace (FAT_EOC <=? fat v k) with true by lia.
Qed.

(** The cluster of [l] that holds byte [i] of its data, the last one if none does. *)
Definition cluster_at (l : list Z) (i : Z) : Z := default 0 (l !! Z.to_nat (Z.min (i / cs) (Z.of_nat (length l) - 1))).

(** What reading [size] bytes of a chain's data from [o] on reports. *)
Definition read_status (l : list Z) (last_byte : Z) : FS_ERR :=
  if last_byte <=? cs * Z.of_nat (length l) then ERR_FS_SUCCESS else ERR_FS_EOF.

Lemma cluster_at_cons k k' t i : cs <= i -> cluster_at (k :: k' :: t) i = cluster_at (k' :: t) (i - cs).
Proof.
  intros Hi. destruct cluster_size_good as [_ Hc]. unfold cluster_at.
  assert (Ed : i / cs = (i - cs) / cs + 1).
  { replace i with (i - cs + 1 * cs) at 1 by lia. now rewrite Z.div_add by lia. }
  assert (0 <= (i - cs) / cs) by (apply Z.div_pos; lia). rewrite Ed. cbn [length].
  replace (Z.to_nat (Z.min ((i - cs) / cs + 1) (Z.of_nat (S (S (length t))) - 1)))
    with (S (Z.to_nat (Z.min ((i - cs) / cs) (Z.of_nat (S (length t)) - 1)))) by lia. reflexivity.
Qed.

Lemma cluster_at_first k t i : 0 <= i < cs -> cluster_at (k :: t) i = k.
Proof. intros Hi. unfold cluster_at. rewrite Z.div_small by lia. cbn [length]. now rewrite Z.min_l by lia. Qed.

Lemma read_status_cons k t x : read_status (k :: t) x = read_status t (x - cs).
Proof.
  unfold read_status. cbn [length]. replace (cs * Z.of_nat (S (length t))) with (cs * Z.of_nat (length t) + cs) by lia.
  now replace (x <=? cs * Z.of_nat (length t) + cs) with (x - cs <=? cs * Z.of_nat (length t)) by lia.
Qed.
End data.

Section read.
Context (v : volume) (G : good v).
Let cs : Z := cluster_size (bootrec v).

Lemma fat_read_loop l : forall size data, links v l -> 0 < size ->
  loop (read_step v) (length l) (head l, size, data) =
    Ret (read_status v l size, data ++ take (Z.to_nat size) (chain_data v l), cluster_at v l (size - 1)).
Proof.
  destruct (cluster_size_good v G) as [_ Hcs]. 
  induction l as [|k t IH]; intros size data L Hs; [destruct L as [_ (? & ? & _) _]; discriminate|].
  pose proof (length_read_cluster v G k) as Lk.
  cbn [length]. rewrite loop_S. unfold read_step at 2. change (head (k :: t)) with k. rewrite chain_data_cons.
  destruct (Z.ltb_spec size (cluster_size (bootrec v))) as [Hlt|Hge].
  - rewrite bind_ret, take_app_le by lia. rewrite cluster_at_first by (auto; lia).
    unfold read_status. cbn [length]. replace (size <=? _) with true by lia. reflexivity.
  - rewrite take_app_ge by lia. replace (Z.to_nat size - length (read_cluster v k))%nat with (Z.to_nat (size - cluster_size (bootrec v))) by lia.
    destruct (Z.eqb_spec (size - cluster_size (bootrec v)) 0) as [Hz|Hz].
    + rewrite bind_ret, Hz. cbn [Z.to_nat take]. rewrite app_nil_r, cluster_at_first by (auto; lia).
      unfold read_status. cbn [length]. replace (size <=? _) with true by lia. reflexivity.
    + destruct t as [|k' t].
      * rewrite next_cluster_none, bind_ret by assumption. cbv beta iota. change (failed ERR_FS_EOF) with true. cbv iota. rewrite bind_ret.
        unfold read_status. cbn [length]. replace (size <=? _) with false by lia. cbn [chain_data map concat]. rewrite take_nil, app_nil_r.
        repeat f_equal. unfold cluster_at. cbn [length]. replace (Z.min _ _) with 0; [reflexivity|].
        assert (1 <= (size - 1) / cluster_size (bootrec v)) by (apply Z.div_le_lower_bound; lia). lia.
      * erewrite next_cluster_some, bind_ret by eassumption. cbv beta iota. change (failed ERR_FS_SUCCESS) with false. cbv iota.
        rewrite bind_ret. destruct (links_next _ _ _ _ L) as [_ L'].
        pose proof (IH (size - cluster_size (bootrec v)) (data ++ read_cluster v k) L' ltac:(lia)) as W.
        change (head (k' :: t)) with k' in W. cbn [length] in W |- *. rewrite W. rewrite (read_status_cons v k (k' :: t)).
        rewrite (cluster_at_cons v G k k' t (size - 1)) by lia. rewrite <- app_assoc.
        now replace (size - 1 - cluster_size (bootrec v)) with (size - cluster_size (bootrec v) - 1) by lia.
Qed.

Lemma skip_loop l : forall o, links v l -> 0 <= o ->
  loop (skip_step v) (length l) (head l, o) =
    if o <? cs * Z.of_nat (length l) then Ret (ERR_FS_SUCCESS, cluster_at v l o, o mod cs)
    else Ret (ERR_FS_EOF, cluster_at v l o, o - cs * (Z.of_nat (length l) - 1)).
Proof.
  destruct (cluster_size_good v G) as [_ Hcs]. fold cs in Hcs.
  induction l as [|k t IH]; intros o L Ho; [destruct L as [_ (? & ? & _) _]; discriminate|].
  cbn [length]. rewrite loop_S. unfold skip_step at 2. change (head (k :: t)) with k. fold cs.
  pose proof (links_head _ _ _ L) as Hk. pose proof (good_table v G) as [Ht _]. unfold FAT_BAD_CLUSTER in Ht.
  destruct (Z.leb_spec cs o) as [Hge|Hlt].
  - rewrite get_FAT_entry_spec, bind_ret by (auto; lia). unfold is_last. destruct t as [|k' t].
    + pose proof (links_end _ _ L) as E. replace (fat v k =? FAT_BAD_CLUSTER) with false by (unfold FAT_EOC, FAT_BAD_CLUSTER in *; lia).
      replace (FAT_EOC <=? fat v k) with true by lia. rewrite bind_ret. cbn [length].
      replace (o <? cs * Z.of_nat 1) with false by lia. repeat f_equal; [|lia]. unfold cluster_at. cbn [length]. fold cs.
      replace (Z.min _ _) with 0; [reflexivity|]. assert (1 <= o / cs) by (apply Z.div_le_lower_bound; lia). lia.
    + destruct (links_next _ _ _ _ L) as [-> L']. pose proof (links_head _ _ _ L') as Hk'.
      replace (k' =? FAT_BAD_CLUSTER) with false by (unfold FAT_BAD_CLUSTER; lia).
      replace (FAT_EOC <=? k') with false by (unfold FAT_EOC; lia). rewrite bind_ret.
      pose proof (IH (o - cs) L' ltac:(lia)) as W. change (head (k' :: t)) with k' in W. rewrite W. rewrite (cluster_at_cons v G k) by (auto; fold cs; lia). fold cs.
      replace (o <? cs * Z.of_nat (S (length (k' :: t)))) with (o - cs <? cs * Z.of_nat (length (k' :: t))) by lia.
      replace ((o - cs) mod cs) with (o mod cs); [destruct (o - cs <? _); [reflexivity|]; do 2 f_equal; cbn [length]; lia|].
      replace o with (o - cs + 1 * cs) at 1 by lia. now rewrite Z_mod_plus_full.
  - rewrite bind_ret. replace (o <? cs * Z.of_nat (S (length t))) with true by lia.
    rewrite cluster_at_first by (auto; fold cs; lia). now rewrite Z.mod_small by lia.
Qed.

Lemma fat_read_while l size data : links v l -> 0 < size -> Z.of_nat (length l) < 2 ^ 32 ->
  while (read_step v) (head l, size, data) =
    Ret (read_status v l size, data ++ take (Z.to_nat size) (chain_data v l), cluster_at v l (size - 1)).
Proof. intros L Hs Hl. eapply while_loop; [apply fat_read_loop; assumption|congruence|lia]. Qed.

(** Reading from inside the first cluster. *)
Lemma read_from k t r size : links v (k :: t) -> 0 <= r < cs -> 0 < size -> Z.of_nat (length (k :: t)) < 2 ^ 32 ->
  (if 0 <? r then
     let ext_buffer := read_cluster v k in
     let remain_size := cs - r in
     if size <=? remain_size
     then Ret (ERR_FS_SUCCESS, take (Z.to_nat size) (drop (Z.to_nat r) ext_buffer), k)
     else
       let data := take (Z.to_nat remain_size) (drop (Z.to_nat r) ext_buffer) in
       '(err, cluster) ← next_cluster v k;
       if failed err then Ret (err, data, cluster) else while (read_step v) (cluster, size - remain_size, data)
   else while (read_step v) (k, size, [])) =
  Ret (read_status v (k :: t) (r + size), take (Z.to_nat size) (drop (Z.to_nat r) (chain_data v (k :: t))),
       cluster_at v (k :: t) (r + size - 1)).
Proof.
  intros L Hr Hs Hl. destruct (cluster_size_good v G) as [_ Hcs]. fold cs in Hcs. pose proof (length_read_cluster v G k) as Lk. fold cs in Lk.
  destruct (Z.ltb_spec 0 r) as [Hr0|Hr0].
  - cbv zeta. rewrite chain_data_cons, drop_app_le by lia. destruct (Z.leb_spec size (cs - r)) as [Hle|Hgt].
    + rewrite take_app_le by (rewrite length_drop; lia). rewrite cluster_at_first by (fold cs; lia).
      unfold read_status. cbn [length]. fold cs. now replace (r + size <=? _) with true by lia.
    + rewrite take_ge by (rewrite length_drop; lia). rewrite take_app_ge by (rewrite length_drop; lia). rewrite length_drop.
      replace (Z.to_nat size - (length (read_cluster v k) - Z.to_nat r))%nat with (Z.to_nat (size - (cs - r))) by lia.
      rewrite read_status_cons. fold cs. destruct t as [|k' t].
      * rewrite next_cluster_none, bind_ret by assumption. cbv beta iota. change (failed ERR_FS_EOF) with true. cbv iota.
        unfold read_status. cbn [length]. fold cs. replace (r + size - cs <=? _) with false by lia.
        cbn [chain_data map concat]. rewrite take_nil, app_nil_r. do 2 f_equal. unfold cluster_at. cbn [length]. fold cs.
        replace (Z.min _ _) with 0; [reflexivity|]. assert (1 <= (r + size - 1) / cs) by (apply Z.div_le_lower_bound; lia). lia.
      * erewrite next_cluster_some, bind_ret by eassumption. cbv beta iota. change (failed ERR_FS_SUCCESS) with false. cbv iota.
        destruct (links_next _ _ _ _ L) as [_ L'].
        pose proof (fat_read_while (k' :: t) (size - (cs - r)) (drop (Z.to_nat r) (read_cluster v k)) L' ltac:(lia) ltac:(cbn [length] in *; lia)) as W.
        change (head (k' :: t)) with k' in W. rewrite W. rewrite (cluster_at_cons v G k) by (fold cs; lia). fold cs.
        replace (size - (cs - r)) with (r + size - cs) by lia. now replace (r + size - 1 - cs) with (r + size - cs - 1) by lia.
  - assert (r = 0) as -> by lia. pose proof (fat_read_while (k :: t) size [] L Hs Hl) as W. change (head (k :: t)) with k in W.
    rewrite W. reflexivity.
Qed.

Lemma chain_data_app l m : chain_data v (l ++ m) = chain_data v l ++ chain_data v m.
Proof. unfold chain_data. now rewrite map_app, concat_app. Qed.

(** Reading from an offset is reading from the offset's place in its cluster. *)
Lemma drop_clusters l q r : (q <= length l)%nat -> 0 <= r ->
  drop (Z.to_nat (cs * Z.of_nat q + r)) (chain_data v l) = drop (Z.to_nat r) (chain_data v (drop q l)).
Proof.
  intros Hq Hr. destruct (cluster_size_good v G) as [_ Hcs]. fold cs in Hcs. rewrite <- (take_drop q l) at 1. rewrite chain_data_app.
  pose proof (length_chain_data v G (take q l)) as L. rewrite length_take, Nat.min_l in L by lia. fold cs in L.
  rewrite drop_app_ge by lia. f_equal. lia.
Qed.

Lemma cluster_at_drop l q i : (q < length l)%nat -> 0 <= i -> cluster_at v l (cs * Z.of_nat q + i) = cluster_at v (drop q l) i.
Proof.
  intros Hq Hi. destruct (cluster_size_good v G) as [_ Hcs]. fold cs in Hcs. unfold cluster_at. fold cs. rewrite length_drop, lookup_drop.
  rewrite Z.mul_comm, Z.div_add_l by lia. assert (0 <= i / cs) by (apply Z.div_pos; lia). do 2 f_equal. lia.
Qed.

Lemma read_status_drop l q x : (q <= length l)%nat -> read_status v l (cs * Z.of_nat q + x) = read_status v (drop q l) x.
Proof.
  intros Hq. unfold read_status. fold cs. rewrite length_drop.
  rewrite Nat2Z.inj_sub, Z.mul_sub_distr_l by lia.
  replace (cs * Z.of_nat q + x <=? cs * Z.of_nat (length l)) with (x <=? cs * Z.of_nat (length l) - cs * Z.of_nat q) by lia. reflexivity.
Qed.

(** read_file gives the bytes of the chain from the offset on, as many as there are,
    and leaves the cluster of the last byte it looked for. *)
Lemma fat_read_file_spec l size o : links v l -> Z.of_nat (length l) < 2 ^ 32 -> 0 <= o -> 0 < size ->
  read_file v (head l) size o =
    Ret (read_status v l (o + size), take (Z.to_nat size) (drop (Z.to_nat o) (chain_data v l)), cluster_at v l (o + size - 1)).
Proof.
  intros L Hl Ho Hs. destruct (cluster_size_good v G) as [_ Hcs]. fold cs in Hcs. unfold read_file. fold cs.
  assert (Hlen : (0 < length l)%nat) by (destruct L as [_ (? & ? & _) _]; destruct l; [discriminate|cbn; lia]).
  erewrite while_loop; [|apply skip_loop; assumption|case_test; congruence|lia]. fold cs.
  destruct (Z.ltb_spec o (cs * Z.of_nat (length l))) as [Hin|Hout].
  - rewrite bind_ret. cbv beta iota. change (failed ERR_FS_SUCCESS) with false. cbv iota.
    pose proof (Z.div_mod o cs ltac:(lia)) as Ed. pose proof (Z.mod_pos_bound o cs ltac:(lia)) as Hm.
    assert (0 <= o / cs) by (apply Z.div_pos; lia). set (q := Z.to_nat (o / cs)).
    assert (Hq : (q < length l)%nat) by (subst q; apply Nat2Z.inj_lt; rewrite Z2Nat.id by lia; apply Z.div_lt_upper_bound; lia).
    assert (Eo : o = cs * Z.of_nat q + o mod cs) by (subst q; rewrite Z2Nat.id; lia).
    destruct (drop q l) as [|k t] eqn:Eq; [apply (f_equal length) in Eq; rewrite length_drop in Eq; cbn in Eq; lia|].
    assert (Lq : links v (k :: t)) by (rewrite <- Eq; now apply links_drop).
    assert (Ek : cluster_at v l o = k).
    { rewrite Eo, cluster_at_drop, Eq by lia. apply cluster_at_first. fold cs. lia. }
    rewrite Ek. rewrite (read_from k t) by (auto; rewrite <- Eq, length_drop; lia).
    rewrite <- Eq, <- drop_clusters, <- read_status_drop, <- cluster_at_drop by lia. rewrite <- Eo.
    replace (cs * Z.of_nat q + (o mod cs + size)) with (o + size) by lia.
    now replace (cs * Z.of_nat q + (o mod cs + size - 1)) with (o + size - 1) by lia.
  - rewrite bind_ret. cbv beta iota. change (failed ERR_FS_EOF) with true. cbv iota.
    unfold read_status. fold cs. replace (o + size <=? _) with false by lia.
    pose proof (length_chain_data v G l) as Ld. fold cs in Ld. rewrite drop_ge by lia. rewrite take_nil. do 2 f_equal.
    unfold cluster_at. fold cs. assert (Z.of_nat (length l) <= o / cs) by (apply Z.div_le_lower_bound; lia).
    assert (Z.of_nat (length l) <= (o + size - 1) / cs) by (apply Z.div_le_lower_bound; lia). now rewrite !Z.min_r by lia.
Qed.

(** ** Descriptors *)

(** The descriptor's cluster is that of the byte before its position, or the first. *)
Definition fd_at (l : list Z) (file : file_description) : Prop :=
  0 <= position file <= cs * Z.of_nat (length l) /\ fd_current file = cluster_at v l (position file - 1).

Lemma s32_csize : s32 (cluster_size (bootrec v)) = cs.
Proof. destruct (cluster_size_good v G) as [_ Hcs]. apply s32_small. lia. Qed.

Lemma border_offset_bounds p : 0 <= p -> 0 <= border_offset cs p <= cs.
Proof.
  intros Hp. destruct (cluster_size_good v G) as [_ Hcs]. fold cs in Hcs. unfold border_offset. rewrite Z.rem_mod_nonneg by lia.
  pose proof (Z.mod_pos_bound p cs). case_test; lia.
Qed.

(** A read whose cluster is number [q] of the chain. *)
Lemma file_read_from l q file size : links v l -> Z.of_nat (length l) < 2 ^ 32 -> (q < length l)%nat -> fd_current file = head (drop q l) ->
  0 <= position file -> 0 < size ->
  let o := cs * Z.of_nat q + border_offset cs (position file) in
  fat32_file_read v file size =
    Ret (read_status v l (o + size), take (Z.to_nat size) (drop (Z.to_nat o) (chain_data v l)),
         set_fd_current (cluster_at v l (o + size - 1)) file).
Proof.
  intros L Hl Hq Hf Hp Hs o. destruct (cluster_size_good v G) as [_ Hcs]. fold cs in Hcs. pose proof (border_offset_bounds _ Hp) as Hb.
  unfold fat32_file_read. rewrite s32_csize. replace (cs =? 0) with false by lia. rewrite u32_small, Hf by lia.
  rewrite fat_read_file_spec by (auto using links_drop; rewrite ?length_drop; lia). rewrite bind_ret.
  rewrite <- drop_clusters, <- read_status_drop, <- cluster_at_drop by lia. subst o.
  now rewrite !Z.add_sub_assoc, !Z.add_assoc.
Qed.

Lemma cluster_at_nth l (q : nat) i : (q < length l)%nat -> i / cs = Z.of_nat q -> cluster_at v l i = head (drop q l).
Proof.
  intros Hq E. unfold cluster_at. fold cs. rewrite E, Z.min_l, Nat2Z.id by lia. unfold head.
  destruct (lookup_lt_is_Some_2 l q Hq) as [x Hx]. rewrite Hx. erewrite drop_S by exact Hx. reflexivity.
Qed.

Lemma cluster_at_beyond l i j : cs * (Z.of_nat (length l) - 1) <= i -> cs * (Z.of_nat (length l) - 1) <= j ->
  cluster_at v l i = cluster_at v l j.
Proof.
  intros Hi Hj. destruct (cluster_size_good v G) as [_ Hcs]. fold cs in Hcs. unfold cluster_at. fold cs.
  assert (Z.of_nat (length l) - 1 <= i / cs) by (apply Z.div_le_lower_bound; lia).
  assert (Z.of_nat (length l) - 1 <= j / cs) by (apply Z.div_le_lower_bound; lia). now rewrite !Z.min_r by lia.
Qed.

(** The number of the cluster of a position, and the offset in it. *)
Lemma fat_position_split p : 0 < p -> exists q, 0 <= q /\ (p - 1) / cs = q /\ p = cs * q + border_offset cs p.
Proof.
  intros Hp. destruct (cluster_size_good v G) as [_ Hcs]. fold cs in Hcs. exists ((p - 1) / cs).
  split; [apply Z.div_pos; lia|]. split; [reflexivity|]. unfold border_offset. rewrite Z.rem_mod_nonneg by lia.
  pose proof (Z.div_mod p cs ltac:(lia)). pose proof (Z.mod_pos_bound p cs ltac:(lia)).
  destruct (Z.eqb_spec (p mod cs) 0) as [E|E]; replace (0 <? p) with true by lia; cbn [andb].
  - replace ((p - 1) / cs) with (p / cs - 1); [lia|]. apply Z.div_unique with (cs - 1); lia.
  - replace ((p - 1) / cs) with (p / cs); [lia|]. apply Z.div_unique with (p mod cs - 1); lia.
Qed.

(** A descriptor that is where it says: the number of its cluster. *)
Lemma fd_at_split l file : l <> [] -> fd_at l file ->
  exists q, (q < length l)%nat /\ fd_current file = head (drop q l) /\ position file = cs * Z.of_nat q + border_offset cs (position file).
Proof.
  intros Hl [Hp Hf]. destruct (cluster_size_good v G) as [_ Hcs]. fold cs in Hcs.
  destruct (decide (position file = 0)) as [E|E].
  - exists 0%nat. assert (0 < length l)%nat by (destruct l; [congruence|cbn; lia]). split; [assumption|].
    rewrite Hf, E. split; [|unfold border_offset; rewrite Z.rem_0_l by lia; cbn; lia].
    unfold cluster_at. fold cs. replace (Z.to_nat _) with 0%nat; [destruct l; reflexivity|].
    assert ((0 - 1) / cs = -1) as -> by (symmetry; apply Z.div_unique with (cs - 1); lia). lia.
  - destruct (fat_position_split (position file)) as (q & Hq0 & Hq & Eq); [lia|]. exists (Z.to_nat q).
    assert (q < Z.of_nat (length l)) by (rewrite <- Hq; apply Z.div_lt_upper_bound; lia).
    rewrite Z2Nat.id by lia. split; [lia|]. split; [|exact Eq]. rewrite Hf. apply cluster_at_nth; lia.
Qed.

(** C11: reading through a descriptor gives the bytes of the file's chain of clusters from
    its position on, as many as there are, says ERR_FS_EOF when there were fewer than
    asked for, and leaves the descriptor's cluster right for the position after them.  (The
    disk is one that carries out every access: with the driver of the source, one whose
    clusters are single sectors, [FatDisk].) *)
Theorem fat32_file_read_spec (l : list Z) (file : file_description) (size : Z) :
  chain v l -> fd_at l file -> 0 < size ->
  let data := take (Z.to_nat size) (drop (Z.to_nat (position file)) (chain_data v l)) in
  exists file', fat32_file_read v file size = Ret (read_status v l (position file + size), data, file') /\
    position file' = position file /\ fd_node file' = fd_node file /\
    fd_at l (set_position (position file + Z.of_nat (length data)) file').
Proof.
  intros C F Hs data. pose proof (chain_links _ _ C) as L. destruct C as [_ _ T N].
  pose proof (in_table_length v l G T N) as Hl. unfold FAT_BAD_CLUSTER in Hl.
  assert (Hne : l <> []) by (intros ->; destruct L as [_ (? & ? & _) _]; discriminate).
  destruct (fd_at_split l file Hne F) as (q & Hq & Hf & Eq). destruct F as [Hp _].
  pose proof (file_read_from l q file size L ltac:(lia) Hq Hf ltac:(lia) Hs) as W. cbv zeta in W. rewrite <- Eq in W.
  eexists. split; [exact W|]. split_and!; [reflexivity..|]. pose proof (length_chain_data v G l) as Ld. fold cs in Ld.
  assert (El : Z.of_nat (length data) = Z.min size (cs * Z.of_nat (length l) - position file)).
  { subst data. rewrite length_take, length_drop. lia. }
  split; cbn [set_position set_fd_current position fd_current]; rewrite El; [lia|].
  clear W El Ld Eq. destruct (Z.le_ge_cases size (cs * Z.of_nat (length l) - position file)) as [Hle|Hge].
  - rewrite Z.min_l by exact Hle. reflexivity.
  - rewrite Z.min_r by exact Hge. destruct (cluster_size_good v G) as [_ Hcs]. fold cs in Hcs. apply cluster_at_beyond; lia.
Qed.

(** *** Seeking *)

(** The walk from cluster [k], the first [cur] bytes being before it. *)
Lemma seek_loop p t : forall k cur, links v (k :: t) -> 0 <= cur -> p <= cur + cs * Z.of_nat (length (k :: t)) ->
  cur + cs * Z.of_nat (length (k :: t)) < 2 ^ 32 -> cur - cs < p ->
  exists c, loop (seek_step v p) (length (k :: t)) (k, cur) = Ret (ERR_FS_SUCCESS, cluster_at v (k :: t) (p - cur - 1), c) /\
    p <= c + cs < 2 ^ 32 /\ 0 <= c.
Proof.
  destruct (cluster_size_good v G) as [_ Hcs]. fold cs in Hcs.
  induction t as [|k' t IH]; intros k cur L Hc Hp Hw Hlow; cbn [length]; rewrite loop_S; unfold seek_step at 2; fold cs;
    cbn [length] in Hp, Hw; rewrite (u32_small (cur + cs)) by lia.
  all: destruct (Z.leb_spec p (cur + cs)) as [Hle|Hgt]; [|].
  1, 3: rewrite bind_ret; exists cur; rewrite u32_small by lia; split; [|lia]; do 2 f_equal; [|lia]; f_equal;
    unfold cluster_at; fold cs; cbn [length];
    replace (Z.to_nat _) with 0%nat; [reflexivity|]; 
    assert ((p - cur - 1) / cs < 1) by (apply Z.div_lt_upper_bound; lia); lia.
  - lia.
  - pose proof (links_head _ _ _ L) as Hk. destruct (links_next _ _ _ _ L) as [E L']. pose proof (links_head _ _ _ L') as Hk'.
    pose proof (good_table v G) as [Ht _]. unfold FAT_BAD_CLUSTER in Ht. rewrite get_FAT_entry_spec, bind_ret, E by (auto; lia). unfold is_last.
    replace (k' =? FAT_BAD_CLUSTER) with false by (unfold FAT_BAD_CLUSTER; lia).
    replace (FAT_EOC <=? k') with false by (unfold FAT_EOC; lia). rewrite bind_ret.
    destruct (IH k' (cur + cs)) as (c & W & B); [exact L'|lia|cbn [length]; lia|cbn [length]; lia|lia|].
    cbn [length] in W. rewrite W. exists c. split; [|exact B]. rewrite (cluster_at_cons v G k k' t) by (fold cs; lia). fold cs.
    now replace (p - cur - 1 - cs) with (p - (cur + cs) - 1) by lia.
Qed.

(** [position & ~(cluster_size - 1)] *)
Lemma align_down p : 0 <= p -> Z.land p (Z.lnot (cs - 1)) = cs * (p / cs).
Proof.
  intros Hp. destruct (cluster_size_good v G) as [Ec Hcs]. destruct (good_power v G) as (k & Hk & Ek). fold cs in Ec, Hcs.
  assert (E : cs = 2 ^ (9 + k)) by (rewrite Ec, Ek, Z.pow_add_r by lia; reflexivity). rewrite E.
  rewrite <- Z.ldiff_land. replace (2 ^ (9 + k) - 1) with (Z.ones (9 + k)) by (rewrite Z.ones_equiv; lia).
  rewrite Z.ldiff_ones_r by lia. rewrite Z.shiftr_div_pow2, Z.shiftl_mul_pow2 by lia. lia.
Qed.

(** A seek forward from a descriptor whose cluster is number [q]: the code takes it
    for the cluster that holds its position. *)
Lemma seek_forward l (q : nat) node file p : links v l -> (q < length l)%nat -> fd_current file = head (drop q l) ->
  let base := cs * (position file / cs) in
  0 <= position file < p -> p <= base + cs * Z.of_nat (length l - q) -> base + cs * Z.of_nat (length l - q) < 2 ^ 32 ->
  fat32_file_seek_absolute v node file p =
    Ret (ERR_FS_SUCCESS, set_fd_current (cluster_at v l (cs * Z.of_nat q + (p - base - 1))) (set_position p file)).
Proof.
  intros L Hq Hf base Hp Hend Hend2. destruct (cluster_size_good v G) as [_ Hcs]. fold cs in Hcs.
  unfold fat32_file_seek_absolute. fold cs. replace (if p <? 0 then 0 else p) with p by (case_test; lia).
  replace (position file =? p) with false by lia. replace (position file <=? p) with true by lia.
  rewrite align_down by lia. fold base. assert (Hb : 0 <= base <= position file).
  { subst base. pose proof (Z.mul_div_le (position file) cs). assert (0 <= position file / cs) by (apply Z.div_pos; lia). lia. }
  destruct (drop q l) as [|k t] eqn:Eq; [apply (f_equal length) in Eq; rewrite length_drop in Eq; cbn in Eq; lia|].
  assert (Elen : length (k :: t) = (length l - q)%nat) by (rewrite <- Eq; apply length_drop).
  assert (Lq : links v (k :: t)) by (rewrite <- Eq; now apply links_drop). clearbody base.
  rewrite u32_small by lia. rewrite Hf. change (head (k :: t)) with k.
  destruct (seek_loop p t k base Lq) as (c & W & B); [lia|rewrite Elen; lia|rewrite Elen; lia|lia|].
  erewrite while_loop; [|exact W|congruence|rewrite Elen; nia]. rewrite bind_ret. cbv beta iota. change (failed ERR_FS_SUCCESS) with false. cbv iota.
  rewrite u32_small by lia. replace (c + cs <? p) with false by lia. rewrite cluster_at_drop, Eq by lia. reflexivity.
Qed.

(** Seeking within a file puts the descriptor at the position asked for (at 0 when it
    is negative), with the cluster that belongs to it, when it goes back or starts at the
    beginning of the file or inside a cluster. *)
Theorem fat32_file_seek_spec (l : list Z) (node : fs_node) (file : file_description) (p : Z) :
  chain v l -> node_addr node = head l -> fd_at l file -> Z.max 0 p <= cs * Z.of_nat (length l) < 2 ^ 32 ->
  Z.max 0 p <= position file \/ position file = 0 \/ position file mod cs <> 0 ->
  exists file', fat32_file_seek_absolute v node file p = Ret (ERR_FS_SUCCESS, file') /\ position file' = Z.max 0 p /\ fd_at l file'.
Proof.
  intros C Hn F Hp Hcase. pose proof (chain_links _ _ C) as L. assert (F' := F). destruct F' as [Hpos Hf].
  destruct (cluster_size_good v G) as [_ Hcs]. fold cs in Hcs.
  assert (Hne : l <> []) by (intros ->; destruct L as [_ (? & ? & _) _]; discriminate).
  assert (Eneg : fat32_file_seek_absolute v node file p = fat32_file_seek_absolute v node file (Z.max 0 p)).
  { unfold fat32_file_seek_absolute. replace (if p <? 0 then 0 else p) with (Z.max 0 p) by (case_test; lia).
    now replace (if Z.max 0 p <? 0 then 0 else Z.max 0 p) with (Z.max 0 p) by (case_test; lia). }
  rewrite Eneg. assert (Hp0 : 0 <= Z.max 0 p) by lia. revert Hp Hcase Hp0. generalize (Z.max 0 p). clear Eneg p. intros p Hp Hcase Hp0.
  destruct (Z.lt_trichotomy (position file) p) as [Hlt|[Heq|Hgt]].
  - destruct (fd_at_split l file Hne F) as (q & Hq & Hfq & Eq).
    assert (Eb : cs * (position file / cs) = cs * Z.of_nat q).
    { f_equal. symmetry. apply Z.div_unique with (border_offset cs (position file)); [|exact Eq]. left. unfold border_offset.
      rewrite Z.rem_mod_nonneg by lia. pose proof (Z.mod_pos_bound (position file) cs ltac:(lia)).
      destruct Hcase as [?|[E|?]]; [lia|rewrite E, Z.mod_0_l by lia; cbn; lia|]. case_test; lia. }
    assert (Et : cs * Z.of_nat q + cs * Z.of_nat (length l - q) = cs * Z.of_nat (length l)) by (rewrite Nat2Z.inj_sub by lia; lia).
    rewrite (seek_forward l q) by (auto; rewrite ?Eb; lia). eexists. split; [reflexivity|]. split; [reflexivity|].
    split; cbn [set_position set_fd_current position fd_current]; [lia|]. rewrite Eb. f_equal. lia.
  - exists file. unfold fat32_file_seek_absolute. replace (p <? 0) with false by lia. replace (position file =? p) with true by lia. auto.
  - destruct l as [|k t]; [congruence|].
    destruct (seek_loop p t k 0 L) as (c & W & B); [lia..|]. unfold fat32_file_seek_absolute. fold cs.
    replace (p <? 0) with false by lia. replace (position file =? p) with false by lia. replace (position file <=? p) with false by lia.
    rewrite Hn. change (head (k :: t)) with k. erewrite while_loop; [|exact W|congruence|nia]. rewrite bind_ret.
    cbv beta iota. change (failed ERR_FS_SUCCESS) with false. cbv iota.
    rewrite u32_small by lia. replace (c + cs <? p) with false by lia. eexists. split; [reflexivity|]. split; [reflexivity|].
    split; cbn [set_position set_fd_current position fd_current]; [lia|]. f_equal. lia.
Qed.

(** Seeking forward from a border between two clusters leaves the descriptor one
    cluster behind: what is read then are the bytes a whole cluster before the position. *)
Theorem fat32_seek_stale_cluster (l : list Z) (node : fs_node) (file : file_description) (p size : Z) :
  chain v l -> fd_at l file -> 0 < position file -> position file mod cs = 0 ->
  position file < p < position file + cs -> cs * (Z.of_nat (length l) + 1) < 2 ^ 32 -> 0 < size ->
  exists file' file'', fat32_file_seek_absolute v node file p = Ret (ERR_FS_SUCCESS, file') /\ position file' = p /\
    fat32_file_read v file' size =
      Ret (read_status v l (p - cs + size), take (Z.to_nat size) (drop (Z.to_nat (p - cs)) (chain_data v l)), file'').
Proof.
  intros C F Hpos Hm Hp Htot Hs. pose proof (chain_links _ _ C) as L. destruct (cluster_size_good v G) as [_ Hcs]. fold cs in Hcs.
  assert (Hne : l <> []) by (intros ->; destruct L as [_ (? & ? & _) _]; discriminate).
  destruct (fd_at_split l file Hne F) as (q & Hq & Hfq & Eq).
  assert (Ebo : border_offset cs (position file) = cs).
  { unfold border_offset. rewrite Z.rem_mod_nonneg, Hm by lia. cbn [Z.eqb andb]. now replace (0 <? position file) with true by lia. }
  rewrite Ebo in Eq.
  assert (Eb : position file / cs = Z.of_nat q + 1) by (rewrite Eq; symmetry; apply Z.div_unique with 0; lia).
  assert (Et : cs * Z.of_nat q + cs * Z.of_nat (length l - q) = cs * Z.of_nat (length l)) by (rewrite Nat2Z.inj_sub by lia; lia).
  assert (Ep : border_offset cs p = p - position file).
  { unfold border_offset. rewrite Z.rem_mod_nonneg by lia. replace (p mod cs) with (p - position file); [case_test; lia|].
    apply Z.mod_unique with (Z.of_nat q + 1); lia. }
  assert (Ec : cluster_at v l (cs * Z.of_nat q + (p - cs * (position file / cs) - 1)) = head (drop q l)).
  { apply cluster_at_nth; [exact Hq|]. symmetry. apply Z.div_unique with (p - position file - 1); lia. }
  assert (cs * 1 <= cs * Z.of_nat (length l - q)) by (apply Z.mul_le_mono_nonneg_l; lia).
  rewrite (seek_forward l q) by (auto; rewrite ?Eb; lia). rewrite Ec.
  do 2 eexists. split; [reflexivity|]. split; [reflexivity|].
  pose proof (in_table_length v l G (chain_table _ _ C) (chain_nodup _ _ C)) as Hl. unfold FAT_BAD_CLUSTER in Hl.
  rewrite (file_read_from l q) by (auto; cbn [position set_fd_current set_position]; lia).
  cbn [position set_fd_current set_position]. rewrite Ep. replace (cs * Z.of_nat q + (p - position file)) with (p - cs) by lia. reflexivity.
Qed.
End read.

(** ** Writing *)

Section write.
Context (v : volume) (G : good v).
Let cs : Z := cluster_size (bootrec v).

Lemma write_cluster_disk k l : 2 <= k < entries v -> disk (write_cluster v k l) = disk_write (disk v) (data_sector v k) l.
Proof. intros. unfold write_cluster, write_sectors. cbn [with_disk disk]. now rewrite cluster_lba. Qed.

Lemma write_cluster_bytes k l a : 2 <= k < entries v -> Z.of_nat (length l) = cs ->
  ~ (SECTOR * data_sector v k <= a < SECTOR * data_sector v k + cs) -> load8 (disk (write_cluster v k l)) a = load8 (disk v) a.
Proof. intros Hk Hl Ha. rewrite write_cluster_disk by assumption. unfold disk_write. rewrite load8_put. now rewrite decide_False by lia. Qed.

Lemma write_cluster_fat k l j : 2 <= k < entries v -> Z.of_nat (length l) = cs -> 0 <= j < entries v ->
  fat (write_cluster v k l) j = fat v j.
Proof.
  intros Hk Hl Hj. unfold fat. change (fat_base (write_cluster v k l)) with (fat_base v). f_equal. apply load32_ext. intros i Hi.
  apply write_cluster_bytes; auto. destruct (data_sector_bounds v G k Hk) as (_ & _ & B). lia.
Qed.

Lemma write_cluster_good k l : good (write_cluster v k l).
Proof. destruct G. split; auto. Qed.

Lemma write_cluster_chain k b l : 2 <= k < entries v -> Z.of_nat (length b) = cs -> chain v l -> chain (write_cluster v k b) l.
Proof.
  intros Hk Hb [P (e & He & E) T N].
  assert (U : forall j, j ∈ l -> fat (write_cluster v k b) j = fat v j).
  { intros j Hj. eapply Forall_forall in T; [|exact Hj]. cbn in T. apply write_cluster_fat; auto. lia. }
  split; auto; [eapply path_ext; eauto|]. exists e. split; [exact He|]. rewrite U; [exact E|]. now apply last_Some_elem_of.
Qed.

(** Two clusters are the same or do not overlap. *)
Lemma clusters_disjoint j k : j <> k ->
  SECTOR * data_sector v j + cs <= SECTOR * data_sector v k \/ SECTOR * data_sector v k + cs <= SECTOR * data_sector v j.
Proof.
  intros Hne. destruct (cluster_size_good v G) as [Ec Hcs]. fold cs in Ec, Hcs. unfold data_sector, SECTOR in *.
  set (spc := sectors_per_cluster (bootrec v)) in *. assert (j <= k - 1 \/ k <= j - 1) as [H|H] by lia.
  - left. assert (j * spc <= (k - 1) * spc) by (apply Z.mul_le_mono_nonneg_r; lia). lia.
  - right. assert (k * spc <= (j - 1) * spc) by (apply Z.mul_le_mono_nonneg_r; lia). lia.
Qed.

Lemma read_write_cluster k j b : 2 <= k < entries v -> 2 <= j < entries v -> Z.of_nat (length b) = cs -> bytes_list b ->
  read_cluster (write_cluster v k b) j = if j =? k then b else read_cluster v j.
Proof.
  intros Hk Hj Hb B. destruct (cluster_size_good v G) as [Ec _]. fold cs in Ec.
  rewrite (read_cluster_eq (write_cluster v k b)) by (auto using write_cluster_good). rewrite write_cluster_disk by assumption.
  change (data_sector (write_cluster v k b) j) with (data_sector v j). change (bootrec (write_cluster v k b)) with (bootrec v).
  destruct (Z.eqb_spec j k) as [->|Hne]; [apply disk_read_write; [exact B|lia]|].
  rewrite read_cluster_eq by assumption. apply disk_read_write_ne with (n := sectors_per_cluster (bootrec v)); [lia|].
  destruct (clusters_disjoint j k Hne); unfold SECTOR in *; lia.
Qed.

(** What the data of a chain is byte by byte. *)
Lemma chain_data_lookup l q k (i : nat) : l !! q = Some k -> Z.of_nat i < cs ->
  chain_data v l !! (Z.to_nat (cs * Z.of_nat q) + i)%nat = read_cluster v k !! i.
Proof.
  intros Hk Hi. pose proof (length_chain_data v G (take q l)) as L. fold cs in L. pose proof (length_read_cluster v G k) as Lk. fold cs in Lk.
  pose proof (lookup_lt_Some _ _ _ Hk). rewrite length_take, Nat.min_l in L by lia.
  rewrite <- (take_drop_middle l q k Hk) at 1. rewrite chain_data_app, chain_data_cons.
  rewrite lookup_app_r by lia. rewrite lookup_app_l by lia. f_equal. lia.
Qed.

(** Writing a cluster of a chain replaces its part of the data. *)
Lemma chain_data_write l q k b : in_table v l -> NoDup l -> l !! q = Some k -> Z.of_nat (length b) = cs -> bytes_list b ->
  chain_data (write_cluster v k b) l = splice (chain_data v l) (cs * Z.of_nat q) b.
Proof.
  intros T N Hk Hb B. destruct (cluster_size_good v G) as [_ Hcs]. fold cs in Hcs.
  assert (Hkt : 2 <= k < entries v) by (eapply Forall_lookup_1 in T; eauto).
  assert (Others : forall m, in_table v m -> k ∉ m -> chain_data (write_cluster v k b) m = chain_data v m).
  { intros m Tm Hm. unfold chain_data. f_equal. apply list_fmap_ext. intros i x Hx. apply list_elem_of_lookup_2 in Hx.
    eapply Forall_forall in Tm; [|exact Hx]. cbn in Tm. rewrite read_write_cluster by auto.
    destruct (Z.eqb_spec x k) as [->|]; [contradiction|reflexivity]. }
  pose proof (length_chain_data v G (take q l)) as L. fold cs in L. pose proof (length_read_cluster v G k) as Lk. fold cs in Lk.
  pose proof (lookup_lt_Some _ _ _ Hk). rewrite length_take, Nat.min_l in L by lia.
  pose proof (take_drop_middle l q k Hk) as Em. rewrite <- Em in T, N. rewrite <- Em. unfold splice.
  apply Forall_app in T as [T1 T2]. apply Forall_inv_tail in T2. apply NoDup_app in N as (_ & D & N2). inversion_clear N2.
  rewrite !chain_data_app, !chain_data_cons, (Others (take q l)), (Others (drop (S q) l)); auto; [|intros Hin; eapply D; [exact Hin|apply list_elem_of_here]].
  rewrite read_write_cluster, Z.eqb_refl by auto. rewrite take_app_length' by lia.
  rewrite drop_app_ge by lia. rewrite drop_app_ge by lia.
  replace (Z.to_nat (cs * Z.of_nat q) + length b - length (chain_data v (take q l)) - length (read_cluster v k))%nat with 0%nat by lia.
  reflexivity.
Qed.

(** Overwriting part of a cluster is overwriting that part of the data. *)
Lemma splice_cluster l q k o d : l !! q = Some k -> 0 <= o -> o + Z.of_nat (length d) <= cs ->
  splice (chain_data v l) (cs * Z.of_nat q) (splice (read_cluster v k) o d) = splice (chain_data v l) (cs * Z.of_nat q + o) d.
Proof.
  intros Hk Ho Hd. destruct (cluster_size_good v G) as [_ Hcs]. fold cs in Hcs. pose proof (length_read_cluster v G k) as Lk. fold cs in Lk.
  pose proof (length_chain_data v G l) as L. fold cs in L. pose proof (lookup_lt_Some _ _ _ Hk) as Hq.
  assert (Hql : cs * Z.of_nat q + cs <= cs * Z.of_nat (length l)) by nia.
  assert (Ls : Z.of_nat (length (splice (read_cluster v k) o d)) = cs) by (rewrite length_splice by lia; exact Lk).
  apply list_eq. intros j. rewrite !lookup_splice by lia. rewrite Ls.
  destruct (decide (cs * Z.of_nat q <= Z.of_nat j < cs * Z.of_nat q + cs)) as [Hj|Hj].
  - repeat case_decide; try lia.
    + f_equal. lia.
    + rewrite <- (chain_data_lookup l q k) by (auto; lia). f_equal. lia.
  - repeat case_decide; try lia; reflexivity.
Qed.

Lemma frame_read_cluster v' k : frame v v' -> 2 <= k < entries v -> read_cluster v' k = read_cluster v k.
Proof.
  intros F Hk. assert (G' : good v') by (eapply good_frame; eauto). pose proof (entries_frame _ _ F) as En.
  rewrite !read_cluster_eq by (auto; lia). destruct (data_sector_bounds v G k Hk) as (_ & _ & B). destruct F as [S B' _ Fb].
  unfold data_sector in *. rewrite S, B'. apply disk_read_ext. intros a Ha. apply Fb. unfold outside.
  pose proof (good_fsinfo v G). unfold fat_base, fsinfo_base, SECTOR in *. lia.
Qed.

Lemma frame_chain_data v' l : frame v v' -> in_table v l -> chain_data v' l = chain_data v l.
Proof.
  intros F T. unfold chain_data. f_equal. apply list_fmap_ext. intros i x Hx. apply list_elem_of_lookup_2 in Hx.
  eapply Forall_forall in T; [|exact Hx]. cbn in T. now apply frame_read_cluster.
Qed.

Lemma reach_inside k o : 0 <= o < cs -> while reach_step (v, k, o) = Ret (ERR_FS_SUCCESS, v, k, o).
Proof.
  intros Ho. destruct (cluster_size_good v G) as [_ Hcs]. fold cs in Hcs. eapply (while_loop _ 1); [|congruence|lia].
  rewrite loop_S. unfold reach_step at 2. fold cs. rewrite u32_small by lia. now replace (cs <=? o) with false by lia.
Qed.

Lemma set_fd_current_same file : set_fd_current (fd_current file) file = file.
Proof. now destruct file. Qed.

(** The numbers of a write that starts inside cluster number [q]. *)
Lemma write_start l node file data : links v l -> fd_at v l file -> has_flag (mode file) FILE_OPEN_APPEND = false ->
  position file mod cs <> 0 -> position file + Z.of_nat (length data) < 2 ^ 31 -> 
  exists q k, l !! q = Some k /\ position file = cs * Z.of_nat q + position file mod cs /\ fd_current file = k /\
    fat32_file_write v node file data =
      '(err, actual, cluster, v) ← write_file v k data (position file mod cs) (size node) (position file + Z.of_nat (length data));
      Ret (err, actual, set_fd_current cluster file, v).
Proof.
  intros L F Hm Hp Hb. destruct (cluster_size_good v G) as [_ Hcs]. fold cs in Hcs.
  assert (Hne : l <> []) by (intros ->; destruct L as [_ (? & ? & _) _]; discriminate).
  destruct (fd_at_split v G l file Hne F) as (q & Hq & Hf & Eq). fold cs in Eq. destruct F as [Hpos _].
  assert (Ebo : border_offset cs (position file) = position file mod cs).
  { unfold border_offset. rewrite Z.rem_mod_nonneg by lia. now replace (position file mod cs =? 0) with false by lia. }
  destruct (lookup_lt_is_Some_2 l q Hq) as [k Hk]. exists q, k. rewrite (drop_S l k q Hk) in Hf. rewrite Ebo in Eq.
  split_and!; auto. unfold fat32_file_write. rewrite (s32_csize v G). fold cs. replace (cs =? 0) with false by lia. rewrite Hm.
  rewrite s32_small, u32_small, Ebo by lia. rewrite Hf. reflexivity.
Qed.

(** At the end of a cluster the walk goes on to the next one. *)
Lemma reach_next k k' t : links v (k :: k' :: t) -> while reach_step (v, k, cs) = Ret (ERR_FS_SUCCESS, v, k', 0).
Proof.
  intros L. destruct (cluster_size_good v G) as [_ Hcs]. fold cs in Hcs. pose proof (links_head _ _ _ L). destruct (links_next _ _ _ _ L) as [E L']. pose proof (links_head _ _ _ L').
  pose proof (good_table v G) as [Ht _]. unfold FAT_BAD_CLUSTER in Ht. eapply (while_loop _ 2); [|congruence|lia].
  rewrite loop_S. unfold reach_step at 2. fold cs. rewrite u32_small by lia. replace (cs <=? cs) with true by lia.
  rewrite get_FAT_entry_spec, bind_ret, E by (auto; lia). unfold is_last, FAT_EOC, FAT_BAD_CLUSTER.
  replace (268435448 <=? k') with false by lia. replace (k' =? 268435447) with false by lia. rewrite bind_ret, Z.sub_diag. change (s32 0) with 0.
  rewrite loop_S. unfold reach_step at 2. fold cs. change (u32 0) with 0. replace (cs <=? 0) with false by lia. reflexivity.
Qed.

(** The walk before a write ends in the cluster the position is in. *)
Lemma reach_position l file : links v l -> fd_at v l file -> position file < cs * Z.of_nat (length l) ->
  exists k, l !! Z.to_nat (position file / cs) = Some k /\
    while reach_step (v, fd_current file, border_offset cs (position file)) = Ret (ERR_FS_SUCCESS, v, k, position file mod cs).
Proof.
  intros L F Hlt. destruct (cluster_size_good v G) as [_ Hcs]. fold cs in Hcs.
  assert (Hne : l <> []) by (intros ->; destruct L as [_ (? & ? & _) _]; discriminate).
  destruct (fd_at_split v G l file Hne F) as (q & Hq & Hf & Eq). fold cs in Eq. destruct F as [Hpos _]. destruct (lookup_lt_is_Some_2 l q Hq) as [k Hk].
  rewrite (drop_S l k q Hk) in Hf. change (head (k :: drop (S q) l)) with k in Hf. rewrite Hf. unfold border_offset in *. rewrite Z.rem_mod_nonneg in * by lia.
  pose proof (Z.mod_pos_bound (position file) cs ltac:(lia)) as Hm. destruct ((position file mod cs =? 0) && (0 <? position file)) eqn:Eb.
  - apply andb_true_iff in Eb as [Em Hp0]. apply Z.eqb_eq in Em. rewrite Em. assert (Eq' : position file = cs * (Z.of_nat q + 1)) by lia.
    assert (Ed : position file / cs = Z.of_nat (S q)) by (rewrite Eq', Z.mul_comm, Z.div_mul by lia; lia). rewrite Ed, Nat2Z.id.
    assert (Hq' : (S q < length l)%nat) by (rewrite Eq' in Hlt; apply Z.mul_lt_mono_pos_l in Hlt; lia). destruct (lookup_lt_is_Some_2 l (S q) Hq') as [k' Hk']. exists k'. split; [exact Hk'|].
    apply (reach_next k k' (drop (S (S q)) l)). rewrite <- (drop_S l k' (S q) Hk'), <- (drop_S l k q Hk). now apply links_drop.
  - assert (Ed : position file / cs = Z.of_nat q) by (symmetry; apply Z.div_unique with (position file mod cs); lia). rewrite Ed, Nat2Z.id. exists k. split; [exact Hk|]. apply reach_inside. lia.
Qed.

(** What a write within one cluster puts there besides the data: zeros to the end of the
    cluster, when it starts with the cluster and goes beyond the size of the file. *)
Definition padding (node : fs_node) (pos size : Z) : list Z :=
  if (pos mod cs =? 0) && (Fs.size node <? pos + size) then replicate (Z.to_nat (cs - size)) 0 else [].

Lemma write_within node k data pos : let size := Z.of_nat (length data) in 0 < size <= cs - pos mod cs -> (pos mod cs = 0 -> size < cs) ->
  0 <= pos -> pos + size < 2 ^ 31 -> forall k0 o, while reach_step (v, k0, o) = Ret (ERR_FS_SUCCESS, v, k, pos mod cs) ->
  write_file v k0 data o (Fs.size node) (pos + size) =
    Ret (ERR_FS_SUCCESS, size, k, write_cluster v k (splice (read_cluster v k) (pos mod cs) (data ++ padding node pos size))).
Proof.
  intros size Hs Hz Hp Hb k0 o W. destruct (cluster_size_good v G) as [_ Hcs]. fold cs in Hcs. pose proof (Z.mod_pos_bound pos cs ltac:(lia)) as Hm.
  pose proof (length_read_cluster v G k) as Lk. fold cs in Lk.
  unfold write_file. rewrite W, bind_ret. cbv beta iota. change (failed ERR_FS_SUCCESS) with false. cbv iota zeta. fold cs size. unfold padding.
  destruct (Z.eqb_spec (pos mod cs) 0) as [E|E]; cbn [andb].
  - rewrite E. replace (0 <? 0) with false by lia. specialize (Hz E). unfold write_rest. fold cs size. replace (cs =? 0) with false by lia.
    rewrite Z.div_small by lia. change (0 <? s32 0) with false. cbv iota. rewrite bind_ret. cbv beta iota. cbn [negb].
    eapply (while_loop _ 1); [|congruence|lia]. rewrite loop_S. unfold write_step at 2. fold cs size. replace (size <? cs) with true by lia. rewrite bind_ret. cbn [Z.add].
    do 4 f_equal. destruct (Z.leb_spec (pos + size) (Fs.size node)) as [Le|Gt].
    + replace (Fs.size node <? pos + size) with false by lia. now rewrite app_nil_r.
    + replace (Fs.size node <? pos + size) with true by lia. unfold splice. rewrite (drop_ge (read_cluster v k)); [now rewrite app_nil_r|].
      rewrite length_app, length_replicate. subst size. lia.
  - replace (0 <? pos mod cs) with true by lia. replace (size <=? cs - pos mod cs) with true by lia. rewrite take_ge by (subst size; lia). now rewrite app_nil_r.
Qed.

(** C14: a write within one cluster of the file's chain, from any position in it and not
    for appending, puts the data at the position: no other byte of the file changes, unless
    the write starts with the cluster and goes beyond the file's size, when the rest of the
    cluster becomes zero ([padding]); nor does any byte of the table or of the rest of the
    disk.  The descriptor is left with the cluster written to, and reading the data back
    gives it.  (One write is left out: of a whole cluster, from its start, which relinks the
    chain.  The disk is one that carries out every access, as for reading.) *)
Theorem fat32_file_write_inside (l : list Z) (node : fs_node) (file : file_description) (data : list Z) :
  let size := Z.of_nat (length data) in
  let pos := position file in
  chain v l -> fd_at v l file -> has_flag (mode file) FILE_OPEN_APPEND = false -> bytes_list data ->
  pos < cs * Z.of_nat (length l) -> 0 < size <= cs - pos mod cs -> (pos mod cs = 0 -> size < cs) -> pos + size < 2 ^ 31 ->
  exists k v', l !! Z.to_nat (pos / cs) = Some k /\
    fat32_file_write v node file data = Ret (ERR_FS_SUCCESS, size, set_fd_current k file, v') /\ good v' /\ chain v' l /\
    chain_data v' l = splice (chain_data v l) pos (data ++ padding node pos size) /\
    fd_at v' l (set_position (pos + size) (set_fd_current k file)) /\
    (forall a, ~ (SECTOR * data_sector v k <= a < SECTOR * data_sector v k + cs) -> load8 (disk v') a = load8 (disk v) a) /\
    exists file', fat32_file_read v' file size = Ret (ERR_FS_SUCCESS, data, file').
Proof.
  intros size pos C F Hm B Hp Hs Hz Hb. pose proof (chain_links _ _ C) as L. destruct (cluster_size_good v G) as [_ Hcs]. fold cs in Hcs.
  assert (Hpos : 0 <= pos) by apply F. destruct (reach_position l file L F Hp) as (k & Hk & W). fold pos in Hk, W. set (q := Z.to_nat (pos / cs)) in *.
  assert (Hq0 : 0 <= pos / cs) by (apply Z.div_pos; lia). assert (Eq : pos = cs * Z.of_nat q + pos mod cs) by (unfold q; rewrite Z2Nat.id by lia; apply Z.div_mod; lia).
  assert (Hkt : 2 <= k < entries v) by (pose proof (chain_table _ _ C) as T; eapply Forall_lookup_1 in T; eauto).
  pose proof (length_read_cluster v G k) as Lk. fold cs in Lk. pose proof (Z.mod_pos_bound pos cs ltac:(lia)) as Hmod.
  pose proof (write_within node k data pos Hs Hz Hpos Hb _ _ W) as Wf. fold size in Wf.
  set (o := pos mod cs) in *. set (patch := data ++ padding node pos size) in *. set (new := splice (read_cluster v k) o patch) in *.
  assert (Lp : size <= Z.of_nat (length patch) <= cs - o).
  { unfold patch, padding. rewrite length_app. fold o. destruct (Z.eqb_spec o 0); cbn [andb]; [destruct (_ <? _)|]; rewrite ?length_replicate; cbn [length]; subst size; lia. }
  assert (Ln : Z.of_nat (length new) = cs) by (subst new; rewrite length_splice by lia; exact Lk).
  assert (Bp : bytes_list patch).
  { unfold patch, padding. apply Forall_app_2; [exact B|]. destruct (_ && _); [|constructor]. apply Forall_replicate. lia. }
  assert (Bn : bytes_list new) by (subst new; apply bytes_list_splice; [unfold read_cluster, read_sectors; apply disk_read_bytes|exact Bp]).
  pose proof (write_cluster_chain k new l Hkt Ln C) as C'. pose proof (write_cluster_good k new) as G'.
  pose proof (lookup_lt_Some _ _ _ Hk) as Hq. pose proof (length_chain_data v G l) as Ld. fold cs in Ld.
  assert (Hql : cs * Z.of_nat q + cs <= cs * Z.of_nat (length l)) by nia.
  assert (Ed : chain_data (write_cluster v k new) l = splice (chain_data v l) pos patch).
  { rewrite (chain_data_write l q k) by (auto; apply C). rewrite Eq. apply splice_cluster; auto; lia. }
  exists k, (write_cluster v k new). split_and!; auto.
  - unfold fat32_file_write. rewrite (s32_csize v G). fold cs. replace (cs =? 0) with false by lia. rewrite Hm. fold pos size.
    rewrite s32_small, u32_small, Wf by (fold pos; lia). reflexivity.
  - split; cbn [set_position set_fd_current position fd_current]; change (cluster_size (bootrec (write_cluster v k new))) with cs; [lia|].
    change (cluster_at (write_cluster v k new) l (pos + size - 1)) with (cluster_at v l (pos + size - 1)).
    rewrite (cluster_at_nth v l q); [now rewrite (drop_S l k q Hk)|lia|]. fold cs. symmetry. apply Z.div_unique with (o + size - 1); lia.
  - intros a Ha. now apply write_cluster_bytes.
  - assert (F' : fd_at (write_cluster v k new) l file) by exact F. assert (Hne : l <> []) by (intros ->; cbn in Hq; lia).
    destruct (fd_at_split (write_cluster v k new) G' l file Hne F') as (q0 & Hq0' & Hf0 & Eq0). change (cluster_size (bootrec (write_cluster v k new))) with cs in Eq0.
    pose proof (file_read_from (write_cluster v k new) G' l q0 file size (chain_links _ _ C')) as Rf.
    change (cluster_size (bootrec (write_cluster v k new))) with cs in Rf.
    pose proof (in_table_length v l G (chain_table _ _ C) (chain_nodup _ _ C)) as Hl. unfold FAT_BAD_CLUSTER in Hl.
    specialize (Rf ltac:(lia) Hq0' Hf0 Hpos ltac:(lia)). cbv zeta in Rf. rewrite <- Eq0 in Rf. fold pos in Rf. rewrite Ed in Rf. eexists. rewrite Rf. unfold read_status.
    change (cluster_size (bootrec (write_cluster v k new))) with cs. replace (pos + size <=? cs * Z.of_nat (length l)) with true by lia.
    do 3 f_equal. unfold splice, patch. rewrite drop_app_length'; [|rewrite length_take, Nat.min_l by lia; reflexivity].
    rewrite <- app_assoc. apply take_app_length'. subst size. lia.
Qed.

(** The last, partial cluster of a write behind the old end of the file. *)
Lemma write_rest_tail k data actual file_size next_position : Z.of_nat (length data) < cs -> file_size < next_position ->
  write_rest v k data actual file_size next_position =
    Ret (ERR_FS_SUCCESS, actual + Z.of_nat (length data), k,
         write_cluster v k (data ++ replicate (Z.to_nat (cs - Z.of_nat (length data))) 0)).
Proof.
  intros Hl Hf. destruct (cluster_size_good v G) as [_ Hcs]. fold cs in Hcs. unfold write_rest. fold cs. replace (cs =? 0) with false by lia.
  rewrite Z.div_small by lia. change (0 <? s32 0) with false. cbv iota. rewrite bind_ret. cbv beta iota. cbn [negb].
  eapply (while_loop _ 1); [|congruence|lia]. rewrite loop_S. unfold write_step at 2. fold cs.
  replace (Z.of_nat (length data) <? cs) with true by lia. replace (next_position <=? file_size) with false by lia. reflexivity.
Qed.


End write.

Lemma splice_splice l i a b : 0 <= i -> i + Z.of_nat (length a) <= Z.of_nat (length l) -> length a = length b ->
  splice (splice l i a) i b = splice l i b.
Proof.
  intros Hi Ha E. apply list_eq. intros j. rewrite !lookup_splice by (rewrite ?length_splice; lia). rewrite E. repeat case_decide; reflexivity.
Qed.

Lemma padded_bytes data n : bytes_list data -> bytes_list (data ++ replicate n 0).
Proof. intros B. apply Forall_app_2; [exact B|]. apply Forall_replicate. lia. Qed.

Section border.
Context (v : volume) (G : good v).
Let cs : Z := cluster_size (bootrec v).

(** A write at the end of the file that crosses into the next cluster says that it has
    written everything, but what should go into the next cluster overwrites the one the
    write started in, and the rest of that cluster becomes zero: nothing of the data before
    the border is left. *)
Theorem fat32_file_write_crossing (l : list Z) (node : fs_node) (file : file_description) (data : list Z) :
  let size := Z.of_nat (length data) in
  let pos := position file in
  let remain := cs - pos mod cs in
  let rest := drop (Z.to_nat remain) data in
  chain v l -> fd_at v l file -> has_flag (mode file) FILE_OPEN_APPEND = false -> bytes_list data ->
  pos mod cs <> 0 -> remain < size < remain + cs -> Fs.size node <= pos -> pos + size < 2 ^ 31 ->
  exists v', fat32_file_write v node file data = Ret (ERR_FS_SUCCESS, size, file, v') /\ chain v' l /\
    chain_data v' l = splice (chain_data v l) (cs * (pos / cs)) (rest ++ replicate (Z.to_nat (cs - Z.of_nat (length rest))) 0).
Proof.
  intros size pos remain rest C F Hm B Hp Hs Hn Hb. pose proof (chain_links _ _ C) as L.
  destruct (cluster_size_good v G) as [_ Hcs]. fold cs in Hcs.
  destruct (write_start v G l node file data L F Hm Hp Hb) as (q & k & Hk & Eq & Hf & ->). fold cs in Eq |- *. fold size pos in Eq |- *.
  assert (Hkt : 2 <= k < entries v) by (pose proof (chain_table _ _ C) as T; eapply Forall_lookup_1 in T; eauto).
  pose proof (length_read_cluster v G k) as Lk. fold cs in Lk. pose proof (Z.mod_pos_bound pos cs ltac:(lia)) as Hmod.
  assert (Eqd : pos / cs = Z.of_nat q) by (symmetry; apply Z.div_unique with (pos mod cs); lia). rewrite Eqd.
  set (o := pos mod cs) in *. set (new := splice (read_cluster v k) o (take (Z.to_nat remain) data)).
  assert (Lt : Z.of_nat (length (take (Z.to_nat remain) data)) = remain) by (rewrite length_take; lia).
  assert (Ln : Z.of_nat (length new) = cs) by (subst new; rewrite length_splice by lia; exact Lk).
  assert (Lr : Z.of_nat (length rest) = size - remain) by (subst rest; rewrite length_drop; lia).
  assert (Bn : bytes_list new).
  { subst new. apply bytes_list_splice; [unfold read_cluster, read_sectors; apply disk_read_bytes|now apply Forall_take]. }
  set (v1 := write_cluster v k new). assert (G1 : good v1) by now apply write_cluster_good.
  assert (C1 : chain v1 l) by now apply write_cluster_chain.
  set (pad := rest ++ replicate (Z.to_nat (cs - Z.of_nat (length rest))) 0).
  assert (Lp : Z.of_nat (length pad) = cs) by (subst pad; rewrite length_app, length_replicate; lia).
  assert (Bp : bytes_list pad) by (apply padded_bytes; unfold rest; apply Forall_drop; exact B).
  exists (write_cluster v1 k pad). pose proof (lookup_lt_Some _ _ _ Hk) as Hq. pose proof (length_chain_data v G l) as Ld. fold cs in Ld.
  assert (Hql : cs * Z.of_nat q + cs <= cs * Z.of_nat (length l)) by nia.
  split_and!.
  - unfold write_file. rewrite (reach_inside v G) by (fold cs; lia). rewrite bind_ret. cbv beta iota. change (failed ERR_FS_SUCCESS) with false. cbv iota.
    replace (0 <? o) with true by lia. cbv zeta. fold cs size. fold remain. replace (size <=? remain) with false by lia.
    fold new. fold v1. fold rest. rewrite (write_rest_tail v1 G1) by (change (cluster_size (bootrec v1)) with cs; lia).
    change (cluster_size (bootrec v1)) with cs. fold pad. rewrite bind_ret.
    replace (set_fd_current k file) with file by (rewrite <- Hf; symmetry; apply set_fd_current_same).
    now replace (remain + Z.of_nat (length rest)) with size by lia.
  - now apply write_cluster_chain.
  - rewrite (chain_data_write v1 G1 l q k) by (auto; apply C1). subst v1. rewrite (chain_data_write v G l q k) by (auto; apply C).
    change (cluster_size (bootrec (write_cluster v k new))) with cs. fold cs. apply splice_splice; lia.
Qed.

(** The move to a new cluster at the border behind the last one. *)
Lemma reach_border l k : chain v l -> last l = Some k ->
  let hint := available_clusters_start (fsinfo v) in
  2 <= hint <= entries v -> frees v hint <> [] -> u32 (free_cluster_count (fsinfo v)) = free_cluster_count (fsinfo v) ->
  exists v1, while reach_step (v, k, cs) = Ret (ERR_FS_SUCCESS, v1, head (frees v hint), 0) /\
    chain v1 (l ++ [head (frees v hint)]) /\ frame v v1.
Proof.
  intros C Hk hint Hh Hfr Hc. destruct (cluster_size_good v G) as [_ Hcs]. fold cs in Hcs.
  destruct (frees v hint) as [|new fr] eqn:Efr; [congruence|]. 
  destruct (expand_cluster_chain_spec v l k 1 false G C Hk Hh) as (v1 & E & C1 & F1 & _);
    [fold hint; rewrite Efr; cbn; lia|exact Hc|]. fold hint in E, C1. rewrite Efr in E, C1. cbn [take] in E, C1. rewrite take_0 in E, C1.
  change (Z.of_nat 1) with 1 in E. change (head [new]) with new in E. exists v1. change (head (new :: fr)) with new. split; [|auto].
  assert (Hn : 2 <= new < entries v).
  { pose proof (elem_of_frees v hint new) as W. rewrite Efr in W. destruct W as [W _]. specialize (W (list_elem_of_here _ _)). lia. }
  assert (Hkt : 2 <= k < entries v).
  { pose proof (chain_table _ _ C) as T. eapply Forall_forall in T; [exact T|]. now apply last_Some_elem_of. }
  pose proof (good_table v G) as [Ht _]. unfold FAT_BAD_CLUSTER in Ht.
  destruct (chain_last _ _ C) as (e & He & Ee). rewrite Hk in He. injection He as <-.
  eapply (while_loop _ 2); [|congruence|lia]. rewrite loop_S. unfold reach_step at 2. fold cs. rewrite u32_small by lia.
  rewrite Z.leb_refl. rewrite get_FAT_entry_spec, bind_ret by (auto; lia). unfold is_last. replace (FAT_EOC <=? fat v k) with true by lia.
  replace (cs =? 0) with false by lia. rewrite Z.div_same, E by lia. rewrite !bind_ret. replace (new =? 0) with false by lia.
  replace (cs - cs * 1) with 0 by lia. rewrite loop_S. unfold reach_step at 2.
  rewrite (frame_bootrec _ _ F1). fold cs. change (s32 0) with 0. change (u32 0) with 0. now replace (cs <=? 0) with false by lia.
Qed.

(** A write at the end of a file that fills its last cluster takes a new cluster for
    the data, behind the others, and fills the rest of it with zeros. *)
Theorem fat32_file_append_cluster (l : list Z) (node : fs_node) (file : file_description) (data : list Z) :
  let size := Z.of_nat (length data) in
  let pos := position file in
  let hint := available_clusters_start (fsinfo v) in
  let new := head (frees v hint) in
  chain v l -> fd_at v l file -> has_flag (mode file) FILE_OPEN_APPEND = false -> bytes_list data ->
  pos = cs * Z.of_nat (length l) -> 0 < size < cs -> Fs.size node <= pos -> pos + size < 2 ^ 31 ->
  2 <= hint <= entries v -> frees v hint <> [] -> u32 (free_cluster_count (fsinfo v)) = free_cluster_count (fsinfo v) ->
  exists file' v', fat32_file_write v node file data = Ret (ERR_FS_SUCCESS, size, file', v') /\ good v' /\ chain v' (l ++ [new]) /\
    chain_data v' (l ++ [new]) = chain_data v l ++ data ++ replicate (Z.to_nat (cs - size)) 0 /\
    fd_at v' (l ++ [new]) (set_position (pos + size) file').
Proof.
  intros size pos hint new C F Hm B Hp Hs Hn Hb Hh Hfr Hc. pose proof (chain_links _ _ C) as L.
  destruct (cluster_size_good v G) as [_ Hcs]. fold cs in Hcs.
  destruct (chain_last _ _ C) as (k & Hk & _).
  destruct (reach_border l k C Hk Hh Hfr Hc) as (v1 & E & C1 & F1). fold hint new in E, C1.
  assert (Hlen : (0 < length l)%nat) by (destruct l; [discriminate|cbn; lia]).
  assert (Hcl : cs * 1 <= cs * Z.of_nat (length l)) by (apply Z.mul_le_mono_nonneg_l; lia).
  assert (Hfd : fd_current file = k).
  { destruct F as [_ ->]. fold pos. rewrite Hp. rewrite (cluster_at_nth v l (length l - 1)).
    - rewrite last_lookup in Hk. replace (pred (length l)) with (length l - 1)%nat in Hk by lia. now rewrite (drop_S l k _ Hk).
    - lia.
    - fold cs. rewrite Nat2Z.inj_sub by lia. symmetry. apply Z.div_unique with (cs - 1); lia. }
  assert (Hbo : border_offset cs pos = cs).
  { unfold border_offset. rewrite Hp, Z.rem_mod_nonneg by lia. rewrite Z.mul_comm, Z_mod_mult. now replace (0 <? _) with true by lia. }
  assert (G1 : good v1) by (eapply good_frame; eauto). assert (Ecs : cluster_size (bootrec v1) = cs) by (now rewrite (frame_bootrec _ _ F1)).
  set (pad := data ++ replicate (Z.to_nat (cs - size)) 0).
  assert (Lp : Z.of_nat (length pad) = cs) by (subst pad; rewrite length_app, length_replicate; lia).
  assert (Bp : bytes_list pad) by now apply padded_bytes.
  assert (Hq : (l ++ [new]) !! length l = Some new) by (rewrite lookup_app_r, Nat.sub_diag by lia; reflexivity).
  assert (Hnt : 2 <= new < entries v1) by (pose proof (chain_table _ _ C1) as T; eapply Forall_lookup_1 in T; [exact T|exact Hq]).
  exists (set_fd_current new file), (write_cluster v1 new pad). split_and!.
  - unfold fat32_file_write. rewrite (s32_csize v G). fold cs. replace (cs =? 0) with false by lia. rewrite Hm. fold size pos.
    rewrite s32_small, u32_small, Hbo, Hfd by lia. unfold write_file. rewrite E, bind_ret. cbv beta iota.
    change (failed ERR_FS_SUCCESS) with false. cbv iota. change (0 <? 0) with false. cbv iota.
    rewrite (write_rest_tail v1 G1) by (rewrite ?Ecs; lia). rewrite Ecs. reflexivity.
  - now apply write_cluster_good.
  - apply write_cluster_chain; rewrite ?Ecs; auto.
  - rewrite (chain_data_write v1 G1 _ (length l) new) by (rewrite ?Ecs; auto; apply C1). rewrite Ecs.
    rewrite (chain_data_app v1). rewrite (frame_chain_data v G v1 l F1) by apply C. pose proof (length_chain_data v G l) as Ld. fold cs in Ld.
    unfold splice. rewrite take_app_length' by lia. f_equal. fold pad. rewrite drop_ge; [apply app_nil_r|]. rewrite length_app. unfold chain_data at 2. cbn [map concat]. rewrite app_nil_r.
    pose proof (length_read_cluster v1 G1 new) as Ln. rewrite Ecs in Ln. lia.
  - split; cbn [set_position set_fd_current position fd_current]; change (cluster_size (bootrec (write_cluster v1 new pad))) with (cluster_size (bootrec v1)); rewrite ?Ecs.
    + rewrite length_app. cbn [length]. lia.
    + change (cluster_at (write_cluster v1 new pad)) with (cluster_at v1). rewrite (cluster_at_nth v1 _ (length l)).
      * rewrite (drop_S _ _ _ Hq). reflexivity.
      * rewrite length_app. cbn [length]. lia.
      * rewrite Ecs. symmetry. apply Z.div_unique with (size - 1); lia.
Qed.
End border.

Module Runs.
Import FatChain.Runs.
Definition node : fs_node := FsNode [97] 0 0 0 0 0 0 0 0 0 0 600 0 1 3 2 0.
Definition file (pos cluster : Z) : file_description := FileDescription 0 3 pos cluster 0.

Lemma fd_at_file pos cluster : 0 <= pos <= 1536 -> cluster = cluster_at vol [3; 5; 6] (pos - 1) -> fd_at vol [3; 5; 6] (file pos cluster).
Proof. intros Hp ->. split; [exact Hp|reflexivity]. Qed.

Lemma fat32_file_read_witness :
  exists file', fat32_file_read vol (file 515 5) 100 =
      Ret (read_status vol [3; 5; 6] (515 + 100), take 100 (drop 515 (chain_data vol [3; 5; 6])), file') /\
    position file' = 515 /\ fd_node file' = 0 /\
    fd_at vol [3; 5; 6] (set_position (515 + Z.of_nat (length (take 100 (drop 515 (chain_data vol [3; 5; 6]))))) file').
Proof.
  apply (fat32_file_read_spec vol vol_good [3; 5; 6] (file 515 5) 100); [exact vol_chain|apply fd_at_file; [lia|reflexivity]|lia].
Defined.

Lemma fat32_file_seek_witness :
  exists file', fat32_file_seek_absolute vol node (file 515 5) 1100 = Ret (ERR_FS_SUCCESS, file') /\ position file' = 1100 /\
    fd_at vol [3; 5; 6] file'.
Proof.
  apply (fat32_file_seek_spec vol vol_good [3; 5; 6] node (file 515 5) 1100);
    [exact vol_chain|reflexivity|apply fd_at_file; [lia|reflexivity]|vm_compute; intuition congruence|right; right; vm_compute; congruence].
Defined.

Lemma fat32_seek_stale_witness :
  exists file' file'', fat32_file_seek_absolute vol node (file 512 3) 520 = Ret (ERR_FS_SUCCESS, file') /\ position file' = 520 /\
    fat32_file_read vol file' 10 = Ret (read_status vol [3; 5; 6] (520 - 512 + 10), take 10 (drop 8 (chain_data vol [3; 5; 6])), file'').
Proof.
  apply (fat32_seek_stale_cluster vol vol_good [3; 5; 6] node (file 512 3) 520 10);
    [exact vol_chain|apply fd_at_file; [lia|reflexivity]|vm_compute; reflexivity|reflexivity|vm_compute; intuition congruence|vm_compute; reflexivity|lia].
Defined.

Definition some_bytes (n : nat) : list Z := replicate n 7.
Lemma some_bytes_list n : bytes_list (some_bytes n).
Proof. apply Forall_replicate. lia. Qed.

Lemma fat32_file_write_inside_witness :
  exists k v', [3; 5; 6] !! Z.to_nat (512 / 512) = Some k /\
    fat32_file_write vol node (file 512 3) (some_bytes 100) = Ret (ERR_FS_SUCCESS, 100, set_fd_current k (file 512 3), v') /\ good v' /\
    chain v' [3; 5; 6] /\ chain_data v' [3; 5; 6] = splice (chain_data vol [3; 5; 6]) 512 (some_bytes 100 ++ replicate 412 0) /\
    fd_at v' [3; 5; 6] (set_position (512 + 100) (set_fd_current k (file 512 3))) /\
    (forall a, ~ (SECTOR * data_sector vol k <= a < SECTOR * data_sector vol k + 512) -> load8 (disk v') a = load8 (disk vol) a) /\
    exists file', fat32_file_read v' (file 512 3) 100 = Ret (ERR_FS_SUCCESS, some_bytes 100, file').
Proof.
  apply (fat32_file_write_inside vol vol_good [3; 5; 6] node (file 512 3) (some_bytes 100));
    [exact vol_chain|apply fd_at_file; [lia|reflexivity]|reflexivity|apply some_bytes_list|vm_compute; reflexivity|
     vm_compute; intuition congruence|vm_compute; congruence|vm_compute; reflexivity].
Defined.

Lemma fat32_file_write_crossing_witness :
  exists v', fat32_file_write vol node (file 1000 5) (some_bytes 40) = Ret (ERR_FS_SUCCESS, 40, file 1000 5, v') /\ chain v' [3; 5; 6] /\
    chain_data v' [3; 5; 6] = splice (chain_data vol [3; 5; 6]) 512 (some_bytes 16 ++ replicate 496 0).
Proof.
  apply (fat32_file_write_crossing vol vol_good [3; 5; 6] node (file 1000 5) (some_bytes 40));
    [exact vol_chain|apply fd_at_file; [lia|reflexivity]|reflexivity|apply some_bytes_list|vm_compute; congruence|
     vm_compute; intuition congruence|vm_compute; congruence|vm_compute; reflexivity].
Defined.

Lemma fat32_file_append_witness :
  exists file' v', fat32_file_write vol node (file 1536 6) (some_bytes 40) = Ret (ERR_FS_SUCCESS, 40, file', v') /\ good v' /\
    chain v' ([3; 5; 6] ++ [4]) /\
    chain_data v' ([3; 5; 6] ++ [4]) = chain_data vol [3; 5; 6] ++ some_bytes 40 ++ replicate 472 0 /\
    fd_at v' ([3; 5; 6] ++ [4]) (set_position 1576 file').
Proof.
  apply (fat32_file_append_cluster vol vol_good [3; 5; 6] node (file 1536 6) (some_bytes 40));
    [exact vol_chain|apply fd_at_file; [lia|reflexivity]|reflexivity|apply some_bytes_list|reflexivity|
     vm_compute; intuition congruence|vm_compute; congruence|vm_compute; reflexivity|vm_compute; intuition congruence|
     vm_compute; congruence|reflexivity].
Defined.
End Runs.
