(* ===== verification/FatDisk.v ===== *)
(** * FAT32 on the disk driver (fat32.c over ata_pio.c)

    The volume of [Fat] is on a disk that carries out every access.  This is what the
    driver of [Ata] does of it: an access to a cluster of one sector is the volume's own
    [read_cluster] and [write_cluster], one to a larger cluster never ends. *)
From S2P Require Import Prelude Mem CString Disk Ports Ata Fat.

Section clusters.
Context {D : Type} `{AtaDrive D}.
Variable v : volume.
Variable cluster : Z.
(** The sectors of the cluster, as the driver is asked for them. *)
Let lba : Z := lba28 (LBA_start v + first_sector (bootrec v) cluster).
Let count : Z := sectors_per_cluster (bootrec v).
Hypothesis on_disk : lba + count <= capacity.

Lemma lba_nonneg : 0 <= lba.
Proof. unfold lba, lba28. pose proof (Z.mod_pos_bound (u32 (LBA_start v + first_sector (bootrec v) cluster)) (2 ^ 28)). lia. Qed.

Lemma read_cluster_driver (s : ata D) (buff : list Z) : count = 1 -> drive_ready s (disk v) -> (512 <= length buff)%nat ->
  exists s', ata_pio_LBA28_access s true lba count buff = Ret (ERR_ATA_PIO_SUCCESS, read_cluster v cluster ++ drop 512 buff, s') /\
    drive_ready s' (disk v).
Proof.
  intros Hc Hs Hb. pose proof lba_nonneg. unfold read_cluster, read_sectors. fold lba count. rewrite Hc.
  apply read_sector_ok; [exact Hs|lia|exact Hb].
Qed.

Lemma write_cluster_driver (s : ata D) (data : list Z) : count = 1 -> drive_ready s (disk v) -> length data = 512%nat -> bytes_list data ->
  exists s', ata_pio_LBA28_access s false lba count data = Ret (ERR_ATA_PIO_SUCCESS, data, s') /\
    drive_ready s' (disk (write_cluster v cluster data)).
Proof.
  intros Hc Hs Hl B. pose proof lba_nonneg. rewrite Hc. destruct (access_write_sector s (disk v) lba data) as (s' & E & R); auto; [lia|lia|].
  exists s'. split; [exact E|]. now rewrite take_ge in R by lia.
Qed.

Lemma large_cluster_hangs (s : ata D) (read_op : bool) (buff : list Z) : 1 < count <= 256 -> drive_ready s (disk v) ->
  count * 512 <= Z.of_nat (length buff) -> bytes_list buff -> ata_pio_LBA28_access s read_op lba count buff = NoFuel.
Proof. intros Hc Hs Hb B. apply (access_many_hangs s (disk v)); auto using lba_nonneg. Qed.
End clusters.
