(* ===== verification/FatEntry.v ===== *)
(** * FAT32: directory entries (kernel/src/filesystem/fat32.c, include/fat_type.h)

    The 32-byte entries of a directory: long names, spread over entries that come
    before the short one, last part first; short names and their checksum; the
    packed dates.  A name is the list of its bytes without the terminator; the
    buffers the code leaves uninitialised are arguments. *)
From S2P Require Import Prelude Mem CString CTime Disk Fs Fat.

(** ** Attributes *)

Definition to_fat_attr (flags : Z) : Z :=
  let ret := if Z.land flags FS_NODE_TYPE_MASK =? FS_NODE_TYPE_DIRECTORY then FAT_ATTR_DIRECTORY else 0 in
  if has_flag flags FS_NODE_FLAG_HIDDEN then Z.lor ret FAT_ATTR_HIDDEN else ret.

Definition to_fs_node_flags (attr : Z) : Z :=
  let ret := if has_flag attr FAT_ATTR_DIRECTORY then FS_NODE_TYPE_DIRECTORY else FS_NODE_TYPE_FILE in
  if has_flag attr FAT_ATTR_HIDDEN then Z.lor ret FS_NODE_FLAG_HIDDEN else ret.

(** ** Dates *)

Definition parse_datetime (date time : Z) : Z :=
  mktime (Tm (Z.land time 31 * 2) (Z.land (Z.shiftr time 5) 63) (Z.shiftr time 11)
    (Z.land date 31) (Z.land (Z.shiftr date 5) 15) (Z.shiftr date 9 + 1980) 0 0).

(** The date and the time. *)
Definition parse_timestamp (t : tm) : Z * Z :=
  let time := u16 (Z.quot (tm_sec t) 2) in
  let time := u16 (Z.lor time (s32 (Z.shiftl (tm_min t) 5))) in
  let time := u16 (Z.lor time (s32 (Z.shiftl (tm_hour t) 11))) in
  let date := u16 (tm_mday t) in
  let date := u16 (Z.lor date (s32 (Z.shiftl (tm_mon t) 5))) in
  let date := u16 (Z.lor date (s32 (Z.shiftl (if 1980 <=? tm_year t then tm_year t - 1980 else 0) 9))) in
  (date, time).

(** ** Reading names *)

(** The 13 characters of a long-name entry. *)
Definition lfn_chars (e : list Z) : list Z :=
  map (word16 e) [1; 3; 5; 7; 9; 14; 16; 18; 20; 22; 24; 28; 30].

(** The three loops of parse_lfn are one over all characters; each stops at the
    end of the buffer, and the function at a terminator. *)
Fixpoint parse_chars (chars : list Z) (buff : list Z) (offset cnt : Z) : list Z * Z :=
  match chars with
  | [] => (buff, cnt)
  | c :: chars =>
      if FILENAME_LIMIT <=? offset then (buff, cnt)
      else
        let buff := <[Z.to_nat offset := u8 c]> buff in
        if c =? 0 then (buff, cnt + 1) else parse_chars chars buff (offset + 1) (cnt + 1)
  end.
Definition parse_lfn (e : list Z) (buff : list Z) (offset : Z) : list Z * Z := parse_chars (lfn_chars e) buff offset 0.

(** The local variables the two functions below fill. *)
Record naming := Naming { entry_name : list Z; namelen : Z; lfn_ready : bool; found_last : bool }.

Definition process_lfn_entry (e : list Z) (n : naming) : outcome naming :=
  let last_LFN_entry := negb (found_last n) in
  let order := if last_LFN_entry then Z.land (byte_at e 0) 63 else byte_at e 0 in
  let offset := (order - 1) * 13 in
  if offset <? 0 then Fault
  else
    let '(buff, cnt) := parse_lfn e (entry_name n) offset in
    Ret (if last_LFN_entry then
           let len := offset + cnt in
           if FILENAME_LIMIT <=? len then Naming (<[Z.to_nat (FILENAME_LIMIT - 1) := 0]> buff) FILENAME_LIMIT true true
           else Naming buff len true true
         else Naming buff (namelen n) true (found_last n)).

(** The leading bytes that are not spaces. *)
Fixpoint until_space (l : list Z) : list Z :=
  match l with b :: l' => if b =? 32 then [] else b :: until_space l' | [] => [] end.

(** Base name and extension of a short entry, with the dot between them. *)
Definition sfn_chars (e : list Z) : list Z :=
  until_space (take 8 e) ++ (if byte_at e 8 =? 32 then [] else 46 :: until_space (take 3 (drop 8 e))).

(** The length counts the terminator. *)
Definition process_sfn_entry (e : list Z) (n : naming) : naming :=
  let name := sfn_chars e ++ [0] in
  Naming (splice (entry_name n) 0 name) (Z.of_nat (length name)) (lfn_ready n) (found_last n).

(** The string at the start of a buffer. *)
Fixpoint c_string (l : list Z) : outcome (list Z) :=
  match l with [] => Fault | b :: l' => if b =? 0 then Ret [] else s ← c_string l'; Ret (b :: s) end.

(** ** Making names *)

Definition sfn_forbidden (c : Z) : bool := bool_decide (c ∈ [32; 43; 44; 59; 61; 91; 93]).

(** The loop of is_valid_sfn: where the dot is, -1 without one. *)
Fixpoint sfn_scan (l : list Z) (i dot_pos : Z) : option Z :=
  match l with
  | [] => Some dot_pos
  | c :: l' =>
      if (97 <=? s8 c) && (s8 c <=? 122) then None
      else if sfn_forbidden c then None
      else if c =? 46 then if negb (dot_pos =? -1) then None else sfn_scan l' (i + 1) i
      else sfn_scan l' (i + 1) dot_pos
  end.

Definition is_valid_sfn (name : list Z) : bool :=
  let len := Z.of_nat (length name) in
  if (len =? 0) || (12 <? len) then false
  else
    match sfn_scan name 0 (-1) with
    | None => false
    | Some dot_pos =>
        if dot_pos =? -1 then len <=? 8
        else (dot_pos <=? 8) && (len - dot_pos - 1 <=? 3) && negb (dot_pos =? 0)
    end.

Definition gen_checksum (shortname : list Z) : Z :=
  fold_left (fun sum c => u8 ((if Z.land sum 1 =? 0 then 0 else 128) + Z.shiftr sum 1 + s8 c)) (take 11 shortname) 0.

(** The last period, looked for down to index 1; 0 without one, -1 in an empty name. *)
Fixpoint last_dot (name : list Z) (i : nat) : Z :=
  match i with O => 0 | S j => if default 0 (name !! i) =? 46 then Z.of_nat i else last_dot name j end.
Definition dot_position (name : list Z) : Z :=
  if bool_decide (name = []) then -1 else last_dot name (length name - 1).

Definition upper_byte (c : Z) : Z := if (97 <=? s8 c) && (s8 c <=? 122) then c - 32 else c.
Definition fill (field : list Z) (i : Z) (chars : list Z) : list Z := splice field i chars.

(** The part of fat32_add_entry that makes the 11 bytes of the short entry. *)
Definition short_name (name : list Z) (attr : Z) : list Z :=
  let spaces := replicate 11 32 in
  if bool_decide (name = [46]) || bool_decide (name = [46; 46]) then fill spaces 0 name
  else
    let isdir := has_flag attr FAT_ATTR_DIRECTORY in
    let dot_pos := dot_position name in
    let with_ext := (0 <? dot_pos) && negb isdir in
    let shortname :=
      if with_ext then fill spaces 8 (take 3 (filter (fun c => sfn_forbidden c = false) (drop (Z.to_nat (dot_pos + 1)) name)))
      else spaces in
    let base := if with_ext then take (Z.to_nat dot_pos) name else name in
    let shortname := fill shortname 0 (take 8 (filter (fun c => sfn_forbidden c || (c =? 46) = false) base)) in
    let shortname :=
      if (8 <? dot_pos) || (isdir && (8 <? Z.of_nat (length name))) then fill shortname 6 [126; 49] else shortname in
    map upper_byte shortname.

Definition lfn_entry_count (name : list Z) : Z :=
  if is_valid_sfn name then 0 else (Z.of_nat (length name) + 12) / 13.

(** Long-name entry number [i] of [count]: a char is sign-extended to 16 bits, and
    what follows the terminator stays zero. *)
Definition lfn_words (name : list Z) (i : Z) : list Z :=
  let chars := map (fun c => u16 (s8 c)) (take 13 (drop (Z.to_nat ((i - 1) * 13)) name)) in
  chars ++ replicate (13 - length chars) 0.
Definition lfn_entry (name : list Z) (count checksum i : Z) : list Z :=
  let w := concat (map le16 (lfn_words name i)) in
  [u8 (if i =? count then Z.lor i 64 else i)] ++ take 10 w ++ [15; 0; checksum] ++ take 12 (drop 10 w) ++ [0; 0] ++ drop 22 w.

(** ** Short entries *)

Definition entry_attr (e : list Z) : Z := byte_at e 11.
Definition entry_cluster (e : list Z) : Z := Z.lor (Z.shiftl (word16 e 20) 16) (word16 e 26).

(** What is left of the entry that was there before is its reserved byte. *)
Definition entry_bytes (old shortname : list Z) (attr start_cluster size milisecond : Z) (c a m : tm) : list Z :=
  let '(cdate, ctime) := parse_timestamp c in
  let '(adate, _) := parse_timestamp a in
  let '(mdate, mtime) := parse_timestamp m in
  shortname ++ [u8 attr; byte_at old 12; u8 (milisecond / 10)] ++ le16 ctime ++ le16 cdate ++ le16 adate ++
  le16 (Z.shiftr start_cluster 16) ++ le16 mtime ++ le16 mdate ++ le16 (Z.land start_cluster 65535) ++ le32 size.

Definition dir_entry (old shortname : list Z) (attr start_cluster size milisecond created accessed modified : Z) : outcome (list Z) :=
  c ← gmtime created; a ← gmtime accessed; m ← gmtime modified;
  Ret (entry_bytes old shortname attr start_cluster size milisecond c a m).

(** ** Dates come back

    A date and time of the years 1980 to 2107 fits in the two words, and comes back
    with an even number of seconds. *)

Lemma parse_timestamp_packs t : valid_tm t -> 1980 <= tm_year t < 2108 ->
  parse_timestamp t = (tm_mday t + 32 * (tm_mon t + 16 * (tm_year t - 1980)), tm_sec t / 2 + 32 * (tm_min t + 64 * tm_hour t)).
Proof.
  intros (Hs & Hm & Hh & Hmo & Hd) Hy. pose proof (days_in_month_range (tm_mon t) (is_leap_year (tm_year t))).
  unfold parse_timestamp. replace (1980 <=? tm_year t) with true by lia. rewrite Z.quot_div_nonneg by lia.
  assert (0 <= tm_sec t / 2 < 30) by (split; [apply Z.div_pos|apply Z.div_lt_upper_bound]; lia).
  rewrite !Z.shiftl_mul_pow2 by lia. rewrite (s32_small (tm_min t * _)), (s32_small (tm_hour t * _)), (s32_small (tm_mon t * _)), (s32_small (_ * 2 ^ 9)) by lia.
  rewrite <- !Z.shiftl_mul_pow2 by lia.
  rewrite (u16_small (tm_sec t / 2)), (u16_small (tm_mday t)) by lia.
  rewrite (lor_shiftl (tm_sec t / 2)), (lor_shiftl (tm_mday t)) by lia.
  rewrite (u16_small (tm_sec t / 2 + _)), (u16_small (tm_mday t + _)) by lia.
  rewrite !lor_shiftl by lia. rewrite !u16_small by lia. f_equal; lia.
Qed.

Lemma unpack a b n : 0 <= n -> 0 <= a < 2 ^ n -> Z.land (a + 2 ^ n * b) (2 ^ n - 1) = a /\ Z.shiftr (a + 2 ^ n * b) n = b.
Proof.
  intros Hn Ha. replace (2 ^ n - 1) with (Z.ones n) by (rewrite Z.ones_equiv; lia). rewrite Z.land_ones, Z.shiftr_div_pow2 by lia.
  rewrite (Z.mul_comm (2 ^ n)), Z_mod_plus_full, Z.div_add, Z.mod_small, Z.div_small by lia. lia.
Qed.

Lemma parse_datetime_unpacks s mi h d mo y : 0 <= s < 32 -> 0 <= mi < 64 -> 0 <= d < 32 -> 0 <= mo < 16 ->
  parse_datetime (d + 32 * (mo + 16 * y)) (s + 32 * (mi + 64 * h)) = mktime (Tm (s * 2) mi h d mo (y + 1980) 0 0).
Proof.
  intros. unfold parse_datetime.
  destruct (unpack s (mi + 64 * h) 5) as [E1 E2]; [lia..|]. destruct (unpack mi h 6) as [E3 E4]; [lia..|].
  destruct (unpack d (mo + 16 * y) 5) as [E5 E6]; [lia..|]. destruct (unpack mo y 4) as [E7 E8]; [lia..|].
  change (2 ^ 5) with 32 in *. change (2 ^ 6) with 64 in *. change (2 ^ 4) with 16 in *.
  change (32 - 1) with 31 in *. change (64 - 1) with 63 in *. change (16 - 1) with 15 in *.
  replace 11 with (5 + 6) at 1 by lia. replace 9 with (5 + 4) at 1 by lia. rewrite <- !Z.shiftr_shiftr by lia.
  now rewrite E1, E2, E3, E4, E5, E6, E7, E8.
Qed.

Lemma days_before_mono y z : 1 <= y <= z -> days_before y <= days_before z.
Proof.
  intros [Hy Hz]. assert (K : forall n, days_before y <= days_before (y + Z.of_nat n)).
  { induction n as [|n IH]; [rewrite Z.add_0_r; lia|]. rewrite Nat2Z.inj_succ. pose proof (days_before_next (y + Z.of_nat n) ltac:(lia)) as E.
    replace (y + Z.succ (Z.of_nat n)) with (y + Z.of_nat n + 1) by lia. rewrite E.
    unfold year_length. destruct (is_leap_year _); cbn; lia. }
  specialize (K (Z.to_nat (z - y))). now replace (y + Z.of_nat (Z.to_nat (z - y))) with z in K by lia.
Qed.

(** The year of a time from its bounds. *)
Lemma seconds_year t : valid_tm t -> 1970 <= tm_year t ->
  SECS_PER_DAY * days_before (tm_year t) <= seconds t < SECS_PER_DAY * days_before (tm_year t + 1).
Proof.
  intros (Hs & Hm & Hh & Hmo & Hd) Hy. unfold seconds. rewrite days_before_next by lia. set (leap := is_leap_year (tm_year t)) in *.
  set (n := Z.to_nat (tm_mon t - 1)). pose proof (days_to_month_S leap n) as E. replace (1 + Z.of_nat n) with (tm_mon t) in E by lia.
  assert (M : days_to_month leap (S n) <= days_to_month leap 12).
  { assert (K : forall k j, (k + j = 12)%nat -> days_to_month leap k <= days_to_month leap 12).
    { intros k j. revert k. induction j as [|j IH]; intros k Hk; [replace k with 12%nat by lia; lia|].
      specialize (IH (S k) ltac:(lia)). rewrite days_to_month_S in IH. pose proof (days_in_month_range (1 + Z.of_nat k) leap). lia. }
    apply (K (S n) (11 - n)%nat). lia. }
  rewrite days_to_year in M. pose proof (days_to_month_bounds leap n). unfold year_length, SECS_PER_DAY. fold leap. lia.
Qed.

(** a time of the years 1980 to 2107, packed into the date and time words of an entry
    and unpacked again, is the same time to the two seconds the format keeps. *)
Theorem fat_timestamp_roundtrip (t : Z) :
  315532800 <= t < 4354819200 ->
  exists d, gmtime t = Ret d /\ let '(date, time) := parse_timestamp d in
    0 <= date < 2 ^ 16 /\ 0 <= time < 2 ^ 16 /\ parse_datetime date time = t - t mod 2.
Proof.
  intros Ht. destruct (gmtime_spec t ltac:(lia)) as (d & E & V & Y & S & _). exists d. split; [exact E|].
  pose proof (seconds_year d V ltac:(lia)) as B. rewrite S in B.
  assert (Hy : 1980 <= tm_year d < 2108).
  { split; apply Znot_ge_lt || apply Znot_gt_le; intros C.
    - pose proof (days_before_mono (tm_year d + 1) 1980 ltac:(lia)) as M. change (days_before 1980) with 3652 in M. unfold SECS_PER_DAY in *. lia.
    - pose proof (days_before_mono 2108 (tm_year d) ltac:(lia)) as M. change (days_before 2108) with 50403 in M. unfold SECS_PER_DAY in *. lia. }
  rewrite parse_timestamp_packs by assumption. pose proof V as (Hs & Hm & Hh & Hmo & Hd).
  pose proof (days_in_month_range (tm_mon d) (is_leap_year (tm_year d))).
  assert (0 <= tm_sec d / 2 < 30) by (split; [apply Z.div_pos|apply Z.div_lt_upper_bound]; lia).
  split; [lia|]. split; [lia|]. rewrite parse_datetime_unpacks by lia.
  replace (tm_year d - 1980 + 1980) with (tm_year d) by lia. rewrite mktime_seconds.
  - unfold seconds in S |- *. cbn [tm_sec tm_min tm_hour tm_mday tm_mon tm_year] in *. unfold SECS_PER_DAY in *.
    pose proof (Z.div_mod (tm_sec d) 2 ltac:(lia)) as D. replace (t mod 2) with (tm_sec d mod 2); [lia|].
    rewrite <- S. set (x := days_before _ + _ + _ - 1).
    replace (86400 * x + 3600 * tm_hour d + 60 * tm_min d + tm_sec d) with (tm_sec d + (43200 * x + 1800 * tm_hour d + 30 * tm_min d) * 2) by lia.
    now rewrite Z_mod_plus_full.
  - unfold valid_tm in *. cbn [tm_sec tm_min tm_hour tm_mday tm_mon tm_year]. lia.
  - cbn [tm_year]. lia.
Qed.

Lemma fat_timestamp_roundtrip_witness : exists d, gmtime 1709210097 = Ret d /\ let '(date, time) := parse_timestamp d in
  0 <= date < 2 ^ 16 /\ 0 <= time < 2 ^ 16 /\ parse_datetime date time = 1709210097 - 1709210097 mod 2.
Proof. apply (fat_timestamp_roundtrip 1709210097). lia. Defined.

(** ** Long names come back *)

Lemma le16_word w : 0 <= w < 2 ^ 16 -> u8 w + 2 ^ 8 * u8 (w / 2 ^ 8) = w.
Proof.
  intros Hw. change (word16 (le16 w) 0 = w). rewrite word16_le16. apply u16_small. lia.
Qed.

Lemma length_lfn_words name i : length (lfn_words name i) = 13%nat.
Proof. unfold lfn_words. rewrite length_app, length_replicate, length_map, length_take. lia. Qed.

Lemma lfn_words_range name i : Forall (fun w => 0 <= w < 2 ^ 16) (lfn_words name i).
Proof.
  unfold lfn_words. apply Forall_app_2; [|apply Forall_replicate; lia]. apply Forall_fmap, Forall_forall. intros c _. cbn. apply u16_range.
Qed.

Lemma lfn_chars_entry name count checksum i : lfn_chars (lfn_entry name count checksum i) = lfn_words name i.
Proof.
  unfold lfn_entry. pose proof (length_lfn_words name i) as L. pose proof (lfn_words_range name i) as R.
  destruct (lfn_words name i) as [|w0 [|w1 [|w2 [|w3 [|w4 [|w5 [|w6 [|w7 [|w8 [|w9 [|w10 [|w11 [|w12 [|? ?]]]]]]]]]]]]]]; try discriminate L.
  rewrite !Forall_cons in R. destruct R as (R0 & R1 & R2 & R3 & R4 & R5 & R6 & R7 & R8 & R9 & R10 & R11 & R12 & _).
  change (lfn_chars _) with [u8 w0 + 2 ^ 8 * u8 (w0 / 2 ^ 8); u8 w1 + 2 ^ 8 * u8 (w1 / 2 ^ 8); u8 w2 + 2 ^ 8 * u8 (w2 / 2 ^ 8);
    u8 w3 + 2 ^ 8 * u8 (w3 / 2 ^ 8); u8 w4 + 2 ^ 8 * u8 (w4 / 2 ^ 8); u8 w5 + 2 ^ 8 * u8 (w5 / 2 ^ 8); u8 w6 + 2 ^ 8 * u8 (w6 / 2 ^ 8);
    u8 w7 + 2 ^ 8 * u8 (w7 / 2 ^ 8); u8 w8 + 2 ^ 8 * u8 (w8 / 2 ^ 8); u8 w9 + 2 ^ 8 * u8 (w9 / 2 ^ 8); u8 w10 + 2 ^ 8 * u8 (w10 / 2 ^ 8);
    u8 w11 + 2 ^ 8 * u8 (w11 / 2 ^ 8); u8 w12 + 2 ^ 8 * u8 (w12 / 2 ^ 8)].
  now rewrite !le16_word by assumption.
Qed.

Lemma length_lfn_entry name count checksum i : length (lfn_entry name count checksum i) = 32%nat.
Proof.
  unfold lfn_entry. pose proof (length_lfn_words name i) as L.
  assert (E : length (concat (map le16 (lfn_words name i))) = 26%nat).
  { revert L. generalize (lfn_words name i). intros l L. do 13 (destruct l as [|? l]; [discriminate L|]). destruct l; [reflexivity|discriminate L]. }
  rewrite !length_app, !length_take, !length_drop, E. reflexivity.
Qed.

Lemma byte_at_lfn_0 name count checksum i : byte_at (lfn_entry name count checksum i) 0 = u8 (if i =? count then Z.lor i 64 else i).
Proof. reflexivity. Qed.

Lemma byte_at_lfn_11 name count checksum i : byte_at (lfn_entry name count checksum i) 11 = 15.
Proof.
  unfold lfn_entry. pose proof (length_lfn_words name i) as L. revert L. generalize (lfn_words name i). intros l L.
  do 13 (destruct l as [|? l]; [discriminate L|]). destruct l; [reflexivity|discriminate L].
Qed.

(** A character of a name survives the extension to 16 bits. *)
Lemma char_word c : 0 < c < 256 -> u8 (u16 (s8 c)) = c /\ u16 (s8 c) <> 0.
Proof.
  intros Hc. assert (K : forall k, 0 <= k < 256 -> u8 (u16 (s8 k)) = k /\ (k <> 0 -> u16 (s8 k) <> 0)).
  { apply (forall_below 256 (fun k => u8 (u16 (s8 k)) = k /\ (k <> 0 -> u16 (s8 k) <> 0))). by_eval. }
  destruct (K c) as [K1 K2]; [lia|]. split; [exact K1|apply K2; lia].
Qed.

Lemma parse_chars_text chunk : forall rest buff o cnt, text chunk -> 0 <= o -> o + Z.of_nat (length chunk) <= FILENAME_LIMIT - 1 ->
  Z.of_nat (length buff) = FILENAME_LIMIT ->
  parse_chars (map (fun c => u16 (s8 c)) chunk ++ rest) buff o cnt =
    parse_chars rest (splice buff o chunk) (o + Z.of_nat (length chunk)) (cnt + Z.of_nat (length chunk)).
Proof.
  induction chunk as [|c chunk IH]; intros rest buff o cnt T Ho Hl Hb.
  - cbn [map app length]. unfold splice. cbn [app length]. rewrite Nat.add_0_r, take_drop, !Z.add_0_r. reflexivity.
  - inversion_clear T as [|? ? Hc T']. destruct (char_word c Hc) as [Ec Nc]. cbn [map app parse_chars length] in *.
    unfold FILENAME_LIMIT in *. replace (256 <=? o) with false by lia. rewrite Ec. replace (u16 (s8 c) =? 0) with false by lia.
    rewrite IH by (try assumption; rewrite ?length_insert; lia). f_equal; [|lia..].
    apply list_eq. intros j. rewrite !lookup_splice by (rewrite ?length_insert; cbn [length]; lia). cbn [length].
    destruct (decide (Z.of_nat j = o)) as [Hj|Hj].
    + rewrite decide_False, decide_True by lia. rewrite list_lookup_insert, decide_True by (rewrite ?length_insert; lia).
      replace (j - Z.to_nat o)%nat with 0%nat by lia. reflexivity.
    + rewrite list_lookup_insert_ne by lia. repeat case_decide; try lia; [|reflexivity].
      replace (j - Z.to_nat o)%nat with (S (j - Z.to_nat (o + 1))) by lia. reflexivity.
Qed.

(** The part of a name in entry [i]. *)
Definition chunk (name : list Z) (i : Z) : list Z := take 13 (drop (Z.to_nat ((i - 1) * 13)) name).

(** A name's part put in its place, with the terminator when there is room for it. *)
Definition put_chunk (buff : list Z) (o : Z) (c : list Z) : list Z :=
  let buff := splice buff o c in
  if (Z.of_nat (length c) <? 13) then <[Z.to_nat (o + Z.of_nat (length c)) := 0]> buff else buff.

Lemma parse_lfn_entry name count checksum i buff : text name -> 1 <= i -> (i - 1) * 13 + Z.of_nat (length (chunk name i)) < FILENAME_LIMIT ->
  Z.of_nat (length buff) = FILENAME_LIMIT ->
  parse_lfn (lfn_entry name count checksum i) buff ((i - 1) * 13) =
    (put_chunk buff ((i - 1) * 13) (chunk name i),
     Z.of_nat (length (chunk name i)) + Z.b2z (Z.of_nat (length (chunk name i)) <? 13)).
Proof.
  intros T Hi Hl Hb. unfold parse_lfn. rewrite lfn_chars_entry. unfold lfn_words. fold (chunk name i). rewrite length_map.
  assert (Tc : text (chunk name i)) by (apply Forall_take, Forall_drop, T).
  assert (Lc : (length (chunk name i) <= 13)%nat) by (unfold chunk; rewrite length_take; lia).
  unfold FILENAME_LIMIT in *. rewrite parse_chars_text by (auto; unfold FILENAME_LIMIT; lia). unfold put_chunk.
  destruct (Z.ltb_spec (Z.of_nat (length (chunk name i))) 13) as [H13|H13].
  - replace (13 - length (chunk name i))%nat with (S (12 - length (chunk name i))) by lia. cbn [replicate parse_chars].
    unfold FILENAME_LIMIT. replace (256 <=? _) with false by lia. cbn [Z.eqb Z.b2z]. reflexivity.
  - replace (13 - length (chunk name i))%nat with 0%nat by lia. cbn [replicate parse_chars Z.b2z]. f_equal. lia.
Qed.

Lemma length_put_chunk buff o c : 0 <= o -> o + Z.of_nat (length c) <= Z.of_nat (length buff) -> length (put_chunk buff o c) = length buff.
Proof. intros. unfold put_chunk. case_test; rewrite ?length_insert, length_splice by lia; reflexivity. Qed.

Lemma lookup_put_chunk buff o c (j : nat) : 0 <= o -> o + Z.of_nat (length c) < Z.of_nat (length buff) ->
  put_chunk buff o c !! j =
    if decide (o <= Z.of_nat j < o + Z.of_nat (length c)) then c !! (j - Z.to_nat o)%nat
    else if (Z.of_nat (length c) <? 13) && (Z.of_nat j =? o + Z.of_nat (length c)) then Some 0 else buff !! j.
Proof.
  intros Ho Hl. unfold put_chunk. destruct (Z.of_nat (length c) <? 13); cbn [andb].
  - destruct (Z.eqb_spec (Z.of_nat j) (o + Z.of_nat (length c))) as [E|E].
    + rewrite decide_False by lia. replace (Z.to_nat (o + Z.of_nat (length c))) with j by lia.
      rewrite list_lookup_insert_eq; [reflexivity|]. rewrite length_splice by lia. lia.
    + rewrite list_lookup_insert_ne by lia. now rewrite lookup_splice by lia.
  - now rewrite lookup_splice by lia.
Qed.

(** The entries of a long name, in the order they are written. *)
Definition lfn_count (name : list Z) : Z := (Z.of_nat (length name) + 12) / 13.
Definition lfn_entries (name : list Z) (checksum : Z) : list (list Z) :=
  map (lfn_entry name (lfn_count name) checksum) (rev (seqZ 1 (lfn_count name))).

(** Reading entries one after the other. *)
Fixpoint process_lfns (es : list (list Z)) (n : naming) : outcome naming :=
  match es with [] => Ret n | e :: es => n ← process_lfn_entry e n; process_lfns es n end.

(** The buffer holds the name from index [o] on, with the terminator if [len] says so. *)
Record named (name : list Z) (o len : Z) (buff : list Z) : Prop := {
  named_length : Z.of_nat (length buff) = FILENAME_LIMIT;
  named_chars : forall j : nat, o <= Z.of_nat j < Z.of_nat (length name) -> buff !! j = name !! j;
  named_len : len = Z.of_nat (length name) \/ len = Z.of_nat (length name) + 1 /\ buff !! length name = Some 0;
}.

Lemma lfn_count_bounds name : 0 < Z.of_nat (length name) < FILENAME_LIMIT ->
  1 <= lfn_count name <= 20 /\ (lfn_count name - 1) * 13 < Z.of_nat (length name) <= lfn_count name * 13.
Proof.
  unfold FILENAME_LIMIT, lfn_count. intros Hl. pose proof (Z.div_mod (Z.of_nat (length name) + 12) 13 ltac:(lia)).
  pose proof (Z.mod_pos_bound (Z.of_nat (length name) + 12) 13 ltac:(lia)). lia.
Qed.

Lemma chunk_length name i : 1 <= i -> Z.of_nat (length (chunk name i)) = Z.max 0 (Z.min 13 (Z.of_nat (length name) - (i - 1) * 13)).
Proof. intros. unfold chunk. rewrite length_take, length_drop. lia. Qed.

Lemma chunk_lookup name i (j : nat) : 1 <= i -> (i - 1) * 13 <= Z.of_nat j < (i - 1) * 13 + 13 -> chunk name i !! (j - Z.to_nat ((i - 1) * 13))%nat = name !! j.
Proof. intros Hi Hj. unfold chunk. rewrite lookup_take_lt by lia. rewrite lookup_drop. f_equal. lia. Qed.

Lemma process_first name checksum n : text name -> 0 < Z.of_nat (length name) < FILENAME_LIMIT ->
  Z.of_nat (length (entry_name n)) = FILENAME_LIMIT -> found_last n = false ->
  exists n', process_lfn_entry (lfn_entry name (lfn_count name) checksum (lfn_count name)) n = Ret n' /\
    named name ((lfn_count name - 1) * 13) (namelen n') (entry_name n') /\ lfn_ready n' = true /\ found_last n' = true.
Proof.
  intros T Hl Hb Hf. destruct (lfn_count_bounds name Hl) as [Hc Hcl]. set (count := lfn_count name) in *. unfold FILENAME_LIMIT in *.
  unfold process_lfn_entry. rewrite Hf, byte_at_lfn_0, Z.eqb_refl. cbn [negb].
  assert (Eo : Z.land (u8 (Z.lor count 64)) 63 = count).
  { revert Hc. clear. revert count. intros count Hc.
    apply (forall_below 21 (fun c => Z.land (u8 (Z.lor c 64)) 63 = c)); [by_eval|lia]. }
  rewrite Eo. replace ((count - 1) * 13 <? 0) with false by lia.
  pose proof (chunk_length name count ltac:(lia)) as Lc. set (o := (count - 1) * 13) in *.
  rewrite parse_lfn_entry by (auto; unfold FILENAME_LIMIT; fold o; lia). fold o. cbv beta iota.
  assert (N : named name o (o + (Z.of_nat (length (chunk name count)) + Z.b2z (Z.of_nat (length (chunk name count)) <? 13)))
    (put_chunk (entry_name n) o (chunk name count))).
  { split.
    - rewrite length_put_chunk by lia. exact Hb.
    - intros j Hj. rewrite lookup_put_chunk by lia. rewrite decide_True by lia. apply chunk_lookup; fold o; lia.
    - destruct (Z.ltb_spec (Z.of_nat (length (chunk name count))) 13) as [H13|H13]; cbn [Z.b2z]; [right|left; lia].
      split; [lia|]. rewrite lookup_put_chunk by lia. rewrite decide_False by lia. 
      replace (Z.of_nat (length (chunk name count)) <? 13) with true by lia.
      now replace (Z.of_nat (length name) =? o + Z.of_nat (length (chunk name count))) with true by lia. }
  revert N. generalize (put_chunk (entry_name n) o (chunk name count)). 
  generalize (o + (Z.of_nat (length (chunk name count)) + Z.b2z (Z.of_nat (length (chunk name count)) <? 13))). intros len buff [N1 N2 N3].
  unfold FILENAME_LIMIT in *. destruct (Z.leb_spec 256 len) as [Hlen|Hlen].
  - eexists. split; [reflexivity|]. cbn [entry_name namelen lfn_ready found_last]. split; [|auto].
    assert (E : length name = 255%nat) by lia. split; [now rewrite length_insert| |].
    + intros j Hj. rewrite list_lookup_insert_ne by lia. now apply N2.
    + right. split; [lia|]. rewrite E. apply list_lookup_insert_eq. lia.
  - eexists. split; [reflexivity|]. split; [split; auto|auto].
Qed.

Lemma process_next name checksum i n : text name -> 0 < Z.of_nat (length name) < FILENAME_LIMIT -> 1 <= i < lfn_count name ->
  found_last n = true -> named name (i * 13) (namelen n) (entry_name n) ->
  exists n', process_lfn_entry (lfn_entry name (lfn_count name) checksum i) n = Ret n' /\
    named name ((i - 1) * 13) (namelen n') (entry_name n') /\ lfn_ready n' = true /\ found_last n' = true.
Proof.
  intros T Hl Hi Hf [N1 N2 N3]. destruct (lfn_count_bounds name Hl) as [Hc Hcl]. unfold FILENAME_LIMIT in *.
  unfold process_lfn_entry. rewrite Hf, byte_at_lfn_0. cbn [negb]. replace (i =? lfn_count name) with false by lia. rewrite u8_small by lia.
  replace ((i - 1) * 13 <? 0) with false by lia. pose proof (chunk_length name i ltac:(lia)) as Lc.
  rewrite parse_lfn_entry by (auto; unfold FILENAME_LIMIT; lia). cbv beta iota.
  eexists. split; [reflexivity|]. cbn [entry_name namelen lfn_ready found_last]. split; [|auto].
  assert (K : forall j : nat, i * 13 <= Z.of_nat j -> put_chunk (entry_name n) ((i - 1) * 13) (chunk name i) !! j = entry_name n !! j).
  { intros j Hj. rewrite lookup_put_chunk by lia. rewrite decide_False by lia.
    replace (Z.of_nat (length (chunk name i)) <? 13) with false by lia. reflexivity. }
  split.
  - rewrite length_put_chunk by lia. exact N1.
  - intros j Hj. destruct (Z.le_gt_cases (i * 13) (Z.of_nat j)) as [Hge|Hlt]; [rewrite K by lia; apply N2; lia|].
    rewrite lookup_put_chunk by lia. rewrite decide_True by lia. apply chunk_lookup; lia.
  - destruct N3 as [N3|[N3 N4]]; [now left|right]. split; [exact N3|]. rewrite K by lia. exact N4.
Qed.

Lemma c_string_prefix name rest : text name -> c_string (name ++ 0 :: rest) = Ret name.
Proof.
  induction name as [|c name IH]; intros T; [reflexivity|]. inversion_clear T as [|? ? Hc T']. cbn [app c_string].
  replace (c =? 0) with false by lia. now rewrite (IH T').
Qed.

(** What is copied to a node's name. *)
Lemma named_string name len buff : text name -> named name 0 len buff -> c_string (take (Z.to_nat len) buff ++ [0]) = Ret name.
Proof.
  intros T [N1 N2 N3].
  assert (E : take (length name) buff = name).
  { apply list_eq. intros j. destruct (decide (j < length name)%nat) as [Hj|Hj].
    - rewrite lookup_take_lt by lia. apply N2. lia.
    - rewrite !lookup_ge_None_2; [reflexivity|lia|]. rewrite length_take. lia. }
  destruct N3 as [->|[-> N3]].
  - rewrite Nat2Z.id, E. apply c_string_prefix, T.
  - replace (Z.to_nat (Z.of_nat (length name) + 1)) with (S (length name)) by lia. rewrite (take_S_r _ _ _ N3), E, <- app_assoc.
    apply c_string_prefix, T.
Qed.

(** The entries of a long name, read in the order they lie in the directory, give the name. *)
Lemma process_lfns_spec name checksum n : text name -> 0 < Z.of_nat (length name) < FILENAME_LIMIT ->
  Z.of_nat (length (entry_name n)) = FILENAME_LIMIT -> found_last n = false ->
  exists n', process_lfns (lfn_entries name checksum) n = Ret n' /\ lfn_ready n' = true /\ found_last n' = true /\
    named name 0 (namelen n') (entry_name n').
Proof.
  intros T Hl Hb Hf. destruct (lfn_count_bounds name Hl) as [Hc _].
  destruct (process_first name checksum n T Hl Hb Hf) as (n1 & E1 & N1 & R1 & F1).
  assert (K : forall m n2, Z.of_nat m < lfn_count name -> found_last n2 = true -> lfn_ready n2 = true ->
    named name (Z.of_nat m * 13) (namelen n2) (entry_name n2) ->
    exists n', process_lfns (map (lfn_entry name (lfn_count name) checksum) (rev (seqZ 1 (Z.of_nat m)))) n2 = Ret n' /\
      lfn_ready n' = true /\ found_last n' = true /\ named name 0 (namelen n') (entry_name n')).
  { induction m as [|m IH]; intros n2 Hm F2 R2 N2; [exists n2; auto|].
    rewrite seqZ_S, rev_app_distr. cbn [rev app map process_lfns].
    replace (1 + Z.of_nat m) with (Z.succ (Z.of_nat m)) by lia. rewrite Nat2Z.inj_succ in N2.
    destruct (process_next name checksum (Z.succ (Z.of_nat m)) n2 T Hl ltac:(lia) F2 N2) as (n3 & -> & N3 & R3 & F3). rewrite bind_ret.
    replace ((Z.succ (Z.of_nat m) - 1) * 13) with (Z.of_nat m * 13) in N3 by lia. apply IH; auto. lia. }
  unfold lfn_entries. pose proof (K (Z.to_nat (lfn_count name - 1))) as K'. rewrite Z2Nat.id in K' by lia.
  replace (seqZ 1 (lfn_count name)) with (seqZ 1 (lfn_count name - 1) ++ [lfn_count name]).
  - rewrite rev_app_distr. cbn [rev app map process_lfns]. rewrite E1, bind_ret. apply K'; auto. lia.
  - replace (lfn_count name) with (Z.of_nat (S (Z.to_nat (lfn_count name - 1)))) at 3 by lia. rewrite seqZ_S.
    rewrite Z2Nat.id by lia. do 2 f_equal. lia.
Qed.

(** ** The fields of a short entry *)

Lemma length_le16 w : length (le16 w) = 2%nat.
Proof. reflexivity. Qed.
Lemma length_le32 w : length (le32 w) = 4%nat.
Proof. reflexivity. Qed.

Lemma length_entry_bytes old shortname attr sc size ms c a m : length shortname = 11%nat ->
  length (entry_bytes old shortname attr sc size ms c a m) = 32%nat.
Proof.
  intros L. unfold entry_bytes. destruct (parse_timestamp c), (parse_timestamp a), (parse_timestamp m).
  rewrite !length_app, L, !length_le16, length_le32. reflexivity.
Qed.

Lemma entry_bytes_name old shortname attr sc size ms c a m : length shortname = 11%nat ->
  take 11 (entry_bytes old shortname attr sc size ms c a m) = shortname.
Proof. intros L. unfold entry_bytes. destruct (parse_timestamp c), (parse_timestamp a), (parse_timestamp m). now apply take_app_length'. Qed.

Lemma entry_bytes_fields old shortname attr sc size ms c a m : length shortname = 11%nat ->
  0 <= attr < 256 -> 0 <= sc < 2 ^ 32 -> 0 <= size < 2 ^ 32 ->
  let e := entry_bytes old shortname attr sc size ms c a m in
  entry_attr e = attr /\ entry_cluster e = sc /\ word32 e 28 = size.
Proof.
  intros L Ha Hc Hs. unfold entry_bytes. destruct (parse_timestamp c) as [cd ct], (parse_timestamp a) as [ad ?], (parse_timestamp m) as [md mt].
  destruct shortname as [|b0 [|b1 [|b2 [|b3 [|b4 [|b5 [|b6 [|b7 [|b8 [|b9 [|b10 [|? ?]]]]]]]]]]]]; try discriminate L.
  cbv zeta. split_and!.
  - change (u8 attr = attr). apply u8_small. lia.
  - unfold entry_cluster.
    change (word16 _ 20) with (word16 (le16 (Z.shiftr sc 16)) 0). change (word16 _ 26) with (word16 (le16 (Z.land sc 65535)) 0).
    rewrite !word16_le16. change 65535 with (Z.ones 16). rewrite Z.land_ones, Z.shiftr_div_pow2 by lia.
    pose proof (Z.div_mod sc (2 ^ 16) ltac:(lia)). pose proof (Z.mod_pos_bound sc (2 ^ 16) ltac:(lia)).
    assert (0 <= sc / 2 ^ 16 < 2 ^ 16) by (split; [apply Z.div_pos|apply Z.div_lt_upper_bound]; lia).
    rewrite !u16_small by lia. rewrite Z.lor_comm, lor_shiftl by lia. lia.
  - change (word32 _ 28) with (word32 (le32 size) 0). rewrite word32_le32. apply u32_small. lia.
Qed.
