(* ===== verification/FatDir.v ===== *)
(** * FAT32: directories and the operations of the file system (kernel/src/filesystem/fat32.c)

    A directory is a chain of clusters of 32-byte entries; a byte 0 in the place of
    an entry ends it and 0xe5 marks a free one.  The state holds what [fs_t] keeps of
    each volume, the disk they share, the nodes, the clock, and what the name buffer
    a function leaves uninitialised happens to hold. *)
From S2P Require Import Prelude Mem CString CTime Disk Fs Ramfs FileOps Fat FatFile FatEntry.

Record fat_state := FatState {
  volumes : gmap Z (Z * fat32_bootrecord * fat32_fsinfo);
  the_disk : mem;
  fnodes : gmap Z fs_node;
  name_buffer : list Z;
  fticks : Z;
  fnow : Z;
}.

Definition put_fnode (p : Z) (n : fs_node) (st : fat_state) : fat_state :=
  FatState (volumes st) (the_disk st) (<[p := n]> (fnodes st)) (name_buffer st) (fticks st) (fnow st).
Definition get_fnode (st : fat_state) (p : Z) : outcome fs_node := of_option (fnodes st !! p).

(** The volume of the [fs_t] at an address, and its state after an operation. *)
Definition volume_at (st : fat_state) (fs : Z) : outcome volume :=
  '(start, boot, info) ← of_option (volumes st !! fs); Ret (Volume start boot info (the_disk st)).
Definition put_volume (fs : Z) (v : volume) (st : fat_state) : fat_state :=
  FatState (<[fs := (LBA_start v, bootrec v, fsinfo v)]> (volumes st)) (disk v) (fnodes st) (name_buffer st) (fticks st) (fnow st).

(** [fat32.start_cluster], [fat32.parent_cluster], [fat32.parent_cluster_index] of a
    node: the words the union shares with the RAM file system's. *)
Definition start_cluster (n : fs_node) : Z := node_addr n.
Definition parent_cluster (n : fs_node) : Z := node_sem n.
Definition parent_cluster_index (n : fs_node) : Z := space_available n.

Definition fresh_naming (buffer : list Z) : naming := Naming buffer 0 false false.

(** ** Listing *)

Definition fat32_make_diriter_adapter (dir : file_description) (diriter : directory_iterator) : directory_iterator :=
  DirectoryIterator (di_node diriter) (current_index diriter) (fd_current dir).
Definition fat32_save_diriter_adapter (dir : file_description) (diriter : directory_iterator) : file_description :=
  set_fd_current (di_current diriter) dir.
Definition fat32_setup_directory_iterator (st : fat_state) (node : Z) : outcome (FS_ERR * directory_iterator) :=
  n ← get_fnode st node; Ret (ERR_FS_SUCCESS, DirectoryIterator node (-32) (start_cluster n)).

Definition entry_at (directory : list Z) (i : Z) : list Z := take 32 (drop (Z.to_nat i) directory).

Inductive scanned :=
  | EndOfDirectory (i : Z)
  | EndOfCluster (n : naming)
  | FoundEntry (i : Z) (n : naming).

(** The loop over the entries of a cluster, from [i] to the next short entry. *)
Definition scan_step (csize : Z) (directory : list Z) '(i, n) : outcome ((Z * naming) + scanned) :=
  if csize <=? i then Ret (inr (EndOfCluster n))
  else if byte_at directory i =? 0 then Ret (inr (EndOfDirectory i))
  else if byte_at directory i =? 229 then Ret (inl (i + 32, n))
  else if byte_at directory (i + 11) =? 15 then n ← process_lfn_entry (entry_at directory i) n; Ret (inl (i + 32, n))
  else Ret (inr (FoundEntry i (if lfn_ready n then n else process_sfn_entry (entry_at directory i) n))).

(** The node of the short entry [e], at index [i] of [cluster]. *)
Definition node_of_entry (v : volume) (dir_fs dir : Z) (n : naming) (e : list Z) (cluster i : Z) (old : fs_node) : outcome fs_node :=
  name ← c_string (take (Z.to_nat (namelen n)) (entry_name n) ++ [0]);
  let start := entry_cluster e in
  let start := if (start =? 0) && bool_decide (name = [46; 46]) then rootdir_cluster (bootrec v) else start in
  Ret (FsNode name dir_fs dir 0 0 (to_fs_node_flags (entry_attr e)) (mount_target old) (u16 (byte_at e 13 * 10))
    (parse_datetime (word16 e 16) (word16 e 14)) (parse_datetime (word16 e 24) (word16 e 22)) (parse_datetime (word16 e 18) 0)
    (word32 e 28) 0 1 start cluster i).

Definition iterate_step (v : volume) (dir_fs dir : Z) (old : fs_node) '(cluster, iter, n) :
  outcome ((Z * Z * naming) + (FS_ERR * option (Z * Z * fs_node))) :=
  let directory := read_cluster v cluster in
  r ← while (scan_step (cluster_size (bootrec v)) directory) (iter, n);
  match r with
  | EndOfDirectory _ => Ret (inr (ERR_FS_EOF, None))
  | FoundEntry i n =>
      node ← node_of_entry v dir_fs dir n (entry_at directory i) cluster i old; Ret (inr (ERR_FS_SUCCESS, Some (cluster, i, node)))
  | EndOfCluster n =>
      FAT_val ← get_FAT_entry v cluster;
      Ret (if is_last FAT_val then inr (ERR_FS_EOF, None)
           else if FAT_val =? FAT_BAD_CLUSTER then inr (ERR_FS_BAD_CLUSTER, None)
           else inl (FAT_val, 0, n))
  end.

Definition fat32_iterate_directory (st : fat_state) (diriter : directory_iterator) (ret_node : fs_node) :
  outcome (FS_ERR * directory_iterator * fs_node) :=
  d ← get_fnode st (di_node diriter);
  v ← volume_at st (fs d);
  let iter := u32 (current_index diriter + 32) in
  '(err, cluster, iter) ← (if cluster_size (bootrec v) <=? iter
    then '(err, cluster) ← next_cluster v (di_current diriter); Ret (err, cluster, 0)
    else Ret (ERR_FS_SUCCESS, di_current diriter, iter));
  if failed err then Ret (err, diriter, ret_node)
  else
    '(err, found) ← while (iterate_step v (fs d) (di_node diriter) ret_node) (cluster, iter, fresh_naming (name_buffer st));
    Ret (match found with
         | Some (cluster, i, node) => (err, DirectoryIterator (di_node diriter) i cluster, node)
         | None => (err, diriter, ret_node)
         end).

(** ** Adding an entry *)

(** strcmp_case_insensitive says equal. *)
Definition equal_nocase (a b : list Z) : bool := bool_decide (map (fun c => toupper (s8 c)) a = map (fun c => toupper (s8 c)) b).

(** The loop over a cluster's entries that looks for a free place and a duplicate:
    [None] when the name is there already. *)
Definition dup_step (csize : Z) (directory : list Z) (name : list Z) '(i, n) : outcome ((Z * naming) + option scanned) :=
  if csize <=? i then Ret (inr (Some (EndOfCluster n)))
  else if byte_at directory i =? 0 then Ret (inr (Some (EndOfDirectory i)))
  else if byte_at directory i =? 229 then Ret (inl (i + 32, n))
  else if byte_at directory (i + 11) =? 15 then n ← process_lfn_entry (entry_at directory i) n; Ret (inl (i + 32, n))
  else
    let n := if lfn_ready n then n else process_sfn_entry (entry_at directory i) n in
    s ← c_string (entry_name n);
    Ret (if equal_nocase s name then inr None else inl (i + 32, Naming (entry_name n) (namelen n) false false)).

(** The loop over clusters: where the free place is, and the cluster's bytes. *)
Definition place_step (name : list Z) '((v, cluster, created, n) : volume * Z * bool * naming) :
  outcome ((volume * Z * bool * naming) + (FS_ERR * volume * Z * list Z * Z)) :=
  let csize := cluster_size (bootrec v) in
  let directory := if created then replicate (Z.to_nat csize) 0 else read_cluster v cluster in
  r ← while (dup_step csize directory name) (0, n);
  match r with
  | None => Ret (inr (ERR_FS_ENTRY_EXISTED, v, cluster, directory, 0))
  | Some (EndOfDirectory i) | Some (FoundEntry i _) => Ret (inr (ERR_FS_SUCCESS, v, cluster, directory, i))
  | Some (EndOfCluster n) =>
      FAT_val ← get_FAT_entry v cluster;
      if is_last FAT_val then
        '(new, v) ← expand_cluster_chain v cluster 1 true;
        Ret (if new =? 0 then inr (ERR_FS_NOT_ENOUGH_SPACE, v, 0, directory, 0) else inl (v, new, true, n))
      else Ret (inl (v, FAT_val, created, n))
  end.

Definition is_dotdot (name : list Z) : bool := bool_decide (name = [46]) || bool_decide (name = [46; 46]).

(** The entries, long ones first: [i] counts down to the short one. *)
Fixpoint write_entries (i : nat) (name shortname : list Z) (count attr start_cluster size : Z)
    (v : volume) (cluster : Z) (directory : list Z) (start_index : Z) (node : fs_node) :
  outcome (volume * Z * list Z * Z * fs_node) :=
  let csize := cluster_size (bootrec v) in
  e ← match i with
      | O => dir_entry (entry_at directory start_index) shortname attr start_cluster size
               (creation_milisecond node) (creation_timestamp node) (accessed_timestamp node) (modified_timestamp node)
      | S _ => Ret (lfn_entry name count (gen_checksum shortname) (Z.of_nat i))
      end;
  let directory := splice directory start_index e in
  let node := if (i =? 0)%nat
    then FsNode (Fs.name node) (fs node) (parent node) (children node) (next_sibling node) (flags node) (mount_target node)
           (creation_milisecond node) (creation_timestamp node) (modified_timestamp node) (accessed_timestamp node)
           (Fs.size node) (refcount node) (lock node) (node_addr node) cluster start_index
    else node in
  let start_index := start_index + 32 in
  '(v, cluster, start_index) ← (if csize <=? start_index
    then let v := write_cluster v cluster directory in next ← get_FAT_entry v cluster; Ret (v, next, 0)
    else Ret (v, cluster, start_index));
  match i with
  | O => Ret (v, cluster, directory, start_index, node)
  | S j => write_entries j name shortname count attr start_cluster size v cluster directory start_index node
  end.

(** A zero in the first byte of each entry from [i] on. *)
Fixpoint end_entries (n : nat) (directory : list Z) (i : Z) : list Z :=
  match n with O => directory | S n => end_entries n (<[Z.to_nat i := 0]> directory) (i + 32) end.

(** The clusters an entry with [count] long entries may need (ididthemath), in unsigned
    arithmetic. *)
Definition estimated_clusters (csize start_index count : Z) : Z := s32 (u32 (count - (csize - start_index) / 32 + 17) / (csize / 32)).

(** [new_node] is what is there before; the result holds it after. *)
Definition add_entry (st : fat_state) (v : volume) (parent : Z) (p : fs_node) (name : list Z) (start_cluster attr size : Z)
    (new_node : fs_node) : outcome (FS_ERR * fs_node * volume) :=
  let new_node := set_flags 0 new_node in
  let csize := cluster_size (bootrec v) in
  '(err, v, cluster, directory, start_index) ← while (place_step name) (v, node_addr p, false, fresh_naming (name_buffer st));
  if failed err then Ret (err, new_node, v)
  else if csize <? 32 then Fault
  else
    let count := if is_dotdot name then 0 else lfn_entry_count name in
    let estimated := estimated_clusters csize start_index count in
    '(enough, v) ← (if 0 <? estimated
      then '(new, v) ← expand_cluster_chain v cluster estimated true; Ret (negb (new =? 0), v)
      else Ret (true, v));
    if negb enough then Ret (ERR_FS_NOT_ENOUGH_SPACE, new_node, v)
    else
      let shortname := short_name name attr in
      let node := FsNode name (fs p) parent 0 0 (to_fs_node_flags attr) (mount_target new_node)
        (u16 (fticks st * 1000 / TIMER_FREQUENCY)) (fnow st) 0 0 size 0 1 start_cluster (node_sem new_node) (space_available new_node) in
      '(v, cluster, directory, start_index, node) ←
        write_entries (Z.to_nat count) name shortname count attr start_cluster size v cluster directory start_index node;
      if start_index =? 0 then Ret (ERR_FS_SUCCESS, node, v)
      else
        let directory := end_entries (Z.to_nat ((csize - start_index) / 32)) directory start_index in
        Ret (ERR_FS_SUCCESS, node, write_cluster v cluster directory).

Definition fat32_add_entry (st : fat_state) (parent : Z) (name : list Z) (start_cluster attr size : Z) (new_node : Z) :
  outcome (FS_ERR * fat_state) :=
  p ← get_fnode st parent;
  n ← get_fnode st new_node;
  v ← volume_at st (fs p);
  '(err, n, v) ← add_entry st v parent p name start_cluster attr size n;
  Ret (err, put_fnode new_node n (put_volume (fs p) v st)).

(** ** Removing an entry *)

(** The loop over a cluster that looks for free entries at the end of a directory:
    the cluster the last run of them starts in (0: none), and how many there are. *)
Definition trash_step (csize : Z) (directory : list Z) (cluster : Z) '(i, trash, count) :
  outcome ((Z * Z * Z) + (bool * Z * Z)) :=
  if csize <=? i then Ret (inr (false, trash, count))
  else if byte_at directory i =? 0 then Ret (inr (true, trash, count))
  else if byte_at directory i =? 229 then
    Ret (inl (if trash =? 0 then (i + 32, cluster, 1) else (i + 32, trash, s32 (count + 1))))
  else Ret (inl (i + 32, 0, count)).

(** The loop over clusters; [None] when [end_cluster] has no end of the directory. *)
Definition find_trash_step (v : volume) (end_cluster : Z) '(cluster, trash, count) :
  outcome ((Z * Z * Z) + option (Z * Z * list Z)) :=
  let directory := read_cluster v cluster in
  '(ended, trash, count) ← while (trash_step (cluster_size (bootrec v)) directory cluster) (0, trash, count);
  if (ended : bool) then Ret (inr (Some (trash, count, directory)))
  else if cluster =? end_cluster then Ret (inr None)
  else next ← get_FAT_entry v cluster; Ret (inl (next, trash, count)).

(** From the last entry back, clear the free ones. *)
Definition clear_step '(i, directory) : outcome ((Z * list Z) + list Z) :=
  if i <? 0 then Ret (inr directory)
  else if negb (byte_at directory i =? 0) && negb (byte_at directory i =? 229) then Ret (inr directory)
  else Ret (inl (i - 32, <[Z.to_nat i := 0]> directory)).

Definition fix_empty_entries (v : volume) (start_cluster end_cluster : Z) : outcome volume :=
  r ← while (find_trash_step v end_cluster) (start_cluster, 0, 0);
  match r with
  | None => Ret v
  | Some (trash, count, directory) =>
      if trash =? 0 then Ret v
      else
        '(v, directory) ← (if 1 <? count
          then '(_, v) ← cut_cluster_chain v trash; Ret (v, read_cluster v trash)
          else Ret (v, directory));
        directory ← while clear_step (s32 (cluster_size (bootrec v) - 32), directory);
        Ret (write_cluster v trash directory)
  end.

(** Whether a directory has an entry besides . and .., looking at its first cluster. *)
Definition empty_step (csize : Z) (directory : list Z) '(i, n) : outcome ((Z * naming) + bool) :=
  if csize <=? i then Ret (inr true)
  else if byte_at directory i =? 0 then Ret (inr true)
  else if byte_at directory i =? 229 then Ret (inr false)
  else if byte_at directory (i + 11) =? 15 then Ret (inr false)
  else
    let n := process_sfn_entry (entry_at directory i) n in
    s ← c_string (entry_name n);
    Ret (if is_dotdot s then inl (i + 32, n) else inr false).

(** [directory[start + i*32] = clear_val] for [n] entries. *)
Fixpoint mark_entries (n : nat) (directory : list Z) (i clear_val : Z) : list Z :=
  match n with O => directory | S n => mark_entries n (<[Z.to_nat i := clear_val]> directory) (i + 32) clear_val end.

(** The cluster before [target] in a chain. *)
Definition previous_step (v : volume) (target : Z) '(last, FAT_val) : outcome ((Z * Z) + Z) :=
  if FAT_val =? target then Ret (inr last) else next ← get_FAT_entry v FAT_val; Ret (inl (FAT_val, next)).

(** The second half of fat32_remove_entry: mark the entries, long ones included, and
    tidy the directory up. *)
Definition remove_entries (v : volume) (p node : fs_node) (count clear_val : Z) (directory : list Z) : outcome volume :=
  let csize := cluster_size (bootrec v) in
  let cluster := parent_cluster node in
  let node_index := s32 (parent_cluster_index node) in
  let start_index := node_index - count * 32 in
  let go_back := if start_index <? 0 then - start_index else 0 in
  let start_index := if start_index <? 0 then 0 else start_index in
  let entry_cnt := (node_index + 32 - start_index) / 32 in
  let v := if (clear_val =? 229) || ((clear_val =? 0) && (go_back =? 0))
           then write_cluster v cluster (mark_entries (Z.to_nat entry_cnt) directory start_index clear_val) else v in
  v ← (if csize <? go_back then Fault
       else if 0 <? go_back then
         last ← while (previous_step v cluster) (start_cluster p, start_cluster p);
         let v := write_cluster v last (mark_entries (Z.to_nat (go_back / 32)) (read_cluster v last) (csize - go_back) clear_val) in
         if clear_val =? 0 then '(_, v) ← free_cluster_chain v cluster; set_FAT_entry v last FAT_EOC
         else Ret v
       else Ret v);
  if clear_val =? 0 then fix_empty_entries v (start_cluster p) (parent_cluster node) else Ret v.

(** Whether the entry behind this one is the end of the directory: 0 or 0xe5. *)
Definition clear_value (v : volume) (node : fs_node) : outcome Z :=
  let csize := cluster_size (bootrec v) in
  let node_index := parent_cluster_index node in
  let cluster := parent_cluster node in
  if u32 (node_index + 32) <? csize
  then Ret (if byte_at (read_cluster v cluster) (node_index + 32) =? 0 then 0 else 229)
  else
    FAT_val ← get_FAT_entry v cluster;
    Ret (if is_last FAT_val || (FAT_val =? FAT_BAD_CLUSTER) then 0
         else if byte_at (read_sectors v (first_sector (bootrec v) FAT_val) 1) 0 =? 0 then 0 else 229).

Definition remove_entry (st : fat_state) (v : volume) (p node : fs_node) (remove_content : bool) : outcome (FS_ERR * volume) :=
  let csize := cluster_size (bootrec v) in
  empty ← (if FS_NODE_IS_DIRECTORY node && remove_content
           then while (empty_step csize (read_cluster v (start_cluster node))) (0, fresh_naming (name_buffer st))
           else Ret true);
  if negb empty then Ret (ERR_FS_DIR_NOT_EMPTY, v)
  else
    clear_val ← clear_value v node;
    if csize <=? parent_cluster_index node then Fault
    else
      let directory := read_cluster v (parent_cluster node) in
      v ← (if remove_content then '(_, v) ← free_cluster_chain v (start_cluster node); Ret v else Ret v);
      v ← remove_entries v p node (lfn_entry_count (Fs.name node)) clear_val directory;
      Ret (ERR_FS_SUCCESS, v).

Definition fat32_remove_entry (st : fat_state) (parent node : Z) (remove_content : bool) : outcome (FS_ERR * fat_state) :=
  p ← get_fnode st parent;
  n ← get_fnode st node;
  v ← volume_at st (fs p);
  '(err, v) ← remove_entry st v p n remove_content;
  Ret (err, put_volume (fs p) v st).

(** ** Updating an entry *)

Definition fat32_update_entry (st : fat_state) (node : Z) : outcome (FS_ERR * fat_state) :=
  n ← get_fnode st node;
  v ← volume_at st (fs n);
  let directory := read_cluster v (parent_cluster n) in
  let i := parent_cluster_index n in
  a ← gmtime (accessed_timestamp n);
  m ← gmtime (modified_timestamp n);
  let '(adate, _) := parse_timestamp a in
  let '(mdate, mtime) := parse_timestamp m in
  if cluster_size (bootrec v) <? i + 32 then Fault
  else
    let directory := splice directory (i + 18) (le16 adate) in
    let directory := splice directory (i + 22) (le16 mtime) in
    let directory := splice directory (i + 24) (le16 mdate) in
    let directory := splice directory (i + 11) [to_fat_attr (flags n)] in
    let directory := splice directory (i + 28) (le32 (Fs.size n)) in
    Ret (ERR_FS_SUCCESS, put_volume (fs n) (write_cluster v (parent_cluster n) directory) st).

(** ** Nodes *)

(** What a node on the stack holds before it is filled. *)
Definition stack_node : fs_node := FsNode [] 0 0 0 0 0 0 0 0 0 0 0 0 0 0 0 0.

Definition fat32_mkdir (st : fat_state) (parent : Z) (name : list Z) (flags new_node : Z) : outcome (FS_ERR * fat_state) :=
  let attr := to_fat_attr flags in
  p ← get_fnode st parent;
  n ← get_fnode st new_node;
  let st := put_fnode new_node (set_flags 0 n) st in
  v ← volume_at st (fs p);
  '(start, v) ← fat32_allocate_clusters v 1 true;
  let st := put_volume (fs p) v st in
  if start =? 0 then Ret (ERR_FS_NOT_ENOUGH_SPACE, st)
  else
    '(err, st) ← fat32_add_entry st parent name start (Z.lor attr FAT_ATTR_DIRECTORY) 0 new_node;
    if failed err then Ret (err, st)
    else
      n ← get_fnode st new_node;
      v ← volume_at st (fs n);
      '(err, _, v) ← add_entry st v new_node n [46] start (Z.lor FAT_ATTR_DIRECTORY FAT_ATTR_HIDDEN) 0 stack_node;
      let st := put_volume (fs n) v st in
      if failed err then Ret (err, st)
      else
        p ← get_fnode st parent;
        v ← volume_at st (fs n);
        '(err, _, v) ← add_entry st v new_node n [46; 46] (start_cluster p) (Z.lor FAT_ATTR_DIRECTORY FAT_ATTR_HIDDEN) 0 stack_node;
        Ret (err, put_volume (fs n) v st).

Definition fat32_node_create (st : fat_state) (parent : Z) (name : list Z) (flags new_node : Z) : outcome (FS_ERR * fat_state) :=
  p ← get_fnode st parent;
  v ← volume_at st (fs p);
  '(file_cluster, v) ← fat32_allocate_clusters v 1 false;
  let st := put_volume (fs p) v st in
  if file_cluster =? 0 then Ret (ERR_FS_NOT_ENOUGH_SPACE, st)
  else fat32_add_entry st parent name file_cluster (to_fat_attr flags) 0 new_node.

Definition fat32_node_move (st : fat_state) (node new_parent : Z) (new_name : list Z) : outcome (FS_ERR * fat_state) :=
  n ← get_fnode st node;
  np ← get_fnode st new_parent;
  v ← volume_at st (fs np);
  '(err, copied, v) ← add_entry st v new_parent np new_name (start_cluster n) (to_fat_attr (flags n)) (Fs.size n) stack_node;
  let st := put_volume (fs np) v st in
  if failed err then Ret (err, st)
  else
    '(err, st) ← fat32_remove_entry st (parent n) node false;
    if failed err then Ret (err, st) else Ret (ERR_FS_SUCCESS, put_fnode node copied st).

Definition fat32_node_copy (st : fat_state) (node new_parent copied : Z) (new_name : list Z) : outcome (FS_ERR * fat_state) :=
  n ← get_fnode st node;
  np ← get_fnode st new_parent;
  v ← volume_at st (fs np);
  '(start, v) ← copy_cluster_chain v (start_cluster n);
  let st := put_volume (fs np) v st in
  if start =? 0 then Ret (ERR_FS_NOT_ENOUGH_SPACE, st)
  else fat32_add_entry st new_parent new_name start (to_fat_attr (flags n)) (Fs.size n) copied.

Definition fat32_node_reset (st : fat_state) (node : Z) : outcome (FS_ERR * fat_state) :=
  n ← get_fnode st node;
  v ← volume_at st (fs n);
  '(err, v) ← cut_cluster_chain v (start_cluster n);
  let st := put_volume (fs n) v st in
  if failed err then Ret (err, st) else Ret (ERR_FS_SUCCESS, put_fnode node (set_size 0 n) st).

(** ** The file system's operations, on the state *)

Definition file_volume (st : fat_state) (file : file_description) : outcome (fs_node * volume) :=
  n ← get_fnode st (fd_node file); v ← volume_at st (fs n); Ret (n, v).
Definition op_file_seek_absolute (st : fat_state) (file : file_description) (seek_position : Z) : outcome (FS_ERR * file_description) :=
  '(n, v) ← file_volume st file; fat32_file_seek_absolute v n file seek_position.
Definition op_file_read (st : fat_state) (file : file_description) (size : Z) : outcome (FS_ERR * list Z * file_description * fat_state) :=
  '(_, v) ← file_volume st file; '(err, data, file) ← fat32_file_read v file size; Ret (err, data, file, st).
Definition op_file_write (st : fat_state) (file : file_description) (data : list Z) : outcome (FS_ERR * Z * file_description * fat_state) :=
  '(n, v) ← file_volume st file;
  '(err, actual, file, v) ← fat32_file_write v n file data;
  Ret (err, actual, file, put_volume (fs n) v st).
Definition op_file_open (st : fat_state) (file : file_description) (node mode : Z) : outcome file_description :=
  n ← get_fnode st node; v ← volume_at st (fs n); fat32_file_open v n file mode.

(** The pointers fat32_init sets. *)
Definition fat32_fs : fs_t fat_state := FsT FS_FAT32 (Some fat32_remove_entry) (Some fat32_make_diriter_adapter)
  (Some fat32_save_diriter_adapter) (Some fat32_setup_directory_iterator) (Some fat32_iterate_directory)
  (Some fat32_mkdir) (Some fat32_node_create) (Some fat32_node_copy) (Some fat32_node_move) (Some fat32_node_reset)
  (Some fat32_update_entry) (Some op_file_seek_absolute) (Some op_file_read) (Some op_file_write) (Some op_file_open).

#[export] Program Instance fat_store : NodeStore fat_state := {
  node_at := get_fnode;
  update_node st p n := put_fnode p n st;
  fs_at st f := match volumes st !! f with Some _ => Ret fat32_fs | None => Fault end;
  timer_get_current_time := fnow;
}.
Next Obligation. intros st p n. unfold get_fnode. cbn. now rewrite lookup_insert_eq. Qed.
Next Obligation. reflexivity. Qed.

(** ** Mounting *)

(** fat32_init up to the mount point: the new [fs_t] at [fs], its root node inside it,
    where fresh memory holds [old]. *)
Definition root_node (fs : Z) : Z := fs + 20.

Definition fat32_mount (st : fat_state) (fs start : Z) (old : fs_node) : outcome (FS_ERR * fat_state) :=
  let boot := get_bootrec start (the_disk st) in
  let info := get_fsinfo start boot (the_disk st) in
  if fs =? 0 then Ret (ERR_FS_OOM, st)
  else if negb (lead_signature info =? 1096897106) || negb (mid_signature info =? 1631679090) || negb (trail_signature info =? 2857697280)
  then Ret (ERR_FS_INVALID_FSINFO, st)
  else
    let unknown x := x =? 4294967295 in
    let v := Volume start boot (if unknown (available_clusters_start info) then set_available_clusters_start 2 info else info) (the_disk st) in
    v ← (if unknown (free_cluster_count info)
         then free ← count_free_cluster v; Ret (with_fsinfo (set_free_cluster_count free (fsinfo v)) v) else Ret v);
    let v := if unknown (available_clusters_start info) || unknown (free_cluster_count info) then update_fsinfo v else v in
    let root := FsNode [47] fs 0 0 0 FS_NODE_TYPE_DIRECTORY (mount_target old) 0 (creation_timestamp old)
      (modified_timestamp old) (accessed_timestamp old) 0 69420 1 (rootdir_cluster boot) (node_sem old) (space_available old) in
    Ret (ERR_FS_SUCCESS, put_fnode (root_node fs) root (put_volume fs v st)).
