(* ===== verification/FatList.v ===== *)
(** * FAT32: what is added is listed

    The entries fat32_add_entry writes for a name are the ones fat32_iterate_directory
    reads back, for long names and for names that fit a short entry. *)
From S2P Require Import Prelude Mem CString CTime Disk Fs Ramfs FileOps Fat FatChain FatFile FatEntry FatDir.

(** ** Short names *)

Definition ascii (l : list Z) : Prop := Forall (fun c => 0 < c < 128) l.

Lemma ascii_text l : ascii l -> text l.
Proof. intros A. eapply Forall_impl; [exact A|]. cbn. lia. Qed.

Lemma Forall_splice (P : Z -> Prop) l i new : Forall P l -> Forall P new -> Forall P (splice l i new).
Proof. intros. unfold splice. auto using Forall_app_2, Forall_take, Forall_drop. Qed.

Lemma Forall_filter_list (P Q : Z -> Prop) `{forall x, Decision (Q x)} l : Forall P l -> Forall P (filter Q l).
Proof. rewrite !Forall_forall. intros F x Hx. apply list_elem_of_filter in Hx as [_ Hx]. auto. Qed.

Lemma s8_ascii c : 0 <= c < 128 -> s8 c = c.
Proof. intros. unfold s8. rewrite Z.mod_small by lia. lia. Qed.

Lemma upper_byte_ascii c : 0 < c < 128 -> 0 < upper_byte c < 128.
Proof. intros Hc. unfold upper_byte. rewrite s8_ascii by lia. destruct (Z.leb_spec 97 c), (Z.leb_spec c 122); cbn [andb]; lia. Qed.

Lemma length_short_name name attr : length (short_name name attr) = 11%nat.
Proof.
  unfold short_name, fill. case_bool_decide as E1; [subst; reflexivity|]. case_bool_decide as E2; [subst; reflexivity|]. cbn [orb].
  set (ext := take 3 (filter _ _)). assert (Lx : (length ext <= 3)%nat) by (subst ext; rewrite length_take; lia).
  set (base := if (_ : bool) then take _ name else name). set (b := take 8 (filter _ base)).
  assert (Lb : (length b <= 8)%nat) by (subst b; rewrite length_take; lia). set (s0 := if (0 <? _) && _ then splice _ 8 ext else _).
  assert (L0 : length s0 = 11%nat) by (subst s0; case_test; rewrite ?length_splice by (rewrite ?length_replicate; lia); now rewrite length_replicate).
  assert (L1 : length (splice s0 0 b) = 11%nat) by (rewrite length_splice by (rewrite ?L0; lia); exact L0).
  rewrite length_map. case_test; [|exact L1]. rewrite length_splice by (rewrite ?L1; cbn [length]; lia). exact L1.
Qed.

Lemma short_name_ascii name attr : ascii name -> ascii (short_name name attr).
Proof.
  intros A. assert (S : ascii (replicate 11 32)) by (apply Forall_replicate; lia). unfold short_name, fill.
  case_test; [now apply Forall_splice|]. apply Forall_map. eapply Forall_impl; [|exact upper_byte_ascii].
  assert (B : ascii (take 8 (filter (fun c => sfn_forbidden c || (c =? 46) = false)
    (if (0 <? dot_position name) && negb (has_flag attr FAT_ATTR_DIRECTORY) then take (Z.to_nat (dot_position name)) name else name)))).
  { apply Forall_take, Forall_filter_list. case_test; [now apply Forall_take|exact A]. }
  set (b := take 8 _) in *. clearbody b.
  assert (S0 : ascii (if (0 <? dot_position name) && negb (has_flag attr FAT_ATTR_DIRECTORY)
    then splice (replicate 11 32) 8 (take 3 (filter (fun c => sfn_forbidden c = false) (drop (Z.to_nat (dot_position name + 1)) name)))
    else replicate 11 32)).
  { case_test; [|exact S]. apply Forall_splice; [exact S|]. apply Forall_take, Forall_filter_list, Forall_drop, A. }
  case_test; [|now apply Forall_splice]. apply Forall_splice; [now apply Forall_splice|]. repeat constructor; lia.
Qed.

Lemma until_space_Forall (P : Z -> Prop) l : Forall P l -> Forall P (until_space l) /\ (length (until_space l) <= length l)%nat.
Proof.
  induction 1 as [|c l Hc F [IH1 IH2]]; cbn [until_space length]; [split; [constructor|lia]|].
  case_test; cbn [length]; split; [constructor|lia|now constructor|lia].
Qed.

Lemma sfn_chars_text e : ascii e -> text (sfn_chars e) /\ (length (sfn_chars e) <= 12)%nat.
Proof.
  intros A. unfold sfn_chars. destruct (until_space_Forall _ (take 8 e) (Forall_take _ 8 e A)) as [F1 L1].
  destruct (until_space_Forall _ (take 3 (drop 8 e)) (Forall_take _ 3 _ (Forall_drop _ 8 e A))) as [F2 L2].
  rewrite length_take in L1, L2. rewrite length_app. case_test; cbn [length]; (split; [|lia]); apply Forall_app_2; try (now apply ascii_text).
  - constructor.
  - constructor; [lia|now apply ascii_text].
Qed.

Lemma sfn_chars_name e shortname : take 11 e = shortname -> (11 <= length e)%nat -> sfn_chars e = sfn_chars shortname.
Proof.
  intros <- L. unfold sfn_chars. rewrite take_take. change (8 `min` 11)%nat with 8%nat.
  rewrite !take_drop_commute, take_take. change (8 + 3)%nat with 11%nat. change (11 `min` 11)%nat with 11%nat.
  unfold byte_at. now rewrite lookup_take_lt by lia.
Qed.

(** What is_valid_sfn accepts: a base of 8 characters and an extension of 3 at most. *)
Definition plain (c : Z) : Prop := ~ (97 <= s8 c <= 122) /\ sfn_forbidden c = false /\ c <> 46.

Lemma sfn_scan_spec l : forall i dot d, 0 <= i -> sfn_scan l i dot = Some d ->
  (d = dot /\ Forall plain l) \/
  (dot = -1 /\ exists a b, l = a ++ 46 :: b /\ d = i + Z.of_nat (length a) /\ Forall plain a /\ Forall plain b).
Proof.
  induction l as [|c l IH]; intros i dot d Hi E; cbn [sfn_scan] in E; [injection E as <-; left; auto|].
  destruct ((97 <=? s8 c) && (s8 c <=? 122)) eqn:E1; [discriminate|]. destruct (sfn_forbidden c) eqn:E2; [discriminate|].
  destruct (Z.eqb_spec c 46) as [->|E3].
  - destruct (Z.eqb_spec dot (-1)) as [->|]; [cbn [negb] in E|discriminate].
    destruct (IH (i + 1) i d ltac:(lia) E) as [[-> F]|[D _]]; [|lia]. right. split; [reflexivity|]. exists [], l. cbn [app length]. split_and!; auto. lia.
  - assert (P : plain c) by (repeat split; auto; lia). destruct (IH (i + 1) dot d ltac:(lia) E) as [[-> F]|(-> & a & b & -> & -> & Fa & Fb)].
    + left. auto.
    + right. split; [reflexivity|]. exists (c :: a), b. cbn [app length]. split_and!; auto. lia.
Qed.

Lemma is_valid_sfn_shape name : is_valid_sfn name = true ->
  (Forall plain name /\ 1 <= Z.of_nat (length name) <= 8) \/
  (exists a b, name = a ++ 46 :: b /\ Forall plain a /\ Forall plain b /\ 1 <= Z.of_nat (length a) <= 8 /\ Z.of_nat (length b) <= 3).
Proof.
  unfold is_valid_sfn. intros E. destruct (Z.eqb_spec (Z.of_nat (length name)) 0); [discriminate|].
  destruct (Z.ltb_spec 12 (Z.of_nat (length name))); [discriminate|]. cbn [orb] in E.
  destruct (sfn_scan name 0 (-1)) as [d|] eqn:S; [|discriminate].
  destruct (sfn_scan_spec name 0 (-1) d ltac:(lia) S) as [[-> F]|(_ & a & b & -> & -> & Fa & Fb)].
  - left. split; [exact F|]. cbn [Z.eqb Pos.eqb] in E. lia.
  - right. exists a, b. rewrite length_app in *. cbn [length] in *. destruct (Z.eqb_spec (0 + Z.of_nat (length a)) (-1)); [lia|].
    apply andb_prop in E as [E E3]. apply andb_prop in E as [E1 E2]. split_and!; auto; lia.
Qed.

Lemma last_dot_at name k : forall i, (0 < k <= i)%nat -> name !! k = Some 46 -> (forall j, (k < j <= i)%nat -> name !! j <> Some 46) ->
  last_dot name i = Z.of_nat k.
Proof.
  induction i as [|i IH]; intros Hk Hd N; [lia|]. cbn [last_dot]. destruct (decide (k = S i)) as [->|Hne]; [now rewrite Hd|].
  rewrite IH by (auto; intros; try apply N; lia). specialize (N (S i) ltac:(lia)).
  destruct (name !! S i) as [c|]; [|reflexivity]. cbn. destruct (Z.eqb_spec c 46); congruence.
Qed.

Lemma last_dot_none name : forall i, (forall j, (0 < j <= i)%nat -> name !! j <> Some 46) -> last_dot name i = 0.
Proof.
  induction i as [|i IH]; intros N; [reflexivity|]. cbn [last_dot]. rewrite IH by (intros; apply N; lia). specialize (N (S i) ltac:(lia)).
  destruct (name !! S i) as [c|]; [|reflexivity]. cbn. destruct (Z.eqb_spec c 46); congruence.
Qed.

Lemma plain_lookup l (j : nat) : Forall plain l -> l !! j <> Some 46.
Proof. intros F E. pose proof (Forall_lookup_1 _ _ _ _ F E) as P. now destruct P as (_ & _ & P). Qed.

Lemma plain_not_space c : plain c -> c <> 32.
Proof. intros (_ & F & _) ->. discriminate F. Qed.

Lemma filter_all (P : Z -> Prop) `{forall x, Decision (P x)} l : Forall P l -> filter P l = l.
Proof. induction 1 as [|c l Hc F IH]; [reflexivity|]. rewrite filter_cons_True by exact Hc. now f_equal. Qed.

Lemma until_space_plain l n : Forall plain l -> until_space (l ++ replicate n 32) = l.
Proof.
  induction 1 as [|c l Hc F IH]; cbn [app until_space]; [destruct n; reflexivity|]. apply plain_not_space in Hc.
  replace (c =? 32) with false by lia. now f_equal.
Qed.

Lemma upper_plain l : Forall plain l -> map upper_byte l = l.
Proof.
  induction 1 as [|c l (Hc & _) F IH]; [reflexivity|]. cbn [map]. f_equal; [|exact IH]. unfold upper_byte.
  destruct (Z.leb_spec 97 (s8 c)), (Z.leb_spec (s8 c) 122); cbn [andb]; lia.
Qed.

(** The 11 bytes of a base and an extension. *)
Definition padded (a b : list Z) : list Z := a ++ replicate (8 - length a) 32 ++ b ++ replicate (3 - length b) 32.

Lemma fill_padded a b : (length a <= 8)%nat -> (length b <= 3)%nat -> fill (fill (replicate 11 32) 8 b) 0 a = padded a b.
Proof.
  intros La Lb. unfold fill, splice, padded. change (Z.to_nat 8) with 8%nat. change (Z.to_nat 0) with 0%nat. rewrite take_0, app_nil_l, Nat.add_0_l. f_equal.
  rewrite take_replicate, drop_replicate. change (8 `min` 11)%nat with 8%nat. rewrite drop_app_le by (rewrite length_replicate; lia).
  rewrite drop_replicate. reflexivity.
Qed.

Lemma sfn_chars_padded a b : Forall plain a -> Forall plain b -> (length a <= 8)%nat -> (length b <= 3)%nat ->
  sfn_chars (padded a b) = a ++ (if bool_decide (b = []) then [] else 46 :: b).
Proof.
  intros Fa Fb La Lb. unfold sfn_chars, padded. rewrite (app_assoc a).
  assert (L8 : length (a ++ replicate (8 - length a) 32) = 8%nat) by (rewrite length_app, length_replicate; lia).
  rewrite take_app_length', drop_app_length' by (symmetry; exact L8). rewrite until_space_plain by exact Fa. f_equal.
  rewrite take_ge by (rewrite length_app, length_replicate; lia). rewrite until_space_plain by exact Fb.
  unfold byte_at. change (Z.to_nat 8) with 8%nat. rewrite lookup_app_r, L8 by lia. change (8 - 8)%nat with 0%nat.
  destruct b as [|c b]; [reflexivity|]. apply Forall_cons in Fb as [Hc _]. apply plain_not_space in Hc.
  cbn. now replace (c =? 32) with false by lia.
Qed.

Lemma upper_padded a b : Forall plain a -> Forall plain b -> map upper_byte (padded a b) = padded a b.
Proof.
  intros Fa Fb. assert (S : forall n, map upper_byte (replicate n 32) = replicate n 32) by (intros n; apply (fmap_replicate upper_byte)).
  unfold padded. rewrite !map_app, !S, !upper_plain by assumption. reflexivity.
Qed.

(** The names that fit a short entry as they are: without a dot, or of a file and with
    something behind the dot. *)
Definition fits_sfn (name : list Z) (attr : Z) : Prop :=
  is_valid_sfn name = true /\ (46 ∉ name \/ has_flag attr FAT_ATTR_DIRECTORY = false /\ last name <> Some 46).

Lemma short_name_plain name attr : Forall plain name -> 1 <= Z.of_nat (length name) <= 8 -> short_name name attr = padded name [].
Proof.
  intros F L. assert (D : dot_position name = 0).
  { unfold dot_position. rewrite bool_decide_eq_false_2 by (intros ->; cbn in L; lia). apply last_dot_none. intros. now apply plain_lookup. }
  assert (N : name <> [46] /\ name <> [46; 46]).
  { split; intros ->; apply Forall_cons in F as [(_ & _ & P) _]; congruence. }
  unfold short_name. rewrite !bool_decide_eq_false_2 by apply N. cbn [orb]. rewrite D. cbn [Z.ltb Z.compare andb].
  replace (8 <? Z.of_nat (length name)) with false by lia. rewrite andb_false_r. cbn [orb].
  rewrite filter_all by (eapply Forall_impl; [exact F|]; intros c (_ & -> & P); cbn [orb]; lia).
  rewrite take_ge by lia. transitivity (map upper_byte (padded name [])).
  - f_equal. rewrite <- fill_padded by (cbn [length]; lia). reflexivity.
  - apply upper_padded; [exact F|constructor].
Qed.

Lemma dotted_position a b : Forall plain b -> (0 < length a)%nat -> dot_position (a ++ 46 :: b) = Z.of_nat (length a).
Proof.
  intros Fb La. unfold dot_position. rewrite bool_decide_eq_false_2 by (destruct a; discriminate).
  apply last_dot_at; [rewrite length_app; cbn [length]; lia|apply list_lookup_middle; reflexivity|].
  intros j Hj. rewrite lookup_app_r by lia. replace (j - length a)%nat with (S (j - length a - 1)) by lia. exact (plain_lookup b _ Fb).
Qed.

Lemma filter_plain l : Forall plain l ->
  filter (fun c => sfn_forbidden c || (c =? 46) = false) l = l /\ filter (fun c => sfn_forbidden c = false) l = l.
Proof.
  intros F. split; apply filter_all; (eapply Forall_impl; [exact F|]); intros c (_ & E & P); [|exact E]. rewrite E. cbn [orb]. lia.
Qed.

Lemma short_name_dotted a b attr : Forall plain a -> Forall plain b -> 1 <= Z.of_nat (length a) <= 8 -> Z.of_nat (length b) <= 3 -> b <> [] ->
  has_flag attr FAT_ATTR_DIRECTORY = false -> short_name (a ++ 46 :: b) attr = padded a b.
Proof.
  intros Fa Fb La Lb Nb D. assert (N : a ++ 46 :: b <> [46] /\ a ++ 46 :: b <> [46; 46]).
  { split; intros E; apply (f_equal length) in E as El; rewrite length_app in El; cbn [length] in El; destruct b; [congruence|cbn in El; lia| |];
      [congruence|]. destruct a; [cbn in La; lia|cbn in El; lia]. }
  unfold short_name. rewrite !bool_decide_eq_false_2 by apply N. cbn [orb]. rewrite dotted_position by (auto; lia). rewrite D.
  replace (0 <? Z.of_nat (length a)) with true by lia. replace (8 <? Z.of_nat (length a)) with false by lia. cbn [andb orb negb].
  replace (Z.to_nat (Z.of_nat (length a) + 1)) with (length a + 1)%nat by lia. rewrite Nat2Z.id, take_app_length.
  rewrite <- drop_drop, drop_app_length. change (drop 1 (46 :: b)) with b. rewrite (proj2 (filter_plain b Fb)), (proj1 (filter_plain a Fa)).
  rewrite !take_ge by lia. rewrite fill_padded by lia. now apply upper_padded.
Qed.

(** Such a name is what the short entry lists. *)
Lemma sfn_chars_fits name attr : fits_sfn name attr -> sfn_chars (short_name name attr) = name.
Proof.
  intros [V K]. destruct (is_valid_sfn_shape name V) as [[F L]|(a & b & -> & Fa & Fb & La & Lb)].
  - rewrite short_name_plain by assumption. rewrite sfn_chars_padded by (auto; cbn [length]; lia). apply app_nil_r.
  - destruct K as [K|[D K]]; [exfalso; apply K, elem_of_app; right; apply list_elem_of_here|].
    assert (Nb : b <> []) by (intros ->; apply K; now rewrite last_snoc).
    rewrite short_name_dotted, sfn_chars_padded by (auto; lia). now rewrite bool_decide_eq_false_2.
Qed.

(** ** Entries in a cluster *)

(** The entries [es] lie one behind the other from [i] on. *)
Definition holds (directory : list Z) (i : Z) (es : list (list Z)) : Prop :=
  forall m e, es !! m = Some e -> entry_at directory (i + 32 * Z.of_nat m) = e.

Lemma holds_cons directory i e es : holds directory i (e :: es) <-> entry_at directory i = e /\ holds directory (i + 32) es.
Proof.
  split.
  - intros H. split; [rewrite <- (H 0%nat e eq_refl); f_equal; lia|]. intros m x Hx. rewrite <- (H (S m) x Hx). f_equal. lia.
  - intros [H1 H2] [|m] x Hx; [injection Hx as <-; rewrite <- H1; f_equal; lia|]. rewrite <- (H2 m x Hx). f_equal. lia.
Qed.

Lemma entry_at_lookup directory i (k : nat) : 0 <= i -> (k < 32)%nat -> entry_at directory i !! k = directory !! (Z.to_nat i + k)%nat.
Proof. intros. unfold entry_at. now rewrite lookup_take_lt, lookup_drop by lia. Qed.

Lemma byte_at_entry directory i k : 0 <= i -> 0 <= k < 32 -> byte_at directory (i + k) = byte_at (entry_at directory i) k.
Proof. intros. unfold byte_at. rewrite entry_at_lookup by lia. do 2 f_equal. lia. Qed.

Lemma entry_at_splice directory i e : 0 <= i -> length e = 32%nat -> i + 32 <= Z.of_nat (length directory) ->
  entry_at (splice directory i e) i = e.
Proof.
  intros Hi He Hl. apply list_eq. intros k. destruct (decide (k < 32)%nat).
  - rewrite entry_at_lookup, lookup_splice by lia. rewrite decide_True by lia. f_equal. lia.
  - rewrite !lookup_ge_None_2; [reflexivity|lia|]. unfold entry_at. rewrite length_take. lia.
Qed.

Lemma entry_at_splice_ne directory i j e : 0 <= i -> 0 <= j -> i + Z.of_nat (length e) <= Z.of_nat (length directory) ->
  i + Z.of_nat (length e) <= j \/ j + 32 <= i -> entry_at (splice directory i e) j = entry_at directory j.
Proof.
  intros Hi Hj Hl Hd. apply list_eq. intros k. destruct (decide (k < 32)%nat).
  - rewrite !entry_at_lookup, lookup_splice by lia. now rewrite decide_False by lia.
  - rewrite !lookup_ge_None_2; [reflexivity| |]; unfold entry_at; rewrite length_take; lia.
Qed.

Lemma splice_splice_app l i a b : 0 <= i -> i + Z.of_nat (length a) + Z.of_nat (length b) <= Z.of_nat (length l) ->
  splice (splice l i a) (i + Z.of_nat (length a)) b = splice l i (a ++ b).
Proof.
  intros Hi Hl. apply list_eq. intros j. rewrite !lookup_splice by (rewrite ?length_splice, ?length_app; lia). rewrite length_app.
  repeat case_decide; try lia; try reflexivity.
  - rewrite lookup_app_r by lia. f_equal. lia.
  - rewrite lookup_app_l by lia. reflexivity.
Qed.

Lemma holds_splice directory i es : 0 <= i -> Forall (fun e => length e = 32%nat) es ->
  i + 32 * Z.of_nat (length es) <= Z.of_nat (length directory) -> holds (splice directory i (concat es)) i es.
Proof.
  intros Hi F. revert directory i Hi. induction F as [|e es He F IH]; intros directory i Hi Hl; [intros m x Hm; now rewrite lookup_nil in Hm|].
  cbn [length concat] in *.
  assert (Lc : length (concat es) = (32 * length es)%nat).
  { clear -F. induction F as [|e es He F IH]; cbn [concat length]; [reflexivity|]. rewrite length_app, IH, He. lia. }
  rewrite <- splice_splice_app by lia. rewrite He. apply holds_cons. split.
  - rewrite entry_at_splice_ne by (rewrite ?length_splice; lia). apply entry_at_splice; lia.
  - apply IH; rewrite ?length_splice; lia.
Qed.

(** A directory's bytes before [n] decide what lies before it. *)
Lemma holds_prefix d d' i es : 0 <= i -> (forall j : nat, Z.of_nat j < i + 32 * Z.of_nat (length es) -> d' !! j = d !! j) ->
  holds d i es -> holds d' i es.
Proof.
  intros Hi E H m e Hm. rewrite <- (H m e Hm). apply list_eq. intros k. apply lookup_lt_Some in Hm. destruct (decide (k < 32)%nat).
  - rewrite !entry_at_lookup by lia. apply E. lia.
  - rewrite !lookup_ge_None_2; [reflexivity| |]; unfold entry_at; rewrite length_take; lia.
Qed.

(** ** Reading them back *)

Lemma scan_lfn_entries directory csize es : forall i n n' m, 0 <= i -> i + 32 * Z.of_nat (length es) <= csize -> holds directory i es ->
  Forall (fun e => byte_at e 0 <> 0 /\ byte_at e 0 <> 229 /\ byte_at e 11 = 15) es -> process_lfns es n = Ret n' ->
  loop (scan_step csize directory) (length es + m) (i, n) = loop (scan_step csize directory) m (i + 32 * Z.of_nat (length es), n').
Proof.
  induction es as [|e es IH]; intros i n n' m Hi Hl H F P.
  - injection P as <-. cbn [length Nat.add]. do 2 f_equal. lia.
  - apply holds_cons in H as [He H]. inversion_clear F as [|? ? (B0 & B1 & B2) F']. cbn [length Nat.add] in *.
    rewrite loop_S. unfold scan_step at 2. replace (csize <=? i) with false by lia.
    replace (byte_at directory i) with (byte_at e 0) by (rewrite <- He, <- byte_at_entry by lia; f_equal; lia).
    replace (byte_at directory (i + 11)) with (byte_at e 11) by (rewrite <- He, <- byte_at_entry by lia; reflexivity).
    replace (byte_at e 0 =? 0) with false by lia. replace (byte_at e 0 =? 229) with false by lia. rewrite B2, He. cbn [Z.eqb Pos.eqb].
    cbn [process_lfns] in P. apply bind_Ret_inv in P as (n1 & -> & P). rewrite !bind_ret.
    rewrite (IH (i + 32) n1 n' m) by (auto; lia). do 2 f_equal. lia.
Qed.

(** The entries of a name, in their order: [e] is the short one. *)
Definition name_entries (name : list Z) (e : list Z) (checksum : Z) : list (list Z) :=
  (if is_valid_sfn name then [] else lfn_entries name checksum) ++ [e].

(** The name a directory lists for them. *)
Definition listed_name (name e : list Z) : list Z := if is_valid_sfn name then sfn_chars e else name.

Lemma lfn_entries_bytes name checksum : 0 < Z.of_nat (length name) < FILENAME_LIMIT ->
  Forall (fun e => byte_at e 0 <> 0 /\ byte_at e 0 <> 229 /\ byte_at e 11 = 15) (lfn_entries name checksum) /\
  Forall (fun e => length e = 32%nat) (lfn_entries name checksum).
Proof.
  intros Hl. destruct (lfn_count_bounds name Hl) as [Hc _]. unfold lfn_entries.
  split; apply Forall_forall; intros e He; apply list_elem_of_fmap in He as (i & -> & Hi);
    apply list_elem_of_In, in_rev, list_elem_of_In, elem_of_seqZ in Hi; [|apply length_lfn_entry].
  rewrite byte_at_lfn_0, byte_at_lfn_11.
  assert (K : forall k, 0 <= k < 21 -> k <> 0 -> (u8 (Z.lor k 64) <> 0 /\ u8 (Z.lor k 64) <> 229) /\ u8 k <> 0 /\ u8 k <> 229).
  { apply (forall_below 21 (fun k => k <> 0 -> (u8 (Z.lor k 64) <> 0 /\ u8 (Z.lor k 64) <> 229) /\ u8 k <> 0 /\ u8 k <> 229)). by_eval. }
  destruct (K i ltac:(lia) ltac:(lia)) as [[K1 K2] [K3 K4]]. case_test; auto.
Qed.

(** Scanning from the first entry of a name finds its short entry, with the name. *)
Lemma scan_name directory csize i name e checksum buffer : text name -> 0 < Z.of_nat (length name) < FILENAME_LIMIT ->
  Z.of_nat (length buffer) = FILENAME_LIMIT -> 0 <= i ->
  i + 32 * Z.of_nat (length (name_entries name e checksum)) <= csize < 2 ^ 31 -> holds directory i (name_entries name e checksum) ->
  byte_at e 0 <> 0 -> byte_at e 0 <> 229 -> byte_at e 11 <> 15 -> text (sfn_chars e) -> (length (sfn_chars e) <= 12)%nat ->
  exists n, while (scan_step csize directory) (i, fresh_naming buffer) =
      Ret (FoundEntry (i + 32 * (Z.of_nat (length (name_entries name e checksum)) - 1)) n) /\
    c_string (take (Z.to_nat (namelen n)) (entry_name n) ++ [0]) = Ret (listed_name name e).
Proof.
  intros T Hl Hb Hi Hc H B0 B1 B2 Ts Ls. unfold name_entries, listed_name in *. set (es := if is_valid_sfn name then [] else _) in *.
  rewrite length_app in *. cbn [length] in *.
  assert (P : exists n, process_lfns es (fresh_naming buffer) = Ret n /\ lfn_ready n = negb (is_valid_sfn name) /\
    (is_valid_sfn name = false -> named name 0 (namelen n) (entry_name n)) /\ (is_valid_sfn name = true -> n = fresh_naming buffer)).
  { subst es. destruct (is_valid_sfn name); [exists (fresh_naming buffer); split_and!; auto; discriminate|].
    destruct (process_lfns_spec name checksum (fresh_naming buffer) T Hl Hb eq_refl) as (n & E & R & _ & N). exists n. split_and!; auto; discriminate. }
  destruct P as (n & P & R & N1 & N2).
  assert (F : Forall (fun e => byte_at e 0 <> 0 /\ byte_at e 0 <> 229 /\ byte_at e 11 = 15) es).
  { subst es. destruct (is_valid_sfn name); [constructor|now apply lfn_entries_bytes]. }
  assert (H1 : holds directory i es) by (intros m x Hx; apply H; now apply lookup_app_l_Some).
  assert (He : entry_at directory (i + 32 * Z.of_nat (length es)) = e).
  { apply H. rewrite lookup_app_r, Nat.sub_diag by lia. reflexivity. }
  exists (if lfn_ready n then n else process_sfn_entry e n). split.
  - eapply (while_loop _ (length es + 1)); [|congruence|lia]. rewrite (scan_lfn_entries directory csize es i _ n 1 Hi ltac:(lia) H1 F P).
    rewrite loop_S. unfold scan_step at 2. set (j := i + 32 * Z.of_nat (length es)) in *. replace (csize <=? j) with false by lia.
    replace (byte_at directory j) with (byte_at e 0) by (rewrite <- He, <- byte_at_entry by lia; f_equal; lia).
    replace (byte_at directory (j + 11)) with (byte_at e 11) by (rewrite <- He, <- byte_at_entry by lia; reflexivity).
    replace (byte_at e 0 =? 0) with false by lia. replace (byte_at e 0 =? 229) with false by lia. replace (byte_at e 11 =? 15) with false by lia.
    rewrite He, bind_ret. subst j. do 2 f_equal. lia.
  - rewrite R. destruct (is_valid_sfn name); cbn [negb].
    + rewrite (N2 eq_refl). unfold process_sfn_entry. cbn [namelen entry_name fresh_naming]. rewrite Nat2Z.id.
      unfold FILENAME_LIMIT in *. unfold splice. change (take (Z.to_nat 0) buffer) with (@nil Z). rewrite app_nil_l, take_app_length, <- app_assoc. apply c_string_prefix, Ts.
    + apply named_string; auto.
Qed.

(** ** Writing them *)

Lemma write_entries_spec name shortname count attr sc size v cluster node old_e e : length e = 32%nat -> forall i directory start,
  0 <= start -> start + 32 * (Z.of_nat i + 1) < cluster_size (bootrec v) -> Z.of_nat (length directory) = cluster_size (bootrec v) ->
  entry_at directory (start + 32 * Z.of_nat i) = old_e ->
  dir_entry old_e shortname attr sc size (creation_milisecond node) (creation_timestamp node) (accessed_timestamp node)
    (modified_timestamp node) = Ret e ->
  exists node', write_entries i name shortname count attr sc size v cluster directory start node =
    Ret (v, cluster, splice directory start (concat (map (lfn_entry name count (gen_checksum shortname)) (rev (seqZ 1 (Z.of_nat i))) ++ [e])),
      start + 32 * (Z.of_nat i + 1), node') /\
    Fs.name node' = Fs.name node /\ fs node' = fs node /\ node_addr node' = node_addr node /\ parent_cluster node' = cluster /\
    parent_cluster_index node' = start + 32 * Z.of_nat i.
Proof.
  intros Le. induction i as [|i IH]; intros directory start Hs Hc Hl Ho E.
  - cbn [write_entries Nat.eqb]. cbn [Z.of_nat] in *. rewrite Z.mul_0_r, Z.add_0_r in Ho. rewrite Ho, E, bind_ret.
    replace (cluster_size (bootrec v) <=? start + 32) with false by lia. rewrite bind_ret. change (rev (seqZ 1 (Z.of_nat 0))) with (@nil Z). cbn [map app concat]. rewrite app_nil_r.
    eexists. split; [do 2 f_equal; lia|]. cbn. split_and!; lia || reflexivity.
  - cbn [write_entries Nat.eqb]. rewrite bind_ret. replace (cluster_size (bootrec v) <=? start + 32) with false by lia. rewrite bind_ret.
    set (e0 := lfn_entry name count (gen_checksum shortname) (Z.of_nat (S i))).
    assert (L0 : length e0 = 32%nat) by apply length_lfn_entry.
    destruct (IH (splice directory start e0) (start + 32)) as (node' & W & F); [lia|lia|rewrite length_splice; lia| |exact E|].
    { rewrite <- Ho. rewrite entry_at_splice_ne by lia. f_equal. lia. }
    exists node'. rewrite W. split; [|replace (start + 32 + 32 * Z.of_nat i) with (start + 32 * Z.of_nat (S i)) in F by lia; exact F].
    rewrite seqZ_S, rev_app_distr. cbn [rev app map concat]. replace (1 + Z.of_nat i) with (Z.of_nat (S i)) by lia. fold e0.
    replace (start + 32 * (Z.of_nat (S i) + 1)) with (start + 32 + 32 * (Z.of_nat i + 1)) by lia.
    set (es := map _ _). rewrite <- (splice_splice_app directory start e0 (concat (es ++ [e]))); [now rewrite L0|lia|].
    assert (Lc : length (concat (es ++ [e])) = (32 * (i + 1))%nat).
    { assert (F32 : Forall (fun x => length x = 32%nat) (es ++ [e])).
      { apply Forall_app_2; [|now constructor]. subst es. apply Forall_fmap, Forall_forall. intros x _. apply length_lfn_entry. }
      assert (Le2 : length (es ++ [e]) = (i + 1)%nat) by (subst es; rewrite length_app, length_map, length_rev, length_seqZ; cbn; lia).
      rewrite <- Le2. clear -F32. induction F32 as [|x xs Hx _ IH]; cbn [concat length]; [reflexivity|]. rewrite length_app, IH, Hx. lia. }
    rewrite Lc, L0. lia.
Qed.

Lemma end_entries_spec n : forall directory i, 0 <= i -> bytes_list directory ->
  length (end_entries n directory i) = length directory /\ bytes_list (end_entries n directory i) /\
  forall j : nat, Z.of_nat j < i -> end_entries n directory i !! j = directory !! j.
Proof.
  induction n as [|n IH]; intros directory i Hi B; cbn [end_entries]; [auto|].
  destruct (IH (<[Z.to_nat i := 0]> directory) (i + 32)) as (L & B' & E); [lia|apply Forall_insert; [exact B|cbn; lia]|].
  rewrite L, length_insert. split_and!; auto. intros j Hj. rewrite E by lia. apply list_lookup_insert_ne. lia.
Qed.

(** The place found for an entry is one, and the end of the directory is there. *)
Lemma place_index csize directory name n i : while (dup_step csize directory name) (0, n) = Ret (Some (EndOfDirectory i)) ->
  i < csize /\ exists m, 0 <= m /\ i = 32 * m.
Proof.
  intros W. 
  edestruct (while_ended (dup_step csize directory name) (fun s => exists m, 0 <= m /\ fst s = 32 * m)) as ([j n'] & (m & Hm & E) & S);
    [| |exact W|].
  - exists 0. cbn. lia.
  - intros [j n1] [j' n1'] (m & Hm & E) S. cbn [fst] in *. unfold dup_step in S. exists (m + 1).
    destruct (csize <=? j); [discriminate|]. destruct (byte_at directory j =? 0); [discriminate|].
    destruct (byte_at directory j =? 229); [injection S as <- <-; lia|].
    destruct (byte_at directory (j + 11) =? 15); apply bind_Ret_inv in S as (x & _ & S); [injection S as <- <-; lia|].
    destruct (equal_nocase x name); [discriminate|injection S as <- <-; lia].
  - cbn [fst] in E. unfold dup_step in S. destruct (Z.leb_spec csize j); [discriminate|].
    destruct (byte_at directory j =? 0); [injection S as <-; eauto|].
    destruct (byte_at directory j =? 229); [discriminate|].
    destruct (byte_at directory (j + 11) =? 15); apply bind_Ret_inv in S as (x & _ & S); [discriminate|].
    destruct (equal_nocase x name); discriminate.
Qed.

Lemma dir_entry_ok old shortname attr sc size ms c a m : 0 <= c < 2 ^ 47 -> 0 <= a < 2 ^ 47 -> 0 <= m < 2 ^ 47 ->
  exists c' a' m', dir_entry old shortname attr sc size ms c a m = Ret (entry_bytes old shortname attr sc size ms c' a' m').
Proof.
  intros Hc Ha Hm. destruct (gmtime_spec c Hc) as (c' & Ec & _), (gmtime_spec a Ha) as (a' & Ea & _), (gmtime_spec m Hm) as (m' & Em & _).
  exists c', a', m'. unfold dir_entry. now rewrite Ec, bind_ret, Ea, bind_ret, Em, bind_ret.
Qed.

Lemma le16_bytes x : bytes_list (le16 x).
Proof. repeat constructor; apply u8_range. Qed.

Lemma bytes_concat es : Forall bytes_list es -> bytes_list (concat es).
Proof. induction 1; cbn [concat]; [constructor|now apply Forall_app_2]. Qed.

Lemma entry_bytes_bytes old shortname attr sc size ms c a m : bytes_list old -> bytes_list shortname ->
  bytes_list (entry_bytes old shortname attr sc size ms c a m).
Proof.
  intros O S. unfold entry_bytes. destruct (parse_timestamp c), (parse_timestamp a), (parse_timestamp m).
  assert (B : 0 <= byte_at old 12 < 256).
  { unfold byte_at. destruct (old !! _) as [x|] eqn:E; cbn; [exact (Forall_lookup_1 _ _ _ _ O E)|lia]. }
  repeat (apply Forall_app_2; [|]); auto.
  all: repeat constructor; try apply u8_range; apply B.
Qed.

Lemma gen_checksum_byte shortname : 0 <= gen_checksum shortname < 256.
Proof.
  unfold gen_checksum. assert (K : forall l s, 0 <= s < 256 -> 0 <= fold_left (fun sum c => u8 ((if Z.land sum 1 =? 0 then 0 else 128) + Z.shiftr sum 1 + s8 c)) l s < 256).
  { induction l as [|c l IH]; intros s Hs; cbn [fold_left]; [exact Hs|]. apply IH, u8_range. }
  apply K. lia.
Qed.

Lemma lfn_entry_bytes name count checksum i : 0 <= checksum < 256 -> bytes_list (lfn_entry name count checksum i).
Proof.
  intros Hc. assert (W : bytes_list (concat (map le16 (lfn_words name i)))) by (apply bytes_concat, Forall_map, Forall_forall; intros; apply le16_bytes).
  unfold lfn_entry. set (w := concat _) in *. clearbody w.
  repeat (apply Forall_app_2); auto using Forall_take, Forall_drop; repeat constructor; try apply u8_range; lia.
Qed.

Lemma scan_bytes directory i : bytes_list directory -> bytes_list (entry_at directory i).
Proof. intros. unfold entry_at. now apply Forall_take, Forall_drop. Qed.

(** ** Adding and listing *)

(** An entry for [name] fits in the first cluster of the directory [p], at [i], where
    the directory ends; no entry before has the name.  With larger clusters the
    code's estimate of the clusters it needs can wrap around. *)
Record can_add (st : fat_state) (v : volume) (p : fs_node) (name : list Z) (start_cluster attr size i : Z) : Prop := {
  add_good : good v;
  add_cluster_size : cluster_size (bootrec v) = 512;
  add_parent : 2 <= node_addr p < entries v;
  add_ascii : ascii name;
  add_length : 0 < Z.of_nat (length name) < FILENAME_LIMIT;
  add_name : is_dotdot name = false;
  add_buffer : Z.of_nat (length (name_buffer st)) = FILENAME_LIMIT;
  add_time : 0 <= fnow st < 2 ^ 47;
  add_attr : 0 <= attr < 256 /\ attr <> 15;
  add_start : 0 <= start_cluster < 2 ^ 32;
  add_size : 0 <= size < 2 ^ 32;
  add_place : while (dup_step 512 (read_cluster v (node_addr p)) name) (0, fresh_naming (name_buffer st)) = Ret (Some (EndOfDirectory i));
  add_room : i + 32 * (lfn_entry_count name + 1) < 512;
}.

(** What is in the cluster then: the entries of the name from [i] on. *)
Record added (name : list Z) (start_cluster attr size i : Z) (d e : list Z) : Prop := {
  added_length : Z.of_nat (length d) = 512;
  added_bytes : bytes_list d;
  added_holds : holds d i (name_entries name e (gen_checksum (short_name name attr)));
  added_short : take 11 e = short_name name attr /\ length e = 32%nat;
  added_fields : entry_attr e = attr /\ entry_cluster e = start_cluster /\ word32 e 28 = size;
}.

Lemma lfn_count_range name : 0 < Z.of_nat (length name) < FILENAME_LIMIT -> 0 <= lfn_entry_count name <= 20.
Proof. intros L. destruct (lfn_count_bounds name L) as [B _]. unfold lfn_entry_count. fold (lfn_count name). case_test; lia. Qed.

Lemma name_entries_eq name e checksum :
  map (lfn_entry name (lfn_entry_count name) checksum) (rev (seqZ 1 (lfn_entry_count name))) ++ [e] = name_entries name e checksum.
Proof. unfold name_entries, lfn_entry_count. destruct (is_valid_sfn name); reflexivity. Qed.

Lemma length_name_entries name e checksum : 0 < Z.of_nat (length name) < FILENAME_LIMIT ->
  Z.of_nat (length (name_entries name e checksum)) = lfn_entry_count name + 1.
Proof.
  intros L. pose proof (lfn_count_range name L). rewrite <- name_entries_eq, length_app, length_map, length_rev, length_seqZ. cbn [length]. lia.
Qed.

Lemma name_entries_wf name e checksum : 0 < Z.of_nat (length name) < FILENAME_LIMIT -> 0 <= checksum < 256 -> length e = 32%nat -> bytes_list e ->
  Forall (fun e => length e = 32%nat) (name_entries name e checksum) /\ bytes_list (concat (name_entries name e checksum)).
Proof.
  intros L Hc Le Be. destruct (lfn_entries_bytes name checksum L) as [_ F]. unfold name_entries. split.
  - apply Forall_app_2; [case_test; [constructor|exact F]|now constructor].
  - apply bytes_concat, Forall_app_2; [|now constructor]. case_test; [constructor|]. unfold lfn_entries.
    apply Forall_map, Forall_forall. intros. now apply lfn_entry_bytes.
Qed.

Lemma length_concat_entries es : Forall (fun e : list Z => length e = 32%nat) es -> Z.of_nat (length (concat es)) = 32 * Z.of_nat (length es).
Proof. induction 1 as [|e es He F IH]; cbn [concat length]; [reflexivity|]. rewrite length_app, He. lia. Qed.

(** The entries of a name, put into the cluster, with the end of the directory behind. *)
Lemma added_cluster name sc attr size i d e n : 0 <= i -> Z.of_nat (length d) = 512 -> bytes_list d -> 0 < Z.of_nat (length name) < FILENAME_LIMIT ->
  i + 32 * (lfn_entry_count name + 1) < 512 -> length e = 32%nat -> bytes_list e -> take 11 e = short_name name attr ->
  entry_attr e = attr /\ entry_cluster e = sc /\ word32 e 28 = size ->
  added name sc attr size i (end_entries n (splice d i (concat (name_entries name e (gen_checksum (short_name name attr)))))
    (i + 32 * (lfn_entry_count name + 1))) e.
Proof.
  intros Hi Ld Bd L Room Le Be Te Fe. set (cs := gen_checksum _). pose proof (lfn_count_range name L).
  destruct (name_entries_wf name e cs L (gen_checksum_byte _) Le Be) as [F B]. pose proof (length_name_entries name e cs L) as Ln.
  pose proof (length_concat_entries _ F) as Lc. set (w := splice d i _).
  assert (Lw : length w = length d) by (apply length_splice; lia).
  destruct (end_entries_spec n w (i + 32 * (lfn_entry_count name + 1)) ltac:(lia) (bytes_list_splice _ _ _ Bd B)) as (L1 & B1 & E1).
  split; auto; [lia|]. fold cs. apply (holds_prefix w); [exact Hi| |apply holds_splice; [exact Hi|exact F|rewrite Ln; lia]]. intros j Hj. apply E1. lia.
Qed.

Section add.
Context (st : fat_state) (v : volume) (parent : Z) (p : fs_node) (name : list Z) (sc attr size i : Z) (C : can_add st v p name sc attr size i).

Lemma place_found : while (place_step name) (v, node_addr p, false, fresh_naming (name_buffer st)) =
  Ret (ERR_FS_SUCCESS, v, node_addr p, read_cluster v (node_addr p), i).
Proof using C.
  eapply (while_loop _ 1); [|congruence|lia]. rewrite loop_S. cbv beta iota zeta delta [place_step]. rewrite (add_cluster_size _ _ _ _ _ _ _ _ C).
  rewrite (add_place _ _ _ _ _ _ _ _ C), bind_ret. reflexivity.
Qed.

Lemma add_entry_writes n : exists d e node, added name sc attr size i d e /\
  add_entry st v parent p name sc attr size n = Ret (ERR_FS_SUCCESS, node, write_cluster v (node_addr p) d).
Proof using C.
  pose proof (add_cluster_size _ _ _ _ _ _ _ _ C) as Cs. pose proof (add_length _ _ _ _ _ _ _ _ C) as L.
  pose proof (lfn_count_range name L) as Lc. destruct (place_index _ _ _ _ _ (add_place _ _ _ _ _ _ _ _ C)) as (Hi & q & Hq & Eq).
  pose proof (add_room _ _ _ _ _ _ _ _ C) as Room. set (count := lfn_entry_count name) in *. set (sh := short_name name attr).
  pose proof (length_short_name name attr) as Ls. fold sh in Ls. pose proof (short_name_ascii name attr (add_ascii _ _ _ _ _ _ _ _ C)) as As. fold sh in As.
  set (d0 := read_cluster v (node_addr p)). assert (L0 : Z.of_nat (length d0) = 512) by (subst d0; rewrite <- Cs; apply length_read_cluster, C).
  set (old := entry_at d0 (i + 32 * count)).
  destruct (dir_entry_ok old sh attr sc size (u16 (fticks st * 1000 / TIMER_FREQUENCY)) (fnow st) 0 0 (add_time _ _ _ _ _ _ _ _ C) ltac:(lia) ltac:(lia)) as (tc & ta & tm & E).
  set (e := entry_bytes old sh attr sc size _ tc ta tm) in E.
  pose proof (length_entry_bytes old sh attr sc size (u16 (fticks st * 1000 / TIMER_FREQUENCY)) tc ta tm Ls) as Le. fold e in Le.
  set (node := FsNode name (fs p) parent 0 0 (to_fs_node_flags attr) (mount_target (set_flags 0 n))
        (u16 (fticks st * 1000 / TIMER_FREQUENCY)) (fnow st) 0 0 size 0 1 sc (node_sem (set_flags 0 n)) (space_available (set_flags 0 n))).
  destruct (write_entries_spec name sh count attr sc size v (node_addr p) node old e Le (Z.to_nat count) d0 i) as (node' & W & _);
    [lia|rewrite Z2Nat.id; lia|lia|rewrite Z2Nat.id by lia; reflexivity|exact E|].
  rewrite Z2Nat.id in W by lia. unfold count in W at 3. fold count in W.
  set (w := splice d0 i _) in W.
  set (n32 := Z.to_nat ((512 - (i + 32 * (count + 1))) / 32)).
  exists (end_entries n32 w (i + 32 * (count + 1))), e, node'. split; cycle 1.
  - unfold add_entry. rewrite place_found, bind_ret. cbv beta iota. change (failed ERR_FS_SUCCESS) with false. cbv iota. rewrite Cs.
    change (512 <? 32) with false. cbv iota. rewrite (add_name _ _ _ _ _ _ _ _ C). cbv iota. fold count.
    unfold estimated_clusters. replace (s32 (u32 (count - (512 - i) / 32 + 17) / (512 / 32))) with 0; cycle 1.
    { replace (512 - i) with ((16 - q) * 32) by lia. rewrite Z.div_mul by lia. change (512 / 32) with 16. rewrite u32_small by lia.
      rewrite Z.div_small by lia. reflexivity. }
    change (0 <? 0) with false. cbv iota. rewrite bind_ret. cbn [negb]. fold sh. fold node. fold d0. rewrite W, bind_ret. cbv beta iota.
    replace (i + 32 * (count + 1) =? 0) with false by lia. reflexivity.
  - subst w. rewrite name_entries_eq. apply added_cluster; auto; try lia.
    + apply disk_read_bytes.
    + apply entry_bytes_bytes; [apply scan_bytes, disk_read_bytes|]. eapply Forall_impl; [exact As|]. cbn. lia.
    + now apply entry_bytes_name.
    + destruct C. now apply entry_bytes_fields.
Qed.
End add.

(** The entries of a name, listed from the one before them. *)
Lemma iterate_added st v dir p name sc attr size i d e (old : fs_node) : get_fnode st dir = Ret p -> volume_at st (fs p) = Ret v ->
  cluster_size (bootrec v) = 512 -> read_cluster v (node_addr p) = d -> added name sc attr size i d e -> 0 <= i ->
  i + 32 * (lfn_entry_count name + 1) < 512 -> ascii name -> 0 < Z.of_nat (length name) < FILENAME_LIMIT -> attr <> 15 ->
  Z.of_nat (length (name_buffer st)) = FILENAME_LIMIT ->
  exists iter node, fat32_iterate_directory st (DirectoryIterator dir (i - 32) (node_addr p)) old = Ret (ERR_FS_SUCCESS, iter, node) /\
    Fs.name node = listed_name name (short_name name attr) /\ flags node = to_fs_node_flags attr /\ Fs.size node = size /\
    parent_cluster_index node = i + 32 * lfn_entry_count name /\
    start_cluster node = (if (sc =? 0) && bool_decide (Fs.name node = [46; 46]) then rootdir_cluster (bootrec v) else sc).
Proof.
  intros Ep Ev Cs Rd [Ld Bd H [Te Le] (Fa & Fc & Fz)] Hi Room A L Na Lb. set (cs := gen_checksum _) in H.
  pose proof (length_name_entries name e cs L) as Ln. pose proof (lfn_count_range name L). pose proof (short_name_ascii name attr A) as As.
  pose proof (length_short_name name attr) as Lsh.
  assert (B0 : 0 < byte_at e 0 < 128).
  { rewrite <- Te in As, Lsh. unfold byte_at. rewrite <- (lookup_take_lt e 11) by lia. destruct (lookup_lt_is_Some_2 (take 11 e) 0 ltac:(lia)) as [x Ex].
    change (Z.to_nat 0) with O. rewrite Ex. exact (Forall_lookup_1 _ _ _ _ As Ex). }
  pose proof (sfn_chars_name e _ Te ltac:(lia)) as Se. destruct (sfn_chars_text _ As) as [Ts Ll]. rewrite <- Se in Ts, Ll.
  destruct (scan_name d 512 i name e cs (name_buffer st) (ascii_text _ A) L Lb Hi ltac:(lia) H ltac:(lia) ltac:(lia)) as (n & W & N);
    [unfold entry_attr in Fa; lia|exact Ts|exact Ll|]. rewrite Ln in W.
  assert (He : entry_at d (i + 32 * lfn_entry_count name) = e).
  { replace (lfn_entry_count name) with (Z.of_nat (length (name_entries name e cs) - 1)) by lia. apply H.
    unfold name_entries. apply list_lookup_middle. rewrite length_app. cbn [length]. lia. }
  replace (i + 32 * (lfn_entry_count name + 1 - 1)) with (i + 32 * lfn_entry_count name) in W by lia.
  assert (S : exists node, iterate_step v (fs p) dir old (node_addr p, i, fresh_naming (name_buffer st)) =
      Ret (inr (ERR_FS_SUCCESS, Some (node_addr p, i + 32 * lfn_entry_count name, node))) /\
    Fs.name node = listed_name name (short_name name attr) /\ flags node = to_fs_node_flags attr /\ Fs.size node = size /\
    parent_cluster_index node = i + 32 * lfn_entry_count name /\
    start_cluster node = (if (sc =? 0) && bool_decide (Fs.name node = [46; 46]) then rootdir_cluster (bootrec v) else sc)).
  { eexists. split.
    - cbv beta iota zeta delta [iterate_step]. rewrite Cs, Rd, W, bind_ret. cbv beta iota. unfold node_of_entry. rewrite He, N, bind_ret. reflexivity.
    - cbn [Fs.name flags Fs.size parent_cluster_index space_available start_cluster node_addr]. unfold listed_name. rewrite <- Se, Fa, Fc, Fz. auto. }
  destruct S as (node & S & F). exists (DirectoryIterator dir (i + 32 * lfn_entry_count name) (node_addr p)), node. split; [|exact F].
  unfold fat32_iterate_directory. cbn [di_node current_index di_current]. rewrite Ep, bind_ret, Ev, bind_ret, Cs.
  replace (i - 32 + 32) with i by lia. rewrite u32_small by lia. replace (512 <=? i) with false by lia. rewrite bind_ret. cbv beta iota.
  change (failed ERR_FS_SUCCESS) with false. cbv iota.
  rewrite (while_loop _ 1 _ (Ret (ERR_FS_SUCCESS, Some (node_addr p, i + 32 * lfn_entry_count name, node))));
    [rewrite bind_ret; reflexivity| |discriminate|lia]. rewrite loop_S, S, bind_ret. reflexivity.
Qed.

(** C10: a new entry in a directory with room in its first cluster.  On a volume with
    clusters of 512 bytes, for a name of ASCII characters other than . and .., of at most 255
    of them, that the directory does not have yet, and when the name's entries and the end
    mark behind them fit in the directory's first cluster where the directory ends
    ([can_add]), fat32_add_entry succeeds, and fat32_iterate_directory lists the entry at the
    place it was given: with the same first cluster, size and flags, and with the name it was
    added under, provided the name needs long entries or fits a short one as it is
    ([fits_sfn]: it has no dot, or is a file's with an extension).  A directory's name that
    has a dot and is a valid short name is listed without the dot
    ([Runs.directory_loses_dot]); with larger clusters the estimate of the clusters needed
    can wrap around ([Runs.estimate_wraps]). *)
Theorem fat32_add_entry_listed (st : fat_state) (v : volume) (parent new_node : Z) (p n : fs_node) (name : list Z) (sc attr size i : Z) :
  get_fnode st parent = Ret p -> get_fnode st new_node = Ret n -> new_node <> parent -> volume_at st (fs p) = Ret v ->
  can_add st v p name sc attr size i -> is_valid_sfn name = false \/ fits_sfn name attr ->
  exists st', fat32_add_entry st parent name sc attr size new_node = Ret (ERR_FS_SUCCESS, st') /\
    forall old, exists iter node,
      fat32_iterate_directory st' (DirectoryIterator parent (i - 32) (node_addr p)) old = Ret (ERR_FS_SUCCESS, iter, node) /\
      Fs.name node = name /\ flags node = to_fs_node_flags attr /\ Fs.size node = size /\ start_cluster node = sc /\
      parent_cluster_index node = i + 32 * lfn_entry_count name.
Proof.
  intros Ep En Hne Ev C K. destruct (add_entry_writes st v parent p name sc attr size i C n) as (d & e & node & Ad & E).
  unfold fat32_add_entry. rewrite Ep, bind_ret, En, bind_ret, Ev, bind_ret, E, bind_ret. cbv beta iota. eexists. split; [reflexivity|]. intros old.
  destruct (place_index _ _ _ _ _ (add_place _ _ _ _ _ _ _ _ C)) as (Hi & q & Hq & Eq). pose proof (added_length _ _ _ _ _ _ _ Ad) as Ld.
  pose proof (added_bytes _ _ _ _ _ _ _ Ad) as Bd. destruct C as [G Cs Hp A L D B _ [_ Na] _ _ _ Room].
  set (v' := write_cluster v (node_addr p) d). set (st' := put_fnode new_node node (put_volume (fs p) v' st)).
  assert (Ev' : volume_at st' (fs p) = Ret v') by (unfold volume_at, st', put_fnode, put_volume; cbn; rewrite lookup_insert_eq; reflexivity).
  assert (Ep' : get_fnode st' parent = Ret p) by (unfold get_fnode, st' in *; cbn; rewrite lookup_insert_ne by exact Hne; exact Ep).
  assert (Rd : read_cluster v' (node_addr p) = d).
  { unfold v'. rewrite (read_write_cluster v G) by (try assumption; lia). now rewrite Z.eqb_refl. }
  destruct (iterate_added st' v' parent p name sc attr size i d e old Ep' Ev' Cs Rd Ad ltac:(lia) Room A L Na B)
    as (iter & node' & I & F1 & F2 & F3 & F4 & F5). exists iter, node'.
  assert (Nn : Fs.name node' = name).
  { rewrite F1. unfold listed_name. destruct K as [K|K]; [now rewrite K|]. rewrite (proj1 K). now apply sfn_chars_fits. }
  split_and!; auto. rewrite F5, Nn, bool_decide_eq_false_2; [now rewrite andb_false_r|]. intros ->. discriminate D.
Qed.

Module Runs.
(** An empty root directory; the name notes.txt needs a long entry. *)
Definition node (cluster : Z) : fs_node := FsNode [] 1 0 0 0 FS_NODE_TYPE_DIRECTORY 0 0 0 0 0 0 1 1 cluster 0 0.
Definition state : fat_state :=
  FatState {[1 := (10, FatChain.Runs.boot, FatChain.Runs.info)]} (disk FatChain.Runs.vol) {[21 := node 2; 500 := stack_node]} (replicate 256 170) 0 1709210096.
Definition notes : list Z := [110; 111; 116; 101; 115; 46; 116; 120; 116].

Lemma can_add_notes : can_add state FatChain.Runs.vol (node 2) notes 4 32 1234 0.
Proof. split; try exact FatChain.Runs.vol_good; try (vm_compute; intuition congruence). repeat constructor; lia. Qed.

Lemma fat32_add_entry_listed_witness : exists st', fat32_add_entry state 21 notes 4 32 1234 500 = Ret (ERR_FS_SUCCESS, st') /\
  forall old, exists iter n,
    fat32_iterate_directory st' (DirectoryIterator 21 (0 - 32) (node_addr (node 2))) old = Ret (ERR_FS_SUCCESS, iter, n) /\
    Fs.name n = notes /\ flags n = to_fs_node_flags 32 /\ Fs.size n = 1234 /\ start_cluster n = 4 /\
    parent_cluster_index n = 0 + 32 * lfn_entry_count notes.
Proof.
  apply (fat32_add_entry_listed state FatChain.Runs.vol 21 500 (node 2) stack_node notes 4 32 1234 0);
    [reflexivity|reflexivity|lia|reflexivity|exact can_add_notes|left; reflexivity].
Defined.

(** At the beginning of an empty directory with clusters of 1 KiB, an entry that needs no
    long ones asks for 2^27 - 1 clusters. *)
Example estimate_wraps : estimated_clusters 1024 0 0 = 2 ^ 27 - 1 /\ estimated_clusters 512 0 0 = 0.
Proof. split; reflexivity. Qed.

(** A directory FOO.BAR has a valid short name, gets no long entry, and is listed as
    FOOBAR. *)
Example directory_loses_dot :
  is_valid_sfn [70; 79; 79; 46; 66; 65; 82] = true /\
  sfn_chars (short_name [70; 79; 79; 46; 66; 65; 82] FAT_ATTR_DIRECTORY) = [70; 79; 79; 66; 65; 82].
Proof. split; reflexivity. Qed.
End Runs.
