(* ===== verification/Locale.v ===== *)
(** * Keyboard layouts (kernel/src/locale.c)

    The two tables from key codes to characters and the layout that fills them.
    A key code is a row and a column of the keyboard, row * 16 + column. *)
From S2P Require Import Prelude.

Definition KBD_LAYOUT_US : Z := 0.
Definition TIMEZONE_NONE : Z := 0.

Record locale := Locale { kbd_layout : Z; timezone : Z; keymap : list Z; keymap_shift : list Z }.

(** The static variables at start-up. *)
Definition locale_boot : locale := Locale (-1) TIMEZONE_NONE (replicate 175 0) (replicate 175 0).

Definition assign (table : list Z) (keys : list (Z * Z)) : list Z :=
  fold_left (fun t '(k, c) => <[Z.to_nat k := c]> t) keys table.

Definition US_keys : list (Z * Z) := [
    (16, 96); (17, 49); (18, 50); (19, 51); (20, 52); (21, 53); (22, 54); (23, 55); (24, 56);
    (25, 57); (26, 48); (27, 45); (28, 61); (29, 8); (32, 9); (33, 113); (34, 119); (35, 101);
    (36, 114); (37, 116); (38, 121); (39, 117); (40, 105); (41, 111); (42, 112); (43, 91);
    (44, 93); (45, 92); (49, 97); (50, 115); (51, 100); (52, 102); (53, 103); (54, 104); (55, 106);
    (56, 107); (57, 108); (58, 59); (59, 39); (60, 10); (65, 122); (66, 120); (67, 99); (68, 118);
    (69, 98); (70, 110); (71, 109); (72, 44); (73, 46); (74, 47); (83, 32)].
Definition US_shift_keys : list (Z * Z) := [
    (16, 126); (17, 33); (18, 64); (19, 35); (20, 36); (21, 37); (22, 94); (23, 38); (24, 42);
    (25, 40); (26, 41); (27, 95); (28, 43); (33, 81); (34, 87); (35, 69); (36, 82); (37, 84);
    (38, 89); (39, 85); (40, 73); (41, 79); (42, 80); (43, 123); (44, 125); (45, 124); (49, 65);
    (50, 83); (51, 68); (52, 70); (53, 71); (54, 72); (55, 74); (56, 75); (57, 76); (58, 58);
    (59, 34); (65, 90); (66, 88); (67, 67); (68, 86); (69, 66); (70, 78); (71, 77); (72, 60);
    (73, 62); (74, 63)].

Definition set_keyboard_layout_US (lo : locale) : locale :=
  Locale (kbd_layout lo) (timezone lo) (assign (keymap lo) US_keys) (assign (keymap_shift lo) US_shift_keys).

(** Every layout is the US layout. *)
Definition locale_set_keyboard_layout (layout : Z) (lo : locale) : locale :=
  let lo := Locale layout (timezone lo) (keymap lo) (keymap_shift lo) in
  if layout =? KBD_LAYOUT_US then set_keyboard_layout_US lo else set_keyboard_layout_US lo.

Definition locale_set_timezone (zone : Z) (lo : locale) : locale := Locale (kbd_layout lo) zone (keymap lo) (keymap_shift lo).

Definition locale_map_key (lo : locale) (keycode : Z) (shift : bool) : outcome Z :=
  of_option ((if shift then keymap_shift lo else keymap lo) !! Z.to_nat keycode).

Definition US : locale := locale_set_keyboard_layout KBD_LAYOUT_US locale_boot.
