(* ===== verification/Kbd.v ===== *)
(** * The keyboard (kernel/src/driver/kbd.c, ps2.c)

    The state machine from the bytes of scancode set 1 to key events, one interrupt
    for each byte.  Keys of the upper rows send a byte, the others a prefix and a
    byte, Pause and Print Screen longer sequences, whose rest a second handler
    discards.  The keyboard behind the controller's ports is the interface
    [Ps2Keyboard]: a queue of the bytes it has for the driver, to which it adds an
    acknowledgement for each byte it is sent. *)
From stdpp Require Import strings.
From Stdlib Require Import Ascii.
From S2P Require Import Prelude Ports Locale.

(** ** The controller *)

Definition PORT_PS2_DATA : Z := 96.
Definition PORT_PS2_STAT : Z := 100.
Definition PORT_PS2_COMM : Z := 100.

Definition KBD_LED : Z := 237.
Definition KBD_SCANCODE_SET : Z := 240.
Definition KBD_ACK : Z := 250.
Definition KBD_RESEND : Z := 254.
Definition KBD_EXTENDED_BYTE : Z := 224.
Definition KBD_PRINTSCREEN_PRESSED_SCANCODE_2ND : Z := 42.
Definition KBD_PRINTSCREEN_RELEASED_SCANCODE_2ND : Z := 183.
Definition KBD_PAUSE_SCANCODE_1ST : Z := 225.

Definition KBD_KEYCODE_CAPSLOCK : Z := 48.
Definition KBD_KEYCODE_LSHIFT : Z := 64.
Definition KBD_KEYCODE_RSHIFT : Z := 75.
Definition KBD_KEYCODE_SCROLLLOCK : Z := 97.
Definition KBD_KEYCODE_PAUSE : Z := 98.

(** From scancodes to key codes, without and with the prefix. *)
Definition keycode : list Z := [
    0; 0; 17; 18; 19; 20; 21; 22; 23; 24; 25; 26; 27; 28; 29; 32; 33; 34; 35; 36; 37; 38; 39; 40;
    41; 42; 43; 44; 60; 80; 49; 50; 51; 52; 53; 54; 55; 56; 57; 58; 59; 16; 64; 45; 65; 66; 67; 68;
    69; 70; 71; 72; 73; 74; 75; 0; 82; 83; 48; 1; 2; 3; 4; 5; 6; 7; 8; 9; 10; 0; 97; 0; 0; 0; 0; 0;
    0; 0; 0; 0; 0; 0; 0; 0; 0; 0; 0; 11; 12].
Definition keycode_extended_byte : list Z := [
    0; 0; 0; 0; 0; 0; 0; 0; 0; 0; 0; 0; 0; 0; 0; 0; 0; 0; 0; 0; 0; 0; 0; 0; 0; 0; 0; 0; 0; 87; 0;
    0; 0; 0; 0; 0; 0; 0; 0; 0; 0; 0; 0; 0; 0; 0; 0; 0; 0; 0; 0; 0; 0; 0; 0; 0; 84; 0; 0; 0; 0; 0;
    0; 0; 0; 0; 0; 0; 0; 0; 0; 100; 112; 101; 0; 113; 0; 115; 0; 103; 114; 104; 99; 102; 0; 0; 0;
    0; 0; 0; 0; 81; 85; 86; 0; 0; 0; 0; 0; 0; 0; 0; 0; 0; 0; 0; 0; 0; 0; 0; 96; 98].

Record key := Key { keycode_of : Z; mapped : Z; released : bool }.
#[export] Instance key_eq_dec : EqDecision key.
Proof. solve_decision. Defined.

Section kbd.
Context {D : Type} `{Ports D}.

Definition ps2_read_data (d : D) : Z * D := port_inb d PORT_PS2_DATA.
Definition ps2_write_data (dat : Z) (d : D) : D := port_outb d PORT_PS2_DATA dat.
Definition ps2_read_stat (d : D) : Z * D := port_inb d PORT_PS2_STAT.
Definition ps2_read_from_2nd_port (d : D) : D := port_outb d PORT_PS2_COMM 212.

Definition reading_step (d : D) : outcome (D + D) :=
  let '(stat, d) := port_inb d PORT_PS2_STAT in Ret (if Z.land stat 1 =? 0 then inl d else inr d).
Definition ps2_wait_for_reading_data (d : D) : outcome D := while reading_step d.
Definition writing_step (d : D) : outcome (D + D) :=
  let '(stat, d) := port_inb d PORT_PS2_STAT in Ret (if Z.land stat 2 =? 0 then inr d else inl d).
Definition ps2_wait_for_writing_data (d : D) : outcome D := while writing_step d.

(** ** Commands

    set_scancode_set and kbd_set_led are the same loop: a command and its argument,
    again when the keyboard asks for them again, three times at most. *)
Definition respond_step (d : D) : outcome (D + Z * D) :=
  d ← ps2_wait_for_reading_data d;
  let '(respond, d) := ps2_read_data d in
  Ret (if (respond =? KBD_ACK) || (respond =? KBD_RESEND) then inr (respond, d) else inl d).

Definition command_step (command dat : Z) '((tries, d) : Z * D) : outcome ((Z * D) + D) :=
  if tries <? 3 then
    d ← ps2_wait_for_writing_data d;
    d ← ps2_wait_for_writing_data (ps2_write_data command d);
    '(respond, d) ← while respond_step (ps2_write_data dat d);
    Ret (if respond =? KBD_RESEND then inl (tries + 1, d) else inr d)
  else Ret (inr d).

Definition set_scancode_set (d : D) : outcome D := while (command_step KBD_SCANCODE_SET 2) (0, d).

Definition led_bits (scroll num caps : bool) : Z :=
  Z.lor (Z.lor (Z.b2z scroll) (Z.shiftl (Z.b2z num) 1)) (Z.shiftl (Z.b2z caps) 2).
Definition kbd_set_led (scroll num caps : bool) (d : D) : outcome D :=
  while (command_step KBD_LED (led_bits scroll num caps)) (0, d).

(** ** The state

    [discarding] says which of the two handlers is installed. *)
Record kbd := Kbd {
  key_pressed : list bool;
  capslock_on : bool;
  scrolllock_on : bool;
  numlock_on : bool;
  current_key : key;
  discarding : bool;
  interrupt_progress_cnt : Z;
  interrupt_loop_cnt : Z;
  latest_key_handled : bool;
  extended_byte : bool;
  kdev : D;
}.


(** kbd_trash_int_handler *)
Definition kbd_trash_int_handler (st : kbd) : outcome kbd :=
  let '(_, d) := ps2_read_data (kdev st) in
  let cnt := u8 (interrupt_progress_cnt st + 1) in
  let over := cnt =? interrupt_loop_cnt st in
  Ret (Kbd (key_pressed st) (capslock_on st) (scrolllock_on st) (numlock_on st) (current_key st) (negb over)
    (if over then 0 else cnt) (interrupt_loop_cnt st) (latest_key_handled st) (extended_byte st) d).

(** The character of a key, with the shift keys as they are. *)
Definition map_shifted (lo : locale) (lshift rshift caps : bool) (kcode : Z) : outcome Z :=
  mapped ← locale_map_key lo kcode false;
  mapped ← (if lshift || rshift then
              if (mapped <? 97) || (122 <? mapped) then locale_map_key lo kcode true
              else if negb caps then locale_map_key lo kcode true
              else Ret mapped
            else Ret mapped);
  Ret (if caps && (97 <=? mapped) && (mapped <=? 122) && negb lshift && negb rshift then mapped - 32 else mapped).
Definition map_key (lo : locale) (pressed : list bool) (caps : bool) (kcode : Z) : outcome Z :=
  lshift ← of_option (pressed !! Z.to_nat KBD_KEYCODE_LSHIFT);
  rshift ← of_option (pressed !! Z.to_nat KBD_KEYCODE_RSHIFT);
  map_shifted lo lshift rshift caps kcode.

(** The rest of the sequence, [n] bytes, is for the other handler. *)
Definition discard (n : Z) (pressed : list bool) (k : key) (st : kbd) (d : D) : kbd :=
  Kbd pressed (capslock_on st) (scrolllock_on st) (numlock_on st) k true (interrupt_progress_cnt st) n (latest_key_handled st) false d.

Definition kbd_handler (lo : locale) (st : kbd) : outcome kbd :=
  let '(scancode, d) := ps2_read_data (kdev st) in
  if scancode =? KBD_EXTENDED_BYTE then
    Ret (Kbd (key_pressed st) (capslock_on st) (scrolllock_on st) (numlock_on st) (current_key st) (discarding st)
      (interrupt_progress_cnt st) (interrupt_loop_cnt st) (latest_key_handled st) true d)
  else if scancode =? KBD_PAUSE_SCANCODE_1ST then
    kcode ← of_option (keycode_extended_byte !! 111%nat);
    Ret (discard 5 (key_pressed st) (Key kcode 0 false) st d)
  else if extended_byte st && ((scancode =? KBD_PRINTSCREEN_PRESSED_SCANCODE_2ND) || (scancode =? KBD_PRINTSCREEN_RELEASED_SCANCODE_2ND)) then
    kcode ← of_option (keycode_extended_byte !! 110%nat);
    let pressed := <[110%nat := scancode =? KBD_PRINTSCREEN_PRESSED_SCANCODE_2ND]> (key_pressed st) in
    Ret (discard 2 pressed (Key kcode 0 (scancode =? KBD_PRINTSCREEN_RELEASED_SCANCODE_2ND)) st d)
  else
    let released := Z.land scancode 128 =? 128 in
    let scancode := scancode - 128 * Z.b2z released in
    kcode ← of_option ((if extended_byte st then keycode_extended_byte else keycode) !! Z.to_nat scancode);
    let pressed := if kcode =? KBD_KEYCODE_PAUSE then key_pressed st else <[Z.to_nat kcode := negb released]> (key_pressed st) in
    let caps_changed := (kcode =? KBD_KEYCODE_CAPSLOCK) && negb released in
    let scroll_changed := (kcode =? KBD_KEYCODE_SCROLLLOCK) && negb released in
    let caps := if caps_changed then negb (capslock_on st) else capslock_on st in
    let scroll := if scroll_changed then negb (scrolllock_on st) else scrolllock_on st in
    d ← (if caps_changed || scroll_changed then kbd_set_led scroll (numlock_on st) caps d else Ret d);
    mapped ← map_key lo pressed caps kcode;
    Ret (Kbd pressed caps scroll (numlock_on st) (Key kcode mapped released) (discarding st)
      (interrupt_progress_cnt st) (interrupt_loop_cnt st) false false d).

(** Interrupt 1, in the hands of the handler installed. *)
Definition kbd_irq (lo : locale) (st : kbd) : outcome kbd :=
  if discarding st then kbd_trash_int_handler st else kbd_handler lo st.


Definition kbd_init (d : D) : outcome kbd :=
  let '(_, d) := ps2_read_data d in
  d ← set_scancode_set d;
  d ← kbd_set_led false false false d;
  Ret (Kbd (replicate 175 false) false false false (Key 0 0 false) false 0 0 true false d).

End kbd.
Arguments kbd D : clear implicits.

(** ** A keyboard behind the ports *)

Class Ps2Keyboard (D : Type) `{Ports D} := {
  queue : D -> list Z;
  read_data d b q : queue d = b :: q -> (port_inb d PORT_PS2_DATA).1 = b /\ queue (port_inb d PORT_PS2_DATA).2 = q;
  read_stat d : queue (port_inb d PORT_PS2_STAT).2 = queue d /\
    Z.land (port_inb d PORT_PS2_STAT).1 1 = (if bool_decide (queue d = []) then 0 else 1) /\
    Z.land (port_inb d PORT_PS2_STAT).1 2 = 0;
  write_data d b : queue (port_outb d PORT_PS2_DATA b) = queue d ++ [KBD_ACK];
}.

(** ** Bytes and tables

    A step between the handlers and the keyboard below: what a sequence of bytes comes to
    in the terms of the driver's own tables.  [down] is its table of pressed keys. *)
Record keyboard := Keyboard { down : list bool; caps : bool; scroll : bool; num : bool }.





(** The character the tables have for a key code. *)
Definition is_letter (c : Z) : bool := (97 <=? c) && (c <=? 122).
Definition table_char (lo : locale) (shift caps : bool) (k : Z) : Z :=
  let c := default 0 (keymap lo !! Z.to_nat k) in
  if is_letter c then if xorb shift caps then c - 32 else c
  else if shift then default 0 (keymap_shift lo !! Z.to_nat k) else c.

Definition is_down (kb : keyboard) (k : Z) : bool := default false (down kb !! Z.to_nat k).



(** ** A US keyboard

    Its ordinary keys as they are made: the scancode of set 1 each sends, with or without
    the prefix 0xe0, its code (kbd.h: row * 16 + column), and the characters on it, plain
    and shifted.  Nothing here is taken from the driver's tables. *)
Record physical_key := PhysicalKey { pk_prefix : bool; pk_scan : Z; pk_code : Z; pk_plain : Z; pk_shifted : Z }.

#[export] Instance physical_key_eq_dec : EqDecision physical_key.
Proof. solve_decision. Defined.




(** A key without a character. *)
Definition mute (prefix : bool) (scan code : Z) : physical_key := PhysicalKey prefix scan code 0 0.


(** What happens on it, and the bytes it sends then. *)
Inductive key_event :=
  | Move (p : physical_key) (rel : bool)
  | PauseTyped
  | PrintScreenMoves (rel : bool).

(** Shift and caps lock cancel each other on letters; caps lock leaves other keys alone. *)
Definition key_char (p : physical_key) (shift caps : bool) : Z :=
  let letter := (97 <=? pk_plain p) && (pk_plain p <=? 122) in
  if (if letter then xorb shift caps else shift) then pk_shifted p else pk_plain p.

(** What a waiting process is told of an event; [held]: the ordinary keys held down. *)
Definition told (e : key_event) '((held, caps) : gset Z * bool) : list key * (gset Z * bool) :=
  match e with
  | Move p rel =>
      let held := if rel then held ∖ {[pk_code p]} else {[pk_code p]} ∪ held in
      let shift := bool_decide (KBD_KEYCODE_LSHIFT ∈ held) || bool_decide (KBD_KEYCODE_RSHIFT ∈ held) in
      ([Key (pk_code p) (key_char p shift caps) rel], (held, caps))
  | _ => ([], (held, caps))
  end.
Fixpoint told_all (es : list key_event) (s : gset Z * bool) : list key * (gset Z * bool) :=
  match es with
  | [] => ([], s)
  | e :: es => let '(ks, s) := told e s in let '(ks', s) := told_all es s in (ks ++ ks', s)
  end.

Section decoding.
Context {D : Type} `{PK : Ps2Keyboard D}.

(** Between two events. *)
Record kbd_rep (st : kbd D) (kb : keyboard) : Prop := {
  rep_down : key_pressed st = down kb;
  rep_length : length (down kb) = 175%nat;
  rep_locks : capslock_on st = caps kb /\ scrolllock_on st = scroll kb /\ numlock_on st = num kb;
  rep_idle : discarding st = false /\ extended_byte st = false /\ interrupt_progress_cnt st = 0;
}.

Lemma read_next (st : kbd D) b q : queue (kdev st) = b :: q -> exists d, ps2_read_data (kdev st) = (b, d) /\ queue d = q.
Proof.
  intros Q. destruct (read_data _ _ _ Q) as [E1 E2]. unfold ps2_read_data. destruct (port_inb (kdev st) PORT_PS2_DATA) as [x d].
  cbn in *. subst. eauto.
Qed.

(** Every key of the US layout stands for the character it is typed for. *)
Lemma map_shifted_US l r caps k : 0 <= k < 175 -> map_shifted US l r caps k = Ret (table_char US (l || r) caps k).
Proof.
  intros Hk. assert (E : (match map_shifted US l r caps k with Ret c => c =? table_char US (l || r) caps k | _ => false end) = true).
  { revert k Hk. apply (forall_below 175 (fun k => (match map_shifted US l r caps k with Ret c => c =? table_char US (l || r) caps k | _ => false end) = true)).
    destruct l, r, caps; by_eval. }
  destruct (map_shifted US l r caps k); [|discriminate E..]. f_equal. lia.
Qed.

Lemma map_key_US kb k : length (down kb) = 175%nat -> 0 <= k < 175 ->
  map_key US (down kb) (caps kb) k = Ret (table_char US (is_down kb KBD_KEYCODE_LSHIFT || is_down kb KBD_KEYCODE_RSHIFT) (caps kb) k).
Proof.
  intros L Hk. destruct (lookup_lt_is_Some_2 (down kb) 64) as [l El]; [lia|]. destruct (lookup_lt_is_Some_2 (down kb) 75) as [r Er]; [lia|].
  unfold map_key, is_down. change (Z.to_nat KBD_KEYCODE_LSHIFT) with 64%nat. change (Z.to_nat KBD_KEYCODE_RSHIFT) with 75%nat.
  rewrite El, Er. now apply map_shifted_US.
Qed.
























Lemma wait_writing (d : D) : exists d', ps2_wait_for_writing_data d = Ret d' /\ queue d' = queue d.
Proof.
  destruct (read_stat d) as (Q & _ & W). exists (port_inb d PORT_PS2_STAT).2. split; [|exact Q]. eapply (while_loop _ 1); [|congruence|lia].
  rewrite loop_S. unfold writing_step. rewrite (surjective_pairing (port_inb d PORT_PS2_STAT)), W. reflexivity.
Qed.

(** The keyboard answers a command: one acknowledgement is read, the other stays. *)
Lemma command_acknowledged (command dat : Z) (d : D) : queue d = [] ->
  exists d', while (command_step command dat) (0, d) = Ret d' /\ queue d' = [KBD_ACK].
Proof.
  intros Q. destruct (wait_writing d) as (d1 & E1 & Q1). destruct (wait_writing (ps2_write_data command d1)) as (d2 & E2 & Q2).
  set (d3 := ps2_write_data dat d2). assert (Q3 : queue d3 = [KBD_ACK; KBD_ACK]).
  { unfold d3, ps2_write_data. rewrite write_data, Q2. unfold ps2_write_data. rewrite write_data, Q1, Q. reflexivity. }
  destruct (read_stat d3) as (Q4 & B4 & _). set (d4 := (port_inb d3 PORT_PS2_STAT).2) in *. rewrite Q3 in Q4.
  assert (W : ps2_wait_for_reading_data d3 = Ret d4).
  { rewrite bool_decide_eq_false_2 in B4 by (rewrite Q3; discriminate). eapply (while_loop _ 1); [|congruence|lia]. rewrite loop_S.
    unfold reading_step. rewrite (surjective_pairing (port_inb d3 PORT_PS2_STAT)), B4. reflexivity. }
  destruct (read_data d4 _ _ Q4) as [E5 Q5]. exists (port_inb d4 PORT_PS2_DATA).2. split; [|exact Q5].
  eapply (while_loop _ 1); [|congruence|lia]. rewrite loop_S. unfold command_step. change (0 <? 3) with true. cbv iota.
  rewrite E1, bind_ret, E2, bind_ret. fold d3. rewrite (while_loop _ 1 _ (Ret (KBD_ACK, (port_inb d4 PORT_PS2_DATA).2))); [reflexivity| |discriminate|lia].
  rewrite loop_S. unfold respond_step. rewrite W, bind_ret. unfold ps2_read_data. rewrite (surjective_pairing (port_inb d4 PORT_PS2_DATA)), E5. reflexivity.
Qed.

(** C28: after a change of a lock key the keyboard's second acknowledgement is taken for a
    key.  kbd_set_led sends two bytes and reads one answer; the other one comes with the
    next interrupt, as scancode 0x7a released, and kbd_handler looks it up behind the end
    of its table. *)
Theorem capslock_acknowledgement_faults (st : kbd D) (kb : keyboard) (lo : locale) :
  kbd_rep st kb -> lo = US -> queue (kdev st) = [58] ->
  exists st', kbd_irq lo st = Ret st' /\ capslock_on st' = negb (caps kb) /\
    current_key st' = Key KBD_KEYCODE_CAPSLOCK 0 false /\ queue (kdev st') = [KBD_ACK] /\ kbd_irq lo st' = Fault.
Proof.
  intros [P L (C & S & N) (Di & Ex & Pr)] -> Q. destruct (read_next st _ _ Q) as (d & E & Qd).
  destruct (command_acknowledged KBD_LED (led_bits (scroll kb) (num kb) (negb (caps kb))) d Qd) as (d' & Ec & Qc).
  set (kb' := Keyboard (<[48%nat := true]> (down kb)) (negb (caps kb)) (scroll kb) (num kb)).
  assert (M : map_key US (<[48%nat:=true]> (down kb)) (negb (caps kb)) 48 = Ret 0).
  { change (map_key US (down kb') (caps kb') 48 = Ret 0). rewrite map_key_US; [|cbn; rewrite length_insert; exact L|lia]. f_equal. generalize (is_down kb' KBD_KEYCODE_LSHIFT || is_down kb' KBD_KEYCODE_RSHIFT).
    intros []; vm_compute; reflexivity. }
  eexists. split_and!.
  - unfold kbd_irq. rewrite Di. unfold kbd_handler. rewrite E. cbn [Z.eqb Pos.eqb orb]. rewrite andb_false_r. cbv iota.
    change (Z.land 58 128 =? 128) with false. cbn [Z.b2z]. rewrite Ex. change (keycode !! Z.to_nat (58 - 128 * 0)) with (Some 48). cbn [of_option]. rewrite bind_ret.
    cbv zeta. cbn [negb]. change (48 =? KBD_KEYCODE_CAPSLOCK) with true. change (48 =? KBD_KEYCODE_SCROLLLOCK) with false. change (48 =? KBD_KEYCODE_PAUSE) with false.
    cbn [andb orb]. cbv iota. unfold kbd_set_led. rewrite C, S, N, P, Ec, bind_ret. change (Z.to_nat 48) with 48%nat.
    rewrite M, bind_ret. reflexivity.
  - reflexivity.
  - reflexivity.
  - exact Qc.
  - unfold kbd_irq. cbn [discarding]. rewrite Di. unfold kbd_handler. cbn [kdev extended_byte]. destruct (read_data _ _ _ Qc) as [E6 _].
    unfold ps2_read_data. rewrite (surjective_pairing (port_inb d' PORT_PS2_DATA)), E6. reflexivity.
Qed.
End decoding.

(** ** A keyboard *)
Module Runs.
#[export] Instance queue_ports : Ports (list Z) := {
  port_inb d p := if p =? PORT_PS2_DATA then (hd 0 d, tl d) else if p =? PORT_PS2_STAT then ((if bool_decide (d = []) then 0 else 1), d) else (0, d);
  port_inw d p := (0, d);
  port_outb d p v := if p =? PORT_PS2_DATA then d ++ [KBD_ACK] else d;
  port_outw d p v := d;
}.
#[export] Program Instance queue_keyboard : Ps2Keyboard (list Z) := { queue d := d }.
Next Obligation. intros d b q E. cbn in E. subst d. auto. Qed.
Next Obligation. intros d. cbn. case_bool_decide; auto. Qed.
Next Obligation. reflexivity. Qed.

Definition idle (q : list Z) : kbd (list Z) := Kbd (replicate 175 false) false false false (Key 0 0 false) false 0 0 true false q.
Definition all_up : keyboard := Keyboard (replicate 175 false) false false false.
Lemma idle_rep q : kbd_rep (idle q) all_up.
Proof. now split. Qed.

(** Shift down, h, shift up, i, Pause, the up arrow. *)
Definition left_shift : physical_key := mute false 0x2a 64.
Definition key_h : physical_key := PhysicalKey false 0x23 54 104 72.
Definition key_i : physical_key := PhysicalKey false 0x17 40 105 73.
Definition up_arrow : physical_key := mute true 0x48 112.
Definition typing : list key_event :=
  [Move left_shift false; Move key_h false; Move key_h true; Move left_shift true; Move key_i false; PauseTyped; PrintScreenMoves false; Move up_arrow false].



Example typing_text : map mapped (told_all typing (∅, false)).1 = [0; 72; 72; 0; 105; 0] /\ elements (told_all typing (∅, false)).2.1 = [40; 112].
Proof. split; vm_compute; reflexivity. Qed.

Lemma capslock_witness : exists st', kbd_irq US (idle [58]) = Ret st' /\ capslock_on st' = negb (caps all_up) /\
  current_key st' = Key KBD_KEYCODE_CAPSLOCK 0 false /\ queue (kdev st') = [KBD_ACK] /\ kbd_irq US st' = Fault.
Proof. apply (capslock_acknowledgement_faults (idle [58]) all_up US); [apply idle_rep|reflexivity|reflexivity]. Defined.

(** A space with shift held down is nothing. *)
Example shifted_space : table_char US true false 83 = 0.
Proof. reflexivity. Qed.
End Runs.
