(* ===== verification/Vga.v ===== *)
(** * The text console (kernel/src/driver/video/vga.c)

    The text mode of the VGA adapter: a cell of two bytes, character and attribute,
    for each position of the screen, and a hardware cursor behind the ports of the
    CRT controller.  The printing of strings is related to writing onto an endless
    sheet of paper of which the screen shows the last rows. *)
From S2P Require Import Prelude Mem CString Ports.

Definition VIDEO_START : Z := 3225419776.
Definition PORT_SCREEN_CTRL : Z := 980.
Definition PORT_SCREEN_DATA : Z := 981.

(** ** Colours *)

(** The value of a colour and its red, green and blue. *)
Definition vga_palette : list (Z * (Z * Z * Z)) := [
  (0, (0, 0, 0)); (1, (0, 0, 170)); (2, (0, 170, 0)); (3, (0, 170, 170));
  (4, (170, 0, 0)); (5, (170, 0, 170)); (6, (170, 85, 0)); (7, (170, 170, 170));
  (8, (85, 85, 85)); (9, (85, 85, 255)); (10, (85, 255, 85)); (11, (85, 255, 255));
  (12, (255, 85, 85)); (13, (255, 85, 255)); (14, (255, 255, 85)); (15, (255, 255, 255))].

Definition color_difference (r1 g1 b1 r2 g2 b2 : Z) : Z :=
  let r := s32 (u32 (r1 - r2)) in
  let g := s32 (u32 (g1 - g2)) in
  let b := s32 (u32 (b1 - b2)) in
  u32 (r * r + g * g + b * b).

(** One round of the search: the best colour so far and its difference. *)
Definition rgb_step (r g b : Z) (best : Z * Z) (colour : Z * (Z * Z * Z)) : Z * Z :=
  let '(v, (r2, g2, b2)) := colour in
  let diff := color_difference (u32 r) (u32 g) (u32 b) r2 g2 b2 in
  if diff <? best.2 then (v, diff) else best.
Definition video_vga_rgb (r g b : Z) : Z := (fold_left (rgb_step r g b) vga_palette (7, 4294967295)).1.

(** ** The state *)

Record vga (D : Type) := Vga { vid_mem : mem; current_attr : Z; text_rows : Z; text_cols : Z; vdev : D }.
Arguments Vga {D}.
Arguments vid_mem {D}.
Arguments current_attr {D}.
Arguments text_rows {D}.
Arguments text_cols {D}.
Arguments vdev {D}.

Definition with_mem {D} (m : mem) (st : vga D) : vga D := Vga m (current_attr st) (text_rows st) (text_cols st) (vdev st).
Definition with_dev {D} (d : D) (st : vga D) : vga D := Vga (vid_mem st) (current_attr st) (text_rows st) (text_cols st) d.

Section vga.
Context {D : Type} `{Ports D}.

Definition video_vga_set_attr (fg bg : Z) (st : vga D) : vga D :=
  Vga (vid_mem st) (u8 (Z.lor (Z.shiftl bg 4) fg)) (text_rows st) (text_cols st) (vdev st).
Definition video_vga_set_size (w h : Z) (st : vga D) : vga D := Vga (vid_mem st) (current_attr st) h w (vdev st).
Definition video_vga_get_size (st : vga D) : Z * Z := (text_cols st, text_rows st).

(** ** The cursor *)

Definition video_vga_enable_cursor (scanline_start scanline_end : Z) (d : D) : D :=
  let d := port_outb d PORT_SCREEN_CTRL 10 in
  let '(v, d) := port_inb d PORT_SCREEN_DATA in
  let d := port_outb d PORT_SCREEN_DATA (u8 (Z.lor (Z.land v 192) scanline_start)) in
  let d := port_outb d PORT_SCREEN_CTRL 11 in
  let '(v, d) := port_inb d PORT_SCREEN_DATA in
  port_outb d PORT_SCREEN_DATA (u8 (Z.lor (Z.land v 224) scanline_end)).

Definition video_vga_disable_cursor (d : D) : D := port_outb (port_outb d PORT_SCREEN_CTRL 10) PORT_SCREEN_DATA 32.

Definition video_vga_get_cursor (d : D) : Z * D :=
  let d := port_outb d PORT_SCREEN_CTRL 15 in
  let '(lo, d) := port_inb d PORT_SCREEN_DATA in
  let d := port_outb d PORT_SCREEN_CTRL 14 in
  let '(hi, d) := port_inb d PORT_SCREEN_DATA in
  (Z.lor lo (Z.shiftl hi 8), d).

Definition video_vga_set_cursor (offset : Z) (d : D) : D :=
  let d := port_outb d PORT_SCREEN_CTRL 14 in
  let d := port_outb d PORT_SCREEN_DATA (u8 (Z.shiftr offset 8)) in
  let d := port_outb d PORT_SCREEN_CTRL 15 in
  port_outb d PORT_SCREEN_DATA (u8 offset).

(** ** Clearing and scrolling *)

Definition clear_cell (bg i : Z) (m : mem) : mem :=
  let m := store8 m (VIDEO_START + (i * 2 + 1)) (Z.shiftl (Z.land bg 15) 4) in
  store8 m (VIDEO_START + i * 2) 32.
Definition video_vga_cls (bg : Z) (st : vga D) : vga D :=
  let m := for_range (clear_cell bg) 0 (Z.to_nat (text_rows st * text_cols st)) (vid_mem st) in
  Vga m (current_attr st) (text_rows st) (text_cols st) (video_vga_set_cursor 0 (vdev st)).

Definition scroll_screen (amount : Z) (st : vga D) : vga D :=
  if text_rows st <=? s32 amount then video_vga_cls (Z.shiftr (current_attr st) 4) st
  else
    let total_cells := text_rows st * text_cols st in
    let shift_cells := s32 (u32 (amount * text_cols st)) in
    let m := memmove (vid_mem st) VIDEO_START (VIDEO_START + 2 * shift_cells) (u32 ((total_cells - shift_cells) * 2)) in
    let clear_val := Z.lor (u16 (Z.shiftl (current_attr st) 8)) 32 in
    let m := for_range (fun i m => store16 m (VIDEO_START + 2 * i) clear_val) (total_cells - shift_cells) (Z.to_nat shift_cells) m in
    let '(current_pos, d) := video_vga_get_cursor (vdev st) in
    Vga m (current_attr st) (text_rows st) (text_cols st)
      (video_vga_set_cursor (if current_pos <? shift_cells then 0 else current_pos - shift_cells) d).

(** ** Printing *)

(** printc: the new offset and the memory; a screen without columns divides by 0. *)
Definition printc (text_cols chr attr : Z) (calculate : bool) (offset : Z) (m : mem) : outcome (Z * mem) :=
  if chr =? 10 then
    if text_cols =? 0 then Fault else Ret (offset + (text_cols - Z.rem offset text_cols), m)
  else if chr =? 8 then
    let offset := if 0 <? offset then offset - 1 else offset in
    Ret (offset, if calculate then m else store8 m (VIDEO_START + offset * 2) 32)
  else
    Ret (offset + 1, if calculate then m else store8 (store8 m (VIDEO_START + offset * 2) chr) (VIDEO_START + (offset * 2 + 1)) attr).

Definition video_vga_printc (chr offset fg bg : Z) (move : bool) (st : vga D) : outcome (vga D) :=
  if chr =? 0 then Ret st
  else
    let '(offset, d) := if offset <? 0 then video_vga_get_cursor (vdev st) else (offset, vdev st) in
    let attr := current_attr st in
    let attr := if 0 <=? fg then u8 (Z.lor (Z.land attr 15) fg) else attr in
    let attr := if 0 <=? bg then u8 (Z.lor (Z.land attr 240) bg) else attr in
    '(offset, m) ← printc (text_cols st) chr attr false offset (vid_mem st);
    let st := with_mem m (with_dev d st) in
    if move then
      let st := with_dev (video_vga_set_cursor offset (vdev st)) st in
      Ret (if text_rows st * text_cols st - 1 <? offset then scroll_screen 1 st else st)
    else Ret st.

(** The position the string would end at. *)
Definition phantom_step (cols attr : Z) (m : mem) '((p, phantom) : Z * Z) : outcome (Z * Z + Z) :=
  if load8 m p =? 0 then Ret (inr phantom)
  else '(phantom, _) ← printc cols (s8 (load8 m p)) attr true phantom m; Ret (inl (p + 1, phantom)).

Definition print_step (cols screen_chars attr : Z) '((p, offset, m) : Z * Z * mem) : outcome (Z * Z * mem + Z * mem) :=
  if load8 m p =? 0 then Ret (inr (offset, m))
  else if screen_chars <=? offset then Ret (inr (offset, m))
  else '(offset, m) ← printc cols (s8 (load8 m p)) attr false offset m; Ret (inl (p + 1, offset, m)).

(** The attribute a string is printed in. *)
Definition string_attr (attr fg bg : Z) : Z :=
  let attr := if 0 <=? fg then u8 (Z.lor (Z.land attr 240) (Z.land fg 15)) else attr in
  if 0 <=? bg then u8 (Z.lor (Z.land attr 15) (Z.shiftl (Z.land bg 15) 4)) else attr.

(** The scrolling before the string is printed: the offset moves with the screen. *)
Definition make_room (str offset attr : Z) (st : vga D) : outcome (Z * vga D) :=
  phantom ← while (phantom_step (text_cols st) attr (vid_mem st)) (str, offset);
  if text_rows st * text_cols st <=? phantom then
    if text_cols st =? 0 then Fault
    else
      let rows_needed := Z.quot phantom (text_cols st) - text_rows st + 1 in
      let offset := offset - rows_needed * text_cols st in
      Ret (if offset <? 0 then 0 else offset, scroll_screen (u32 rows_needed) st)
  else Ret (offset, st).

Definition video_vga_prints (str offset fg bg : Z) (move : bool) (st : vga D) : outcome (vga D) :=
  if load8 (vid_mem st) str =? 0 then Ret st
  else
    let '(offset, d) := if offset <? 0 then video_vga_get_cursor (vdev st) else (offset, vdev st) in
    let st := with_dev d st in
    let attr := string_attr (current_attr st) fg bg in
    '(offset, st) ← (if move then make_room str offset attr st else Ret (offset, st));
    '(offset, m) ← while (print_step (text_cols st) (text_rows st * text_cols st) attr) (str, offset, vid_mem st);
    let st := with_mem m st in
    Ret (if move then with_dev (video_vga_set_cursor offset (vdev st)) st else st).
End vga.

(** ** The CRT controller

    A port that selects a register and a port that reads and writes it; registers 14
    and 15 are the high and the low byte of the cursor's position. *)
Class CrtController (D : Type) `{Ports D} := {
  crt_index : D -> Z;
  crt_reg : D -> Z -> Z;
  crt_byte d i : 0 <= crt_reg d i < 256;
  ctrl_write d v : crt_index (port_outb d PORT_SCREEN_CTRL v) = v /\ crt_reg (port_outb d PORT_SCREEN_CTRL v) = crt_reg d;
  data_write d v i : crt_index d = 14 \/ crt_index d = 15 -> 0 <= v < 256 ->
    crt_index (port_outb d PORT_SCREEN_DATA v) = crt_index d /\
    crt_reg (port_outb d PORT_SCREEN_DATA v) i = if i =? crt_index d then v else crt_reg d i;
  data_read d : (port_inb d PORT_SCREEN_DATA).1 = crt_reg d (crt_index d) /\
    crt_index (port_inb d PORT_SCREEN_DATA).2 = crt_index d /\ crt_reg (port_inb d PORT_SCREEN_DATA).2 = crt_reg d;
}.

(** ** The paper

    A cell of the paper is a character and its attribute.  [typed] is a string typed
    from a position on: a line break goes on at the next multiple of the columns, a
    backspace goes back by one and leaves a space there. *)
Definition paper : Type := Z -> Z * Z.

Definition next_position (cols pos c : Z) : Z :=
  if c =? 10 then pos + (cols - Z.rem pos cols) else if c =? 8 then pos - 1 else pos + 1.
Definition type_char (cols attr : Z) '((p, pos) : paper * Z) (c : Z) : paper * Z :=
  (if c =? 10 then p
   else if c =? 8 then fun i => if i =? pos - 1 then (32, (p i).2) else p i
   else fun i => if i =? pos then (c, attr) else p i, next_position cols pos c).
Definition typed (cols attr : Z) (l : list Z) (s : paper * Z) : paper * Z := fold_left (type_char cols attr) l s.

(** A blank cell of the current attribute. *)
Definition blank (attr : Z) : Z * Z := (32, attr).

Section console.
Context {D : Type} `{CrtController D}.

Definition cursor (d : D) : Z := crt_reg d 15 + 256 * crt_reg d 14.
Definition cell (m : mem) (i : Z) : Z * Z := (load8 m (VIDEO_START + 2 * i), load8 m (VIDEO_START + 2 * i + 1)).

(** The screen shows the paper from position [base] on, blank behind the screen, and
    the cursor stands at [pos]. *)
Record shows (st : vga D) (p : paper) (base pos : Z) : Prop := {
  sh_size : 0 < text_rows st /\ 0 < text_cols st /\ text_rows st * text_cols st <= 65536;
  sh_attr : 0 <= current_attr st < 256;
  sh_base : 0 <= base /\ base mod text_cols st = 0;
  sh_pos : base <= pos < base + text_rows st * text_cols st;
  sh_cursor : cursor (vdev st) = pos - base;
  sh_cells i : 0 <= i < text_rows st * text_cols st -> cell (vid_mem st) i = p (base + i);
  sh_blank i : base + text_rows st * text_cols st <= i -> p i = blank (current_attr st);
}.

Lemma get_cursor_spec (d : D) : (video_vga_get_cursor d).1 = cursor d /\ cursor (video_vga_get_cursor d).2 = cursor d.
Proof.
  unfold video_vga_get_cursor. destruct (ctrl_write d 15) as [I1 R1]. set (d1 := port_outb d PORT_SCREEN_CTRL 15) in *.
  destruct (data_read d1) as (V1 & I2 & R2). rewrite (surjective_pairing (port_inb d1 PORT_SCREEN_DATA)).
  set (d2 := (port_inb d1 PORT_SCREEN_DATA).2) in *. destruct (ctrl_write d2 14) as [I3 R3]. set (d3 := port_outb d2 PORT_SCREEN_CTRL 14) in *.
  destruct (data_read d3) as (V2 & I4 & R4). rewrite (surjective_pairing (port_inb d3 PORT_SCREEN_DATA)). cbn [fst snd].
  rewrite V1, V2, I1, I3, R3, R2, R1. split.
  - rewrite lor_shiftl; [reflexivity|lia|exact (crt_byte d 15)].
  - unfold cursor. now rewrite R4, R3, R2, R1.
Qed.

Lemma set_cursor_spec (d : D) o : 0 <= o < 65536 -> cursor (video_vga_set_cursor o d) = o.
Proof.
  intros Ho. unfold video_vga_set_cursor. destruct (ctrl_write d 14) as [I1 R1]. set (d1 := port_outb d PORT_SCREEN_CTRL 14) in *.
  pose proof (fun i => data_write d1 (u8 (Z.shiftr o 8)) i (or_introl I1) (u8_range _)) as W1. set (d2 := port_outb d1 PORT_SCREEN_DATA _) in *.
  destruct (ctrl_write d2 15) as [I3 R3]. set (d3 := port_outb d2 PORT_SCREEN_CTRL 15) in *.
  pose proof (fun i => data_write d3 (u8 o) i (or_intror I3) (u8_range _)) as W2. set (d4 := port_outb d3 PORT_SCREEN_DATA _) in *.
  unfold cursor. rewrite (proj2 (W2 15)), (proj2 (W2 14)), I3, R3, (proj2 (W1 14)), I1. cbn [Z.eqb Pos.eqb].
  unfold u8. rewrite Z.shiftr_div_pow2 by lia. rewrite (Z.mod_small (o / 2 ^ 8)) by (change (2 ^ 8) with 256; split; [apply Z.div_pos; lia|apply Z.div_lt_upper_bound; lia]).
  pose proof (Z.div_mod o (2 ^ 8)). lia.
Qed.

(** ** Positions *)

(** A screen that begins with a line of the paper counts as the paper does. *)
Lemma next_position_base cols base pos c : 0 < cols -> 0 <= base -> base mod cols = 0 -> base <= pos ->
  next_position cols (pos - base) c = next_position cols pos c - base.
Proof.
  intros Hc Hb Hm Hp. unfold next_position. rewrite !Z.rem_mod_nonneg by lia.
  rewrite Zminus_mod, Hm, Z.sub_0_r, Z.mod_mod by lia. repeat case_test; lia.
Qed.

Definition end_position (cols : Z) (l : list Z) (pos : Z) : Z := fold_left (next_position cols) l pos.

(** Typed from [pos] on, the string keeps from [lo] to [hi]: so do the positions of all its
    characters and its end. *)
Fixpoint keeps_within (cols : Z) (l : list Z) (pos lo hi : Z) : Prop :=
  lo <= pos < hi /\ match l with [] => True | c :: l => keeps_within cols l (next_position cols pos c) lo hi end.

Lemma keeps_start cols l pos lo hi : keeps_within cols l pos lo hi -> lo <= pos < hi.
Proof. now destruct l as [|c l]; intros [? _]. Qed.

Lemma keeps_end cols l pos lo hi : keeps_within cols l pos lo hi -> lo <= end_position cols l pos < hi.
Proof. revert pos. induction l as [|c l IH]; intros pos [B K]; [exact B|]. now apply IH. Qed.

Lemma keeps_base cols base l pos lo hi : 0 < cols -> 0 <= base -> base mod cols = 0 -> base <= lo ->
  keeps_within cols l pos lo hi -> keeps_within cols l (pos - base) (lo - base) (hi - base).
Proof.
  intros Hc Hb Hm Hlo. revert pos. induction l as [|c l IH]; intros pos [B K]; (split; [lia|]); [exact I|].
  rewrite next_position_base by lia. now apply IH.
Qed.

Lemma keeps_wider cols l pos lo hi lo' : keeps_within cols l pos lo hi -> lo' <= lo -> keeps_within cols l pos lo' hi.
Proof. intros K L. revert pos K. induction l as [|c l IH]; intros pos [B K]; (split; [lia|]); [exact I|]. now apply IH. Qed.

Lemma end_position_base cols base l pos lo hi : 0 < cols -> 0 <= base -> base mod cols = 0 -> base <= lo ->
  keeps_within cols l pos lo hi -> end_position cols l (pos - base) = end_position cols l pos - base.
Proof.
  intros Hc Hb Hm Hlo. revert pos. induction l as [|c l IH]; intros pos [B K]; cbn; [reflexivity|].
  rewrite next_position_base by lia. now apply IH.
Qed.

Lemma typed_position cols attr l p pos : (typed cols attr l (p, pos)).2 = end_position cols l pos.
Proof. revert p pos. induction l as [|c l IH]; intros p pos; cbn; [reflexivity|apply IH]. Qed.

(** Nothing is written outside. *)
Lemma typed_outside cols attr l p pos lo hi i : keeps_within cols l pos lo hi -> hi <= i -> (typed cols attr l (p, pos)).1 i = p i.
Proof.
  revert p pos. induction l as [|c l IH]; intros p pos [B K] Hi; cbn in *; [reflexivity|].
  unfold typed in *. rewrite IH by assumption. destruct (c =? 10); [reflexivity|]. destruct (c =? 8); case_test; auto; lia.
Qed.

(** ** Characters *)

Lemma char_ok b : 0 < b < 256 -> (s8 b =? 10) = (b =? 10) /\ (s8 b =? 8) = (b =? 8) /\ u8 (s8 b) = b.
Proof. intros Hb. assert (Hb' : 0 <= b < 256) by lia. clear Hb. revert b Hb'. apply (forall_below 256 (fun b => (s8 b =? 10) = (b =? 10) /\ (s8 b =? 8) = (b =? 8) /\ u8 (s8 b) = b)). by_eval. Qed.

(** printc, where a backspace has something to go back over. *)
Lemma printc_spec cols b attr calculate o m : cols <> 0 -> 0 < b < 256 -> (b = 8 -> 0 < o) ->
  printc cols (s8 b) attr calculate o m = Ret (next_position cols o b,
    if calculate || (b =? 10) then m
    else if b =? 8 then store8 m (VIDEO_START + (o - 1) * 2) 32
    else store8 (store8 m (VIDEO_START + o * 2) (s8 b)) (VIDEO_START + (o * 2 + 1)) attr).
Proof.
  intros Hc Hb B. destruct (char_ok b Hb) as (E10 & E8 & _). unfold printc, next_position. rewrite E10, E8, (proj2 (Z.eqb_neq _ _) Hc).
  destruct (b =? 10) eqn:T; [destruct calculate; reflexivity|]. destruct (Z.eqb_spec b 8) as [->|N]; [|destruct calculate; reflexivity].
  rewrite (proj2 (Z.ltb_lt 0 o)) by auto. destruct calculate; reflexivity.
Qed.

Lemma phantom_loop cols attr m hi l : cols <> 0 -> forall p o, keeps_within cols l o 0 hi -> cstr m p l ->
  loop (phantom_step cols attr m) (S (length l)) (p, o) = Ret (end_position cols l o).
Proof.
  intros Hc. induction l as [|b l IH]; intros p o [B K] C; rewrite loop_S; unfold phantom_step at 2; cbv beta iota.
  - rewrite (proj1 (cstr_nil _ _) C). reflexivity.
  - apply cstr_cons in C as (Hb & E & C). rewrite E, (proj2 (Z.eqb_neq b 0)) by lia. pose proof (keeps_start _ _ _ _ _ K) as B'.
    rewrite printc_spec; [|assumption|assumption|intros ->; unfold next_position in B'; cbn in B'; lia]. rewrite !bind_ret. apply IH; assumption.
Qed.

Lemma cell_erase m o i : cell (store8 m (VIDEO_START + o * 2) 32) i = if i =? o then (32, (cell m i).2) else cell m i.
Proof.
  unfold cell. rewrite !load8_store8. replace (VIDEO_START + o * 2 =? VIDEO_START + 2 * i + 1) with false by lia.
  destruct (Z.eqb_spec i o) as [->|N]; [now replace (VIDEO_START + o * 2 =? VIDEO_START + 2 * o) with true by lia|].
  now replace (VIDEO_START + o * 2 =? VIDEO_START + 2 * i) with false by lia.
Qed.

Lemma cell_store m o c a i : 0 <= a < 256 ->
  cell (store8 (store8 m (VIDEO_START + o * 2) c) (VIDEO_START + (o * 2 + 1)) a) i = if i =? o then (u8 c, a) else cell m i.
Proof.
  intros Ha. unfold cell. rewrite !load8_store8. destruct (Z.eqb_spec i o) as [->|N].
  - replace (VIDEO_START + (o * 2 + 1) =? VIDEO_START + 2 * o) with false by lia. replace (VIDEO_START + o * 2 =? VIDEO_START + 2 * o) with true by lia.
    replace (VIDEO_START + (o * 2 + 1) =? VIDEO_START + 2 * o + 1) with true by lia. now rewrite (u8_small a).
  - replace (VIDEO_START + (o * 2 + 1) =? VIDEO_START + 2 * i) with false by lia. replace (VIDEO_START + o * 2 =? VIDEO_START + 2 * i) with false by lia.
    replace (VIDEO_START + (o * 2 + 1) =? VIDEO_START + 2 * i + 1) with false by lia. now replace (VIDEO_START + o * 2 =? VIDEO_START + 2 * i + 1) with false by lia.
Qed.

(** What lies outside the [n] cells of the screen. *)
Definition off_screen (n a : Z) : Prop := a < VIDEO_START \/ VIDEO_START + 2 * n <= a.

Lemma print_loop cols n attr base l : 0 < cols -> 0 <= attr < 256 -> 0 <= base -> base mod cols = 0 ->
  forall m p o pp, cstr m p l -> (forall a, p <= a <= p + Z.of_nat (length l) -> off_screen n a) -> keeps_within cols l o 0 n ->
  (forall i, 0 <= i < n -> cell m i = pp (base + i)) ->
  exists m', loop (print_step cols n attr) (S (length l)) (p, o, m) = Ret (end_position cols l o, m') /\
    (forall i, 0 <= i < n -> cell m' i = (typed cols attr l (pp, base + o)).1 (base + i)) /\
    (forall a, off_screen n a -> load8 m' a = load8 m a).
Proof.
  intros Hc Ha Hb Hm. induction l as [|b l IH]; intros m p o pp C Off [Ho K] Hcell; rewrite loop_S; unfold print_step at 2; cbv beta iota.
  - rewrite (proj1 (cstr_nil _ _) C). exists m. auto.
  - destruct (proj1 (cstr_cons _ _ _ _) C) as (Hbr & E & C'). rewrite E, (proj2 (Z.eqb_neq b 0)) by lia. rewrite (proj2 (Z.leb_gt n o)) by lia.
    pose proof (keeps_start _ _ _ _ _ K) as B'. assert (Back : b = 8 -> 0 < o) by (intros ->; unfold next_position in B'; cbn in B'; lia).
    rewrite printc_spec by (assumption || lia). cbn [orb]. rewrite !bind_ret.
    set (m1 := if b =? 10 then m else _). assert (F1 : forall a, off_screen n a -> load8 m1 a = load8 m a).
    { intros a A. unfold m1. destruct (b =? 10); [reflexivity|]. destruct (Z.eqb_spec b 8) as [E8|]; [specialize (Back E8)|]; rewrite !load8_store8; destruct A;
        repeat (rewrite (proj2 (Z.eqb_neq _ a)) by lia); reflexivity. }
    set (pp1 := (type_char cols attr (pp, base + o) b).1). assert (Ep : (base + next_position cols o b) = next_position cols (base + o) b).
    { pose proof (next_position_base cols base (base + o) b Hc Hb Hm). replace (base + o - base) with o in * by lia. lia. }
    destruct (IH m1 (p + 1) (next_position cols o b) pp1) as (m' & E' & Hcell' & F').
    + eapply cstr_frame; [exact C'|]. intros a A. apply F1, Off. cbn [length]. lia.
    + intros a A. apply Off. cbn [length]. lia.
    + exact K.
    + intros i Hi. unfold pp1, type_char, m1. cbn [fst]. destruct (b =? 10); [now apply Hcell|]. destruct (b =? 8).
      * rewrite cell_erase. destruct (Z.eqb_spec i (o - 1)) as [->|N]; [rewrite Hcell by exact Hi; now replace (base + (o - 1) =? base + o - 1) with true by lia|].
        rewrite (proj2 (Z.eqb_neq (base + i) (base + o - 1))) by lia. now apply Hcell.
      * rewrite cell_store by exact Ha. destruct (Z.eqb_spec i o) as [->|N]; [rewrite Z.eqb_refl; destruct (char_ok b Hbr) as (_ & _ & ->); reflexivity|].
        rewrite (proj2 (Z.eqb_neq (base + i) (base + o))) by lia. now apply Hcell.
    + exists m'. split_and!; [exact E'| |].
      * intros i Hi. rewrite Hcell' by exact Hi. rewrite Ep. reflexivity.
      * intros a A. rewrite F', F1; auto.
Qed.

(** ** Scrolling *)

Lemma cell_store16 m o v i : cell (store16 m (VIDEO_START + 2 * o) v) i = if i =? o then (u8 v, u8 (v / 2 ^ 8)) else cell m i.
Proof.
  unfold cell. rewrite !load8_store16. destruct (Z.eqb_spec i o) as [->|N].
  - rewrite !Z.eqb_refl. now replace (VIDEO_START + 2 * o =? VIDEO_START + 2 * o + 1) with false by lia.
  - replace (VIDEO_START + 2 * o =? VIDEO_START + 2 * i) with false by lia. replace (VIDEO_START + 2 * o + 1 =? VIDEO_START + 2 * i) with false by lia.
    replace (VIDEO_START + 2 * o =? VIDEO_START + 2 * i + 1) with false by lia. now replace (VIDEO_START + 2 * o + 1 =? VIDEO_START + 2 * i + 1) with false by lia.
Qed.

Lemma fill_cells v k n m : 
  let m' := for_range (fun i m => store16 m (VIDEO_START + 2 * i) v) k n m in
  (forall i, cell m' i = if (k <=? i) && (i <? k + Z.of_nat n) then (u8 v, u8 (v / 2 ^ 8)) else cell m i) /\
  (forall a, a < VIDEO_START + 2 * k \/ VIDEO_START + 2 * (k + Z.of_nat n) <= a -> load8 m' a = load8 m a).
Proof.
  cbv zeta. induction n as [|n [IHc IHf]]; [split; [intros i; cbn; case_test; [lia|reflexivity]|reflexivity]|]. rewrite for_range_last. split.
  - intros i. rewrite cell_store16, IHc. destruct (Z.eqb_spec i (k + Z.of_nat n)); repeat case_test; auto; lia.
  - intros a A. rewrite load8_store16, IHf by lia. now rewrite !(proj2 (Z.eqb_neq _ a)) by lia.
Qed.

Lemma moved_cells m n k : 0 <= k <= n ->
  let m' := memmove m VIDEO_START (VIDEO_START + 2 * k) ((n - k) * 2) in
  (forall i, 0 <= i < n - k -> cell m' i = cell m (i + k)) /\ (forall a, off_screen n a -> load8 m' a = load8 m a).
Proof.
  intros Hk. cbv zeta. split.
  - intros i Hi. unfold cell. rewrite !memmove_load by lia.
    replace (_ && _) with true by lia. replace ((_ <=? VIDEO_START + 2 * i + 1) && _) with true by lia. f_equal; f_equal; lia.
  - intros a A. rewrite memmove_load by lia. unfold off_screen in A. now replace (_ && _) with false by lia.
Qed.

Lemma clear_val_blank attr : 0 <= attr < 256 -> let v := Z.lor (u16 (Z.shiftl attr 8)) 32 in (u8 v, u8 (v / 2 ^ 8)) = blank attr.
Proof. revert attr. apply (forall_below 256 (fun attr => let v := Z.lor (u16 (Z.shiftl attr 8)) 32 in (u8 v, u8 (v / 2 ^ 8)) = blank attr)). by_eval. Qed.

(** Scrolling by less than a screen: the rows move up, blank ones follow. *)
Lemma scroll_spec (st : vga D) k : 0 < text_cols st -> 0 < k < text_rows st -> text_rows st * text_cols st <= 65536 -> 0 <= current_attr st < 256 ->
  let st' := scroll_screen (u32 k) st in
  let n := text_rows st * text_cols st in
  (text_rows st' = text_rows st /\ text_cols st' = text_cols st /\ current_attr st' = current_attr st) /\
  (forall i, 0 <= i < n -> cell (vid_mem st') i = if i <? n - k * text_cols st then cell (vid_mem st) (i + k * text_cols st) else blank (current_attr st)) /\
  (forall a, off_screen n a -> load8 (vid_mem st') a = load8 (vid_mem st) a) /\
  cursor (vdev st') = Z.max 0 (cursor (vdev st) - k * text_cols st).
Proof.
  intros Hc Hk Hn Ha. cbv zeta. assert (Hkc : 0 < k * text_cols st < text_rows st * text_cols st) by nia.
  assert (Ek : u32 k = k) by (apply u32_small; nia). assert (Hk32 : k < 2147483648) by nia.
  unfold scroll_screen. rewrite Ek, s32_small by lia. rewrite (proj2 (Z.leb_gt _ _)) by lia. cbv zeta.
  rewrite (u32_small (k * text_cols st)), s32_small, u32_small by lia. set (n := text_rows st * text_cols st) in *. set (s := k * text_cols st) in *.
  destruct (get_cursor_spec (vdev st)) as [C1 C2]. rewrite (surjective_pairing (video_vga_get_cursor (vdev st))). cbn [vid_mem text_rows text_cols current_attr vdev].
  destruct (moved_cells (vid_mem st) n s ltac:(lia)) as [Mc Mf]. set (m1 := memmove _ _ _ _) in *.
  destruct (fill_cells (Z.lor (u16 (Z.shiftl (current_attr st) 8)) 32) (n - s) (Z.to_nat s) m1) as [Fc Ff].
  rewrite clear_val_blank in Fc by exact Ha. rewrite Z2Nat.id in Fc, Ff by lia. split_and!; try reflexivity.
  - intros i Hi. rewrite Fc. case_test; [now rewrite (proj2 (Z.ltb_ge _ _)) by lia|]. rewrite (proj2 (Z.ltb_lt _ _)) by lia. apply Mc. lia.
  - intros a A. rewrite Ff by (unfold off_screen in A; lia). now apply Mf.
  - rewrite C1. assert (0 <= cursor (vdev st) < 65536) by (unfold cursor; pose proof (crt_byte (vdev st) 15); pose proof (crt_byte (vdev st) 14); lia).
    rewrite set_cursor_spec by (case_test; lia). case_test; lia.
Qed.

(** How far the paper moves for a text that ends at offset [phantom] of the screen. *)
Definition rows_scrolled (rows cols phantom : Z) : Z := Z.max 0 (phantom / cols - rows + 1).

Lemma make_room_spec (st : vga D) p base pos str l attr :
  shows st p base pos -> cstr (vid_mem st) str l -> Z.of_nat (length l) < 2 ^ 32 - 1 ->
  let k := rows_scrolled (text_rows st) (text_cols st) (end_position (text_cols st) l pos - base) in
  keeps_within (text_cols st) l pos (base + k * text_cols st) (base + k * text_cols st + text_rows st * text_cols st) ->
  exists st', make_room str (pos - base) attr st = Ret (pos - base - k * text_cols st, st') /\
    text_rows st' = text_rows st /\ text_cols st' = text_cols st /\ current_attr st' = current_attr st /\
    (forall i, 0 <= i < text_rows st * text_cols st -> cell (vid_mem st') i = p (base + k * text_cols st + i)) /\
    (forall a, off_screen (text_rows st * text_cols st) a -> load8 (vid_mem st') a = load8 (vid_mem st) a).
Proof.
  intros [(Hr & Hc & Hn) Ha (Hb & Hm) Hp Hcur Hcell Hblank] C Len k Kp.
  assert (Hk0 : 0 <= k * text_cols st) by (unfold k, rows_scrolled; nia). pose proof (keeps_start _ _ _ _ _ Kp) as Hst. assert (Hk : k * text_cols st <= pos - base) by lia.
  assert (Hlo : base <= base + k * text_cols st) by lia.
  pose proof (keeps_base _ base _ _ _ _ Hc Hb Hm Hlo Kp) as Kb. pose proof (end_position_base _ base _ _ _ _ Hc Hb Hm Hlo Kp) as Eb.
  assert (K0 : keeps_within (text_cols st) l (pos - base) 0 (base + k * text_cols st + text_rows st * text_cols st - base)) by (eapply keeps_wider; [exact Kb|lia]).
  unfold make_room. rewrite (while_loop _ (S (length l)) _ _ (phantom_loop (text_cols st) attr (vid_mem st) _ l ltac:(lia) str (pos - base) K0 C)) by (discriminate || lia).
  rewrite bind_ret.
  assert (Kk : k = rows_scrolled (text_rows st) (text_cols st) (end_position (text_cols st) l (pos - base))) by (unfold k; now rewrite Eb). clearbody k. pose proof (keeps_end _ _ _ _ _ K0) as Hph. set (ph := end_position _ l (pos - base)) in *.
  assert (Hd : ph / text_cols st * text_cols st <= ph < (ph / text_cols st + 1) * text_cols st).
  { pose proof (Z.div_mod ph (text_cols st)). pose proof (Z.mod_pos_bound ph (text_cols st)). lia. }
  destruct (Z.leb_spec (text_rows st * text_cols st) ph) as [L|L].
  - rewrite (proj2 (Z.eqb_neq _ _)) by lia. cbv zeta. rewrite Z.quot_div_nonneg by lia.
    assert (Hk1 : 0 < ph / text_cols st - text_rows st + 1) by nia.
    assert (Ek : ph / text_cols st - text_rows st + 1 = k) by (rewrite Kk; unfold rows_scrolled; lia). rewrite Ek in *.
    rewrite (proj2 (Z.ltb_ge _ _)) by lia. eexists. split; [reflexivity|].
    destruct (scroll_spec st k) as ((E1 & E2 & E3) & Sc & Sf & _); [assumption|nia|assumption|assumption|]. split_and!; try assumption.
    intros i Hi. rewrite Sc by exact Hi. case_test; [rewrite Hcell by lia; f_equal; lia|]. symmetry. apply Hblank. lia.
  - assert (k = 0) as -> by (rewrite Kk; unfold rows_scrolled; assert (ph / text_cols st < text_rows st) by (apply Z.div_lt_upper_bound; lia); lia). exists st. rewrite Z.mul_0_l, Z.sub_0_r, Z.add_0_r. split_and!; auto.
Qed.

Lemma string_attr_range attr fg bg : 0 <= attr < 256 -> 0 <= string_attr attr fg bg < 256.
Proof.
  intros Ha. unfold string_attr. cbv zeta. destruct (0 <=? bg); [apply u8_range|]. destruct (0 <=? fg); [apply u8_range|exact Ha].
Qed.

(** C23: printing is writing on an endless sheet of paper of which the screen shows the
    last rows.  When the screen shows a sheet, and the string, with its line breaks and
    backspaces, keeps from its first character to its end within the part of the sheet that
    the screen shows once the end is on it ([keeps_within]), then after printing it at the
    cursor the screen shows the same sheet with the string typed on it, further down by as
    many rows as it takes for the end of the string to be on the screen, with the cursor
    behind the string; and nothing outside of the screen has changed.  (The string itself
    lies outside of the screen's memory and is shorter than 4 GiB.  One that leaves that
    part on its way is not printed so: [Runs.long_text], and with backspaces
    [Runs.backspace_lost].) *)
Theorem prints_on_paper (st : vga D) (p : paper) (base pos str fg bg : Z) (l : list Z) :
  let rows := text_rows st in let cols := text_cols st in
  let attr := string_attr (current_attr st) fg bg in
  let k := rows_scrolled rows cols (end_position cols l pos - base) in
  shows st p base pos -> cstr (vid_mem st) str l -> Z.of_nat (length l) < 2 ^ 32 - 1 ->
  (forall a, str <= a <= str + Z.of_nat (length l) -> off_screen (rows * cols) a) ->
  keeps_within cols l pos (base + k * cols) (base + k * cols + rows * cols) ->
  exists st', video_vga_prints str (-1) fg bg true st = Ret st' /\
    shows st' (typed cols attr l (p, pos)).1 (base + k * cols) (typed cols attr l (p, pos)).2 /\
    (forall a, off_screen (rows * cols) a -> load8 (vid_mem st') a = load8 (vid_mem st) a).
Proof.
  cbv zeta. intros S C Len Off Kp. pose proof S as [(Hr & Hc & Hn) Ha (Hb & Hm) Hp Hcur Hcell Hblank].
  unfold video_vga_prints. destruct (get_cursor_spec (vdev st)) as [C1 C2]. destruct l as [|b l].
  { rewrite (proj1 (cstr_nil _ _) C), Z.eqb_refl. exists st. split_and!; auto. cbn [end_position fold_left typed fst snd] in *.
    assert (E : rows_scrolled (text_rows st) (text_cols st) (pos - base) = 0).
    { unfold rows_scrolled. assert ((pos - base) / text_cols st < text_rows st) by (apply Z.div_lt_upper_bound; lia). lia. }
    now rewrite E, Z.mul_0_l, Z.add_0_r. }
  destruct (proj1 (cstr_cons _ _ _ _) C) as (Hbr & E & _). rewrite E, (proj2 (Z.eqb_neq b 0)) by lia. set (lb := b :: l) in *.
  change (-1 <? 0) with true. cbv iota. rewrite (surjective_pairing (video_vga_get_cursor (vdev st))), C1, Hcur. cbv iota zeta.
  set (st1 := with_dev (video_vga_get_cursor (vdev st)).2 st). set (attr := string_attr (current_attr st) fg bg) in *.
  assert (S1 : shows st1 p base pos) by (split; auto; cbn; rewrite C2; exact Hcur).
  destruct (make_room_spec st1 p base pos str lb attr S1 C Len Kp) as (st2 & E2 & R2 & L2 & A2 & Cells & Fr).
  change (text_rows st1) with (text_rows st) in *. change (text_cols st1) with (text_cols st) in *. change (vid_mem st1) with (vid_mem st) in *. change (current_attr st1) with (current_attr st) in *. fold attr. rewrite E2, bind_ret. cbv zeta.
  set (k := rows_scrolled _ _ _) in *. assert (Hk0 : 0 <= k * text_cols st) by (unfold k, rows_scrolled; nia). set (base' := base + k * text_cols st) in *.
  assert (Hb' : 0 <= base') by (unfold base'; lia). assert (Hm' : base' mod text_cols st = 0) by (unfold base'; now rewrite Z.mod_add by lia).
  pose proof (keeps_base _ base' _ _ _ _ Hc Hb' Hm' (Z.le_refl _) Kp) as Kb. pose proof (end_position_base _ base' _ _ _ _ Hc Hb' Hm' (Z.le_refl _) Kp) as Ee. pose proof (keeps_end _ _ _ _ _ Kp) as Hend.
  replace (base' - base') with 0 in Kb by lia. replace (base' + text_rows st * text_cols st - base') with (text_rows st * text_cols st) in Kb by lia.
  replace (pos - base - k * text_cols st) with (pos - base') by (unfold base'; lia).
  pose proof (string_attr_range (current_attr st) fg bg Ha) as Hattr. fold attr in Hattr.
  destruct (print_loop (text_cols st) (text_rows st * text_cols st) attr base' lb Hc Hattr Hb' Hm') with (m := vid_mem st2) (p := str) (o := pos - base') (pp := p)
    as (m' & El & Cl & Fl); try assumption; [eapply cstr_frame; [exact C|]; intros a Aa; apply Fr, Off, Aa|].
  rewrite R2, L2, (while_loop _ _ _ _ El) by (discriminate || lia). rewrite bind_ret. eexists. split; [reflexivity|]. rewrite Ee.
  replace (base' + (pos - base')) with pos in Cl by lia. split.
  - split; cbn [with_dev with_mem vid_mem text_rows text_cols current_attr vdev]; rewrite ?R2, ?L2, ?A2, ?typed_position; try (split_and!; auto; lia).
    + apply set_cursor_spec. lia.
    + exact Cl.
    + intros i Hi. rewrite (typed_outside _ _ _ _ _ _ _ _ Kp) by lia. apply Hblank. unfold base' in Hi. lia.
  - intros a Aa. cbn [with_dev with_mem vid_mem]. rewrite Fl by exact Aa. now apply Fr.
Qed.
End console.

(** ** The nearest colour *)

Definition distance (r g b : Z) (colour : Z * (Z * Z * Z)) : Z :=
  let '(_, (r2, g2, b2)) := colour in (r - r2) ^ 2 + (g - g2) ^ 2 + (b - b2) ^ 2.

Definition byte_colour (colour : Z * (Z * Z * Z)) : Prop :=
  let '(_, (r2, g2, b2)) := colour in 0 <= r2 < 256 /\ 0 <= g2 < 256 /\ 0 <= b2 < 256.

Lemma rgb_step_spec r g b v d colour : 0 <= r < 256 -> 0 <= g < 256 -> 0 <= b < 256 -> byte_colour colour ->
  rgb_step r g b (v, d) colour = if distance r g b colour <? d then (colour.1, distance r g b colour) else (v, d).
Proof.
  destruct colour as [w [[r2 g2] b2]]. cbn [byte_colour distance fst rgb_step snd]. intros Hr Hg Hb (Hr2 & Hg2 & Hb2).
  assert (E : forall x y, 0 <= x < 256 -> 0 <= y < 256 -> s32 (u32 (u32 x - y)) = x - y).
  { intros x y Hx Hy. rewrite (u32_small x) by lia. unfold s32, u32. rewrite Z.add_mod_idemp_l by lia.
    rewrite Z.mod_small by lia. lia. }
  unfold color_difference. rewrite !E by assumption. assert (Sq : forall d, -255 <= d <= 255 -> 0 <= d * d <= 65025) by (intros; nia).
  pose proof (Sq (r - r2) ltac:(lia)). pose proof (Sq (g - g2) ltac:(lia)). pose proof (Sq (b - b2) ltac:(lia)).
  rewrite u32_small by lia. now rewrite !Z.pow_2_r.
Qed.

(** What the search over a list has found. *)
Lemma nearest_of r g b l : 0 <= r < 256 -> 0 <= g < 256 -> 0 <= b < 256 -> Forall byte_colour l -> forall v d,
  (fold_left (rgb_step r g b) l (v, d) = (v, d) /\ Forall (fun c => d <= distance r g b c) l) \/
  (exists before c after, l = before ++ c :: after /\ fold_left (rgb_step r g b) l (v, d) = (c.1, distance r g b c) /\
    distance r g b c < d /\ Forall (fun c' => distance r g b c < distance r g b c') before /\ Forall (fun c' => distance r g b c <= distance r g b c') after).
Proof.
  intros Hr Hg Hb F. induction F as [|c l Hc F IH]; intros v d; [left; now split|]. cbn [fold_left]. rewrite rgb_step_spec by assumption.
  destruct (Z.ltb_spec (distance r g b c) d) as [L|L].
  - right. destruct (IH c.1 (distance r g b c)) as [[E G]|(bf & c' & af & -> & E & G & B & A)].
    + exists [], c, l. split_and!; auto.
    + exists (c :: bf), c', af. split_and!; [reflexivity|exact E|lia|now constructor|exact A].
  - destruct (IH v d) as [[E G]|(bf & c' & af & -> & E & G & B & A)]; [left; split; [exact E|now constructor]|].
    right. exists (c :: bf), c', af. split_and!; auto. constructor; [lia|exact B].
Qed.

(** video_vga_rgb returns the colour of the palette that is nearest to the one asked
    for, the first of them when several are as near. *)
Theorem rgb_nearest (r g b : Z) : 0 <= r < 256 -> 0 <= g < 256 -> 0 <= b < 256 ->
  exists before c after, vga_palette = before ++ c :: after /\ video_vga_rgb r g b = c.1 /\
    Forall (fun c' => distance r g b c < distance r g b c') before /\ Forall (fun c' => distance r g b c <= distance r g b c') after.
Proof.
  intros Hr Hg Hb. assert (F : Forall byte_colour vga_palette) by (repeat constructor; lia).
  destruct (nearest_of r g b vga_palette Hr Hg Hb F 7 4294967295) as [[_ N]|(bf & c & af & E & Ef & _ & B & A)].
  - exfalso. apply Forall_cons in N as [N _]. cbn [distance] in N. nia.
  - exists bf, c, af. split_and!; auto. unfold video_vga_rgb. now rewrite Ef.
Qed.

(** ** A console *)

Module Runs.
(** The register selected and the two bytes of the cursor. *)
#[export] Instance crt_ports : Ports (Z * (Z * Z)) := {
  port_inb d p := (if p =? PORT_SCREEN_DATA then if d.1 =? 15 then u8 d.2.1 else if d.1 =? 14 then u8 d.2.2 else 0 else 0, d);
  port_inw d p := (0, d);
  port_outb d p v :=
    if p =? PORT_SCREEN_CTRL then (v, d.2)
    else if d.1 =? 15 then (d.1, (v, d.2.2)) else if d.1 =? 14 then (d.1, (d.2.1, v)) else d;
  port_outw d p v := d;
}.
#[export] Program Instance crt : CrtController (Z * (Z * Z)) := {
  crt_index d := d.1;
  crt_reg d i := if i =? 15 then u8 d.2.1 else if i =? 14 then u8 d.2.2 else 0;
}.
Next Obligation. intros [x [lo hi]] i. cbn. repeat case_match; [apply u8_range|apply u8_range|lia]. Qed.
Next Obligation. now intros [x [lo hi]] v. Qed.
Next Obligation.
  intros [x [lo hi]] v i X V. cbn in *. destruct X as [->| ->]; cbn; (split; [reflexivity|]); repeat case_match; zbool; subst; try lia; auto using u8_small.
Qed.
Next Obligation. intros. now split_and!. Qed.

(** A screen of two rows and three columns, after start-up; a string somewhere else. *)
Definition console (l : list Z) : vga (Z * (Z * Z)) := Vga (put ∅ 100 (l ++ [0])) 7 2 3 (0, (4, 0)).
Definition sheet : paper := fun i => if i <? 6 then (0, 0) else blank 7.

Definition hello : list Z := [105; 10; 121; 111; 8; 111].
Lemma console_shows l : (length l < 100)%nat -> shows (console l) sheet 0 4.
Proof.
  intros Hl. assert (F : forall a, 200 <= a -> load8 (put ∅ 100 (l ++ [0])) a = 0).
  { intros a A. assert (G : forall k p, p + Z.of_nat (length k) <= a -> load8 (put ∅ p k) a = 0).
    { induction k as [|b k IH]; intros p P; cbn [put length] in *; [reflexivity|]. rewrite load8_store8, (proj2 (Z.eqb_neq _ _)) by lia. apply IH. lia. }
    apply G. rewrite length_app. cbn. lia. }
  split; cbn [text_rows text_cols current_attr vdev vid_mem console]; try reflexivity; try (split_and!; try reflexivity; lia).
  - intros i Hi. unfold cell, sheet, VIDEO_START. rewrite !F by lia. now rewrite (proj2 (Z.ltb_lt _ _)) by lia.
  - intros i Hi. unfold sheet. now rewrite (proj2 (Z.ltb_ge _ _)) by lia.
Qed.

Lemma prints_witness : exists st', video_vga_prints 100 (-1) 2 (-1) true (console hello) = Ret st' /\
  shows st' (typed 3 2 hello (sheet, 4)).1 3 (typed 3 2 hello (sheet, 4)).2 /\
  (forall a, off_screen 6 a -> load8 (vid_mem st') a = load8 (vid_mem (console hello)) a).
Proof.
  apply (prints_on_paper (console hello) sheet 0 4 100 2 (-1) hello).
  - apply console_shows. cbn. lia.
  - by_string.
  - cbn. lia.
  - intros a A. cbn in A. left. unfold VIDEO_START. lia.
  - by_eval.
Defined.

Lemma rgb_nearest_witness : exists before c after, vga_palette = before ++ c :: after /\ video_vga_rgb 200 20 30 = c.1 /\
  Forall (fun c' => distance 200 20 30 c < distance 200 20 30 c') before /\ Forall (fun c' => distance 200 20 30 c <= distance 200 20 30 c') after.
Proof. apply (rgb_nearest 200 20 30); lia. Defined.

(** What is on the screen. *)
Definition screen (o : outcome (vga (Z * (Z * Z)))) : list (Z * Z) :=
  match o with Ret st => map (cell (vid_mem st)) (seqZ 0 (text_rows st * text_cols st)) | _ => [] end.

(** A text longer than the screen leaves its beginning on it, not its end. *)
Example long_text : map fst (screen (video_vga_prints 100 (-1) (-1) (-1) true (console [97; 98; 99; 100; 101; 102; 103; 104; 105; 106]))) = [97; 98; 99; 100; 101; 102].
Proof. vm_compute. reflexivity. Qed.

(** Typed in the last two places of the screen and taken back, the b stays, and the cursor
    is left behind the screen: printing stops there before the backspace. *)
Example backspace_lost : let r := video_vga_prints 100 (-1) (-1) (-1) true (console [97; 98; 8]) in
  (map fst (screen r), match r with Ret st => cursor (vdev st) | _ => 0 end) = ([0; 0; 0; 0; 97; 98], 6).
Proof. vm_compute. reflexivity. Qed.

(** video_vga_printc ors the foreground into the old one: red on the default light grey
    is light grey. *)
Example printc_red : map snd (take 1 (screen (video_vga_printc 65 0 4 (-1) false (console [])))) = [7].
Proof. vm_compute. reflexivity. Qed.
End Runs.
