(* ===== verification/Framebuffer.v ===== *)
(** * The graphics console (kernel/src/driver/video/framebuffer.c, kernel/src/misc/psf.c)

    Pixels in a linear framebuffer of 8, 16 or 32 bits per pixel, rectangles, lines,
    circles and the text drawn with a font.  The drawing functions are related to what
    they should colour: [get_pixel] of the memory they leave. *)
From S2P Require Import Prelude Mem CString.

Definition VIDEO_START : Z := 3225419776.

(** ** Fonts *)

Definition PSF_FONT_MAGIC : Z := 2253043058.

(** The fields of the header at [font]. *)
Definition psf_magic (m : mem) (font : Z) : Z := load32 m font.
Definition psf_headersize (m : mem) (font : Z) : Z := load32 m (font + 8).
Definition psf_bytesperglyph (m : mem) (font : Z) : Z := load32 m (font + 20).
Definition psf_height (m : mem) (font : Z) : Z := load32 m (font + 24).
Definition psf_width (m : mem) (font : Z) : Z := load32 m (font + 28).

(** psf_load: did it fail, and the font in use. *)
Definition psf_load (m : mem) (font_data font : Z) : bool * Z :=
  if negb (psf_magic m font_data =? PSF_FONT_MAGIC) then (true, font) else (false, font_data).

(** Width, height and bytes of a glyph. *)
Definition psf_get_font_geometry (m : mem) (font : Z) : Z * Z * Z :=
  (s32 (psf_width m font), s32 (psf_height m font), s32 (psf_bytesperglyph m font)).

Definition psf_get_glyph (m : mem) (font chr : Z) : Z :=
  u32 (font + psf_headersize m font + chr * psf_bytesperglyph m font).

(** ** Pixels

    The video mode: bytes from one row to the next, size in pixels, bits of a pixel. *)
Record mode := Mode { fb_pitch : Z; fb_width : Z; fb_height : Z; fb_bpp : Z }.

Definition video_framebuffer_set_size (pitch bpp w h : Z) : mode := Mode (u32 pitch) (u32 w) (u32 h) (u8 bpp).
Definition video_framebuffer_get_size (md : mode) : Z * Z := (s32 (fb_width md), s32 (fb_height md)).

Definition store_pixel (bpp : Z) (a color : Z) (m : mem) : mem :=
  if bpp =? 8 then store8 m a color
  else if bpp =? 16 then store16 m a color
  else if bpp =? 32 then store32 m a color
  else m.

Definition video_framebuffer_plot_pixel (md : mode) (x y color : Z) (m : mem) : mem :=
  let x := u32 x in
  let y := u32 y in
  if (fb_width md <=? x) || (fb_height md <=? y) then m
  else store_pixel (fb_bpp md) (VIDEO_START + u32 (y * fb_pitch md) + x * (fb_bpp md / 8)) color m.

Definition video_framebuffer_get_pixel (md : mode) (x y : Z) (m : mem) : Z :=
  let x := u32 x in
  let y := u32 y in
  if (fb_width md <=? x) || (fb_height md <=? y) then 0
  else
    let a := VIDEO_START + u32 (y * fb_pitch md) + x * (fb_bpp md / 8) in
    if fb_bpp md =? 8 then load8 m a
    else if fb_bpp md =? 16 then load16 m a
    else if fb_bpp md =? 32 then s32 (load32 m a)
    else 0.

Definition video_framebuffer_rgb (r g b : Z) : Z := Z.lor (Z.lor (Z.shiftl r 16) (Z.shiftl g 8)) b.

(** ** Shapes *)

(** A coordinate that is not on the screen is taken for the last one. *)
Definition clamp (size v : Z) : Z := if size <=? u32 v then s32 (u32 (size - 1)) else v.

(** The pointer and the memory after a pixel, after a row. *)
Definition fill_pixel (md : mode) (color : Z) '((fb, m) : Z * mem) : Z * mem :=
  (fb + fb_bpp md / 8, store_pixel (fb_bpp md) fb color m).
Definition fill_row (md : mode) (x0 x1 color : Z) '((fb, m) : Z * mem) : Z * mem :=
  let '(fb, m) := for_range (fun _ => fill_pixel md color) x0 (Z.to_nat (x1 - x0 + 1)) (fb, m) in
  (fb + (fb_pitch md - (x1 - x0 + 1) * (fb_bpp md / 8)), m).

Definition video_framebuffer_fill_rectangle (md : mode) (x0 y0 x1 y1 color : Z) (m : mem) : mem :=
  let x0 := clamp (fb_width md) x0 in
  let x1 := clamp (fb_width md) x1 in
  let y0 := clamp (fb_height md) y0 in
  let y1 := clamp (fb_height md) y1 in
  let '(x0, x1) := if x1 - x0 <? 0 then (x1, x0) else (x0, x1) in
  let '(y0, y1) := if y1 - y0 <? 0 then (y1, y0) else (y0, y1) in
  let fb := VIDEO_START + (u32 (y0 * fb_pitch md) + x0 * (fb_bpp md / 8)) in
  (for_range (fun _ => fill_row md x0 x1 color) y0 (Z.to_nat (y1 - y0 + 1)) (fb, m)).2.

(** One column of a line that is flatter than steep. *)
Definition line_low_step (md : mode) (dx dy yi color : Z) (x : Z) '((y, D, m) : Z * Z * mem) : Z * Z * mem :=
  let m := video_framebuffer_plot_pixel md x y color m in
  if 0 <? D then (y + yi, D + 2 * (dy - dx), m) else (y, D + 2 * dy, m).
Definition draw_line_low (md : mode) (x0 y0 x1 y1 color : Z) (m : mem) : mem :=
  let dx := x1 - x0 in
  let dy := y1 - y0 in
  let '(yi, dy) := if dy <? 0 then (-1, dy * -1) else (1, dy) in
  (for_range (line_low_step md dx dy yi color) x0 (Z.to_nat (x1 - x0 + 1)) (y0, 2 * dy - dx, m)).2.

(** One row of a line that is steeper. *)
Definition line_high_step (md : mode) (dx dy xi color : Z) (y : Z) '((x, D, m) : Z * Z * mem) : Z * Z * mem :=
  let m := video_framebuffer_plot_pixel md x y color m in
  if 0 <? D then (x + xi, D + 2 * (dx - dy), m) else (x, D + 2 * dx, m).
Definition draw_line_high (md : mode) (x0 y0 x1 y1 color : Z) (m : mem) : mem :=
  let dx := x1 - x0 in
  let dy := y1 - y0 in
  let '(xi, dx) := if dx <? 0 then (-1, dx * -1) else (1, dx) in
  (for_range (line_high_step md dx dy xi color) y0 (Z.to_nat (y1 - y0 + 1)) (x0, 2 * dx - dy, m)).2.

Definition video_framebuffer_draw_line (md : mode) (x0 y0 x1 y1 color : Z) (m : mem) : mem :=
  let dy := if y1 <? y0 then y0 - y1 else y1 - y0 in
  let dx := if x1 <? x0 then x0 - x1 else x1 - x0 in
  if dy <? dx then
    if x1 <? x0 then draw_line_low md x1 y1 x0 y0 color m else draw_line_low md x0 y0 x1 y1 color m
  else if y1 <? y0 then draw_line_high md x1 y1 x0 y0 color m else draw_line_high md x0 y0 x1 y1 color m.

Definition plot_points (md : mode) (x0 y0 color : Z) (points : list (Z * Z)) (m : mem) : mem :=
  fold_left (fun m '(x, y) => video_framebuffer_plot_pixel md (x + x0) (y + y0) color m) points m.

(** The pixels drawn for a point of the first octant, in all of them. *)
Definition octants (x y : Z) : list (Z * Z) :=
  [(x, y); (- x, y); (x, - y); (- x, - y)] ++ (if x =? y then [] else [(y, x); (- y, x); (y, - x); (- y, - x)]).

Definition circle_step (md : mode) (x0 y0 color : Z) '((x, y, P, m) : Z * Z * Z * mem) : outcome (Z * Z * Z * mem + mem) :=
  if y <? x then
    let y := y + 1 in
    let '(x, P) := if P <=? 0 then (x, P + (2 * y + 1)) else (x - 1, P + (2 * (y - (x - 1)) + 1)) in
    if x <? y then Ret (inr m) else Ret (inl (x, y, P, plot_points md x0 y0 color (octants x y) m))
  else Ret (inr m).
Definition video_framebuffer_draw_circle (md : mode) (x0 y0 r color : Z) (m : mem) : outcome mem :=
  let m := plot_points md x0 y0 color [(r, 0); (r, - 0); (0, r); (- 0, r)] m in
  while (circle_step md x0 y0 color) (r, 0, 1 - r, m).

(** ** The text console *)

(** [cursor_buffer] holds the pixels behind the cursor, 1024 at most. *)
Record fbcon := Fbcon {
  fmem : mem;
  fmode : mode;
  current_fg : Z;
  current_bg : Z;
  text_rows : Z;
  text_cols : Z;
  cursor_posx : Z;
  cursor_posy : Z;
  font : Z;
  font_width : Z;
  font_height : Z;
  font_bpg : Z;
  cursor_buffer : list Z;
  cursor_buffer_posx : Z;
  cursor_buffer_posy : Z;
}.

Definition with_fmem (m : mem) (st : fbcon) : fbcon :=
  Fbcon m (fmode st) (current_fg st) (current_bg st) (text_rows st) (text_cols st) (cursor_posx st) (cursor_posy st)
    (font st) (font_width st) (font_height st) (font_bpg st) (cursor_buffer st) (cursor_buffer_posx st) (cursor_buffer_posy st).
Definition with_cursor (x y : Z) (st : fbcon) : fbcon :=
  Fbcon (fmem st) (fmode st) (current_fg st) (current_bg st) (text_rows st) (text_cols st) x y
    (font st) (font_width st) (font_height st) (font_bpg st) (cursor_buffer st) (cursor_buffer_posx st) (cursor_buffer_posy st).
Definition with_buffer (b : list Z) (x y : Z) (st : fbcon) : fbcon :=
  Fbcon (fmem st) (fmode st) (current_fg st) (current_bg st) (text_rows st) (text_cols st) (cursor_posx st) (cursor_posy st)
    (font st) (font_width st) (font_height st) (font_bpg st) b x y.

Definition video_framebuffer_set_attr (fg bg : Z) (st : fbcon) : fbcon :=
  Fbcon (fmem st) (fmode st) fg bg (text_rows st) (text_cols st) (cursor_posx st) (cursor_posy st)
    (font st) (font_width st) (font_height st) (font_bpg st) (cursor_buffer st) (cursor_buffer_posx st) (cursor_buffer_posy st).

Definition video_framebuffer_set_font_size (cw ch bpg : Z) (st : fbcon) : outcome fbcon :=
  if (cw =? 0) || (ch =? 0) then Fault
  else Ret (Fbcon (fmem st) (fmode st) (current_fg st) (current_bg st)
    (s32 (fb_height (fmode st) / u32 ch)) (s32 (fb_width (fmode st) / u32 cw)) (cursor_posx st) (cursor_posy st)
    (font st) cw ch bpg (cursor_buffer st) (cursor_buffer_posx st) (cursor_buffer_posy st)).
Definition video_framebuffer_get_font_size (st : fbcon) : Z * Z := (font_width st, font_height st).
Definition video_framebuffer_get_rowcol (st : fbcon) : Z * Z := (text_cols st, text_rows st).

(** Did it fail, and the console. *)
Definition video_framebuffer_set_font (font_data : Z) (st : fbcon) : outcome (bool * fbcon) :=
  let '(failed, f) := psf_load (fmem st) font_data (font st) in
  if failed : bool then Ret (true, st)
  else
    let st := Fbcon (fmem st) (fmode st) (current_fg st) (current_bg st) (text_rows st) (text_cols st) (cursor_posx st) (cursor_posy st)
      f (font_width st) (font_height st) (font_bpg st) (cursor_buffer st) (cursor_buffer_posx st) (cursor_buffer_posy st) in
    let '(w, h, bpg) := psf_get_font_geometry (fmem st) f in
    st ← video_framebuffer_set_font_size w h bpg st;
    Ret (false, with_cursor 0 0 st).

(** Where a row of the screen is after the text has moved up. *)
Definition scrolled_row (y amount : Z) : Z := if s32 amount <=? y then y - amount else 0.

Definition scroll_screen (amount : Z) (st : fbcon) : fbcon :=
  if amount =? 0 then st
  else if text_rows st <=? s32 amount then
    let m := memset (fmem st) VIDEO_START 0 (u32 (text_rows st * font_height st * fb_pitch (fmode st))) in
    with_buffer (cursor_buffer st) (cursor_buffer_posx st) 0 (with_cursor (cursor_posx st) 0 (with_fmem m st))
  else
    let bytes_per_row := u32 (font_height st * fb_pitch (fmode st)) in
    let bytes_to_move := u32 ((text_rows st - amount) * bytes_per_row) in
    let offset_bytes := u32 (amount * bytes_per_row) in
    let m := memmove (fmem st) VIDEO_START (VIDEO_START + offset_bytes) bytes_to_move in
    let m := memset m (VIDEO_START + bytes_to_move) 0 offset_bytes in
    with_buffer (cursor_buffer st) (cursor_buffer_posx st) (scrolled_row (cursor_buffer_posy st) amount)
      (with_cursor (cursor_posx st) (scrolled_row (cursor_posy st) amount) (with_fmem m st)).

(** ** The cursor *)

Definition video_framebuffer_get_cursor (st : fbcon) : Z := cursor_posy st * text_cols st + cursor_posx st.

(** Column and row of an offset. *)
Definition split_offset (st : fbcon) (offset : Z) : outcome (Z * Z) :=
  if text_cols st =? 0 then Fault else Ret (Z.rem offset (text_cols st), Z.quot offset (text_cols st)).
Definition video_framebuffer_set_cursor (offset : Z) (st : fbcon) : outcome fbcon :=
  '(x, y) ← split_offset st offset; Ret (with_cursor x y st).

Definition video_framebuffer_cls (bg : Z) (st : fbcon) : fbcon :=
  let md := fmode st in
  with_cursor 0 0 (with_fmem (video_framebuffer_fill_rectangle md 0 0 (s32 (u32 (fb_width md - 1))) (s32 (u32 (fb_height md - 1))) bg (fmem st)) st).

(** The pixels behind the cursor, put back. *)
Definition load_cursor_pixel (st : fbcon) (x y : Z) (m : mem) : outcome mem :=
  c ← of_option (cursor_buffer st !! Z.to_nat (y * font_width st + x));
  Ret (video_framebuffer_plot_pixel (fmode st) (x + cursor_buffer_posx st * font_width st) (y + cursor_buffer_posy st * font_height st) c m).
Definition load_cursor_buffer (st : fbcon) : outcome fbcon :=
  m ← for_range (fun y m => for_range (fun x m => m ← m; load_cursor_pixel st x y m) 0 (Z.to_nat (font_width st)) m)
        0 (Z.to_nat (font_height st)) (Ret (fmem st));
  Ret (with_fmem m st).

(** The cursor is a block of one colour. *)
Definition draw_cursor_pixel (load_buffer : bool) (x y : Z) (st : fbcon) : outcome fbcon :=
  let md := fmode st in
  m ← (if load_buffer then load_cursor_pixel st x y (fmem st) else Ret (fmem st));
  let cx := x + cursor_posx st * font_width st in
  let cy := y + cursor_posy st * font_height st in
  let i := Z.to_nat (y * font_width st + x) in
  _ ← of_option (cursor_buffer st !! i);
  let b := <[i := video_framebuffer_get_pixel md cx cy m]> (cursor_buffer st) in
  let m := video_framebuffer_plot_pixel md cx cy (video_framebuffer_rgb 180 170 170) m in
  Ret (with_buffer b (cursor_buffer_posx st) (cursor_buffer_posy st) (with_fmem m st)).
Definition draw_cursor (load_buffer : bool) (st : fbcon) : outcome fbcon :=
  st ← for_range (fun y o => for_range (fun x o => st ← o; draw_cursor_pixel load_buffer x y st) 0 (Z.to_nat (font_width st)) o)
         0 (Z.to_nat (font_height st)) (Ret st);
  Ret (with_buffer (cursor_buffer st) (cursor_posx st) (cursor_posy st) st).

(** ** Printing *)

(** The pixels of one byte of a glyph, from its highest bit on. *)
Definition glyph_pixel (md : mode) (byte px py fg bg : Z) (j : Z) (m : mem) : mem :=
  video_framebuffer_plot_pixel md (px + j) py (if Z.land (Z.shiftr byte (7 - j)) 1 =? 0 then bg else fg) m.

(** One byte of the glyph: [col] and [line] are where it is in the cell at [px], [py]. *)
Definition glyph_byte (md : mode) (width glyph px py fg bg : Z) (i : Z) '((col, line, m) : Z * Z * mem) : Z * Z * mem :=
  let remain_width := Z.min (width - col) 8 in
  let m := for_range (glyph_pixel md (load8 m (glyph + i)) (px + col) (py + line) fg bg) 0 (Z.to_nat remain_width) m in
  let col := col + remain_width in
  if width <=? col then (0, line + 1, m) else (col, line, m).
Definition draw_glyph (md : mode) (width bpg glyph px py fg bg : Z) (m : mem) : mem :=
  (for_range (glyph_byte md width glyph px py fg bg) 0 (Z.to_nat bpg) (0, 0, m)).2.

(** printc: the new column and row and the memory. *)
Definition printc (st : fbcon) (chr fg bg : Z) (calculate : bool) '((x, y, m) : Z * Z * mem) : Z * Z * mem :=
  let '(x, y, m) :=
    if chr =? 10 then (0, y + 1, m)
    else if chr =? 8 then
      let '(x, y) := if x - 1 <? 0 then (text_cols st - 1, if y - 1 <? 0 then 0 else y - 1) else (x - 1, y) in
      (x, y, if calculate then m else
        video_framebuffer_fill_rectangle (fmode st) (x * font_width st) (y * font_height st) ((x + 1) * font_width st) ((y + 1) * font_height st) bg m)
    else
      (x + 1, y, if calculate then m else
        draw_glyph (fmode st) (font_width st) (font_bpg st) (psf_get_glyph m (font st) chr) (x * font_width st) (y * font_height st) fg bg m) in
  if x =? text_cols st then (0, y + 1, m) else (x, y, m).

Definition video_framebuffer_printc (chr offset fg bg : Z) (move : bool) (st : fbcon) : outcome fbcon :=
  if chr =? 0 then Ret st
  else
    let fg := if fg <? 0 then current_fg st else fg in
    let bg := if bg <? 0 then current_bg st else bg in
    '(x, y) ← (if 0 <=? offset then split_offset st offset else Ret (cursor_posx st, cursor_posy st));
    let '(x, y, m) := printc st chr fg bg false (x, y, fmem st) in
    let st := with_fmem m st in
    let st :=
      if move then
        let st := with_cursor x y st in
        if cursor_posy st =? text_rows st then scroll_screen 1 st else st
      else st in
    draw_cursor ((chr =? 10) || (chr =? 8)) st.

(** The column and row the string would end at. *)
Definition phantom_step (st : fbcon) (fg bg : Z) (m : mem) '((p, x, y) : Z * Z * Z) : outcome (Z * Z * Z + Z * Z) :=
  if load8 m p =? 0 then Ret (inr (x, y))
  else let '(x, y, _) := printc st (s8 (load8 m p)) fg bg true (x, y, m) in Ret (inl (p + 1, x, y)).

Definition print_step (st : fbcon) (fg bg : Z) '((p, x, y, m) : Z * Z * Z * mem) : outcome (Z * Z * Z * mem + Z * Z * mem) :=
  if load8 m p =? 0 then Ret (inr (x, y, m))
  else if text_rows st <=? y then Ret (inr (x, y, m))
  else let '(x, y, m) := printc st (s8 (load8 m p)) fg bg false (x, y, m) in Ret (inl (p + 1, x, y, m)).

Definition video_framebuffer_prints (str offset fg bg : Z) (move : bool) (st : fbcon) : outcome fbcon :=
  if load8 (fmem st) str =? 0 then Ret st
  else
    st ← load_cursor_buffer st;
    let fg := if fg <? 0 then current_fg st else fg in
    let bg := if bg <? 0 then current_bg st else bg in
    '(x, y) ← (if 0 <=? offset then split_offset st offset else Ret (cursor_posx st, cursor_posy st));
    '(y, st) ←
      (if move then
         '(_, phantomy) ← while (phantom_step st fg bg (fmem st)) (str, x, y);
         if text_rows st <=? phantomy then
           let scroll_amount := phantomy - text_rows st + 1 in
           Ret (Z.max 0 (y - scroll_amount), scroll_screen (u32 scroll_amount) st)
         else Ret (y, st)
       else Ret (y, st));
    '(x, y, m) ← while (print_step st fg bg) (str, x, y, fmem st);
    let st := with_fmem m st in
    let st := if move then with_cursor x y st else st in
    draw_cursor false st.

(** ** Reading what was drawn *)

(** A mode whose rows do not overlap, in a buffer that stays inside the address space. *)
Record wf_mode (md : mode) : Prop := {
  wf_width : 0 < fb_width md <= 2 ^ 16;
  wf_height : 0 < fb_height md <= 2 ^ 16;
  wf_bpp : fb_bpp md = 8 \/ fb_bpp md = 16 \/ fb_bpp md = 32;
  wf_rows : fb_width md * (fb_bpp md / 8) <= fb_pitch md;
  wf_buffer : fb_height md * fb_pitch md < 2 ^ 30;
}.

Definition on_screen (md : mode) (x y : Z) : Prop := 0 <= x < fb_width md /\ 0 <= y < fb_height md.

(** What a pixel can hold of a colour. *)
Definition pixel_value (md : mode) (color : Z) : Z :=
  if fb_bpp md =? 8 then u8 color else if fb_bpp md =? 16 then u16 color else s32 (u32 color).

Definition pixel_address (md : mode) (x y : Z) : Z := VIDEO_START + y * fb_pitch md + x * (fb_bpp md / 8).

Definition load_pixel (bpp a : Z) (m : mem) : Z :=
  if bpp =? 8 then load8 m a else if bpp =? 16 then load16 m a else if bpp =? 32 then s32 (load32 m a) else 0.

Section drawing.
Context (md : mode) (W : wf_mode md).

Abbreviation size := (fb_bpp md / 8).
Abbreviation get := (video_framebuffer_get_pixel md).

Lemma size_cases : fb_bpp md = 8 /\ size = 1 \/ fb_bpp md = 16 /\ size = 2 \/ fb_bpp md = 32 /\ size = 4.
Proof. destruct (wf_bpp _ W) as [E|[E|E]]; rewrite E; auto. Qed.

Lemma load_store_pixel a color m : load_pixel (fb_bpp md) a (store_pixel (fb_bpp md) a color m) = pixel_value md color.
Proof.
  unfold load_pixel, store_pixel, pixel_value. destruct size_cases as [[-> _]|[[-> _]|[-> _]]]; cbn [Z.eqb Pos.eqb].
  - now rewrite load8_store8, Z.eqb_refl.
  - apply load16_store16.
  - now rewrite load32_store32.
Qed.

Lemma load_store_pixel_ne a b color m : b + size <= a \/ a + size <= b ->
  load_pixel (fb_bpp md) b (store_pixel (fb_bpp md) a color m) = load_pixel (fb_bpp md) b m.
Proof.
  unfold load_pixel, store_pixel. destruct size_cases as [[-> ->]|[[-> ->]|[-> ->]]]; cbn [Z.eqb Pos.eqb]; intros A.
  - now rewrite load8_store8, (proj2 (Z.eqb_neq _ _)) by lia.
  - now rewrite load16_store16_ne.
  - now rewrite load32_store32_ne.
Qed.

Lemma load8_store_pixel_ne a b color m : b < a \/ a + size <= b -> load8 (store_pixel (fb_bpp md) a color m) b = load8 m b.
Proof.
  unfold store_pixel. destruct size_cases as [[-> ->]|[[-> ->]|[-> ->]]]; cbn [Z.eqb Pos.eqb]; intros A.
  - now rewrite load8_store8, (proj2 (Z.eqb_neq _ _)) by lia.
  - now rewrite load8_store16, !(proj2 (Z.eqb_neq _ _)) by lia.
  - now rewrite load8_store32_ne by lia.
Qed.

Lemma size_pos : 0 < size <= 4.
Proof. destruct size_cases as [[_ ->]|[[_ ->]|[_ ->]]]; lia. Qed.

(** Different pixels are different bytes. *)
Lemma pixel_disjoint x y x' y' : on_screen md x y -> on_screen md x' y' -> (x, y) <> (x', y') ->
  pixel_address md x y + size <= pixel_address md x' y' \/ pixel_address md x' y' + size <= pixel_address md x y.
Proof.
  intros [Hx Hy] [Hx' Hy'] N. pose proof size_pos as S. pose proof (wf_rows _ W) as R. unfold pixel_address.
  generalize dependent size. intros s S R. generalize dependent (fb_pitch md). intros p R.
  assert (P : 0 <= p) by nia. assert (G : forall a b, 0 <= a < fb_width md -> 0 <= b -> a * s + s <= p + b * s) by (intros; nia).
  destruct (Z.lt_trichotomy y y') as [L|[->|L]].
  - left. pose proof (G x x' Hx ltac:(lia)). assert (y * p + p <= y' * p) by nia. lia.
  - assert (x <> x') by congruence. assert (x * s + s <= x' * s \/ x' * s + s <= x * s) by (destruct (Z.lt_ge_cases x x'); [left|right]; nia). lia.
  - right. pose proof (G x' x Hx' ltac:(lia)). assert (y' * p + p <= y * p) by nia. lia.
Qed.

Lemma pixel_inside x y : on_screen md x y -> VIDEO_START <= pixel_address md x y /\ pixel_address md x y + size <= VIDEO_START + fb_height md * fb_pitch md.
Proof.
  intros [Hx Hy]. pose proof size_pos as S. pose proof (wf_rows _ W) as R. unfold pixel_address.
  generalize dependent size. intros s S R. generalize dependent (fb_pitch md). intros p R.
  assert (x * s + s <= p) by nia. assert (0 <= x * s) by nia. assert (0 <= p) by nia. assert (0 <= y * p) by nia.
  assert (y * p + p <= fb_height md * p) by nia. lia.
Qed.

Lemma row_offset y : 0 <= y < fb_height md -> u32 (y * fb_pitch md) = y * fb_pitch md.
Proof.
  intros Hy. apply u32_small. pose proof (wf_buffer _ W). pose proof size_pos. pose proof (wf_rows _ W). pose proof (wf_width _ W).
  assert (0 <= fb_pitch md) by nia. nia.
Qed.

Lemma get_pixel_eq x y m : on_screen md x y -> get x y m = load_pixel (fb_bpp md) (pixel_address md x y) m.
Proof.
  intros [Hx Hy]. pose proof (wf_width _ W). pose proof (wf_height _ W). unfold video_framebuffer_get_pixel. rewrite !u32_small by lia.
  rewrite (proj2 (Z.leb_gt _ _)), (proj2 (Z.leb_gt (fb_height md) y)) by lia. cbn [orb].
  fold (u32 (y * fb_pitch md)). rewrite row_offset by exact Hy. reflexivity.
Qed.

Lemma plot_pixel_eq x y color m : on_screen md x y ->
  video_framebuffer_plot_pixel md x y color m = store_pixel (fb_bpp md) (pixel_address md x y) color m.
Proof.
  intros [Hx Hy]. pose proof (wf_width _ W). pose proof (wf_height _ W). unfold video_framebuffer_plot_pixel. rewrite !u32_small by lia.
  rewrite (proj2 (Z.leb_gt _ _)), (proj2 (Z.leb_gt (fb_height md) y)) by lia. cbn [orb].
  fold (u32 (y * fb_pitch md)). rewrite row_offset by exact Hy. reflexivity.
Qed.

(** Coordinates for which [int] arithmetic does not overflow. *)
Definition int_ok (v : Z) : Prop := - 2 ^ 30 <= v <= 2 ^ 30.

Lemma plot_off_screen x y color m : int_ok x -> int_ok y -> ~ on_screen md x y -> video_framebuffer_plot_pixel md x y color m = m.
Proof.
  unfold int_ok. intros Hx Hy N. pose proof (wf_width _ W). pose proof (wf_height _ W). unfold video_framebuffer_plot_pixel.
  assert (E : forall v s, - 2 ^ 30 <= v <= 2 ^ 30 -> 0 < s <= 2 ^ 16 -> ~ (0 <= v < s) -> (s <=? u32 v) = true).
  { intros v s Hv Hs Nv. apply Z.leb_le. destruct (Z.lt_ge_cases v 0); [|rewrite u32_small; lia].
    unfold u32. rewrite <- (Z.mod_unique_pos v (2 ^ 32) (-1) (v + 2 ^ 32)); lia. }
  destruct (decide (0 <= x < fb_width md)) as [Dx|Dx]; [|now rewrite (E x) by lia].
  rewrite (E y) by (unfold on_screen in N; lia). now rewrite orb_true_r.
Qed.

(** A pixel that is plotted is read back, and no other one changes. *)
Lemma get_plot x y color m x' y' : int_ok x -> int_ok y -> on_screen md x' y' ->
  get x' y' (video_framebuffer_plot_pixel md x y color m) = if (x' =? x) && (y' =? y) then pixel_value md color else get x' y' m.
Proof.
  intros Hx Hy S'. destruct (decide (0 <= x < fb_width md /\ 0 <= y < fb_height md)) as [S|N].
  - rewrite plot_pixel_eq by exact S. rewrite !get_pixel_eq by exact S'.
    destruct (Z.eqb_spec x' x) as [->|Nx], (Z.eqb_spec y' y) as [->|Ny]; cbn [andb]; [apply load_store_pixel|..].
    all: apply load_store_pixel_ne; apply or_comm, pixel_disjoint; [exact S|exact S'|congruence].
  - rewrite plot_off_screen by assumption. replace ((x' =? x) && (y' =? y)) with false; [reflexivity|]. unfold on_screen in *. lia.
Qed.

(** Only the framebuffer is written. *)
Lemma plot_frame x y color m a : int_ok x -> int_ok y -> a < VIDEO_START \/ VIDEO_START + fb_height md * fb_pitch md <= a ->
  load8 (video_framebuffer_plot_pixel md x y color m) a = load8 m a.
Proof.
  intros Hx Hy A. destruct (decide (0 <= x < fb_width md /\ 0 <= y < fb_height md)) as [S|N]; [|now rewrite plot_off_screen].
  rewrite plot_pixel_eq by exact S. apply load8_store_pixel_ne. pose proof (pixel_inside x y S). lia.
Qed.
End drawing.
Arguments get_plot {md} W.

(** ** Lines

    Both loops go along the longer side, [a], and follow the other one, [b]; [plot] and
    [at_] draw and read with the coordinates in this order. *)
Section following.
Context (plot : Z -> Z -> mem -> mem) (at_ : Z -> Z -> mem -> Z) (inside : Z -> Z -> Prop) (v : Z).
Hypothesis at_plot : forall a b m a' b', int_ok a -> int_ok b -> inside a' b' ->
  at_ a' b' (plot a b m) = if (a' =? a) && (b' =? b) then v else at_ a' b' m.

Definition follow_step (da db bi : Z) (a : Z) '((b, D, m) : Z * Z * mem) : Z * Z * mem :=
  let m := plot a b m in if 0 <? D then (b + bi, D + 2 * (db - da), m) else (b, D + 2 * db, m).

(** The points [(a, path a)] with [a] in the range are coloured, nothing else. *)
Definition drawn (m m' : mem) (lo hi : Z) (path : Z -> Z) : Prop :=
  forall a b, inside a b -> at_ a b m' = if (lo <=? a) && (a <=? hi) && (b =? path a) then v else at_ a b m.

Lemma follow_loop a0 b0 da db bi m n : 0 <= db <= da -> bi = 1 \/ bi = -1 -> int_ok a0 -> int_ok (a0 + Z.of_nat n) ->
  - 2 ^ 28 <= b0 <= 2 ^ 28 -> Z.of_nat n <= 2 ^ 29 + 1 ->
  exists k D m' path, for_range (follow_step da db bi) a0 n (b0, 2 * db - da, m) = (b0 + bi * k, D, m') /\
    0 <= k <= Z.of_nat n /\ D = 2 * db * (Z.of_nat n + 1) - 2 * da * k - da /\ Z.abs (2 * (da * k - Z.of_nat n * db)) <= da /\
    (forall a, a0 <= a < a0 + Z.of_nat n -> Z.abs (2 * ((path a - b0) * da - (a - a0) * (bi * db))) <= da) /\
    drawn m m' a0 (a0 + Z.of_nat n - 1) path.
Proof.
  intros Hd Hbi Ha. induction n as [|n IH]; intros Han Hb Hn.
  - exists 0, (2 * db - da), m, (fun _ => 0). cbn [for_range]. split_and!; try lia; [f_equal; f_equal; lia|].
    intros a b _. now replace ((a0 <=? a) && (a <=? a0 + Z.of_nat 0 - 1)) with false by lia.
  - destruct IH as (k & D & m' & path & E & Hk & HD & Hkb & Hpath & Hdr); [unfold int_ok in *; lia|exact Hb|lia|].
    rewrite for_range_last, E. unfold follow_step. rewrite Nat2Z.inj_succ in *. set (N := Z.of_nat n) in *.
    set (m1 := plot (a0 + N) (b0 + bi * k) m'). set (path1 := fun a => if a =? a0 + N then b0 + bi * k else path a).
    assert (Hdr1 : drawn m m1 a0 (a0 + Z.succ N - 1) path1).
    { intros a b I. unfold m1. rewrite at_plot; [|unfold int_ok in *; lia|unfold int_ok in *; nia|exact I]. unfold path1. rewrite (Hdr a b I).
      destruct (Z.eqb_spec a (a0 + N)) as [->|Na].
      - replace ((a0 <=? a0 + N) && (a0 + N <=? a0 + Z.succ N - 1)) with true by lia. replace ((a0 <=? a0 + N) && (a0 + N <=? a0 + N - 1)) with false by lia. reflexivity.
      - replace (a <=? a0 + Z.succ N - 1) with (a <=? a0 + N - 1) by lia. reflexivity. }
    assert (Hpath1 : forall a, a0 <= a < a0 + Z.succ N -> Z.abs (2 * ((path1 a - b0) * da - (a - a0) * (bi * db))) <= da).
    { intros a Aa. unfold path1. destruct (Z.eqb_spec a (a0 + N)) as [->|Na]; [|apply Hpath; lia].
      destruct Hbi as [->| ->]; lia. }
    destruct (Z.ltb_spec 0 D).
    + exists (k + 1), (D + 2 * (db - da)), m1, path1. split_and!; try assumption; try lia. f_equal; f_equal; lia.
    + exists k, (D + 2 * db), m1, path1. split_and!; try assumption; try lia; try reflexivity. 
Qed.

(** The whole line, from [(a0, b0)] to [(a1, b1)]: at each [a] the point is within half
    a pixel of the exact line. *)
Lemma follow_line a0 b0 a1 b1 m : a0 <= a1 -> Z.abs (b1 - b0) <= a1 - a0 ->
  - 2 ^ 28 <= a0 <= 2 ^ 28 -> - 2 ^ 28 <= b0 <= 2 ^ 28 -> - 2 ^ 28 <= a1 <= 2 ^ 28 ->
  let m' := (for_range (follow_step (a1 - a0) (Z.abs (b1 - b0)) (if b1 - b0 <? 0 then -1 else 1)) a0 (Z.to_nat (a1 - a0 + 1))
               (b0, 2 * Z.abs (b1 - b0) - (a1 - a0), m)).2 in
  exists path, drawn m m' a0 a1 path /\
    forall a, a0 <= a <= a1 -> Z.abs (2 * ((path a - b0) * (a1 - a0) - (a - a0) * (b1 - b0))) <= a1 - a0.
Proof.
  cbv zeta. intros Ha Hab Ha0 Hb0 Ha1. set (bi := if _ <? 0 then -1 else 1).
  destruct (follow_loop a0 b0 (a1 - a0) (Z.abs (b1 - b0)) bi m (Z.to_nat (a1 - a0 + 1))) as (k & D & m' & path & E & _ & _ & _ & Hp & Hd);
    [lia|unfold bi; case_match; lia|unfold int_ok; lia|unfold int_ok; lia|lia|lia|].
  rewrite E. cbn [snd]. exists path. rewrite Z2Nat.id in Hp, Hd by lia. replace (a0 + (a1 - a0 + 1) - 1) with a1 in Hd by lia. split; [exact Hd|].
  intros a Aa. specialize (Hp a ltac:(lia)). replace (bi * Z.abs (b1 - b0)) with (b1 - b0) in Hp; [exact Hp|]. unfold bi. destruct (Z.ltb_spec (b1 - b0) 0); lia.
Qed.
End following.

(** [get] of a line: a point for each column, or for each row, within half a pixel of
    the exact line; those on the screen are coloured. *)
Definition line_drawn (md : mode) (x0 y0 x1 y1 color : Z) (m m' : mem) : Prop :=
  let get := video_framebuffer_get_pixel md in
  (Z.abs (y1 - y0) < Z.abs (x1 - x0) -> exists path,
    (forall x, Z.min x0 x1 <= x <= Z.max x0 x1 -> Z.abs (2 * ((path x - y0) * (x1 - x0) - (x - x0) * (y1 - y0))) <= Z.abs (x1 - x0)) /\
    forall x y, on_screen md x y -> get x y m' =
      if (Z.min x0 x1 <=? x) && (x <=? Z.max x0 x1) && (y =? path x) then pixel_value md color else get x y m) /\
  (Z.abs (x1 - x0) <= Z.abs (y1 - y0) -> exists path,
    (forall y, Z.min y0 y1 <= y <= Z.max y0 y1 -> Z.abs (2 * ((path y - x0) * (y1 - y0) - (y - y0) * (x1 - x0))) <= Z.abs (y1 - y0)) /\
    forall x y, on_screen md x y -> get x y m' =
      if (Z.min y0 y1 <=? y) && (y <=? Z.max y0 y1) && (x =? path y) then pixel_value md color else get x y m).

Definition coordinate (v : Z) : Prop := - 2 ^ 28 <= v <= 2 ^ 28.

Section lines.
Context (md : mode) (W : wf_mode md).

Lemma low_line x0 y0 x1 y1 color m : coordinate x0 -> coordinate y0 -> coordinate x1 -> x0 <= x1 -> Z.abs (y1 - y0) <= x1 - x0 ->
  exists path, (forall x, x0 <= x <= x1 -> Z.abs (2 * ((path x - y0) * (x1 - x0) - (x - x0) * (y1 - y0))) <= x1 - x0) /\
    forall x y, on_screen md x y -> video_framebuffer_get_pixel md x y (draw_line_low md x0 y0 x1 y1 color m) =
      if (x0 <=? x) && (x <=? x1) && (y =? path x) then pixel_value md color else video_framebuffer_get_pixel md x y m.
Proof.
  intros Hx0 Hy0 Hx1 Hx Hxy.
  destruct (follow_line (fun x y => video_framebuffer_plot_pixel md x y color) (video_framebuffer_get_pixel md) (on_screen md) (pixel_value md color))
    with (a0 := x0) (b0 := y0) (a1 := x1) (b1 := y1) (m := m) as (path & D & P); try assumption.
  { intros a b m' a' b' Ha Hb I. now apply get_plot. }
  exists path. split; [exact P|]. intros x y S. rewrite <- (D x y S). unfold draw_line_low. cbv zeta.
  replace (if y1 - y0 <? 0 then (-1, (y1 - y0) * -1) else (1, y1 - y0)) with (if y1 - y0 <? 0 then -1 else 1, Z.abs (y1 - y0)); [reflexivity|].
  case_test; f_equal; lia.
Qed.

Lemma high_line x0 y0 x1 y1 color m : coordinate x0 -> coordinate y0 -> coordinate y1 -> y0 <= y1 -> Z.abs (x1 - x0) <= y1 - y0 ->
  exists path, (forall y, y0 <= y <= y1 -> Z.abs (2 * ((path y - x0) * (y1 - y0) - (y - y0) * (x1 - x0))) <= y1 - y0) /\
    forall x y, on_screen md x y -> video_framebuffer_get_pixel md x y (draw_line_high md x0 y0 x1 y1 color m) =
      if (y0 <=? y) && (y <=? y1) && (x =? path y) then pixel_value md color else video_framebuffer_get_pixel md x y m.
Proof.
  intros Hx0 Hy0 Hy1 Hy Hxy.
  destruct (follow_line (fun y x => video_framebuffer_plot_pixel md x y color) (fun y x => video_framebuffer_get_pixel md x y) (fun y x => on_screen md x y) (pixel_value md color))
    with (a0 := y0) (b0 := x0) (a1 := y1) (b1 := x1) (m := m) as (path & D & P); try assumption.
  { intros a b m' a' b' Ha Hb I. rewrite (andb_comm (a' =? a)). now apply get_plot. }
  exists path. split; [exact P|]. intros x y S. rewrite <- (D y x S). unfold draw_line_high. cbv zeta.
  replace (if x1 - x0 <? 0 then (-1, (x1 - x0) * -1) else (1, x1 - x0)) with (if x1 - x0 <? 0 then -1 else 1, Z.abs (x1 - x0)); [reflexivity|].
  case_test; f_equal; lia.
Qed.

(** C25: a line is drawn.  Whatever its two ends, on the screen or not, for each column
    it spans, or each row where it is steep, exactly one point is coloured, within half
    a pixel of the exact line between the ends; no other pixel changes.  (The coordinates of
    the ends are between -2^28 and 2^28, so that no int overflows.) *)
Theorem draw_line_spec (x0 y0 x1 y1 color : Z) (m : mem) : coordinate x0 -> coordinate y0 -> coordinate x1 -> coordinate y1 ->
  line_drawn md x0 y0 x1 y1 color m (video_framebuffer_draw_line md x0 y0 x1 y1 color m).
Proof.
  intros Hx0 Hy0 Hx1 Hy1. unfold video_framebuffer_draw_line. cbv zeta.
  replace (if y1 <? y0 then y0 - y1 else y1 - y0) with (Z.abs (y1 - y0)) by (case_test; lia).
  replace (if x1 <? x0 then x0 - x1 else x1 - x0) with (Z.abs (x1 - x0)) by (case_test; lia).
  split; intros L.
  - rewrite (proj2 (Z.ltb_lt _ _) L). destruct (Z.ltb_spec x1 x0).
    + destruct (low_line x1 y1 x0 y0 color m) as (path & P & G); [assumption..|lia|lia|]. exists path.
      rewrite Z.min_r, Z.max_l by lia. split; [|exact G]. intros x X. specialize (P x X). lia.
    + destruct (low_line x0 y0 x1 y1 color m) as (path & P & G); [assumption..|lia|]. exists path.
      rewrite Z.min_l, Z.max_r by lia. split; [|exact G]. intros x X. specialize (P x X). lia.
  - rewrite (proj2 (Z.ltb_ge _ _) L). destruct (Z.ltb_spec y1 y0).
    + destruct (high_line x1 y1 x0 y0 color m) as (path & P & G); [assumption..|lia|lia|]. exists path.
      rewrite Z.min_r, Z.max_l by lia. split; [|exact G]. intros y Y. specialize (P y Y). lia.
    + destruct (high_line x0 y0 x1 y1 color m) as (path & P & G); [assumption..|lia|]. exists path.
      rewrite Z.min_l, Z.max_r by lia. split; [|exact G]. intros y Y. specialize (P y Y). lia.
Qed.
End lines.

(** ** Circles *)

(** The reference: with the longer offset [a] and the shorter one [b], [a] is
    sqrt(r^2 - b^2) rounded, that is 2a - 1 <= sqrt(4(r^2 - b^2) + 1) < 2a + 1. *)
Definition nearest (r a b : Z) : bool :=
  (4 * b * b + (2 * a - 1) * (2 * a - 1) <=? 4 * r * r + 1) && (4 * r * r + 1 <? 4 * b * b + (2 * a + 1) * (2 * a + 1)).
Definition longer (dx dy : Z) : Z := Z.max (Z.abs dx) (Z.abs dy).
Definition shorter (dx dy : Z) : Z := Z.min (Z.abs dx) (Z.abs dy).
Definition on_circle (r dx dy : Z) : bool := nearest r (longer dx dy) (shorter dx dy).

(** The leftmost and the topmost point. *)
Definition left_out (r dx dy : Z) : bool := ((dx =? - r) && (dy =? 0)) || ((dx =? 0) && (dy =? - r)).

Lemma nearest_unique r a a' b : 0 <= a -> 0 <= a' -> nearest r a b = true -> nearest r a' b = true -> a = a'.
Proof.
  unfold nearest. intros Ha Ha' [L U]%andb_prop [L' U']%andb_prop. zbool.
  destruct (Z.lt_trichotomy a a') as [G|[G|G]]; [|exact G|]; exfalso; nia.
Qed.

(** The decision variable says on which side of the circle the next midpoint is. *)
Lemma nearest_step r x y : 0 <= y < x -> nearest r x y = true ->
  let P := (y + 1) * (y + 1) + x * x - x - r * r in
  if P <=? 0 then nearest r x (y + 1) = true
  else if x - 1 <? y + 1 then forall a b, y < b -> b <= a -> nearest r a b = false
  else nearest r (x - 1) (y + 1) = true.
Proof.
  cbv zeta. unfold nearest. intros Hy [L U]%andb_prop. zbool.
  destruct (Z.leb_spec ((y + 1) * (y + 1) + x * x - x - r * r) 0); [|destruct (Z.ltb_spec (x - 1) (y + 1))].
  - apply andb_true_intro. split; [apply Z.leb_le|apply Z.ltb_lt]; lia.
  - intros a b Hb Ha. apply andb_false_intro1, Z.leb_gt. assert (x = y + 1) by lia. subst x. nia.
  - apply andb_true_intro. split; [apply Z.leb_le|apply Z.ltb_lt]; lia.
Qed.

Lemma nearest_end r x y a b : 0 <= y -> x <= y -> nearest r x y = true -> y < b -> b <= a -> 0 <= x -> nearest r a b = false.
Proof. unfold nearest. intros Hy Hx [L U]%andb_prop Hb Ha Hx0. zbool. apply andb_false_intro1, Z.leb_gt. nia. Qed.

Definition has_point (dx dy : Z) (points : list (Z * Z)) : bool := existsb (fun '(x, y) => (dx =? x) && (dy =? y)) points.

Lemma has_point_In dx dy points : has_point dx dy points = true <-> In (dx, dy) points.
Proof.
  unfold has_point. rewrite existsb_exists. split.
  - intros ([x y] & I & E). apply andb_prop in E as [Ex Ey]. zbool. now subst.
  - intros I. exists (dx, dy). split; [exact I|]. now rewrite !Z.eqb_refl.
Qed.

Lemma longer_shorter dx dy :
  (longer dx dy = Z.abs dx /\ shorter dx dy = Z.abs dy /\ Z.abs dy <= Z.abs dx) \/ (longer dx dy = Z.abs dy /\ shorter dx dy = Z.abs dx /\ Z.abs dx <= Z.abs dy).
Proof. unfold longer, shorter. lia. Qed.

Lemma has_octants r x y dx dy : 1 <= y <= x -> nearest r x y = true ->
  has_point dx dy (octants x y) = on_circle r dx dy && (shorter dx dy =? y).
Proof.
  intros Hy N. assert (E : on_circle r dx dy && (shorter dx dy =? y) = (longer dx dy =? x) && (shorter dx dy =? y)).
  { destruct (Z.eqb_spec (shorter dx dy) y) as [E|]; [|now rewrite !andb_false_r]. rewrite !andb_true_r. unfold on_circle. rewrite E.
    destruct (Z.eqb_spec (longer dx dy) x) as [->|Nx]; [exact N|]. destruct (nearest r (longer dx dy) y) eqn:Nl; [|reflexivity].
    elim Nx. apply (nearest_unique r _ _ y); auto; unfold longer; lia. }
  rewrite E. apply eq_iff_eq_true. rewrite has_point_In, andb_true_iff, !Z.eqb_eq. unfold octants. split.
  - intros I. apply in_app_or in I as [I|I]; [|destruct (Z.eqb_spec x y); [destruct I|]];
      cbn [In] in I; repeat (destruct I as [[= <- <-]|I]; [unfold longer, shorter; lia|]); destruct I.
  - destruct (longer_shorter dx dy) as [(-> & -> & _)|(-> & -> & _)]; intros [A B].
    + apply in_or_app. left. assert (dx = x \/ dx = - x) as [-> | ->] by lia; assert (dy = y \/ dy = - y) as [-> | ->] by lia; cbn; auto.
    + destruct (Z.eqb_spec x y) as [->|_]; apply in_or_app; [left|right]; assert (dx = y \/ dx = - y) as [-> | ->] by lia.
      1,2: assert (dy = y \/ dy = - y) as [-> | ->] by lia; cbn; auto.
      1,2: assert (dy = x \/ dy = - x) as [-> | ->] by lia; cbn; auto.
Qed.

Section circles.
Context (md : mode) (W : wf_mode md).
Abbreviation get := (video_framebuffer_get_pixel md).

Lemma plot_points_spec x0 y0 color points m x y : Forall (fun p => int_ok (p.1 + x0) /\ int_ok (p.2 + y0)) points -> on_screen md x y ->
  get x y (plot_points md x0 y0 color points m) = if has_point (x - x0) (y - y0) points then pixel_value md color else get x y m.
Proof.
  intros F S. revert m. induction F as [|[px py] points [Hx Hy] F IH]; intros m; [reflexivity|]. cbn [plot_points fold_left has_point existsb].
  unfold plot_points, has_point in IH. rewrite IH. cbn [fst snd] in *. rewrite get_plot by assumption.
  replace ((x =? px + x0) && (y =? py + y0)) with ((x - x0 =? px) && (y - y0 =? py)) by lia.
  destruct (existsb _ points); [now rewrite orb_true_r|]. now rewrite orb_false_r.
Qed.

(** Drawn: the points of the circle whose shorter offset is at most [y]. *)
Definition drawn_upto (x0 y0 r color y : Z) (m m' : mem) : Prop := forall x' y', on_screen md x' y' ->
  get x' y' m' = if on_circle r (x' - x0) (y' - y0) && (shorter (x' - x0) (y' - y0) <=? y) && negb (left_out r (x' - x0) (y' - y0))
                 then pixel_value md color else get x' y' m.

Lemma octants_drawn x0 y0 r color x y m m' : coordinate x0 -> coordinate y0 -> 1 <= y <= x -> x <= 2 ^ 28 -> nearest r x y = true -> r <> 0 ->
  drawn_upto x0 y0 r color (y - 1) m m' -> drawn_upto x0 y0 r color y m (plot_points md x0 y0 color (octants x y) m').
Proof.
  unfold coordinate. intros Hx0 Hy0 Hy Hx N Hr D x' y' S. rewrite plot_points_spec; [|unfold octants; destruct (x =? y); repeat constructor; cbn; unfold int_ok; lia|exact S].
  rewrite (has_octants r x y _ _ Hy N), (D x' y' S). set (dx := x' - x0). set (dy := y' - y0).
  destruct (on_circle r dx dy); cbn [andb]; [|reflexivity]. destruct (Z.eqb_spec (shorter dx dy) y) as [E|NE].
  - replace (shorter dx dy <=? y) with true by lia. replace (left_out r dx dy) with false; [reflexivity|]. unfold left_out, shorter in *. lia.
  - now replace (shorter dx dy <=? y) with (shorter dx dy <=? y - 1) by lia.
Qed.

Lemma circle_loop x0 y0 r color m n : coordinate x0 -> coordinate y0 -> r <> 0 -> forall x y m1, 0 <= y <= x -> x <= 2 ^ 28 -> nearest r x y = true ->
  drawn_upto x0 y0 r color y m m1 -> (Z.to_nat (x - y) < n)%nat ->
  exists m' y1, loop (circle_step md x0 y0 color) n (x, y, (y + 1) * (y + 1) + x * x - x - r * r, m1) = Ret m' /\
    drawn_upto x0 y0 r color y1 m m' /\ forall a b, y1 < b -> b <= a -> nearest r a b = false.
Proof.
  intros Hx0 Hy0 Hr. induction n as [|n IH]; intros x y m1 Hy Hx N D Hn; [lia|]. rewrite loop_S. unfold circle_step at 2. cbv beta iota.
  destruct (Z.ltb_spec y x) as [L|L].
  - pose proof (nearest_step r x y ltac:(lia) N) as St. cbv zeta in *. destruct (Z.leb_spec ((y + 1) * (y + 1) + x * x - x - r * r) 0).
    + replace (x <? y + 1) with false by lia. rewrite bind_ret.
      replace ((y + 1) * (y + 1) + x * x - x - r * r + (2 * (y + 1) + 1)) with ((y + 1 + 1) * (y + 1 + 1) + x * x - x - r * r) by lia.
      apply IH; [lia|exact Hx|exact St| |lia]. apply octants_drawn; auto; [lia|]. now replace (y + 1 - 1) with y by lia.
    + destruct (Z.ltb_spec (x - 1) (y + 1)); rewrite bind_ret; [now exists m1, y|].
      replace ((y + 1) * (y + 1) + x * x - x - r * r + (2 * (y + 1 - (x - 1)) + 1)) with ((y + 1 + 1) * (y + 1 + 1) + (x - 1) * (x - 1) - (x - 1) - r * r) by lia.
      apply IH; [lia|lia|exact St| |lia]. apply octants_drawn; auto; [lia|lia|]. now replace (y + 1 - 1) with y by lia.
  - rewrite bind_ret. exists m1, y. split_and!; auto. intros a b Hb Ha. apply (nearest_end r x y); auto; lia.
Qed.

(** C24: a circle is drawn.  video_framebuffer_draw_circle ends, and the pixels coloured
    are those whose longer offset from the centre is sqrt(r^2 - b^2) rounded, b being the
    shorter one; but the leftmost and the topmost point are left out.  (The radius is from 1 to
    2^28 and the coordinates of the centre are between -2^28 and 2^28.) *)
Theorem draw_circle_spec (x0 y0 r color : Z) (m : mem) : coordinate x0 -> coordinate y0 -> 1 <= r <= 2 ^ 28 ->
  exists m', video_framebuffer_draw_circle md x0 y0 r color m = Ret m' /\
    forall x y, on_screen md x y -> get x y m' =
      if on_circle r (x - x0) (y - y0) && negb (left_out r (x - x0) (y - y0)) then pixel_value md color else get x y m.
Proof.
  intros Hx0 Hy0 Hr. unfold video_framebuffer_draw_circle. assert (N : nearest r r 0 = true) by (unfold nearest; lia).
  set (m1 := plot_points _ _ _ _ _ _). assert (D : drawn_upto x0 y0 r color 0 m m1).
  { unfold coordinate in *. intros x y S. unfold m1. rewrite plot_points_spec; [|repeat constructor; cbn; unfold int_ok; lia|exact S].
    set (dx := x - x0). set (dy := y - y0). replace (has_point dx dy _) with (on_circle r dx dy && (shorter dx dy <=? 0) && negb (left_out r dx dy)); [reflexivity|].
    destruct (Z.leb_spec (shorter dx dy) 0) as [E|E]; cbn [andb].
    - assert (E0 : shorter dx dy = 0) by (unfold shorter in *; lia). assert (Ec : on_circle r dx dy = (longer dx dy =? r)).
      { unfold on_circle. rewrite E0. destruct (Z.eqb_spec (longer dx dy) r) as [->|Nx]; [exact N|]. destruct (nearest r (longer dx dy) 0) eqn:Nl; [|reflexivity].
        elim Nx. apply (nearest_unique r _ _ 0); auto; unfold longer; lia. }
      rewrite Ec. unfold left_out, has_point, shorter, longer in *. cbn [existsb]. lia.
    - rewrite andb_false_r. cbn [andb]. unfold has_point, shorter in *. cbn [existsb]. lia. }
  destruct (circle_loop x0 y0 r color m (Z.to_nat r + 1) Hx0 Hy0 ltac:(lia) r 0 m1 ltac:(lia) ltac:(lia) N D ltac:(lia)) as (m' & y1 & E & D1 & Out).
  exists m'. split.
  - replace (1 - r) with ((0 + 1) * (0 + 1) + r * r - r - r * r) by lia. eapply while_loop; [exact E|discriminate|lia].
  - intros x y S. rewrite (D1 x y S). set (dx := x - x0). set (dy := y - y0). destruct (Z.leb_spec (shorter dx dy) y1) as [L|L]; [now rewrite andb_true_r|].
    unfold on_circle. rewrite (Out (longer dx dy) (shorter dx dy) L) by (unfold longer, shorter; lia). reflexivity.
Qed.
End circles.

(** ** Characters *)

(** The bit of a glyph at column [j] and row [l]: a row is a whole number of bytes, its
    leftmost pixel the highest bit. *)
Definition row_bytes (width : Z) : Z := (width + 7) / 8.
Definition glyph_bit (m : mem) (width glyph j l : Z) : bool :=
  Z.testbit (load8 m (glyph + (l * row_bytes width + j / 8))) (7 - j mod 8).

Section glyphs.
Context (md : mode) (W : wf_mode md).
Abbreviation get := (video_framebuffer_get_pixel md).

Definition off_buffer (a : Z) : Prop := a < VIDEO_START \/ VIDEO_START + fb_height md * fb_pitch md <= a.

Lemma byte_pixels byte px py fg bg n m : coordinate px -> coordinate py -> (n <= 8)%nat ->
  let m' := for_range (glyph_pixel md byte px py fg bg) 0 n m in
  (forall x y, on_screen md x y -> get x y m' =
    if (y =? py) && (px <=? x) && (x <? px + Z.of_nat n) then pixel_value md (if Z.testbit byte (7 - (x - px)) then fg else bg) else get x y m) /\
  (forall a, off_buffer a -> load8 m' a = load8 m a).
Proof.
  unfold coordinate. intros Hx Hy. cbv zeta. induction n as [|n IH]; intros Hn.
  - split; [|reflexivity]. intros x y _. now replace (_ && _ && _) with false by lia.
  - destruct IH as [IHg IHf]; [lia|]. rewrite for_range_last. unfold glyph_pixel at 1 3. rewrite Z.add_0_l. split.
    + intros x y Os. rewrite get_plot by (assumption || (unfold int_ok; lia)). rewrite IHg by exact Os.
      destruct (Z.eqb_spec x (px + Z.of_nat n)) as [->|Nx]; destruct (Z.eqb_spec y py) as [->|Ny]; cbn [andb].
      * replace (px + Z.of_nat n <? px + Z.of_nat (S n)) with true by lia. replace (px <=? px + Z.of_nat n) with true by lia. cbn [andb].
        rewrite shift_mask_testbit by lia. replace (px + Z.of_nat n - px) with (Z.of_nat n) by lia. now destruct (Z.testbit byte (7 - Z.of_nat n)).
      * reflexivity.
      * now replace (x <? px + Z.of_nat (S n)) with (x <? px + Z.of_nat n) by lia.
      * reflexivity.
    + intros a A. rewrite plot_frame by (assumption || (unfold int_ok; lia)). now apply IHf.
Qed.

Lemma glyph_bytes width glyph px py fg bg m n : 1 <= width <= 256 -> coordinate px -> coordinate py -> - 2 ^ 27 <= px <= 2 ^ 27 -> - 2 ^ 27 <= py <= 2 ^ 27 -> Z.of_nat n <= 2 ^ 27 ->
  (forall i, 0 <= i < Z.of_nat n -> off_buffer (glyph + i)) ->
  let b := row_bytes width in
  let '(col, line, m') := for_range (glyph_byte md width glyph px py fg bg) 0 n (0, 0, m) in
  col = 8 * (Z.of_nat n mod b) /\ line = Z.of_nat n / b /\
  (forall x y, on_screen md x y -> get x y m' =
    if (px <=? x) && (x <? px + width) && (py <=? y) && ((y - py) * b + (x - px) / 8 <? Z.of_nat n)
    then pixel_value md (if glyph_bit m width glyph (x - px) (y - py) then fg else bg) else get x y m) /\
  (forall a, off_buffer a -> load8 m' a = load8 m a).
Proof.
  unfold coordinate. intros Hw _ _ Hx Hy. cbv zeta. set (b := row_bytes width). assert (Hb : 8 * b - 8 < width <= 8 * b).
  { unfold b, row_bytes. pose proof (Z.div_mod (width + 7) 8). pose proof (Z.mod_pos_bound (width + 7) 8). lia. }
  induction n as [|n IH]; intros Hn Off.
  - cbn [for_range]. rewrite Z.mod_0_l, Z.div_0_l by lia. split_and!; try reflexivity. intros x y _.
    destruct ((px <=? x) && (x <? px + width) && (py <=? y)) eqn:E; [|reflexivity]. pose proof (Z.div_pos (x - px) 8).
    assert (0 <= (y - py) * b) by nia. now replace (_ <? Z.of_nat 0) with false by lia.
  - rewrite for_range_last. destruct (for_range _ 0 n (0, 0, m)) as [[col line] m1]. destruct IH as (Ec & El & G & F); [lia|intros; apply Off; lia|].
    unfold glyph_byte. rewrite Z.add_0_l. set (N := Z.of_nat n) in *. pose proof (Z.div_mod N b ltac:(lia)) as Dm. pose proof (Z.mod_pos_bound N b ltac:(lia)) as Mb.
    rewrite <- El in Dm. set (q := N mod b) in *. subst col. assert (Hl : 0 <= line) by (subst line; apply Z.div_pos; lia). assert (Hline : line <= N) by nia.
    destruct (byte_pixels (load8 m1 (glyph + N)) (px + 8 * q) (py + line) fg bg (Z.to_nat (Z.min (width - 8 * q) 8)) m1) as [Gp Fp]; [unfold coordinate; lia|unfold coordinate; lia|lia|].
    rewrite Z2Nat.id in Gp by lia. rewrite (F (glyph + N)) in Gp, Fp |- * by (apply Off; lia). set (m2 := for_range _ 0 (Z.to_nat _) m1) in *.
    assert (Hpix : forall x y, on_screen md x y -> get x y m2 =
      if (px <=? x) && (x <? px + width) && (py <=? y) && ((y - py) * b + (x - px) / 8 <? Z.of_nat (S n))
      then pixel_value md (if glyph_bit m width glyph (x - px) (y - py) then fg else bg) else get x y m).
    { intros x y Os. rewrite Gp, G by exact Os. pose proof (Z.div_mod (x - px) 8 ltac:(lia)) as D8. pose proof (Z.mod_pos_bound (x - px) 8 ltac:(lia)) as M8.
      destruct ((px <=? x) && (x <? px + width) && (py <=? y)) eqn:E; cbn [andb].
      - replace (Z.of_nat (Datatypes.S n)) with (N + 1) by lia. destruct (Z.eqb_spec ((y - py) * b + (x - px) / 8) N) as [Ei|Ni].
        + assert (y - py = line /\ (x - px) / 8 = q) as [Ey Ex] by (apply (Zdiv.Zdiv_mod_unique b); lia).
          replace (_ && _ && _) with true by lia. rewrite (proj2 (Z.ltb_lt _ _)) by lia. unfold glyph_bit. fold b. rewrite Ei.
          replace (x - (px + 8 * q)) with ((x - px) mod 8) by lia. reflexivity.
        + replace ((y - py) * b + (x - px) / 8 <? N + 1) with ((y - py) * b + (x - px) / 8 <? N) by lia.
          destruct ((y =? py + line) && (px + 8 * q <=? x) && (x <? px + 8 * q + Z.min (width - 8 * q) 8)) eqn:E2; [|reflexivity].
          exfalso. apply Ni. assert ((x - px) / 8 = q) as -> by (zbool; lia). assert (y - py = line) as -> by lia. lia.
      - replace (_ && _ && _) with false by lia. reflexivity. }
    assert (Hfr : forall a, off_buffer a -> load8 m2 a = load8 m a) by (intros a A; rewrite Fp, F; auto).
    destruct (Z.leb_spec width (8 * q + Z.min (width - 8 * q) 8)) as [L|L].
    + assert (q = b - 1) by lia. replace (Z.of_nat (S n)) with (N + 1) in * by lia. assert (EN : N + 1 = (line + 1) * b) by lia.
      split_and!; auto; [rewrite EN, Z.mod_mul by lia; lia|rewrite EN, Z.div_mul by lia; lia].
    + replace (Z.of_nat (S n)) with (N + 1) in * by lia. split_and!; auto.
      * rewrite <- (Z.mod_unique_pos (N + 1) b line (q + 1)); lia.
      * apply (Z.div_unique_pos (N + 1) b line (q + 1)); lia.
Qed.
End glyphs.

Lemma s8_byte b : 0 <= b < 256 -> s8 b = if b <? 128 then b else b - 256.
Proof. intros Hb. unfold s8. change (2 ^ 7) with 128. change (2 ^ 8) with 256. case_test; [rewrite Z.mod_small by lia|rewrite <- (Z.mod_unique_pos (b + 128) 256 1 (b - 128)) by lia]; lia. Qed.

(** Where a PSF font of version 2 keeps glyph [n]: behind its header, whose size is in the
    header's third word, in a table of glyphs of as many bytes as its sixth word says. *)
Definition glyph_place (m : mem) (font n : Z) : Z := font + load32 m (font + 8) + n * load32 m (font + 20).

(** C26: a character is drawn.  printc, given the byte [b] of a string, colours the cell of
    the character: each pixel gets the foreground where the bit of the glyph at its place in
    the cell is set and the background where it is not, other pixels and memory outside of
    the framebuffer do not change, and the cursor moves on, to the next row behind the last
    column.  For b below 128 the glyph is number b of the table of the font; a byte above,
    being a negative char, is drawn from number b - 256, which lies in front of the table
    ([Runs.glyph_before_font]).  The font is one of whole rows of glyphs (its bytes per
    glyph are its height times the bytes of a row, up to 256 by 256 pixels), outside of the
    framebuffer; line feed and backspace are not drawn; columns and rows are below 2^16. *)
Theorem printc_draws_glyph (st : fbcon) (b fg bg x y : Z) (m : mem) :
  let md := fmode st in let w := font_width st in let h := font_height st in
  let glyph := glyph_place m (font st) (if b <? 128 then b else b - 256) in
  wf_mode md -> 1 <= w <= 256 -> 1 <= h <= 256 -> font_bpg st = h * row_bytes w -> 0 <= x <= 2 ^ 16 -> 0 <= y <= 2 ^ 16 ->
  load32 m (font st + 20) = font_bpg st -> 0 <= glyph < 2 ^ 32 ->
  (forall i, 0 <= i < font_bpg st -> off_buffer md (glyph + i)) -> 0 <= b < 256 -> b <> 10 -> b <> 8 ->
  exists m', printc st (s8 b) fg bg false (x, y, m) = (if x + 1 =? text_cols st then (0, y + 1, m') else (x + 1, y, m')) /\
    (forall px py, on_screen md px py -> video_framebuffer_get_pixel md px py m' =
      if (x * w <=? px) && (px <? (x + 1) * w) && (y * h <=? py) && (py <? (y + 1) * h)
      then pixel_value md (if glyph_bit m w glyph (px - x * w) (py - y * h) then fg else bg)
      else video_framebuffer_get_pixel md px py m) /\
    (forall a, off_buffer md a -> load8 m' a = load8 m a).
Proof.
  cbv zeta. intros W Hw Hh Hb Hx Hy Hbpg Hg Off Hbyte N10 N8.
  assert (Eg : glyph_place m (font st) (if b <? 128 then b else b - 256) = psf_get_glyph m (font st) (s8 b)).
  { unfold psf_get_glyph, psf_headersize, psf_bytesperglyph. rewrite s8_byte by exact Hbyte. symmetry. now apply u32_small. }
  rewrite Eg in *. assert (S10 : s8 b <> 10 /\ s8 b <> 8) by (rewrite s8_byte by exact Hbyte; case_test; lia). destruct S10 as [S10 S8]. set (w := font_width st) in *. set (h := font_height st) in *.
  assert (Hr : 0 < row_bytes w <= 33 /\ 8 * row_bytes w - 8 < w <= 8 * row_bytes w).
  { unfold row_bytes. pose proof (Z.div_mod (w + 7) 8). pose proof (Z.mod_pos_bound (w + 7) 8). lia. }
  assert (Hxw : 0 <= x * w <= 2 ^ 24) by nia. assert (Hyh : 0 <= y * h <= 2 ^ 24) by nia. assert (Hbb : 0 <= font_bpg st <= 2 ^ 27) by nia.
  pose proof (glyph_bytes (fmode st) W w (psf_get_glyph m (font st) (s8 b)) (x * w) (y * h) fg bg m (Z.to_nat (font_bpg st)) Hw) as G.
  unfold coordinate in G. cbv zeta in G. rewrite Z2Nat.id in G by lia. unfold printc. rewrite (proj2 (Z.eqb_neq _ _) S10), (proj2 (Z.eqb_neq _ _) S8).
  unfold draw_glyph. fold w h. destruct (for_range _ 0 (Z.to_nat (font_bpg st)) (0, 0, m)) as [[col line] m'].
  destruct G as (_ & _ & Gp & Gf); [lia|lia|lia|lia|lia|exact Off|]. exists m'. split_and!; [cbn [snd]; case_test; reflexivity| |exact Gf].
  intros px py S. rewrite (Gp px py S). replace ((x + 1) * w) with (x * w + w) by lia. replace ((y + 1) * h) with (y * h + h) by lia.
  destruct ((x * w <=? px) && (px <? x * w + w) && (y * h <=? py)) eqn:E; [|reflexivity]. cbn [andb]. rewrite Hb.
  assert (Hd : 0 <= (px - x * w) / 8 < row_bytes w) by (split; [apply Z.div_pos; lia|apply Z.div_lt_upper_bound; lia]).
  replace (py <? y * h + h) with ((py - y * h) * row_bytes w + (px - x * w) / 8 <? h * row_bytes w); [reflexivity|].
  destruct (Z.ltb_spec py (y * h + h)); [apply Z.ltb_lt|apply Z.ltb_ge]; nia.
Qed.

(** ** Rectangles *)

Section rectangles.
Context (md : mode) (W : wf_mode md).
Abbreviation get := (video_framebuffer_get_pixel md).
Abbreviation size := (fb_bpp md / 8).

Lemma fill_pixels color n x y m : 0 <= x -> x + Z.of_nat n <= fb_width md -> 0 <= y < fb_height md ->
  let '(fb, m') := for_range (fun _ => fill_pixel md color) x n (pixel_address md x y, m) in
  fb = pixel_address md (x + Z.of_nat n) y /\
  forall x' y', on_screen md x' y' -> get x' y' m' =
    if (x <=? x') && (x' <? x + Z.of_nat n) && (y' =? y) then pixel_value md color else get x' y' m.
Proof.
  intros Hx Hn Hy. induction n as [|n IH].
  - cbn [for_range]. split; [f_equal; lia|]. intros x' y' _. now replace (_ && _ && _) with false by lia.
  - rewrite for_range_last. destruct (for_range _ x n _) as [fb m']. destruct IH as [-> G]; [lia|]. unfold fill_pixel. split.
    + unfold pixel_address. lia.
    + intros x' y' Os. assert (Sx : on_screen md (x + Z.of_nat n) y) by (unfold on_screen; lia).
      rewrite <- (plot_pixel_eq md W (x + Z.of_nat n) y color m' Sx). pose proof (wf_width _ W). pose proof (wf_height _ W).
      rewrite (get_plot W) by (assumption || (unfold int_ok; lia)). rewrite (G x' y' Os).
      destruct (Z.eqb_spec x' (x + Z.of_nat n)) as [->|Nx]; cbn [andb].
      * replace (x <=? x + Z.of_nat n) with true by lia. replace (x + Z.of_nat n <? x + Z.of_nat (Datatypes.S n)) with true by lia.
        replace (x + Z.of_nat n <? x + Z.of_nat n) with false by lia. reflexivity.
      * now replace (x' <? x + Z.of_nat (Datatypes.S n)) with (x' <? x + Z.of_nat n) by lia.
Qed.

Lemma fill_rows color x0 x1 n y m : 0 <= x0 <= x1 -> x1 < fb_width md -> 0 <= y -> y + Z.of_nat n <= fb_height md ->
  let '(fb, m') := for_range (fun _ => fill_row md x0 x1 color) y n (pixel_address md x0 y, m) in
  fb = pixel_address md x0 (y + Z.of_nat n) /\
  forall x' y', on_screen md x' y' -> get x' y' m' =
    if (x0 <=? x') && (x' <=? x1) && (y <=? y') && (y' <? y + Z.of_nat n) then pixel_value md color else get x' y' m.
Proof.
  intros Hx Hw Hy Hn. induction n as [|n IH].
  - cbn [for_range]. split; [f_equal; lia|]. intros x' y' _. now replace (_ && _ && _ && _) with false by lia.
  - rewrite for_range_last. destruct (for_range _ y n _) as [fb m']. destruct IH as [-> G]; [lia|]. unfold fill_row.
    pose proof (fill_pixels color (Z.to_nat (x1 - x0 + 1)) x0 (y + Z.of_nat n) m') as R. rewrite Z2Nat.id in R by lia.
    destruct (for_range _ x0 _ _) as [fb2 m2]. destruct R as [-> R]; [lia|lia|lia|]. split; [unfold pixel_address; lia|].
    intros x' y' Os. rewrite (R x' y' Os), (G x' y' Os). replace (x' <? x0 + (x1 - x0 + 1)) with (x' <=? x1) by lia.
    destruct ((x0 <=? x') && (x' <=? x1)); cbn [andb]; [|reflexivity]. destruct (Z.eqb_spec y' (y + Z.of_nat n)) as [->|Ny]; cbn [andb].
    + replace (y <=? y + Z.of_nat n) with true by lia. replace (y + Z.of_nat n <? y + Z.of_nat (Datatypes.S n)) with true by lia. reflexivity.
    + now replace (y' <? y + Z.of_nat (Datatypes.S n)) with (y' <? y + Z.of_nat n) by lia.
Qed.

Lemma clamp_range size v : 0 < size <= 2 ^ 16 -> int_ok v -> 0 <= clamp size v < size.
Proof.
  unfold int_ok, clamp. intros Hs Hv. rewrite (u32_small (size - 1)), s32_small by lia. case_test; [lia|].
  destruct (Z.lt_ge_cases v 0) as [L|L]; [|rewrite u32_small in E; lia].
  unfold u32 in E. rewrite <- (Z.mod_unique_pos v (2 ^ 32) (-1) (v + 2 ^ 32)) in E; lia.
Qed.

(** A rectangle is filled, its corners taken in any order; a coordinate that is not on the
    screen counts as the last column or row. *)
Lemma fill_rectangle_spec x0 y0 x1 y1 color m : int_ok x0 -> int_ok y0 -> int_ok x1 -> int_ok y1 ->
  let cx0 := clamp (fb_width md) x0 in let cx1 := clamp (fb_width md) x1 in
  let cy0 := clamp (fb_height md) y0 in let cy1 := clamp (fb_height md) y1 in
  forall x y, on_screen md x y -> get x y (video_framebuffer_fill_rectangle md x0 y0 x1 y1 color m) =
    if (Z.min cx0 cx1 <=? x) && (x <=? Z.max cx0 cx1) && (Z.min cy0 cy1 <=? y) && (y <=? Z.max cy0 cy1) then pixel_value md color else get x y m.
Proof.
  intros Hx0 Hy0 Hx1 Hy1. cbv zeta. intros x y Os. unfold video_framebuffer_fill_rectangle. cbv zeta.
  pose proof (clamp_range (fb_width md) x0 (wf_width _ W) Hx0) as C0. pose proof (clamp_range (fb_width md) x1 (wf_width _ W) Hx1) as C1.
  pose proof (clamp_range (fb_height md) y0 (wf_height _ W) Hy0) as D0. pose proof (clamp_range (fb_height md) y1 (wf_height _ W) Hy1) as D1.
  set (a0 := clamp (fb_width md) x0) in *. set (a1 := clamp (fb_width md) x1) in *. set (b0 := clamp (fb_height md) y0) in *. set (b1 := clamp (fb_height md) y1) in *.
  replace (if a1 - a0 <? 0 then (a1, a0) else (a0, a1)) with (Z.min a0 a1, Z.max a0 a1) by (case_test; f_equal; lia).
  replace (if b1 - b0 <? 0 then (b1, b0) else (b0, b1)) with (Z.min b0 b1, Z.max b0 b1) by (case_test; f_equal; lia).
  rewrite row_offset by (assumption || lia).
  replace (VIDEO_START + (Z.min b0 b1 * fb_pitch md + Z.min a0 a1 * size)) with (pixel_address md (Z.min a0 a1) (Z.min b0 b1)) by (unfold pixel_address; lia).
  pose proof (fill_rows color (Z.min a0 a1) (Z.max a0 a1) (Z.to_nat (Z.max b0 b1 - Z.min b0 b1 + 1)) (Z.min b0 b1) m) as R. rewrite Z2Nat.id in R by lia.
  destruct (for_range _ (Z.min b0 b1) _ _) as [fb m']. destruct R as [_ R]; [lia|lia|lia|lia|]. cbn [snd]. rewrite (R x y Os).
  now replace (y <? Z.min b0 b1 + (Z.max b0 b1 - Z.min b0 b1 + 1)) with (y <=? Z.max b0 b1) by lia.
Qed.

(** ** Scrolling *)

Lemma load_pixel_ext a b m m' : (forall i, 0 <= i < size -> load8 m' (a + i) = load8 m (b + i)) -> load_pixel (fb_bpp md) a m' = load_pixel (fb_bpp md) b m.
Proof.
  intros E. unfold load_pixel. pose proof (E 0) as E0. rewrite !Z.add_0_r in E0.
  destruct (size_cases md W) as [[Eb S]|[[Eb S]|[Eb S]]]; rewrite S in E; rewrite Eb; cbn [Z.eqb Pos.eqb].
  - apply E0. lia.
  - unfold load16. now rewrite E0, (E 1) by lia.
  - unfold load32. now rewrite E0, (E 1), (E 2), (E 3) by lia.
Qed.
End rectangles.

(** The text moves up by [k] rows, black below; pixels under the last row stay. *)
Lemma scroll_pixels (st : fbcon) k : let md := fmode st in let h := font_height st in
  wf_mode md -> 0 < h -> 0 < k < text_rows st -> text_rows st * h <= fb_height md ->
  forall x y, on_screen md x y -> video_framebuffer_get_pixel md x y (fmem (scroll_screen (u32 k) st)) =
    if y <? (text_rows st - k) * h then video_framebuffer_get_pixel md x (y + k * h) (fmem st)
    else if y <? text_rows st * h then 0 else video_framebuffer_get_pixel md x y (fmem st).
Proof.
  cbv zeta. intros W Hh Hk Hr x y Os. set (md := fmode st) in *. set (h := font_height st) in *. set (R := text_rows st) in *. pose proof (wf_buffer _ W) as B. pose proof (wf_height _ W) as Hh2.
  pose proof (size_pos md W) as Sz. pose proof (wf_rows _ W) as Rw. pose proof (wf_width _ W) as Ww. assert (P : 0 < fb_pitch md) by nia.
  assert (Hk2 : R * h <= 2 ^ 16 /\ R <= 2 ^ 16 /\ h <= 2 ^ 16) by nia. assert (Ek : u32 k = k) by (apply u32_small; lia).
  unfold scroll_screen. rewrite Ek, s32_small by lia. rewrite (proj2 (Z.eqb_neq _ _)) by lia. fold R. rewrite (proj2 (Z.leb_gt _ _)) by lia. cbv zeta. fold md h.
  assert (E1 : h * fb_pitch md < 2 ^ 30 /\ R * (h * fb_pitch md) < 2 ^ 30) by nia.
  rewrite (u32_small (h * fb_pitch md)) by nia. set (row := h * fb_pitch md) in *. assert (Hrow : 0 < row) by (unfold row; nia).
  rewrite (u32_small ((R - k) * row)), (u32_small (k * row)) by nia. cbn [fmem with_buffer with_cursor with_fmem].
  pose proof Os as [Hx Hy]. set (p := fb_pitch md) in *. set (s := fb_bpp md / 8) in *.
  assert (Ax : 0 <= x * s /\ x * s + s <= p) by nia. assert (Ea : forall y', pixel_address md x y' = VIDEO_START + y' * p + x * s) by reflexivity.
  assert (Erow : (R - k) * row = (R - k) * h * p /\ k * row = k * h * p) by (unfold row; lia). destruct Erow as [Er Ek2]. rewrite Er, Ek2.
  assert (Hk0 : 0 <= k * h /\ 0 <= (R - k) * h) by nia. assert (Hsum : (R - k) * h + k * h = R * h) by lia.
  assert (Hp0 : 0 <= k * h * p /\ 0 <= (R - k) * h * p) by nia.
  assert (Hle : forall a b, a < b -> a * p + p <= b * p) by (intros; nia). assert (Hge : forall a b, a <= b -> a * p <= b * p) by (intros; nia).
  destruct (Z.ltb_spec y ((R - k) * h)) as [L|L]; [|destruct (Z.ltb_spec y (R * h)) as [L2|L2]].
  - assert (Os2 : on_screen md x (y + k * h)) by (unfold on_screen; lia). rewrite !get_pixel_eq by assumption. apply load_pixel_ext; [exact W|]. intros i Hi. fold s in Hi.
    rewrite memset_load, memmove_load by lia. rewrite !Ea. specialize (Hle y ((R - k) * h) L). specialize (Hge 0 y ltac:(lia)). rewrite Z.mul_0_l in Hge.
    replace ((VIDEO_START + (R - k) * h * p <=? _) && _) with false by lia. replace (_ && _) with true by lia. f_equal. lia.
  - rewrite get_pixel_eq by assumption. transitivity (load_pixel (fb_bpp md) 0 ∅).
    + apply load_pixel_ext; [exact W|]. intros i Hi. fold s in Hi. rewrite memset_load by lia. rewrite Ea. specialize (Hle y (R * h) L2). specialize (Hge _ _ L).
      replace (_ && _) with true by lia. unfold load8. now rewrite lookup_empty.
    + unfold load_pixel. destruct (wf_bpp _ W) as [->|[->| ->]]; reflexivity.
  - rewrite !get_pixel_eq by assumption. apply load_pixel_ext; [exact W|]. intros i Hi. fold s in Hi. rewrite memset_load, memmove_load by lia. rewrite Ea. specialize (Hge _ _ L2).
    replace (_ && _) with false by lia. replace (_ && _) with false by lia. reflexivity.
Qed.

(** ** A small screen *)

Module Runs.
Definition screen : mode := video_framebuffer_set_size 16 8 16 12.
Lemma screen_wf : wf_mode screen.
Proof. split; [by_eval|by_eval|now left|by_eval|by_eval]. Qed.

Lemma draw_line_witness : line_drawn screen (-3) 2 20 9 7 ∅ (video_framebuffer_draw_line screen (-3) 2 20 9 7 ∅).
Proof. apply (draw_line_spec screen screen_wf); unfold coordinate; lia. Defined.

Lemma draw_circle_witness : exists m', video_framebuffer_draw_circle screen 8 6 5 7 ∅ = Ret m' /\
  forall x y, on_screen screen x y -> video_framebuffer_get_pixel screen x y m' =
    if on_circle 5 (x - 8) (y - 6) && negb (left_out 5 (x - 8) (y - 6)) then pixel_value screen 7 else video_framebuffer_get_pixel screen x y ∅.
Proof. apply (draw_circle_spec screen screen_wf 8 6 5 7 ∅); unfold coordinate; lia. Defined.

(** The circle of radius 5 around (8, 6): its rightmost point is drawn, its leftmost not. *)
Example circle_ends : match video_framebuffer_draw_circle screen 8 6 5 7 ∅ with
  | Ret m => (video_framebuffer_get_pixel screen 13 6 m, video_framebuffer_get_pixel screen 3 6 m, video_framebuffer_get_pixel screen 8 11 m, video_framebuffer_get_pixel screen 8 1 m)
  | _ => (0, 0, 0, 0) end = (7, 0, 7, 0).
Proof. vm_compute. reflexivity. Qed.

(** A font of 8 by 2 pixels with one visible character, 65. *)
Definition font_mem : mem :=
  put (store32 (store32 (store32 (store32 (store32 ∅ 4096 PSF_FONT_MAGIC) 4104 32) 4116 2) 4120 2) 4124 8) (4128 + 130) [153; 129].
Definition con : fbcon := Fbcon font_mem screen 1 0 6 2 0 0 4096 8 2 2 (replicate 1024 0) 0 0.

Lemma printc_witness : exists m', printc con 65 1 0 false (1, 2, font_mem) = (0, 3, m') /\
  (forall px py, on_screen screen px py -> video_framebuffer_get_pixel screen px py m' =
    if (1 * 8 <=? px) && (px <? (1 + 1) * 8) && (2 * 2 <=? py) && (py <? (2 + 1) * 2)
    then pixel_value screen (if glyph_bit font_mem 8 4258 (px - 1 * 8) (py - 2 * 2) then 1 else 0)
    else video_framebuffer_get_pixel screen px py font_mem) /\
  (forall a, off_buffer screen a -> load8 m' a = load8 font_mem a).
Proof.
  apply (printc_draws_glyph con 65 1 0 1 2 font_mem screen_wf); try (cbn; lia).
  1-3: by_eval.
  intros i Hi. left. change (if _ <? _ then _ else _) with 65. change (glyph_place font_mem (font con) 65) with 4258. cbn in Hi. unfold VIDEO_START. lia.
Defined.

Example glyph_rows : match printc con 65 1 0 false (1, 2, font_mem) with
  (_, _, m) => map (fun x => video_framebuffer_get_pixel screen (8 + x) 4 m) (seqZ 0 8) end = [1; 0; 0; 1; 1; 0; 0; 1].
Proof. vm_compute. reflexivity. Qed.

(** A character above 127 is negative, and its glyph is looked for in front of the font. *)
Example glyph_before_font : psf_get_glyph font_mem 4096 (s8 200) = 4096 + 32 - 112.
Proof. vm_compute. reflexivity. Qed.
End Runs.
