(* ===== verification/Video.v ===== *)
(** * The consoles behind one interface (kernel/src/driver/video/video_init.c)

    The kernel prints through function pointers.  Until a console is set up they lead to
    a buffer, whose contents are printed once there is one; then to the text console or
    to the graphics console. *)
From S2P Require Import Prelude Mem CString Ports.
From S2P Require Vga Framebuffer.

(** What the pointers lead to. *)
Inductive driver := Preinit | TextMode | Graphics.

Record video (D : Type) := Video {
  linear_graphics_mode : bool;
  preinit_buffer : list Z;
  preinit_buffer_len : Z;
  preinit_cursor : Z;
  installed : driver;
  memory : mem;
  vga : Vga.vga D;
  fbcon : Framebuffer.fbcon;
}.
Arguments Video {D}.
Arguments linear_graphics_mode {D}.
Arguments preinit_buffer {D}.
Arguments preinit_buffer_len {D}.
Arguments preinit_cursor {D}.
Arguments installed {D}.
Arguments memory {D}.
Arguments vga {D}.
Arguments fbcon {D}.

Section video.
Context {D : Type} `{Ports D}.

Definition with_preinit (b : list Z) (len cursor : Z) (v : video D) : video D :=
  Video (linear_graphics_mode v) b len cursor (installed v) (memory v) (vga v) (fbcon v).

(** The two consoles are in the one memory. *)
Definition with_vga (st : Vga.vga D) (v : video D) : video D :=
  Video (linear_graphics_mode v) (preinit_buffer v) (preinit_buffer_len v) (preinit_cursor v) (installed v) (Vga.vid_mem st) st (fbcon v).
Definition with_fbcon (st : Framebuffer.fbcon) (v : video D) : video D :=
  Video (linear_graphics_mode v) (preinit_buffer v) (preinit_buffer_len v) (preinit_cursor v) (installed v) (Framebuffer.fmem st) (vga v) st.
Definition the_vga (v : video D) : Vga.vga D := Vga.with_mem (memory v) (vga v).
Definition the_fbcon (v : video D) : Framebuffer.fbcon := Framebuffer.with_fmem (memory v) (fbcon v).

(** ** Before there is a console *)

Definition video_preinit_get_cursor (v : video D) : Z := s32 (preinit_cursor v).
Definition video_preinit_set_cursor (offset : Z) (v : video D) : video D := with_preinit (preinit_buffer v) (preinit_buffer_len v) (u32 offset) v.
Definition video_preinit_cls (color : Z) (v : video D) : video D := with_preinit (preinit_buffer v) 0 (preinit_cursor v) v.

(** A byte of the buffer; behind its end is something else. *)
Definition put_buffer (b : list Z) (offset c : Z) : outcome (list Z) :=
  if (0 <=? offset) && (offset <? Z.of_nat (length b)) then Ret (<[Z.to_nat offset := c]> b) else Fault.

Definition preinit_length (offset : Z) (v : video D) : Z :=
  if preinit_buffer_len v <=? u32 offset then u32 (offset + 1) else preinit_buffer_len v.

Definition video_preinit_printc (chr offset fg bg : Z) (move : bool) (v : video D) : outcome (video D) :=
  let offset := if offset <? 0 then video_preinit_get_cursor v else offset in
  let len := preinit_length offset v in
  b ← put_buffer (preinit_buffer v) offset chr;
  Ret (with_preinit b len (if move then u32 (offset + 1) else preinit_cursor v) v).

Definition preinit_step (m : mem) (str len : Z) '((i, offset, b) : Z * Z * list Z) : outcome (Z * Z * list Z + Z * list Z) :=
  if i <? len then b ← put_buffer b offset (s8 (load8 m (str + i))); Ret (inl (i + 1, offset + 1, b))
  else Ret (inr (offset, b)).
Definition video_preinit_prints (str offset fg bg : Z) (move : bool) (v : video D) : outcome (video D) :=
  let offset := if offset <? 0 then video_preinit_get_cursor v else offset in
  let buffer_len := preinit_length offset v in
  len ← strlen (memory v) str;
  '(offset, b) ← while (preinit_step (memory v) str len) (0, offset, preinit_buffer v);
  Ret (with_preinit b buffer_len (if move then u32 offset else preinit_cursor v) v).

(** ** The pointers *)

Definition video_set_attr (fg bg : Z) (v : video D) : video D :=
  match installed v with
  | Preinit => v
  | TextMode => with_vga (Vga.video_vga_set_attr fg bg (the_vga v)) v
  | Graphics => with_fbcon (Framebuffer.video_framebuffer_set_attr fg bg (the_fbcon v)) v
  end.
(** None where the caller's variables are left as they were. *)
Definition video_get_size (v : video D) : option (Z * Z) :=
  match installed v with
  | Preinit => None
  | TextMode => Some (Vga.video_vga_get_size (vga v))
  | Graphics => Some (Framebuffer.video_framebuffer_get_size (Framebuffer.fmode (fbcon v)))
  end.
Definition video_rgb (r g b : Z) (v : video D) : Z :=
  match installed v with
  | Preinit => 0
  | TextMode => Vga.video_vga_rgb r g b
  | Graphics => Framebuffer.video_framebuffer_rgb r g b
  end.
Definition video_get_cursor (v : video D) : Z * video D :=
  match installed v with
  | Preinit => (video_preinit_get_cursor v, v)
  | TextMode => let '(c, d) := Vga.video_vga_get_cursor (Vga.vdev (vga v)) in (c, with_vga (Vga.with_dev d (the_vga v)) v)
  | Graphics => (Framebuffer.video_framebuffer_get_cursor (fbcon v), v)
  end.
Definition video_set_cursor (offset : Z) (v : video D) : outcome (video D) :=
  match installed v with
  | Preinit => Ret (video_preinit_set_cursor offset v)
  | TextMode => Ret (with_vga (Vga.with_dev (Vga.video_vga_set_cursor offset (Vga.vdev (vga v))) (the_vga v)) v)
  | Graphics => st ← Framebuffer.video_framebuffer_set_cursor offset (the_fbcon v); Ret (with_fbcon st v)
  end.
Definition video_cls (color : Z) (v : video D) : video D :=
  match installed v with
  | Preinit => video_preinit_cls color v
  | TextMode => with_vga (Vga.video_vga_cls color (the_vga v)) v
  | Graphics => with_fbcon (Framebuffer.video_framebuffer_cls color (the_fbcon v)) v
  end.
Definition video_printc (chr offset fg bg : Z) (move : bool) (v : video D) : outcome (video D) :=
  match installed v with
  | Preinit => video_preinit_printc chr offset fg bg move v
  | TextMode => st ← Vga.video_vga_printc chr offset fg bg move (the_vga v); Ret (with_vga st v)
  | Graphics => st ← Framebuffer.video_framebuffer_printc chr offset fg bg move (the_fbcon v); Ret (with_fbcon st v)
  end.
Definition video_prints (str offset fg bg : Z) (move : bool) (v : video D) : outcome (video D) :=
  match installed v with
  | Preinit => video_preinit_prints str offset fg bg move v
  | TextMode => st ← Vga.video_vga_prints str offset fg bg move (the_vga v); Ret (with_vga st v)
  | Graphics => st ← Framebuffer.video_framebuffer_prints str offset fg bg move (the_fbcon v); Ret (with_fbcon st v)
  end.

(** ** Setting up a console *)

Definition install (linear : bool) (d : driver) (v : video D) : video D :=
  Video linear (preinit_buffer v) (preinit_buffer_len v) (preinit_cursor v) d (memory v) (vga v) (fbcon v).

(** What was printed before is printed, character by character. *)
Definition replay_step (v0 : video D) '((i, v) : Z * video D) : outcome (Z * video D + video D) :=
  if i <? preinit_buffer_len v0 then
    c ← of_option (preinit_buffer v0 !! Z.to_nat i);
    v ← video_printc c (-1) (-1) (-1) true v;
    Ret (inl (i + 1, v))
  else Ret (inr v).
Definition replay (v : video D) : outcome (video D) := while (replay_step v) (0, v).

Definition video_vga_init (cols rows : Z) (v : video D) : outcome (video D) :=
  let v := install false TextMode v in
  replay (with_vga (Vga.video_vga_set_size (u8 cols) (u8 rows) (the_vga v)) v).

Definition video_framebuffer_init (width height pitch bpp : Z) (v : video D) : outcome (video D) :=
  let v := install true Graphics v in
  let c := the_fbcon v in
  let c := Framebuffer.Fbcon (Framebuffer.fmem c) (Framebuffer.video_framebuffer_set_size (s32 pitch) bpp (s32 width) (s32 height))
    (Framebuffer.current_fg c) (Framebuffer.current_bg c) (Framebuffer.text_rows c) (Framebuffer.text_cols c)
    (Framebuffer.cursor_posx c) (Framebuffer.cursor_posy c) (Framebuffer.font c) (Framebuffer.font_width c) (Framebuffer.font_height c)
    (Framebuffer.font_bpg c) (Framebuffer.cursor_buffer c) (Framebuffer.cursor_buffer_posx c) (Framebuffer.cursor_buffer_posy c) in
  let '(w, h, bpg) := Framebuffer.psf_get_font_geometry (Framebuffer.fmem c) (Framebuffer.font c) in
  c ← Framebuffer.video_framebuffer_set_font_size w h bpg c;
  replay (with_fbcon c v).

Definition video_using_framebuffer (v : video D) : bool := linear_graphics_mode v.
End video.

(** ** The buffer *)

Section buffered.
Context {D : Type} `{Ports D}.

Lemma preinit_loop (m : mem) str l : cstr m str l -> forall n i c b, i + Z.of_nat n = Z.of_nat (length l) -> 0 <= i -> 0 <= c ->
  c + Z.of_nat (length l) <= Z.of_nat (length b) ->
  exists b', loop (preinit_step m str (Z.of_nat (length l))) (S n) (i, c + i, b) = Ret (c + Z.of_nat (length l), b') /\ length b' = length b /\
    (forall k x, (Z.to_nat i <= k)%nat -> l !! k = Some x -> b' !! (Z.to_nat c + k)%nat = Some (s8 x)) /\
    (forall k, (k < Z.to_nat (c + i))%nat -> b' !! k = b !! k).
Proof.
  intros C. induction n as [|n IH]; intros i c b Hn Hi Hc Hb; rewrite loop_S; unfold preinit_step at 2; cbv beta iota.
  - rewrite (proj2 (Z.ltb_ge _ _)) by lia. rewrite bind_ret. exists b. split_and!; auto; [f_equal; f_equal; lia|].
    intros k x Hk Hx. apply lookup_lt_Some in Hx. lia.
  - rewrite (proj2 (Z.ltb_lt _ _)) by lia. unfold put_buffer. replace ((0 <=? c + i) && (c + i <? Z.of_nat (length b))) with true by lia. rewrite !bind_ret.
    destruct (lookup_lt_is_Some_2 l (Z.to_nat i) ltac:(lia)) as [x0 Ex0].
    replace (load8 m (str + i)) with x0 by (pose proof (cs_bytes _ _ _ C _ _ Ex0); rewrite Z2Nat.id in *; auto; lia).
    set (b1 := <[Z.to_nat (c + i) := s8 x0]> b). replace (c + i + 1) with (c + (i + 1)) by lia.
    destruct (IH (i + 1) c b1) as (b' & E & Hlen & Hl & Hf); [lia|lia|lia|unfold b1; rewrite length_insert; lia|].
    exists b'. split_and!; [exact E|unfold b1 in Hlen; now rewrite length_insert in Hlen| |].
    + intros k x Hk Hx. destruct (decide (k = Z.to_nat i)) as [->|Nk].
      * rewrite Hf by lia. rewrite Ex0 in Hx. injection Hx as <-. unfold b1. replace (Z.to_nat c + Z.to_nat i)%nat with (Z.to_nat (c + i)) by lia.
        apply list_lookup_insert_eq. lia.
      * apply Hl; [lia|exact Hx].
    + intros k Hk. rewrite Hf by lia. unfold b1. apply list_lookup_insert_ne. lia.
Qed.

(** what is printed before there is a console is cut.  A string printed into the
    buffer is stored and moves the cursor behind it, but the buffer's length, what is
    printed once there is a console, then covers its first character only. *)
Theorem preinit_string_cut (v : video D) (str fg bg : Z) (l : list Z) :
  installed v = Preinit -> 0 <= preinit_buffer_len v <= preinit_cursor v -> cstr (memory v) str l ->
  preinit_cursor v + Z.of_nat (length l) <= Z.of_nat (length (preinit_buffer v)) <= 2 ^ 20 ->
  exists v', video_prints str (-1) fg bg true v = Ret v' /\
    preinit_cursor v' = preinit_cursor v + Z.of_nat (length l) /\
    (forall i c, l !! i = Some c -> preinit_buffer v' !! (Z.to_nat (preinit_cursor v) + i)%nat = Some (s8 c)) /\
    (forall i, (i < Z.to_nat (preinit_cursor v))%nat -> preinit_buffer v' !! i = preinit_buffer v !! i) /\
    preinit_buffer_len v' = preinit_cursor v + 1.
Proof.
  intros I Hl C Hb. unfold video_prints, video_preinit_prints. rewrite I. change (-1 <? 0) with true. cbv iota zeta.
  unfold video_preinit_get_cursor. rewrite s32_small by lia. rewrite (strlen_spec _ _ _ C) by lia. rewrite bind_ret.
  destruct (preinit_loop (memory v) str l C (length l) 0 (preinit_cursor v) (preinit_buffer v)) as (b' & E & _ & Hs & Hf); [lia|lia|lia|lia|].
  rewrite Z.add_0_r in E, Hf. rewrite (while_loop _ _ _ _ E) by (discriminate || lia). rewrite bind_ret. eexists. split; [reflexivity|].
  cbn [with_preinit preinit_cursor preinit_buffer preinit_buffer_len]. unfold preinit_length. rewrite !u32_small by lia. rewrite (proj2 (Z.leb_le _ _)) by lia. split_and!; auto.
  intros i c Hi. apply Hs; [lia|exact Hi].
Qed.
End buffered.

(** ** At start-up *)

Module Runs.
Import Vga.Runs.
Definition abc : list Z := [97; 98; 99].
Definition boot : video (Z * (Z * Z)) :=
  let m := put ∅ 100 (abc ++ [0]) in
  Video false (replicate 1024 0) 0 0 Preinit m (Vga.Vga m 7 0 0 (0, (0, 0)))
    (Framebuffer.Fbcon m (Framebuffer.Mode 0 0 0 0) 9868950 0 0 0 0 0 4096 0 0 0 (replicate 1024 0) 0 0).

Lemma preinit_string_cut_witness : exists v', video_prints 100 (-1) (-1) (-1) true boot = Ret v' /\
  preinit_cursor v' = preinit_cursor boot + Z.of_nat (length abc) /\
  (forall i c, abc !! i = Some c -> preinit_buffer v' !! (Z.to_nat (preinit_cursor boot) + i)%nat = Some (s8 c)) /\
  (forall i, (i < Z.to_nat (preinit_cursor boot))%nat -> preinit_buffer v' !! i = preinit_buffer boot !! i) /\
  preinit_buffer_len v' = preinit_cursor boot + 1.
Proof. apply (preinit_string_cut boot 100 (-1) (-1) abc); [reflexivity|cbn; lia|by_string|by_eval]. Defined.

(** The string printed before, on the console set up afterwards. *)
Example only_the_first : match video_prints 100 (-1) (-1) (-1) true boot ≫= video_vga_init 3 2 with
  | Ret v => map (fun i => (Vga.cell (memory v) i).1) (seqZ 0 3) | _ => [] end = [97; 0; 0].
Proof. vm_compute. reflexivity. Qed.
End Runs.
