(* ===== verification/Clock.v ===== *)
(** * The clock (kernel/src/driver/rtc.c, pit.c, timer.c)

    The date from the battery-backed clock at start-up, and the ticks of the interval
    timer counted since.  The clock goes on while its registers are read one by one, so
    the driver reads until two passes agree; the interface [RealTimeClock] is a clock
    whose registers change once a second, some port accesses being much faster. *)
From S2P Require Import Prelude Mem CTime Ports Procs Sched.

(** ** The real-time clock *)

Definition PORT_RTC_SELECT_REG : Z := 112.
Definition PORT_RTC_DAT : Z := 113.
Definition RTC_REG_SECOND : Z := 0.
Definition RTC_REG_MINUTE : Z := 2.
Definition RTC_REG_HOUR : Z := 4.
Definition RTC_REG_DAY : Z := 7.
Definition RTC_REG_MONTH : Z := 8.
Definition RTC_REG_YEAR : Z := 9.
Definition RTC_REG_A : Z := 10.
Definition RTC_REG_B : Z := 11.
Definition RTC_DISABLE_NMI : Z := 128.

(** What the six registers of the date hold. *)
Record stamp := Stamp { st_sec : Z; st_min : Z; st_hour : Z; st_day : Z; st_mon : Z; st_year : Z }.
#[export] Instance stamp_eq_dec : EqDecision stamp.
Proof. solve_decision. Defined.

Section rtc.
Context {D : Type} `{Ports D}.

Definition is_update_in_progress (d : D) : bool * D :=
  let d := port_outb d PORT_RTC_SELECT_REG RTC_REG_A in
  let '(v, d) := port_inb d PORT_RTC_DAT in
  (negb (Z.land v 128 =? 0), d).

Definition read_reg (reg : Z) (d : D) : Z * D := port_inb (port_outb d PORT_RTC_SELECT_REG reg) PORT_RTC_DAT.

Definition halve_step '((freq, pow) : Z * Z) : outcome (Z * Z + Z) :=
  Ret (if freq =? 1 then inr pow else inl (Z.shiftr freq 1, pow + 1)).
Definition rtc_timer_frequency (freq : Z) (d : D) : outcome D :=
  pow ← while halve_step (freq, 0);
  if 12 <? pow then Ret d
  else
    let rate := u8 (15 - pow) in
    let d := port_outb d PORT_RTC_SELECT_REG (Z.lor RTC_REG_A RTC_DISABLE_NMI) in
    let '(prev, d) := port_inb d PORT_RTC_DAT in
    let d := port_outb d PORT_RTC_SELECT_REG (Z.lor RTC_REG_A RTC_DISABLE_NMI) in
    Ret (port_outb d PORT_RTC_DAT (u8 (Z.lor (Z.land prev 240) rate))).

Definition rtc_timer_start (d : D) : D :=
  let d := port_outb d PORT_RTC_SELECT_REG (Z.lor RTC_REG_B RTC_DISABLE_NMI) in
  let '(prev, d) := port_inb d PORT_RTC_DAT in
  let d := port_outb d PORT_RTC_SELECT_REG (Z.lor RTC_REG_B RTC_DISABLE_NMI) in
  port_outb d PORT_RTC_DAT (u8 (Z.lor prev 64)).

Definition wait_step (d : D) : outcome (D + D) :=
  let '(busy, d) := is_update_in_progress d in Ret (if busy : bool then inl d else inr d).

(** One pass over the registers. *)
Definition read_stamp (d : D) : outcome (stamp * D) :=
  d ← while wait_step d;
  let '(sec, d) := read_reg RTC_REG_SECOND d in
  let '(mi, d) := read_reg RTC_REG_MINUTE d in
  let '(hour, d) := read_reg RTC_REG_HOUR d in
  let '(day, d) := read_reg RTC_REG_DAY d in
  let '(mon, d) := read_reg RTC_REG_MONTH d in
  let '(year, d) := read_reg RTC_REG_YEAR d in
  Ret (Stamp sec mi hour day mon year, d).

(** Passes until two in a row agree. *)
Definition agree_step '((last, d) : stamp * D) : outcome (stamp * D + stamp * D) :=
  '(cur, d) ← read_stamp d;
  Ret (if decide (last = cur) then inr (cur, d) else inl (cur, d)).
Definition read_agreed (d : D) : outcome (stamp * D) :=
  '(first, d) ← read_stamp d; while agree_step (first, d).

Definition bcd (v : Z) : Z := Z.land v 15 + Z.quot v 16 * 10.
Definition from_bcd (s : stamp) : stamp :=
  Stamp (bcd (st_sec s)) (bcd (st_min s))
    (Z.lor (Z.land (st_hour s) 15 + Z.quot (Z.land (st_hour s) 112) 16 * 10) (Z.land (st_hour s) 128))
    (bcd (st_day s)) (bcd (st_mon s)) (bcd (st_year s)).

(** The conversion of the registers, with the fields of the result nothing sets. *)
Definition convert_stamp (reg_b wday yday : Z) (s : stamp) : tm :=
  let s := if Z.land reg_b 4 =? 0 then from_bcd s else s in
  let hour := if (Z.land reg_b 2 =? 0) && negb (Z.land (st_hour s) 128 =? 0) then Z.rem (Z.land (st_hour s) 127 + 12) 24 else st_hour s in
  Tm (st_sec s) (st_min s) hour (st_day s) (st_mon s) (st_year s + 2000) wday yday.

(** locale_map_timezone returns what it is given. *)
Definition rtc_get_current_time (wday yday : Z) (d : D) : outcome (tm * D) :=
  '(s, d) ← read_agreed d;
  let '(reg_b, d) := read_reg RTC_REG_B d in
  Ret (convert_stamp reg_b wday yday s, d).

(** ** The interval timer *)

Definition PORT_PIT_CH0 : Z := 64.
Definition PORT_PIT_CH2 : Z := 66.
Definition PORT_PIT_COM : Z := 67.
Definition PORT_PC_SPEAKER : Z := 97.

Definition pit_timer_frequency (hz : Z) (d : D) : outcome D :=
  if hz =? 0 then Fault
  else
    let div := u16 (Z.quot 1193180 hz) in
    let d := port_outb d PORT_PIT_COM 54 in
    let d := port_outb d PORT_PIT_CH0 (Z.land div 255) in
    Ret (port_outb d PORT_PIT_CH0 (Z.shiftr div 8)).

Definition pit_get_count (d : D) : Z * D :=
  let d := port_outb d PORT_PIT_COM 0 in
  let '(lo, d) := port_inb d PORT_PIT_CH0 in
  let '(hi, d) := port_inb d PORT_PIT_CH0 in
  (Z.lor lo (Z.shiftl hi 8), d).

Definition pit_set_count (count : Z) (d : D) : D :=
  let d := port_outb d PORT_PIT_CH0 (Z.land count 255) in
  port_outb d PORT_PIT_CH0 (Z.shiftr (Z.land count 65280) 8).

Definition pit_beep_start (d : D) : D :=
  let '(tmp, d) := port_inb d PORT_PC_SPEAKER in port_outb d PORT_PC_SPEAKER (u8 (Z.lor tmp 3)).
Definition pit_beep_stop (d : D) : D :=
  let '(tmp, d) := port_inb d PORT_PC_SPEAKER in port_outb d PORT_PC_SPEAKER (Z.land tmp 252).
Definition pit_beep (freq : Z) (d : D) : outcome D :=
  if freq =? 0 then Fault
  else
    let div := u16 (Z.quot 1193180 freq) in
    let d := port_outb d PORT_PIT_COM 182 in
    let d := port_outb d PORT_PIT_CH2 (u8 div) in
    Ret (port_outb d PORT_PIT_CH2 (u8 (Z.shiftr div 8))).
End rtc.

(** ** The timer *)

Definition TIMER_FREQUENCY : Z := 1000.
Definition KERNEL_START : Z := 3221225472.

Record timer := Timer { ticks : Z; start_timestamp : Z; seconds_since_start : Z }.

Definition count_tick (t : timer) : timer :=
  let ticks' := u64 (ticks t + 1) in
  if ticks' =? TIMER_FREQUENCY then Timer 0 (start_timestamp t) (u64 (seconds_since_start t + 1))
  else Timer ticks' (start_timestamp t) (seconds_since_start t).

Definition tick_handler {E} `{ProcessEnv E} (regs : Z) (t : timer) (k : kernel E) : outcome (Z * timer * kernel E) :=
  let t := count_tick t in
  '(esp, k) ← scheduler_switch k regs;
  Ret (esp, t, k).

Definition timer_get_start_time (t : timer) : Z := start_timestamp t.
Definition timer_get_current_time (t : timer) : Z := u64 (start_timestamp t + seconds_since_start t).
Definition timer_get_seconds_since_start (t : timer) : Z := seconds_since_start t.
Definition timer_get_current_ticks (t : timer) : Z := ticks t.

Definition store64 (m : mem) (a v : Z) : mem := store32 (store32 m a v) (a + 4) (v / 2 ^ 32).

(** [user] says whether the calling process is a user process. *)
Definition timer_syscall_get_current_time (time : Z) (user : bool) (t : timer) (m : mem) : mem :=
  if time =? 0 then m
  else if user && (KERNEL_START <=? time) then m
  else store64 m time (timer_get_current_time t).

(** The interrupt handler is installed last. *)
Definition timer_init {D} `{Ports D} (wday yday : Z) (t : timer) (d : D) : outcome (timer * D) :=
  '(time, d) ← rtc_get_current_time wday yday d;
  d ← pit_timer_frequency TIMER_FREQUENCY d;
  Ret (Timer (ticks t) (u64 (mktime time)) (seconds_since_start t), d).

(** ** A clock behind the ports

    [time] counts port accesses; the registers change every [second].  [busy] is how many
    more times the update flag of register A will be seen set. *)
Class RealTimeClock (D : Type) `{Ports D} := {
  second : Z;
  second_long : 2 ^ 17 <= second;
  time : D -> Z;
  selected : D -> Z;
  busy : D -> Z;
  busy_range d : 0 <= busy d <= 2 ^ 12;
  register : Z -> Z -> Z;
  format : Z;
  register_changes n : register n RTC_REG_SECOND <> register (n + 1) RTC_REG_SECOND;
  select_reg d r : selected (port_outb d PORT_RTC_SELECT_REG r) = r /\
    time d <= time (port_outb d PORT_RTC_SELECT_REG r) <= time d + 1 /\
    (r = RTC_REG_A -> busy (port_outb d PORT_RTC_SELECT_REG r) = busy d);
  read_dat d : time d <= time (port_inb d PORT_RTC_DAT).2 <= time d + 1 /\
    (selected d <= RTC_REG_YEAR -> (port_inb d PORT_RTC_DAT).1 = register (time d / second) (selected d)) /\
    (selected d = RTC_REG_A -> (Z.land (port_inb d PORT_RTC_DAT).1 128 =? 0) = (busy d =? 0) /\
      busy (port_inb d PORT_RTC_DAT).2 = Z.max 0 (busy d - 1)) /\
    (selected d = RTC_REG_B -> (port_inb d PORT_RTC_DAT).1 = format);
}.

Section reading.
Context {D : Type} `{RealTimeClock D}.

(** The date registers after the update [n]. *)
Definition snapshot (n : Z) : stamp :=
  Stamp (register n RTC_REG_SECOND) (register n RTC_REG_MINUTE) (register n RTC_REG_HOUR)
    (register n RTC_REG_DAY) (register n RTC_REG_MONTH) (register n RTC_REG_YEAR).

Lemma wait_ready d : exists d', while wait_step d = Ret d' /\ time d <= time d' <= time d + 2 ^ 14.
Proof.
  assert (G : forall n d, busy d < Z.of_nat n -> exists d', loop wait_step n d = Ret d' /\ time d <= time d' <= time d + 2 * Z.of_nat n).
  { induction n as [|n IH]; intros d0 Hb; [pose proof (busy_range d0); lia|]. rewrite loop_S. unfold wait_step at 2. unfold is_update_in_progress.
    destruct (select_reg d0 RTC_REG_A) as (S1 & T1 & B1). set (d1 := port_outb d0 PORT_RTC_SELECT_REG RTC_REG_A) in *.
    destruct (read_dat d1) as (T2 & _ & A & _). destruct (A S1) as [V B2]. rewrite (surjective_pairing (port_inb d1 PORT_RTC_DAT)).
    set (d2 := (port_inb d1 PORT_RTC_DAT).2) in *. rewrite V, (B1 eq_refl). rewrite (B1 eq_refl) in B2.
    destruct (Z.eqb_spec (busy d0) 0) as [E|E]; cbn [negb]; rewrite bind_ret; [exists d2; split; [reflexivity|lia]|].
    destruct (IH d2) as (d' & Ed & Td); [pose proof (busy_range d0); lia|]. exists d'. split; [exact Ed|lia]. }
  destruct (G (Z.to_nat (2 ^ 12 + 1)) d) as (d' & E & T); [pose proof (busy_range d); lia|]. exists d'. split; [|lia].
  eapply while_loop; [exact E|discriminate|lia].
Qed.

Lemma read_reg_spec d r : r <= RTC_REG_YEAR -> exists n, (read_reg r d).1 = register n r /\
  time d / second <= n <= time (read_reg r d).2 / second /\ time d <= time (read_reg r d).2 <= time d + 2.
Proof.
  intros Hr. unfold read_reg. destruct (select_reg d r) as (S1 & T1 & _). set (d1 := port_outb d PORT_RTC_SELECT_REG r) in *.
  destruct (read_dat d1) as (T2 & V & _). rewrite S1 in V. exists (time d1 / second). pose proof second_long. split_and!; [exact (V Hr)| | |lia|lia]; apply Z.div_le_mono; lia.
Qed.

(** A pass may see an update between one register and the next. *)
Lemma read_stamp_spec d : exists n0 n1 n2 n3 n4 n5 d',
  read_stamp d = Ret (Stamp (register n0 RTC_REG_SECOND) (register n1 RTC_REG_MINUTE) (register n2 RTC_REG_HOUR)
    (register n3 RTC_REG_DAY) (register n4 RTC_REG_MONTH) (register n5 RTC_REG_YEAR), d') /\
  time d / second <= n0 <= n1 /\ n1 <= n2 <= n3 /\ n3 <= n4 <= n5 /\ n5 <= time d' / second /\ time d <= time d' <= time d + 2 ^ 14 + 12.
Proof.
  unfold read_stamp. destruct (wait_ready d) as (d0 & -> & T0). rewrite bind_ret. pose proof second_long as L.
  destruct (read_reg_spec d0 RTC_REG_SECOND) as (n0 & V0 & N0 & T1); [done|]. rewrite (surjective_pairing (read_reg RTC_REG_SECOND d0)), V0. set (d1 := (read_reg RTC_REG_SECOND d0).2) in *.
  destruct (read_reg_spec d1 RTC_REG_MINUTE) as (n1 & V1 & N1 & T2); [done|]. rewrite (surjective_pairing (read_reg RTC_REG_MINUTE d1)), V1. set (d2 := (read_reg RTC_REG_MINUTE d1).2) in *.
  destruct (read_reg_spec d2 RTC_REG_HOUR) as (n2 & V2 & N2 & T3); [done|]. rewrite (surjective_pairing (read_reg RTC_REG_HOUR d2)), V2. set (d3 := (read_reg RTC_REG_HOUR d2).2) in *.
  destruct (read_reg_spec d3 RTC_REG_DAY) as (n3 & V3 & N3 & T4); [done|]. rewrite (surjective_pairing (read_reg RTC_REG_DAY d3)), V3. set (d4 := (read_reg RTC_REG_DAY d3).2) in *.
  destruct (read_reg_spec d4 RTC_REG_MONTH) as (n4 & V4 & N4 & T5); [done|]. rewrite (surjective_pairing (read_reg RTC_REG_MONTH d4)), V4. set (d5 := (read_reg RTC_REG_MONTH d4).2) in *.
  destruct (read_reg_spec d5 RTC_REG_YEAR) as (n5 & V5 & N5 & T6); [done|]. rewrite (surjective_pairing (read_reg RTC_REG_YEAR d5)), V5. set (d6 := (read_reg RTC_REG_YEAR d5).2) in *.
  assert (time d / second <= time d0 / second) by (apply Z.div_le_mono; lia). exists n0, n1, n2, n3, n4, n5, d6. split_and!; [reflexivity|lia..].
Qed.

(** What a pass can see of at most one update. *)
Record pass (lo hi : Z) (s : stamp) : Prop := {
  ps_whole : lo = hi -> s = snapshot lo;
  ps_same : forall n s', n <= lo -> hi <= n + 1 -> s = s' -> (exists m, hi <= m <= n + 1 /\ st_sec s' = register m RTC_REG_SECOND) -> exists k, lo <= k <= hi /\ s = snapshot k;
}.

Lemma register_inj n a b : n <= a <= n + 1 -> n <= b <= n + 1 -> register a RTC_REG_SECOND = register b RTC_REG_SECOND -> a = b.
Proof.
  intros Ha Hb E. pose proof (register_changes n). assert (a = n \/ a = n + 1) as [-> | ->] by lia; assert (b = n \/ b = n + 1) as [-> | ->] by lia; congruence.
Qed.

Lemma read_pass d : exists s d' m, read_stamp d = Ret (s, d') /\ time d <= time d' <= time d + 2 ^ 14 + 12 /\
  time d / second <= m <= time d' / second /\ st_sec s = register m RTC_REG_SECOND /\ pass (time d / second) (time d' / second) s.
Proof.
  destruct (read_stamp_spec d) as (n0 & n1 & n2 & n3 & n4 & n5 & d' & E & N). eexists _, d', n0. split_and!; [exact E|lia|lia|lia|lia|reflexivity|].
  split.
  - intros Eq. unfold snapshot. repeat (f_equal; try lia).
  - intros n s' Hn Hn1 <- (m & Hm & Em). cbn [st_sec] in Em. apply (register_inj n) in Em; [|lia|lia]. subst m. exists n0. split; [lia|].
    unfold snapshot. repeat (f_equal; try lia).
Qed.

(** Two passes agree after at most four, and then on what the registers held at one
    time. *)
Lemma read_agreed_spec d : exists n d', read_agreed d = Ret (snapshot n, d') /\
  time d / second <= n <= time d' / second /\ time d <= time d' < time d + second.
Proof.
  unfold read_agreed. pose proof second_long as L.
  destruct (read_pass d) as (s1 & d1 & m1 & E1 & T1 & M1 & V1 & P1). destruct (read_pass d1) as (s2 & d2 & m2 & E2 & T2 & M2 & V2 & P2).
  destruct (read_pass d2) as (s3 & d3 & m3 & E3 & T3 & M3 & V3 & P3). destruct (read_pass d3) as (s4 & d4 & m4 & E4 & T4 & M4 & V4 & P4).
  set (N := time d / second) in *. assert (HN : time d4 / second <= N + 1).
  { unfold N. rewrite <- (Z.div_add (time d) 1 second) by lia. apply Z.div_le_mono; lia. }
  assert (D1 : N <= time d1 / second) by (apply Z.div_le_mono; lia). assert (D2 : time d1 / second <= time d2 / second) by (apply Z.div_le_mono; lia).
  assert (D3 : time d2 / second <= time d3 / second) by (apply Z.div_le_mono; lia). assert (D4 : time d3 / second <= time d4 / second) by (apply Z.div_le_mono; lia).
  rewrite E1, bind_ret.
  assert (Same : forall a b sa sb m, pass a b sa -> N <= a -> b <= m <= N + 1 -> st_sec sb = register m RTC_REG_SECOND -> sa = sb -> exists k, a <= k <= b /\ sb = snapshot k).
  { intros a b sa sb m P Ha Hm Hs <-. destruct (ps_same _ _ _ P N sa Ha ltac:(lia) eq_refl) as (k & Hk & Ek); [exists m; split; [lia|exact Hs]|]. exists k. now split. }
  assert (Late : forall a b c sa sb, pass a b sa -> pass b c sb -> N <= a -> a <= b <= c -> c <= N + 1 -> sa <> sb -> c = N + 1).
  { intros a b c sa sb Pa Pb Ha Hb Hc Ne. destruct (Z.eq_dec c N); [|lia]. elim Ne. rewrite (ps_whole _ _ _ Pa), (ps_whole _ _ _ Pb) by lia. f_equal. lia. }
  assert (Fin : forall sb db, (exists k, N <= k <= time db / second /\ sb = snapshot k) -> time d <= time db < time d + second ->
    exists n d', Ret (sb, db) = Ret (snapshot n, d') /\ N <= n <= time d' / second /\ time d <= time d' < time d + second).
  { intros sb db (k & Hk & ->) Tb. exists k, db. split_and!; try lia. reflexivity. }
  destruct (decide (s1 = s2)) as [Q1|Q1].
  { destruct (Fin s2 d2) as (n & d' & Ef & R); [destruct (Same _ _ s1 s2 m2 P1) as (k & Hk & Ek); [lia|lia|exact V2|exact Q1|]; exists k; split; [lia|exact Ek]|lia|].
    exists n, d'. split; [|exact R]. rewrite <- Ef. eapply (while_loop _ 1); [|discriminate|lia]. rewrite loop_S. unfold agree_step at 2. rewrite E2, bind_ret. now rewrite decide_True. }
  pose proof (Late _ _ _ _ _ P1 P2 ltac:(lia) ltac:(lia) ltac:(lia) Q1) as L2. destruct (decide (s2 = s3)) as [Q2|Q2].
  { destruct (Fin s3 d3) as (n & d' & Ef & R); [destruct (Same _ _ s2 s3 m3 P2) as (k & Hk & Ek); [lia|lia|exact V3|exact Q2|]; exists k; split; [lia|exact Ek]|lia|].
    exists n, d'. split; [|exact R]. rewrite <- Ef. eapply (while_loop _ 2); [|discriminate|lia]. rewrite loop_S. unfold agree_step at 2. rewrite E2, bind_ret, decide_False by exact Q1. rewrite bind_ret.
    rewrite loop_S. unfold agree_step at 2. rewrite E3, bind_ret. now rewrite decide_True. }
  assert (Q3 : s3 = s4) by (rewrite (ps_whole _ _ _ P3), (ps_whole _ _ _ P4) by lia; f_equal; lia).
  destruct (Fin s4 d4) as (n & d' & Ef & R); [exists (time d3 / second); split; [lia|]; rewrite (ps_whole _ _ _ P4) by lia; f_equal; lia|lia|].
  exists n, d'. split; [|exact R]. rewrite <- Ef. eapply (while_loop _ 3); [|discriminate|lia]. rewrite loop_S. unfold agree_step at 2. rewrite E2, bind_ret, decide_False by exact Q1. rewrite bind_ret.
  rewrite loop_S. unfold agree_step at 2. rewrite E3, bind_ret, decide_False by exact Q2. rewrite bind_ret. rewrite loop_S. unfold agree_step at 2. rewrite E4, bind_ret. now rewrite decide_True.
Qed.
End reading.

(** ** Dates in the registers

    Register B says whether the values are binary or decimal digits and whether hours
    are counted from 0 to 23 or from 1 to 12, with bit 7 for the afternoon. *)
Definition to_bcd (v : Z) : Z := 16 * (v / 10) + v mod 10.
Definition binary (format : Z) : bool := negb (Z.land format 4 =? 0).
Definition full_day (format : Z) : bool := negb (Z.land format 2 =? 0).

Definition encode_hour (bin full : bool) (h : Z) : Z :=
  let code v := if bin then v else to_bcd v in
  if full then code h else code (if h mod 12 =? 0 then 12 else h mod 12) + 128 * Z.b2z (12 <=? h).
Definition encode_stamp (format : Z) (t : tm) : stamp :=
  let code v := if binary format then v else to_bcd v in
  Stamp (code (tm_sec t)) (code (tm_min t)) (encode_hour (binary format) (full_day format) (tm_hour t)) (code (tm_mday t)) (code (tm_mon t)) (code (tm_year t - 2000)).

(** A date that the two digits of the year can show. *)
Definition of_century (t : tm) : Prop := valid_tm t /\ 2000 <= tm_year t < 2100.

(** How many seconds the driver is wrong by: with hours counted from 1 to 12 it takes the
    hour after midnight for the one after noon, and that for the one after midnight. *)
Definition noon_error (format hour : Z) : Z :=
  if full_day format then 0 else if hour =? 0 then 12 * 3600 else if hour =? 12 then - (12 * 3600) else 0.

Lemma bcd_roundtrip v : 0 <= v < 100 -> bcd (to_bcd v) = v.
Proof. revert v. apply (forall_below 100 (fun v => bcd (to_bcd v) = v)). by_eval. Qed.

Definition decode_hour (bin full : bool) (v : Z) : Z :=
  let v := if bin then v else Z.lor (Z.land v 15 + Z.quot (Z.land v 112) 16 * 10) (Z.land v 128) in
  if negb full && negb (Z.land v 128 =? 0) then Z.rem (Z.land v 127 + 12) 24 else v.

Lemma hour_decoded format h : 0 <= h < 24 ->
  let h' := decode_hour (binary format) (full_day format) (encode_hour (binary format) (full_day format) h) in
  0 <= h' < 24 /\ 3600 * h' = 3600 * h + noon_error format h.
Proof.
  unfold noon_error. revert h. destruct (binary format), (full_day format); match goal with |- forall h, _ -> ?P => apply (forall_below 24 (fun h => P)) end;
    repeat constructor; try by_eval; lia.
Qed.

Lemma convert_encode (format wday yday : Z) (t : tm) : of_century t -> let t' := convert_stamp format wday yday (encode_stamp format t) in
  valid_tm t' /\ tm_year t' = tm_year t /\ CTime.seconds t' = CTime.seconds t + noon_error format (tm_hour t).
Proof.
  intros ((Hs & Hm & Hh & Hmo & Hd) & Hy). pose proof (days_in_month_range (tm_mon t) (is_leap_year (tm_year t))) as Hdm.
  destruct (hour_decoded format (tm_hour t) Hh) as [Hr E]. set (h := decode_hour _ _ _) in *. cbv zeta.
  replace (convert_stamp _ _ _ _) with (Tm (tm_sec t) (tm_min t) h (tm_mday t) (tm_mon t) (tm_year t) wday yday).
  { unfold valid_tm, CTime.seconds. cbn [tm_sec tm_min tm_hour tm_mday tm_mon tm_year]. split_and!; auto; lia. }
  unfold h, decode_hour, full_day. rewrite negb_involutive. unfold convert_stamp, encode_stamp, from_bcd. unfold binary in *.
  destruct (Z.land format 4 =? 0); cbn [negb st_sec st_min st_hour st_day st_mon st_year] in *; cbv zeta in *; rewrite ?bcd_roundtrip by lia; f_equal; lia.
Qed.

Lemma seconds_in_range t : valid_tm t -> 2000 <= tm_year t < 2100 -> 0 <= CTime.seconds t < 2 ^ 64.
Proof.
  intros (? & ? & ? & ? & V) Y. unfold CTime.seconds, SECS_PER_DAY. pose proof (days_before_bounds (tm_year t) ltac:(lia)). pose proof (days_to_month_bounds (is_leap_year (tm_year t)) (Z.to_nat (tm_mon t - 1))).
  pose proof (days_in_month_range (tm_mon t) (is_leap_year (tm_year t))). lia.
Qed.

(** C27: the clock is set.  Whatever the format of its registers, when they go through
    the dates [date], of the years 2000 to 2099, timer_init ends, though an update may come
    while it reads them, and takes for the start of the system the time of the date they
    show at one moment of this; but on a clock with hours from 1 to 12 that time is twelve
    hours late in the hour after midnight and twelve hours early in the hour after noon
    ([noon_error]). *)
Theorem timer_init_reads_clock {D} `{RealTimeClock D} (d : D) (date : Z -> tm) (wday yday : Z) (t : timer) :
  (forall n, snapshot n = encode_stamp format (date n)) ->
  (forall n, time d / second <= n <= time d / second + 1 -> of_century (date n)) ->
  exists n t' d', timer_init wday yday t d = Ret (t', d') /\ time d / second <= n <= time d / second + 1 /\
    timer_get_start_time t' = CTime.seconds (date n) + noon_error format (tm_hour (date n)) /\
    ticks t' = ticks t /\ seconds_since_start t' = seconds_since_start t.
Proof.
  intros Enc Rd. destruct (read_agreed_spec d) as (n & d1 & E & Hn & T). pose proof second_long as L.
  assert (Hn1 : time d / second <= n <= time d / second + 1).
  { split; [lia|]. etransitivity; [apply Hn|]. rewrite <- (Z.div_add (time d) 1 second) by lia. apply Z.div_le_mono; lia. }
  unfold timer_init, rtc_get_current_time. rewrite E, bind_ret. unfold read_reg. destruct (select_reg d1 RTC_REG_B) as (S1 & _ & _).
  set (d2 := port_outb d1 PORT_RTC_SELECT_REG RTC_REG_B) in *. destruct (read_dat d2) as (_ & _ & _ & B). rewrite (surjective_pairing (port_inb d2 PORT_RTC_DAT)), (B S1), bind_ret.
  specialize (Rd n Hn1). destruct (convert_encode format wday yday (date n) Rd) as (V & Ey & Es). rewrite Enc. set (t1 := convert_stamp _ _ _ _) in *. destruct Rd as [_ Y]. rewrite <- Ey in Y.
  eexists n, _, _. split; [reflexivity|]. split; [exact Hn1|]. split; [|now split]. rewrite <- Es.
  unfold timer_get_start_time. cbn [start_timestamp]. rewrite mktime_seconds; [|exact V|lia]. unfold u64. apply Z.mod_small. now apply seconds_in_range.
Qed.

(** ** Counting *)

Fixpoint count_ticks (n : nat) (t : timer) : timer := match n with O => t | S n => count_ticks n (count_tick t) end.

(** After [n] ticks a thousandth of them are counted as seconds, the rest as ticks. *)
Lemma count_ticks_spec n t : 0 <= ticks t < TIMER_FREQUENCY -> 0 <= seconds_since_start t -> seconds_since_start t + Z.of_nat n < 2 ^ 64 ->
  count_ticks n t = Timer ((ticks t + Z.of_nat n) mod TIMER_FREQUENCY) (start_timestamp t) (seconds_since_start t + (ticks t + Z.of_nat n) / TIMER_FREQUENCY).
Proof.
  unfold TIMER_FREQUENCY. revert t. induction n as [|n IH]; intros [k s c] Hk Hc Hn; cbn [ticks start_timestamp seconds_since_start] in *.
  - cbn [count_ticks]. rewrite Z.add_0_r, Z.mod_small, Z.div_small by lia. f_equal; lia.
  - cbn [count_ticks]. unfold count_tick, TIMER_FREQUENCY. cbn [ticks start_timestamp seconds_since_start]. unfold u64. rewrite (Z.mod_small (k + 1)) by lia.
    destruct (Z.eqb_spec (k + 1) 1000) as [E|E].
    + rewrite Z.mod_small by lia. rewrite IH by (cbn; lia). cbn [ticks start_timestamp seconds_since_start].
      replace (k + Z.of_nat (S n)) with (0 + Z.of_nat n + 1 * 1000) by lia. rewrite Z.mod_add, Z.div_add by lia. f_equal. lia.
    + rewrite IH by (cbn; lia). cbn [ticks start_timestamp seconds_since_start]. f_equal; [f_equal; lia|f_equal; f_equal; lia].
Qed.

(** ** A clock *)

Module Runs.
(** Time and selected register; the registers of a clock of 24 hours in binary that
    starts a second before midnight of 29 February 2024. *)
Definition show (n : Z) : tm := if n =? 0 then Tm 59 59 23 29 2 2024 4 59 else Tm (n mod 2 * 30) 0 0 1 3 2024 5 60.
Definition reg_of (s : stamp) (r : Z) : Z :=
  if r =? 0 then st_sec s else if r =? 2 then st_min s else if r =? 4 then st_hour s else if r =? 7 then st_day s else if r =? 8 then st_mon s else if r =? 9 then st_year s else 0.
#[export] Instance clock_ports : Ports (Z * Z) := {
  port_inb d p := (if p =? PORT_RTC_DAT then if d.2 =? 11 then 6 else reg_of (encode_stamp 6 (show (d.1 / 2 ^ 17))) d.2 else 0, (d.1 + 1, d.2));
  port_inw d p := (0, d);
  port_outb d p v := (d.1 + 1, if p =? PORT_RTC_SELECT_REG then v else d.2);
  port_outw d p v := d;
}.
Lemma show_changes n : reg_of (encode_stamp 6 (show n)) 0 <> reg_of (encode_stamp 6 (show (n + 1))) 0.
Proof.
  change (tm_sec (show n) <> tm_sec (show (n + 1))). unfold show. pose proof (Z.mod_pos_bound n 2). pose proof (Z.mod_pos_bound (n + 1) 2).
  destruct (Z.eqb_spec n 0), (Z.eqb_spec (n + 1) 0); cbn [tm_sec]; try lia. rewrite Zplus_mod. pose proof (Z.mod_pos_bound n 2). assert (n mod 2 = 0 \/ n mod 2 = 1) as [-> | ->] by lia; by_eval.
Qed.
#[export] Program Instance clock : RealTimeClock (Z * Z) := {
  second := 2 ^ 17;
  time d := d.1;
  selected d := d.2;
  busy d := 0;
  register n r := reg_of (encode_stamp 6 (show n)) r;
  format := 6;
}.
Next Obligation. cbn. lia. Qed.
Next Obligation. intros. cbn. lia. Qed.
Next Obligation. intros. apply show_changes. Qed.
Next Obligation. intros [t s] r. cbn. lia. Qed.
Next Obligation.
  intros [t s]. cbn [fst snd port_inb clock_ports]. split_and!; try lia.
  - intros Hs. change (PORT_RTC_DAT =? PORT_RTC_DAT) with true. cbv iota. now rewrite (proj2 (Z.eqb_neq _ _)) by (unfold RTC_REG_YEAR in *; lia).
  - intros ->. split; [|reflexivity]. reflexivity.
  - now intros ->.
Qed.

Lemma timer_init_witness : exists n t' d', timer_init 0 0 (Timer 0 0 0) (131070, 0) = Ret (t', d') /\ time (131070, 0) / second <= n <= time (131070, 0) / second + 1 /\
  timer_get_start_time t' = CTime.seconds (show n) + noon_error 6 (tm_hour (show n)) /\ ticks t' = 0 /\ seconds_since_start t' = 0.
Proof.
  change (noon_error 6) with (noon_error (@format (Z * Z) _ clock)).
  apply (timer_init_reads_clock (131070, 0) show 0 0 (Timer 0 0 0)); [reflexivity|].
  intros n Hn. replace (time (131070, 0) / second) with 0 in Hn by by_eval. assert (n = 0 \/ n = 1) as [-> | ->] by lia; (split; [|cbn; lia]); split_and!; by_eval.
Defined.

(** Noon and midnight on a twelve-hour clock. *)
Example twelve_hours : map (fun h => decode_hour true false (encode_hour true false h)) [0; 11; 12; 23] = [12; 11; 0; 23].
Proof. vm_compute. reflexivity. Qed.

(** A user pointer just below the kernel passes the check, and half of the time is
    written behind it. *)
Example time_over_kernel : load8 (timer_syscall_get_current_time (KERNEL_START - 4) true (Timer 0 (2 ^ 32) 0) ∅) KERNEL_START = 1.
Proof. vm_compute. reflexivity. Qed.
End Runs.
