(* ===== verification/Space.v ===== *)
(** * Address spaces (interface)

    What the program loader and process creation ask of the layers below: physical
    blocks, pages of a page directory, memory as the page directory in use shows it, and
    the kernel heap.  Following an address that is not mapped is a [Fault].  The laws are
    about [view], what a directory shows of the memory these parts use: below KERNEL_START
    the pages mapped there, above it, the same in all directories, the blocks of the
    kernel heap handed out to these parts and the kernel's own arrays they use. *)
From S2P Require Import Prelude.

Definition KERNEL_START : Z := 3221225472.
Definition MMNGR_PAGE_SIZE : Z := 4096.
Definition PTE_PRESENT : Z := 1.
Definition PTE_WRITABLE : Z := 2.
Definition PTE_USER : Z := 4.

Class AddressSpaces (E : Type) := {
  alloc_multi_block : E -> Z -> Z * E;                (** pmmngr_alloc_multi_block *)
  map_page : E -> Z -> Z -> Z -> Z -> bool * E;       (** vmmngr_map(pd, phys, virt, flags): did it fail *)
  get_page_directory : E -> Z;
  switch_page_directory : E -> Z -> E;
  kmalloc : E -> Z -> Z * E;
  kfree : E -> Z -> E;
  load : E -> Z -> outcome Z;                         (** a byte at a virtual address *)
  store : E -> Z -> Z -> outcome E;
}.

Definition page_of (a : Z) : Z := a / MMNGR_PAGE_SIZE.

(** NULL is the directory in use. *)
Definition target {E} `{AddressSpaces E} (e : E) (pd : Z) : Z := if pd =? 0 then get_page_directory e else pd.

(** [owned e phys]: a block that was allocated and is not mapped yet.  [static a]: an
    address of the kernel's image, which is mapped and not part of the heap. *)
Class AddressSpaceLaws (E : Type) `{AddressSpaces E} := {
  view : E -> Z -> Z -> option Z;
  owned : E -> Z -> Prop;
  static : Z -> Prop;
  static_kernel a : static a -> KERNEL_START <= a;
  static_view e pd a : static a -> view e pd a <> None;
  view_byte e pd a b : view e pd a = Some b -> 0 <= b < 256;
  view_kernel e pd pd' a : KERNEL_START <= a -> view e pd a = view e pd' a;
  load_view e a : load e a = of_option (view e (get_page_directory e) a);
  store_fault e a v : view e (get_page_directory e) a = None -> store e a v = Fault;
  store_view e a v : view e (get_page_directory e) a <> None -> exists e', store e a v = Ret e' /\
    get_page_directory e' = get_page_directory e /\
    (forall b, view e' (get_page_directory e) b = if b =? a then Some (u8 v) else view e (get_page_directory e) b) /\
    (forall pd b, pd <> get_page_directory e -> b < KERNEL_START -> view e' pd b = view e pd b);
  switch_view e dir : get_page_directory (switch_page_directory e dir) = dir /\ view (switch_page_directory e dir) = view e;
  alloc_view e n r e' : alloc_multi_block e n = (r, e') -> get_page_directory e' = get_page_directory e /\ view e' = view e /\
    (r <> 0 -> 0 < r /\ r + n * MMNGR_PAGE_SIZE <= 2 ^ 32 /\ forall i, 0 <= i < n -> owned e' (r + i * MMNGR_PAGE_SIZE));
  map_view e pd phys virt flags err e' : map_page e pd phys virt flags = (err, e') -> virt < KERNEL_START -> owned e phys ->
    get_page_directory e' = get_page_directory e /\
    (forall a, page_of a <> page_of virt -> view e' (target e pd) a = view e (target e pd) a) /\
    (forall pd' a, pd' <> target e pd -> a < KERNEL_START -> view e' pd' a = view e pd' a) /\
    (err = false -> forall a, page_of a = page_of virt -> view e' (target e pd) a <> None) /\
    (forall p, p <> phys -> owned e p -> owned e' p);
  kmalloc_view e n r e' : kmalloc e n = (r, e') -> get_page_directory e' = get_page_directory e /\
    (forall pd a, a < KERNEL_START \/ view e pd a <> None -> view e' pd a = view e pd a) /\
    (r <> 0 -> KERNEL_START <= r /\ r + n < 2 ^ 32 /\ forall pd i, 0 <= i < n -> view e pd (r + i) = None /\ view e' pd (r + i) <> None);
  kfree_view e p : get_page_directory (kfree e p) = get_page_directory e /\ forall pd a, a < KERNEL_START \/ static a -> view (kfree e p) pd a = view e pd a;
}.

(** ** Words and blocks *)

Section memory.
Context {E : Type} `{AddressSpaces E}.

Definition load16 (e : E) (a : Z) : outcome Z := b0 ← load e a; b1 ← load e (a + 1); Ret (b0 + 2 ^ 8 * b1).
Definition load32 (e : E) (a : Z) : outcome Z := h0 ← load16 e a; h1 ← load16 e (a + 2); Ret (h0 + 2 ^ 16 * h1).
Definition store32 (e : E) (a v : Z) : outcome E :=
  e ← store e a v; e ← store e (a + 1) (v / 2 ^ 8); e ← store e (a + 2) (v / 2 ^ 16); store e (a + 3) (v / 2 ^ 24).

Definition copy_byte (dst src i : Z) (e : E) : outcome E := b ← load e (src + i); store e (dst + i) b.
Definition memcpy (e : E) (dst src size : Z) : outcome E := for_each (copy_byte dst src) 0 (Z.to_nat size) e.
Definition memset (e : E) (dst value size : Z) : outcome E := for_each (fun i e => store e (dst + i) value) 0 (Z.to_nat size) e.
End memory.

Section views.
Context {E : Type} `{AddressSpaceLaws E}.

(** The [n] bytes from [a] on are mapped. *)
Definition mapped (e : E) (pd a n : Z) : Prop := forall i, 0 <= i < n -> view e pd (a + i) <> None.

(** The active directory shows the bytes [l] from [a] on. *)
Definition shows_bytes (e : E) (pd a : Z) (l : list Z) : Prop := forall i b, l !! i = Some b -> view e pd (a + Z.of_nat i) = Some b.

(** [e'] differs from [e] in the active directory's bytes from [a] to [a + n] at most. *)
Definition only_at (e e' : E) (a n : Z) : Prop :=
  get_page_directory e' = get_page_directory e /\
  (forall b, ~ (a <= b < a + n) -> view e' (get_page_directory e) b = view e (get_page_directory e) b) /\
  (forall pd b, pd <> get_page_directory e -> b < KERNEL_START -> view e' pd b = view e pd b).

Lemma only_at_refl e a n : only_at e e a n.
Proof. now split. Qed.

Lemma only_at_trans e e1 e2 a n b k lo hi : only_at e e1 a n -> only_at e1 e2 b k -> lo <= a -> a + n <= hi -> lo <= b -> b + k <= hi -> only_at e e2 lo (hi - lo).
Proof.
  intros (A1 & V1 & O1) (A2 & V2 & O2) ? ? ? ?. rewrite A1 in *. split; [exact A2|]. split.
  - intros x Hx. rewrite V2, V1 by lia. reflexivity.
  - intros pd x Hp Hx. rewrite O2, O1 by auto. reflexivity.
Qed.

Lemma only_at_within e e1 e2 a n b k lo m : only_at e e1 a n -> only_at e1 e2 b k -> lo <= a -> a + n <= lo + m -> lo <= b -> b + k <= lo + m -> only_at e e2 lo m.
Proof. intros. replace m with (lo + m - lo) by lia. eapply only_at_trans; eauto. Qed.

Lemma store_ok e a v : view e (get_page_directory e) a <> None -> exists e', store e a v = Ret e' /\ only_at e e' a 1 /\ view e' (get_page_directory e) a = Some (u8 v).
Proof.
  intros M. destruct (store_view e a v M) as (e' & E' & A & V & O). exists e'. split; [exact E'|]. split; [|now rewrite V, Z.eqb_refl].
  split; [exact A|]. split; [|exact O]. intros b Hb. rewrite V. now rewrite (proj2 (Z.eqb_neq _ _)) by lia.
Qed.

(** A block filled byte by byte, each value computed from bytes elsewhere. *)
Lemma fill_block (body : Z -> E -> outcome E) (f : Z -> Z) e a n : 0 <= n -> mapped e (get_page_directory e) a n ->
  (forall i e1, 0 <= i < n -> only_at e e1 a n -> body i e1 = store e1 (a + i) (f i)) ->
  exists e', for_each body 0 (Z.to_nat n) e = Ret e' /\ only_at e e' a n /\
    forall i, 0 <= i < n -> view e' (get_page_directory e) (a + i) = Some (u8 (f i)).
Proof.
  intros Hn M B. set (P := fun k e1 => only_at e e1 a n /\ (forall i, 0 <= i < k -> view e1 (get_page_directory e) (a + i) = Some (u8 (f i))) /\
    mapped e1 (get_page_directory e) a n).
  destruct (for_each_inv body P 0 (Z.to_nat n) e) as (e' & E' & On & V & _).
  - split; [apply only_at_refl|]. split; [lia|exact M].
  - intros j e1 Hj (On & V & M1). pose proof On as (A1 & _ & _). rewrite B by (auto; lia). destruct (store_ok e1 (a + j) (f j)) as (e2 & E2 & On2 & V2); [rewrite A1; apply M1; lia|].
    rewrite A1 in V2. exists e2. split; [exact E2|]. pose proof On2 as (A2 & W2 & _). rewrite A1 in W2. split; [|split].
    + replace n with (a + n - a) by lia. eapply only_at_trans; eauto; lia.
    + intros i Hi. destruct (Z.eq_dec i j) as [->|]; [exact V2|]. rewrite W2 by lia. apply V. lia.
    + intros i Hi. destruct (Z.eq_dec i j) as [->|]; [now rewrite V2|]. rewrite W2 by lia. now apply M1.
  - exists e'. split; [exact E'|]. split; [exact On|]. intros i Hi. apply V. lia.
Qed.

Lemma memset_ok e a v n : 0 <= n -> mapped e (get_page_directory e) a n -> exists e', memset e a v n = Ret e' /\ only_at e e' a n /\
  forall i, 0 <= i < n -> view e' (get_page_directory e) (a + i) = Some (u8 v).
Proof. intros Hn M. apply (fill_block (fun i e => store e (a + i) v) (fun _ => v)); auto. Qed.

(** The source does not overlap the destination. *)
Lemma memcpy_ok e dst src l : mapped e (get_page_directory e) dst (Z.of_nat (length l)) -> shows_bytes e (get_page_directory e) src l ->
  src + Z.of_nat (length l) <= dst \/ dst + Z.of_nat (length l) <= src ->
  exists e', memcpy e dst src (Z.of_nat (length l)) = Ret e' /\ only_at e e' dst (Z.of_nat (length l)) /\ shows_bytes e' (get_page_directory e) dst l.
Proof.
  intros M S Dis. set (n := Z.of_nat (length l)) in *. destruct (fill_block (copy_byte dst src) (fun i => default 0 (l !! Z.to_nat i)) e dst n) as (e' & E' & On & V); [lia|exact M| |].
  - intros i e1 Hi (A1 & W1 & _). unfold copy_byte. destruct (lookup_lt_is_Some_2 l (Z.to_nat i) ltac:(lia)) as [b Hb].
    rewrite load_view, A1, W1 by lia. replace (src + i) with (src + Z.of_nat (Z.to_nat i)) by lia. rewrite (S _ _ Hb). cbn [of_option]. rewrite bind_ret. now rewrite Hb.
  - exists e'. split; [exact E'|]. split; [exact On|]. intros i b Hb. pose proof (lookup_lt_Some _ _ _ Hb). rewrite V by lia. rewrite Nat2Z.id, Hb. cbn [default].
    f_equal. apply u8_small. apply (view_byte e (get_page_directory e) (src + Z.of_nat i)). now apply S.
Qed.

(** A word in memory. *)
Definition word_bytes (v : Z) : list Z := [u8 v; u8 (v / 2 ^ 8); u8 (v / 2 ^ 16); u8 (v / 2 ^ 24)].
Definition shows_word (e : E) (pd a v : Z) : Prop := shows_bytes e pd a (word_bytes v).

Lemma shows_bytes_cons e pd a b l : shows_bytes e pd a (b :: l) <-> view e pd a = Some b /\ shows_bytes e pd (a + 1) l.
Proof.
  split.
  - intros S. split; [rewrite <- (Z.add_0_r a); now apply (S 0%nat)|]. intros i c Hc. replace (a + 1 + Z.of_nat i) with (a + Z.of_nat (Datatypes.S i)) by lia. now apply S.
  - intros [V S] [|i] c Hc; cbn in Hc; [injection Hc as <-; now rewrite Z.add_0_r|]. replace (a + Z.of_nat (Datatypes.S i)) with (a + 1 + Z.of_nat i) by lia. now apply S.
Qed.

Lemma shows_bytes_app e pd a l k : shows_bytes e pd a (l ++ k) <-> shows_bytes e pd a l /\ shows_bytes e pd (a + Z.of_nat (length l)) k.
Proof.
  revert a. induction l as [|b l IH]; intros a; cbn [app length]; [rewrite Z.add_0_r; split; [intros; split; [intros i c Hc; now rewrite lookup_nil in Hc|assumption]|tauto]|].
  rewrite !shows_bytes_cons, IH. replace (a + 1 + Z.of_nat (length l)) with (a + Z.of_nat (Datatypes.S (length l))) by lia. tauto.
Qed.

Lemma shows_word_iff e pd a v : shows_word e pd a v <-> view e pd a = Some (u8 v) /\ view e pd (a + 1) = Some (u8 (v / 2 ^ 8)) /\
  view e pd (a + 2) = Some (u8 (v / 2 ^ 16)) /\ view e pd (a + 3) = Some (u8 (v / 2 ^ 24)).
Proof.
  unfold shows_word, word_bytes. rewrite !shows_bytes_cons. replace (a + 1 + 1) with (a + 2) by lia. replace (a + 2 + 1) with (a + 3) by lia.
  split; [tauto|]. intros (? & ? & ? & ?). split_and!; auto. intros i b Hb. now rewrite lookup_nil in Hb.
Qed.

(** What another block's changes leave alone. *)
Lemma shows_only e e' a n b l : only_at e e' a n -> b + Z.of_nat (length l) <= a \/ a + n <= b ->
  shows_bytes e (get_page_directory e) b l -> shows_bytes e' (get_page_directory e) b l.
Proof. intros (_ & W & _) D S i c Hc. pose proof (lookup_lt_Some _ _ _ Hc). rewrite W by lia. now apply S. Qed.

Lemma mapped_only e e' a n b k : only_at e e' a n -> (forall i, 0 <= i < n -> view e' (get_page_directory e) (a + i) <> None) ->
  mapped e (get_page_directory e) b k -> mapped e' (get_page_directory e) b k.
Proof.
  intros (_ & W & _) F M i Hi. destruct (decide (a <= b + i < a + n)); [replace (b + i) with (a + (b + i - a)) by lia; apply F; lia|].
  rewrite W by lia. now apply M.
Qed.

Lemma shows_mapped e pd a l : shows_bytes e pd a l -> mapped e pd a (Z.of_nat (length l)).
Proof. intros S i Hi. destruct (lookup_lt_is_Some_2 l (Z.to_nat i) ltac:(lia)) as [b Hb]. specialize (S _ _ Hb). rewrite Z2Nat.id in S by lia. congruence. Qed.

Lemma store32_ok e a v : mapped e (get_page_directory e) a 4 ->
  exists e', store32 e a v = Ret e' /\ only_at e e' a 4 /\ shows_word e' (get_page_directory e) a v.
Proof.
  intros M. unfold store32. set (pd := get_page_directory e) in *.
  destruct (store_ok e a v) as (e1 & E1 & O1 & V1); [fold pd; rewrite <- (Z.add_0_r a); apply M; lia|]. rewrite E1, bind_ret. pose proof O1 as (A1 & W1 & _). fold pd in V1, W1, A1.
  destruct (store_ok e1 (a + 1) (v / 2 ^ 8)) as (e2 & E2 & O2 & V2); [rewrite A1, W1 by lia; apply M; lia|]. rewrite E2, bind_ret. pose proof O2 as (A2 & W2 & _). rewrite A1 in V2, W2, A2.
  destruct (store_ok e2 (a + 2) (v / 2 ^ 16)) as (e3 & E3 & O3 & V3); [rewrite A2, W2, W1 by lia; apply M; lia|]. rewrite E3, bind_ret. pose proof O3 as (A3 & W3 & _). rewrite A2 in V3, W3, A3.
  destruct (store_ok e3 (a + 3) (v / 2 ^ 24)) as (e4 & E4 & O4 & V4); [rewrite A3, W3, W2, W1 by lia; apply M; lia|]. pose proof O4 as (A4 & W4 & _). rewrite A3 in V4, W4, A4.
  exists e4. split; [exact E4|]. split.
  - apply (only_at_within e e3 e4 a 3 (a + 3) 1); try lia; [|exact O4]. apply (only_at_within e e2 e3 a 2 (a + 2) 1); try lia; [|exact O3]. apply (only_at_within e e1 e2 a 1 (a + 1) 1); auto; lia.
  - apply shows_word_iff. split_and!; [rewrite W4, W3, W2 by lia; exact V1|rewrite W4, W3 by lia; exact V2|rewrite W4 by lia; exact V3|exact V4].
Qed.

Lemma load32_word e a v : shows_word e (get_page_directory e) a v -> load32 e a = Ret (u32 v).
Proof.
  intros (V0 & V1 & V2 & V3)%shows_word_iff. unfold load32, load16. replace (a + 2 + 1) with (a + 3) by lia. rewrite !load_view, V0, V1, V2, V3. cbn [of_option]. rewrite !bind_ret. f_equal.
  unfold u8, u32. Z.to_euclidean_division_equations. lia.
Qed.

(** Little-endian values in a list of bytes. *)
Definition byte_at (l : list Z) (o : Z) : Z := default 0 (l !! Z.to_nat o).
Definition half_at (l : list Z) (o : Z) : Z := byte_at l o + 2 ^ 8 * byte_at l (o + 1).
Definition word_at (l : list Z) (o : Z) : Z := half_at l o + 2 ^ 16 * half_at l (o + 2).

Lemma load_at e a l o : shows_bytes e (get_page_directory e) a l -> 0 <= o < Z.of_nat (length l) -> load e (a + o) = Ret (byte_at l o).
Proof.
  intros S Ho. destruct (lookup_lt_is_Some_2 l (Z.to_nat o) ltac:(lia)) as [b Hb]. rewrite load_view. replace (a + o) with (a + Z.of_nat (Z.to_nat o)) by lia.
  rewrite (S _ _ Hb). unfold byte_at. now rewrite Hb.
Qed.
Lemma load16_at e a l o : shows_bytes e (get_page_directory e) a l -> 0 <= o -> o + 2 <= Z.of_nat (length l) -> load16 e (a + o) = Ret (half_at l o).
Proof. intros S H1 H2. unfold load16. rewrite <- Z.add_assoc, !(load_at e a l) by (auto; lia). reflexivity. Qed.
Lemma load32_at e a l o : shows_bytes e (get_page_directory e) a l -> 0 <= o -> o + 4 <= Z.of_nat (length l) -> load32 e (a + o) = Ret (word_at l o).
Proof. intros S H1 H2. unfold load32. rewrite <- Z.add_assoc, !(load16_at e a l) by (auto; lia). reflexivity. Qed.
End views.
