(* ===== verification/Elf.v ===== *)
(** * The program loader (kernel/src/misc/elf.c)

    A program file is read into the kernel heap, checked, given pages for all of its
    segments at once and copied to where they belong.  The files and the address spaces
    are interfaces ([Space]). *)
From S2P Require Import Prelude Fs Space.

Inductive ELF_ERR :=
  | ERR_ELF_SUCCESS | ERR_ELF_OOM | ERR_ELF_FILE_ERROR | ERR_ELF_NOT_ELF | ERR_ELF_NOT_32_BITS
  | ERR_ELF_NOT_LITTLE_ENDIAN | ERR_ELF_NOT_x86.
#[export] Instance ELF_ERR_eq_dec : EqDecision ELF_ERR.
Proof. solve_decision. Defined.

Definition ELF_MAGIC : Z := 1179403647.
Definition ELF_32_BITS : Z := 1.
Definition ELF_LITTLE_ENDIAN : Z := 1.
Definition ELF_INSSET_X86 : Z := 3.
Definition ELF_PT_LOAD : Z := 1.

(** The program files: finding a node, its size, opening and reading it.  A node found is
    not NULL. *)
Class ProgramFiles (E : Type) := {
  find_node : E -> Z -> FS_ERR * Z * E;             (** vfs_find_and_create_node(path, root, &node, 0, 0) *)
  node_size : E -> Z -> Z;
  open_node : E -> Z -> FS_ERR * E;                 (** file_open(&f, node, FILE_OPEN_READ) *)
  read_node : E -> Z -> Z -> Z -> FS_ERR * E;       (** file_read(&f, addr, size, &read_size) *)
  sync_node : E -> Z -> E;
}.

(** [content]: the bytes of a program file, as many as its size says; [stored]: how many of
    them the file still holds (a file can hold fewer than its size,
    [RamfsFiles.file_write_drops_rest]).  A read of the whole file that meets the end of what
    is stored leaves the rest of the buffer alone and reports ERR_FS_EOF
    ([RamfsFiles.file_read_regular]). *)
Class ProgramFilesLaws (E : Type) `{AddressSpaceLaws E} `{ProgramFiles E} := {
  content : E -> Z -> list Z;
  stored : E -> Z -> nat;
  content_size e node : node_size e node = Z.of_nat (length (content e node));
  find_content e path err node e' : find_node e path = (err, node, e') -> get_page_directory e' = get_page_directory e /\
    content e' = content e /\ stored e' = stored e /\ forall pd a, a < KERNEL_START \/ static a -> view e' pd a = view e pd a;
  kmalloc_content e n r e' : kmalloc e n = (r, e') -> content e' = content e /\ stored e' = stored e;
  open_content e node err e' : open_node e node = (err, e') -> get_page_directory e' = get_page_directory e /\ content e' = content e /\ stored e' = stored e /\
    (forall pd a, a < KERNEL_START \/ static a -> view e' pd a = view e pd a) /\ (forall pd a, view e pd a <> None -> view e' pd a <> None);
  read_content e node addr err e' : read_node e node addr (node_size e node) = (err, e') -> KERNEL_START <= addr ->
    mapped e (get_page_directory e) addr (node_size e node) -> (forall i, 0 <= i < node_size e node -> ~ static (addr + i)) ->
    get_page_directory (sync_node e' node) = get_page_directory e /\
    (forall pd a, a < KERNEL_START \/ static a -> view (sync_node e' node) pd a = view e pd a) /\
    (err = ERR_FS_SUCCESS -> shows_bytes (sync_node e' node) (get_page_directory e) addr (content e node)) /\
    (err = ERR_FS_EOF -> shows_bytes (sync_node e' node) (get_page_directory e) addr (take (stored e node) (content e node)));
}.

(** ** Headers *)

Section elf.
Context {E : Type} `{AddressSpaces E} `{ProgramFiles E}.

Definition program_entry (e : E) (eh : Z) : outcome Z := load32 e (eh + 24).
Definition ph_offset (e : E) (eh : Z) : outcome Z := load32 e (eh + 28).
Definition sh_offset (e : E) (eh : Z) : outcome Z := load32 e (eh + 32).
Definition ph_entry_count (e : E) (eh : Z) : outcome Z := load16 e (eh + 44).
Definition shstrndx (e : E) (eh : Z) : outcome Z := load16 e (eh + 50).

Definition ELF_SECTION_HEADER_SIZE : Z := 40.
Definition ELF_PROGRAM_HEADER_SIZE : Z := 32.

Definition elf_get_shtab (e : E) (eh : Z) : outcome Z := o ← sh_offset e eh; Ret (u32 (eh + o)).
Definition elf_get_phtab (e : E) (eh : Z) : outcome Z := o ← ph_offset e eh; Ret (u32 (eh + o)).
Definition elf_get_shstrtab (e : E) (eh : Z) : outcome Z :=
  shtab ← elf_get_shtab e eh;
  i ← shstrndx e eh;
  offset ← load32 e (shtab + i * ELF_SECTION_HEADER_SIZE + 16);
  Ret (u32 (eh + offset)).

Definition elf_validate (e : E) (eh : Z) : outcome ELF_ERR :=
  magic ← load32 e eh;
  if negb (magic =? ELF_MAGIC) then Ret ERR_ELF_NOT_ELF
  else
    bits ← load e (eh + 4);
    if negb (bits =? ELF_32_BITS) then Ret ERR_ELF_NOT_32_BITS
    else
      endianess ← load e (eh + 5);
      if negb (endianess =? ELF_LITTLE_ENDIAN) then Ret ERR_ELF_NOT_LITTLE_ENDIAN
      else
        instruction_set ← load16 e (eh + 18);
        if negb (instruction_set =? ELF_INSSET_X86) then Ret ERR_ELF_NOT_x86 else Ret ERR_ELF_SUCCESS.

(** The fields of a program header that are used. *)
Record segment := Segment { sg_type : Z; sg_offset : Z; sg_vaddr : Z; sg_file_size : Z; sg_mem_size : Z }.
Definition read_segment (e : E) (ph : Z) : outcome segment :=
  type ← load32 e ph;
  offset ← load32 e (ph + 4);
  vaddr ← load32 e (ph + 8);
  file_size ← load32 e (ph + 16);
  mem_size ← load32 e (ph + 20);
  Ret (Segment type offset vaddr file_size mem_size).

(** ** Loading *)

(** minaddr, maxaddr and last_segment_size after one more segment. *)
Definition extend_range (s : segment) '((minaddr, maxaddr, last_size) : Z * Z * Z) : Z * Z * Z :=
  if negb (sg_type s =? ELF_PT_LOAD) then (minaddr, maxaddr, last_size)
  else
    let minaddr := if sg_vaddr s <=? minaddr then sg_vaddr s else minaddr in
    if maxaddr <=? sg_vaddr s then (minaddr, sg_vaddr s, sg_mem_size s) else (minaddr, maxaddr, last_size).

(** First page and number of pages of a range. *)
Definition pages_needed '((minaddr, maxaddr, last_size) : Z * Z * Z) : Z * Z :=
  let minaddr := minaddr - minaddr mod MMNGR_PAGE_SIZE in
  let prog_size := u32 (maxaddr + last_size - minaddr) in
  (minaddr, prog_size / MMNGR_PAGE_SIZE + Z.b2z (0 <? prog_size mod MMNGR_PAGE_SIZE)).

(** Mapping the pages ends at the first that fails. *)
Fixpoint map_pages (e : E) (pd phys virt flags : Z) (n : nat) : bool * E :=
  match n with
  | O => (false, e)
  | S n =>
      let '(err, e) := map_page e pd phys virt flags in
      if err : bool then (true, e) else map_pages e pd (u32 (phys + MMNGR_PAGE_SIZE)) (u32 (virt + MMNGR_PAGE_SIZE)) flags n
  end.

Definition load_segment (addr : Z) (s : segment) (e : E) : outcome E :=
  if negb (sg_type s =? ELF_PT_LOAD) then Ret e
  else
    e ← memcpy e (sg_vaddr s) (u32 (addr + sg_offset s)) (sg_file_size s);
    if sg_file_size s <? sg_mem_size s then memset e (sg_vaddr s + sg_file_size s) 0 (sg_mem_size s - sg_file_size s) else Ret e.

(** The loops over the program headers read them again each time. *)
Definition segment_at (e : E) (phtab i : Z) : outcome segment := read_segment e (phtab + i * ELF_PROGRAM_HEADER_SIZE).
Definition segments_range (e : E) (phtab count : Z) : outcome (Z * Z * Z) :=
  for_each (fun i r => s ← segment_at e phtab i; Ret (extend_range s r)) 0 (Z.to_nat count) (4294967295, 0, 0).
Definition load_segments (e : E) (addr phtab count : Z) : outcome E :=
  for_each (fun i e => s ← segment_at e phtab i; load_segment addr s e) 0 (Z.to_nat count) e.

(** _elf_load: the error and the entry point; [kernel_pd] is KERNEL_PAGE_DIRECTORY.  The
    last error kept for elf_get_err is left out. *)
Definition load_image (kernel_pd : Z) (node addr pd : Z) (e : E) : outcome (ELF_ERR * Z * E) :=
  let '(err, e) := open_node e node in
  if failed err then Ret (ERR_ELF_FILE_ERROR, 0, e)
  else
    let '(err, e) := read_node e node addr (node_size e node) in
    let e := sync_node e node in
    if negb (bool_decide (err = ERR_FS_SUCCESS)) && negb (bool_decide (err = ERR_FS_EOF)) then Ret (ERR_ELF_FILE_ERROR, 0, e)
    else
      err ← elf_validate e addr;
      if negb (bool_decide (err = ERR_ELF_SUCCESS)) then Ret (err, 0, e)
      else
        phtab ← elf_get_phtab e addr;
        count ← ph_entry_count e addr;
        range ← segments_range e phtab count;
        let '(minaddr, required_pages) := pages_needed range in
        let flags := if pd =? kernel_pd then PTE_WRITABLE else Z.lor PTE_WRITABLE PTE_USER in
        let '(phys, e) := alloc_multi_block e required_pages in
        if phys =? 0 then Ret (ERR_ELF_OOM, 0, e)
        else
          let '(err, e) := map_pages e pd phys minaddr flags (Z.to_nat required_pages) in
          if err : bool then Ret (ERR_ELF_OOM, 0, e)
          else
            let active_pd := get_page_directory e in
            let e := switch_page_directory e pd in
            count ← ph_entry_count e addr;
            e ← load_segments e addr phtab count;
            let e := switch_page_directory e active_pd in
            entry ← program_entry e addr;
            Ret (ERR_ELF_SUCCESS, entry, e).

Definition elf_load (kernel_pd path pd : Z) (e : E) : outcome (ELF_ERR * Z * E) :=
  let '(err, elf, e) := find_node e path in
  if failed err then Ret (ERR_ELF_FILE_ERROR, 0, e)
  else
    let '(addr, e) := kmalloc e (node_size e elf) in
    if addr =? 0 then Ret (ERR_ELF_OOM, 0, e)
    else
      '(err, entry, e) ← load_image kernel_pd elf addr pd e;
      Ret (err, entry, kfree e addr).
End elf.

(** ** What a program file says *)

Definition segment_of (l : list Z) (i : Z) : segment :=
  let ph := word_at l 28 + i * ELF_PROGRAM_HEADER_SIZE in
  Segment (word_at l ph) (word_at l (ph + 4)) (word_at l (ph + 8)) (word_at l (ph + 16)) (word_at l (ph + 20)).
Definition segments_of (l : list Z) : list segment := map (segment_of l) (seqZ 0 (half_at l 44)).
Definition loadable (s : segment) : Prop := sg_type s = ELF_PT_LOAD.

(** A program for this machine whose segments lie in the file, below the kernel and apart
    from each other, none empty. *)
Record valid_program (l : list Z) : Prop := {
  vp_size : 52 <= Z.of_nat (length l);
  vp_magic : word_at l 0 = ELF_MAGIC;
  vp_class : byte_at l 4 = ELF_32_BITS /\ byte_at l 5 = ELF_LITTLE_ENDIAN /\ half_at l 18 = ELF_INSSET_X86;
  vp_headers : 0 <= word_at l 28 /\ word_at l 28 + half_at l 44 * ELF_PROGRAM_HEADER_SIZE <= Z.of_nat (length l);
  vp_some : exists s, s ∈ segments_of l /\ loadable s;
  vp_segment s : s ∈ segments_of l -> loadable s -> 0 <= sg_vaddr s /\ 0 <= sg_file_size s <= sg_mem_size s /\ 0 < sg_mem_size s /\
    sg_vaddr s + sg_mem_size s <= KERNEL_START /\ 0 <= sg_offset s /\ sg_offset s + sg_file_size s <= Z.of_nat (length l);
  vp_apart i j s s' : segments_of l !! i = Some s -> segments_of l !! j = Some s' -> loadable s -> loadable s' -> i <> j ->
    sg_vaddr s + sg_mem_size s <= sg_vaddr s' \/ sg_vaddr s' + sg_mem_size s' <= sg_vaddr s;
}.

(** A segment is in memory: the bytes of the file, then zeros. *)
Definition segment_loaded {E} `{AddressSpaceLaws E} (e : E) (pd : Z) (l : list Z) (s : segment) : Prop :=
  forall i, 0 <= i < sg_mem_size s -> view e pd (sg_vaddr s + i) = Some (if i <? sg_file_size s then byte_at l (sg_offset s + i) else 0).

(** ** The range *)

Definition range_of (ss : list segment) : Z * Z * Z := fold_left (fun r s => extend_range s r) ss (4294967295, 0, 0).

Lemma range_spec (ss : list segment) : (forall s, s ∈ ss -> loadable s -> 0 <= sg_vaddr s < 4294967295) ->
  let '(lo, hi, sz) := range_of ss in
  ((forall s, s ∈ ss -> ~ loadable s) /\ lo = 4294967295 /\ hi = 0) \/
  (exists s1 k s0, s1 ∈ ss /\ loadable s1 /\ lo = sg_vaddr s1 /\ ss !! k = Some s0 /\ loadable s0 /\ hi = sg_vaddr s0 /\ sz = sg_mem_size s0 /\
    forall s, s ∈ ss -> loadable s -> lo <= sg_vaddr s <= hi).
Proof.
  unfold range_of. induction ss as [|s ss IH] using rev_ind; intros Hr; [left; split_and!; auto; intros s Hs; now apply not_elem_of_nil in Hs|].
  rewrite fold_left_app. cbn [fold_left]. assert (Hr' : forall x, x ∈ ss -> loadable x -> 0 <= sg_vaddr x < 4294967295) by (intros x Hx; apply Hr, elem_of_app; now left).
  specialize (IH Hr'). destruct (fold_left _ ss _) as [[lo hi] sz]. cbv beta iota in IH. unfold extend_range.
  assert (Last : (ss ++ [s]) !! length ss = Some s) by (now apply list_lookup_middle). assert (Is : s ∈ ss ++ [s]) by (apply elem_of_app; right; now left).
  assert (Split : forall x, x ∈ ss ++ [s] -> x ∈ ss \/ x = s) by (intros x [Hx|Hx%list_elem_of_singleton]%elem_of_app; auto).
  destruct (Z.eqb_spec (sg_type s) ELF_PT_LOAD) as [L|L]; cbn [negb].
  - pose proof (Hr s Is L) as Hs. cbv zeta. destruct IH as [(N & -> & ->)|(s1 & k & s0 & I1 & L1 & -> & I0 & L0 & -> & -> & B)].
    + rewrite !(proj2 (Z.leb_le _ _)) by lia. right. exists s, (length ss), s. split_and!; auto. intros x [Hx| ->]%Split Lx; [now elim (N x)|lia].
    + pose proof (B s1 I1 L1) as B1. set (lo := if sg_vaddr s <=? sg_vaddr s1 then sg_vaddr s else sg_vaddr s1). assert (Hlo : lo = Z.min (sg_vaddr s) (sg_vaddr s1)) by (unfold lo; case_test; lia).
      assert (K0 : (ss ++ [s]) !! k = Some s0) by (now apply lookup_app_l_Some).
      assert (M : exists m, m ∈ ss ++ [s] /\ loadable m /\ lo = sg_vaddr m).
      { destruct (Z.le_ge_cases (sg_vaddr s) (sg_vaddr s1)); [exists s|exists s1]; split_and!; auto; try lia. apply elem_of_app; now left. }
      destruct M as (sm & Im & Lm & Em). destruct (Z.leb_spec (sg_vaddr s0) (sg_vaddr s)) as [Lh|Lh]; right.
      * exists sm, (length ss), s. split_and!; auto. intros x [Hx| ->]%Split Lx; [specialize (B x Hx Lx)|]; lia.
      * exists sm, k, s0. split_and!; auto. intros x [Hx| ->]%Split Lx; [specialize (B x Hx Lx)|]; lia.
  - destruct IH as [(N & -> & ->)|(s1 & k & s0 & I1 & L1 & E1 & I0 & L0 & E0 & Es & B)].
    + left. split_and!; auto. intros x [Hx| ->]%Split; [now apply N|exact L].
    + right. exists s1, k, s0. split_and!; auto; [apply elem_of_app; now left|now apply lookup_app_l_Some|]. intros x [Hx| ->]%Split Lx; [now apply B|now elim L].
Qed.

(** The pages cover every segment and end below the kernel. *)
Lemma pages_cover (l : list Z) : valid_program l ->
  let '(first, count) := pages_needed (range_of (segments_of l)) in
  0 <= first /\ first mod MMNGR_PAGE_SIZE = 0 /\ 0 < count /\ first + count * MMNGR_PAGE_SIZE <= KERNEL_START /\
  forall s, s ∈ segments_of l -> loadable s -> first <= sg_vaddr s /\ sg_vaddr s + sg_mem_size s <= first + count * MMNGR_PAGE_SIZE.
Proof.
  intros V. pose proof (range_spec (segments_of l)) as R. destruct (range_of (segments_of l)) as [[lo hi] sz].
  destruct R as [(N & _)|(s1 & k & s0 & I1 & L1 & -> & I0 & L0 & -> & -> & B)].
  { intros s Hs Ls. destruct (vp_segment _ V s Hs Ls) as (? & ? & ? & ? & _). unfold KERNEL_START in *. lia. }
  { destruct (vp_some _ V) as (s & Hs & Ls). now elim (N s). }
  pose proof (vp_segment _ V s1 I1 L1) as (V1 & _ & _ & _). pose proof (list_elem_of_lookup_2 _ _ _ I0) as I0'. pose proof (vp_segment _ V s0 I0' L0) as (_ & _ & Z0 & T0 & _).
  pose proof (B s1 I1 L1) as B1. unfold pages_needed, MMNGR_PAGE_SIZE, KERNEL_START in *. set (lo := sg_vaddr s1) in *. set (hi := sg_vaddr s0 + sg_mem_size s0) in *.
  pose proof (Z.div_mod lo 4096 ltac:(lia)) as Dl. pose proof (Z.mod_pos_bound lo 4096 ltac:(lia)) as Ml. set (first := lo - lo mod 4096).
  rewrite u32_small by lia. set (size := hi - first). pose proof (Z.div_mod size 4096 ltac:(lia)) as Ds. pose proof (Z.mod_pos_bound size 4096 ltac:(lia)) as Ms.
  assert (Hs : 0 < size) by (unfold size, first; lia). assert (Hq : 0 <= size / 4096) by (apply Z.div_pos; lia).
  assert (Hf : first = 4096 * (lo / 4096)) by (unfold first; lia). assert (Hlq : 0 <= lo / 4096) by (apply Z.div_pos; lia).
  assert (Hc : size <= (size / 4096 + Z.b2z (0 <? size mod 4096)) * 4096 < size + 4096) by (destruct (Z.ltb_spec 0 (size mod 4096)); cbn [Z.b2z]; lia).
  split_and!; [lia|rewrite Hf, Z.mul_comm; now rewrite Z.mod_mul by lia|lia| |].
  - replace 3221225472 with (786432 * 4096) in * by lia. set (c := _ + _) in *. unfold size in Hc. nia.
  - intros s Hs' Ls. pose proof (B s Hs' Ls). split; [lia|]. apply list_elem_of_lookup_1 in Hs' as [i Hi]. destruct (decide (i = k)) as [->|Nk].
    + rewrite I0 in Hi. injection Hi as <-. unfold size, hi in *. lia.
    + pose proof (vp_segment _ V s (list_elem_of_lookup_2 _ _ _ Hi) Ls) as (_ & _ & ? & _). destruct (vp_apart _ V i k s s0 Hi I0 Ls L0 Nk); unfold size, hi in *; lia.
Qed.

(** ** Loading is right *)

Section loading.
Context {E : Type} `{ProgramFilesLaws E}.

(** The image in the kernel heap is the same in every directory. *)
Lemma image_in e pd pd' a l : KERNEL_START <= a -> shows_bytes e pd a l -> shows_bytes e pd' a l.
Proof. intros Ha S i b Hb. rewrite (view_kernel e pd' pd) by lia. now apply S. Qed.

Lemma shows_sub e pd a l o n : shows_bytes e pd a l -> shows_bytes e pd (a + Z.of_nat o) (take n (drop o l)).
Proof.
  intros S i b Hb. apply lookup_take_Some in Hb as [Hb _]. rewrite lookup_drop in Hb. replace (a + Z.of_nat o + Z.of_nat i) with (a + Z.of_nat (o + i)) by lia. now apply S.
Qed.

Lemma map_pages_ok pd flags n : forall e phys virt, pd <> 0 -> virt mod MMNGR_PAGE_SIZE = 0 -> 0 <= virt -> virt + Z.of_nat n * MMNGR_PAGE_SIZE <= KERNEL_START ->
  0 < phys -> phys + Z.of_nat n * MMNGR_PAGE_SIZE <= 2 ^ 32 -> (forall i, 0 <= i < Z.of_nat n -> owned e (phys + i * MMNGR_PAGE_SIZE)) ->
  let '(err, e') := map_pages e pd phys virt flags n in
  get_page_directory e' = get_page_directory e /\
  (forall a, ~ (virt <= a < virt + Z.of_nat n * MMNGR_PAGE_SIZE) -> view e' pd a = view e pd a) /\
  (forall pd' a, pd' <> pd -> a < KERNEL_START -> view e' pd' a = view e pd' a) /\
  (err = false -> forall a, virt <= a < virt + Z.of_nat n * MMNGR_PAGE_SIZE -> view e' pd a <> None).
Proof.
  unfold MMNGR_PAGE_SIZE, KERNEL_START. induction n as [|n IH]; intros e phys virt Hpd Hv Hv0 Hve Hp Hpe Own; cbn [map_pages].
  - split_and!; auto. lia.
  - destruct (map_page e pd phys virt flags) as [err e1] eqn:Em. destruct (map_view e pd phys virt flags err e1 Em) as (A1 & V1 & O1 & M1 & Own1).
    { unfold KERNEL_START. lia. } { rewrite <- (Z.add_0_r phys). apply (Own 0). lia. }
    unfold target in V1, O1, M1. rewrite (proj2 (Z.eqb_neq _ _) Hpd) in V1, O1, M1.
    assert (Pg : forall a, page_of a = page_of virt <-> virt <= a < virt + 4096).
    { intros a. unfold page_of, MMNGR_PAGE_SIZE. pose proof (Z.div_mod a 4096 ltac:(lia)). pose proof (Z.mod_pos_bound a 4096 ltac:(lia)). pose proof (Z.div_mod virt 4096 ltac:(lia)). split; intros; nia. }
    assert (Keep : forall a, ~ (virt <= a < virt + 4096) -> view e1 pd a = view e pd a) by (intros a Na; apply V1; now rewrite Pg).
    destruct err; [split_and!; [exact A1|intros a Na; apply Keep; lia|exact O1|discriminate]|]. unfold MMNGR_PAGE_SIZE. destruct n as [|n].
    + cbn [map_pages]. split_and!; [exact A1|intros a Na; apply Keep; lia|exact O1|]. intros _ a Ha. apply M1; [reflexivity|]. apply Pg. lia.
    + rewrite (u32_small (phys + 4096)), (u32_small (virt + 4096)) by lia. specialize (IH e1 (phys + 4096) (virt + 4096) Hpd).
      destruct (map_pages e1 pd (phys + 4096) (virt + 4096) flags (S n)) as [err e']. destruct IH as (A2 & V2 & O2 & M2); [|lia|lia|lia|lia| |].
      * replace (virt + 4096) with (virt + 1 * 4096) by lia. now rewrite Z.mod_add by lia.
      * intros i Hi. apply Own1; [lia|]. replace (phys + 4096 + i * 4096) with (phys + (i + 1) * 4096) by lia. apply Own. lia.
      * split_and!; [congruence|intros a Na; rewrite V2, Keep by lia; reflexivity|intros pd' a N Ha; rewrite O2, O1 by auto; reflexivity|].
        intros Ee a Ha. destruct (decide (a < virt + 4096)); [|apply M2; [exact Ee|lia]]. rewrite V2 by lia. apply M1; [reflexivity|]. apply Pg. lia.
Qed.

(** One segment. *)
Lemma load_segment_ok e addr l s : loadable s -> 0 <= sg_vaddr s -> 0 <= sg_file_size s <= sg_mem_size s -> sg_vaddr s + sg_mem_size s <= KERNEL_START ->
  0 <= sg_offset s -> sg_offset s + sg_file_size s <= Z.of_nat (length l) -> KERNEL_START <= addr -> addr + Z.of_nat (length l) < 2 ^ 32 ->
  mapped e (get_page_directory e) (sg_vaddr s) (sg_mem_size s) -> shows_bytes e (get_page_directory e) addr l ->
  exists e', load_segment addr s e = Ret e' /\ only_at e e' (sg_vaddr s) (sg_mem_size s) /\ segment_loaded e' (get_page_directory e) l s.
Proof.
  unfold KERNEL_START. intros Ld Hv Hf Ht Ho Hof Ha Hal M S. unfold load_segment. rewrite (proj2 (Z.eqb_eq _ _) Ld). cbn [negb]. rewrite u32_small by lia.
  set (v := sg_vaddr s) in *. set (f := sg_file_size s) in *. set (ms := sg_mem_size s) in *. set (o := sg_offset s) in *.
  set (lf := take (Z.to_nat f) (drop (Z.to_nat o) l)). assert (Lf : Z.of_nat (length lf) = f) by (unfold lf; rewrite length_take, length_drop; lia).
  destruct (memcpy_ok e v (addr + o) lf) as (e1 & E1 & On1 & S1).
  { intros i Hi. apply M. lia. } { replace (addr + o) with (addr + Z.of_nat (Z.to_nat o)) by lia. now apply shows_sub. } { lia. }
  rewrite Lf in E1, On1. rewrite E1, bind_ret. pose proof On1 as (A1 & W1 & O1).
  assert (File : forall i, 0 <= i < f -> view e1 (get_page_directory e) (v + i) = Some (byte_at l (o + i))).
  { intros i Hi. destruct (lookup_lt_is_Some_2 lf (Z.to_nat i) ltac:(lia)) as [b Hb]. rewrite <- (Z2Nat.id i) at 1 by lia. rewrite (S1 _ _ Hb).
    unfold lf in Hb. apply lookup_take_Some in Hb as [Hb _]. rewrite lookup_drop in Hb. unfold byte_at. replace (Z.to_nat (o + i)) with (Z.to_nat o + Z.to_nat i)%nat by lia. now rewrite Hb. }
  destruct (Z.ltb_spec f ms) as [L|L].
  - destruct (memset_ok e1 (v + f) 0 (ms - f)) as (e2 & E2 & On2 & Z2); [lia|intros i Hi; rewrite A1, W1 by lia; replace (v + f + i) with (v + (f + i)) by lia; apply M; lia|].
    exists e2. split; [exact E2|]. pose proof On2 as (A2 & W2 & _). rewrite A1 in *. split.
    + replace ms with (v + ms - v) by lia. eapply only_at_trans; [exact On1|exact On2|lia..].
    + intros i Hi. fold v f o. destruct (Z.ltb_spec i f); [rewrite W2 by lia; now apply File|]. replace (v + i) with (v + f + (i - f)) by lia. apply Z2. fold ms in Hi. lia.
  - exists e1. split; [reflexivity|]. assert (f = ms) by lia. split; [congruence|]. intros i Hi. fold v f o. fold ms in Hi. rewrite (proj2 (Z.ltb_lt _ _)) by lia. apply File. lia.
Qed.

(** The headers, read where the image is. *)
Lemma segment_at_image e addr l i : valid_program l -> shows_bytes e (get_page_directory e) addr l -> 0 <= i < half_at l 44 ->
  segment_at e (addr + word_at l 28) i = Ret (segment_of l i).
Proof.
  intros V S Hi. destruct (vp_headers _ V) as [Hh Hhe]. unfold ELF_PROGRAM_HEADER_SIZE in *. unfold segment_at, read_segment, segment_of, ELF_PROGRAM_HEADER_SIZE.
  set (o := word_at l 28 + i * 32). replace (addr + word_at l 28 + i * 32) with (addr + o) by (unfold o; lia). assert (Ho : 0 <= o /\ o + 32 <= Z.of_nat (length l)) by (unfold o; nia).
  rewrite <- !Z.add_assoc, !(load32_at e addr l) by (auto; lia). reflexivity.
Qed.

Lemma segments_lookup l i : 0 <= i < half_at l 44 -> segments_of l !! Z.to_nat i = Some (segment_of l i).
Proof. intros Hi. unfold segments_of. rewrite list_lookup_fmap, lookup_seqZ_lt by lia. cbn. f_equal. f_equal. lia. Qed.

Lemma segments_length l : length (segments_of l) = Z.to_nat (half_at l 44).
Proof. unfold segments_of. now rewrite length_fmap, length_seqZ. Qed.

Lemma segments_range_image e addr l : valid_program l -> shows_bytes e (get_page_directory e) addr l ->
  segments_range e (addr + word_at l 28) (half_at l 44) = Ret (range_of (segments_of l)).
Proof.
  intros V S. unfold segments_range. destruct (for_each_inv (fun i r => s ← segment_at e (addr + word_at l 28) i; Ret (extend_range s r))
    (fun i r => r = range_of (take (Z.to_nat i) (segments_of l))) 0 (Z.to_nat (half_at l 44)) (4294967295, 0, 0)) as (r & -> & ->); [reflexivity| |].
  - intros j r Hj ->. rewrite (segment_at_image e addr l j V S) by lia. rewrite bind_ret. eexists. split; [reflexivity|].
    replace (Z.to_nat (j + 1)) with (Datatypes.S (Z.to_nat j)) by lia. rewrite (take_S_r _ _ (segment_of l j)) by (apply segments_lookup; lia).
    unfold range_of. now rewrite fold_left_app.
  - now rewrite Z.add_0_l, Nat2Z.id, <- segments_length, firstn_all.
Qed.

Lemma validate_image e addr l : valid_program l -> shows_bytes e (get_page_directory e) addr l -> elf_validate e addr = Ret ERR_ELF_SUCCESS.
Proof.
  intros V S. pose proof (vp_size _ V) as Hs. destruct (vp_class _ V) as (C1 & C2 & C3). unfold elf_validate.
  rewrite <- (Z.add_0_r addr) at 1. rewrite (load32_at e addr l 0), bind_ret, (vp_magic _ V), Z.eqb_refl by (auto; lia). cbn [negb].
  rewrite (load_at e addr l 4), bind_ret, C1, Z.eqb_refl by (auto; lia). cbn [negb].
  rewrite (load_at e addr l 5), bind_ret, C2, Z.eqb_refl by (auto; lia). cbn [negb].
  now rewrite (load16_at e addr l 18), bind_ret, C3, Z.eqb_refl by (auto; lia).
Qed.

(** All segments: each is loaded, and loading one leaves the others as they are. *)
Lemma load_segments_image e addr l : valid_program l -> shows_bytes e (get_page_directory e) addr l -> KERNEL_START <= addr -> addr + Z.of_nat (length l) < 2 ^ 32 ->
  (forall s, s ∈ segments_of l -> loadable s -> mapped e (get_page_directory e) (sg_vaddr s) (sg_mem_size s)) ->
  exists e', load_segments e addr (addr + word_at l 28) (half_at l 44) = Ret e' /\ get_page_directory e' = get_page_directory e /\
    shows_bytes e' (get_page_directory e) addr l /\
    (forall pd a, pd <> get_page_directory e \/ KERNEL_START <= a -> view e' pd a = view e pd a) /\
    forall s, s ∈ segments_of l -> loadable s -> segment_loaded e' (get_page_directory e) l s.
Proof.
  intros V S Ha Hal M. set (pd := get_page_directory e) in *.
  set (P := fun i e1 => get_page_directory e1 = pd /\ shows_bytes e1 pd addr l /\ (forall p a, p <> pd \/ KERNEL_START <= a -> view e1 p a = view e p a) /\
    (forall s, s ∈ segments_of l -> loadable s -> mapped e1 pd (sg_vaddr s) (sg_mem_size s)) /\
    (forall k s, segments_of l !! k = Some s -> Z.of_nat k < i -> loadable s -> segment_loaded e1 pd l s)).
  destruct (for_each_inv (fun i e => s ← segment_at e (addr + word_at l 28) i; load_segment addr s e) P 0 (Z.to_nat (half_at l 44)) e) as (e' & E' & A & S' & O & _ & L).
  - unfold P. split_and!; auto. lia.
  - intros j e1 Hj (A1 & S1 & O1 & M1 & L1). rewrite (segment_at_image e1 addr l j V) by (rewrite ?A1; auto; lia). rewrite bind_ret.
    set (s := segment_of l j). assert (Ls : segments_of l !! Z.to_nat j = Some s) by (apply segments_lookup; lia). pose proof (list_elem_of_lookup_2 _ _ _ Ls) as Is.
    destruct (decide (sg_type s = ELF_PT_LOAD)) as [Ld|Ld].
    + destruct (vp_segment _ V s Is Ld) as (V1 & V2 & V3 & V4 & V5 & V6). destruct (load_segment_ok e1 addr l s Ld V1 V2 V4 V5 V6 Ha Hal) as (e2 & E2 & (A2 & W2 & O2) & Sg); rewrite ?A1 in *; auto.
      exists e2. split; [exact E2|]. split_and!; [exact A2| | | |].
      * intros i b Hb. rewrite W2 by (unfold KERNEL_START in *; lia). now apply S1.
      * intros p a Np. rewrite <- O1 by exact Np. destruct (Z.leb_spec KERNEL_START a) as [Ha'|Ha']; [rewrite (view_kernel e2 p pd), (view_kernel e1 p pd), W2 by lia; reflexivity|].
        destruct Np as [Np|]; [now rewrite O2|lia].
      * intros s' Is' Ld' i Hi. destruct (decide (sg_vaddr s <= sg_vaddr s' + i < sg_vaddr s + sg_mem_size s)) as [D|D].
        -- pose proof (Sg (sg_vaddr s' + i - sg_vaddr s) ltac:(lia)) as G. replace (sg_vaddr s + (sg_vaddr s' + i - sg_vaddr s)) with (sg_vaddr s' + i) in G by lia. now rewrite G.
        -- rewrite W2 by lia. now apply M1.
      * intros k s' Hk Hkj Ld'. destruct (decide (k = Z.to_nat j)) as [->|Nk]; [rewrite Ls in Hk; now injection Hk as <-|].
        intros i Hi. rewrite W2; [apply (L1 k s' Hk); auto; lia|]. destruct (vp_apart _ V k (Z.to_nat j) s' s Hk Ls Ld' Ld Nk); lia.
    + exists e1. unfold load_segment. rewrite (proj2 (Z.eqb_neq _ _) Ld). cbn [negb]. split; [reflexivity|]. split_and!; auto.
      intros k s' Hk Hkj Ld'. destruct (decide (k = Z.to_nat j)) as [->|Nk]; [rewrite Ls in Hk; injection Hk as <-; now elim Ld|]. apply (L1 k s' Hk); auto; lia.
  - exists e'. split_and!; auto. intros s Is Ld. apply list_elem_of_lookup_1 in Is as [k Hk]. apply (L k s Hk); [|exact Ld].
    pose proof (lookup_lt_Some _ _ _ Hk) as Hlt. rewrite segments_length in Hlt. lia.
Qed.

(** _elf_load, from an image buffer in the kernel heap. *)
Lemma load_image_ok kernel_pd node addr pd e l : pd <> 0 -> content e node = l -> stored e node = length l -> valid_program l -> KERNEL_START <= addr -> addr + Z.of_nat (length l) < 2 ^ 32 ->
  mapped e (get_page_directory e) addr (node_size e node) -> (forall i, 0 <= i < node_size e node -> ~ static (addr + i)) ->
  exists err entry e', load_image kernel_pd node addr pd e = Ret (err, entry, e') /\ get_page_directory e' = get_page_directory e /\
    (forall pd' a, pd' <> pd /\ a < KERNEL_START \/ static a -> view e' pd' a = view e pd' a) /\
    (err = ERR_ELF_SUCCESS -> entry = word_at l 24 /\ forall s, s ∈ segments_of l -> loadable s -> segment_loaded e' pd l s) /\
    (err = ERR_ELF_SUCCESS \/ err = ERR_ELF_OOM \/ err = ERR_ELF_FILE_ERROR).
Proof.
  intros Hpd Hc Hst V Ha Hal M Ns. unfold load_image. destruct (open_node e node) as [err e1] eqn:Eo. destruct (open_content e node err e1 Eo) as (A1 & C1 & T1 & V1 & K1).
  assert (U1 : forall p a, p <> pd /\ a < KERNEL_START \/ static a -> view e1 p a = view e p a) by (intros p a [[_ Hp]|Hs]; auto).
  destruct (failed err); [exists ERR_ELF_FILE_ERROR, 0, e1; split_and!; auto; discriminate|].
  destruct (read_node e1 node addr (node_size e1 node)) as [err2 e2] eqn:Er. destruct (read_content e1 node addr err2 e2 Er Ha) as (A2 & V2 & S2 & S2').
  { rewrite A1. intros i Hi. apply K1, M. rewrite content_size in *. now rewrite C1 in Hi. }
  { intros i Hi. apply Ns. rewrite content_size in *. now rewrite C1 in Hi. }
  set (e3 := sync_node e2 node) in *. assert (U3 : forall p a, p <> pd /\ a < KERNEL_START \/ static a -> view e3 p a = view e p a) by (intros p a [[_ Hp]|Hs]; rewrite V2, V1; auto).
  destruct (negb (bool_decide (err2 = ERR_FS_SUCCESS)) && negb (bool_decide (err2 = ERR_FS_EOF))) eqn:Ee; [exists ERR_ELF_FILE_ERROR, 0, e3; split_and!; auto; congruence|].
  assert (S3 : shows_bytes e3 (get_page_directory e3) addr l).
  { rewrite A2, A1, <- Hc, <- C1, <- A1. apply andb_false_iff in Ee as [Ee|Ee]; apply negb_false_iff, bool_decide_eq_true in Ee; [now apply S2|].
    specialize (S2' Ee). rewrite T1, Hst, C1, Hc, firstn_all in S2'. now rewrite C1, Hc. }
  clear S2 S2'. rewrite (validate_image e3 addr l V S3), bind_ret. rewrite bool_decide_eq_true_2 by reflexivity. cbn [negb].
  destruct (vp_headers _ V) as [Hh Hhe]. destruct (vp_some _ V) as (s0 & Is0 & _). assert (Hcnt : 0 < half_at l 44).
  { apply list_elem_of_lookup_1 in Is0 as [k Hk]. apply lookup_lt_Some in Hk. rewrite segments_length in Hk. lia. }
  pose proof (vp_size _ V) as Hsz. unfold ELF_PROGRAM_HEADER_SIZE, KERNEL_START in *.
  unfold elf_get_phtab, ph_offset, ph_entry_count. rewrite (load32_at e3 addr l 28), !bind_ret, u32_small by (auto; lia). rewrite (load16_at e3 addr l 44), bind_ret by (auto; lia).
  rewrite (segments_range_image e3 addr l V S3), bind_ret. pose proof (pages_cover l V) as Pg. destruct (pages_needed (range_of (segments_of l))) as [first n].
  destruct Pg as (F0 & Fm & Hn & Fe & Cov). destruct (alloc_multi_block e3 n) as [phys e4] eqn:Ea. destruct (alloc_view e3 n phys e4 Ea) as (A4 & V4 & Own).
  destruct (Z.eqb_spec phys 0) as [Hp|Hp]; [exists ERR_ELF_OOM, 0, e4; split_and!; [reflexivity|congruence|intros; rewrite V4; apply U3; auto|discriminate|auto]|].
  destruct (Own Hp) as (Hp0 & Hpe & Own'). set (flags := if pd =? kernel_pd then _ else _). unfold MMNGR_PAGE_SIZE, KERNEL_START in *.
  pose proof (map_pages_ok pd flags (Z.to_nat n) e4 phys first Hpd Fm F0) as Mp. rewrite Z2Nat.id in Mp by lia. unfold MMNGR_PAGE_SIZE, KERNEL_START in Mp.
  destruct (map_pages e4 pd phys first flags (Z.to_nat n)) as [err5 e5]. destruct Mp as (A5 & V5 & O5 & M5); [exact Fe|exact Hp0|exact Hpe|exact Own'|].
  assert (O5' : forall p a, p <> pd /\ a < 3221225472 \/ static a -> view e5 p a = view e p a).
  { intros p a Pa. rewrite <- U3, <- V4 by exact Pa. destruct Pa as [[Np Hpa]|Hs]; [now apply O5|]. pose proof (static_kernel a Hs) as Hk. unfold KERNEL_START in Hk.
    rewrite (view_kernel e5 p pd), (view_kernel e4 p pd) by (unfold KERNEL_START; lia). apply V5. lia. }
  destruct err5; [exists ERR_ELF_OOM, 0, e5; split_and!; [reflexivity|congruence|auto|discriminate|auto]|].
  destruct (switch_view e5 pd) as [A6 V6]. set (e6 := switch_page_directory e5 pd) in *.
  assert (S6 : shows_bytes e6 (get_page_directory e6) addr l).
  { intros i b Hb. rewrite A6, V6, V5, V4, (view_kernel e3 pd (get_page_directory e3)) by (unfold KERNEL_START; lia). now apply S3. }
  rewrite (load16_at e6 addr l 44), bind_ret by (auto; lia).
  destruct (load_segments_image e6 addr l V S6) as (e7 & E7 & A7 & S7 & O7 & L7); [exact Ha|exact Hal| |].
  { intros s Is Ld i Hi. destruct (Cov s Is Ld). rewrite A6, V6. apply M5; [reflexivity|]. lia. }
  rewrite E7, bind_ret. destruct (switch_view e7 (get_page_directory e5)) as [A8 V8]. set (e8 := switch_page_directory e7 (get_page_directory e5)) in *. rewrite A6 in *.
  assert (S8 : shows_bytes e8 (get_page_directory e8) addr l) by (intros i b Hb; rewrite V8, (view_kernel e7 _ pd) by (unfold KERNEL_START; lia); now apply S7).
  unfold program_entry. rewrite (load32_at e8 addr l 24), bind_ret by (auto; lia). exists ERR_ELF_SUCCESS, (word_at l 24), e8. split_and!; [reflexivity|congruence| | |auto].
  - intros p a Pa. rewrite V8, O7, V6; [now apply O5'|]. destruct Pa as [[Np _]|Hs]; [now left|right; now apply static_kernel].
  - intros _. split; [reflexivity|]. intros s Is Ld i Hi. rewrite V8. now apply L7.
Qed.

Lemma elf_load_ok (kernel_pd path pd node : Z) (e e0 : E) (l : list Z) :
  pd <> 0 -> find_node e path = (ERR_FS_SUCCESS, node, e0) -> content e node = l -> stored e node = length l -> valid_program l ->
  exists err entry e', elf_load kernel_pd path pd e = Ret (err, entry, e') /\ get_page_directory e' = get_page_directory e /\
    (forall pd' a, pd' <> pd /\ a < KERNEL_START \/ static a -> view e' pd' a = view e pd' a) /\
    (err = ERR_ELF_SUCCESS -> entry = word_at l 24 /\ forall s, s ∈ segments_of l -> loadable s -> segment_loaded e' pd l s) /\
    (err = ERR_ELF_SUCCESS \/ err = ERR_ELF_OOM \/ err = ERR_ELF_FILE_ERROR).
Proof.
  intros Hpd Ef Hc Hst V. unfold elf_load. rewrite Ef. change (failed ERR_FS_SUCCESS) with false. cbv iota. destruct (find_content e path _ node e0 Ef) as (A0 & C0 & T0 & V0).
  destruct (kmalloc e0 (node_size e0 node)) as [addr e1] eqn:Ek. destruct (kmalloc_view e0 _ addr e1 Ek) as (A1 & V1 & M1). pose proof (kmalloc_content e0 _ addr e1 Ek) as [C1 T1].
  assert (U1 : forall p a, p <> pd /\ a < KERNEL_START \/ static a -> view e1 p a = view e p a).
  { intros p a [[_ Ha]|Hs]; [rewrite V1, V0 by auto; reflexivity|]. rewrite V1, V0; auto. right. now apply static_view. }
  destruct (Z.eqb_spec addr 0) as [Hz|Hz]; [exists ERR_ELF_OOM, 0, e1; split_and!; [reflexivity|congruence|auto|discriminate|auto]|].
  destruct (M1 Hz) as (Ha & Hal & Mp). rewrite content_size, C0, Hc in Hal.
  destruct (load_image_ok kernel_pd node addr pd e1 l Hpd) as (err & entry & e2 & E2 & A2 & O2 & L2 & In); [now rewrite C1, C0|now rewrite T1, T0|exact V|exact Ha|exact Hal| | |].
  { intros i Hi. apply Mp. rewrite content_size in *. now rewrite C1 in Hi. }
  { intros i Hi Hs. apply (static_view e0 0 _ Hs). apply Mp. rewrite content_size in *. now rewrite C1 in Hi. }
  rewrite E2, bind_ret. destruct (kfree_view e2 addr) as [A3 V3]. exists err, entry, (kfree e2 addr). split_and!; [reflexivity|congruence| | |exact In].
  - intros p a Pa. rewrite V3, O2 by tauto. now apply U1.
  - intros ->. destruct (L2 eq_refl) as [-> L]. split; [reflexivity|]. intros s Is Ld i Hi. destruct (vp_segment _ V s Is Ld) as (_ & _ & _ & ? & _).
    rewrite V3 by lia. now apply L.
Qed.

(** C22: a program is loaded into a page directory of its own (not NULL, which kernel
    processes are started with).  For a valid program file that holds all the bytes its size
    counts, elf_load returns with success or for want of memory, or because reading failed;
    after success the entry point is the program's and the page directory it was loaded for
    shows each segment at its address, the bytes of the file followed by zeros.  In any case
    the directory in use is the one it was, and the kernel's image and the user parts of all
    others are as before.  A file that holds fewer bytes is read short and loaded all the
    same, with what its buffer held before ([Runs.short_read_loaded]). *)
Theorem elf_load_loads (kernel_pd path pd node : Z) (e e0 : E) (l : list Z) :
  pd <> 0 -> find_node e path = (ERR_FS_SUCCESS, node, e0) -> content e node = l -> stored e node = length l -> valid_program l ->
  exists err entry e', elf_load kernel_pd path pd e = Ret (err, entry, e') /\ get_page_directory e' = get_page_directory e /\
    (forall pd' a, pd' <> pd /\ a < KERNEL_START \/ static a -> view e' pd' a = view e pd' a) /\
    (err = ERR_ELF_SUCCESS -> entry = word_at l 24 /\ forall s, s ∈ segments_of l -> loadable s -> segment_loaded e' pd l s) /\
    (err = ERR_ELF_SUCCESS \/ err = ERR_ELF_OOM \/ err = ERR_ELF_FILE_ERROR).
Proof. intros. eapply elf_load_ok; eauto. Qed.
End loading.

(** ** A machine with one program file *)

Module Runs.
(** Mapped pages and their bytes by directory; the kernel's image has 8 KiB from
    KERNEL_START on, the kernel heap grows behind it. *)
Definition HEAP_START : Z := KERNEL_START + 0x2000.
Record machine := Machine { active : Z; pages : gset (Z * Z); user_bytes : gmap (Z * Z) Z; kernel_bytes : gmap Z Z; heap_end : Z; next_frame : Z; file : list Z; held : nat }.

Definition see (e : machine) (pd a : Z) : option Z :=
  if KERNEL_START <=? a then if (a <? heap_end e) || (a <? HEAP_START) then Some (u8 (default 0 (kernel_bytes e !! a))) else None
  else if decide ((pd, page_of a) ∈ pages e) then Some (u8 (default 0 (user_bytes e !! (pd, a)))) else None.

Definition put_byte (e : machine) (a v : Z) : machine :=
  if KERNEL_START <=? a then Machine (active e) (pages e) (user_bytes e) (<[a := v]> (kernel_bytes e)) (heap_end e) (next_frame e) (file e) (held e)
  else Machine (active e) (pages e) (<[(active e, a) := v]> (user_bytes e)) (kernel_bytes e) (heap_end e) (next_frame e) (file e) (held e).

Fixpoint put_bytes (m : gmap Z Z) (a : Z) (l : list Z) : gmap Z Z :=
  match l with [] => m | b :: l => <[a := b]> (put_bytes m (a + 1) l) end.

Lemma put_bytes_in m a l i b : l !! i = Some b -> put_bytes m a l !! (a + Z.of_nat i) = Some b.
Proof.
  revert a i. induction l as [|c l IH]; intros a i Hi; [now rewrite lookup_nil in Hi|]. destruct i as [|i]; cbn [put_bytes].
  - injection Hi as ->. rewrite Z.add_0_r. apply lookup_insert_eq.
  - rewrite lookup_insert_ne by lia. replace (a + Z.of_nat (S i)) with (a + 1 + Z.of_nat i) by lia. now apply IH.
Qed.

Lemma put_bytes_out m a l b : ~ (a <= b < a + Z.of_nat (length l)) -> put_bytes m a l !! b = m !! b.
Proof.
  revert a. induction l as [|c l IH]; intros a Hb; cbn [put_bytes length] in *; [reflexivity|]. rewrite lookup_insert_ne by lia. apply IH. lia.
Qed.

#[export] Instance machine_spaces : AddressSpaces machine := {
  alloc_multi_block e n := if (0 <? n) && (next_frame e + n * MMNGR_PAGE_SIZE <=? 2 ^ 32) && (0 <? next_frame e)
    then (next_frame e, Machine (active e) (pages e) (user_bytes e) (kernel_bytes e) (heap_end e) (next_frame e + n * MMNGR_PAGE_SIZE) (file e) (held e)) else (0, e);
  map_page e pd phys virt flags := (false, Machine (active e) ({[(if pd =? 0 then active e else pd, page_of virt)]} ∪ pages e) (user_bytes e) (kernel_bytes e) (heap_end e) (next_frame e) (file e) (held e));
  get_page_directory := active;
  switch_page_directory e pd := Machine pd (pages e) (user_bytes e) (kernel_bytes e) (heap_end e) (next_frame e) (file e) (held e);
  kmalloc e n := if (0 <=? n) && (heap_end e + n <? 2 ^ 32) && (HEAP_START <=? heap_end e)
    then (heap_end e, Machine (active e) (pages e) (user_bytes e) (kernel_bytes e) (heap_end e + n) (next_frame e) (file e) (held e)) else (0, e);
  kfree e p := e;
  load e a := of_option (see e (active e) a);
  store e a v := match see e (active e) a with Some _ => Ret (put_byte e a v) | None => Fault end;
}.

Lemma see_put e a v pd b : see e (active e) a <> None -> see (put_byte e a v) pd b =
  if (b =? a) && ((KERNEL_START <=? a) || (pd =? active e)) then Some (u8 v) else see e pd b.
Proof.
  intros M. unfold see, put_byte in *. destruct (Z.leb_spec KERNEL_START a) as [La|La]; cbn [active pages user_bytes kernel_bytes heap_end orb].
  - destruct (Z.eqb_spec b a) as [->|N]; cbn [andb].
    + rewrite (proj2 (Z.leb_le _ _) La). destruct (_ || _); [|done]. now rewrite lookup_insert_eq.
    + destruct (KERNEL_START <=? b); [|reflexivity]. now rewrite lookup_insert_ne.
  - destruct (Z.eqb_spec b a) as [->|N]; cbn [andb].
    + rewrite (proj2 (Z.leb_gt _ _) La). destruct (Z.eqb_spec pd (active e)) as [->|Np].
      * destruct (decide _); [|done]. now rewrite lookup_insert_eq.
      * rewrite lookup_insert_ne by congruence. reflexivity.
    + destruct (KERNEL_START <=? b); [reflexivity|]. now rewrite lookup_insert_ne by congruence.
Qed.

#[export] Program Instance machine_laws : AddressSpaceLaws machine := { view := see; owned e p := True; static a := KERNEL_START <= a < HEAP_START }.
Next Obligation. now intros a []. Qed.
Next Obligation. unfold see. intros e pd a [H1 H2]. rewrite (proj2 (Z.leb_le _ _) H1), (proj2 (Z.ltb_lt _ _) H2), orb_true_r. done. Qed.
Next Obligation. unfold see. intros e pd a b Hb. repeat case_match; simplify_eq; apply u8_range. Qed.
Next Obligation. unfold see. intros e pd pd' a Ha. now rewrite (proj2 (Z.leb_le _ _) Ha). Qed.
Next Obligation. reflexivity. Qed.
Next Obligation. intros e a v Hn. cbn in *. now rewrite Hn. Qed.
Next Obligation.
  intros e a v Hn. cbn in *. destruct (see e (active e) a) eqn:Es; [|done]. exists (put_byte e a v). split_and!; [reflexivity|unfold put_byte; now case_match| |].
  - intros b. rewrite see_put by congruence. rewrite Z.eqb_refl, orb_true_r, andb_true_r. reflexivity.
  - intros pd b Np Hb. rewrite see_put by congruence. destruct (Z.eqb_spec b a) as [->|]; [|reflexivity]. rewrite (proj2 (Z.leb_gt _ _)), (proj2 (Z.eqb_neq _ _) Np) by lia. reflexivity.
Qed.
Next Obligation. now intros. Qed.
Next Obligation. intros e n r e' Ea. cbn in Ea. destruct (_ && _) eqn:Ec; injection Ea as <- <-; split_and!; auto; try done; intros _. unfold MMNGR_PAGE_SIZE in *. split_and!; auto; lia. Qed.
Next Obligation.
  intros e pd phys virt flags err e' Em Hv _. cbn in Em. injection Em as <- <-. change (target e pd) with (if pd =? 0 then active e else pd). set (t := if pd =? 0 then active e else pd). cbn. split_and!; auto.
  - intros a Na. unfold see. cbn. destruct (KERNEL_START <=? a); [reflexivity|]. apply decide_ext. rewrite elem_of_union, elem_of_singleton. split; [intros [[=]|Hp]; [congruence|exact Hp]|auto].
  - intros pd' a Np Ha. unfold see. cbn. destruct (KERNEL_START <=? a); [reflexivity|]. apply decide_ext. rewrite elem_of_union, elem_of_singleton. split; [intros [[=]|Hp]; [congruence|exact Hp]|auto].
  - intros _ a Ha. unfold see. cbn. assert (Ha' : a < KERNEL_START).
    { unfold page_of, MMNGR_PAGE_SIZE, KERNEL_START in *. pose proof (Z.div_mod a 4096 ltac:(lia)). pose proof (Z.mod_pos_bound a 4096 ltac:(lia)). pose proof (Z.div_mod virt 4096 ltac:(lia)). pose proof (Z.mod_pos_bound virt 4096 ltac:(lia)).
      change 3221225472 with (4096 * 786432) in *. nia. }
    rewrite (proj2 (Z.leb_gt _ _) Ha'), decide_True by (rewrite Ha; set_solver). done.
Qed.
Next Obligation.
  intros e n r e' Ek. cbn in Ek. destruct (_ && _) eqn:Ec; injection Ek as <- <-; split_and!; auto; try done.
  - intros pd a Ha. unfold see in *. cbn. destruct (Z.leb_spec KERNEL_START a); [|reflexivity]. destruct Ha as [Ha|Ha]; [lia|]. destruct (Z.ltb_spec a (heap_end e)); destruct (Z.ltb_spec a HEAP_START); cbn [orb] in *; try done; now rewrite ?orb_true_r, ?(proj2 (Z.ltb_lt a (heap_end e + n))) by lia.
  - intros _. unfold HEAP_START in *. split; [lia|]. split; [lia|]. intros pd i Hi. unfold see, HEAP_START. cbn. rewrite !(proj2 (Z.leb_le _ _)) by lia. rewrite !(proj2 (Z.ltb_ge _ _)) by lia. rewrite (proj2 (Z.ltb_lt _ _)) by lia. done.
Qed.
Next Obligation. now intros. Qed.

#[export] Instance machine_files : ProgramFiles machine := {
  find_node e path := (ERR_FS_SUCCESS, 1, e);
  node_size e node := Z.of_nat (length (file e));
  open_node e node := (ERR_FS_SUCCESS, e);
  read_node e node addr n := (if (length (file e) <=? held e)%nat then ERR_FS_SUCCESS else ERR_FS_EOF,
    Machine (active e) (pages e) (user_bytes e) (put_bytes (kernel_bytes e) addr (take (held e) (map u8 (file e)))) (heap_end e) (next_frame e) (file e) (held e));
  sync_node e node := e;
}.
#[export] Program Instance machine_files_laws : ProgramFilesLaws machine := { content e node := map u8 (file e); stored e node := held e }.
Next Obligation. intros. cbn. now rewrite length_map. Qed.
Next Obligation. intros e path err node e' Ef. cbn in Ef. injection Ef as <- <- <-. auto. Qed.
Next Obligation. intros e n r e' Ek. cbn in Ek. destruct (_ && _); injection Ek as <- <-; split; reflexivity. Qed.
Next Obligation. intros e node err e' Eo. cbn in Eo. injection Eo as <- <-. auto. Qed.
Next Obligation.
  intros e node addr err e' Er Ha M Ns. cbn in Er, M, Ns. injection Er as Ee <-.
  assert (Sh : forall k, shows_bytes (Machine (active e) (pages e) (user_bytes e) (put_bytes (kernel_bytes e) addr (take (held e) (map u8 (file e)))) (heap_end e) (next_frame e) (file e) (held e))
    (active e) addr (take k (take (held e) (map u8 (file e))))).
  { intros k i b Hb. apply lookup_take_Some in Hb as [Hb _]. pose proof (lookup_lt_Some _ _ _ Hb) as Hl. rewrite length_take, length_map in Hl. specialize (M (Z.of_nat i) ltac:(lia)). unfold view, machine_laws, see in *. cbn in *.
    rewrite (proj2 (Z.leb_le _ _)) in * by lia. destruct (_ || _); [|done]. rewrite (put_bytes_in _ _ _ _ _ Hb). cbn. f_equal.
    apply lookup_take_Some in Hb as [Hb _]. apply list_lookup_fmap_Some in Hb as (c & -> & _). apply u8_small, u8_range. }
  split_and!; auto.
  - intros pd a [Hpa|Hs]; cbn; unfold see; cbn; [now rewrite (proj2 (Z.leb_gt _ _) Hpa)|]. destruct (KERNEL_START <=? a); [|reflexivity]. destruct (_ || _); [|reflexivity].
    rewrite put_bytes_out; [reflexivity|]. rewrite length_take, length_map. intros Hi. apply (Ns (a - addr)); [lia|]. now replace (addr + (a - addr)) with a by lia.
  - intros Ok. destruct (Nat.leb_spec (length (file e)) (held e)) as [L|L]; [|congruence]. specialize (Sh (held e)). cbn. rewrite take_take, Nat.min_id, (firstn_all2 (map u8 (file e))) in Sh by (rewrite length_map; lia).
    cbn. rewrite (firstn_all2 (map u8 (file e))) by (rewrite length_map; lia). exact Sh.
  - intros _. specialize (Sh (held e)). rewrite take_take, Nat.min_id in Sh. exact Sh.
Qed.

(** A program of two segments: two bytes of code at 0x8048000, and 6000 bytes at
    0x804a000 of which the file has one. *)
Definition bytes32 (v : Z) : list Z := [v mod 256; v / 256 mod 256; v / 65536 mod 256; v / 16777216 mod 256].
Definition program : list Z :=
  [127; 69; 76; 70; 1; 1; 1; 0; 0; 0; 0; 0; 0; 0; 0; 0; 2; 0; 3; 0] ++ bytes32 1 ++ bytes32 0x8048000 ++ bytes32 52 ++ bytes32 0 ++ bytes32 0 ++
  [52; 0; 32; 0; 2; 0; 40; 0; 0; 0; 0; 0] ++
  concat (map bytes32 [1; 116; 0x8048000; 0; 2; 2; 5; 4096]) ++ concat (map bytes32 [1; 118; 0x804a000; 0; 1; 6000; 6; 4096]) ++ [235; 254; 42].
Definition pc : machine := Machine 4096 ∅ ∅ ∅ HEAP_START 0x100000 program 119.

Lemma program_bytes : map u8 program = program.
Proof. vm_compute. reflexivity. Qed.
Lemma program_segments : segments_of program = [Segment 1 116 0x8048000 2 2; Segment 1 118 0x804a000 1 6000].
Proof. vm_compute. reflexivity. Qed.
Lemma program_valid : valid_program program.
Proof.
  split; [by_eval|by_eval|by_eval|by_eval| | |]; rewrite program_segments.
  - eexists. split; [apply list_elem_of_here|reflexivity].
  - intros s [->|[->|[]%not_elem_of_nil]%elem_of_cons]%elem_of_cons _; by_eval.
  - intros i j s s' Hi Hj _ _ N. destruct i as [|[|i]], j as [|[|j]]; cbn in Hi, Hj; simplify_eq; cbn; lia.
Qed.

Lemma elf_load_witness : exists err entry e', elf_load 0 1 8192 pc = Ret (err, entry, e') /\ get_page_directory e' = get_page_directory pc /\
  (forall pd' a, pd' <> 8192 /\ a < KERNEL_START \/ static a -> view e' pd' a = view pc pd' a) /\
  (err = ERR_ELF_SUCCESS -> entry = word_at program 24 /\ forall s, s ∈ segments_of program -> loadable s -> segment_loaded e' 8192 program s) /\
  (err = ERR_ELF_SUCCESS \/ err = ERR_ELF_OOM \/ err = ERR_ELF_FILE_ERROR).
Proof. apply (elf_load_loads 0 1 8192 1 pc pc program); [lia|reflexivity|exact program_bytes|reflexivity|exact program_valid]. Defined.

(** It is loaded, and starts with its code. *)
Example loaded_code : match elf_load 0 1 8192 pc with Ret (err, entry, e) => (bool_decide (err = ERR_ELF_SUCCESS), entry, see e 8192 entry, see e 8192 0x804a000, see e 8192 0x804a001) | _ => (false, 0, None, None, None) end
  = (true, 0x8048000, Some 235, Some 42, Some 0).
Proof. vm_compute. reflexivity. Qed.

(** A file that holds its headers but not its segments is loaded with what the buffer held
    before, here zeros. *)
Example short_read_loaded : match elf_load 0 1 8192 (Machine 4096 ∅ ∅ ∅ HEAP_START 0x100000 program 116) with Ret (err, entry, e) => (bool_decide (err = ERR_ELF_SUCCESS), entry, see e 8192 entry, see e 8192 0x804a000) | _ => (false, 0, None, None) end
  = (true, 0x8048000, Some 0, Some 0).
Proof. vm_compute. reflexivity. Qed.

(** A program without loadable segments is given one page, the last of the address space,
    where the page directory is mapped. *)
Example no_segments : pages_needed (range_of []) = (4294963200, 1).
Proof. vm_compute. reflexivity. Qed.
End Runs.
