(* ===== verification/Create.v ===== *)
(** * Creating processes (kernel/src/process/process.c)

    process_new, process_make_idle and process_set_stdfile: the process record, its
    stacks, the register frame the first switch to it restores, and the argument and
    environment strings laid out on the user stack.  Memory is an interface ([Space]);
    processes live in the store of [Procs]. *)
From S2P Require Import Prelude Mem CString CStdlib Procs Sched Space Elf.

(** From the build configuration (example.env). *)
Definition USER_STACK_TOP : Z := KERNEL_START.
Definition USER_STACK_SIZE : Z := 0x10000.
Definition ARGS_MAX_LEN : Z := 1024.
Definition ENVS_MAX_LEN : Z := 4096.
Definition DEFAULT_EFLAGS : Z := 0x202.

Definition PROCESS_SIZE : Z := 5200.
Definition FILE_DESCRIPTION_SIZE : Z := 24.
Definition REGS_SIZE : Z := 76.

(** Byte offsets in [regs_t]. *)
Definition gs : Z := 0.
Definition fs : Z := 4.
Definition es : Z := 8.
Definition ds : Z := 12.
Definition edi : Z := 16.
Definition esi : Z := 20.
Definition ebp : Z := 24.
Definition ebx : Z := 32.
Definition edx : Z := 36.
Definition ecx : Z := 40.
Definition eax : Z := 44.
Definition int_no : Z := 48.
Definition err_code : Z := 52.
Definition eip : Z := 56.
Definition cs : Z := 60.
Definition eflags : Z := 64.
Definition useresp : Z := 68.
Definition ss : Z := 72.

(** What creating a process asks of the file system, and what a block of the heap holds
    before anything is written to it. *)
Class ProcessFiles (E : Type) := {
  create_directory : E -> mem -> Z -> bool * E;      (** vfs_find_and_create_node(path, proc dir, &dir, CREATE | EXCLUSIVE, DIRECTORY): did it fail *)
  open_descriptor : E -> Z -> Z -> Z -> Z * E;       (** file_open(fde, node, mode): fde->node then *)
  retain_node : E -> Z -> E;                         (** node->refcount++ *)
  release_node : E -> Z -> E;                        (** node_sync, refcount--, vfs_cleanup_node_tree *)
  free_page_directory : E -> Z -> E;
  heap_process : E -> Z -> process;                  (** the bytes at an address as a process_t *)
  heap_nodes : E -> Z -> list Z;                     (** the node fields of the descriptors at an address *)
}.

(** ** Arguments *)

Section strings.
Context {E : Type} `{AddressSpaces E}.

(** i > 0 && src[i] == 0 && src[i - 1] == 0 *)
Definition double_null_at (e : E) (src i : Z) : outcome bool :=
  if 0 <? i then
    c ← load e (src + i);
    if c =? 0 then p ← load e (src + (i - 1)); Ret (p =? 0) else Ret false
  else Ret false.

Fixpoint copy_chars (e : E) (dest src i : Z) (n : nat) : outcome E :=
  match n with
  | O => Ret e
  | S n =>
      c ← load e (src + i);
      e ← store e (dest + i) c;
      last ← double_null_at e src i;
      if last : bool then Ret e else copy_chars e dest src (i + 1) n
  end.

Definition copy_double_null (e : E) (dest src max_len : Z) : outcome E :=
  if src =? 0 then Ret e else copy_chars e dest src 0 (Z.to_nat max_len).

(** while(len < max_len && strings[len] != 0) len++; *)
Definition next_null_step (e : E) (max_len strings len : Z) : outcome (Z + Z) :=
  if len <? max_len then c ← load e (strings + len); Ret (if c =? 0 then inr len else inl (len + 1)) else Ret (inr len).

(** One string more: strings_len and string_count. *)
Definition measure_step (e : E) (max_len strings : Z) '((strings_len, string_count) : Z * Z) : outcome (Z * Z + Z * Z) :=
  if strings_len <? max_len then
    strings_len ← while (next_null_step e max_len strings) strings_len;
    if strings_len <? max_len - 1 then
      let strings_len := strings_len + 1 in
      let string_count := string_count + 1 in
      c ← load e (strings + strings_len);
      Ret (if c =? 0 then inr (strings_len + 1, string_count) else inl (strings_len, string_count))
    else Ret (inr (strings_len, string_count))
  else Ret (inr (strings_len, string_count)).

(** while( *current_str != 0) current_str++; *)
Definition string_end_step (e : E) (current_str : Z) : outcome (Z + Z) :=
  c ← load e current_str; Ret (if c =? 0 then inr current_str else inl (current_str + 1)).

Definition map_string (string_map i : Z) '((e, current_str) : E * Z) : outcome (E * Z) :=
  e ← store32 e (string_map + 4 * i) current_str;
  current_str ← while (string_end_step e) current_str;
  Ret (e, current_str + 1).

(** The new useresp, the count and the pointer map. *)
Definition parse_null_separated_strings (e : E) (useresp max_len strings : Z) : outcome (Z * Z * Z * E) :=
  if strings =? 0 then Ret (useresp, 0, 0, e)
  else
    c ← load e strings;
    if c =? 0 then Ret (useresp, 0, 0, e)
    else
      '(strings_len, string_count) ← while (measure_step e max_len strings) (0, 0);
      if string_count =? 0 then Ret (useresp, 0, 0, e)
      else
        let useresp := u32 (useresp - strings_len) in
        let trunc_strings := useresp in
        e ← memcpy e trunc_strings strings strings_len;
        let useresp := u32 (useresp - 4 * (string_count + 1)) in
        let string_map := useresp in
        '(e, _) ← for_each (map_string string_map) 0 (Z.to_nat string_count) (e, trunc_strings);
        e ← store32 e (string_map + 4 * string_count) 0;
        Ret (useresp, string_count, string_map, e).

(** Assigning the fields of a structure one by one. *)
Fixpoint store_fields (e : E) (base : Z) (l : list (Z * Z)) : outcome E :=
  match l with [] => Ret e | (o, v) :: l => e ← store32 e (base + o) v; store_fields e base l end.
End strings.

(** ** Processes *)

Section creation.
Context {E : Type} `{AddressSpaces E} `{ProcessFiles E}.

(** KERNEL_PAGE_DIRECTORY and the two static buffers. *)
Variable kernel_pd args_buffer envs_buffer : Z.

#[export] Instance process_env : ProcessEnv E := {
  env_free_page_directory := free_page_directory;
  env_kfree := Space.kfree;
  env_release_node := release_node;
  env_kmalloc := Space.kmalloc;
}.

(** Mapping the user stack; vmmngr_map's error is dropped. *)
Fixpoint map_stack (e : E) (phys virt : Z) (n : nat) : E :=
  match n with
  | O => e
  | S n =>
      let '(_, e) := map_page e 0 phys virt (Z.lor (Z.lor PTE_PRESENT PTE_USER) PTE_WRITABLE) in
      map_stack e (u32 (phys + MMNGR_PAGE_SIZE)) (u32 (virt + MMNGR_PAGE_SIZE)) n
  end.

(** stack_addr, the stack's size and tss_esp0, None when memory runs out; the new page
    directory is in use afterwards. *)
Definition user_stacks (e : E) (pagedir : Z) : option (Z * Z * Z) * E :=
  let e := switch_page_directory e pagedir in
  let stack_addr := USER_STACK_TOP - USER_STACK_SIZE in
  let physical_blocks := USER_STACK_SIZE / MMNGR_PAGE_SIZE in
  let '(phys, e) := alloc_multi_block e physical_blocks in
  if phys =? 0 then (None, e)
  else
    let e := map_stack e phys stack_addr (Z.to_nat physical_blocks) in
    let '(tss_esp0, e) := Space.kmalloc e KERNEL_STACK_SIZE in
    if tss_esp0 =? 0 then (None, e) else (Some (stack_addr, USER_STACK_SIZE, u32 (tss_esp0 + KERNEL_STACK_SIZE)), e).

Definition kernel_stack (e : E) : option (Z * Z * Z) * E :=
  let '(stack_addr, e) := Space.kmalloc e KERNEL_STACK_SIZE in
  if stack_addr =? 0 then (None, e) else (Some (stack_addr, KERNEL_STACK_SIZE, 0), e).

(** The frame of a user process and of a kernel process. *)
Definition user_segments (stack_top : Z) : list (Z * Z) :=
  [(cs, 0x1b); (ds, 0x23); (es, 0x23); (fs, 0x23); (gs, 0x23); (ss, 0x23); (useresp, stack_top)].
Definition kernel_segments : list (Z * Z) := [(cs, 0x08); (ds, 0x10); (es, 0x10); (fs, 0x10); (gs, 0x10)].
Definition default_registers (start : Z) : list (Z * Z) :=
  [(eax, 0); (ebx, 0); (ecx, 0); (edx, 0); (esi, 0); (edi, 0); (int_no, 0); (err_code, 0); (eip, start); (eflags, DEFAULT_EFLAGS); (ebp, 0)].

(** argc, argv, envc and envp. *)
Definition pass_arguments (e : E) (regs : Z) : outcome E :=
  esp ← load32 e (regs + useresp);
  '(esp, argc, argv, e) ← parse_null_separated_strings e esp ARGS_MAX_LEN args_buffer;
  '(esp, envc, envp, e) ← parse_null_separated_strings e esp ENVS_MAX_LEN envs_buffer;
  store_fields e regs [(eax, argc); (ebx, argv); (ecx, envc); (edx, envp); (useresp, esp)].

(** The stack's contents: the dummy return address, the frame, the arguments.  The
    result is saved_esp. *)
Definition set_up_stack (e : E) (start : Z) (is_user : bool) (stack_addr stack_size tss_esp0 : Z) : outcome (Z * E) :=
  let stack_top := u32 (stack_addr + stack_size - 4) in
  e ← store32 e stack_top 0;
  let regs := if is_user then u32 (tss_esp0 - REGS_SIZE) else u32 (stack_top - REGS_SIZE + 8) in
  e ← store_fields e regs (if is_user then user_segments stack_top else kernel_segments);
  e ← store_fields e regs (default_registers start);
  e ← (if is_user then pass_arguments e regs else Ret e);
  Ret (regs, e).

(** The record: what is not assigned is what the heap held. *)
Definition new_process (raw : process) (nodes : list Z) (pid page_directory : Z) (is_user : bool) (stack_addr esp tss_esp0 fdt : Z) : process :=
  Process pid PROCESS_STATE_READY 0 0 page_directory is_user (received_exit_code raw) 0 stack_addr esp tss_esp0
    (waiting_for_resource_count raw) fdt nodes 0 (queue_next raw) (global_next raw) (global_prev raw).

(** The copies made before page directories are switched. *)
Definition copy_strings (e : E) (is_user : bool) (args envs : Z) : outcome E :=
  if is_user then
    e ← (if args =? 0 then Ret e else copy_double_null e args_buffer args ARGS_MAX_LEN);
    if envs =? 0 then Ret e else copy_double_null e envs_buffer envs ENVS_MAX_LEN
  else Ret e.

(** char buff[10], on the stack: a longer number with its 0 overruns it. *)
Definition PROC_DIR_NAME_SIZE : Z := 10.

(** The process (0 is NULL), the kernel and process_count afterwards.  cwd is left out,
    and the interrupt flag, which is as before in the end. *)
Definition process_new (start : Z) (is_user : bool) (pagedir args envs : Z) (k : kernel E) (process_count : Z) : outcome (Z * kernel E * Z) :=
  let failed e := Ret (0, with_env (procs k) e k, process_count) in
  let '(proc, e) := Space.kmalloc (env k) PROCESS_SIZE in
  if proc =? 0 then failed e
  else
    let raw := heap_process e proc in
    e ← copy_strings e is_user args envs;
    let active_pd := get_page_directory e in
    let page_directory := if is_user then pagedir else kernel_pd in
    let '(fdt, e) := Space.kmalloc e (FILE_DESCRIPTION_SIZE * MAX_FILE) in
    if fdt =? 0 then failed (Space.kfree e proc)
    else
      let '(stacks, e) := if is_user then user_stacks e page_directory else kernel_stack e in
      match stacks with
      | None =>
          if is_user then failed (Space.kfree (Space.kfree (switch_page_directory e active_pd) fdt) proc)
          else failed (Space.kfree e proc)
      | Some (stack_addr, stack_size, tss_esp0) =>
          '(saved_esp, e) ← set_up_stack e start is_user stack_addr stack_size tss_esp0;
          let e := switch_page_directory e active_pd in
          let process_count := u32 (process_count + 1) in
          let r := new_process raw (heap_nodes e fdt) (s32 process_count) page_directory is_user stack_addr saved_esp tss_esp0 fdt in
          let k := with_env (<[proc := r]> (procs k)) e k in
          if is_user then
            buff ← itoa ∅ (s32 process_count) 0 10;
            len ← strlen buff 0;
            if PROC_DIR_NAME_SIZE <=? len then Fault
            else
              let '(err, e) := create_directory e buff 0 in
              let k := with_env (procs k) e k in
              if err : bool then k ← process_delete k proc; Ret (0, k, process_count) else Ret (proc, k, process_count)
          else Ret (proc, k, process_count)
      end.

(** The running code becomes the idle process, number 1. *)
Definition process_make_idle (k : kernel E) (process_count : Z) : Z * kernel E * Z :=
  let '(proc, e) := Space.kmalloc (env k) PROCESS_SIZE in
  if proc =? 0 then (0, with_env (procs k) e k, process_count)
  else
    let raw := heap_process e proc in
    let '(fdt, e) := Space.kmalloc e (FILE_DESCRIPTION_SIZE * MAX_FILE) in
    let r := Process 1 PROCESS_STATE_READY 0 0 kernel_pd (is_user raw) (received_exit_code raw) (attached_from raw) (stack_addr raw) (saved_esp raw)
      (tss_esp0 raw) (waiting_for_resource_count raw) fdt (heap_nodes e fdt) 0 (queue_next raw) (global_next raw) (global_prev raw) in
    (proc, with_env (<[proc := r]> (procs k)) e k, 1).

(** The first two descriptors. *)
Definition process_set_stdfile (k : kernel E) (proc stdin stdin_flags stdout stdout_flags : Z) : outcome (kernel E) :=
  r ← get (procs k) proc;
  let fdt := file_descriptor_table r in
  let '(node0, e) := open_descriptor (env k) fdt stdin stdin_flags in
  let '(node1, e) := open_descriptor e (fdt + FILE_DESCRIPTION_SIZE) stdout stdout_flags in
  let e := retain_node (retain_node e node0) node1 in
  Ret (with_env (<[proc := set_files (<[0%nat := node0]> (<[1%nat := node1]> (file_nodes r))) 2 r]> (procs k)) e k).
End creation.

Ltac in_list := repeat (apply list_elem_of_here || apply list_elem_of_further).

(** ** Strings one after the other *)

Definition body (l : list (list Z)) : list Z := concat (map (fun s => s ++ [0]) l).
Definition text (l : list (list Z)) : list Z := body l ++ (if l is [] then [0; 0] else [0]).
Definition c_strings (l : list (list Z)) : Prop := Forall (fun s => s <> [] /\ Forall (fun c => c <> 0) s) l.

Lemma body_app l k : body (l ++ k) = body l ++ body k.
Proof. unfold body. now rewrite map_app, concat_app. Qed.

Lemma body_snoc l s : length (body (l ++ [s])) = (length (body l) + length s + 1)%nat.
Proof. rewrite body_app, length_app. unfold body at 2. cbn. rewrite !length_app. cbn. lia. Qed.

Lemma body_count l : c_strings l -> (2 * length l <= length (body l))%nat.
Proof.
  induction 1 as [|s l [Hs _] _ IH]; cbn; [lia|]. rewrite !length_app. cbn. destruct s; [done|]. cbn. unfold body in IH. lia.
Qed.

Lemma text_length l : l <> [] -> length (text l) = S (length (body l)).
Proof. destruct l; [done|]. intros _. unfold text. rewrite length_app. cbn. lia. Qed.

Lemma body_last l : l <> [] -> body l !! (length (body l) - 1)%nat = Some 0.
Proof.
  intros N. destruct (exists_last N) as (l' & s & ->). rewrite body_app. unfold body at 2 4. cbn [map concat]. rewrite app_nil_r, app_assoc, length_app. cbn [length].
  replace (_ + 1 - 1)%nat with (length (body l' ++ s)) by lia. now apply list_lookup_middle.
Qed.

(** No two zeros next to each other. *)
Lemma body_single l i : c_strings l -> body l !! i = Some 0 -> body l !! S i <> Some 0.
Proof.
  intros G. revert i. induction G as [|s l [Hs Fs] G IH]; intros i; [discriminate|]. cbn. change (concat _) with (body l). rewrite <- app_assoc. cbn [app].
  intros Hi Hi'. rewrite Forall_forall in Fs. destruct (decide (i < length s)%nat) as [L|L].
  - rewrite lookup_app_l in Hi by exact L. apply list_elem_of_lookup_2 in Hi. now apply (Fs 0).
  - rewrite lookup_app_r in Hi, Hi' by lia. destruct (i - length s)%nat as [|j] eqn:Ej.
    + replace (S i - length s)%nat with 1%nat in Hi' by lia. cbn in Hi'. destruct G as [|s' l [Hs' Fs'] G]; [discriminate|]. destruct s' as [|c s']; [done|].
      cbn in Hi'. injection Hi' as ->. inversion Fs'. congruence.
    + replace (S i - length s)%nat with (S (S j)) in Hi' by lia. cbn in Hi, Hi'. now apply (IH j).
Qed.

(** Two zeros are the end. *)
Lemma text_double l i : c_strings l -> (0 < i < length (text l))%nat ->
  text l !! i = Some 0 /\ text l !! (i - 1)%nat = Some 0 <-> i = (length (text l) - 1)%nat.
Proof.
  intros G Hi. destruct (decide (l = [])) as [->|N]; [cbn in *; replace i with 1%nat by lia; cbn; split; auto|].
  pose proof (text_length l N) as Len. rewrite Len in *. assert (E : text l = body l ++ [0]) by (unfold text; destruct l; done). rewrite E. split.
  - intros [H1 H2]. destruct (decide (i < length (body l))%nat) as [L|L]; [|lia]. rewrite lookup_app_l in H1, H2 by lia. elim (body_single l (i - 1) G H2). now replace (S (i - 1)) with i by lia.
  - intros ->. replace (S (length (body l)) - 1)%nat with (length (body l)) by lia. split; [now apply list_lookup_middle|]. rewrite lookup_app_l by lia. now apply body_last.
Qed.

Section string_specs.
Context {E : Type} `{AddressSpaceLaws E}.

Lemma load_shown e a l i b : shows_bytes e (get_page_directory e) a l -> l !! i = Some b -> load e (a + Z.of_nat i) = Ret b.
Proof. intros Sh Hi. rewrite load_view. now rewrite (Sh _ _ Hi). Qed.

Lemma double_null_shown e src l i : c_strings l -> shows_bytes e (get_page_directory e) src (text l) -> (i < length (text l))%nat ->
  double_null_at e src (Z.of_nat i) = Ret (bool_decide (i = (length (text l) - 1)%nat)).
Proof.
  intros G Sh Hi. unfold double_null_at. assert (L2 : (2 <= length (text l))%nat).
  { destruct (decide (l = [])) as [->|N]; [done|]. rewrite text_length by exact N. pose proof (body_count l G). destruct l; cbn in *; [done|lia]. }
  destruct (Z.ltb_spec 0 (Z.of_nat i)) as [L|L]; [|rewrite bool_decide_eq_false_2 by lia; reflexivity].
  destruct (lookup_lt_is_Some_2 _ _ Hi) as [c Hc]. rewrite (load_shown e src _ i c Sh Hc), bind_ret. pose proof (text_double l i G ltac:(lia)) as D.
  destruct (Z.eqb_spec c 0) as [->|Nc].
  - destruct (lookup_lt_is_Some_2 (text l) (i - 1) ltac:(lia)) as [p Hp]. replace (Z.of_nat i - 1) with (Z.of_nat (i - 1)) by lia. rewrite (load_shown e src _ _ p Sh Hp), bind_ret. f_equal.
    destruct (Z.eqb_spec p 0) as [->|Np]; symmetry; [apply bool_decide_eq_true_2|apply bool_decide_eq_false_2]; rewrite <- D; [auto|]. intros [_ ?]. congruence.
  - rewrite bool_decide_eq_false_2; [reflexivity|]. rewrite <- D. intros [? _]. congruence.
Qed.

Lemma copy_chars_ok e0 dest src l : c_strings l -> shows_bytes e0 (get_page_directory e0) src (text l) -> mapped e0 (get_page_directory e0) dest (Z.of_nat (length (text l))) ->
  src + Z.of_nat (length (text l)) <= dest \/ dest + Z.of_nat (length (text l)) <= src ->
  forall n i e, (i < length (text l) <= i + n)%nat -> only_at e0 e dest (Z.of_nat (length (text l))) -> mapped e (get_page_directory e0) dest (Z.of_nat (length (text l))) ->
  shows_bytes e (get_page_directory e0) dest (take i (text l)) ->
  exists e', copy_chars e dest src (Z.of_nat i) n = Ret e' /\ only_at e0 e' dest (Z.of_nat (length (text l))) /\ shows_bytes e' (get_page_directory e0) dest (text l).
Proof.
  intros G S0 M0 D. set (t := text l) in *. set (pd := get_page_directory e0) in *. induction n as [|n IH]; intros i e Hi On M Sh; [lia|]. pose proof On as (A & W & _). fold pd in A, W. cbn [copy_chars].
  destruct (lookup_lt_is_Some_2 t i ltac:(lia)) as [c Hc].
  assert (Src : forall x, only_at e0 x dest (Z.of_nat (length t)) -> shows_bytes x (get_page_directory x) src t).
  { intros x Ox. pose proof Ox as (Ax & _). rewrite Ax. eapply shows_only; eauto. }
  rewrite (load_shown e src t i c (Src e On) Hc), bind_ret. destruct (store_ok e (dest + Z.of_nat i) c) as (e1 & E1 & On1 & V1); [rewrite A; apply M; lia|]. rewrite E1, bind_ret.
  pose proof On1 as (A1 & W1 & _). rewrite A in A1, W1, V1. assert (On' : only_at e0 e1 dest (Z.of_nat (length t))) by (apply (only_at_within e0 e e1 dest (Z.of_nat (length t)) (dest + Z.of_nat i) 1); auto; lia).
  rewrite (double_null_shown e1 src l i G (Src e1 On')), bind_ret by (fold t; lia). fold t.
  assert (Sh' : shows_bytes e1 pd dest (take (S i) t)).
  { rewrite (take_S_r _ _ _ Hc). apply shows_bytes_app. rewrite length_take, Nat.min_l by lia. split.
    - intros j b Hb. pose proof (lookup_lt_Some _ _ _ Hb) as Lj. rewrite length_take in Lj. rewrite W1 by lia. now apply Sh.
    - apply shows_bytes_cons. split; [|intros j b Hb; now rewrite lookup_nil in Hb]. rewrite V1. f_equal. apply u8_small, (view_byte e pd (src + Z.of_nat i)).
      specialize (Src e On). rewrite A in Src. now apply Src. }
  destruct (bool_decide _) eqn:Eb.
  - apply bool_decide_eq_true in Eb. exists e1. split; [reflexivity|]. split; [exact On'|]. rewrite <- (firstn_all t). now replace (length t) with (S i) by lia.
  - apply bool_decide_eq_false in Eb. replace (Z.of_nat i + 1) with (Z.of_nat (S i)) by lia. apply IH; [lia|exact On'| |exact Sh'].
    intros j Hj. destruct (decide (dest + j = dest + Z.of_nat i)) as [->|Nj]; [now rewrite V1|]. rewrite W1 by lia. now apply M.
Qed.

(** A double-null-terminated list of strings is copied. *)
Lemma copy_double_null_ok e dest src l n : c_strings l -> src <> 0 -> Z.of_nat (length (text l)) <= n -> shows_bytes e (get_page_directory e) src (text l) ->
  mapped e (get_page_directory e) dest n -> src + n <= dest \/ dest + n <= src \/ src + Z.of_nat (length (text l)) <= dest ->
  exists e', copy_double_null e dest src n = Ret e' /\ only_at e e' dest n /\ shows_bytes e' (get_page_directory e) dest (text l).
Proof.
  intros G Hs Hn Sh M D. unfold copy_double_null. rewrite (proj2 (Z.eqb_neq _ _) Hs). assert (M' : mapped e (get_page_directory e) dest (Z.of_nat (length (text l)))) by (intros i Hi; apply M; lia).
  assert (T : (0 < length (text l))%nat) by (unfold text; rewrite length_app; destruct l; cbn; lia).
  destruct (copy_chars_ok e dest src l G Sh M' ltac:(lia) (Z.to_nat n) 0 e) as (e' & E' & On & Sh'); [lia|now split|exact M'|intros i b Hb; discriminate Hb|].
  exists e'. split; [exact E'|]. split; [|exact Sh']. apply (only_at_within e e e' dest 0 dest (Z.of_nat (length (text l)))); auto; try lia. now split.
Qed.

(** ** Parsing *)

Lemma next_null_loop e m strings s o : Forall (fun c => c <> 0) s -> shows_bytes e (get_page_directory e) (strings + o) (s ++ [0]) -> o + Z.of_nat (length s) < m ->
  loop (next_null_step e m strings) (S (length s)) o = Ret (o + Z.of_nat (length s)).
Proof.
  intros F. revert o. induction F as [|c s Hc F IH]; intros o Sh Hm; cbn [length app] in *; rewrite loop_S; unfold next_null_step at 2; cbv beta iota.
  - rewrite (proj2 (Z.ltb_lt _ _)) by lia. apply shows_bytes_cons in Sh as [V _]. rewrite load_view, V. cbn [of_option]. rewrite !bind_ret. cbn. f_equal. lia.
  - rewrite (proj2 (Z.ltb_lt _ _)) by lia. apply shows_bytes_cons in Sh as [V Sh]. rewrite load_view, V. cbn [of_option]. rewrite !bind_ret. rewrite (proj2 (Z.eqb_neq _ _) Hc). cbv iota.
    rewrite <- Z.add_assoc in Sh. rewrite IH by (exact Sh || lia). f_equal. lia.
Qed.

Lemma string_end_loop e s a : Forall (fun c => c <> 0) s -> shows_bytes e (get_page_directory e) a (s ++ [0]) ->
  loop (string_end_step e) (S (length s)) a = Ret (a + Z.of_nat (length s)).
Proof.
  intros F. revert a. induction F as [|c s Hc F IH]; intros a Sh; cbn [length app] in *; rewrite loop_S; unfold string_end_step at 2; cbv beta iota;
    apply shows_bytes_cons in Sh as [V Sh]; rewrite load_view, V; cbn [of_option]; rewrite !bind_ret.
  - cbn. f_equal. lia.
  - rewrite (proj2 (Z.eqb_neq _ _) Hc). cbv iota. rewrite IH by exact Sh. f_equal. lia.
Qed.

Lemma text_split l k s r : l = k ++ s :: r -> text l = body k ++ (s ++ [0]) ++ body r ++ [0].
Proof. intros ->. unfold text. rewrite body_app. destruct (k ++ s :: r) eqn:En; [now destruct k|]. unfold body at 2. cbn [map concat]. rewrite <- !app_assoc. reflexivity. Qed.

Lemma measure_loop e m strings l : c_strings l -> shows_bytes e (get_page_directory e) strings (text l) -> Z.of_nat (length (text l)) <= m <= 4096 ->
  forall r k, l = k ++ r -> r <> [] ->
  loop (measure_step e m strings) (S (length r)) (Z.of_nat (length (body k)), Z.of_nat (length k)) = Ret (Z.of_nat (length (text l)), Z.of_nat (length l)).
Proof.
  intros G Sh Hm. induction r as [|s r IH]; intros k El N; [done|]. clear N. pose proof (text_split l k s r El) as T. pose proof G as G'. unfold c_strings in G'. rewrite Forall_forall in G'. assert (Gs : s <> [] /\ Forall (fun c => c <> 0) s) by (apply G'; rewrite El; apply elem_of_app; right; left).
  destruct Gs as [Ns Fs]. rewrite loop_S. unfold measure_step at 2. cbv beta iota. set (o := Z.of_nat (length (body k))).
  pose proof (f_equal (@length Z) T) as Lt. rewrite !length_app in Lt. cbn [length] in Lt.
  rewrite T in Sh. apply shows_bytes_app in Sh as [_ Sh]. fold o in Sh. apply shows_bytes_app in Sh as [S1 S2]. rewrite length_app in S2. cbn [length] in S2.
  rewrite (proj2 (Z.ltb_lt _ _)) by lia. rewrite (while_loop _ _ _ _ (next_null_loop e m strings s o Fs S1 ltac:(lia))) by (discriminate || lia). rewrite bind_ret.
  rewrite (proj2 (Z.ltb_lt _ _)) by lia. replace (strings + (o + Z.of_nat (length s) + 1)) with (strings + o + Z.of_nat (length s + 1)) by lia.
  destruct r as [|s' r].
  - cbn [body app] in S2. cbn in S2. apply shows_bytes_cons in S2 as [V _]. rewrite load_view, V. cbn [of_option]. rewrite !bind_ret. rewrite Z.eqb_refl. cbv iota.
    f_equal. f_equal; [cbn in Lt; lia|]. rewrite El, length_app. cbn. lia.
  - assert (Gs' : s' <> [] /\ Forall (fun c => c <> 0) s') by (apply G'; rewrite El; apply elem_of_app; right; right; left). destruct s' as [|c s']; [now destruct Gs'|]. destruct Gs' as [_ Fs']. inversion Fs' as [|? ? Hc _]; subst.
    cbn in S2. apply shows_bytes_cons in S2 as [V _]. rewrite load_view, V. cbn [of_option]. rewrite !bind_ret. rewrite (proj2 (Z.eqb_neq _ _) Hc). cbv iota.
    replace (o + Z.of_nat (length s) + 1) with (Z.of_nat (length (body (k ++ [s])))) by (rewrite body_snoc; lia).
    replace (Z.of_nat (length k) + 1) with (Z.of_nat (length (k ++ [s]))) by (rewrite length_app; cbn; lia). apply IH; [now rewrite <- app_assoc|done].
Qed.

(** An array of pointers to the strings, ended by NULL, all between [lo] and [hi]. *)
Definition strings_in (e : E) (pd lo hi argv : Z) (l : list (list Z)) : Prop :=
  lo <= argv /\ argv + 4 * Z.of_nat (length l) + 4 <= hi /\ shows_word e pd (argv + 4 * Z.of_nat (length l)) 0 /\
  forall i s, l !! i = Some s -> exists p, lo <= p /\ p + Z.of_nat (length s) + 1 <= hi /\ shows_word e pd (argv + 4 * Z.of_nat i) p /\ shows_bytes e pd p (s ++ [0]).

Lemma shows_bytes_same e e' pd a l : (forall b, a <= b < a + Z.of_nat (length l) -> view e' pd b = view e pd b) -> shows_bytes e pd a l -> shows_bytes e' pd a l.
Proof. intros V Sh i b Hb. pose proof (lookup_lt_Some _ _ _ Hb). rewrite V by lia. now apply Sh. Qed.

Lemma strings_in_same e e' pd lo hi argv l : (forall b, lo <= b < hi -> view e' pd b = view e pd b) -> strings_in e pd lo hi argv l -> strings_in e' pd lo hi argv l.
Proof.
  intros V (L & Hh & Z0 & P). split_and!; auto.
  - eapply shows_bytes_same; [|exact Z0]. intros b Hb. cbn in Hb. apply V. lia.
  - intros i s Hi. destruct (P i s Hi) as (p & Hp & Hp' & Wp & Sp). pose proof (lookup_lt_Some _ _ _ Hi). exists p. split_and!; auto.
    + eapply shows_bytes_same; [|exact Wp]. intros b Hb. cbn in Hb. apply V. lia.
    + eapply shows_bytes_same; [|exact Sp]. intros b Hb. rewrite length_app in Hb. cbn in Hb. apply V. lia.
Qed.

Lemma strings_in_wider e pd lo hi lo' hi' argv l : lo' <= lo -> hi <= hi' -> strings_in e pd lo hi argv l -> strings_in e pd lo' hi' argv l.
Proof. intros ? ? (L & Hh & Z0 & P). split_and!; auto; try lia. intros i s Hi. destruct (P i s Hi) as (p & ? & ? & ? & ?). exists p. split_and!; auto; lia. Qed.

Lemma mapped_keep e e' pd a v b k : only_at e e' a 4 -> get_page_directory e = pd -> shows_word e' pd a v -> mapped e pd b k -> mapped e' pd b k.
Proof.
  intros On <- Sw M. eapply mapped_only; [exact On| |exact M]. intros i Hi. apply (shows_mapped e' _ a _ Sw). cbn. lia.
Qed.

Lemma shows_word_keep e e' pd a n b v : only_at e e' a n -> get_page_directory e = pd -> b + 4 <= a \/ a + n <= b -> shows_word e pd b v -> shows_word e' pd b v.
Proof. intros On <- D Sw. eapply shows_only; eauto. Qed.

(** The pointer map, but for its NULL. *)
Lemma map_strings_ok e trunc M l : c_strings l -> Z.of_nat (length (text l)) <= 4096 -> shows_bytes e (get_page_directory e) trunc (text l) -> M + 4 * Z.of_nat (length l) + 4 <= trunc ->
  mapped e (get_page_directory e) M (4 * Z.of_nat (length l) + 4) ->
  exists e', for_each (map_string M) 0 (length l) (e, trunc) = Ret (e', trunc + Z.of_nat (length (body l))) /\ only_at e e' M (4 * Z.of_nat (length l) + 4) /\
    mapped e' (get_page_directory e) M (4 * Z.of_nat (length l) + 4) /\
    forall j, (j < length l)%nat -> shows_word e' (get_page_directory e) (M + 4 * Z.of_nat j) (trunc + Z.of_nat (length (body (take j l)))).
Proof.
  intros G Len Sh HM Mp. set (pd := get_page_directory e) in *. set (n := Z.of_nat (length l)) in *.
  set (P := fun i (st : E * Z) => let '(e1, cur) := st in only_at e e1 M (4 * n + 4) /\ mapped e1 pd M (4 * n + 4) /\ cur = trunc + Z.of_nat (length (body (take (Z.to_nat i) l))) /\
    forall j, Z.of_nat j < i -> shows_word e1 pd (M + 4 * Z.of_nat j) (trunc + Z.of_nat (length (body (take j l))))).
  destruct (for_each_inv (map_string M) P 0 (length l) (e, trunc)) as ([e' cur] & E' & On & Mp' & -> & W).
  - split; [now split|]. split; [exact Mp|]. split; [change (Z.to_nat 0) with 0%nat; rewrite take_0; symmetry; apply Z.add_0_r|lia].
  - intros i [e1 cur] Hi0 (On & Mp1 & -> & W). assert (Hi : 0 <= i < n) by (unfold n; lia). clear Hi0. unfold map_string. set (t := trunc + _). pose proof On as (A1 & V1 & _). fold pd in A1, V1.
    destruct (store32_ok e1 (M + 4 * i) t) as (e2 & E2 & On2 & W2); [intros x Hx; rewrite A1; replace (M + 4 * i + x) with (M + (4 * i + x)) by lia; apply Mp1; lia|].
    rewrite E2, bind_ret. pose proof On2 as (A2 & V2 & _). rewrite A1 in W2, A2, V2. assert (On' : only_at e e2 M (4 * n + 4)) by (apply (only_at_within e e1 e2 M (4 * n + 4) (M + 4 * i) 4); auto; lia).
    destruct (lookup_lt_is_Some_2 l (Z.to_nat i) ltac:(lia)) as [s Hs]. pose proof (take_drop_middle l (Z.to_nat i) s Hs) as El.
    pose proof G as G'. unfold c_strings in G'. rewrite Forall_forall in G'. destruct (G' s (list_elem_of_lookup_2 _ _ _ Hs)) as [_ Fs].
    assert (Sh2 : shows_bytes e2 (get_page_directory e2) trunc (text l)) by (rewrite A2; eapply shows_only; [exact On'| |exact Sh]; right; lia).
    pose proof (text_split l _ _ _ (eq_sym El)) as T. rewrite T in Sh2. apply shows_bytes_app in Sh2 as [_ Sh2]. apply shows_bytes_app in Sh2 as [Sh2 _]. fold t in Sh2.
    apply (f_equal (@length Z)) in T. rewrite !length_app in T. cbn [length] in T.
    rewrite (while_loop _ _ _ _ (string_end_loop e2 s t Fs Sh2)) by (discriminate || lia). rewrite bind_ret. eexists. split; [reflexivity|]. split; [exact On'|]. split; [|split].
    + apply (mapped_keep e1 e2 pd (M + 4 * i) t); auto.
    + replace (Z.to_nat (i + 1)) with (S (Z.to_nat i)) by lia. rewrite (take_S_r _ _ _ Hs), body_snoc. unfold t. lia.
    + intros j Hj. destruct (decide (j = Z.to_nat i)) as [->|Nj]; [rewrite Z2Nat.id by lia; exact W2|]. eapply shows_word_keep; [exact On2|exact A1|lia|]. apply W. lia.
  - exists e'. rewrite E'. split; [|split; [exact On|split; [exact Mp'|]]].
    + replace (Z.to_nat (0 + _)) with (length l) by lia. now rewrite firstn_all.
    + intros j Hj. apply W. lia.
Qed.

(** The stack space the strings and their map take. *)
Definition stack_use (l : list (list Z)) : Z := if l is [] then 0 else Z.of_nat (length (text l)) + 4 * Z.of_nat (length l) + 4.

(** What a program finds: NULL for no strings. *)
Definition passed (e : E) (pd lo hi argv : Z) (l : list (list Z)) : Prop :=
  match l with [] => argv = 0 | _ => strings_in e pd lo hi argv l end.

(** The map and the strings it points to. *)
Lemma map_shows e pd M l : let trunc := M + 4 * Z.of_nat (length l) + 4 in
  shows_bytes e pd trunc (text l) -> shows_word e pd (M + 4 * Z.of_nat (length l)) 0 ->
  (forall j, (j < length l)%nat -> shows_word e pd (M + 4 * Z.of_nat j) (trunc + Z.of_nat (length (body (take j l))))) ->
  strings_in e pd M (trunc + Z.of_nat (length (text l))) M l.
Proof.
  intros trunc Sh Z0 W. split_and!; [lia|unfold trunc; lia|exact Z0|]. intros i s Hi. pose proof (lookup_lt_Some _ _ _ Hi) as Li.
  pose proof (text_split l _ _ _ (eq_sym (take_drop_middle l i s Hi))) as T. pose proof (f_equal (@length Z) T) as Lt. rewrite !length_app in Lt. cbn [length] in Lt.
  exists (trunc + Z.of_nat (length (body (take i l)))). split_and!; [unfold trunc; lia|lia|now apply W|].
  rewrite T in Sh. apply shows_bytes_app in Sh as [_ Sh]. apply shows_bytes_app in Sh as [Sh _]. exact Sh.
Qed.

Lemma first_char l : c_strings l -> l <> [] -> exists c r, text l = c :: r /\ c <> 0.
Proof.
  intros G N. destruct G as [|s l [Hs Fs] G]; [done|]. destruct s as [|c s]; [done|]. inversion Fs; subst. eexists _, _. split; [reflexivity|assumption].
Qed.

Lemma parse_ok e sp m strings l : c_strings l -> strings <> 0 -> shows_bytes e (get_page_directory e) strings (text l) -> Z.of_nat (length (text l)) <= m <= 4096 ->
  stack_use l <= sp < 2 ^ 32 -> mapped e (get_page_directory e) (sp - stack_use l) (stack_use l) -> sp <= strings ->
  exists argv e', parse_null_separated_strings e sp m strings = Ret (sp - stack_use l, Z.of_nat (length l), argv, e') /\
    only_at e e' (sp - stack_use l) (stack_use l) /\ passed e' (get_page_directory e) (sp - stack_use l) sp argv l /\
    (forall i, 0 <= i < stack_use l -> view e' (get_page_directory e) (sp - stack_use l + i) <> None).
Proof.
  intros G Hs Sh Hm Hsp M D. unfold parse_null_separated_strings. rewrite (proj2 (Z.eqb_neq _ _) Hs). set (pd := get_page_directory e) in *.
  destruct (decide (l = [])) as [->|N].
  { apply shows_bytes_cons in Sh as [V _]. rewrite load_view. fold pd. rewrite V. cbn. exists 0, e. rewrite Z.sub_0_r. split; [reflexivity|]. split; [now split|]. split; [reflexivity|lia]. }
  destruct (first_char l G N) as (c & r & Ec & Hc). assert (V : view e pd strings = Some c) by (rewrite Ec in Sh; now apply shows_bytes_cons in Sh).
  rewrite load_view. fold pd. rewrite V. cbn [of_option]. rewrite bind_ret, (proj2 (Z.eqb_neq _ _) Hc).
  pose proof (body_count l G) as Bc. pose proof (text_length l N) as Tl.
  pose proof (measure_loop e m strings l G Sh Hm l [] eq_refl N) as Ml. change (Z.of_nat (length (body [])), Z.of_nat (length (@nil (list Z)))) with (0, 0) in Ml.
  rewrite (while_loop _ _ _ _ Ml) by (discriminate || lia). rewrite bind_ret.
  assert (Eu : stack_use l = Z.of_nat (length (text l)) + 4 * Z.of_nat (length l) + 4) by (destruct l; done). rewrite Eu in *.
  set (n := Z.of_nat (length l)) in *. set (len := Z.of_nat (length (text l))) in *. assert (Hn : 0 < n) by (unfold n; destruct l; [done|cbn; lia]).
  rewrite (proj2 (Z.eqb_neq _ _)) by lia. assert (Hlen : 0 < len) by lia. rewrite (u32_small (sp - len)) by lia. set (trunc := sp - len). set (base := sp - (len + 4 * n + 4)) in *.
  rewrite (u32_small (trunc - 4 * (n + 1))) by (unfold trunc; lia). replace (trunc - 4 * (n + 1)) with base by (unfold trunc, base; lia).
  destruct (memcpy_ok e trunc strings (text l)) as (e1 & E1 & On1 & S1); [intros i Hi; replace (trunc + i) with (base + (4 * n + 4 + i)) by (unfold base, trunc; lia); apply M; lia|exact Sh|fold len; unfold trunc; lia|].
  fold len in E1, On1. rewrite E1, bind_ret. pose proof On1 as (A1 & V1 & _). fold pd in A1, V1, S1.
  destruct (map_strings_ok e1 trunc base l G) as (e2 & E2 & On2 & M2 & W2); [lia|rewrite A1; exact S1|fold n; unfold base, trunc; lia| |].
  { rewrite A1. fold n. intros i Hi. rewrite V1 by (unfold trunc, base; lia). apply M. lia. }
  fold n in On2, M2. replace (Z.to_nat n) with (length l) by lia. rewrite E2, bind_ret. rewrite A1 in M2, W2. pose proof On2 as (A2 & V2 & _). rewrite A1 in A2, V2.
  destruct (store32_ok e2 (base + 4 * n) 0) as (e3 & E3 & On3 & W3); [rewrite A2; intros i Hi; rewrite <- Z.add_assoc; apply M2; lia|]. rewrite E3, bind_ret. rewrite A2 in W3. pose proof On3 as (A3 & V3 & _). rewrite A2 in A3, V3.
  assert (On12 : only_at e e2 base (len + 4 * n + 4)) by (apply (only_at_within e e1 e2 trunc len base (4 * n + 4)); auto; unfold trunc, base; lia).
  exists base, e3. split; [reflexivity|]. split; [apply (only_at_within e e2 e3 base (len + 4 * n + 4) (base + 4 * n) 4); auto; lia|].
  assert (S3 : shows_bytes e3 pd trunc (text l)).
  { eapply shows_bytes_same; [|exact S1]. intros b Hb. rewrite V3, V2 by (unfold trunc, base in *; lia). reflexivity. }
  assert (Et : base + 4 * n + 4 = trunc) by (unfold base, trunc; lia). split.
  - assert (P : strings_in e3 pd base (trunc + len) base l).
    { rewrite <- Et. apply map_shows; fold n; rewrite ?Et; [exact S3|exact W3|]. intros j Hj. eapply (shows_word_keep e2 e3 pd (base + 4 * n) 4); [exact On3|exact A2|lia|]. rewrite <- Et. rewrite Et. now apply W2. }
    replace (trunc + len) with sp in P by (unfold trunc; lia). unfold passed. destruct l; [done|exact P].
  - intros i Hi. destruct (Z.ltb_spec i (4 * n)) as [L|L]; [rewrite V3 by lia; apply M2; lia|]. destruct (Z.ltb_spec i (4 * n + 4)) as [L'|L'].
    + replace (base + i) with (base + 4 * n + (i - 4 * n)) by lia. apply (shows_mapped e3 pd (base + 4 * n) _ W3). cbn. lia.
    + replace (base + i) with (trunc + (i - 4 * n - 4)) by lia. apply (shows_mapped e3 pd trunc _ S3). fold len. lia.
Qed.
End string_specs.

(** ** The stacks of a user process *)

Section stacks.
Context {E : Type} `{AddressSpaceLaws E}.

(** Fields that do not overlap. *)
Definition apart_fields (x y : Z * Z) : Prop := fst x + 4 <= fst y \/ fst y + 4 <= fst x.

Lemma store_fields_ok pd base n l : forall e, get_page_directory e = pd -> mapped e pd base n -> Forall (fun x => 0 <= fst x <= n - 4) l -> ForallOrdPairs apart_fields l ->
  exists e', store_fields e base l = Ret e' /\ only_at e e' base n /\ mapped e' pd base n /\ Forall (fun x => shows_word e' pd (base + fst x) (snd x)) l /\
    forall o v, Forall (apart_fields (o, v)) l -> shows_word e pd (base + o) v -> shows_word e' pd (base + o) v.
Proof.
  induction l as [|[o v] l IH]; intros e A M B S; cbn [store_fields].
  - exists e. split; [reflexivity|]. split; [now split|]. auto.
  - inversion B as [|? ? Bo B']; inversion S as [|? ? So S']; subst; cbn in Bo.
    destruct (store32_ok e (base + o) v) as (e1 & E1 & On1 & W1); [intros i Hi; rewrite <- Z.add_assoc; apply M; lia|]. rewrite E1, bind_ret. pose proof On1 as (A1 & V1 & _).
    destruct (IH e1) as (e2 & E2 & On2 & M2 & F2 & K2); [exact A1|eapply mapped_keep; eauto|assumption|assumption|].
    exists e2. split; [exact E2|]. split; [apply (only_at_within e e1 e2 (base + o) 4 base n); auto; lia|]. split; [exact M2|]. split.
    + constructor; [|exact F2]. cbn. apply K2; [|exact W1]. apply Forall_forall. intros x Hx. exact (proj1 (Forall_forall _ _) So x Hx).
    + intros o' v' F W. inversion F as [|? ? D F']; subst. apply K2; [exact F'|]. destruct D as [D|D]; cbn in D; eapply shows_word_keep; eauto; lia.
Qed.

Lemma map_stack_ok pd n : forall e phys virt, get_page_directory e = pd -> virt mod MMNGR_PAGE_SIZE = 0 -> 0 <= virt -> virt + Z.of_nat n * MMNGR_PAGE_SIZE <= KERNEL_START ->
  0 < phys -> phys + Z.of_nat n * MMNGR_PAGE_SIZE <= 2 ^ 32 -> (forall i, 0 <= i < Z.of_nat n -> owned e (phys + i * MMNGR_PAGE_SIZE)) ->
  (forall e1 p v flags, get_page_directory e1 = pd -> fst (map_page e1 0 p v flags) = false) ->
  let e' := map_stack e phys virt n in
  get_page_directory e' = pd /\
  (forall a, ~ (virt <= a < virt + Z.of_nat n * MMNGR_PAGE_SIZE) -> view e' pd a = view e pd a) /\
  (forall pd' a, pd' <> pd -> a < KERNEL_START -> view e' pd' a = view e pd' a) /\
  (forall a, virt <= a < virt + Z.of_nat n * MMNGR_PAGE_SIZE -> view e' pd a <> None).
Proof.
  unfold MMNGR_PAGE_SIZE, KERNEL_START. induction n as [|n IH]; intros e phys virt A Hv Hv0 Hve Hp Hpe Own Room; cbn [map_stack].
  - split_and!; auto. lia.
  - set (flags := Z.lor _ _). pose proof (Room e phys virt flags A) as R. destruct (map_page e 0 phys virt flags) as [err e1] eqn:Em. cbn in R. subst err.
    destruct (map_view e 0 phys virt flags false e1 Em) as (A1 & V1 & O1 & M1 & Own1). { unfold KERNEL_START. lia. } { rewrite <- (Z.add_0_r phys). apply (Own 0). lia. }
    change (target e 0) with (get_page_directory e) in *. rewrite A in *. specialize (M1 eq_refl).
    assert (Pg : forall a, page_of a = page_of virt <-> virt <= a < virt + 4096).
    { intros a. unfold page_of, MMNGR_PAGE_SIZE. pose proof (Z.div_mod a 4096 ltac:(lia)). pose proof (Z.mod_pos_bound a 4096 ltac:(lia)). pose proof (Z.div_mod virt 4096 ltac:(lia)). split; intros; nia. }
    assert (Keep : forall a, ~ (virt <= a < virt + 4096) -> view e1 pd a = view e pd a) by (intros a Na; apply V1; now rewrite Pg).
    unfold MMNGR_PAGE_SIZE. destruct n as [|n].
    + cbn [map_stack]. split_and!; [exact A1|intros a Na; apply Keep; lia|exact O1|]. intros a Ha. apply M1, Pg. lia.
    + rewrite (u32_small (phys + 4096)), (u32_small (virt + 4096)) by lia. destruct (IH e1 (phys + 4096) (virt + 4096) A1) as (A2 & V2 & O2 & M2); [|lia|lia|lia|lia| |exact Room|].
      * replace (virt + 4096) with (virt + 1 * 4096) by lia. now rewrite Z.mod_add by lia.
      * intros i Hi. apply Own1; [lia|]. replace (phys + 4096 + i * 4096) with (phys + (i + 1) * 4096) by lia. apply Own. lia.
      * split_and!; [exact A2|intros a Na; rewrite V2, Keep by lia; reflexivity|intros pd' a N Ha; rewrite O2, O1 by auto; reflexivity|].
        intros a Ha. destruct (decide (a < virt + 4096)); [|apply M2; lia]. rewrite V2 by lia. apply M1, Pg. lia.
Qed.

(** Both stacks. *)
Lemma user_stacks_ok e pd : (forall e1 p v flags, get_page_directory e1 = pd -> fst (map_page e1 0 p v flags) = false) ->
  let '(r, e') := user_stacks e pd in
  get_page_directory e' = pd /\
  (forall pd' a, a < KERNEL_START -> pd' <> pd \/ a < USER_STACK_TOP - USER_STACK_SIZE -> view e' pd' a = view e pd' a) /\
  (forall pd' a, KERNEL_START <= a -> view e pd' a <> None -> view e' pd' a = view e pd' a) /\
  forall stack_addr size esp0, r = Some (stack_addr, size, esp0) -> stack_addr = USER_STACK_TOP - USER_STACK_SIZE /\ size = USER_STACK_SIZE /\
    KERNEL_START + KERNEL_STACK_SIZE <= esp0 < 2 ^ 32 /\ mapped e' pd stack_addr size /\ mapped e' pd (esp0 - KERNEL_STACK_SIZE) KERNEL_STACK_SIZE /\
    forall a, esp0 - KERNEL_STACK_SIZE <= a < esp0 -> view e pd a = None.
Proof.
  intros Room. unfold user_stacks. destruct (switch_view e pd) as [A1 V1]. set (e1 := switch_page_directory e pd) in *.
  destruct (alloc_multi_block e1 _) as [phys e2] eqn:Ea. destruct (alloc_view e1 _ phys e2 Ea) as (A2 & V2 & Own). rewrite V1 in V2.
  destruct (Z.eqb_spec phys 0) as [Hp|Hp]; [split_and!; [congruence|now rewrite V2|now rewrite V2|discriminate]|].
  destruct (Own Hp) as (Hp0 & Hpe & Own'). unfold USER_STACK_TOP. change (USER_STACK_SIZE / MMNGR_PAGE_SIZE) with 16 in *. change (Z.to_nat 16) with 16%nat.
  set (e3 := map_stack e2 phys (KERNEL_START - USER_STACK_SIZE) 16). destruct (map_stack_ok pd 16 e2 phys (KERNEL_START - USER_STACK_SIZE)) as (A3 & V3 & O3 & M3);
    [congruence|reflexivity|discriminate|discriminate|exact Hp0|exact Hpe|exact Own'|exact Room|]. fold e3 in A3, V3, O3, M3.
  change (KERNEL_START - USER_STACK_SIZE + Z.of_nat 16 * MMNGR_PAGE_SIZE) with KERNEL_START in V3, M3.
  destruct (Space.kmalloc e3 KERNEL_STACK_SIZE) as [stack e4] eqn:Ek. destruct (kmalloc_view e3 _ stack e4 Ek) as (A4 & V4 & M4).
  assert (O4 : forall p a, a < KERNEL_START -> p <> pd \/ a < USER_STACK_TOP - USER_STACK_SIZE -> view e4 p a = view e p a).
  { intros p a Ha Np. rewrite V4 by auto. destruct (decide (p = pd)) as [->|N]; [destruct Np as [|Np]; [done|]; unfold USER_STACK_TOP in Np; rewrite V3, V2 by lia; reflexivity|]. rewrite O3, V2 by auto. reflexivity. }
  assert (K3 : forall p a, KERNEL_START <= a -> view e3 p a = view e p a) by (intros p a Ha; rewrite (view_kernel e3 p pd), V3, V2, (view_kernel e pd p) by lia; reflexivity).
  assert (K4 : forall p a, KERNEL_START <= a -> view e p a <> None -> view e4 p a = view e p a) by (intros p a Ha Hn; rewrite V4, K3 by (rewrite ?K3; auto); reflexivity).
  destruct (Z.eqb_spec stack 0) as [Hs|Hs]; (split_and!; [congruence|exact O4|exact K4|]); [discriminate|]. destruct (M4 Hs) as (Hs1 & Hs2 & Ms).
  intros sa size esp0 [= <- <- <-]. unfold KERNEL_STACK_SIZE, KERNEL_START in *. rewrite u32_small by lia. split_and!; [reflexivity|reflexivity|lia|lia| | |].
  - intros i Hi. unfold USER_STACK_SIZE in *. rewrite V4 by lia. apply M3. lia.
  - intros i Hi. replace (stack + 8192 - 8192 + i) with (stack + i) by lia. apply Ms. lia.
  - intros a Ha. rewrite <- K3 by lia. replace a with (stack + (a - stack)) by lia. apply Ms. lia.
Qed.
End stacks.

(** ** What the program starts with *)

Section start.
Context {E : Type} `{AddressSpaceLaws E}.
Variable args_buffer envs_buffer : Z.

(** [stack_use] of both fits the stack with room to spare. *)
Lemma stack_use_bound l n : c_strings l -> Z.of_nat (length (text l)) <= n -> 0 <= stack_use l <= 3 * n + 8.
Proof.
  intros G Hn. unfold stack_use. destruct l as [|s l]; [lia|]. pose proof (body_count (s :: l) G). pose proof (text_length (s :: l) ltac:(done)). lia.
Qed.

Definition argument_registers (argc argv envc envp esp : Z) : list (Z * Z) := [(eax, argc); (ebx, argv); (ecx, envc); (edx, envp); (useresp, esp)].

(** The frame a user process is started with. *)
Definition start_frame (start argc argv envc envp esp : Z) : list (Z * Z) :=
  argument_registers argc argv envc envp esp ++
  [(eip, start); (cs, 0x1b); (eflags, DEFAULT_EFLAGS); (ds, 0x23); (es, 0x23); (fs, 0x23); (gs, 0x23); (ss, 0x23); (esi, 0); (edi, 0); (ebp, 0); (int_no, 0); (err_code, 0)].

(** In the directory [pd]: the frame at [frame], the arguments and the environment on
    the stack between [esp] and its top. *)
Definition ready_to_start (e : E) (pd start frame : Z) (la le : list (list Z)) : Prop :=
  exists argv envp esp, USER_STACK_TOP - USER_STACK_SIZE < esp /\
    Forall (fun x => shows_word e pd (frame + fst x) (snd x)) (start_frame start (Z.of_nat (length la)) argv (Z.of_nat (length le)) envp esp) /\
    passed e pd esp (USER_STACK_TOP - 4) argv la /\ passed e pd esp (USER_STACK_TOP - 4) envp le /\ shows_word e pd (USER_STACK_TOP - 4) 0.

(** The frame is inside of the kernel stack, the buffers are not. *)
Record stacks_ready (e : E) (pd esp0 : Z) (la le : list (list Z)) : Prop := {
  sr_active : get_page_directory e = pd;
  sr_stack : mapped e pd (USER_STACK_TOP - USER_STACK_SIZE) USER_STACK_SIZE;
  sr_esp0 : KERNEL_START + REGS_SIZE <= esp0 < 2 ^ 32;
  sr_frame : mapped e pd (esp0 - REGS_SIZE) REGS_SIZE;
  sr_args : c_strings la /\ KERNEL_START <= args_buffer /\ shows_bytes e pd args_buffer (text la) /\ Z.of_nat (length (text la)) <= ARGS_MAX_LEN /\
    (args_buffer + Z.of_nat (length (text la)) <= esp0 - REGS_SIZE \/ esp0 <= args_buffer);
  sr_envs : c_strings le /\ KERNEL_START <= envs_buffer /\ shows_bytes e pd envs_buffer (text le) /\ Z.of_nat (length (text le)) <= ENVS_MAX_LEN /\
    (envs_buffer + Z.of_nat (length (text le)) <= esp0 - REGS_SIZE \/ esp0 <= envs_buffer);
}.

Lemma stacks_ready_next e e' pd esp0 la le a n : stacks_ready e pd esp0 la le -> only_at e e' a n -> mapped e' pd a n ->
  KERNEL_START - USER_STACK_SIZE <= a /\ a + n <= KERNEL_START \/ esp0 - REGS_SIZE <= a /\ a + n <= esp0 -> stacks_ready e' pd esp0 la le.
Proof.
  intros [A M He F (Ga & Ba & Sa & La & Da) (Ge & Be & Se & Le & De)] On Mn D. pose proof On as (A' & V & _). rewrite A in A', V. unfold USER_STACK_SIZE, REGS_SIZE, KERNEL_START, USER_STACK_TOP in *.
  assert (K : forall b k, mapped e pd b k -> mapped e' pd b k) by (intros b k Mb; rewrite <- A in *; apply (mapped_only e e' a n); auto).
  assert (Sh : forall b l, shows_bytes e pd b l -> 3221225472 <= b -> b + Z.of_nat (length l) <= esp0 - 76 \/ esp0 <= b -> shows_bytes e' pd b l).
  { intros b l Sb Hb Db i c Hc. pose proof (lookup_lt_Some _ _ _ Hc). rewrite V by lia. now apply Sb. }
  split; auto; split_and!; auto.
Qed.

Lemma stack_top_mapped e pd esp0 la le a n : stacks_ready e pd esp0 la le -> KERNEL_START - USER_STACK_SIZE <= a -> a + n <= KERNEL_START -> mapped e pd a n.
Proof.
  intros R Ha Hn i Hi. pose proof (sr_stack _ _ _ _ _ R (a + i - (KERNEL_START - USER_STACK_SIZE))) as M. unfold USER_STACK_TOP in M.
  replace (KERNEL_START - USER_STACK_SIZE + _) with (a + i) in M by lia. apply M. lia.
Qed.

(** Assigning registers of the frame. *)
Lemma frame_fields_ok e pd esp0 la le l : stacks_ready e pd esp0 la le -> Forall (fun x => 0 <= fst x <= 72) l -> ForallOrdPairs apart_fields l ->
  exists e', store_fields e (esp0 - REGS_SIZE) l = Ret e' /\ stacks_ready e' pd esp0 la le /\ only_at e e' (esp0 - REGS_SIZE) REGS_SIZE /\
    Forall (fun x => shows_word e' pd (esp0 - REGS_SIZE + fst x) (snd x)) l /\
    forall o v, Forall (apart_fields (o, v)) l -> shows_word e pd (esp0 - REGS_SIZE + o) v -> shows_word e' pd (esp0 - REGS_SIZE + o) v.
Proof.
  intros R B S. destruct (store_fields_ok pd (esp0 - REGS_SIZE) REGS_SIZE l e (sr_active _ _ _ _ _ R) (sr_frame _ _ _ _ _ R) B S) as (e' & E' & On & M & F & K).
  exists e'. split; [exact E'|]. split; [eapply stacks_ready_next; [exact R|exact On|exact M|lia]|]. auto.
Qed.

(** Strings of one buffer passed on the stack below [sp]. *)
Lemma pass_strings_ok e pd esp0 la le sp buffer m l : stacks_ready e pd esp0 la le -> KERNEL_START <= buffer -> c_strings l -> shows_bytes e pd buffer (text l) ->
  Z.of_nat (length (text l)) <= m <= 4096 -> KERNEL_START - USER_STACK_SIZE <= sp - stack_use l -> sp <= KERNEL_START - 4 ->
  exists argv e', parse_null_separated_strings e sp m buffer = Ret (sp - stack_use l, Z.of_nat (length l), argv, e') /\ stacks_ready e' pd esp0 la le /\
    only_at e e' (sp - stack_use l) (stack_use l) /\ passed e' pd (sp - stack_use l) sp argv l.
Proof.
  intros R Hb G Sh Hm Hlo Hsp. pose proof (stack_use_bound l m G ltac:(lia)) as U. pose proof (sr_active _ _ _ _ _ R) as A. unfold KERNEL_START, USER_STACK_SIZE in *.
  destruct (parse_ok e sp m buffer l G) as (argv & e' & E' & On & P & M); rewrite ?A; auto; try lia.
  - eapply stack_top_mapped; [exact R|unfold KERNEL_START, USER_STACK_SIZE; lia..].
  - rewrite A in P, M. exists argv, e'. split; [exact E'|]. split; [|auto]. eapply stacks_ready_next; [exact R|exact On|exact M|]. unfold KERNEL_START, USER_STACK_SIZE. lia.
Qed.

Ltac each_field := repeat first [apply Forall_nil_2 | apply Forall_cons_2 | apply FOP_nil | apply FOP_cons].
Ltac offsets := unfold apart_fields, gs, fs, es, ds, edi, esi, ebp, ebx, edx, ecx, eax, int_no, err_code, eip, cs, eflags, useresp, ss; cbn [fst snd]; lia.
Ltac frame_side := each_field; offsets.

Lemma passed_same e e' pd lo hi lo' hi' argv l : (forall b, lo <= b < hi -> view e' pd b = view e pd b) -> lo' <= lo -> hi <= hi' -> passed e pd lo hi argv l -> passed e' pd lo' hi' argv l.
Proof. intros V L Hh P. unfold passed in *. destruct l; [exact P|]. eapply strings_in_wider; [exact L|exact Hh|]. eapply strings_in_same; eauto. Qed.

(** argc, argv, envc, envp: the strings on the stack, the registers in the frame. *)
Lemma pass_arguments_ok e pd esp0 la le : stacks_ready e pd esp0 la le -> shows_word e pd (esp0 - REGS_SIZE + useresp) (KERNEL_START - 4) ->
  exists e' argv envp esp, pass_arguments args_buffer envs_buffer e (esp0 - REGS_SIZE) = Ret e' /\ get_page_directory e' = pd /\
    (forall p a, a < KERNEL_START -> p <> pd \/ a < USER_STACK_TOP - USER_STACK_SIZE -> view e' p a = view e p a) /\
    KERNEL_START - USER_STACK_SIZE < esp /\
    passed e' pd esp (KERNEL_START - 4) argv la /\ passed e' pd esp (KERNEL_START - 4) envp le /\
    (forall v, shows_word e pd (KERNEL_START - 4) v -> shows_word e' pd (KERNEL_START - 4) v) /\
    let args := argument_registers (Z.of_nat (length la)) argv (Z.of_nat (length le)) envp esp in
    Forall (fun x => shows_word e' pd (esp0 - REGS_SIZE + fst x) (snd x)) args /\
    forall o v, 0 <= o <= 72 -> Forall (apart_fields (o, v)) args -> shows_word e pd (esp0 - REGS_SIZE + o) v -> shows_word e' pd (esp0 - REGS_SIZE + o) v.
Proof.
  intros R Wu. set (frame := esp0 - REGS_SIZE) in *. pose proof (sr_esp0 _ _ _ _ _ R) as He. pose proof (sr_active _ _ _ _ _ R) as A. assert (Hf : KERNEL_START <= frame /\ frame + 76 < 2 ^ 32) by (unfold frame, REGS_SIZE in *; lia).
  destruct (sr_args _ _ _ _ _ R) as (Ga & Ba & Sa & La & _). unfold ARGS_MAX_LEN, ENVS_MAX_LEN in *. pose proof (stack_use_bound la 1024 Ga La) as Ua.
  unfold pass_arguments. rewrite (load32_word e _ (KERNEL_START - 4)) by (rewrite A; exact Wu). rewrite bind_ret. change (u32 (KERNEL_START - 4)) with (KERNEL_START - 4).
  destruct (pass_strings_ok e pd esp0 la le (KERNEL_START - 4) args_buffer ARGS_MAX_LEN la R Ba Ga Sa) as (argv & e1 & E1 & R1 & On1 & P1); [unfold ARGS_MAX_LEN; lia|unfold KERNEL_START, USER_STACK_SIZE; lia|lia|].
  rewrite E1, bind_ret. cbv beta iota. destruct (sr_envs _ _ _ _ _ R1) as (Ge & Be & Se & Le & _). unfold ENVS_MAX_LEN in Le. pose proof (stack_use_bound le 4096 Ge Le) as Ue. set (sp1 := KERNEL_START - 4 - stack_use la) in *.
  destruct (pass_strings_ok e1 pd esp0 la le sp1 envs_buffer ENVS_MAX_LEN le R1 Be Ge Se) as (envp & e2 & E2 & R2 & On2 & P2); [unfold ENVS_MAX_LEN; lia|unfold sp1, KERNEL_START, USER_STACK_SIZE; lia|unfold sp1; lia|].
  rewrite E2, bind_ret. cbv beta iota. set (sp2 := sp1 - stack_use le) in *. fold (argument_registers (Z.of_nat (length la)) argv (Z.of_nat (length le)) envp sp2).
  destruct (frame_fields_ok e2 pd esp0 la le (argument_registers (Z.of_nat (length la)) argv (Z.of_nat (length le)) envp sp2) R2) as (e3 & E3 & R3 & On3 & F3 & K3); [frame_side|frame_side|].
  fold frame in E3, On3, F3, K3. pose proof On1 as (A1 & V1 & O1). pose proof On2 as (A2 & V2 & O2). pose proof On3 as (A3 & V3 & O3). rewrite (sr_active _ _ _ _ _ R2) in *. rewrite (sr_active _ _ _ _ _ R1), A in *.
  assert (Hs : sp1 <= KERNEL_START - 4 /\ sp2 <= sp1) by (unfold sp1, sp2; lia). unfold REGS_SIZE in V3.
  assert (Lo : KERNEL_START - USER_STACK_SIZE < sp2) by (unfold sp2, sp1, KERNEL_START, USER_STACK_SIZE; lia).
  exists e3, argv, envp, sp2. split; [exact E3|]. split; [exact A3|]. split.
  { intros p a Ha Np. destruct (decide (p = pd)) as [->|N]; [|rewrite O3, O2, O1 by auto; reflexivity]. destruct Np as [|Np]; [done|]. unfold USER_STACK_TOP in Np. rewrite V3, V2, V1 by lia. reflexivity. }
  split; [exact Lo|]. split; [|split; [|split; [|split; [exact F3|]]]].
  - eapply (passed_same e1 e3 pd sp1 (KERNEL_START - 4)); [|lia|lia|exact P1]. intros b Hb. rewrite V3, V2 by lia. reflexivity.
  - eapply (passed_same e2 e3 pd sp2 sp1); [|lia|lia|exact P2]. intros b Hb. rewrite V3 by lia. reflexivity.
  - intros v W. eapply shows_bytes_same; [|exact W]. intros b Hb. cbn in Hb. rewrite V3, V2, V1 by lia. reflexivity.
  - intros o v Ho D W. apply K3; [exact D|]. eapply shows_bytes_same; [|exact W]. intros b Hb. cbn in Hb. rewrite V2, V1 by lia. reflexivity.
Qed.

Lemma set_up_stack_ok e pd start esp0 la le : stacks_ready e pd esp0 la le ->
  exists e', set_up_stack args_buffer envs_buffer e start true (USER_STACK_TOP - USER_STACK_SIZE) USER_STACK_SIZE esp0 = Ret (esp0 - REGS_SIZE, e') /\
    get_page_directory e' = pd /\ (forall p a, a < KERNEL_START -> p <> pd \/ a < USER_STACK_TOP - USER_STACK_SIZE -> view e' p a = view e p a) /\ ready_to_start e' pd start (esp0 - REGS_SIZE) la le.
Proof.
  intros R. unfold set_up_stack. pose proof (sr_esp0 _ _ _ _ _ R) as He. unfold REGS_SIZE, KERNEL_START in He. cbv zeta.
  change (u32 (USER_STACK_TOP - USER_STACK_SIZE + USER_STACK_SIZE - 4)) with (KERNEL_START - 4). rewrite (u32_small (esp0 - REGS_SIZE)) by (unfold REGS_SIZE; lia). set (frame := esp0 - REGS_SIZE).
  destruct (store32_ok e (KERNEL_START - 4) 0) as (e1 & E1 & On1 & W1); [rewrite (sr_active _ _ _ _ _ R); eapply stack_top_mapped; [exact R|unfold KERNEL_START, USER_STACK_SIZE; lia..]|].
  rewrite (sr_active _ _ _ _ _ R) in W1. rewrite E1, bind_ret.
  assert (R1 : stacks_ready e1 pd esp0 la le) by (eapply stacks_ready_next; [exact R|exact On1|exact (shows_mapped _ _ _ _ W1)|unfold KERNEL_START, USER_STACK_SIZE; lia]).
  destruct (frame_fields_ok e1 pd esp0 la le (user_segments (KERNEL_START - 4)) R1) as (e2 & E2 & R2 & On2 & F2 & K2); [frame_side|frame_side|]. fold frame in E2, On2, F2, K2. rewrite E2, bind_ret.
  destruct (frame_fields_ok e2 pd esp0 la le (default_registers start) R2) as (e3 & E3 & R3 & On3 & F3 & K3); [frame_side|frame_side|]. fold frame in E3, On3, F3, K3. rewrite E3, bind_ret.
  assert (F2' : Forall (fun x => shows_word e3 pd (frame + fst x) (snd x)) (user_segments (KERNEL_START - 4))).
  { unfold user_segments in *. rewrite !Forall_cons in F2. destruct_and! F2. each_field; apply K3; (frame_side || assumption). }
  pose proof On1 as (A1 & V1 & O1). pose proof On2 as (A2 & V2 & O2). pose proof On3 as (A3 & V3 & O3). rewrite (sr_active _ _ _ _ _ R2) in *. rewrite (sr_active _ _ _ _ _ R1), (sr_active _ _ _ _ _ R) in *.
  assert (W3 : shows_word e3 pd (KERNEL_START - 4) 0) by (eapply shows_bytes_same; [|exact W1]; intros b Hb; cbn in Hb; rewrite V3, V2 by (unfold frame, KERNEL_START, REGS_SIZE in *; lia); reflexivity).
  destruct (pass_arguments_ok e3 pd esp0 la le R3) as (e4 & argv & envp & esp & E4 & A4 & O4 & Hesp & Pa & Pe & Top & F4 & K4).
  { unfold user_segments in F2'. rewrite !Forall_cons in F2'. now destruct_and! F2'. }
  fold frame in E4, F4, K4. rewrite E4, bind_ret. exists e4. split; [reflexivity|]. split; [exact A4|]. split.
  { intros p a Ha Np. rewrite O4 by auto. destruct (decide (p = pd)) as [->|N]; [|rewrite O3, O2, O1 by auto; reflexivity]. destruct Np as [|Np]; [done|]. unfold USER_STACK_TOP in Np; unfold frame, KERNEL_START, USER_STACK_SIZE, REGS_SIZE in *. rewrite V3, V2, V1 by lia. reflexivity. }
  exists argv, envp, esp. split; [exact Hesp|]. split; [|split; [exact Pa|split; [exact Pe|apply Top; exact W3]]].
  unfold start_frame. apply Forall_app. split; [exact F4|]. assert (F23 := proj2 (Forall_app _ _ _) (conj F2' F3)). rewrite Forall_forall in F23.
  each_field; apply K4; try solve [offsets | frame_side]; match goal with |- shows_word _ _ (_ + fst ?x) _ => apply (F23 x) end; unfold user_segments, default_registers; cbn [app]; clear; in_list.
Qed.
(** The frame and the user memory say all of it. *)
Lemma ready_extends (e e' : E) pd start frame la le : (forall a, a < KERNEL_START -> view e' pd a = view e pd a) ->
  (forall a b, frame <= a < frame + REGS_SIZE -> view e pd a = Some b -> view e' pd a = Some b) ->
  ready_to_start e pd start frame la le -> ready_to_start e' pd start frame la le.
Proof.
  intros X Y (argv & envp & esp & Hs & F & Pa & Pe & W). exists argv, envp, esp. split_and!; [exact Hs| | | |].
  - assert (B : Forall (fun x => 0 <= fst x <= 72) (start_frame start (Z.of_nat (length la)) argv (Z.of_nat (length le)) envp esp)) by (unfold start_frame, argument_registers; cbn [app]; each_field; offsets).
    rewrite Forall_forall in F, B |- *. intros x Hx. specialize (B x Hx). intros i b Hi. pose proof (lookup_lt_Some _ _ _ Hi) as L. cbn in L. apply Y; [unfold REGS_SIZE; lia|]. now apply (F x Hx).
  - eapply (passed_same e e' pd esp (USER_STACK_TOP - 4)); [|lia|lia|exact Pa]. intros b Hb. apply X. unfold USER_STACK_TOP in Hb. lia.
  - eapply (passed_same e e' pd esp (USER_STACK_TOP - 4)); [|lia|lia|exact Pe]. intros b Hb. apply X. unfold USER_STACK_TOP in Hb. lia.
  - eapply shows_bytes_same; [|exact W]. intros b Hb. cbn in Hb. apply X. unfold USER_STACK_TOP in Hb. lia.
Qed.

End start.

(** ** A user process *)

(** The file system leaves the memory of these parts alone, up to the descriptor that
    file_open fills in; freeing a page directory, the user memory of the others.  file_open
    sets the node, as the modes used here do not ask for a directory. *)
Class ProcessFilesLaws (E : Type) `{AddressSpaceLaws E} `{ProcessFiles E} := {
  create_view e m p err e' : create_directory e m p = (err, e') -> get_page_directory e' = get_page_directory e /\
    forall pd a, a < KERNEL_START \/ view e pd a <> None -> view e' pd a = view e pd a;
  free_view e pd : get_page_directory (free_page_directory e pd) = get_page_directory e /\
    forall pd' a, pd' <> pd -> a < KERNEL_START -> view (free_page_directory e pd) pd' a = view e pd' a;
  open_view e fde node mode n e' : open_descriptor e fde node mode = (n, e') -> n = node /\ get_page_directory e' = get_page_directory e /\
    forall pd a, a < KERNEL_START \/ view e pd a <> None /\ ~ (fde <= a < fde + FILE_DESCRIPTION_SIZE) -> view e' pd a = view e pd a;
  retain_view e node : get_page_directory (retain_node e node) = get_page_directory e /\
    forall pd a, a < KERNEL_START \/ view e pd a <> None -> view (retain_node e node) pd a = view e pd a;
  heap_nodes_length e a : length (heap_nodes e a) = Z.to_nat MAX_FILE;
}.

Section creating.
Context {E : Type} `{ProcessFilesLaws E}.
Variable kernel_pd args_buffer envs_buffer : Z.

(** The two static buffers. *)
Record buffers_ready (e : E) : Prop := {
  br_args : KERNEL_START <= args_buffer /\ mapped e (get_page_directory e) args_buffer ARGS_MAX_LEN;
  br_envs : KERNEL_START <= envs_buffer /\ mapped e (get_page_directory e) envs_buffer ENVS_MAX_LEN;
  br_apart : args_buffer + ARGS_MAX_LEN <= envs_buffer \/ envs_buffer + ENVS_MAX_LEN <= args_buffer;
}.

(** A caller's strings: terminated by two zeros, short enough, not in the buffers. *)
Definition strings_at (e : E) (a n : Z) (l : list (list Z)) : Prop :=
  a <> 0 /\ c_strings l /\ shows_bytes e (get_page_directory e) a (text l) /\ Z.of_nat (length (text l)) <= n /\
  (forall b k, b = args_buffer /\ k = ARGS_MAX_LEN \/ b = envs_buffer /\ k = ENVS_MAX_LEN -> a + Z.of_nat (length (text l)) <= b \/ b + k <= a).

Lemma copy_strings_ok e args envs la le : buffers_ready e -> strings_at e args ARGS_MAX_LEN la -> strings_at e envs ENVS_MAX_LEN le ->
  exists e', copy_strings args_buffer envs_buffer e true args envs = Ret e' /\ get_page_directory e' = get_page_directory e /\
    (forall p a, a < KERNEL_START -> view e' p a = view e p a) /\ shows_bytes e' (get_page_directory e) args_buffer (text la) /\ shows_bytes e' (get_page_directory e) envs_buffer (text le).
Proof.
  intros [[Ba Ma] [Be Me] Ap] (Na & Ga & Sa & La & Da) (Ne & Ge & Se & Le & De). unfold copy_strings. rewrite !(proj2 (Z.eqb_neq _ _)) by assumption.
  destruct (copy_double_null_ok e args_buffer args la ARGS_MAX_LEN Ga Na La Sa Ma) as (e1 & E1 & On1 & S1); [destruct (Da args_buffer ARGS_MAX_LEN); auto; lia|].
  rewrite E1, bind_ret. pose proof On1 as (A1 & V1 & O1).
  destruct (copy_double_null_ok e1 envs_buffer envs le ENVS_MAX_LEN Ge Ne Le) as (e2 & E2 & On2 & S2).
  { rewrite A1. eapply shows_only; [exact On1| |exact Se]. destruct (De args_buffer ARGS_MAX_LEN); auto; lia. }
  { rewrite A1. intros i Hi. rewrite V1 by lia. now apply Me. }
  { destruct (De envs_buffer ENVS_MAX_LEN); auto; lia. }
  exists e2. pose proof On2 as (A2 & V2 & O2). rewrite A1 in *. split; [exact E2|]. split; [exact A2|]. split; [|split; [|exact S2]].
  - intros p a Ha. destruct (decide (p = get_page_directory e)) as [->|Np]; [rewrite V2, V1 by lia|rewrite O2, O1 by auto]; reflexivity.
  - intros i b Hb. pose proof (lookup_lt_Some _ _ _ Hb). rewrite V2 by lia. now apply S1.
Qed.

(** A buffer is not in a block of the heap that was free. *)
Lemma buffer_apart (e : E) pd b l esp0 : (forall a, esp0 - KERNEL_STACK_SIZE <= a < esp0 -> view e pd a = None) -> shows_bytes e pd b l -> (0 < length l)%nat ->
  b + Z.of_nat (length l) <= esp0 - REGS_SIZE \/ esp0 <= b.
Proof.
  intros N Sh Hl. pose proof (shows_mapped e pd b l Sh) as M. unfold REGS_SIZE, KERNEL_STACK_SIZE in *. destruct (Z_le_gt_dec (b + Z.of_nat (length l)) (esp0 - 76)); [now left|]. destruct (Z_le_gt_dec esp0 b); [now right|].
  exfalso. destruct (Z_le_gt_dec (esp0 - 0x2000) b).
  - apply (M 0); [lia|]. rewrite Z.add_0_r. apply N. lia.
  - apply (M (esp0 - 0x2000 - b)); [lia|]. replace (b + (esp0 - 0x2000 - b)) with (esp0 - 0x2000) by lia. apply N. lia.
Qed.

Lemma text_nonempty l : (0 < length (text l))%nat.
Proof. unfold text. rewrite length_app. destruct l; cbn; lia. Qed.

(** The stacks of a user process, from the state in which the strings are in the buffers. *)
Lemma user_stacks_ready (e : E) pd la le : (forall e1 p v flags, get_page_directory e1 = pd -> fst (map_page e1 0 p v flags) = false) ->
  KERNEL_START <= args_buffer -> KERNEL_START <= envs_buffer -> c_strings la -> c_strings le ->
  Z.of_nat (length (text la)) <= ARGS_MAX_LEN -> Z.of_nat (length (text le)) <= ENVS_MAX_LEN ->
  shows_bytes e pd args_buffer (text la) -> shows_bytes e pd envs_buffer (text le) ->
  let '(r, e') := user_stacks e pd in
  (forall p a, a < KERNEL_START -> p <> pd \/ a < USER_STACK_TOP - USER_STACK_SIZE -> view e' p a = view e p a) /\
  forall stack_addr size esp0, r = Some (stack_addr, size, esp0) -> stack_addr = USER_STACK_TOP - USER_STACK_SIZE /\ size = USER_STACK_SIZE /\
    stacks_ready args_buffer envs_buffer e' pd esp0 la le /\ forall a, esp0 - KERNEL_STACK_SIZE <= a < esp0 -> view e pd a = None.
Proof.
  intros Room Ba Be Ga Ge La Le Sa Se. pose proof (user_stacks_ok e pd Room) as U. destruct (user_stacks e pd) as [r e']. destruct U as (A & O & K & P). split; [exact O|].
  intros sa size esp0 Hr. destruct (P sa size esp0 Hr) as (-> & -> & He & Ms & Mk & Nk). split_and!; [reflexivity|reflexivity| |exact Nk].
  assert (Sh : forall b l, KERNEL_START <= b -> shows_bytes e pd b l -> shows_bytes e' pd b l) by (intros b l Hb Sb i c Hc; rewrite K by (rewrite ?(Sb _ _ Hc); (lia || done)); now apply Sb).
  unfold KERNEL_STACK_SIZE in He, Mk. split; auto.
  - unfold REGS_SIZE. lia.
  - intros i Hi. unfold REGS_SIZE in *. replace (esp0 - 76 + i) with (esp0 - 0x2000 + (0x2000 - 76 + i)) by lia. apply Mk. lia.
  - split_and!; auto. eapply buffer_apart; eauto using text_nonempty.
  - split_and!; auto. eapply buffer_apart; eauto using text_nonempty.
Qed.

(** A request this call makes is turned down: its block for the record or for the
    descriptors, the stacks (user_stacks: frames or a block of the heap), or its directory. *)
Definition request_failed (e : E) (start pagedir args envs pid : Z) : Prop :=
  let '(proc, e) := Space.kmalloc e PROCESS_SIZE in
  proc = 0 \/ exists e1, copy_strings args_buffer envs_buffer e true args envs = Ret e1 /\
    let '(fdt, e2) := Space.kmalloc e1 (FILE_DESCRIPTION_SIZE * MAX_FILE) in
    fdt = 0 \/ let '(stacks, e3) := user_stacks e2 pagedir in
      stacks = None \/ exists stack_addr size esp0 esp e4 buff, stacks = Some (stack_addr, size, esp0) /\
        set_up_stack args_buffer envs_buffer e3 start true stack_addr size esp0 = Ret (esp, e4) /\
        cstr buff 0 (int_text pid 10) /\ fst (create_directory (switch_page_directory e4 (get_page_directory e1)) buff 0) = true.

(** The number and its 0 fit in the array. *)
Definition id_fits (pid : Z) : Prop := Z.of_nat (length (int_text pid 10)) < PROC_DIR_NAME_SIZE.

Lemma id_fits_below pid : 0 <= pid < 10 ^ 9 -> id_fits pid.
Proof.
  intros Hp. unfold id_fits, PROC_DIR_NAME_SIZE, int_text. case_test; [cbn; lia|]. replace (pid <? 0) with false by lia.
  rewrite andb_false_r. cbn [app]. rewrite length_reverse, length_map, u32_small by lia. pose proof (digits_length_pow 32 10 pid 9 ltac:(lia) ltac:(lia)). lia.
Qed.

Lemma process_new_ok (start pagedir args envs count : Z) (k : kernel E) (la le : list (list Z)) :
  (forall e1 p v flags, get_page_directory e1 = pagedir -> fst (map_page e1 0 p v flags) = false) ->
  buffers_ready (env k) -> strings_at (env k) args ARGS_MAX_LEN la -> strings_at (env k) envs ENVS_MAX_LEN le ->
  ~ id_fits (s32 (u32 (count + 1))) /\ process_new kernel_pd args_buffer envs_buffer start true pagedir args envs k count = Fault \/
  exists p k' count', process_new kernel_pd args_buffer envs_buffer start true pagedir args envs k count = Ret (p, k', count') /\
    get_page_directory (env k') = get_page_directory (env k) /\
    (forall pd a, pd <> pagedir -> a < KERNEL_START -> view (env k') pd a = view (env k) pd a) /\
    (p = 0 /\ request_failed (env k) start pagedir args envs (s32 (u32 (count + 1))) \/
     p <> 0 /\ id_fits (s32 count') /\ count' = u32 (count + 1) /\ exists r, procs k' = <[p := r]> (procs k) /\
      id r = s32 count' /\ state r = PROCESS_STATE_READY /\ is_user r = true /\ page_directory r = pagedir /\ attached_from r = 0 /\ file_count r = 0 /\ length (file_nodes r) = Z.to_nat MAX_FILE /\
      saved_esp r = tss_esp0 r - REGS_SIZE /\ ready_to_start (env k') pagedir start (saved_esp r) la le /\
      (forall a, a < USER_STACK_TOP - USER_STACK_SIZE -> view (env k') pagedir a = view (env k) pagedir a) /\
      KERNEL_START <= file_descriptor_table r /\
      forall a, file_descriptor_table r <= a < file_descriptor_table r + FILE_DESCRIPTION_SIZE * MAX_FILE -> ~ (saved_esp r <= a < saved_esp r + REGS_SIZE)).
Proof.
  intros Room Br Sta Ste. unfold process_new. destruct (Space.kmalloc (env k) PROCESS_SIZE) as [proc e1] eqn:Ek. destruct (kmalloc_view _ _ _ _ Ek) as (A1 & V1 & _).
  assert (U1 : forall p a, a < KERNEL_START -> view e1 p a = view (env k) p a) by auto.
  destruct (Z.eqb_spec proc 0) as [Hp|Hp]; [right; eexists 0, _, _; split; [reflexivity|]; cbn [env with_env]; split_and!; auto; left; split; [reflexivity|]; unfold request_failed; rewrite Ek; now left|].
  assert (Br1 : buffers_ready e1) by (destruct Br as [[] [] ]; split; [split; [assumption|] ..|assumption]; rewrite A1; intros i Hi; rewrite V1 by auto; auto).
  assert (St1 : forall a n l, strings_at (env k) a n l -> strings_at e1 a n l).
  { intros a n l (? & ? & Sh & ? & ?). split_and!; auto. rewrite A1. intros i b Hb. rewrite V1; [now apply Sh|]. right. now rewrite (Sh _ _ Hb). }
  destruct (copy_strings_ok e1 args envs la le Br1 (St1 _ _ _ Sta) (St1 _ _ _ Ste)) as (e2 & E2 & A2 & V2 & Sa & Se). rewrite E2, bind_ret. cbv zeta.
  destruct (Space.kmalloc e2 _) as [fdt e3] eqn:Ef. destruct (kmalloc_view _ _ _ _ Ef) as (A3 & V3 & M3).
  assert (U3 : forall p a, a < KERNEL_START -> view e3 p a = view (env k) p a) by (intros; rewrite V3, V2 by auto; auto).
  assert (Fr : forall e p, get_page_directory e = get_page_directory (env k) -> (forall pd a, pd <> pagedir -> a < KERNEL_START -> view e pd a = view (env k) pd a) ->
    get_page_directory (Space.kfree e p) = get_page_directory (env k) /\ (forall pd a, pd <> pagedir -> a < KERNEL_START -> view (Space.kfree e p) pd a = view (env k) pd a)).
  { intros e p Ae Ve. destruct (kfree_view e p) as [Af Vf]. split; [congruence|]. intros. rewrite Vf by auto. auto. }
  destruct (Z.eqb_spec fdt 0) as [Hf|Hf]; [destruct (Fr e3 proc) as [? ?]; [congruence|auto|]; right; eexists 0, _, _; split; [reflexivity|]; cbn [env with_env]; split_and!; auto; left; split; [reflexivity|]; unfold request_failed; rewrite Ek; right; exists e2; split; [exact E2|]; rewrite Ef; now left|].
  destruct Sta as (_ & Ga & _ & La & _), Ste as (_ & Ge & _ & Le & _). destruct Br as [[Ba _] [Be _] _].
  assert (Sh3 : forall b l, KERNEL_START <= b -> shows_bytes e2 (get_page_directory e1) b l -> shows_bytes e3 pagedir b l).
  { intros b l Hb Sb i c Hc. specialize (Sb _ _ Hc). rewrite (view_kernel e2 _ pagedir) in Sb by lia. rewrite V3 by (right; congruence). exact Sb. }
  pose proof (user_stacks_ready e3 pagedir la le Room Ba Be Ga Ge La Le (Sh3 _ _ Ba Sa) (Sh3 _ _ Be Se)) as Us. destruct (user_stacks e3 pagedir) as [stacks e4] eqn:Eu. destruct Us as [O4 R4].
  destruct (switch_view e4 (get_page_directory e2)) as [A5 V5]. set (e5 := switch_page_directory e4 _) in *.
  destruct stacks as [[[sa size] esp0]|].
  2:{ destruct (Fr e5 fdt) as [? ?]; [congruence|intros; rewrite V5, O4 by auto; auto|]. destruct (Fr (Space.kfree e5 fdt) proc) as [? ?]; auto. right. eexists 0, _, _. split; [reflexivity|]. cbn [env with_env]. split_and!; auto. left. split; [reflexivity|].
    unfold request_failed. rewrite Ek. right. exists e2. split; [exact E2|]. rewrite Ef. right. rewrite Eu. now left. }
  destruct (R4 sa size esp0 eq_refl) as (-> & -> & R & Nk). destruct (set_up_stack_ok args_buffer envs_buffer e4 pagedir start esp0 la le R) as (e6 & E6 & A6 & O6 & Rd). rewrite E6, bind_ret.
  destruct (switch_view e6 (get_page_directory e2)) as [A7 V7]. set (e7 := switch_page_directory e6 _) in *. destruct (itoa_ret ∅ (s32 (u32 (count + 1))) 0 10 ltac:(lia)) as (buff & -> & Cb & _). rewrite bind_ret.
  rewrite (strlen_spec buff 0 _ Cb), bind_ret by (pose proof (int_text_length (s32 (u32 (count + 1))) 10); lia).
  destruct (Z.leb_spec PROC_DIR_NAME_SIZE (Z.of_nat (length (int_text (s32 (u32 (count + 1))) 10)))) as [Lb|Fits]; [left; split; [unfold id_fits; lia|reflexivity]|right].
  cbn [env with_env procs]. destruct (create_directory e7 buff 0) as [err e8] eqn:Ec. destruct (create_view _ _ _ _ _ Ec) as [A8 V8].
  assert (U8 : forall pd a, pd <> pagedir -> a < KERNEL_START -> view e8 pd a = view (env k) pd a) by (intros pd a Np Ha; rewrite V8, V7, O6, O4 by auto; auto).
  destruct err.
  - unfold process_delete. cbn [procs with_env env]. unfold get. rewrite lookup_insert_eq. cbn [of_option]. rewrite bind_ret. cbn [new_process is_user tss_esp0 page_directory file_nodes file_count file_descriptor_table].
    assert (Cl : forall e n, close_files e n 0 = e) by (intros e [|? ?]; reflexivity). rewrite Cl. cbn [env_kfree env_free_page_directory process_env].
    destruct (free_view e8 pagedir) as [A9 V9]. set (e9 := free_page_directory e8 pagedir) in *. destruct (Fr e9 (u32 (esp0 - KERNEL_STACK_SIZE))) as [Aa Va]; [congruence|intros; rewrite V9; auto|].
    destruct (Fr _ fdt Aa Va) as [Ab Vb]. destruct (Fr _ proc Ab Vb) as [Ac Vc]. eexists 0, _, _. split; [reflexivity|]. cbn [env with_env]. split_and!; auto. left. split; [reflexivity|].
    unfold request_failed. rewrite Ek. right. exists e2. split; [exact E2|]. rewrite Ef. right. rewrite Eu. right. eexists _, _, _, _, e6, buff. split_and!; [reflexivity|exact E6|exact Cb|]. fold e7. now rewrite Ec.
  - eexists proc, _, _. split; [reflexivity|]. cbn [env with_env procs]. split; [congruence|]. split; [exact U8|]. right. split; [exact Hp|]. split; [exact Fits|]. split; [reflexivity|]. eexists. split; [reflexivity|]. cbn. destruct (M3 Hf) as (F1 & F2 & F3). split_and!; auto; [apply heap_nodes_length| | |].
    + eapply ready_extends; [| |exact Rd]; [intros a Ha; rewrite V8, V7; auto|intros a b _ Hb; rewrite V8; rewrite V7; [exact Hb|right; congruence]].
    + intros a Ha. assert (Hk : a < KERNEL_START) by (unfold USER_STACK_TOP, USER_STACK_SIZE in Ha; lia). rewrite V8, V7, O6, O4 by auto. auto.
    + intros a Ha Hb. apply (proj2 (F3 pagedir (a - fdt) ltac:(lia))). replace (fdt + (a - fdt)) with a by lia. apply Nk. unfold REGS_SIZE, KERNEL_STACK_SIZE in *. lia.
Qed.

(** C21: a user process is created ready to run.  Given argument and environment strings
    in the caller's memory, and as long as the stack's pages can be mapped, process_new
    returns, with the caller's page directory in use and the user memory of all other
    directories as it was, unless the new id does not fit in the array it is printed to (an
    id from 10^9 on, [id_fits_below]).  It returns NULL, when one of the requests it makes
    on the way, for memory or for the process's directory, is turned down, or a new process,
    ready, whose saved stack pointer leads to a frame that starts at the entry point in user
    mode with argc, argv, envc and envp in the registers; below the stack its memory is as
    it was; argv and envp are on the new user stack, above the stack pointer, arrays ended
    by NULL of pointers to exactly the given strings. *)
Theorem process_new_user (start pagedir args envs count : Z) (k : kernel E) (la le : list (list Z)) :
  (forall e1 p v flags, get_page_directory e1 = pagedir -> fst (map_page e1 0 p v flags) = false) ->
  buffers_ready (env k) -> strings_at (env k) args ARGS_MAX_LEN la -> strings_at (env k) envs ENVS_MAX_LEN le ->
  ~ id_fits (s32 (u32 (count + 1))) /\ process_new kernel_pd args_buffer envs_buffer start true pagedir args envs k count = Fault \/
  exists p k' count', process_new kernel_pd args_buffer envs_buffer start true pagedir args envs k count = Ret (p, k', count') /\
    get_page_directory (env k') = get_page_directory (env k) /\
    (forall pd a, pd <> pagedir -> a < KERNEL_START -> view (env k') pd a = view (env k) pd a) /\
    (p = 0 /\ request_failed (env k) start pagedir args envs (s32 (u32 (count + 1))) \/
     p <> 0 /\ id_fits (s32 count') /\ count' = u32 (count + 1) /\ exists r, procs k' = <[p := r]> (procs k) /\
      id r = s32 count' /\ state r = PROCESS_STATE_READY /\ is_user r = true /\ page_directory r = pagedir /\ attached_from r = 0 /\ file_count r = 0 /\
      saved_esp r = tss_esp0 r - REGS_SIZE /\ ready_to_start (env k') pagedir start (saved_esp r) la le /\
      forall a, a < USER_STACK_TOP - USER_STACK_SIZE -> view (env k') pagedir a = view (env k) pagedir a).
Proof.
  intros Room Br Sa Se. destruct (process_new_ok start pagedir args envs count k la le Room Br Sa Se) as [F|(p & k' & c & E1 & A & V & R)]; [now left|right]. exists p, k', c.
  split_and!; auto. destruct R as [R|(Np & Fits & -> & r & Hr & ? & ? & ? & ? & ? & ? & _ & ? & ? & ? & _)]; [now left|right]. split_and!; auto. exists r. auto 12.
Qed.
End creating.

(** ** A machine *)

Module Runs.
Import Elf.Runs.

#[export] Instance machine_process_files : ProcessFiles machine := {
  create_directory e m p := (false, e);
  open_descriptor e fde node mode := (node, e);
  retain_node e node := e;
  release_node e node := e;
  free_page_directory e pd := e;
  heap_process e a := Process 7 PROCESS_STATE_BLOCK 7 7 7 false 7 7 7 7 7 7 7 [] 7 7 7 7;
  heap_nodes e a := repeat 7 128;
}.
#[export] Program Instance machine_process_laws : ProcessFilesLaws machine.
Next Obligation. intros e m p err e' Ec. cbn in Ec. injection Ec as <- <-. auto. Qed.
Next Obligation. now intros. Qed.
Next Obligation. intros e fde node mode n e' Eo. cbn in Eo. injection Eo as <- <-. auto. Qed.
Next Obligation. now intros. Qed.
Next Obligation. reflexivity. Qed.

(** Strings in the caller's memory at 0x1000 and 0x1100; the page directory 4096 is in
    use, 8192 is the new process's. *)
Definition ls_l : list (list Z) := [[108; 115]; [45; 108]].
Definition home : list (list Z) := [[72; 61; 47]].
Definition caller : machine := Machine 4096 {[(4096, 1)]} (kmap (pair 4096) (put_bytes (put_bytes ∅ 0x1000 (text ls_l)) 0x1100 (text home))) ∅ (KERNEL_START + 0x2000) 0x100000 [] 0.
Definition kernel0 : kernel machine := Kernel ∅ PROCESS_QUEUE_INIT PROCESS_QUEUE_INIT PROCESS_QUEUE_INIT 0 0 0 0 ∅ 4096 0 caller.

Lemma shown_by_list (e : machine) a l : (forall i, (i < length l)%nat -> see e (active e) (a + Z.of_nat i) = l !! i) -> shows_bytes e (get_page_directory e) a l.
Proof. intros Hs i b Hb. change (see e (active e) (a + Z.of_nat i) = Some b). rewrite Hs by (eapply lookup_lt_Some; eauto). exact Hb. Qed.

Lemma caller_buffers : buffers_ready KERNEL_START (KERNEL_START + 1024) caller.
Proof.
  split; [split; [lia|]|split; [lia|]|unfold ARGS_MAX_LEN; lia]; intros i Hi; unfold view, machine_laws, see, ARGS_MAX_LEN, ENVS_MAX_LEN in *; cbn [heap_end caller];
    rewrite (proj2 (Z.leb_le _ _)), (proj2 (Z.ltb_lt _ _)) by lia; discriminate.
Qed.

Lemma caller_strings : strings_at KERNEL_START (KERNEL_START + 1024) caller 0x1000 ARGS_MAX_LEN ls_l /\ strings_at KERNEL_START (KERNEL_START + 1024) caller 0x1100 ENVS_MAX_LEN home.
Proof.
  assert (L : forall (P : nat -> Prop) n, Forall P (seq 0 n) -> forall i, (i < n)%nat -> P i) by (intros P n F i Hi; rewrite Forall_forall in F; apply F, elem_of_seq; lia).
  split; (split_and!; [lia| | |by_eval|unfold ARGS_MAX_LEN, ENVS_MAX_LEN, KERNEL_START; cbn; lia]).
  - repeat constructor; discriminate.
  - apply shown_by_list, (L _ 7%nat). repeat constructor.
  - repeat constructor; discriminate.
  - apply shown_by_list, (L _ 5%nat). repeat constructor.
Qed.

Lemma process_new_witness : ~ id_fits (s32 (u32 (1 + 1))) /\ process_new 0 KERNEL_START (KERNEL_START + 1024) 0x8048000 true 8192 0x1000 0x1100 kernel0 1 = Fault \/
  exists p k' count', process_new 0 KERNEL_START (KERNEL_START + 1024) 0x8048000 true 8192 0x1000 0x1100 kernel0 1 = Ret (p, k', count') /\
  get_page_directory (env k') = get_page_directory (env kernel0) /\
  (forall pd a, pd <> 8192 -> a < KERNEL_START -> view (env k') pd a = view (env kernel0) pd a) /\
  (p = 0 /\ request_failed KERNEL_START (KERNEL_START + 1024) caller 0x8048000 8192 0x1000 0x1100 (s32 (u32 (1 + 1))) \/
   p <> 0 /\ id_fits (s32 count') /\ count' = u32 (1 + 1) /\ exists r, procs k' = <[p := r]> (procs kernel0) /\
    id r = s32 count' /\ state r = PROCESS_STATE_READY /\ is_user r = true /\ page_directory r = 8192 /\ attached_from r = 0 /\ file_count r = 0 /\
    saved_esp r = tss_esp0 r - REGS_SIZE /\ ready_to_start (env k') 8192 0x8048000 (saved_esp r) ls_l home /\
    forall a, a < USER_STACK_TOP - USER_STACK_SIZE -> view (env k') 8192 a = view (env kernel0) 8192 a).
Proof. apply (process_new_user 0 KERNEL_START (KERNEL_START + 1024) 0x8048000 8192 0x1000 0x1100 1 kernel0 ls_l home); [reflexivity|exact caller_buffers|exact (proj1 caller_strings)|exact (proj2 caller_strings)]. Defined.

(** What the program with directory [pd] starts with: argc, the first bytes of each
    argument, and the entry after the last. *)
Definition arguments_of (pd : Z) (r : outcome (Z * kernel machine * Z)) : option (Z * list (list Z) * Z) :=
  match r with
  | Ret (p, k, _) =>
      let e := switch_page_directory (env k) pd in
      match procs k !! p with
      | Some proc =>
          match load32 e (saved_esp proc + eax), load32 e (saved_esp proc + ebx) with
          | Ret argc, Ret argv =>
              let string i := match load32 e (argv + 4 * i) with Ret s => map (fun j => default 0 (see e pd (s + j))) [0; 1; 2] | _ => [] end in
              match load32 e (argv + 4 * argc) with Ret last => Some (argc, map string (seqZ 0 argc), last) | _ => None end
          | _, _ => None
          end
      | None => None
      end
  | _ => None
  end.

Definition new args envs pd k count := process_new 0 KERNEL_START (KERNEL_START + 1024) 0x8048000 true pd args envs k count.

Example started : arguments_of 8192 (new 0x1000 0x1100 8192 kernel0 1) = Some (2, [[108; 115; 0]; [45; 108; 0]], 0).
Proof. vm_compute. reflexivity. Qed.

(** A process created without arguments starts with those of the one before. *)
Example stale_arguments :
  arguments_of 12288 (match new 0x1000 0x1100 8192 kernel0 1 with Ret (_, k, count) => new 0 0 12288 k count | _ => Fault end) = Some (2, [[108; 115; 0]; [45; 108; 0]], 0).
Proof. vm_compute. reflexivity. Qed.

(** A kernel process starts in the kernel's segments, its frame at the top of its stack. *)
Example kernel_process : match process_new 0 KERNEL_START (KERNEL_START + 1024) 0xc0100000 false 0 0 0 kernel0 1 with
  | Ret (p, k, _) => match procs k !! p with
      | Some r => (load32 (env k) (saved_esp r + eip), load32 (env k) (saved_esp r + cs), saved_esp r + 68 - stack_addr r, load32 (env k) (saved_esp r + 68), get_page_directory (env k))
      | None => (Fault, Fault, 0, Fault, 0) end
  | _ => (Fault, Fault, 0, Fault, 0) end = (Ret 0xc0100000, Ret 8, KERNEL_STACK_SIZE - 4, Ret 0, 4096).
Proof. vm_compute. reflexivity. Qed.

(** The billionth process overruns the array its number is printed to. *)
Example billionth : new 0x1000 0x1100 8192 kernel0 (10 ^ 9 - 1) = Fault /\ match new 0x1000 0x1100 8192 kernel0 (10 ^ 9 - 2) with Ret (p, _, count) => (0 <? p, count) = (true, 10 ^ 9 - 1) | _ => False end.
Proof. split; vm_compute; reflexivity. Qed.

(** The flags the scheduler relies on are left as the heap had them. *)
Example uninitialised : match process_make_idle 0 kernel0 0 with (p, k, count) => match procs k !! p with Some r => (is_user r, attached_from r, waiting_for_resource_count r, count) | None => (true, 0, 0, 0) end end = (false, 7, 7, 1).
Proof. vm_compute. reflexivity. Qed.
End Runs.
