(* ===== verification/Spawn.v ===== *)
(** * Starting programs (scheduler_spawn and its system call, kernel/src/process/scheduler.c)

    A new page directory, the program loaded into it, a process for it, its standard
    files, and a place in the scheduler's queues: the composition of [Elf], [Create] and
    [Sched]. *)
From S2P Require Import Prelude Fs Procs Sched Validate Space Elf Create.

Definition SYSFILE_FD_STDIN : nat := 0.
Definition SYSFILE_FD_STDOUT : nat := 1.

(** What starting a program asks of the layers below, besides loading and creating. *)
Class Spawning (E : Type) := {
  alloc_page_directory : E -> Z * E;                  (** vmmngr_alloc_page_directory *)
  vfs_get_stdin : Z;                                  (** kern_stdin and kern_stdout, two nodes of the kernel's image *)
  vfs_get_stdout : Z;
  find_stream : E -> Z -> Z -> Z -> FS_ERR * Z * E;   (** vfs_find_and_create_node(path, process->cwd, &node, mode, 0) *)
}.

Section spawning.
Context {E : Type} `{AddressSpaces E} `{ProgramFiles E} `{ProcessFiles E} `{Spawning E}.
Variable kernel_pd args_buffer envs_buffer : Z.

(** What a user process may ask for. *)
Definition may_spawn (e : E) (current : process) (user : bool) (args envs : Z) : outcome bool :=
  if is_user current then
    if negb user then Ret false
    else
      ok ← validate_user_double_null (is_user current) (load e) args ARGS_MAX_LEN;
      if negb ok then Ret false else validate_user_double_null (is_user current) (load e) envs ENVS_MAX_LEN
  else Ret true.

(** The standard files: those asked for, else the caller's, else the system's. *)
Definition standard_node (asked callers systems : Z) : Z :=
  if asked =? 0 then if callers =? 0 then systems else callers else asked.

(** The registers of the processor follow a switch of process. *)
Definition load_context (k : kernel E) : kernel E := with_env (procs k) (switch_page_directory (env k) (active_page_directory k)) k.

(** The value returned, None when the caller waits for the new process (it then goes on
    with [attached_result]); [regs]: its registers as syscall_attach saves them. *)
Definition scheduler_spawn (path : Z) (user : bool) (args envs : Z) (attach : bool) (stdin stdout regs : Z) (k : kernel E) (count : Z)
    : outcome (option Z * kernel E * Z) :=
  let failed e := Ret (Some (-1), with_env (procs k) e k, count) in
  current ← get (procs k) (current_process k);
  ok ← may_spawn (env k) current user args envs;
  if negb ok then failed (env k)
  else
    let '(pd, e) := if user then alloc_page_directory (env k) else (0, env k) in
    if user && (pd =? 0) then failed e
    else
      '(load_err, eip, e) ← elf_load kernel_pd path pd e;
      if negb (bool_decide (load_err = ERR_ELF_SUCCESS)) then failed (if user then free_page_directory e pd else e)
      else
        '(proc, k, count) ← process_new kernel_pd args_buffer envs_buffer eip user pd args envs (with_env (procs k) e k) count;
        if proc =? 0 then Ret (Some (-1), with_env (procs k) (if user then free_page_directory (env k) pd else env k) k, count)
        else
          let caller i := default 0 (file_nodes current !! i) in
          let stdin := standard_node stdin (caller SYSFILE_FD_STDIN) (vfs_get_stdin (E := E)) in
          let stdout := standard_node stdout (caller SYSFILE_FD_STDOUT) (vfs_get_stdout (E := E)) in
          k ← process_set_stdfile k proc stdin FILE_OPEN_READ stdout (Z.lor FILE_OPEN_WRITE FILE_OPEN_APPEND);
          if attach then
            '(_, k) ← scheduler_attach k regs 0x08 proc;
            Ret (None, load_context k, count)
          else
            k ← scheduler_add_process k proc;
            Ret (Some 0, k, count).

(** The attached caller, when it runs again: 0 is returned, and this stored. *)
Definition attached_result (k : kernel E) (caller : Z) : outcome Z := r ← get (procs k) caller; Ret (received_exit_code r).

(** A path of the arguments is optional; the result is the error, if any. *)
Definition stream_node (path mode : Z) (k : kernel E) : bool * Z * kernel E :=
  if path =? 0 then (false, 0, k)
  else let '(err, node, e) := find_stream (env k) path (current_process k) mode in (failed err, node, with_env (procs k) e k).

(** The system call: [args] points to a syscall_spawn_args_t.  With [attach] the caller
    waits; without it, what is returned after success is the variable [ret], which
    nothing has set: [garbage], what its stack slot held. *)
Definition scheduler_syscall_spawn (args regs garbage : Z) (k : kernel E) (count : Z) : outcome (option Z * kernel E * Z) :=
  stdin_path ← load32 (env k) (args + 20);
  let '(err, stdin, k) := stream_node stdin_path FILE_OPEN_READ k in
  if err : bool then Ret (Some (-1), k, count)
  else
    stdout_path ← load32 (env k) (args + 24);
    let '(err, stdout, k) := stream_node stdout_path (Z.lor FILE_OPEN_WRITE FILE_OPEN_APPEND) k in
    if err : bool then Ret (Some (-1), k, count)
    else
      path ← load32 (env k) args;
      user ← load (env k) (args + 4);
      strings ← load32 (env k) (args + 8);
      envs ← load32 (env k) (args + 12);
      attach ← load (env k) (args + 16);
      '(result, k, count) ← scheduler_spawn path (negb (user =? 0)) strings envs (negb (attach =? 0)) stdin stdout regs k count;
      Ret (match result with Some r => if 0 <=? r then Some garbage else Some r | None => None end, k, count).
End spawning.

(** ** What a start comes to *)

(** A new page directory is not the one in use; memory stays as it was. *)
Class SpawningLaws (E : Type) `{AddressSpaceLaws E} `{Spawning E} := {
  alloc_directory_view e pd e' : alloc_page_directory e = (pd, e') -> get_page_directory e' = get_page_directory e /\
    (pd <> 0 -> pd <> get_page_directory e) /\ forall p a, p <> pd /\ a < KERNEL_START \/ static a -> view e' p a = view e p a;
}.

Section starting.
Context {E : Type} `{ALE : AddressSpaceLaws E} `{PF : !ProgramFiles E} `{!ProgramFilesLaws E} `{PR : !ProcessFiles E} `{!ProcessFilesLaws E} `{SP : !Spawning E} `{!SpawningLaws E}.
Variable kernel_pd args_buffer envs_buffer : Z.

Lemma double_null_loop (e : E) str m l : c_strings l -> shows_bytes e (get_page_directory e) str (text l) -> 0 <= str -> str + Z.of_nat (length (text l)) <= KERNEL_START ->
  Z.of_nat (length (text l)) <= m -> forall n i, (i < length (text l))%nat -> n = (length (text l) - i)%nat ->
  loop (double_null_step true (load e) str m) n (Z.of_nat i) = Ret true.
Proof.
  unfold KERNEL_START. intros G Sh Hs He Hm. induction n as [|n IH]; intros i Hi Hn; [lia|]. rewrite loop_S. unfold double_null_step at 2.
  rewrite (proj2 (Z.ltb_lt _ _)) by lia. rewrite (u32_small (str + Z.of_nat i)) by lia.
  replace (validate_user_buffer true _ 1) with true by (unfold validate_user_buffer, Validate.KERNEL_START; cbn [negb]; rewrite u32_small by lia; rewrite !(proj2 (Z.ltb_ge _ _)) by lia; reflexivity). cbn [negb].
  assert (Next : loop (double_null_step true (load e) str m) n (Z.of_nat i + 1) = Ret true \/ i = (length (text l) - 1)%nat).
  { destruct (decide (i = (length (text l) - 1)%nat)); [now right|left]. replace (Z.of_nat i + 1) with (Z.of_nat (S i)) by lia. apply IH; lia. }
  destruct (Z.ltb_spec 0 (Z.of_nat i)) as [L|L].
  - destruct (lookup_lt_is_Some_2 (text l) i Hi) as [c Hc]. rewrite (load_shown e str _ i c Sh Hc), !bind_ret. pose proof (text_double l i G ltac:(lia)) as D.
    destruct (Z.eqb_spec c 0) as [->|Nc].
    + destruct (lookup_lt_is_Some_2 (text l) (i - 1) ltac:(lia)) as [p Hp]. rewrite (u32_small (str + _)) by lia. replace (Z.of_nat i - 1) with (Z.of_nat (i - 1)) by lia.
      rewrite (load_shown e str _ _ p Sh Hp), !bind_ret. destruct (Z.eqb_spec p 0) as [->|Np]; [reflexivity|].
      destruct Next as [Nx|Nx]; [exact Nx|]. apply D in Nx. destruct Nx as [_ Nx]. congruence.
    + rewrite bind_ret. destruct Next as [Nx|Nx]; [exact Nx|]. apply D in Nx. destruct Nx as [Nx _]. congruence.
  - rewrite bind_ret. destruct Next as [Nx|Nx]; [exact Nx|]. exfalso. assert (length (text l) = 1%nat) by lia.
    destruct l as [|s l]; [discriminate|]. pose proof (text_length (s :: l) ltac:(done)). pose proof (body_count _ G). cbn [length] in *. lia.
Qed.

Lemma double_null_accepted (e : E) str m l : strings_at args_buffer envs_buffer e str m l -> m <= 4096 -> 0 <= str -> str + Z.of_nat (length (text l)) <= KERNEL_START ->
  validate_user_double_null true (load e) str m = Ret true.
Proof.
  intros (Ns & G & Sh & Hm & _) Hm' Hs He. unfold validate_user_double_null. rewrite (proj2 (Z.eqb_neq _ _) Ns).
  apply (while_loop _ (length (text l))); [|discriminate|lia]. apply (double_null_loop e str m l G Sh Hs He Hm (length (text l)) 0); [apply text_nonempty|lia].
Qed.

(** The caller's strings are in its memory or in the kernel's image, and a user process's
    in its memory. *)
Definition given_strings (k : kernel E) (cur : process) (a n : Z) (l : list (list Z)) : Prop :=
  strings_at args_buffer envs_buffer (env k) a n l /\
  (forall i, 0 <= i < Z.of_nat (length (text l)) -> a + i < KERNEL_START \/ static (a + i)) /\
  (is_user cur = true -> 0 <= a /\ a + Z.of_nat (length (text l)) <= KERNEL_START).

Record static_buffers : Prop := {
  sb_args i : 0 <= i < ARGS_MAX_LEN -> static (args_buffer + i);
  sb_envs i : 0 <= i < ENVS_MAX_LEN -> static (envs_buffer + i);
  sb_apart : args_buffer + ARGS_MAX_LEN <= envs_buffer \/ envs_buffer + ENVS_MAX_LEN <= args_buffer;
}.

Lemma static_ready (e : E) : static_buffers -> buffers_ready args_buffer envs_buffer e.
Proof.
  intros [Sa Se Ap]. split; [split|split|exact Ap].
  - apply static_kernel. rewrite <- (Z.add_0_r args_buffer). now apply Sa.
  - intros i Hi. apply static_view. now apply Sa.
  - apply static_kernel. rewrite <- (Z.add_0_r envs_buffer). now apply Se.
  - intros i Hi. apply static_view. now apply Se.
Qed.

Lemma strings_kept (k : kernel E) cur a n l e' pd : given_strings k cur a n l -> get_page_directory e' = get_page_directory (env k) -> pd <> get_page_directory (env k) ->
  (forall p b, p <> pd /\ b < KERNEL_START \/ static b -> view e' p b = view (env k) p b) -> strings_at args_buffer envs_buffer e' a n l.
Proof.
  intros ((Na & G & Sh & Hn & D) & R & _) A Np V. split_and!; auto. rewrite A. intros i b Hb. pose proof (lookup_lt_Some _ _ _ Hb). rewrite V; [now apply Sh|]. destruct (R (Z.of_nat i)); [lia|left; auto|auto].
Qed.

Lemma may_spawn_ok (k : kernel E) cur args envs la le : given_strings k cur args ARGS_MAX_LEN la -> given_strings k cur envs ENVS_MAX_LEN le -> may_spawn (env k) cur true args envs = Ret true.
Proof.
  intros (Sa & _ & Ua) (Se & _ & Ue). unfold may_spawn. destruct (is_user cur); [|reflexivity]. cbn [negb]. destruct (Ua eq_refl), (Ue eq_refl).
  rewrite (double_null_accepted _ _ _ la Sa), bind_ret by (unfold ARGS_MAX_LEN; lia). cbn [negb]. apply (double_null_accepted _ _ _ le Se); unfold ENVS_MAX_LEN; lia.
Qed.

(** The standard files of a new process. *)
Lemma set_stdfile_ok (k : kernel E) p r stdin f0 stdout f1 : procs k !! p = Some r -> length (file_nodes r) = Z.to_nat MAX_FILE ->
  exists k' nodes, process_set_stdfile k p stdin f0 stdout f1 = Ret k' /\ procs k' = <[p := set_files nodes 2 r]> (procs k) /\
    nodes !! SYSFILE_FD_STDIN = Some stdin /\ nodes !! SYSFILE_FD_STDOUT = Some stdout /\ get_page_directory (env k') = get_page_directory (env k) /\
    forall pd a, a < KERNEL_START \/ view (env k) pd a <> None /\ ~ (file_descriptor_table r <= a < file_descriptor_table r + 2 * FILE_DESCRIPTION_SIZE) ->
      view (env k') pd a = view (env k) pd a.
Proof.
  intros Hr Hl. unfold process_set_stdfile, get. rewrite Hr. cbn [of_option]. rewrite bind_ret. set (fdt := file_descriptor_table r).
  destruct (open_descriptor (env k) _ stdin f0) as [n0 e1] eqn:E0. destruct (open_view _ _ _ _ _ _ E0) as (-> & A1 & V1).
  destruct (open_descriptor e1 _ stdout f1) as [n1 e2] eqn:E1. destruct (open_view _ _ _ _ _ _ E1) as (-> & A2 & V2).
  destruct (retain_view e2 stdin) as [A3 V3]. destruct (retain_view (retain_node e2 stdin) stdout) as [A4 V4].
  eexists _, _. split; [reflexivity|]. cbn [procs env with_env]. change (Z.to_nat MAX_FILE) with 128%nat in Hl. split; [reflexivity|]. split; [apply list_lookup_insert_eq; rewrite length_insert; lia|].
  split; [rewrite list_lookup_insert_ne by done; apply list_lookup_insert_eq; lia|]. split; [congruence|].
  intros pd a Ha. unfold FILE_DESCRIPTION_SIZE in *. assert (B1 : view e1 pd a = view (env k) pd a) by (apply V1; destruct Ha as [Ha|[Ha Hb]]; [auto|right; split; [exact Ha|lia]]).
  rewrite <- B1 in Ha. assert (B2 : view e2 pd a = view e1 pd a) by (apply V2; destruct Ha as [Ha|[Ha Hb]]; [auto|right; split; [exact Ha|lia]]). rewrite <- B2 in Ha.
  assert (Ha' : a < KERNEL_START \/ view e2 pd a <> None) by tauto. pose proof (V3 pd a Ha') as B3. rewrite <- B3 in Ha'. pose proof (V4 pd a Ha') as B4. congruence.
Qed.

(** The first of the candidates that is not NULL; the last one if all are. *)
Definition first_given (l : list Z) (node : Z) : Prop :=
  exists i, l !! i = Some node /\ (forall j x, (j < i)%nat -> l !! j = Some x -> x = 0) /\ (node <> 0 \/ S i = length l).

Lemma standard_node_first asked callers systems : first_given [asked; callers; systems] (standard_node asked callers systems).
Proof.
  unfold standard_node. destruct (Z.eqb_spec asked 0) as [->|Na]; [destruct (Z.eqb_spec callers 0) as [->|Nc]|].
  - exists 2%nat. split_and!; [reflexivity| |now right]. intros [|[|j]] x Hj Hx; [now injection Hx|now injection Hx|lia].
  - exists 1%nat. split_and!; [reflexivity| |now left]. intros [|j] x Hj Hx; [now injection Hx|lia].
  - exists 0%nat. split_and!; [reflexivity|intros j x Hj; lia|now left].
Qed.

(** C20: a user program is started.  With the caller's strings in its memory, a valid
    program that holds all of its bytes, below the stack's place, page tables to be had and
    an id that fits its array, scheduler_spawn for a user process returns -1, or hands the
    scheduler a new process, to be attached to or just added, in whose address space each
    segment of the program is in place and which is ready to start at the program's entry
    point with the given arguments and environment; its standard input is the node asked for
    if any, else the caller's if it has one, else the system's, and so its standard output.
    Until then the page directory in use is the one it was and the user memory of all other
    directories as before.  (A kernel process is started with the page directory NULL, which
    elf_load then switches to: it is not covered.) *)
Theorem scheduler_spawn_starts (path args envs stdin stdout regs count pd node : Z) (attach : bool) (k : kernel E) (cur : process) (e1 e2 : E) (la le : list (list Z)) (l : list Z) :
  (forall e p v flags, fst (map_page e 0 p v flags) = false) -> static_buffers -> id_fits (s32 (u32 (count + 1))) ->
  procs k !! current_process k = Some cur -> given_strings k cur args ARGS_MAX_LEN la -> given_strings k cur envs ENVS_MAX_LEN le ->
  alloc_page_directory (env k) = (pd, e1) -> find_node e1 path = (ERR_FS_SUCCESS, node, e2) -> content e1 node = l -> stored e1 node = length l -> valid_program l ->
  (forall s, s ∈ segments_of l -> loadable s -> sg_vaddr s + sg_mem_size s <= USER_STACK_TOP - USER_STACK_SIZE) ->
  exists k1 count', get_page_directory (env k1) = get_page_directory (env k) /\
    (forall p a, p <> pd -> a < KERNEL_START -> view (env k1) p a = view (env k) p a) /\
    (scheduler_spawn kernel_pd args_buffer envs_buffer path true args envs attach stdin stdout regs k count = Ret (Some (-1), k1, count') \/
     exists p r input output, scheduler_spawn kernel_pd args_buffer envs_buffer path true args envs attach stdin stdout regs k count =
       (if attach then '(_, k') ← scheduler_attach k1 regs 0x08 p; Ret (None, load_context k', count')
        else k' ← scheduler_add_process k1 p; Ret (Some 0, k', count')) /\
     procs k1 !! p = Some r /\ state r = PROCESS_STATE_READY /\ is_user r = true /\ page_directory r = pd /\ attached_from r = 0 /\
     ready_to_start (env k1) pd (word_at l 24) (saved_esp r) la le /\ (forall s, s ∈ segments_of l -> loadable s -> segment_loaded (env k1) pd l s) /\
     file_nodes r !! SYSFILE_FD_STDIN = Some input /\ first_given [stdin; default 0 (file_nodes cur !! SYSFILE_FD_STDIN); vfs_get_stdin (E := E)] input /\
     file_nodes r !! SYSFILE_FD_STDOUT = Some output /\ first_given [stdout; default 0 (file_nodes cur !! SYSFILE_FD_STDOUT); vfs_get_stdout (E := E)] output).
Proof.
  intros Room Sb Fits Hcur Ca Ce Ea Ef Hc Hst V Below. unfold scheduler_spawn, get. rewrite Hcur. cbn [of_option]. rewrite bind_ret, (may_spawn_ok k cur args envs la le Ca Ce), bind_ret. cbn [negb]. rewrite Ea. cbn [andb].
  destruct (alloc_directory_view _ _ _ Ea) as (A1 & Npd & V1). assert (U1 : forall p a, p <> pd -> a < KERNEL_START -> view e1 p a = view (env k) p a) by auto.
  destruct (Z.eqb_spec pd 0) as [Hz|Hz]; [eexists _, _; split; [|split; [|left; reflexivity]]; cbn [env with_env]; auto|]. specialize (Npd Hz).
  destruct (elf_load_ok kernel_pd path pd node e1 e2 l Hz Ef Hc Hst V) as (err & eip & e3 & E3 & A3 & V3 & L3 & _). rewrite E3, bind_ret.
  assert (U3 : forall p a, p <> pd /\ a < KERNEL_START \/ static a -> view e3 p a = view (env k) p a) by (intros p a Pa; rewrite V3, V1 by auto; reflexivity).
  destruct (free_view e3 pd) as [Af Vf]. destruct (bool_decide (err = ERR_ELF_SUCCESS)) eqn:Eb; cbn [negb].
  2:{ eexists _, _; split; [|split; [|left; reflexivity]]; cbn [env with_env]; [congruence|intros p a Np Ha; rewrite Vf by auto; auto]. }
  apply bool_decide_eq_true in Eb. destruct (L3 Eb) as [-> Sg]. clear L3.
  destruct (process_new_ok kernel_pd args_buffer envs_buffer (word_at l 24) pd args envs count (with_env (procs k) e3 k) la le) as [[Nf _]|(p & k4 & count4 & E4 & A4 & V4 & R4)].
  { intros; apply Room. } { now apply static_ready. }
  { apply (strings_kept k cur args ARGS_MAX_LEN la e3 pd Ca); [cbn; congruence|exact Npd|exact U3]. }
  { apply (strings_kept k cur envs ENVS_MAX_LEN le e3 pd Ce); [cbn; congruence|exact Npd|exact U3]. }
  { now elim Nf. }
  cbn [env with_env procs] in A4, V4, R4. rewrite E4, bind_ret. cbv beta iota. assert (U4 : forall q a, q <> pd -> a < KERNEL_START -> view (env k4) q a = view (env k) q a) by (intros q a Nq Ha; rewrite V4 by auto; auto).
  destruct (free_view (env k4) pd) as [Ag Vg]. destruct (Z.eqb_spec p 0) as [Hp|Hp].
  { eexists _, _; split; [|split; [|left; reflexivity]]; cbn [env with_env]; [congruence|intros q a Nq Ha; rewrite Vg by auto; auto]. }
  destruct R4 as [[? _]|(_ & _ & -> & r & Hr & _ & Hst' & Hu & Hd & Ho & _ & Hl & He & Rd & Keep & Hfd & Apart)]; [done|].
  set (n0 := standard_node stdin _ _). set (n1 := standard_node stdout _ _).
  destruct (set_stdfile_ok k4 p r n0 FILE_OPEN_READ n1 (Z.lor FILE_OPEN_WRITE FILE_OPEN_APPEND)) as (k5 & nodes & E5 & P5 & N0 & N1 & A5 & V5); [rewrite Hr; apply lookup_insert_eq|exact Hl|].
  rewrite E5, bind_ret. exists k5, (u32 (count + 1)). split; [congruence|]. split; [intros q a Nq Ha; rewrite V5 by auto; auto|]. right. exists p, (set_files nodes 2 r), n0, n1. split; [destruct attach; reflexivity|].
  rewrite P5, lookup_insert_eq. split_and!; auto; [| |apply standard_node_first|apply standard_node_first].
  - eapply ready_extends; [| |exact Rd]; [intros a Ha; now rewrite V5 by auto|intros a b Ha Hb; rewrite V5; [exact Hb|right]]. split; [congruence|].
    intros Hc'. apply (Apart a); [unfold FILE_DESCRIPTION_SIZE, MAX_FILE in *; lia|exact Ha].
  - intros s Is Ld i Hi. pose proof (Below s Is Ld). rewrite V5, Keep by (unfold USER_STACK_TOP, USER_STACK_SIZE in *; lia). now apply Sg.
Qed.
End starting.

(** ** A machine *)

Module Runs.
Import Elf.Runs Create.Runs.

#[export] Instance machine_spawning : Spawning machine := {
  alloc_page_directory e := (if active e =? 8192 then 12288 else 8192, e);
  vfs_get_stdin := 21;
  vfs_get_stdout := 22;
  find_stream e path current mode := (ERR_FS_SUCCESS, path, e);
}.
#[export] Program Instance machine_spawning_laws : SpawningLaws machine.
Next Obligation. intros e pd e' Ea. cbn in Ea. injection Ea as <- <-. split_and!; auto. intros _. cbn. destruct (Z.eqb_spec (active e) 8192); lia. Qed.

(** A user process, number 2, with the strings of [Create.Runs] and its own output file,
    and the program of [Elf.Runs]. *)
Definition shell : process := Process 2 PROCESS_STATE_ACTIVE 0 0 4096 true 0 0 0 0 0 0 0 (0 :: 33 :: repeat 0 126) 1 0 0 0.
Definition kernel1 : kernel machine := Kernel {[50 := shell]} PROCESS_QUEUE_INIT PROCESS_QUEUE_INIT PROCESS_QUEUE_INIT 50 50 1 0 ∅ 4096 0
  (Machine 4096 {[(4096, 1)]} (user_bytes caller) ∅ HEAP_START 0x100000 program 119).

Lemma shell_strings : given_strings KERNEL_START (KERNEL_START + 1024) kernel1 shell 0x1000 ARGS_MAX_LEN ls_l /\
  given_strings KERNEL_START (KERNEL_START + 1024) kernel1 shell 0x1100 ENVS_MAX_LEN home.
Proof.
  destruct caller_strings as [(N1 & G1 & S1 & L1 & D1) (N2 & G2 & S2 & L2 & D2)].
  split; (split; [split_and!; [exact N1 || exact N2|exact G1 || exact G2| |exact L1 || exact L2|exact D1 || exact D2]|]).
  - exact S1.
  - unfold KERNEL_START. cbn. split; [|split]; intros; try left; lia.
  - exact S2.
  - unfold KERNEL_START. cbn. split; [|split]; intros; try left; lia.
Qed.

Lemma image_buffers : static_buffers (E := machine) KERNEL_START (KERNEL_START + 1024).
Proof. unfold ARGS_MAX_LEN, ENVS_MAX_LEN. split; [| |unfold ARGS_MAX_LEN; lia]; intros i Hi; cbn; unfold HEAP_START, ARGS_MAX_LEN, ENVS_MAX_LEN in *; lia. Qed.

Lemma scheduler_spawn_witness : exists k1 count', get_page_directory (env k1) = get_page_directory (env kernel1) /\
  (forall p a, p <> 8192 -> a < KERNEL_START -> view (env k1) p a = view (env kernel1) p a) /\
  (scheduler_spawn 0 KERNEL_START (KERNEL_START + 1024) 1 true 0x1000 0x1100 false 0 0 0 kernel1 2 = Ret (Some (-1), k1, count') \/
   exists p r input output, scheduler_spawn 0 KERNEL_START (KERNEL_START + 1024) 1 true 0x1000 0x1100 false 0 0 0 kernel1 2 =
     (k' ← scheduler_add_process k1 p; Ret (Some 0, k', count')) /\
   procs k1 !! p = Some r /\ state r = PROCESS_STATE_READY /\ is_user r = true /\ page_directory r = 8192 /\ attached_from r = 0 /\
   ready_to_start (env k1) 8192 (word_at program 24) (saved_esp r) ls_l home /\ (forall s, s ∈ segments_of program -> loadable s -> segment_loaded (env k1) 8192 program s) /\
   file_nodes r !! SYSFILE_FD_STDIN = Some input /\ first_given [0; default 0 (file_nodes shell !! SYSFILE_FD_STDIN); vfs_get_stdin (E := machine)] input /\
   file_nodes r !! SYSFILE_FD_STDOUT = Some output /\ first_given [0; default 0 (file_nodes shell !! SYSFILE_FD_STDOUT); vfs_get_stdout (E := machine)] output).
Proof.
  apply (scheduler_spawn_starts 0 KERNEL_START (KERNEL_START + 1024) 1 0x1000 0x1100 0 0 0 2 8192 1 false kernel1 shell (env kernel1) (env kernel1) ls_l home program);
    [reflexivity|exact image_buffers|reflexivity|reflexivity|exact (proj1 shell_strings)|exact (proj2 shell_strings)|reflexivity|reflexivity|exact program_bytes|reflexivity|exact program_valid|].
  rewrite program_segments. intros s [->|[->|[]%not_elem_of_nil]%elem_of_cons]%elem_of_cons _; by_eval.
Defined.

(** The new process is queued, behind nobody, with the system's input and the shell's
    output, and its arguments. *)
Example spawned : match scheduler_spawn 0 KERNEL_START (KERNEL_START + 1024) 1 true 0x1000 0x1100 false 0 0 0 kernel1 2 with
  | Ret (Some ret, k, count) => match procs k !! top (ready_queue k) with
      | Some r => Some (ret, size (ready_queue k), id r, take 2 (file_nodes r), arguments_of 8192 (Ret (top (ready_queue k), k, count)), see (env k) 8192 0x804a000)
      | None => None end
  | _ => None end = Some (0, 1, 3, [21; 33], Some (2, [[108; 115; 0]; [45; 108; 0]], 0), Some 42).
Proof. vm_compute. reflexivity. Qed.

(** The processes the caller waits for are switched to. *)
Example spawned_attached : match scheduler_spawn 0 KERNEL_START (KERNEL_START + 1024) 1 true 0x1000 0x1100 true 0 0 0 kernel1 2 with
  | Ret (ret, k, count) => match procs k !! current_process k with
      | Some r => (ret, id r, attached_from r, active (env k), see (env k) (active (env k)) 0x804a000)
      | None => (Some 0, 0, 0, 0, None) end
  | _ => (Some 0, 0, 0, 0, None) end = (None, 3, 50, 8192, Some 42).
Proof. vm_compute. reflexivity. Qed.

(** A user process may not start a kernel process. *)
Example no_kernel_process : match scheduler_spawn 0 KERNEL_START (KERNEL_START + 1024) 1 false 0x1000 0x1100 false 0 0 0 kernel1 2 with Ret (r, _, _) => r | _ => None end = Some (-1).
Proof. vm_compute. reflexivity. Qed.
End Runs.
