(* ===== verification/Interrupts.v ===== *)
(** * Processor tables and interrupts (kernel/src/system: gdt.c, idt.c, tss.c, isr.c; driver/pic.c)

    The segment and interrupt descriptors as the code packs them and as the processor
    reads them, the task state segment, the two interrupt controllers behind their ports,
    and the dispatch of interrupts to handlers. *)
From S2P Require Import Prelude Ports.

Definition GDT_MAX_DESCRIPTORS : nat := 6.
Definition IDT_MAX_DESCRIPTORS : nat := 256.

(** ** Segments *)

Record gdt_entry := GdtEntry { limit_low : Z; base_low : Z; base_middle : Z; access : Z; granularity : Z; base_high : Z }.

Definition gate (base limit access gran : Z) : gdt_entry :=
  GdtEntry (Z.land limit 0xffff) (Z.land base 0xffff) (Z.land (Z.shiftr base 16) 0xff) access
    (Z.lor (Z.land (Z.shiftr limit 16) 0xf) (Z.land (u8 (Z.shiftl gran 4)) 0xf0)) (Z.land (Z.shiftr base 24) 0xff).

Definition gdt_set_gate (gdt : list gdt_entry) (num base limit access gran : Z) : outcome (list gdt_entry) :=
  if (0 <=? num) && (num <? Z.of_nat (length gdt)) then Ret (<[Z.to_nat num := gate base limit access gran]> gdt) else Fault.

(** The task state segment's fields that are set; the others are 0. *)
Record tss_entry := TssEntry { esp0 : Z; ss0 : Z; tss_cs : Z; tss_ss : Z; tss_ds : Z; tss_es : Z; tss_fs : Z; tss_gs : Z; iomap_base : Z }.
Definition TSS_SIZE : Z := 104.

Definition tss_set_stack (esp : Z) (t : tss_entry) : tss_entry :=
  TssEntry esp (ss0 t) (tss_cs t) (tss_ss t) (tss_ds t) (tss_es t) (tss_fs t) (tss_gs t) (iomap_base t).

Definition tss_install (tss_addr : Z) (gdt : list gdt_entry) (num kernel_ss kernel_esp : Z) : outcome (list gdt_entry * tss_entry) :=
  gdt ← gdt_set_gate gdt num tss_addr (TSS_SIZE - 1) 0xe9 0x0;
  Ret (gdt, TssEntry kernel_esp kernel_ss 0x0b 0x13 0x13 0x13 0x13 0x13 TSS_SIZE).

(** The gdtr's limit and base, the table and the task state segment; the instructions
    that load them into the processor are left out. *)
Definition gdt_init (gdt_addr tss_addr : Z) (gdt : list gdt_entry) : outcome (Z * Z * list gdt_entry * tss_entry) :=
  gdt ← gdt_set_gate gdt 0 0 0 0 0;
  gdt ← gdt_set_gate gdt 1 0 0xfffff 0x9a 0xc;
  gdt ← gdt_set_gate gdt 2 0 0xfffff 0x92 0xc;
  gdt ← gdt_set_gate gdt 3 0 0xfffff 0xfa 0xc;
  gdt ← gdt_set_gate gdt 4 0 0xfffff 0xf2 0xc;
  '(gdt, tss) ← tss_install tss_addr gdt 5 0x10 0;
  Ret (8 * Z.of_nat GDT_MAX_DESCRIPTORS - 1, gdt_addr, gdt, tss).

(** How the processor reads a segment descriptor. *)
Definition segment_base (e : gdt_entry) : Z := base_low e + 2 ^ 16 * base_middle e + 2 ^ 24 * base_high e.
Definition segment_limit (e : gdt_entry) : Z :=
  let limit := limit_low e + 2 ^ 16 * (granularity e mod 16) in
  if Z.testbit (granularity e) 7 then limit * 4096 + 4095 else limit.
Definition segment_ring (e : gdt_entry) : Z := Z.land (Z.shiftr (access e) 5) 3.

Lemma gate_base base limit acc gran : 0 <= base < 2 ^ 32 -> segment_base (gate base limit acc gran) = base.
Proof.
  intros Hb. unfold segment_base, gate. cbn [base_low base_middle base_high].
  change 0xffff with (Z.ones 16). change 0xff with (Z.ones 8). rewrite !Z.land_ones, !Z.shiftr_div_pow2 by lia.
  Z.to_euclidean_division_equations. lia.
Qed.

Lemma gate_granularity base limit acc gran : 0 <= limit < 2 ^ 20 -> 0 <= gran < 16 ->
  granularity (gate base limit acc gran) = limit / 2 ^ 16 + 16 * gran.
Proof.
  intros Hl Hg. cbn [gate granularity]. rewrite Z.shiftr_div_pow2, Z.shiftl_mul_pow2 by lia. rewrite u8_small by lia.
  assert (B : forall a b, 0 <= a < 16 -> 0 <= b < 16 -> Z.lor (Z.land a 15) (Z.land (b * 2 ^ 4) 240) = a + 16 * b).
  { intros a b Ha Hb. revert b Hb. apply (forall_below 16 (fun a => Forall (fun b => Z.lor (Z.land a 15) (Z.land (b * 2 ^ 4) 240) = a + 16 * b) (seqZ 0 16)) ltac:(by_eval) a) in Ha.
    rewrite Forall_forall in Ha. intros b Hb. apply Ha, elem_of_seqZ. lia. }
  apply B; [|lia]. split; [apply Z.div_pos; lia|apply Z.div_lt_upper_bound; lia].
Qed.

Lemma gate_limit base limit acc gran : 0 <= limit < 2 ^ 20 -> 0 <= gran < 16 ->
  segment_limit (gate base limit acc gran) = if Z.testbit gran 3 then limit * 4096 + 4095 else limit.
Proof.
  intros Hl Hg. unfold segment_limit. rewrite gate_granularity by assumption. set (h := limit / 2 ^ 16). assert (Hh : 0 <= h < 16) by (unfold h; split; [apply Z.div_pos; lia|apply Z.div_lt_upper_bound; lia]).
  replace (Z.testbit (h + 16 * gran) 7) with (Z.testbit gran 3).
  2:{ change 7 with (3 + 4). rewrite <- (Z.div_pow2_bits (h + 16 * gran) 4 3) by lia. f_equal. change (2 ^ 4) with 16. rewrite (Z.mul_comm 16), Z.div_add, Z.div_small by lia. reflexivity. }
  cbn [gate limit_low]. change 0xffff with (Z.ones 16). rewrite Z.land_ones by lia.
  replace ((h + 16 * gran) mod 16) with h by (rewrite (Z.mul_comm 16), Z.mod_add, Z.mod_small by lia; reflexivity).
  assert (E : limit mod 2 ^ 16 + 2 ^ 16 * h = limit) by (unfold h; pose proof (Z.div_mod limit (2 ^ 16)); lia). rewrite E. reflexivity.
Qed.

(** The kernel's and the user's segments all cover the whole address space, in rings 0
    and 3; the last descriptor is the task state segment. *)
Lemma gdt_init_spec (gdt_addr tss_addr : Z) (gdt0 : list gdt_entry) : length gdt0 = GDT_MAX_DESCRIPTORS -> 0 <= tss_addr < 2 ^ 32 ->
  exists gdt tss, gdt_init gdt_addr tss_addr gdt0 = Ret (47, gdt_addr, gdt, tss) /\ length gdt = GDT_MAX_DESCRIPTORS /\
    (forall i, (1 <= i <= 4)%nat -> exists e, gdt !! i = Some e /\ segment_base e = 0 /\ segment_limit e = 2 ^ 32 - 1 /\ segment_ring e = if (i <=? 2)%nat then 0 else 3) /\
    (exists e, gdt !! 5%nat = Some e /\ segment_base e = tss_addr /\ segment_limit e = TSS_SIZE - 1) /\
    ss0 tss = 0x10 /\ esp0 tss = 0 /\ iomap_base tss = TSS_SIZE.
Proof.
  intros Hl Ht. unfold GDT_MAX_DESCRIPTORS in *. destruct gdt0 as [|g0 [|g1 [|g2 [|g3 [|g4 [|g5 [|]]]]]]]; try discriminate Hl.
  eexists _, _. split; [reflexivity|]. cbn -[gate segment_base segment_limit segment_ring]. split; [reflexivity|]. split; [|split; [|by_eval]].
  - intros i Hi. assert (Ci : i = 1%nat \/ i = 2%nat \/ i = 3%nat \/ i = 4%nat) by lia. destruct Ci as [->|[->|[->| ->]]]; (eexists; split; [reflexivity|]; by_eval).
  - eexists. split; [reflexivity|]. rewrite gate_base, gate_limit by (unfold TSS_SIZE; lia). split; reflexivity.
Qed.

(** ** Interrupt descriptors *)

Record idt_entry := IdtEntry { isr_low : Z; kernel_cs : Z; reserved : Z; attributes : Z; isr_high : Z }.

Definition interrupt_gate (isr flags : Z) : idt_entry := IdtEntry (Z.land isr 0xffff) 0x08 0 flags (Z.shiftr isr 16).

(** The vector is 8 bits wide, the table has an entry for each. *)
Definition idt_set_descriptor (idt : list idt_entry) (vector isr flags : Z) : list idt_entry :=
  <[Z.to_nat (u8 vector) := interrupt_gate isr flags]> idt.

(** The idtr's limit and base. *)
Definition idt_init (idt_addr : Z) : Z * Z := (8 * Z.of_nat IDT_MAX_DESCRIPTORS - 1, idt_addr).

Definition gate_offset (e : idt_entry) : Z := isr_low e + 2 ^ 16 * isr_high e.

Lemma interrupt_gate_offset isr flags : 0 <= isr < 2 ^ 32 -> gate_offset (interrupt_gate isr flags) = isr.
Proof.
  intros Hi. unfold gate_offset, interrupt_gate. cbn [isr_low isr_high]. change 0xffff with (Z.ones 16). rewrite Z.land_ones, Z.shiftr_div_pow2 by lia.
  pose proof (Z.div_mod isr (2 ^ 16)). lia.
Qed.

(** ** The interrupt controllers *)

Definition PORT_PIC1_COMM : Z := 0x20.
Definition PORT_PIC1_DATA : Z := 0x21.
Definition PORT_PIC2_COMM : Z := 0xa0.
Definition PORT_PIC2_DATA : Z := 0xa1.
Definition PIC_EOI : Z := 0x20.
Definition ICW1_ICW4 : Z := 0x01.
Definition ICW1_INIT : Z := 0x10.
Definition ICW4_8086 : Z := 0x01e.

Section interrupts.
Context {D : Type} `{Ports D}.

Definition pic_send_eoi (irq : Z) (d : D) : D :=
  let d := if 8 <=? irq then port_outb d PORT_PIC2_COMM PIC_EOI else d in
  port_outb d PORT_PIC1_COMM PIC_EOI.

(** A byte written, and a moment to take it. *)
Definition out_wait (d : D) (port value : Z) : D := io_wait (port_outb d port value).

Definition pic_remap (offset1 offset2 : Z) (d : D) : D :=
  let '(a1, d) := port_inb d PORT_PIC1_DATA in
  let '(a2, d) := port_inb d PORT_PIC2_DATA in
  let d := out_wait d PORT_PIC1_COMM (Z.lor ICW1_INIT ICW1_ICW4) in
  let d := out_wait d PORT_PIC2_COMM (Z.lor ICW1_INIT ICW1_ICW4) in
  let d := out_wait d PORT_PIC1_DATA offset1 in
  let d := out_wait d PORT_PIC2_DATA offset2 in
  let d := out_wait d PORT_PIC1_DATA 4 in
  let d := out_wait d PORT_PIC2_DATA 2 in
  let d := out_wait d PORT_PIC1_DATA ICW4_8086 in
  let d := out_wait d PORT_PIC2_DATA ICW4_8086 in
  port_outb (port_outb d PORT_PIC1_DATA a1) PORT_PIC2_DATA a2.

Definition pic_disable (d : D) : D := port_outb (port_outb d PORT_PIC1_DATA 0xff) PORT_PIC2_DATA 0xff.

(** The data port of a line's controller, and the line's number there. *)
Definition line_port (irq_line : Z) : Z * Z := if irq_line <? 8 then (PORT_PIC1_DATA, irq_line) else (PORT_PIC2_DATA, irq_line - 8).

Definition irq_set_mask (irq_line : Z) (d : D) : D :=
  let '(port, line) := line_port irq_line in
  let '(mask, d) := port_inb d port in
  port_outb d port (u8 (Z.lor mask (Z.shiftl 1 line))).

Definition irq_clear_mask (irq_line : Z) (d : D) : D :=
  let '(port, line) := line_port irq_line in
  let '(mask, d) := port_inb d port in
  port_outb d port (u8 (Z.land mask (Z.lnot (Z.shiftl 1 line)))).

(** ** Handlers *)

(** [routines]: the handlers' addresses by interrupt, 0 for none. *)
Record intr := Intr { routines : list Z; idt : list idt_entry; dev : D }.

Definition set_routine (s : intr) (i handler : Z) : outcome intr :=
  if (0 <=? i) && (i <? Z.of_nat (length (routines s))) then Ret (Intr (<[Z.to_nat i := handler]> (routines s)) (idt s) (dev s)) else Fault.

Definition irq_install_handler (s : intr) (irq handler : Z) : outcome intr :=
  if 15 <? irq then Ret s else set_routine s (irq + 32) handler.

Definition irq_uninstall_handler (s : intr) (irq : Z) : outcome intr :=
  if 15 <? irq then Ret s else set_routine s (irq + 32) 0.

(** [isr_table]: the entry points of isr.asm. *)
Variable isr_table : Z -> Z.

Definition describe (s : intr) (vector flags : Z) : intr :=
  Intr (routines s) (idt_set_descriptor (idt s) vector (isr_table vector) flags) (dev s).

Definition isr_new_interrupt (s : intr) (isr handler flags : Z) : outcome intr := set_routine (describe s isr flags) isr handler.

(** memset over the bytes of the pointers: the last one touched loses its lower bytes. *)
Definition clear_routine_bytes (l : list Z) (from bytes : nat) : list Z :=
  let whole := (bytes / 4)%nat in
  let part := 8 * Z.of_nat (bytes mod 4) in
  take from l ++ replicate whole 0 ++
  match drop (from + whole) l with [] => [] | r :: rest => Z.shiftl (Z.shiftr r part) part :: rest end.

(** [exception_handlers]: the table's handler of each of the first 32 interrupts. *)
Variable exception_handlers : Z -> Z.

Definition isr_init (s : intr) : outcome intr :=
  s ← for_each (fun v s => set_routine (describe s v 0x8f) v (exception_handlers v)) 0 32 s;
  let s := Intr (routines s) (idt s) (pic_remap 32 40 (dev s)) in
  let s := for_range (fun v s => describe s v 0x8e) 32 16 s in
  Ret (Intr (clear_routine_bytes (routines s) 32 (255 - 32)) (idt s) (dev s)).

(** [call]: running the handler at an address on the saved registers; the result is the
    stack pointer to go on with. *)
Variable call : Z -> Z -> intr -> outcome (Z * intr).

Definition isr_handler (s : intr) (regs int_no : Z) : outcome (Z * intr) :=
  handler ← of_option (routines s !! Z.to_nat int_no);
  '(ret, s) ← (if handler =? 0 then Ret (regs, s) else call handler regs s);
  Ret (ret, if (32 <=? int_no) && (int_no <=? 47) then Intr (routines s) (idt s) (pic_send_eoi (int_no - 32) (dev s)) else s).
End interrupts.
Arguments intr : clear implicits.

(** ** Page faults *)

Definition KERNEL_START : Z := 3221225472.
Definition PDE_PRESENT : Z := 1.
Definition PAGE_DIRECTORY_INDEX (addr : Z) : nat := Z.to_nat (Z.land (Z.shiftr addr 22) 0x3ff).

(** Printing the registers and kernel_panic: the machine is stopped. *)
Definition exception_handler {A} : outcome A := Spin.

(** The entries of the directory in use and of the kernel's own; a kernel page the
    directory in use does not know yet is copied, any other fault ends in a panic. *)
Definition page_fault_handler (regs faulting_address : Z) (directory kernel_directory : list Z) : outcome (Z * list Z) :=
  let i := PAGE_DIRECTORY_INDEX faulting_address in
  if KERNEL_START <=? faulting_address then
    cpy_pde ← of_option (directory !! i);
    src_pde ← of_option (kernel_directory !! i);
    if (Z.land cpy_pde PDE_PRESENT =? 0) && negb (Z.land src_pde PDE_PRESENT =? 0) then Ret (regs, <[i := src_pde]> directory)
    else exception_handler
  else exception_handler.

(** A fault in a part of the kernel that the directory lacks is mended: the kernel's entry
    is copied and nothing else changes, and the same address does not fault this way a
    second time. *)
Lemma page_fault_mends (regs addr cpy src : Z) (directory kernel_directory : list Z) : KERNEL_START <= addr ->
  directory !! PAGE_DIRECTORY_INDEX addr = Some cpy -> kernel_directory !! PAGE_DIRECTORY_INDEX addr = Some src ->
  Z.land cpy PDE_PRESENT = 0 -> Z.land src PDE_PRESENT <> 0 ->
  exists directory', page_fault_handler regs addr directory kernel_directory = Ret (regs, directory') /\
    directory' !! PAGE_DIRECTORY_INDEX addr = Some src /\ (forall i, i <> PAGE_DIRECTORY_INDEX addr -> directory' !! i = directory !! i) /\
    page_fault_handler regs addr directory' kernel_directory = Spin.
Proof.
  intros Ha Hc Hs Pc Ps. unfold page_fault_handler. rewrite (proj2 (Z.leb_le _ _) Ha), Hc, Hs. cbn [of_option]. rewrite !bind_ret, Pc, (proj2 (Z.eqb_neq _ _) Ps). cbn [Z.eqb andb negb].
  eexists. split; [reflexivity|]. assert (L : (PAGE_DIRECTORY_INDEX addr < length directory)%nat) by (eapply lookup_lt_Some; eauto).
  rewrite list_lookup_insert_eq by exact L. split; [reflexivity|]. split; [intros i Ni; now apply list_lookup_insert_ne|].
  cbn [of_option]. rewrite !bind_ret, (proj2 (Z.eqb_neq _ _) Ps). reflexivity.
Qed.

(** ** What the set-up does *)

Section setup.
Context {D : Type} `{Ports D}.
Variable isr_table exception_handlers : Z -> Z.

Lemma set_routine_ok (s : intr D) i h : 0 <= i < Z.of_nat (length (routines s)) -> set_routine s i h = Ret (Intr (<[Z.to_nat i := h]> (routines s)) (idt s) (dev s)).
Proof. intros Hi. unfold set_routine. rewrite (proj2 (Z.leb_le _ _)), (proj2 (Z.ltb_lt _ _)) by lia. reflexivity. Qed.

(** Every vector in use leads to its entry point, exceptions have their handlers, and no
    line of the controllers has one. *)
Lemma isr_init_spec (s : intr D) : length (routines s) = IDT_MAX_DESCRIPTORS -> length (idt s) = IDT_MAX_DESCRIPTORS ->
  exists s', isr_init isr_table exception_handlers s = Ret s' /\ dev s' = pic_remap 32 40 (dev s) /\
    (forall v, (v < 48)%nat -> idt s' !! v = Some (interrupt_gate (isr_table (Z.of_nat v)) (if (v <? 32)%nat then 0x8f else 0x8e))) /\
    (forall v, (v < 32)%nat -> routines s' !! v = Some (exception_handlers (Z.of_nat v))) /\
    (forall v, (32 <= v < 48)%nat -> routines s' !! v = Some 0).
Proof.
  unfold IDT_MAX_DESCRIPTORS. intros Hr Hd. unfold isr_init.
  destruct (for_each_inv (fun v s => set_routine (describe isr_table s v 0x8f) v (exception_handlers v))
    (fun i t => length (routines t) = 256%nat /\ length (idt t) = 256%nat /\ dev t = dev s /\
      forall v, Z.of_nat v < i -> idt t !! v = Some (interrupt_gate (isr_table (Z.of_nat v)) 0x8f) /\ routines t !! v = Some (exception_handlers (Z.of_nat v))) 0 32 s)
    as (t & -> & Lr & Ld & Dv & V).
  - split_and!; auto. lia.
  - intros i t Hi (Lr & Ld & Dv & V). rewrite set_routine_ok by (cbn; lia). eexists. split; [reflexivity|]. cbn [describe routines idt dev]. unfold idt_set_descriptor. rewrite !length_insert. split_and!; auto.
    intros v Hv. rewrite (u8_small i) by lia. destruct (decide (v = Z.to_nat i)) as [->|Nv].
    + rewrite !list_lookup_insert_eq by lia. rewrite Z2Nat.id by lia. auto.
    + rewrite !list_lookup_insert_ne by congruence. apply V. lia.
  - rewrite bind_ret. cbv zeta. set (t1 := Intr (routines t) (idt t) (pic_remap 32 40 (dev t))).
    assert (W : forall n, (n <= 16)%nat -> let u := for_range (fun v s => describe isr_table s v 0x8e) 32 n t1 in
      routines u = routines t /\ dev u = pic_remap 32 40 (dev t) /\ length (idt u) = 256%nat /\
      forall v, (v < 32 + n)%nat -> idt u !! v = Some (interrupt_gate (isr_table (Z.of_nat v)) (if (v <? 32)%nat then 0x8f else 0x8e))).
    { induction n as [|n IH]; intros Hn; cbv zeta.
      - cbn [for_range]. split_and!; auto. intros v Hv. rewrite (proj2 (Nat.ltb_lt _ _)) by lia. apply V. lia.
      - rewrite for_range_last. destruct (IH ltac:(lia)) as (Ru & Du & Lu & Vu). set (u := for_range _ 32 n t1) in *. cbn [describe routines idt dev]. unfold idt_set_descriptor. rewrite length_insert. split_and!; auto.
        intros v Hv. rewrite u8_small by lia. destruct (decide (v = Z.to_nat (32 + Z.of_nat n))) as [->|Nv].
        + rewrite list_lookup_insert_eq by lia. rewrite Z2Nat.id by lia. rewrite (proj2 (Nat.ltb_ge _ _)) by lia. reflexivity.
        + rewrite list_lookup_insert_ne by congruence. apply Vu. lia. }
    destruct (W 16%nat ltac:(lia)) as (Ru & Du & Lu & Vu). set (u := for_range _ 32 16 t1) in *. eexists. split; [reflexivity|]. cbn [routines idt dev].
    split; [now rewrite Du, Dv|]. split; [exact Vu|]. rewrite Ru. unfold clear_routine_bytes. change ((255 - 32) / 4)%nat with 55%nat. split; intros v Hv.
    + rewrite lookup_app_l by (rewrite length_take; lia). rewrite lookup_take_lt by lia. apply V. lia.
    + rewrite lookup_app_r by (rewrite length_take; lia). rewrite length_take, Nat.min_l by lia. rewrite lookup_app_l by (rewrite length_replicate; lia). apply lookup_replicate_2. lia.
Qed.
End setup.

(** ** A pair of 8259 controllers *)

Module Controllers.
(** [stage]: the initialisation word expected next, 0 in normal operation. *)
Record pic := Pic { stage : Z; vector_offset : Z; mask : Z; icw4 : Z; eois : Z }.

(** A command starts the initialisation, which clears the mask, or ends an interrupt. *)
Definition command (v : Z) (p : pic) : pic :=
  if Z.testbit v 4 then Pic 2 (vector_offset p) 0 (icw4 p) (eois p)
  else if v =? 0x20 then Pic (stage p) (vector_offset p) (mask p) (icw4 p) (eois p + 1) else p.

Definition data (v : Z) (p : pic) : pic :=
  if stage p =? 2 then Pic 3 (Z.land v 0xf8) (mask p) (icw4 p) (eois p)
  else if stage p =? 3 then Pic 4 (vector_offset p) (mask p) (icw4 p) (eois p)
  else if stage p =? 4 then Pic 0 (vector_offset p) (mask p) v (eois p)
  else Pic 0 (vector_offset p) v (icw4 p) (eois p).

Record pics := Pics { master : pic; slave : pic }.

#[export] Instance pics_ports : Ports pics := {
  port_inb d port := (if port =? PORT_PIC1_DATA then mask (master d) else if port =? PORT_PIC2_DATA then mask (slave d) else 0, d);
  port_inw d port := (0, d);
  port_outb d port v :=
    if port =? PORT_PIC1_COMM then Pics (command v (master d)) (slave d)
    else if port =? PORT_PIC2_COMM then Pics (master d) (command v (slave d))
    else if port =? PORT_PIC1_DATA then Pics (data v (master d)) (slave d)
    else if port =? PORT_PIC2_DATA then Pics (master d) (data v (slave d))
    else d;
  port_outw d port v := d;
}.

(** Remapping: both controllers end up in operation with the new offsets and the masks
    they had. *)
Lemma pic_remap_spec (d : pics) (offset1 offset2 : Z) :
  pic_remap offset1 offset2 d = Pics (Pic 0 (Z.land offset1 0xf8) (mask (master d)) ICW4_8086 (eois (master d)))
    (Pic 0 (Z.land offset2 0xf8) (mask (slave d)) ICW4_8086 (eois (slave d))).
Proof. reflexivity. Qed.

(** The word that is to select 8086 mode does not: its lowest bit is clear.  The bit for
    ending interrupts automatically is set. *)
Example not_8086_mode : Z.testbit ICW4_8086 0 = false /\ Z.testbit ICW4_8086 1 = true.
Proof. by_eval. Qed.

(** The end of an interrupt is signalled to the master, and to the slave for its lines. *)
Lemma pic_send_eoi_spec (d : pics) (irq : Z) :
  pic_send_eoi irq d = Pics (command PIC_EOI (master d)) (if 8 <=? irq then command PIC_EOI (slave d) else slave d).
Proof. unfold pic_send_eoi. destruct (8 <=? irq); reflexivity. Qed.

(** The bit of a line among the two masks. *)
Definition masked (d : pics) (line : Z) : bool := if line <? 8 then Z.testbit (mask (master d)) line else Z.testbit (mask (slave d)) (line - 8).
Definition operating (d : pics) : Prop := stage (master d) = 0 /\ stage (slave d) = 0 /\ 0 <= mask (master d) < 256 /\ 0 <= mask (slave d) < 256.

Lemma set_line m l i : 0 <= m < 256 -> 0 <= l < 8 -> 0 <= i < 8 -> Z.testbit (u8 (Z.lor m (Z.shiftl 1 l))) i = (l =? i) || Z.testbit m i.
Proof. intros Hm Hl Hi. unfold u8. rewrite Z.mod_pow2_bits_low by lia. now rewrite testbit_set by lia. Qed.

Lemma clear_line m l i : 0 <= m < 256 -> 0 <= l < 8 -> 0 <= i < 8 -> Z.testbit (u8 (Z.land m (Z.lnot (Z.shiftl 1 l)))) i = Z.testbit m i && negb (l =? i).
Proof. intros Hm Hl Hi. unfold u8. rewrite Z.mod_pow2_bits_low by lia. now rewrite testbit_clear by lia. Qed.

(** Masking a line and unmasking it changes that line alone. *)
Lemma irq_mask_spec (d : pics) (line i : Z) : operating d -> 0 <= line < 16 -> 0 <= i < 16 ->
  operating (irq_set_mask line d) /\ operating (irq_clear_mask line d) /\
  masked (irq_set_mask line d) i = (line =? i) || masked d i /\ masked (irq_clear_mask line d) i = masked d i && negb (line =? i).
Proof.
  intros (S1 & S2 & M1 & M2) Hl Hi. unfold irq_set_mask, irq_clear_mask, line_port, masked. destruct (Z.ltb_spec line 8) as [L|L]; cbn -[u8]; unfold data; rewrite ?S1, ?S2; cbn -[u8 Z.testbit];
    (split; [unfold operating; cbn; pose proof (u8_range (Z.lor (mask (master d)) (Z.shiftl 1 line))); pose proof (u8_range (Z.lor (mask (slave d)) (Z.shiftl 1 (line - 8)))); auto|
     split; [unfold operating; cbn; pose proof (u8_range (Z.land (mask (master d)) (Z.lnot (Z.shiftl 1 line)))); pose proof (u8_range (Z.land (mask (slave d)) (Z.lnot (Z.shiftl 1 (line - 8))))); auto|]]);
    destruct (Z.ltb_spec i 8) as [Li|Li].
  - split; [apply set_line|apply clear_line]; lia.
  - rewrite (proj2 (Z.eqb_neq _ _)) by lia. cbn [orb negb]. now rewrite andb_true_r.
  - rewrite (proj2 (Z.eqb_neq _ _)) by lia. cbn [orb negb]. now rewrite andb_true_r.
  - replace (line =? i) with (line - 8 =? i - 8) by (destruct (Z.eqb_spec line i), (Z.eqb_spec (line - 8) (i - 8)); lia || reflexivity). split; [apply set_line|apply clear_line]; lia.
Qed.

(** Interrupts are acknowledged.  Whatever its handler does, after a hardware
    interrupt (32 to 47) exactly one end of interrupt is sent to the master, and one to
    the slave when the line is the slave's; after any other none is.  An interrupt
    without a handler goes on with the context it interrupted. *)
Theorem isr_handler_acknowledges (call : Z -> Z -> intr pics -> outcome (Z * intr pics)) (s s1 : intr pics) (regs int_no handler ret : Z) :
  0 <= int_no < 256 -> routines s !! Z.to_nat int_no = Some handler ->
  (if handler =? 0 then Ret (regs, s) else call handler regs s) = Ret (ret, s1) ->
  exists s2, isr_handler call s regs int_no = Ret (ret, s2) /\ (handler = 0 -> ret = regs) /\
    routines s2 = routines s1 /\ idt s2 = idt s1 /\
    eois (master (dev s2)) = eois (master (dev s1)) + (if (32 <=? int_no) && (int_no <? 48) then 1 else 0) /\
    eois (slave (dev s2)) = eois (slave (dev s1)) + (if (40 <=? int_no) && (int_no <? 48) then 1 else 0).
Proof.
  intros Hi Hr Hc. unfold isr_handler. rewrite Hr. cbn [of_option]. rewrite bind_ret, Hc, bind_ret.
  assert (Z0 : handler = 0 -> ret = regs) by (intros ->; cbn in Hc; now injection Hc).
  eexists. split; [reflexivity|]. split; [exact Z0|]. destruct (Z.leb_spec 32 int_no); destruct (Z.leb_spec int_no 47); cbn [andb routines idt dev].
  - rewrite pic_send_eoi_spec. rewrite (proj2 (Z.ltb_lt _ _)) by lia. split; [reflexivity|]. split; [reflexivity|]. split; [reflexivity|].
    destruct (Z.leb_spec 8 (int_no - 32)), (Z.leb_spec 40 int_no); try lia; cbn; lia.
  - rewrite (proj2 (Z.ltb_ge _ _)), andb_false_r by lia. split_and!; auto; lia.
  - rewrite (proj2 (Z.leb_gt 40 _)) by lia. cbn [andb]. split_and!; auto; lia.
  - lia.
Qed.

(** A keyboard interrupt with a handler that keeps the context. *)
Definition machine : intr pics := Intr (<[33%nat := 7]> (replicate 256 0)) (replicate 256 (interrupt_gate 0 0)) (Pics (Pic 0 32 0 0 0) (Pic 0 40 0 0 0)).

Lemma isr_handler_witness : exists s2, isr_handler (fun h regs s => Ret (regs, s)) machine 100 33 = Ret (100, s2) /\ (7 = 0 -> 100 = 100) /\
  routines s2 = routines machine /\ idt s2 = idt machine /\
  eois (master (dev s2)) = eois (master (dev machine)) + 1 /\ eois (slave (dev s2)) = eois (slave (dev machine)) + 0.
Proof. exact (isr_handler_acknowledges (fun h regs s => Ret (regs, s)) machine machine 100 33 7 100 ltac:(lia) eq_refl eq_refl). Defined.

(** A negative line is not refused, and its handler is stored outside of the table. *)
Example negative_line : irq_install_handler machine (-40) 7 = Fault.
Proof. reflexivity. Qed.
End Controllers.
