(* ===== verification/Syscall.v ===== *)
(** * System calls (kernel/src/system/syscall.c) and named semaphores

    semaphore_syscall_create, which gives a semaphore a name and a descriptor, and the
    dispatcher: the table of calls by number, the calls that return a value in eax and
    those that are handed the saved registers and may switch to another process. *)
From S2P Require Import Prelude Fs Procs Sched Sem Space Elf Create Spawn.

(** ** Named semaphores *)

(** The file system's part; the current process's cwd goes with the process. *)
Class SemaphoreFiles (E : Type) := {
  user_string_ok : E -> bool -> Z -> outcome bool;            (** validate_user_string *)
  create_node : E -> Z -> Z -> FS_ERR * Z * E;                (** vfs_find_and_create_node(name, process->cwd, &node, CREATE | EXCLUSIVE, SEMAPHORE) *)
  set_node_semaphore : E -> Z -> Z -> E;                      (** node->ramfs.semaphore = sem; node_sync(node) *)
  open_semaphore : E -> Z -> Z -> Z -> FS_ERR * E;            (** file_open(fde, node, READ | WRITE) *)
  retain_semaphore : E -> Z -> E;                             (** node->refcount++ *)
  remove_node : E -> Z -> E;                                  (** vfs_remove_node(node->parent, node) *)
}.

Section named.
Context {E : Type} `{ProcessEnv E} `{SemaphoreFiles E}.

(** The first descriptor without a node. *)
Fixpoint empty_slot_from (i : Z) (nodes : list Z) : Z :=
  match nodes with [] => -1 | node :: nodes => if node =? 0 then i else empty_slot_from (i + 1) nodes end.

Definition with_descriptor (k : kernel E) (slot node : Z) (opened : bool) (e : E) : outcome (kernel E) :=
  m ← upd (procs k) (current_process k) (fun r => set_files (<[Z.to_nat slot := node]> (file_nodes r)) (u32 (file_count r + Z.b2z opened)) r);
  Ret (with_env m e k).

Definition semaphore_syscall_create (k : kernel E) (name initial_count : Z) : outcome (Z * kernel E) :=
  if name =? 0 then Ret (-1, k)
  else
    let '(sem, k) := semaphore_create k initial_count in
    if sem =? 0 then Ret (-1, k)
    else
      r ← get (procs k) (current_process k);
      let abandon := Ret (-1, with_env (procs k) (env_kfree (env k) sem) (with_sems (procs k) (delete sem (semaphores k)) k)) in
      ok ← user_string_ok (env k) (is_user r) name;
      if negb ok then abandon
      else
        let '(find_err, node, e) := create_node (env k) name (current_process k) in
        let k := with_env (procs k) e k in
        if failed find_err then Ret (-1, with_env (procs k) (env_kfree e sem) (with_sems (procs k) (delete sem (semaphores k)) k))
        else
          let e := set_node_semaphore e node sem in
          let slot := empty_slot_from 0 (take (Z.to_nat MAX_FILE) (file_nodes r)) in
          if 0 <=? slot then
            let '(open_err, e) := open_semaphore e (file_descriptor_table r + slot * FILE_DESCRIPTION_SIZE) node (Z.lor FILE_OPEN_READ FILE_OPEN_WRITE) in
            if negb (failed open_err) then
              k ← with_descriptor k slot node true (retain_semaphore e node);
              Ret (slot, k)
            else
              k ← with_descriptor k slot 0 false e;
              Ret (-1, with_env (procs k) (remove_node e node) k)
          else Ret (-1, with_env (procs k) (remove_node e node) k).

Lemma empty_slot_spec nodes i : 0 <= i -> let s := empty_slot_from i nodes in
  s = -1 /\ Forall (fun n => n <> 0) nodes \/ i <= s < i + Z.of_nat (length nodes) /\ nodes !! Z.to_nat (s - i) = Some 0 /\ Forall (fun n => n <> 0) (take (Z.to_nat (s - i)) nodes).
Proof.
  revert i. induction nodes as [|n nodes IH]; intros i Hi; cbn [empty_slot_from length]; [left; auto|].
  destruct (Z.eqb_spec n 0) as [->|Nn].
  - right. rewrite Z.sub_diag. split; [lia|]. split; [reflexivity|constructor].
  - destruct (IH (i + 1) ltac:(lia)) as [[-> F]|(B & L & F)]; [left; auto|]. right. set (s := empty_slot_from (i + 1) nodes) in *. split; [lia|].
    replace (Z.to_nat (s - i)) with (S (Z.to_nat (s - (i + 1)))) by lia. split; [exact L|]. cbn. constructor; assumption.
Qed.

(** Creating a named semaphore returns -1, or the number of the first free descriptor,
    which then has the new node; the semaphore is new, free and holds the initial count,
    and the others are as they were. *)
Lemma semaphore_create_named (k k' : kernel E) (name initial_count fd : Z) (r : process) :
  procs k !! current_process k = Some r -> length (file_nodes r) = Z.to_nat MAX_FILE ->
  semaphore_syscall_create k name initial_count = Ret (fd, k') -> fd <> -1 ->
  exists sem node r', 0 <= fd < MAX_FILE /\ file_nodes r !! Z.to_nat fd = Some 0 /\ Forall (fun n => n <> 0) (take (Z.to_nat fd) (file_nodes r)) /\
    procs k' !! current_process k = Some r' /\ file_nodes r' = <[Z.to_nat fd := node]> (file_nodes r) /\ file_count r' = u32 (file_count r + 1) /\
    semaphores k' = <[sem := Semaphore false initial_count PROCESS_QUEUE_INIT]> (semaphores k) /\
    (forall q, q <> current_process k -> procs k' !! q = procs k !! q).
Proof.
  intros Hr Hl Hc Hfd. unfold semaphore_syscall_create in Hc. destruct (name =? 0); [congruence|]. unfold semaphore_create in Hc. destruct (env_kmalloc (env k) sizeof_semaphore) as [sem e].
  destruct (sem =? 0) eqn:Es; cbn [Z.eqb] in Hc; [congruence|]. rewrite Es in Hc. cbn [procs current_process semaphore_init set_sem with_sems with_env env semaphores] in Hc. unfold get in Hc. rewrite Hr in Hc. cbn [of_option] in Hc. rewrite bind_ret in Hc.
  apply bind_Ret_inv in Hc as (ok & _ & Hc). destruct ok; cbn [negb] in Hc; [|congruence]. destruct (create_node e name (current_process k)) as [[find_err node] e1]. destruct (failed find_err); [congruence|].
  rewrite take_ge in Hc by lia. pose proof (empty_slot_spec (file_nodes r) 0 ltac:(lia)) as Sl. cbv zeta in Sl. set (slot := empty_slot_from 0 (file_nodes r)) in *. rewrite Z.sub_0_r in Sl.
  destruct (Z.leb_spec 0 slot) as [L|L]; [|congruence]. destruct Sl as [[? _]|(B & S0 & F)]; [lia|]. destruct (open_semaphore _ _ _ _) as [open_err e2]. destruct (failed open_err); cbn [negb] in Hc.
  - apply bind_Ret_inv in Hc as (k2 & _ & Hc). congruence.
  - apply bind_Ret_inv in Hc as (k2 & Hk2 & Hc). injection Hc as <- <-. unfold with_descriptor in Hk2. cbn [procs current_process with_env with_sems] in Hk2. rewrite (upd_Ret _ _ _ _ Hr), bind_ret in Hk2. injection Hk2 as <-.
    exists sem, node. eexists. unfold MAX_FILE in *. split; [lia|]. split; [exact S0|]. split; [exact F|]. cbn [procs with_env semaphores with_sems]. rewrite lookup_insert_eq. split; [reflexivity|]. split; [reflexivity|]. split; [reflexivity|].
    split; [reflexivity|]. intros q Nq. now rewrite lookup_insert_ne by congruence.
Qed.
End named.

(** ** The dispatcher *)

Definition SYSCALL_TIME : Z := 0.
Definition SYSCALL_SEMAPHORE_CREATE : Z := 1.
Definition SYSCALL_SEMAPHORE_ACQUIRE : Z := 2.
Definition SYSCALL_SEMAPHORE_RELEASE : Z := 3.
Definition SYSCALL_SEMAPHORE_KACQUIRE : Z := 4.
Definition SYSCALL_YIELD : Z := 5.
Definition SYSCALL_ATTACH : Z := 6.
Definition SYSCALL_SPAWN : Z := 7.
Definition SYSCALL_KILL : Z := 8.
Definition SYSCALL_SLEEP : Z := 9.
Definition SYSCALL_OPEN : Z := 10.
Definition SYSCALL_CLOSE : Z := 11.
Definition SYSCALL_LOCK : Z := 12.
Definition SYSCALL_UNLOCK : Z := 13.
Definition SYSCALL_READ : Z := 14.
Definition SYSCALL_WRITE : Z := 15.
Definition SYSCALL_SEEK : Z := 16.
Definition SYSCALL_MOUNT : Z := 17.
Definition MAX_SYSCALL : Z := 18.

(** The saved registers the dispatcher uses. *)
Record registers := Registers { r_eax : Z; r_ebx : Z; r_ecx : Z; r_edx : Z; r_esi : Z; r_edi : Z; r_cs : Z }.
Definition set_eax (v : Z) (r : registers) : registers := Registers v (r_ebx r) (r_ecx r) (r_edx r) (r_esi r) (r_edi r) (r_cs r).

Section dispatch.
Context {E : Type} `{AddressSpaces E} `{ProgramFiles E} `{Create.ProcessFiles E} `{Spawning E} `{SemaphoreFiles E}.
Variable kernel_pd args_buffer envs_buffer : Z.
Variable node_semaphore : E -> Z -> Z.

(** The kernel and process_count. *)
Abbreviation world := (kernel E * Z)%type.

(** The calls of the clock and of the file system by number, and vfs_lock, which may
    switch: other components. *)
Variable file_call : Z -> registers -> kernel E -> outcome (Z * kernel E).
Variable vfs_lock : registers -> Z -> kernel E -> outcome (registers * Z * kernel E).

(** [Plain]: the value for eax, None while the caller waits for a process it attached
    to; [Switching]: the registers, the stack pointer to go on with. *)
Inductive handler :=
  | Plain (f : registers -> Z -> world -> outcome (option Z * world))
  | Switching (f : registers -> Z -> world -> outcome (registers * Z * world)).

Definition plain (f : registers -> kernel E -> outcome (Z * kernel E)) : handler :=
  Plain (fun r regs w => '(v, k) ← f r (fst w); Ret (Some v, (k, snd w))).
Definition switching (f : registers -> Z -> kernel E -> outcome (Z * kernel E)) : handler :=
  Switching (fun r regs w => '(esp, k) ← f r regs (fst w); Ret (r, esp, (k, snd w))).

(** A bool argument is the register's lowest byte. *)
Definition bool_argument (v : Z) : bool := negb (u8 v =? 0).

(** [garbage]: see scheduler_syscall_spawn. *)
Definition syscalls (garbage id : Z) : option handler :=
  if id =? SYSCALL_SEMAPHORE_CREATE then Some (plain (fun r k => semaphore_syscall_create k (r_ebx r) (r_ecx r)))
  else if id =? SYSCALL_SEMAPHORE_ACQUIRE then
    Some (Switching (fun r regs w => '(eax, esp, k) ← semaphore_syscall_acquire node_semaphore (fst w) regs (s32 (r_ebx r)) (r_ecx r); Ret (set_eax (u32 eax) r, esp, (k, snd w))))
  else if id =? SYSCALL_SEMAPHORE_RELEASE then Some (plain (fun r k => semaphore_syscall_release node_semaphore k (s32 (r_ebx r)) (r_ecx r)))
  else if id =? SYSCALL_SEMAPHORE_KACQUIRE then Some (switching (fun r regs k => semaphore_syscall_kacquire k regs (r_cs r) (r_ebx r) (r_ecx r)))
  else if id =? SYSCALL_YIELD then Some (switching (fun r regs k => scheduler_to_next_process k regs (bool_argument (r_ebx r))))
  else if id =? SYSCALL_ATTACH then Some (switching (fun r regs k => scheduler_attach k regs (r_cs r) (r_ebx r)))
  else if id =? SYSCALL_SPAWN then Some (Plain (fun r regs w => '(v, k, count) ← scheduler_syscall_spawn kernel_pd args_buffer envs_buffer (r_ebx r) regs garbage (fst w) (snd w); Ret (v, (k, count))))
  else if id =? SYSCALL_KILL then Some (switching (fun r regs k => scheduler_kill_process k regs (s32 (r_ebx r))))
  else if id =? SYSCALL_SLEEP then Some (switching (fun r regs k => scheduler_set_sleep k regs (r_ebx r)))
  else if id =? SYSCALL_LOCK then Some (Switching (fun r regs w => '(r, esp, k) ← vfs_lock r regs (fst w); Ret (r, esp, (k, snd w))))
  else if (id =? SYSCALL_TIME) || (id =? SYSCALL_OPEN) || (id =? SYSCALL_CLOSE) || (id =? SYSCALL_UNLOCK) || (id =? SYSCALL_READ) || (id =? SYSCALL_WRITE)
       || (id =? SYSCALL_SEEK) || (id =? SYSCALL_MOUNT) then Some (plain (file_call id))
  else None.

(** The registers as they are restored, and the stack pointer to go on with: None while
    the caller waits in the kernel. *)
Definition syscall_dispatcher (garbage : Z) (r : registers) (regs : Z) (w : world) : outcome (registers * option Z * world) :=
  if MAX_SYSCALL <=? r_eax r then Ret (r, Some regs, w)
  else
    match syscalls garbage (r_eax r) with
    | None => Ret (r, Some regs, w)
    | Some (Plain f) =>
        '(v, w) ← f r regs w;
        match v with Some v => Ret (set_eax (u32 v) r, Some regs, w) | None => Ret (r, None, w) end
    | Some (Switching f) => '(r, esp, w) ← f r regs w; Ret (r, Some esp, w)
    end.

(** Every number below MAX_SYSCALL is a call; larger ones do nothing. *)
Lemma syscalls_all garbage id : 0 <= id < MAX_SYSCALL -> syscalls garbage id <> None.
Proof.
  intros Hi. unfold MAX_SYSCALL in Hi. assert (Ci : id ∈ seqZ 0 18) by (apply elem_of_seqZ; lia). vm_compute in Ci.
  repeat (apply elem_of_cons in Ci as [->|Ci]; [discriminate|]). now apply not_elem_of_nil in Ci.
Qed.

Lemma unknown_call garbage r regs w : MAX_SYSCALL <= r_eax r -> syscall_dispatcher garbage r regs w = Ret (r, Some regs, w).
Proof. intros Hm. unfold syscall_dispatcher. now rewrite (proj2 (Z.leb_le _ _) Hm). Qed.

(** C19: a process can lose itself.  The number of the yield call leads to
    scheduler_to_next_process itself, whose second argument, whether to queue the caller
    again, is then what the caller has in ebx; a process that yields with 0 in its lowest
    byte is afterwards neither running nor in any queue, however many others are ready. *)
Theorem yield_loses_process (garbage regs : Z) (r : registers) (k : kernel E) (count : Z) (L : lists) (rc : process) (p : Z) (ready : list Z) :
  r_eax r = SYSCALL_YIELD -> u8 (r_ebx r) = 0 ->
  lists_rep k L -> procs k !! current_process k = Some rc -> ~ queued L (current_process k) -> L PReady = p :: ready ->
  exists esp k', syscall_dispatcher garbage r regs (k, count) = Ret (r, Some esp, (k', count)) /\
    lists_rep k' (set_list L PReady ready) /\ current_process k' = p /\ p <> current_process k /\ ~ queued (set_list L PReady ready) (current_process k).
Proof.
  intros Hy Hb R Hr Nq El. unfold syscall_dispatcher. rewrite Hy. change (syscalls garbage SYSCALL_YIELD) with (Some (switching (fun r regs k => scheduler_to_next_process k regs (bool_argument (r_ebx r))))).
  change (MAX_SYSCALL <=? SYSCALL_YIELD) with false. cbn [switching fst snd]. unfold bool_argument. rewrite Hb. cbn [Z.eqb negb].
  destruct (to_next_away k L regs rc p ready R Hr El) as (esp & k' & -> & R' & _ & Rn & _). rewrite !bind_ret. exists esp, k'. split; [reflexivity|]. split; [exact R'|]. split; [apply (rn_current _ _ _ Rn)|].
  assert (Sub : forall x, queued (set_list L PReady ready) x -> queued L x).
  { intros x [pl Hx]. exists pl. unfold set_list in Hx. destruct (decide (pl = PReady)) as [->|]; [|exact Hx]. rewrite El. now right. }
  split; [|intros Hq; now apply Nq, Sub]. intros ->. apply Nq. exists PReady. rewrite El. left.
Qed.

(** With anything else the caller goes to the end of the ready queue. *)
Lemma yield_requeues (garbage regs : Z) (r : registers) (k : kernel E) (count : Z) (L : lists) (rc : process) (p : Z) (ready : list Z) :
  r_eax r = SYSCALL_YIELD -> u8 (r_ebx r) <> 0 -> current_process k <> 0 ->
  lists_rep k L -> procs k !! current_process k = Some rc -> ~ queued L (current_process k) -> L PReady ++ [current_process k] = p :: ready ->
  exists esp k', syscall_dispatcher garbage r regs (k, count) = Ret (r, Some esp, (k', count)) /\ lists_rep k' (set_list L PReady ready) /\ current_process k' = p.
Proof.
  intros Hy Hb Hz R Hr Nq El. unfold syscall_dispatcher. rewrite Hy. change (syscalls garbage SYSCALL_YIELD) with (Some (switching (fun r regs k => scheduler_to_next_process k regs (bool_argument (r_ebx r))))).
  change (MAX_SYSCALL <=? SYSCALL_YIELD) with false. cbn [switching fst snd]. unfold bool_argument. rewrite (proj2 (Z.eqb_neq _ _) Hb). cbn [negb].
  destruct (to_next_back k L regs rc p ready R Hr Hz Nq El) as (esp & k' & -> & R' & _ & Rn & _). rewrite !bind_ret. exists esp, k'. split; [reflexivity|]. split; [exact R'|]. apply (rn_current _ _ _ Rn).
Qed.
End dispatch.

(** ** Two processes *)

Module Runs.
Import Elf.Runs Create.Runs Spawn.Runs.

#[export] Instance machine_semaphores : SemaphoreFiles machine := {
  user_string_ok e user s := Ret true;
  create_node e name current := (ERR_FS_SUCCESS, name, e);
  set_node_semaphore e node sem := e;
  open_semaphore e fde node mode := (ERR_FS_SUCCESS, e);
  retain_semaphore e node := e;
  remove_node e node := e;
}.

Definition other : process := Process 3 PROCESS_STATE_READY 0 0 4096 true 0 0 0 0x7000 0 0 0 (repeat 0 128) 0 0 0 50.
Definition two : kernel machine := Kernel (<[60 := other]> {[50 := set_files (repeat 0 128) 0 shell]}) (Queue 60 60 1) PROCESS_QUEUE_INIT PROCESS_QUEUE_INIT 50 60 2 0 ∅ 4096 0 (env kernel1).
Definition two_lists : lists := set_list (fun _ => []) PReady [60].

Lemma two_rep : lists_rep two two_lists.
Proof.
  split.
  - intros [| | |s] q Hq; cbn in Hq; try (injection Hq as <-); try (rewrite lookup_empty in Hq; discriminate);
      split; vm_compute; repeat split; try (reflexivity || discriminate || congruence); intros; congruence.
  - split; intros; unfold two_lists, set_list in *.
    + destruct (decide _); [apply NoDup_singleton|apply NoDup_nil_2].
    + repeat case_match; try congruence; set_solver.
  - unfold small. by_eval.
Qed.

Definition yield_registers (ebx : Z) : registers := Registers SYSCALL_YIELD ebx 0 0 0 0 0x1b.
Definition dispatch := syscall_dispatcher 0 KERNEL_START (KERNEL_START + 1024) (fun _ _ => 0) (fun _ _ k => Ret (0, k)) (fun r regs k => Ret (r, regs, k)).

Lemma yield_loses_witness : exists esp k', dispatch 0 (yield_registers 0x1200) 0x6000 (two, 3) = Ret (yield_registers 0x1200, Some esp, (k', 3)) /\
  lists_rep k' (set_list two_lists PReady []) /\ current_process k' = 60 /\ 60 <> current_process two /\ ~ queued (set_list two_lists PReady []) (current_process two).
Proof.
  apply (yield_loses_process 0 KERNEL_START (KERNEL_START + 1024) (fun _ _ => 0) (fun _ _ k => Ret (0, k)) (fun r regs k => Ret (r, regs, k)) 0 0x6000 (yield_registers 0x1200) two 3 two_lists (set_files (repeat 0 128) 0 shell) 60 []);
    [reflexivity|reflexivity|exact two_rep|reflexivity| |reflexivity].
  intros [pl Hp]. unfold two_lists, set_list in Hp. destruct (decide _); [apply list_elem_of_singleton in Hp; discriminate|now apply not_elem_of_nil in Hp].
Defined.

(** A named semaphore takes the first descriptor. *)
Example named : match semaphore_syscall_create two 0x1000 5 with Ret (fd, k) => (fd, map_to_list (semaphores k)) | _ => (-1, []) end
  = (0, [(HEAP_START, Semaphore false 5 PROCESS_QUEUE_INIT)]).
Proof. vm_compute. reflexivity. Qed.
End Runs.
