(* ===== verification/Mbr.v ===== *)
(** * The partition table (kernel/src/filesystem/mbr.c)

    The boot sector is read from the disk driver and kept; a partition's entry is taken
    from it. *)
From S2P Require Import Prelude Mem CString Disk Ports Ata Space.

Record partition_entry := PartitionEntry {
  drive_attribute : Z; CHS_start : Z * Z * Z; partition_type : Z; CHS_end : Z * Z * Z; LBA_start : Z; sector_count : Z;
}.

(** The entry of 16 bytes at an offset. *)
Definition entry_at (MBR : list Z) (o : Z) : partition_entry :=
  PartitionEntry (byte_at MBR o) (byte_at MBR (o + 1), byte_at MBR (o + 2), byte_at MBR (o + 3)) (byte_at MBR (o + 4))
    (byte_at MBR (o + 5), byte_at MBR (o + 6), byte_at MBR (o + 7)) (word_at MBR (o + 8)) (word_at MBR (o + 12)).

Definition boot_signature (MBR : list Z) : Z := half_at MBR 510.

(** Was there an error; the messages are left out. *)
Definition mbr_load {D} `{Ports D} (s : ata D) (MBR : list Z) : outcome (bool * list Z * ata D) :=
  '(err, MBR, s) ← ata_pio_LBA28_access s true 0 1 MBR;
  if bool_decide (err <> ERR_ATA_PIO_SUCCESS) then Ret (true, MBR, s)
  else Ret (negb (boot_signature MBR =? 0xaa55), MBR, s).

Definition mbr_get_partition_entry (MBR : list Z) (id : Z) : partition_entry := entry_at MBR (446 + 16 * (id mod 4)).

(** With the drive ready, loading keeps exactly the first sector of the disk, and is an
    error when the signature is not in its last two bytes. *)
Lemma mbr_load_spec {D} `{AtaDrive D} (s : ata D) (c : mem) (MBR : list Z) : 0 < capacity -> drive_ready s c -> length MBR = 512%nat ->
  exists s', mbr_load s MBR = Ret (negb (Mem.load16 c 510 =? 0xaa55), disk_read c 0 1, s') /\ drive_ready s' c.
Proof.
  intros Hc Hs Hl. destruct (read_sector_ok s c 0 MBR Hs) as (s' & E & Hs'); [lia|lia|].
  unfold mbr_load. rewrite E, bind_ret. rewrite bool_decide_eq_false_2 by auto. rewrite drop_ge, app_nil_r by lia. exists s'. split; [|exact Hs']. reflexivity.
Qed.

(** A table with one partition of type 12 from sector 2048 on, 4096 sectors long. *)
Module Runs.
Import Ata.Runs.
Definition table : list Z := replicate 446 0 ++ [128; 0; 0; 0; 12; 0; 0; 0; 0; 8; 0; 0; 0; 16; 0; 0] ++ replicate 48 0 ++ [0x55; 0xaa].
Definition pc : ata drive := Ata true 100 false (Drive (put ∅ 0 table) (Ready (Regs 0 0 0 0 224))).

Example first_partition : match mbr_load pc (replicate 512 7) with
  | Ret (err, MBR, _) => let p := mbr_get_partition_entry MBR 4 in (err, partition_type p, LBA_start p, sector_count p)
  | _ => (true, 0, 0, 0) end = (false, 12, 2048, 4096).
Proof. vm_compute. reflexivity. Qed.
End Runs.
