(* ===== verification/Trace.v ===== *)
(** * Back traces (kernel/src/system/kpanic.c)

    The symbol of an address and the walk along the saved frame pointers.  What is
    printed is the list of lines; memory is read at its addresses. *)
From S2P Require Import Prelude Mem.

Definition KERNEL_START : Z := 3221225472.
Definition MAX_FRAMES : nat := 30.
Definition ELF_STT_OBJECT : Z := 1.
Definition ELF_STT_FUNC : Z := 2.
Definition ELF_ST_TYPE (i : Z) : Z := Z.land i 0xf.

(** ** Symbols *)

(** The fields of a symbol table entry that are used. *)
Record symbol := Symbol { sy_name : Z; sy_value : Z; sy_info : Z }.
Definition symbol_at (m : mem) (a : Z) : symbol := Symbol (load32 m a) (load32 m (a + 4)) (load8 m (a + 12)).

(** One entry considered: the name found so far and its address. *)
Definition consider (string_table addr type : Z) (s : symbol) '((name, ret_addr) : Z * Z) : Z * Z :=
  if (addr <? sy_value s) || (sy_value s <? ret_addr) then (name, ret_addr)
  else if negb (ELF_ST_TYPE (sy_info s) =? type) then (name, ret_addr)
  else (u32 (string_table + sy_name s), sy_value s).

(** The section header's address, size and entry size. *)
Definition find_symbol_step (m : mem) (string_table symtab_sh addr type : Z) '((i, found) : Z * (Z * Z)) : outcome (Z * (Z * Z) + Z * Z) :=
  if i <? load32 m (symtab_sh + 20) then
    let s := symbol_at m (u32 (load32 m (symtab_sh + 12) + KERNEL_START + i)) in
    Ret (inl (u32 (i + load32 m (symtab_sh + 36)), consider string_table addr type s found))
  else Ret (inr found).

(** The name (0 for none) and what is stored at ret_addr, None when nothing is. *)
Definition kernel_find_symbol (m : mem) (string_table symtab_sh addr type : Z) : outcome (Z * option Z) :=
  if (symtab_sh =? 0) || (string_table =? 0) then Ret (0, None)
  else '(name, ret_addr) ← while (find_symbol_step m string_table symtab_sh addr type) (0, (0, 0)); Ret (name, Some ret_addr).

(** The symbols of a table of [n] entries of [size] bytes. *)
Definition symbols_of (m : mem) (table size : Z) (n : nat) : list symbol := map (fun i => symbol_at m (u32 (table + KERNEL_START + size * i))) (seqZ 0 (Z.of_nat n)).

(** A symbol an address may belong to. *)
Definition candidate (addr type : Z) (s : symbol) : Prop := sy_value s <= addr /\ ELF_ST_TYPE (sy_info s) = type.

Lemma consider_spec string_table addr type (l : list symbol) : Forall (fun s => 0 <= sy_value s) l ->
  let '(name, a) := fold_left (fun f s => consider string_table addr type s f) l (0, 0) in
  (forall s, s ∈ l -> candidate addr type s -> sy_value s <= a) /\
  (name = 0 /\ a = 0 /\ (forall s, s ∈ l -> ~ candidate addr type s) \/
   exists s, s ∈ l /\ candidate addr type s /\ name = u32 (string_table + sy_name s) /\ a = sy_value s).
Proof.
  induction l as [|s l IH] using rev_ind; intros F; [split; [intros s Hs; now apply not_elem_of_nil in Hs|left; split_and!; auto; intros s Hs; now apply not_elem_of_nil in Hs]|].
  apply Forall_app in F as [F Fs]. apply Forall_cons in Fs as [Fs _]. specialize (IH F). rewrite fold_left_app. cbn [fold_left]. destruct (fold_left _ l (0, 0)) as [name a]. destruct IH as [Max Or].
  assert (In : forall x, x ∈ l ++ [s] -> x ∈ l \/ x = s) by (intros x [Hx|Hx%list_elem_of_singleton]%elem_of_app; auto).
  assert (Is : s ∈ l ++ [s]) by (apply elem_of_app; right; left). unfold consider. destruct (Z.ltb_spec addr (sy_value s)); cbn [orb].
  { split; [intros x [Hx| ->]%In Cx; [now apply Max|unfold candidate in Cx; lia]|].
    destruct Or as [(-> & -> & N)|(y & Iy & Cy & -> & ->)]; [left; split_and!; auto; intros x [Hx| ->]%In Cx; [now apply (N x)|unfold candidate in Cx; lia]|right; exists y; split_and!; auto; apply elem_of_app; auto]. }
  destruct (Z.eqb_spec (ELF_ST_TYPE (sy_info s)) type) as [T|T]; cbn [negb].
  - assert (Cs : candidate addr type s) by (split; lia || exact T). destruct (Z.ltb_spec (sy_value s) a).
    + split; [intros x [Hx| ->]%In Cx; [now apply Max|lia]|]. destruct Or as [(-> & -> & N)|(y & Iy & Cy & -> & ->)]; [lia|right; exists y; split_and!; auto; apply elem_of_app; auto].
    + split; [intros x [Hx| ->]%In Cx; [specialize (Max x Hx Cx); lia|lia]|]. right. exists s. auto.
  - assert (Cs : ~ candidate addr type s) by (intros [_ ?]; congruence).
    assert (E : (if sy_value s <? a then (name, a) else (name, a)) = (name, a)) by (destruct (_ <? _); reflexivity). rewrite E.
    split; [intros x [Hx| ->]%In Cx; [now apply Max|contradiction]|].
    destruct Or as [(-> & -> & N)|(y & Iy & Cy & -> & ->)]; [left; split_and!; auto; intros x [Hx| ->]%In Cx; [now apply (N x)|contradiction]|right; exists y; split_and!; auto; apply elem_of_app; auto].
Qed.

Lemma find_symbol_loop m string_table symtab_sh addr type size n : load32 m (symtab_sh + 36) = size -> 0 < size -> load32 m (symtab_sh + 20) = size * Z.of_nat n ->
  forall k j f, (j + k = n)%nat -> f = fold_left (fun f s => consider string_table addr type s f) (symbols_of m (load32 m (symtab_sh + 12)) size j) (0, 0) ->
  size * (Z.of_nat n + 1) < 2 ^ 32 ->
  loop (find_symbol_step m string_table symtab_sh addr type) (S k) (size * Z.of_nat j, f) =
  Ret (fold_left (fun f s => consider string_table addr type s f) (symbols_of m (load32 m (symtab_sh + 12)) size n) (0, 0)).
Proof.
  intros Hs Hp Hn. induction k as [|k IH]; intros j f Hj -> Hb; rewrite loop_S; unfold find_symbol_step at 2; cbv beta iota; rewrite Hn, Hs.
  - replace j with n by lia. rewrite (proj2 (Z.ltb_ge _ _)) by lia. reflexivity.
  - rewrite (proj2 (Z.ltb_lt _ _)) by nia. rewrite bind_ret, (u32_small (_ + size)) by nia. replace (size * Z.of_nat j + size) with (size * Z.of_nat (S j)) by lia. apply IH; [lia| |exact Hb].
    unfold symbols_of. replace (Z.of_nat (S j)) with (Z.of_nat j + 1) by lia. rewrite seqZ_app by lia. rewrite map_app, fold_left_app. cbn [seqZ]. replace (seqZ (0 + Z.of_nat j) 1) with [Z.of_nat j] by (rewrite seqZ_cons by lia; reflexivity). reflexivity.
Qed.

(** The symbol found is the last of the given type that starts at or before the address:
    none of that type starts between them. *)
Theorem kernel_find_symbol_spec (m : mem) (string_table symtab_sh addr type size : Z) (n : nat) :
  symtab_sh <> 0 -> string_table <> 0 -> load32 m (symtab_sh + 36) = size -> 0 < size -> load32 m (symtab_sh + 20) = size * Z.of_nat n -> size * (Z.of_nat n + 1) < 2 ^ 32 ->
  let symbols := symbols_of m (load32 m (symtab_sh + 12)) size n in
  exists name a, kernel_find_symbol m string_table symtab_sh addr type = Ret (name, Some a) /\
    (forall s, s ∈ symbols -> candidate addr type s -> sy_value s <= a) /\
    (name = 0 /\ a = 0 /\ (forall s, s ∈ symbols -> ~ candidate addr type s) \/
     exists s, s ∈ symbols /\ candidate addr type s /\ name = u32 (string_table + sy_name s) /\ a = sy_value s).
Proof.
  intros H1 H2 Hs Hp Hn Hb symbols. unfold kernel_find_symbol. rewrite !(proj2 (Z.eqb_neq _ _)) by assumption. cbn [orb].
  pose proof (find_symbol_loop m string_table symtab_sh addr type size n Hs Hp Hn n 0 (0, 0) eq_refl eq_refl Hb) as L. rewrite Z.mul_0_r in L.
  rewrite (while_loop _ _ _ _ L) by (discriminate || nia). fold symbols. rewrite bind_ret.
  pose proof (consider_spec string_table addr type symbols) as C. destruct (fold_left _ symbols (0, 0)) as [name a]. exists name, a. split; [reflexivity|].
  apply C. unfold symbols, symbols_of. apply Forall_forall. intros s Hin. apply list_elem_of_fmap in Hin as (i & -> & _). cbn. apply load32_range.
Qed.

(** ** Frames *)

Inductive trace_line :=
  | Unmapped (ebp : Z)                 (** the frame pointer is not mapped *)
  | StackEnd                           (** return address 0 *)
  | UserFunction (addr : Z)
  | KernelFunction (addr name : Z)     (** name 0: unknown function *)
  | More.                              (** MAX_FRAMES lines were printed *)

Section trace.
Variable m : mem.
Variable string_table symtab_sh : Z.
(** vmmngr_to_physical_addr(NULL, stk) is not 0. *)
Variable mapped_at : Z -> bool.
(** What function_addr and object_addr hold when nothing is stored there. *)
Variable function_garbage object_garbage : Z.

Definition line_of (addr : Z) : outcome trace_line :=
  '(function_name, function_addr) ← kernel_find_symbol m string_table symtab_sh addr ELF_STT_FUNC;
  '(object_name, object_addr) ← kernel_find_symbol m string_table symtab_sh addr ELF_STT_OBJECT;
  let name := if default object_garbage object_addr <? default function_garbage function_addr then function_name else object_name in
  Ret (if addr <? KERNEL_START then UserFunction addr else KernelFunction addr name).

(** [n] more frames may be printed. *)
Fixpoint walk_frames (n : nat) (stk : Z) : outcome (list trace_line) :=
  if stk =? 0 then Ret []
  else
    match n with
    | O => Ret [More]
    | S n =>
        if negb (mapped_at stk) then Ret [Unmapped stk]
        else
          let addr := load32 m (stk + 4) in
          if addr =? 0 then Ret [StackEnd]
          else
            line ← line_of addr;
            lines ← walk_frames n (load32 m stk);
            Ret (line :: lines)
    end.

(** [ebp]: the frame pointer, for a trace from here. *)
Definition stack_trace (stk ebp : Z) : outcome (list trace_line) := walk_frames MAX_FRAMES (if stk =? 0 then ebp else stk).

(** Frames with the return addresses [l] and behind them one that returns to 0. *)
Fixpoint frames (stk : Z) (l : list Z) : Prop :=
  stk <> 0 /\ mapped_at stk = true /\
  match l with [] => load32 m (stk + 4) = 0 | a :: l => load32 m (stk + 4) = a /\ a <> 0 /\ frames (load32 m stk) l end.

Definition address_of (line : trace_line) : Z := match line with UserFunction a | KernelFunction a _ => a | _ => 0 end.

(** A trace lists the return addresses of the frames in order, and says so when it reaches
    the bottom, which process_new makes with a 0, or has printed thirty. *)
Theorem walk_frames_spec (n : nat) (stk : Z) (l : list Z) : (forall addr, exists line, line_of addr = Ret line /\ address_of line = addr) -> frames stk l ->
  exists lines, walk_frames n stk = Ret (lines ++ [if (length l <? n)%nat then StackEnd else More]) /\ map address_of lines = take n l.
Proof.
  intros Ln. revert stk l. induction n as [|n IH]; intros stk l F.
  - destruct l; destruct F as (Hz & _); cbn [walk_frames]; rewrite (proj2 (Z.eqb_neq _ _) Hz); exists []; rewrite take_0; split; reflexivity.
  - destruct l as [|a l]; destruct F as (Hz & Hm & F); cbn [walk_frames]; rewrite (proj2 (Z.eqb_neq _ _) Hz), Hm; cbn [negb].
    + rewrite F. exists []. split; reflexivity.
    + destruct F as (Ea & Na & F). rewrite Ea, (proj2 (Z.eqb_neq _ _) Na). destruct (Ln a) as (line & -> & Al). rewrite bind_ret.
      destruct (IH (load32 m stk) l F) as (lines & -> & Em). rewrite bind_ret. exists (line :: lines). split; [reflexivity|]. cbn. now rewrite Al, Em.
Qed.

Lemma line_of_address addr : (forall type, exists r, kernel_find_symbol m string_table symtab_sh addr type = Ret r) -> exists line, line_of addr = Ret line /\ address_of line = addr.
Proof.
  intros T. unfold line_of. destruct (T ELF_STT_FUNC) as [[fname fa] ->]. rewrite bind_ret. destruct (T ELF_STT_OBJECT) as [[oname oa] ->]. rewrite bind_ret.
  eexists. split; [reflexivity|]. destruct (addr <? KERNEL_START); reflexivity.
Qed.
End trace.

(** ** A kernel with two symbols *)

Module Runs.
Definition put_words (m : mem) (a : Z) (l : list Z) : mem := fst (fold_left (fun '(m, a) v => (store32 m a v, a + 4)) l (m, a)).
(** The section header at 0x100, the table at 0x200 of the kernel, names at 0x300, frames at 0x400 and 0x410. *)
Definition kernel_memory : mem :=
  put_words (put_words (put_words (put_words (put_words ∅ 0x100 [0; 0; 0; 0x200; 0; 32; 0; 0; 0; 16]) (KERNEL_START + 0x200) [1; KERNEL_START + 0x1000; 0; 2])
    (KERNEL_START + 0x210) [7; KERNEL_START + 0x2000; 0; 2]) 0x400 [0x410; KERNEL_START + 0x1234]) 0x410 [0; 0].

Lemma kernel_find_symbol_witness : exists name a, kernel_find_symbol kernel_memory 0x300 0x100 (KERNEL_START + 0x1234) ELF_STT_FUNC = Ret (name, Some a) /\
  let symbols := symbols_of kernel_memory (load32 kernel_memory (0x100 + 12)) 16 2 in
  (forall s, s ∈ symbols -> candidate (KERNEL_START + 0x1234) ELF_STT_FUNC s -> sy_value s <= a) /\
  (name = 0 /\ a = 0 /\ (forall s, s ∈ symbols -> ~ candidate (KERNEL_START + 0x1234) ELF_STT_FUNC s) \/
   exists s, s ∈ symbols /\ candidate (KERNEL_START + 0x1234) ELF_STT_FUNC s /\ name = u32 (0x300 + sy_name s) /\ a = sy_value s).
Proof. apply (kernel_find_symbol_spec kernel_memory 0x300 0x100 (KERNEL_START + 0x1234) ELF_STT_FUNC 16 2); by_eval. Defined.

Example traced : stack_trace kernel_memory 0x300 0x100 (fun _ => true) 0 0 0x400 0 = Ret [KernelFunction (KERNEL_START + 0x1234) 0x301; StackEnd].
Proof. vm_compute. reflexivity. Qed.
End Runs.
