(* ===== verification/Start.v ===== *)
(** * The screen and the symbols at start-up (kernel/src/kernel.c)

    [video_init] takes the screen's address and shape from the boot loader's
    information and maps it at VIDEO_START through the virtual memory manager;
    [find_sections] is the loop of kinit that looks for the symbol table and its
    strings among the section headers, for the back traces of [Trace]. *)
From S2P Require Import Prelude Mem Pmm Heap Vmm Boot CString.
From S2P Require Trace.

(** ** The screen *)

Definition VIDEO_START : Z := 0xc0400000.
Definition VIDEO_TEXTMODE_ADDRESS : Z := 0xb8000.
Definition PTE_WRITETHROUGH : Z := 8.
Definition MULTIBOOT_INFO_FRAMEBUFFER_INFO : Z := 0x1000.
Definition MULTIBOOT_FRAMEBUFFER_TYPE_RGB : Z := 1.

(** The local variables of video_init. *)
Record video := Video {
  video_addr : Z;
  video_width : Z;
  video_height : Z;
  video_pitch : Z;
  video_bpp : Z;
  using_framebuffer : bool;
}.

(** The fields of [multiboot_info_t] at their offsets. *)
Definition video_settings (m : mem) (mbd : Z) : video :=
  if negb (Z.land (load32 m mbd) MULTIBOOT_INFO_FRAMEBUFFER_INFO =? 0) then
    Video (u32 (load64 m (mbd + 88))) (load32 m (mbd + 100)) (load32 m (mbd + 104)) (load32 m (mbd + 96)) (load8 m (mbd + 108))
      (load8 m (mbd + 109) =? MULTIBOOT_FRAMEBUFFER_TYPE_RGB)
  else Video VIDEO_TEXTMODE_ADDRESS 80 25 160 16 false.

Definition total_size (v : video) : Z := u32 (video_height v * video_pitch v).
Definition total_pages (v : video) : Z := u32 (total_size v + MMNGR_PAGE_SIZE - 1) / MMNGR_PAGE_SIZE.

(** One page; what vmmngr_map returns is not looked at. *)
Definition map_screen_page (v : video) (p : Z) (s : vm) : outcome vm :=
  let offset := u32 (p * MMNGR_PAGE_SIZE) in
  '(_, s) ← vmmngr_map s 0 (u32 (video_addr v + offset)) (u32 (VIDEO_START + offset)) (Z.lor PTE_WRITABLE PTE_WRITETHROUGH);
  Ret s.

(** Which console is set up, with what, and the address space. *)
Definition video_init (m : mem) (mbd : Z) (s : vm) : outcome (video * vm) :=
  let v := video_settings m mbd in
  s ← for_each (map_screen_page v) 0 (Z.to_nat (total_pages v)) s;
  Ret (v, s).

(** *** The mapping *)

Definition VIDEO_SLOT : Z := 769.

Lemma screen_virt p : 0 <= p < 1024 ->
  u32 (VIDEO_START + u32 (p * MMNGR_PAGE_SIZE)) = VIDEO_SLOT * 4194304 + p * 4096 + 0 /\
  PAGE_DIRECTORY_INDEX (VIDEO_SLOT * 4194304 + p * 4096 + 0) = VIDEO_SLOT /\
  PAGE_TABLE_INDEX (VIDEO_SLOT * 4194304 + p * 4096 + 0) = p.
Proof.
  intros Hp. unfold VIDEO_START, VIDEO_SLOT, MMNGR_PAGE_SIZE. split; [rewrite (u32_small (p * 4096)), u32_small by lia; lia|].
  destruct (index_split 769 p 0) as (A & B & _); [lia..|]. now split.
Qed.

(** What holds after the first [j] pages: the new table [f] is reached through the
    screen's slot only, and maps them. *)
Record screen_mapped (s0 : vm) (kt f : Z) (fr : pmm) (base j : Z) (s : vm) : Prop := {
  sm_wf : vm_wf s kt;
  sm_cr3 : cr3 s = cr3 s0;
  sm_frames : frames s = fr;
  sm_present : present (rd s (cr3 s0 + 4 * VIDEO_SLOT)) = true;
  sm_table : frame_of (rd s (cr3 s0 + 4 * VIDEO_SLOT)) = f;
  sm_unshared : unshared s (cr3 s0) VIDEO_SLOT;
  sm_in : forall va, PAGE_DIRECTORY_INDEX va = VIDEO_SLOT -> PAGE_TABLE_INDEX va < j ->
    exists e, walk s (cr3 s0) va = Some e /\ frame_of e = base + 4096 * PAGE_TABLE_INDEX va;
  sm_out : forall va, PAGE_DIRECTORY_INDEX va <> VIDEO_SLOT -> PAGE_DIRECTORY_INDEX va <> 1023 ->
    walk s (cr3 s0) va = walk s0 (cr3 s0) va;
}.

Lemma screen_frame base p n : is_frame base -> base + 4096 * n <= 2 ^ 32 -> 0 <= p < n ->
  u32 (base + u32 (p * MMNGR_PAGE_SIZE)) = base + 4096 * p /\ is_frame (base + 4096 * p).
Proof.
  unfold MMNGR_PAGE_SIZE, is_frame. intros [B M] L Hp. split; [rewrite (u32_small (p * 4096)), u32_small by lia; lia|]. split; [lia|].
  rewrite Z.mul_comm, Z.mod_add by lia. exact M.
Qed.

(** The pages after the first. *)
Lemma next_page s0 kt f fr v n j s : is_frame (video_addr v) -> video_addr v + 4096 * n <= 2 ^ 32 -> n <= 1024 -> f <> cr3 s0 ->
  0 < j < n -> screen_mapped s0 kt f fr (video_addr v) j s ->
  exists s', map_screen_page v j s = Ret s' /\ screen_mapped s0 kt f fr (video_addr v) (j + 1) s'.
Proof.
  intros Hb L N Hf Hj [W C Fr Hp Ht U In Out]. set (base := video_addr v) in *.
  destruct (screen_frame base j n Hb L ltac:(lia)) as [Ep Fp]. destruct (screen_virt j ltac:(lia)) as (Ev & I & J).
  unfold map_screen_page. fold base. cbv zeta. rewrite Ep, Ev. set (virt := VIDEO_SLOT * 4194304 + j * 4096 + 0) in *.
  assert (Pd : rd s (pde_addr (cr3 s) virt) = rd s (cr3 s0 + 4 * VIDEO_SLOT)) by (unfold pde_addr; now rewrite I, C).
  pose proof (map_active_present s kt (base + 4096 * j) virt (Z.lor PTE_WRITABLE PTE_WRITETHROUGH) W) as M. cbv zeta in M.
  rewrite Pd, Ht in M. rewrite M by (rewrite ?C; assumption). rewrite bind_ret. clear M.
  set (e := map_entry _ _ _). eexists. split; [reflexivity|].
  assert (Fe : frame_of e = base + 4096 * j) by (now apply map_entry_frame).
  assert (Pe : present e = true) by (now apply map_entry_present).
  assert (Re : u32 e = e) by apply u32_small, u32_range.
  assert (Ff : is_frame f) by (rewrite <- Ht; apply frame_of_is_frame).
  assert (Cf : is_frame (cr3 s0)) by (rewrite <- C; apply W).
  assert (Dir : forall i, 0 <= i < 1024 -> rd (wr s (pte_addr f virt) e) (cr3 s0 + 4 * i) = rd s (cr3 s0 + 4 * i)).
  { intros i Hi. apply rd_wr_ne. apply not_eq_sym, dir_slot_ne; auto. }
  assert (Wk : forall va, walk (wr s (pte_addr f virt) e) (cr3 s0) va = if same_page va virt then Some e else walk s (cr3 s0) va).
  { intros va. pose proof (walk_edit s (cr3 s0) virt e Cf) as K. cbv zeta in K. rewrite <- C in K. rewrite Pd, C, Ht, I in K.
    rewrite Re, Pe in K. now apply K. }
  split; try assumption.
  - apply vm_wf_wr; [exact W|rewrite C; apply not_eq_sym, dir_slot_ne; auto; lia..].
  - rewrite Dir by (unfold VIDEO_SLOT; lia). exact Hp.
  - rewrite Dir by (unfold VIDEO_SLOT; lia). exact Ht.
  - intros k Hk Hne. rewrite !Dir by (auto; unfold VIDEO_SLOT; lia). now apply U.
  - intros va Hi Hlt. rewrite Wk. unfold same_page. rewrite Hi, I, J, Z.eqb_refl. simpl andb.
    destruct (Z.eqb_spec (PAGE_TABLE_INDEX va) j) as [->|Ne]; [exists e; now split|]. apply In; [exact Hi|lia].
  - intros va Hi Hi'. rewrite Wk. unfold same_page. rewrite I. replace (PAGE_DIRECTORY_INDEX va =? VIDEO_SLOT) with false by lia.
    now apply Out.
Qed.

(** What the address space looks like when the screen is mapped: its slot is empty, the
    next free frame is no table in use, and the temporary page is closed. *)
Record screen_free (s : vm) (kt f : Z) (fr : pmm) : Prop := {
  sf_wf : vm_wf s kt;
  sf_absent : present (rd s (cr3 s + 4 * VIDEO_SLOT)) = false;
  sf_alloc : pmmngr_alloc_block (frames s) = (f, fr);
  sf_some : f <> 0;
  sf_fresh : f <> cr3 s;
  sf_tables : forall i, 0 <= i < 1024 -> present (rd s (cr3 s + 4 * i)) = true ->
    frame_of (rd s (cr3 s + 4 * i)) <> f /\ (i <> 1023 -> frame_of (rd s (cr3 s + 4 * i)) <> cr3 s);
  sf_temp : rd s (kt + 4 * 1022) = 0;
}.

(** The first page creates the table. *)
Lemma first_page s kt f fr v n : screen_free s kt f fr -> is_frame (video_addr v) -> video_addr v + 4096 * n <= 2 ^ 32 -> 0 < n ->
  exists s', map_screen_page v 0 s = Ret s' /\ screen_mapped s kt f fr (video_addr v) 1 s'.
Proof.
  intros [W Ab A F0 F1 Tb Tmp] Hb L N. set (base := video_addr v) in *.
  destruct (screen_frame base 0 n Hb L ltac:(lia)) as [Ep Fp]. destruct (screen_virt 0 ltac:(lia)) as (Ev & I & J).
  unfold map_screen_page. fold base. cbv zeta. rewrite Ep, Ev. set (virt := VIDEO_SLOT * 4194304 + 0 * 4096 + 0) in *.
  assert (Ab' : present (rd s (pde_addr (cr3 s) virt)) = false) by (unfold pde_addr; now rewrite I).
  assert (Ff : is_frame f) by (pose proof (alloc_block_is_frame (frames s)) as K; now rewrite A in K).
  assert (F2 : f <> kt) by (intros ->; destruct (Tb 768) as [K _]; [lia|apply W|]; apply K; apply W).
  set (flags := Z.lor PTE_WRITABLE PTE_WRITETHROUGH).
  destruct (map_creates_table s kt (base + 4096 * 0) virt flags f fr W Fp Ab' A F0 F1 Tb Tmp) as (s' & E & Fr & W' & _ & Wk).
  pose proof (map_active_new s kt (base + 4096 * 0) virt flags f fr W Ab' A F0 F1 F2) as E2. rewrite E in E2. injection E2 as E2.
  destruct (rd_new_table s kt f (base + 4096 * 0) virt flags fr W Ff F1 F2 Tmp) as (R1 & _ & R3).
  destruct (new_table_rest s kt f (base + 4096 * 0) virt flags fr) as [C _]. rewrite <- E2 in R1, R3, C.
  unfold pde_addr in R1, R3. rewrite I in R1, R3. rewrite E, bind_ret. exists s'. split; [reflexivity|].
  assert (Dir : forall i, 0 <= i < 1024 -> i <> VIDEO_SLOT -> rd s' (cr3 s + 4 * i) = rd s (cr3 s + 4 * i)).
  { intros i Hi Ne. apply R3; auto. - apply W. - lia. }
  assert (Hf : frame_of (rd s' (cr3 s + 4 * VIDEO_SLOT)) = f) by (rewrite R1; now apply map_entry_frame).
  split; auto.
  - rewrite R1. now apply map_entry_present.
  - intros k Hk Ne P. rewrite Dir in * by auto. rewrite Hf. now apply Tb.
  - intros va Hi Hj. pose proof (pti_range va). assert (Z0 : PAGE_TABLE_INDEX va = 0) by lia.
    rewrite Wk by (rewrite Hi; unfold VIDEO_SLOT; lia). unfold same_page. rewrite Hi, I, J, Z0. simpl andb. cbv iota.
    eexists. split; [reflexivity|]. now apply map_entry_frame.
  - intros va Hi Hi'. rewrite Wk by exact Hi'. unfold same_page. rewrite I. replace (PAGE_DIRECTORY_INDEX va =? VIDEO_SLOT) with false by lia. reflexivity.
Qed.

Lemma total_pages_cover v : total_size v <= 2 ^ 32 - 4096 -> 0 <= total_size v <= 4096 * total_pages v.
Proof.
  intros H. assert (0 <= total_size v) by apply u32_range. unfold total_pages, MMNGR_PAGE_SIZE. rewrite u32_small by lia.
  pose proof (Z.div_mod (total_size v + 4096 - 1) 4096 ltac:(lia)). pose proof (Z.mod_pos_bound (total_size v + 4096 - 1) 4096 ltac:(lia)). lia.
Qed.

(** C17: the screen is where the consoles write.  For a screen of at most 4 MiB
    whose address the boot loader gives on a page boundary, video_init maps page
    after page, creating the page table with the first: afterwards every byte of
    the screen, at VIDEO_START plus its offset, translates to the address of that
    byte in video memory, one frame has been taken, and what lies outside the
    screen's 4 MiB walks as before. *)
Theorem video_init_maps_screen (m : mem) (mbd kt f : Z) (fr : pmm) (s : vm) :
  let v := video_settings m mbd in
  screen_free s kt f fr -> is_frame (video_addr v) -> 0 < total_size v <= 4194304 ->
  video_addr v + 4096 * total_pages v <= 2 ^ 32 ->
  exists s', video_init m mbd s = Ret (v, s') /\ vm_wf s' kt /\ frames s' = fr /\
    (forall a, 0 <= a < total_size v -> translate s' (VIDEO_START + a) = Some (video_addr v + a)) /\
    forall va, PAGE_DIRECTORY_INDEX va <> VIDEO_SLOT -> PAGE_DIRECTORY_INDEX va <> 1023 -> walk s' (cr3 s') va = walk s (cr3 s) va.
Proof.
  intros v Fr Hb Hs L. pose proof (total_pages_cover v ltac:(lia)) as Cv.
  assert (N : 0 < total_pages v <= 1024).
  { split; [lia|]. unfold total_pages, MMNGR_PAGE_SIZE. rewrite u32_small by lia. apply Z.lt_succ_r, Z.div_lt_upper_bound; lia. }
  assert (Hf : f <> cr3 s) by apply Fr.
  destruct (first_page s kt f fr v _ Fr Hb L ltac:(lia)) as (s1 & E1 & I1).
  destruct (for_each_inv (map_screen_page v) (screen_mapped s kt f fr (video_addr v)) 1 (Z.to_nat (total_pages v - 1)) s1 I1) as (s' & E & I).
  { intros j t Hj. apply (next_page s kt f fr v (total_pages v)); auto; lia. }
  replace (1 + Z.of_nat (Z.to_nat (total_pages v - 1))) with (total_pages v) in I by lia.
  exists s'. split.
  - unfold video_init. fold v. cbv zeta. replace (Z.to_nat (total_pages v)) with (S (Z.to_nat (total_pages v - 1))) by lia.
    cbn [for_each]. rewrite E1, bind_ret. change (0 + 1) with 1. now rewrite E, bind_ret.
  - destruct I as [W C Fs _ _ _ In Out]. split; [exact W|]. split; [exact Fs|]. rewrite C. split; [|exact Out].
    intros a Ha. pose proof (Z.div_mod a 4096 ltac:(lia)) as Da. pose proof (Z.mod_pos_bound a 4096 ltac:(lia)).
    assert (Hq : 0 <= a / 4096 < total_pages v) by (split; [apply Z.div_pos|apply Z.div_lt_upper_bound]; lia).
    replace (VIDEO_START + a) with (VIDEO_SLOT * 4194304 + a / 4096 * 4096 + a mod 4096) by (unfold VIDEO_START, VIDEO_SLOT; lia).
    destruct (index_split VIDEO_SLOT (a / 4096) (a mod 4096)) as (A1 & A2 & A3); [unfold VIDEO_SLOT; lia|lia|lia|].
    cbv zeta in A1, A2, A3. set (va := _ + _ + _) in *. destruct (In va A1) as (e & Ee & Fe); [rewrite A2; lia|].
    unfold translate. rewrite C, Ee, Fe, A2. unfold MMNGR_PAGE_SIZE. rewrite A3. f_equal. lia.
Qed.

(** ** The symbol table

    kinit's loop over the section headers; [symtab_sh] and [string_table] are the
    variables of kpanic.c the two setters store to. *)

Definition ELF_SECTION_HEADER_SIZE : Z := 40.
(** The entry's name and address; the address of header [i] of the table. *)
Definition section_name (m : mem) (sh : Z) : Z := load32 m sh.
Definition section_addr (m : mem) (sh : Z) : Z := load32 m (sh + 12).
Definition section_header (m : mem) (elf_sec i : Z) : Z :=
  u32 (u32 (load32 m (elf_sec + 8) + KERNEL_START) + i * ELF_SECTION_HEADER_SIZE).

Definition section_step (m : mem) (elf_sec shstrtab lit_symtab lit_strtab i : Z) '((symtab_sh, string_table) : Z * Z) : outcome (Z * Z) :=
  let sh := section_header m elf_sec i in
  let sec_name := u32 (shstrtab + section_name m sh) in
  c ← strcmp m sec_name lit_symtab;
  if c =? 0 then Ret (sh, string_table)
  else
    c ← strcmp m sec_name lit_strtab;
    if c =? 0 then Ret (symtab_sh, u32 (section_addr m sh + KERNEL_START)) else Ret (symtab_sh, string_table).

(** [mbd] is already moved to the kernel's part of the address space. *)
Definition find_sections (m : mem) (mbd lit_symtab lit_strtab : Z) : outcome (Z * Z) :=
  let elf_sec := mbd + 28 in
  let shstrtab_sh := section_header m elf_sec (load32 m (elf_sec + 12)) in
  let shstrtab := u32 (section_addr m shstrtab_sh + KERNEL_START) in
  for_each (section_step m elf_sec shstrtab lit_symtab lit_strtab) 0 (Z.to_nat (load32 m elf_sec)) (0, 0).

Definition dot_symtab : list Z := [46; 115; 121; 109; 116; 97; 98].
Definition dot_strtab : list Z := [46; 115; 116; 114; 116; 97; 98].

(** The name of section [i], as a string of its own. *)
Definition section_named (m : mem) (mbd i : Z) (name : list Z) : Prop :=
  cstr m (u32 (u32 (section_addr m (section_header m (mbd + 28) (load32 m (mbd + 40))) + KERNEL_START) +
    section_name m (section_header m (mbd + 28) i))) name.

Lemma strcmp_equal m p q l k : cstr m p l -> cstr m q k -> Z.of_nat (length l) < 2 ^ 32 ->
  exists c, strcmp m p q = Ret c /\ (c =? 0) = bool_decide (l = k).
Proof.
  intros P Q L. exists (str_diff l k). split; [now apply strcmp_diff|].
  pose proof (str_diff_eq l k (cs_text _ _ _ P) (cs_text _ _ _ Q)) as E. case_bool_decide as D.
  - apply E in D. now rewrite D.
  - apply Z.eqb_neq. tauto.
Qed.

(** kinit finds the symbols.  When the boot loader's section headers name one
    section .symtab and one .strtab, the loop runs to its end and leaves the
    address of the first one's header and the second one's contents, both in the
    kernel's part of the address space: what [Trace.kernel_find_symbol] reads. *)
Theorem find_sections_spec (m : mem) (mbd lit_symtab lit_strtab a b : Z) (names : list (list Z)) :
  load32 m (mbd + 28) = Z.of_nat (length names) ->
  (forall i name, names !! i = Some name -> section_named m mbd (Z.of_nat i) name /\ Z.of_nat (length name) < 2 ^ 32) ->
  cstr m lit_symtab dot_symtab -> cstr m lit_strtab dot_strtab ->
  (forall i, names !! i = Some dot_symtab <-> Z.of_nat i = a) -> (forall i, names !! i = Some dot_strtab <-> Z.of_nat i = b) ->
  0 <= a -> 0 <= b ->
  find_sections m mbd lit_symtab lit_strtab =
  Ret (section_header m (mbd + 28) a, u32 (section_addr m (section_header m (mbd + 28) b) + KERNEL_START)).
Proof.
  intros Num Names Sy St Ia Ib Ha Hb. unfold find_sections. cbv zeta. rewrite Num, Nat2Z.id.
  replace (mbd + 28 + 12) with (mbd + 40) by lia. set (shstrtab := u32 (section_addr m _ + KERNEL_START)).
  set (hd := section_header m (mbd + 28)) in *.
  set (P := fun (j : Z) '((x, y) : Z * Z) =>
    x = (if a <? j then hd a else 0) /\ y = (if b <? j then u32 (section_addr m (hd b) + KERNEL_START) else 0)).
  assert (P0 : P 0 (0, 0)) by (unfold P; rewrite (proj2 (Z.ltb_ge a 0)), (proj2 (Z.ltb_ge b 0)) by lia; auto).
  destruct (for_each_inv (section_step m (mbd + 28) shstrtab lit_symtab lit_strtab) P 0 (length names) (0, 0) P0) as (s' & E & H).
  - intros j [x y] Hj [-> ->]. destruct (lookup_lt_is_Some_2 names (Z.to_nat j) ltac:(lia)) as [name Hn].
    destruct (Names _ _ Hn) as [Nm Ln]. rewrite Z2Nat.id in Nm by lia. unfold section_named in Nm. fold hd in Nm. fold shstrtab in Nm.
    specialize (Ia (Z.to_nat j)). specialize (Ib (Z.to_nat j)). rewrite Hn, Z2Nat.id in Ia, Ib by lia.
    unfold section_step. fold hd. cbv zeta.
    destruct (strcmp_equal _ _ _ _ _ Nm Sy Ln) as (c & -> & Ec). rewrite bind_ret, Ec. clear c Ec.
    case_bool_decide as D1.
    + subst name. assert (j = a) as <- by (apply Ia; reflexivity). eexists. split; [reflexivity|]. unfold P.
      replace (j <? j + 1) with true by lia. assert (j <> b) by (intros K; apply Ib in K; discriminate). split; [reflexivity|].
      now replace (b <? j + 1) with (b <? j) by lia.
    + assert (j <> a) by (intros K; apply Ia in K; congruence).
      destruct (strcmp_equal _ _ _ _ _ Nm St Ln) as (c & -> & Ec). rewrite bind_ret, Ec. clear c Ec.
      case_bool_decide as D2; (eexists; split; [reflexivity|]); unfold P; (split; [now replace (a <? j + 1) with (a <? j) by lia|]).
      * subst name. assert (j = b) as <- by (apply Ib; reflexivity). now replace (j <? j + 1) with true by lia.
      * assert (j <> b) by (intros K; apply Ib in K; congruence). now replace (b <? j + 1) with (b <? j) by lia.
  - rewrite E. destruct s' as [x y]. destruct H as [-> ->].
    assert (La : a < Z.of_nat (length names)).
    { assert (K : names !! Z.to_nat a = Some dot_symtab) by (apply Ia; lia). apply lookup_lt_Some in K. lia. }
    assert (Lb : b < Z.of_nat (length names)).
    { assert (K : names !! Z.to_nat b = Some dot_strtab) by (apply Ib; lia). apply lookup_lt_Some in K. lia. }
    rewrite Z.add_0_l. replace (a <? _) with true by lia. now replace (b <? _) with true by lia.
Qed.

(** ** A screen of 800 by 600 pixels, and three sections *)

Definition screen_info : mem :=
  store8 (store8 (store32 (store32 (store32 (store32 (store32 ∅ 0x100 0x1000) (0x100 + 88) 0xfd000000) (0x100 + 96) 3200)
    (0x100 + 100) 800) (0x100 + 104) 600) (0x100 + 108) 32) (0x100 + 109) 1.

Lemma kernel_vm_screen : screen_free kernel_vm 0x2000 0x4000 (pmmngr_alloc_block sample_pmm_3).2.
Proof.
  split; [exact kernel_vm_wf|..]; try (apply (bool_decide_unpack _); vm_compute; exact I).
  - change (frames kernel_vm) with sample_pmm_3. rewrite <- sample_frame. apply surjective_pairing.
  - apply (forall_below 1024 (fun i => present (rd kernel_vm (0x1000 + 4 * i)) = true ->
      frame_of (rd kernel_vm (0x1000 + 4 * i)) <> 0x4000 /\ (i <> 1023 -> frame_of (rd kernel_vm (0x1000 + 4 * i)) <> 0x1000))).
    vm_compute. reflexivity.
Qed.

Lemma video_init_maps_screen_witness : exists s', video_init screen_info 0x100 kernel_vm = Ret (Video 0xfd000000 800 600 3200 32 true, s') /\
  translate s' (VIDEO_START + 1919999) = Some (0xfd000000 + 1919999).
Proof.
  assert (V : video_settings screen_info 0x100 = Video 0xfd000000 800 600 3200 32 true) by (vm_compute; reflexivity).
  pose proof (video_init_maps_screen screen_info 0x100 0x2000 0x4000 (pmmngr_alloc_block sample_pmm_3).2 kernel_vm) as T. cbv zeta in T. rewrite V in T.
  change (total_size _) with 1920000 in T. change (total_pages _) with 469 in T. cbn [video_addr] in T.
  destruct T as (s' & E & _ & _ & Tr & _); [exact kernel_vm_screen|unfold is_frame; split; [lia|reflexivity]|lia|lia|].
  exists s'. split; [exact E|]. apply Tr. lia.
Defined.

(** With no frame left for the table video_init goes on all the same, and the screen
    is not there when the consoles write to it. *)
Definition full_pmm : pmm := Pmm [0xffffffff] 32 32.
Example screen_missing : ('(_, s) ← video_init ∅ 0x100 (set_frames kernel_vm full_pmm); Ret (translate s VIDEO_START)) = Ret None.
Proof. vm_compute. reflexivity. Qed.

Definition sections_mem : mem :=
  put (put (put (store32 (store32 (store32 (store32 (store32 (store32 (store32 ∅
    (0x100 + 28) 3) (0x100 + 36) 0x1000) (0x100 + 40) 2)
    (0xc0001000 + 40) 1) (0xc0001000 + 80) 9) (0xc0001000 + 80 + 12) 0x2000) (0xc0001000 + 40 + 12) 0x3000)
    0xc0002000 ([0] ++ dot_symtab ++ [0] ++ dot_strtab ++ [0])) 0x200 (dot_symtab ++ [0])) 0x300 (dot_strtab ++ [0]).

Lemma find_sections_spec_witness : find_sections sections_mem 0x100 0x200 0x300 = Ret (0xc0001028, 0xc0002000).
Proof.
  rewrite (find_sections_spec sections_mem 0x100 0x200 0x300 1 2 [[]; dot_symtab; dot_strtab]).
  - vm_compute. reflexivity.
  - vm_compute. reflexivity.
  - intros [|[|[|i]]] name [= <-]; (split; [|cbn; lia]); apply cstrb_sound; vm_compute; reflexivity.
  - apply cstrb_sound. vm_compute. reflexivity.
  - apply cstrb_sound. vm_compute. reflexivity.
  - intros [|[|[|i]]]; cbn; split; intros; try discriminate; try lia; reflexivity.
  - intros [|[|[|i]]]; cbn; split; intros; try discriminate; try lia; reflexivity.
  - lia.
  - lia.
Defined.
