(* ===== verification/Mount.v ===== *)
(** * Mounting the partitions (kernel/src/kernel.c: disk_init; filesystem/fat32.c:
    the end of fat32_init)

    fat32_init makes a node /fs<n> in the root file system and puts the volume's
    root behind it; disk_init does this for every FAT32 partition of the boot
    sector's table.  The tree is [Vfs]'s, the volume [FatDir]'s; in the kernel the
    volume's root node is in the tree's memory as well, so it is put into both. *)
From S2P Require Import Prelude Mem CString CStdlib Fs Ramfs FileOps Validate Vfs VfsWalk Disk Ports Ata.
From S2P Require Fat FatDir Mbr.

(** sizeof(fs_t) and the buffer disk_init gets *)
Definition sizeof_fs : Z := 1452.
Definition sizeof_dump : Z := 512.

(** "/fs" and the number, written by itoa in the array [fsstr]. *)
Definition fsstr : Z := 16.
Definition mount_path (fsid : Z) : outcome (list Z) :=
  m ← itoa (put ∅ fsstr [47; 102; 115; 0; 0; 0; 0]) fsid (fsstr + 3) 16; string_at m fsstr.

Section mount.
Context {H : Type} `{Allocator H}.
Variable ramfs : Z.
Variable ramfs_root : Z.
Variable others : Z -> option (fs_t (state H)).
Variable dirty : Z -> fs_node.

Record machine := Machine { tree : state H; volumes : FatDir.fat_state }.

(** The node at /fs<n>, made if it is not there, leads to [root]. *)
Definition make_mount_point (st : state H) (fsid root : Z) : outcome (FS_ERR * state H) :=
  path ← mount_path fsid;
  '(ret, fat32_node, st) ← vfs_find_and_create_node ramfs ramfs_root others dirty st path ramfs_root FILE_OPEN_CREATE
    (Z.lor FS_NODE_TYPE_DIRECTORY FS_NODE_FLAG_MOUNTPOINT);
  if bool_decide (ret = ERR_FS_SUCCESS) then st ← edit_node st fat32_node (set_mount_target root); Ret (ret, st) else Ret (ret, st).

Definition fat32_init (fsid : Z) (part : Mbr.partition_entry) (mc : machine) : outcome (FS_ERR * machine) :=
  let '(fs, st) := kmalloc (tree mc) sizeof_fs in
  '(err, ft) ← FatDir.fat32_mount (volumes mc) fs (Mbr.LBA_start part) (dirty fs);
  if failed err then Ret (err, Machine st ft)
  else
    root ← FatDir.get_fnode ft (FatDir.root_node fs);
    '(err, st) ← make_mount_point (put_node (FatDir.root_node fs) root st) fsid (FatDir.root_node fs);
    Ret (err, Machine st ft).

(** The loop's body: [fs_count] is 0 in every round. *)
Definition mount_partition (MBR : list Z) (i : Z) (mc : machine) : outcome machine :=
  let part := Mbr.mbr_get_partition_entry MBR i in
  if Mbr.sector_count part =? 0 then Ret mc
  else
    let fs_count := 0 in
    let sect := disk_read (FatDir.the_disk (volumes mc)) (Fat.lba28 (Mbr.LBA_start part)) 1 in
    if vfs_detectfs (fun o => default 0 (sect !! Z.to_nat o)) =? FS_FAT32 then '(_, mc) ← fat32_init fs_count part mc; Ret mc
    else Ret mc.

Definition mount_partitions (MBR : list Z) (mc : machine) : outcome machine := for_each (mount_partition MBR) 0 4 mc.

(** The messages are left out. *)
Definition disk_init {D} `{Ports D} (s : ata D) (MBR : list Z) (mc : machine) : outcome (ata D * machine) :=
  let '(dump, st) := kmalloc (tree mc) sizeof_dump in
  if dump =? 0 then Ret (s, Machine st (volumes mc))
  else
    '(ata_err, _, s) ← ata_pio_init s;
    let mc := Machine (kfree st dump) (volumes mc) in
    if bool_decide (ata_err <> ERR_ATA_PIO_SUCCESS) then Ret (s, mc)
    else
      '(mbr_err, MBR, s) ← Mbr.mbr_load s MBR;
      if mbr_err : bool then Ret (s, mc) else mc ← mount_partitions MBR mc; Ret (s, mc).

(** ** A volume behind a mount point stays there *)






(** The path has one token. *)
Lemma mount_path_token fsid : 0 <= fsid < 16 -> let c := if fsid <? 10 then fsid + 48 else fsid + 87 in
  mount_path fsid = Ret [47; 102; 115; c] /\ tokens [47] [47; 102; 115; c] = [[102; 115; c]].
Proof.
  revert fsid. apply (forall_below 16 (fun fsid => mount_path fsid = Ret [47; 102; 115; if fsid <? 10 then fsid + 48 else fsid + 87] /\
    tokens [47] [47; 102; 115; if fsid <? 10 then fsid + 48 else fsid + 87] = [[102; 115; if fsid <? 10 then fsid + 48 else fsid + 87]])).
  by_eval.
Qed.





End mount.

(** ** A disk with two partitions *)

Module Runs.
Import Bump.

Definition put_at (m : mem) (ls : list (Z * list Z)) : mem := foldr (fun '(p, l) m => put m p l) m ls.
(** The boot sector's and the information sector's fields of an empty volume of 23 sectors. *)
Definition fat_volume (lba : Z) (m : mem) : mem :=
  put_at m [(512 * lba + 11, [0; 2; 1; 2; 0; 1]); (512 * lba + 19, [23; 0]); (512 * lba + 36, [1]); (512 * lba + 44, [2]); (512 * lba + 48, [1]);
    (512 * lba + 66, [41]); (512 * lba + 82, [70; 65; 84; 51; 50; 32; 32; 32]);
    (512 * (lba + 1), [0x52; 0x52; 0x61; 0x41]); (512 * (lba + 1) + 484, [0x72; 0x72; 0x41; 0x61]);
    (512 * (lba + 1) + 488, [16; 0; 0; 0; 2]); (512 * (lba + 1) + 508, [0; 0; 0x55; 0xaa])].
Definition partition_bytes (lba count : Z) : list Z := [0; 0; 0; 0; 12; 0; 0; 0; lba; 0; 0; 0; count; 0; 0; 0].
Definition two_volumes : mem :=
  fat_volume 10 (fat_volume 100 (put_at ∅ [(446, partition_bytes 10 23 ++ partition_bytes 100 23); (510, [0x55; 0xaa])])).
Definition ft0 : FatDir.fat_state := FatDir.FatState ∅ two_volumes ∅ [] 0 0.
Definition dirty0 (p : Z) : fs_node := uninitialised.
Definition none (f : Z) : option (fs_t (state bump)) := None.

(** From an empty kernel heap: vfs_init, then both partitions. *)
Definition st0 : state bump :=
  State {| next_block := 40; used := ∅ |} {| next_block := 200; used := {[100]} |} ∅ ∅ {[ 100 := uninitialised ]} ∅ ∅ 0 0.
Definition mounted : outcome (machine (H := bump)) :=
  '(_, st) ← vfs_init 10 100 none dirty0 st0;
  mount_partitions 10 100 none dirty0 (disk_read two_volumes 0 1) (Machine st ft0).

(** /fs0 leads to the root of the first volume, whose file system is 229; the second
    one, 237, is behind that root. *)
Example two_partitions :
  (mc ← mounted; '(err, node, st) ← vfs_find_and_create_node 10 100 none dirty0 (tree mc) [47; 102; 115; 48] 100 FILE_OPEN_READ 0;
   n ← get_node st node; hidden ← get_node st (mount_target n); Ret (err, fs n, FS_NODE_IS_MOUNTPOINT n, fs hidden)) =
  Ret (ERR_FS_SUCCESS, 229, false, 237).
Proof. vm_compute. reflexivity. Qed.



End Runs.
