(* ===== verification/Wrappers.v ===== *)
(** * Wrappers of the C library around system calls (libc/src/fcntl/open.c,
    libc/src/unistd)

    What open, sleep and sleep_ms (usleep.c) do before they trap into the
    kernel: the conversion of open's flags into a [file_mode_t] and of times
    into ticks.  The system calls are arguments. *)
From S2P Require Import Prelude Fs.

(** fcntl.h; the source writes them in octal *)
Definition O_RDONLY : Z := 0x0.
Definition O_WRONLY : Z := 0x1.
Definition O_RDWR : Z := 0x2.
Definition O_ACCMODE : Z := 0x3.
Definition O_CREAT : Z := 0x40.
Definition O_EXCL : Z := 0x80.
Definition O_TRUNC : Z := 0x200.
Definition O_APPEND : Z := 0x400.
Definition O_DIRECTORY : Z := 0x10000.
Definition TIMER_FREQUENCY : Z := 1000.

Definition add_mode (flags flag mode out : Z) : Z := if Z.land flags flag =? 0 then out else Z.lor out mode.

Definition flags_converter (flags : Z) : Z :=
  let accmode := Z.land flags O_ACCMODE in
  let out :=
    if accmode =? O_RDONLY then FILE_OPEN_READ
    else if accmode =? O_WRONLY then FILE_OPEN_WRITE
    else if accmode =? O_RDWR then Z.lor FILE_OPEN_READ FILE_OPEN_WRITE
    else 0 in
  let out := add_mode flags O_TRUNC FILE_OPEN_TRUNCATE out in
  let out := add_mode flags O_CREAT FILE_OPEN_CREATE out in
  let out := add_mode flags O_EXCL FILE_OPEN_EXCLUSIVE out in
  let out := add_mode flags O_DIRECTORY FILE_OPEN_ONLYDIR out in
  add_mode flags O_APPEND FILE_OPEN_APPEND out.

Section calls.
Context {K : Type}.
Variable syscall_open : Z -> Z -> K -> outcome (Z * K).
Variable syscall_sleep : Z -> K -> outcome K.

Definition open (path flags : Z) (k : K) : outcome (Z * K) :=
  '(fd, k) ← syscall_open path (flags_converter flags) k;
  Ret (if fd <? 0 then -1 else fd, k).

Definition sleep (seconds : Z) (k : K) : outcome (Z * K) :=
  k ← syscall_sleep (u32 (seconds * TIMER_FREQUENCY)) k; Ret (0, k).

Definition sleep_ms (microseconds : Z) (k : K) : outcome (Z * K) :=
  k ← syscall_sleep (u32 (microseconds * TIMER_FREQUENCY) / 1000000) k; Ret (0, k).
End calls.

Lemma add_mode_spec flags i j out b : 0 <= i -> 0 <= j -> 0 <= b ->
  Z.testbit (add_mode flags (2 ^ i) (2 ^ j) out) b = Z.testbit out b || Z.testbit flags i && (j =? b).
Proof.
  intros Hi Hj Hb. unfold add_mode. rewrite <- (Z.shiftl_1_l i), mask_testbit by exact Hi.
  destruct (Z.testbit flags i); simpl negb; cbv iota; [|now rewrite orb_false_r].
  rewrite Z.lor_spec. f_equal. rewrite Z.pow2_bits_eqb by exact Hj. reflexivity.
Qed.

(** The access part of the mode. *)
Definition access_mode (accmode : Z) : Z := nth (Z.to_nat accmode) [FILE_OPEN_READ; FILE_OPEN_WRITE; Z.lor FILE_OPEN_READ FILE_OPEN_WRITE; 0] 0.

(** Every bit of the mode is decided by one flag: the two lowest by the access
    mode (neither is set for the access mode 3), the others by the flag of that
    name, whatever else is passed. *)
Theorem flags_converter_bits (flags : Z) :
  let bit := Z.testbit (flags_converter flags) in
  bit 0 = Z.testbit (access_mode (Z.land flags O_ACCMODE)) 0 /\ bit 1 = Z.testbit (access_mode (Z.land flags O_ACCMODE)) 1 /\
  bit 2 = Z.testbit flags 9 /\ bit 3 = Z.testbit flags 6 /\ bit 4 = Z.testbit flags 7 /\
  bit 5 = Z.testbit flags 16 /\ bit 6 = Z.testbit flags 10 /\ forall b, 7 <= b -> bit b = false.
Proof.
  cbv zeta. unfold flags_converter. set (acc := Z.land flags O_ACCMODE).
  assert (R : 0 <= acc < 4) by (unfold acc; change O_ACCMODE with (Z.ones 2); rewrite Z.land_ones by lia; apply Z.mod_pos_bound; lia).
  set (out := if acc =? O_RDONLY then _ else _).
  assert (A : out = access_mode acc).
  { unfold out. clearbody acc. revert R. clear. intros R.
    assert (acc = 0 \/ acc = 1 \/ acc = 2 \/ acc = 3) as [-> | [-> | [-> | ->]]] by lia; reflexivity. }
  assert (H : forall b, 2 <= b -> Z.testbit out b = false).
  { intros b Hb. rewrite A. clearbody acc. clear - R Hb. apply (Z.bits_above_log2); [|].
    - assert (acc = 0 \/ acc = 1 \/ acc = 2 \/ acc = 3) as [-> | [-> | [-> | ->]]] by lia; vm_compute; congruence.
    - enough (Z.log2 (access_mode acc) <= 1) by lia.
      assert (acc = 0 \/ acc = 1 \/ acc = 2 \/ acc = 3) as [-> | [-> | [-> | ->]]] by lia; vm_compute; congruence. }
  clearbody out. subst out.
  change O_TRUNC with (2 ^ 9). change O_CREAT with (2 ^ 6). change O_EXCL with (2 ^ 7). change O_DIRECTORY with (2 ^ 16). change O_APPEND with (2 ^ 10).
  change FILE_OPEN_TRUNCATE with (2 ^ 2). change FILE_OPEN_CREATE with (2 ^ 3). change FILE_OPEN_EXCLUSIVE with (2 ^ 4).
  change FILE_OPEN_ONLYDIR with (2 ^ 5). change FILE_OPEN_APPEND with (2 ^ 6).
  do 7 (split; [rewrite !add_mode_spec by lia; cbn [Z.eqb Pos.eqb]; rewrite ?andb_false_r, ?andb_true_r, ?orb_false_r, ?H by lia; reflexivity|]).
  intros b Hb. rewrite !add_mode_spec, H by lia. replace (2 =? b) with false by lia. replace (3 =? b) with false by lia.
  replace (4 =? b) with false by lia. replace (5 =? b) with false by lia. replace (6 =? b) with false by lia. now rewrite !andb_false_r.
Qed.

(** sleep and sleep_ms ask for the ticks of a millisecond each, rounded down,
    as long as the product with the frequency fits into 32 bits: up to 49 days
    for seconds, 4.29 seconds for microseconds. *)
Theorem sleep_ticks {K : Type} (syscall_sleep : Z -> K -> outcome K) (n : Z) (k : K) :
  0 <= n <= 4294967 ->
  sleep syscall_sleep n k = (k ← syscall_sleep (n * 1000) k; Ret (0, k)) /\
  sleep_ms syscall_sleep n k = (k ← syscall_sleep (n / 1000) k; Ret (0, k)).
Proof.
  intros Hn. unfold sleep, sleep_ms, TIMER_FREQUENCY. rewrite u32_small by lia.
  replace (n * 1000 / 1000000) with (n / 1000); [now split|].
  replace (n * 1000 / 1000000) with (n * 1000 / (1000 * 1000)) by reflexivity. now rewrite Z.div_mul_cancel_r by lia.
Qed.

(** Five seconds in microseconds are over by then: the sleep is 705 ms. *)
Example sleep_wraps : sleep_ms (fun t (_ : Z) => Ret t) 5000000 0 = Ret (0, 705).
Proof. reflexivity. Qed.

(** open("f", O_WRONLY | O_CREAT | O_APPEND) *)
Example open_append : open (fun _ mode (_ : Z) => Ret (3, mode)) 0 (Z.lor O_WRONLY (Z.lor O_CREAT O_APPEND)) 0 =
  Ret (3, Z.lor FILE_OPEN_WRITE (Z.lor FILE_OPEN_CREATE FILE_OPEN_APPEND)).
Proof. reflexivity. Qed.
