(* ===== verification/Shell.v ===== *)
(** * The shell (shell/src/main.c)

    The line editor of [main] and [process_prompt], over the C library's
    strings.  The line is edited in a static array; process_prompt cuts it with
    strtok and hands the array itself to the kernel as the program's argument
    strings, one after the other, the empty string last ([Create.text]).  The
    kernel is an interface ([Kernel]): opening, closing and spawning by the
    strings in memory, and what is printed. *)
From S2P Require Import Prelude Mem CString CStdlib.
From S2P Require Create.

Inductive message := Echo (chr : Z) | Prompt | NotFound (prog : Z) | Exited (prog ret : Z).

(** syscall_open, syscall_close and syscall_spawn (waiting, with the standard
    files) by the addresses they are given, and printing. *)
Class Kernel (K : Type) := {
  sys_open : K -> mem -> Z -> outcome (Z * K);
  sys_close : K -> Z -> K;
  sys_spawn : K -> mem -> Z -> Z -> Z -> outcome (Z * K);
  say : message -> K -> K;
}.

(** The static variables: the array's memory, its fill, strtok's position, the
    exit code. *)
Record shell K := Shell {
  ram : mem;
  buffer_ptr : Z;
  position : Z;
  exit_code : Z;
  kernel : K;
}.
Arguments Shell {K}.
Arguments ram {K}.
Arguments buffer_ptr {K}.
Arguments position {K}.
Arguments exit_code {K}.
Arguments kernel {K}.

(** The size the array is declared with. *)
Definition BUFFER_SIZE : Z := 4096.

Section shell.
Context {K : Type} `{Kernel K}.
(** Addresses: the array, the literals "exit" and " ", and [environment_pointer[0]]. *)
Variables buffer exit_word space envs : Z.

Definition set_ram (m : mem) (p : Z) (s : shell K) : shell K := Shell m (buffer_ptr s) p (exit_code s) (kernel s).
Definition set_ptr (n : Z) (s : shell K) : shell K := Shell (ram s) n (position s) (exit_code s) (kernel s).
Definition set_exit (n : Z) (s : shell K) : shell K := Shell (ram s) (buffer_ptr s) (position s) n (kernel s).
Definition set_kernel (k : K) (s : shell K) : shell K := Shell (ram s) (buffer_ptr s) (position s) (exit_code s) k.
Definition tell (msg : message) (s : shell K) : shell K := set_kernel (say msg (kernel s)) s.

(** [while(strtok(NULL, " "));] *)
Definition cut_step '(m, p) : outcome (mem * Z + mem * Z) :=
  '(t, p, m) ← strtok m 0 space p; Ret (if t =? 0 then inr (m, p) else inl (m, p)).

(** Address 0 is not mapped: comparing a null [prog] faults. *)
Definition process_prompt (s : shell K) : outcome (bool * shell K) :=
  '(prog, p, m) ← strtok (ram s) buffer space (position s);
  if prog =? 0 then Fault else
  c ← strcmp m prog exit_word;
  if c =? 0 then
    '(exit_str, p, m) ← strtok m 0 space p;
    let s := set_ram m p s in
    if exit_str =? 0 then Ret (true, s) else code ← atoi m exit_str; Ret (true, set_exit code s)
  else
    '(m, p) ← while cut_step (m, p);
    let s := set_ram m p s in
    '(fd, k) ← sys_open (kernel s) m prog;
    if 0 <=? fd then
      '(ret, k) ← sys_spawn (sys_close k fd) m prog buffer envs;
      Ret (false, tell (Exited prog ret) (set_kernel k s))
    else Ret (false, tell (NotFound prog) (set_kernel k s)).

(** One turn of main's loop, on the character read; [inr] is main's return. *)
Definition press (chr : Z) (s : shell K) : outcome (shell K + Z * shell K) :=
  if chr =? 10 then
    let s := tell (Echo 10) s in
    if 0 <? buffer_ptr s then
      let s := set_ram (store8 (ram s) (buffer + buffer_ptr s) 0) (position s) s in
      '(should_exit, s) ← process_prompt s;
      let s := set_ptr 0 s in
      Ret (if should_exit : bool then inr (exit_code s, s) else inl (tell Prompt s))
    else Ret (inl (tell Prompt s))
  else if chr =? 8 then
    Ret (inl (if 0 <? buffer_ptr s then tell (Echo chr) (set_ptr (buffer_ptr s - 1) s) else s))
  else if isprint chr then
    Ret (inl (tell (Echo chr) (set_ptr (u32 (buffer_ptr s + 1)) (set_ram (store8 (ram s) (buffer + buffer_ptr s) chr) (position s) s))))
  else Ret (inl s).

(** main on the characters typed, until it returns or waits for more. *)
Fixpoint typed (keys : list Z) (s : shell K) : outcome (shell K + Z * shell K) :=
  match keys with
  | [] => Ret (inl s)
  | chr :: keys => r ← press chr s; match r with inl s => typed keys s | inr r => Ret (inr r) end
  end.

(** ** The line editor *)

Definition edit (l : list Z) (chr : Z) : list Z :=
  if chr =? 8 then removelast l else if isprint chr then l ++ [chr] else l.

Lemma removelast_length (l : list Z) : length (removelast l) = (length l - 1)%nat.
Proof. induction l as [|x [|y l] IH]; [reflexivity..|]. cbn [removelast length] in *. lia. Qed.

Lemma removelast_prefix (l : list Z) i x : removelast l !! i = Some x -> l !! i = Some x.
Proof.
  revert i. induction l as [|y [|z l] IH]; intros i; [discriminate..|]. cbn [removelast]. destruct i; [exact (fun e => e)|]. apply IH.
Qed.

Lemma typing_ok (keys : list Z) (s : shell K) (l : list Z) :
  Forall (fun c => c <> 10) keys -> bytes (ram s) buffer l -> buffer_ptr s = Z.of_nat (length l) ->
  Z.of_nat (length l) + Z.of_nat (length keys) < 2 ^ 32 ->
  exists s', typed keys s = Ret (inl s') /\ bytes (ram s') buffer (foldl edit l keys) /\
    buffer_ptr s' = Z.of_nat (length (foldl edit l keys)) /\ position s' = position s /\ exit_code s' = exit_code s /\
    forall a, a < buffer \/ buffer + Z.of_nat (length l) + Z.of_nat (length keys) <= a -> load8 (ram s') a = load8 (ram s) a.
Proof.
  revert s l. induction keys as [|c keys IH]; intros s l F B P N; cbn [typed foldl].
  - exists s. split_and!; auto.
  - apply Forall_cons in F as [Fc F]. cbn [length] in N. unfold press. replace (c =? 10) with false by lia. unfold edit at 2 4.
    destruct (c =? 8).
    + rewrite bind_ret. cbv iota. pose proof (removelast_length l).
      set (s1 := if 0 <? buffer_ptr s then _ else s).
      destruct (IH s1 (removelast l)) as (s' & E & B' & P' & Q' & X' & Fr); auto.
      * intros i x Hx. apply removelast_prefix in Hx. unfold s1. destruct (0 <? buffer_ptr s); now apply B.
      * unfold s1. destruct (0 <? buffer_ptr s) eqn:Z0; [change (buffer_ptr s - 1 = Z.of_nat (length (removelast l)))|]; lia.
      * lia.
      * assert (E1 : ram s1 = ram s /\ position s1 = position s /\ exit_code s1 = exit_code s)
          by (unfold s1; destruct (0 <? buffer_ptr s); split_and!; reflexivity).
        destruct E1 as (E1 & E2 & E3). exists s'. rewrite <- E1, <- E2, <- E3. split_and!; auto. intros a Ha. apply Fr. cbn [length] in Ha. lia.
    + destruct (isprint c) eqn:Pc; rewrite bind_ret; cbv iota.
      * destruct (IH (tell (Echo c) (set_ptr (u32 (buffer_ptr s + 1)) (set_ram (store8 (ram s) (buffer + buffer_ptr s) c) (position s) s))) (l ++ [c]))
          as (s' & E & B' & P' & Q' & X' & Fr); auto.
        -- apply bytes_app. cbn [ram tell set_kernel set_ptr set_ram]. split.
           ++ eapply bytes_frame; [|exact B]. intros i Hi. rewrite load8_store8. now replace (_ =? _) with false by lia.
           ++ apply bytes_cons. split; [|apply bytes_nil]. rewrite load8_store8, P, Z.eqb_refl. unfold isprint in Pc. apply u8_small. lia.
        -- cbn [buffer_ptr tell set_kernel set_ptr]. rewrite length_app, P. cbn [length]. rewrite u32_small; lia.
        -- rewrite length_app. cbn [length]. lia.
        -- exists s'. split_and!; auto. intros a Ha. cbn [length] in Ha. rewrite Fr by (rewrite length_app; cbn [length]; lia).
           cbn [ram tell set_kernel set_ptr set_ram]. rewrite load8_store8. now replace (_ =? _) with false by lia.
      * destruct (IH s l) as (s' & E & B' & P' & Q' & X' & Fr); auto; [lia|].
        exists s'. split_and!; auto. intros a Ha. apply Fr. cbn [length] in Ha. lia.
Qed.

(** ** The command line

    Words with one space between two. *)
Fixpoint join (c : Z) (ws : list (list Z)) : list Z :=
  match ws with
  | [] => []
  | w :: ws => w ++ (if ws is [] then [] else c :: join c ws)
  end.

Definition words (ws : list (list Z)) : Prop := Forall (fun w => w <> [] /\ Forall (fun c => isprint c = true /\ c <> 32) w) ws.

Lemma join_length c ws : length (join c ws) = length (join 32 ws).
Proof.
  induction ws as [|w ws IH]; [reflexivity|]. cbn [join]. rewrite !length_app. f_equal. destruct ws; [reflexivity|]. cbn [length]. now f_equal.
Qed.

Lemma join_body ws : ws <> [] -> Create.body ws = join 0 ws ++ [0].
Proof.
  induction ws as [|w ws IH]; [done|]. intros _. unfold Create.body in *. cbn [map concat join]. destruct ws as [|v ws]; [now rewrite !app_nil_r|].
  rewrite IH by done. rewrite <- !app_assoc. reflexivity.
Qed.

Lemma word_first w r : words (w :: r) -> word [32] (join 32 (w :: r)) = w /\ skip [32] (join 32 (w :: r)) = join 32 (w :: r).
Proof.
  intros F. apply Forall_cons in F as [[N F] _]. cbn [join].
  assert (D : forall c, isprint c = true /\ c <> 32 -> c ∉ [32]) by (intros c [_ Hc] E; apply list_elem_of_singleton in E; congruence).
  split.
  - clear N. induction F as [|c w Hc F IH]; cbn [app].
    + destruct r; [reflexivity|]. cbn [word]. now rewrite decide_True by apply list_elem_of_here.
    + cbn [word]. rewrite decide_False by now apply D. f_equal. exact IH.
  - destruct w as [|c w]; [done|]. cbn [app skip]. apply Forall_cons in F as [Hc _]. now rewrite decide_False by now apply D.
Qed.

Lemma strtok_word m str p q w r : cstr m space [32] -> (if str =? 0 then p else str) = q -> 0 < q -> words (w :: r) ->
  cstr m q (join 32 (w :: r)) -> Z.of_nat (length (join 32 (w :: r))) < 2 ^ 32 ->
  strtok m str space p =
  Ret (q, q + Z.of_nat (length w) + (if r is [] then 0 else 1), if r is [] then m else store8 m (q + Z.of_nat (length w)) 0).
Proof.
  intros Sp Eq Hq Ws C N. unfold strtok, strtok_r. rewrite Eq. destruct (word_first w r Ws) as [Ew Es].
  assert (C0 : load8 m q <> 0).
  { apply Forall_cons in Ws as [[Nw _] _]. cbn [join] in C. destruct w; [done|]. apply cstr_cons in C as (? & ? & _). lia. }
  replace (q =? 0) with false by lia. replace (load8 m q =? 0) with false by lia. rewrite andb_false_r.
  rewrite (skip_delimiters_spec m space [32] Sp ltac:(cbn; lia) q _ C N), bind_ret, Es.
  replace (q + Z.of_nat (_ - _)) with q by lia. replace (load8 m q =? 0) with false by lia.
  rewrite (find_delimiter_spec m space [32] Sp ltac:(cbn; lia) q _ C N), bind_ret, Ew. cbv iota. cbn [join]. rewrite length_app.
  destruct r as [|v r]; cbn [length].
  - rewrite bool_decide_eq_false_2 by lia. do 3 f_equal. lia.
  - rewrite bool_decide_eq_true_2 by lia. do 3 f_equal. lia.
Qed.

Lemma join_cstr m q w r : cstr m q (join 32 (w :: r)) -> words (w :: r) ->
  let m' := if r is [] then m else store8 m (q + Z.of_nat (length w)) 0 in
  bytes m' q w /\ load8 m' (q + Z.of_nat (length w)) = 0 /\
  cstr m' (q + Z.of_nat (length w) + (if r is [] then 0 else 1)) (join 32 r).
Proof.
  intros C Ws. cbn [join] in C. destruct r as [|v r]; cbv zeta iota.
  - rewrite app_nil_r in C. split_and!; [apply C|apply (cs_end _ _ _ C)|]. rewrite Z.add_0_r. apply cstr_nil. apply (cs_end _ _ _ C).
  - destruct (proj1 (bytes_app _ _ _ _) (cs_bytes _ _ _ C)) as [B1 _]. split; [|split].
    + eapply bytes_frame; [|exact B1]. intros i Hi. rewrite load8_store8. now replace (_ =? _) with false by lia.
    + now rewrite load8_store8, Z.eqb_refl.
    + pose proof (cstr_drop m q _ (S (length w)) C) as D. rewrite length_app in D. cbn [length] in D. specialize (D ltac:(lia)).
      rewrite drop_app, drop_ge, app_nil_l in D by lia. replace (S (length w) - length w)%nat with 1%nat in D by lia. cbn [drop] in D.
      replace (q + Z.of_nat (S (length w))) with (q + Z.of_nat (length w) + 1) in D by lia.
      eapply cstr_frame; [exact D|]. intros a Ha. rewrite load8_store8. now replace (_ =? _) with false by lia.
Qed.

(** The loop turns the spaces into NULs. *)
Lemma cut_loop r : forall m q, cstr m space [32] -> words r -> 0 < q -> cstr m q (join 32 r) ->
  Z.of_nat (length (join 32 r)) < 2 ^ 32 -> disjoint q (Z.of_nat (length (join 32 r)) + 1) space 2 ->
  exists m' p', loop cut_step (S (length r)) (m, q) = Ret (m', p') /\ bytes m' q (join 0 r) /\
    load8 m' (q + Z.of_nat (length (join 32 r))) = 0 /\
    forall a, a < q \/ q + Z.of_nat (length (join 32 r)) <= a -> load8 m' a = load8 m a.
Proof.
  induction r as [|w r IH]; intros m q Sp Ws Hq C N Dj; rewrite loop_S; unfold cut_step at 2; cbv beta iota.
  - exists m, q. assert (E : strtok m 0 space q = Ret (0, q, m)).
    { unfold strtok, strtok_r. apply cstr_nil in C. change (0 =? 0) with true. cbv iota zeta. rewrite C. cbn [andb]. now rewrite orb_true_r. }
    rewrite E, bind_ret. split_and!; [reflexivity|apply bytes_nil|apply (cs_end _ _ _ C)|auto].
  - rewrite (strtok_word m 0 q q w r Sp eq_refl Hq Ws C N), bind_ret. replace (q =? 0) with false by lia. rewrite bind_ret. cbv iota.
    destruct (join_cstr m q w r C Ws) as (Bw & Nw & Cr). cbv zeta in *.
    set (m1 := if r is [] then m else _) in *. set (q1 := q + _ + _) in *. set (n := Z.of_nat (length w)) in *.
    assert (L : Z.of_nat (length (join 32 (w :: r))) = q1 - q + Z.of_nat (length (join 32 r)) /\ q1 = q + n + (if r is [] then 0 else 1)).
    { unfold q1, n. cbn [join]. rewrite length_app. destruct r; cbn [length join]; split; lia. }
    destruct L as [L Eq1]. unfold disjoint in Dj. assert (q <= q + n <= q1) by (destruct r; lia).
    assert (F1 : forall a, a < q \/ q + Z.of_nat (length (join 32 (w :: r))) <= a -> load8 m1 a = load8 m a).
    { intros a Ha. unfold m1. destruct r; [reflexivity|]. rewrite load8_store8. now replace (_ =? _) with false by lia. }
    assert (Wr : words r) by (now apply Forall_cons in Ws).
    destruct (IH m1 q1) as (m' & p' & E & B & Z0 & Fr); auto; try lia.
    + eapply cstr_frame; [exact Sp|]. cbn [length]. intros a Ha. apply F1. lia.
    + unfold disjoint. lia.
    + exists m', p'. split; [exact E|]. split; [|split].
      * cbn [join]. apply bytes_app. split.
        -- eapply bytes_frame; [|exact Bw]. intros i Hi. apply Fr. lia.
        -- destruct r as [|v r]; [apply bytes_nil|]. apply bytes_cons. fold n. split; [rewrite Fr by lia; exact Nw|].
           now replace (q + n + 1) with q1 by lia.
      * replace (q + _) with (q1 + Z.of_nat (length (join 32 r))) by lia. exact Z0.
      * intros a Ha. rewrite Fr by lia. apply F1. lia.
Qed.

Lemma text_join m p ws : ws <> [] -> bytes m p (join 0 ws) -> load8 m (p + Z.of_nat (length (join 32 ws))) = 0 ->
  load8 m (p + Z.of_nat (length (join 32 ws)) + 1) = 0 -> bytes m p (Create.text ws).
Proof.
  intros N B Z0 Z1. unfold Create.text. destruct ws as [|w ws]; [done|]. rewrite join_body, <- app_assoc by done.
  apply bytes_app. split; [exact B|]. rewrite join_length. apply bytes_cons. split; [exact Z0|]. apply bytes_cons. split; [exact Z1|apply bytes_nil].
Qed.

Lemma isprint_range c : isprint c = true -> 32 <= c <= 126.
Proof. unfold isprint. lia. Qed.

Lemma line_printable ws : words ws -> Forall (fun c => isprint c = true) (join 32 ws).
Proof.
  induction 1 as [|w ws [_ Hw] _ IH]; cbn [join]; [constructor|]. apply Forall_app. split.
  - eapply Forall_impl; [exact Hw|]. now intros c [].
  - destruct ws; [constructor|]. now constructor.
Qed.

Lemma typing_line l k : Forall (fun c => isprint c = true) l -> foldl edit k l = k ++ l.
Proof.
  revert k. induction l as [|c l IH]; intros k F; cbn [foldl]; [now rewrite app_nil_r|].
  apply Forall_cons in F as [Fc F]. pose proof (isprint_range c Fc). rewrite IH by exact F. unfold edit. rewrite Fc.
  replace (c =? 8) with false by lia. now rewrite <- app_assoc.
Qed.

Definition echoed (l : list Z) (k : K) : K := foldl (fun k c => say (Echo c) k) k l.

Lemma typing_echo l s s' : Forall (fun c => isprint c = true) l -> typed l s = Ret (inl s') -> kernel s' = echoed l (kernel s).
Proof.
  revert s. induction l as [|c l IH]; intros s F; cbn [typed]; [now intros [= <-]|].
  apply Forall_cons in F as [Fc F]. pose proof (isprint_range c Fc). unfold press. rewrite Fc.
  replace (c =? 10) with false by lia. replace (c =? 8) with false by lia. rewrite bind_ret. cbv iota. intros E. now rewrite (IH _ F E).
Qed.

Lemma typed_app l k s : typed (l ++ k) s = (r ← typed l s; match r with inl s => typed k s | inr r => Ret (inr r) end).
Proof.
  revert s. induction l as [|c l IH]; intros s; cbn [app typed]; [now rewrite bind_ret|].
  destruct (press c s) as [[s1|r]| | |]; cbn; auto.
Qed.

(** process_prompt's preparation of the array. *)
Lemma prompt_ok s w r : words (w :: r) -> let line := join 32 (w :: r) in
  cstr (ram s) buffer line -> load8 (ram s) (buffer + Z.of_nat (length line) + 1) = 0 ->
  0 < buffer -> Z.of_nat (length line) < 4000 -> cstr (ram s) space [32] -> cstr (ram s) exit_word [101; 120; 105; 116] -> w <> [101; 120; 105; 116] ->
  disjoint buffer 4000 space 2 -> disjoint buffer 4000 exit_word 5 ->
  exists m p, bytes m buffer (Create.text (w :: r)) /\
    (forall a, a < buffer \/ buffer + Z.of_nat (length line) <= a -> load8 m a = load8 (ram s) a) /\
    process_prompt s =
      ('(fd, k) ← sys_open (kernel s) m buffer;
       if 0 <=? fd then
         '(ret, k) ← sys_spawn (sys_close k fd) m buffer buffer envs;
         Ret (false, tell (Exited buffer ret) (set_kernel k (set_ram m p s)))
       else Ret (false, tell (NotFound buffer) (set_kernel k (set_ram m p s)))).
Proof.
  intros Ws line C Z1 Hb N Sp Ex Ne D1 D2. unfold disjoint in D1, D2.
  destruct (join_cstr _ _ w r C Ws) as (Bw & Nw & Cr). cbv zeta in Bw, Nw, Cr.
  unfold process_prompt. rewrite (strtok_word (ram s) buffer (position s) buffer w r Sp) by (first [assumption|lia|change (Z.of_nat (length line) < 2 ^ 32); lia|now replace (buffer =? 0) with false by lia]).
  rewrite bind_ret. replace (buffer =? 0) with false by lia.
  set (m1 := if r is [] then ram s else _) in *. set (q1 := buffer + Z.of_nat (length w) + (if r is [] then 0 else 1)) in *. set (n := Z.of_nat (length w)) in *.
  assert (L : Z.of_nat (length line) = q1 - buffer + Z.of_nat (length (join 32 r)) /\ q1 = buffer + n + (if r is [] then 0 else 1)).
  { unfold q1, n, line. cbn [join]. rewrite length_app. destruct r; cbn [length join]; split; lia. }
  destruct L as [L Eq1]. assert (buffer <= buffer + n <= q1) by (destruct r; lia).
  assert (F1 : forall a, a < buffer \/ buffer + Z.of_nat (length line) <= a -> load8 m1 a = load8 (ram s) a).
  { intros a Ha. unfold m1. destruct r; [reflexivity|]. rewrite load8_store8. now replace (_ =? _) with false by lia. }
  assert (Tw : text w).
  { apply Forall_cons in Ws as [[_ Fw] _]. eapply Forall_impl; [exact Fw|]. intros c [Pc _]. apply isprint_range in Pc. lia. }
  assert (Cw : cstr m1 buffer w) by (split; [exact Tw|exact Bw|exact Nw]).
  assert (Ex1 : cstr m1 exit_word [101; 120; 105; 116]) by (eapply cstr_frame; [exact Ex|]; cbn [length]; intros a Ha; apply F1; lia).
  assert (Sp1 : cstr m1 space [32]) by (eapply cstr_frame; [exact Sp|]; cbn [length]; intros a Ha; apply F1; lia).
  rewrite (strcmp_diff m1 buffer exit_word w _ Cw Ex1) by (cbn; lia). rewrite bind_ret.
  assert (Df : str_diff w [101; 120; 105; 116] <> 0) by (intros E; apply Ne, (str_diff_eq _ _ Tw (cs_text _ _ _ Ex)), E).
  replace (str_diff w _ =? 0) with false by lia.
  assert (Wr : words r) by (now apply Forall_cons in Ws).
  destruct (cut_loop r m1 q1 Sp1 Wr ltac:(lia) Cr ltac:(lia)) as (m' & p' & E & B & Z0 & Fr); [unfold disjoint; lia|].
  assert (Lr : (length (join 32 r) >= length r)%nat).
  { clear - Wr. induction Wr as [|v r [Nv _] Wr IH]; cbn [join length]; [lia|]. rewrite length_app. destruct v; [done|]. destruct r; cbn [length] in *; lia. }
  rewrite (while_loop cut_step (S (length r)) (m1, q1) (Ret (m', p')) E) by (discriminate || lia). rewrite bind_ret.
  exists m', p'. split; [|split; [|reflexivity]].
  - apply text_join; [done|..].
    + cbn [join]. apply bytes_app. split.
      * eapply bytes_frame; [|exact Bw]. intros i Hi. apply Fr. lia.
      * destruct r as [|v r]; [apply bytes_nil|]. apply bytes_cons. fold n. split; [rewrite Fr by lia; exact Nw|].
        now replace (buffer + n + 1) with q1 by lia.
    + fold line. replace (buffer + Z.of_nat (length line)) with (q1 + Z.of_nat (length (join 32 r))) by lia. exact Z0.
    + fold line. rewrite Fr, F1 by lia. exact Z1.
  - intros a Ha. rewrite Fr by lia. apply F1. lia.
Qed.

(** C30: a command line reaches the kernel as its words.  On an array that is
    zero where the line ends, typing words with single spaces between them and
    a newline makes the shell call syscall_open on the first word and, if that
    succeeds, close the descriptor and call syscall_spawn with the first word
    as the program and, as its arguments, exactly the words, each terminated
    and the empty string after the last: the layout process_new reads.  Every
    key is echoed before, the outcome and a new prompt are printed after, the
    line is empty again, and the loop goes on. *)
Theorem command_line_spawns (s : shell K) (w : list Z) (r : list (list Z)) (fd ret : Z) (k1 k2 : K) :
  let line := join 32 (w :: r) in
  words (w :: r) -> w <> [101; 120; 105; 116] -> Z.of_nat (length line) < 4000 -> 0 < buffer ->
  buffer_ptr s = 0 -> load8 (ram s) (buffer + Z.of_nat (length line) + 1) = 0 ->
  cstr (ram s) space [32] -> cstr (ram s) exit_word [101; 120; 105; 116] ->
  disjoint buffer 4000 space 2 -> disjoint buffer 4000 exit_word 5 ->
  (forall m, bytes m buffer (Create.text (w :: r)) ->
     sys_open (say (Echo 10) (echoed line (kernel s))) m buffer = Ret (fd, k1) /\
     sys_spawn (sys_close k1 fd) m buffer buffer envs = Ret (ret, k2)) ->
  0 <= fd ->
  exists s', typed (line ++ [10]) s = Ret (inl s') /\ bytes (ram s') buffer (Create.text (w :: r)) /\
    kernel s' = say Prompt (say (Exited buffer ret) k2) /\ buffer_ptr s' = 0.
Proof.
  intros line Ws Ne N Hb P Z1 Sp Ex D1 D2 Calls Hfd.
  pose proof (line_printable _ Ws) as Pr. fold line in Pr.
  destruct (typing_ok line s []) as (s1 & E1 & B1 & P1 & Q1 & X1 & F1); [|apply bytes_nil|exact P|cbn [length]; lia|].
  { eapply Forall_impl; [exact Pr|]. intros c Hc. apply isprint_range in Hc. lia. }
  pose proof (typing_echo line s s1 Pr E1) as K1. rewrite typing_line in B1, P1 by exact Pr. cbn [app length] in B1, P1, F1.
  rewrite typed_app, E1, bind_ret. cbn [typed]. unfold press. change (10 =? 10) with true. cbv iota zeta.
  set (s2 := tell (Echo 10) s1). change (buffer_ptr s2) with (buffer_ptr s1). change (ram s2) with (ram s1). rewrite P1.
  assert (Hl : 0 < Z.of_nat (length line)).
  { unfold line. cbn [join]. rewrite length_app. apply Forall_cons in Ws as [[Nw _] _]. destruct w; [done|]. cbn [length]. lia. }
  replace (0 <? Z.of_nat (length line)) with true by lia.
  set (m3 := store8 (ram s1) (buffer + Z.of_nat (length line)) 0). set (s3 := set_ram m3 (position s2) s2).
  unfold disjoint in D1, D2.
  assert (F3 : forall a, a < buffer \/ buffer + Z.of_nat (length line) < a -> load8 (ram s3) a = load8 (ram s) a).
  { intros a Ha. change (ram s3) with m3. unfold m3. rewrite load8_store8. replace (_ =? a) with false by lia. apply F1. lia. }
  destruct (prompt_ok s3 w r Ws) as (m & p & Bt & Fr & E); auto.
  - split; [eapply Forall_impl; [exact Pr|]; intros c Hc; apply isprint_range in Hc; lia| |].
    + eapply bytes_frame; [|exact B1]. intros i Hi. change (ram s3) with m3. unfold m3. rewrite load8_store8. now replace (_ =? _) with false by (fold line in Hi; lia).
    + change (ram s3) with m3. unfold m3. fold line. now rewrite load8_store8, Z.eqb_refl.
  - fold line. rewrite F3 by lia. exact Z1.
  - eapply cstr_frame; [exact Sp|]. cbn [length]. intros a Ha. apply F3. lia.
  - eapply cstr_frame; [exact Ex|]. cbn [length]. intros a Ha. apply F3. lia.
  - change (kernel s3) with (say (Echo 10) (kernel s1)) in E. rewrite K1 in E. destruct (Calls m Bt) as [Co Cs].
    rewrite Co in E. rewrite bind_ret in E. replace (0 <=? fd) with true in E by lia. rewrite Cs, bind_ret in E. rewrite E, bind_ret.
    rewrite bind_ret. eexists. split; [reflexivity|]. split_and!; [exact Bt|reflexivity..].
Qed.

(** Nothing bounds the line: the character typed on a line of [BUFFER_SIZE]
    characters is stored past the end of the array. *)
Theorem long_line_overruns (s : shell K) (l : list Z) (c : Z) :
  Forall (fun c => isprint c = true) (l ++ [c]) -> Z.of_nat (length l) = BUFFER_SIZE -> buffer_ptr s = 0 ->
  exists s', typed (l ++ [c]) s = Ret (inl s') /\ load8 (ram s') (buffer + BUFFER_SIZE) = c.
Proof.
  unfold BUFFER_SIZE. intros F N P. destruct (typing_ok (l ++ [c]) s []) as (s1 & E1 & B1 & _).
  - eapply Forall_impl; [exact F|]. intros x Hx. apply isprint_range in Hx. lia.
  - apply bytes_nil.
  - exact P.
  - rewrite length_app. cbn [length]. lia.
  - exists s1. split; [exact E1|]. rewrite typing_line in B1 by exact F. rewrite <- N. apply (B1 (length l)). cbn [app]. now apply list_lookup_middle.
Qed.
End shell.

(** ** A kernel that records what is spawned *)

(** The bytes up to the empty string, as process_new reads them. *)
Fixpoint block (m : mem) (a : Z) (n : nat) : list Z :=
  match n with
  | O => []
  | S n' => if (load8 m a =? 0) && (load8 m (a + 1) =? 0) then [0; 0] else load8 m a :: block m (a + 1) n'
  end.
Definition record_spawn (k : list (list Z)) (m : mem) (args : Z) : list (list Z) := k ++ [block m args 40].

#[export] Instance recorder : Kernel (list (list Z)) := {
  sys_open k _ _ := Ret (3, k);
  sys_close k _ := k;
  sys_spawn k m _ args _ := Ret (0, record_spawn k m args);
  say _ k := k;
}.

Definition literals : mem := put (put ∅ 100 [101; 120; 105; 116; 0]) 110 [32; 0].
Definition fresh : shell (list (list Z)) := Shell literals 0 0 0 [].
Definition session (keys : list Z) : outcome (list (list Z)) :=
  r ← typed 1000 100 110 0 keys fresh; Ret (match r with inl s => kernel s | inr (_, s) => kernel s end).

(** [ls a], one space: the two words and the empty string. *)
Example one_space : session [108; 115; 32; 97; 10] = Ret [[108; 115; 0; 97; 0; 0]].
Proof. vm_compute. reflexivity. Qed.

(** Two spaces: only the first is replaced, and the second word the program
    gets is [" a"]. *)
Example two_spaces : session [108; 115; 32; 32; 97; 10] = Ret [[108; 115; 0; 32; 97; 0; 0]].
Proof. vm_compute. reflexivity. Qed.

(** [echo ab c], then [ls]: the second program gets [ls], [o], [ab] and [c],
    what is left of the first line. *)
Example stale_words : session [101; 99; 104; 111; 32; 97; 98; 32; 99; 10; 108; 115; 10] =
  Ret [[101; 99; 104; 111; 0; 97; 98; 0; 99; 0; 0]; [108; 115; 0; 111; 0; 97; 98; 0; 99; 0; 0]].
Proof. vm_compute. reflexivity. Qed.

(** A line of spaces makes strtok return NULL, which strcmp reads. *)
Example blank_line : session [32; 10] = Fault.
Proof. vm_compute. reflexivity. Qed.

(** [exit 7] returns 7. *)
Example exits : (r ← typed 1000 100 110 0 [101; 120; 105; 116; 32; 55; 10] fresh; Ret (match r with inr (c, _) => Some c | _ => None end)) = Ret (Some 7).
Proof. vm_compute. reflexivity. Qed.

Lemma command_line_spawns_witness : exists s', typed 1000 100 110 0 [108; 115; 32; 97; 10] fresh = Ret (inl s') /\ buffer_ptr s' = 0.
Proof.
  destruct (command_line_spawns 1000 100 110 0 fresh [108; 115] [[97]] 3 0 [] [[108; 115; 0; 97; 0; 0]]) as (s' & E & _ & _ & P).
  - repeat constructor; discriminate.
  - discriminate.
  - reflexivity.
  - reflexivity.
  - reflexivity.
  - vm_compute. reflexivity.
  - apply cstrb_sound. vm_compute. reflexivity.
  - apply cstrb_sound. vm_compute. reflexivity.
  - unfold disjoint. lia.
  - unfold disjoint. lia.
  - intros m B. split; [reflexivity|]. unfold sys_spawn, recorder, record_spawn. cbn [app]. do 3 f_equal.
    assert (L : forall i, (i < 6)%nat -> load8 m (1000 + Z.of_nat i) = nth i [108; 115; 0; 97; 0; 0] 0)
      by (intros i Hi; apply B; do 6 (destruct i as [|i]; [reflexivity|]); lia).
    pose proof (L 0%nat ltac:(lia) : load8 m 1000 = 108) as L0. pose proof (L 1%nat ltac:(lia) : load8 m 1001 = 115) as L1.
    pose proof (L 2%nat ltac:(lia) : load8 m 1002 = 0) as L2. pose proof (L 3%nat ltac:(lia) : load8 m 1003 = 97) as L3.
    pose proof (L 4%nat ltac:(lia) : load8 m 1004 = 0) as L4. pose proof (L 5%nat ltac:(lia) : load8 m 1005 = 0) as L5.
    clear L B. cbn [block]. revert L0 L1 L2 L3 L4 L5. generalize (load8 m). intros f L0 L1 L2 L3 L4 L5. cbv.
    rewrite L0, L1, L2, L3, L4, L5. reflexivity.
  - discriminate.
  - exists s'. split; [exact E|exact P].
Defined.
