(* ===== verification/Programs.v ===== *)
(** * Programs around the kernel's standard files (coreutils/echo.c,
    kernel/src/kproc)

    [echo_main] is echo, over its arguments and environment in memory; what it
    prints is the result.  [kproc_stdout] and [kproc_stdin] are one round each of
    the two kernel processes that move characters between the drivers and the
    pipes /dev/stdout and /dev/stdin; the system calls and the drivers are an
    interface ([Console]), with the laws of a queue of bytes. *)
From S2P Require Import Prelude Mem CString CStdlib.
From S2P Require CStdio Shell.

(** ** echo *)

(** printf("%s", p): vdprintf's branch for a string. *)
Definition printed (m : mem) (p : Z) : outcome (list Z) :=
  if p =? 0 then Ret CStdio.null_text
  else len ← strlen m p; Ret (map (fun i => load8 m (p + i)) (seqZ 0 len)).

(** [environment] is the C library's environment_pointer. *)
Definition print_token (m : mem) (environment argv idx : Z) : outcome (list Z) :=
  let arg := load32 m (argv + 4 * idx) in
  if negb (load8 m arg =? 36) then printed m arg
  else value ← getenv m environment (arg + 1); printed m value.

Definition echo_main (m : mem) (environment argc argv : Z) : outcome (list Z) :=
  if argc =? 1 then Ret []
  else
    out ← (if 3 <=? argc then
             for_each (fun i out => tok ← print_token m environment argv i; Ret (out ++ tok ++ [32])) 1 (Z.to_nat (argc - 2)) []
           else Ret []);
    last ← print_token m environment argv (argc - 1);
    Ret (out ++ last ++ [10]).

(** What an argument stands for: itself, or the value of a variable. *)
Inductive stands_for (m : mem) (envs : list (list Z)) (p : Z) : list Z -> Prop :=
  | stands_plain w : cstr m p w -> head w <> Some 36 -> Z.of_nat (length w) < 2 ^ 32 -> stands_for m envs p w
  | stands_variable name : cstr m p (36 :: name) -> Z.of_nat (length name) < 2 ^ 32 ->
      Z.of_nat (length (default [] (lookup_env name envs))) < 2 ^ 32 ->
      stands_for m envs p (default CStdio.null_text (lookup_env name envs)).

Lemma map_bytes m p l : bytes m p l -> map (fun i => load8 m (p + i)) (seqZ 0 (Z.of_nat (length l))) = l.
Proof.
  intros B. apply list_eq. intros i. change (map ?f ?x) with (f <$> x). rewrite list_lookup_fmap.
  destruct (decide (i < length l)%nat) as [L|L].
  - rewrite lookup_seqZ_lt by lia. cbn [fmap option_fmap option_map]. destruct (lookup_lt_is_Some_2 l i L) as [b Hb].
    rewrite Hb. f_equal. rewrite Z.add_0_l. now apply B.
  - rewrite lookup_seqZ_ge by lia. now rewrite lookup_ge_None_2 by lia.
Qed.

Lemma printed_string m p l : p <> 0 -> cstr m p l -> Z.of_nat (length l) < 2 ^ 32 -> printed m p = Ret l.
Proof.
  intros N C L. unfold printed. replace (p =? 0) with false by lia. rewrite (strlen_spec m p l C L), bind_ret.
  f_equal. apply map_bytes, C.
Qed.

Lemma print_token_ok m environment envs argv i p v : environ m environment envs -> environment <> 0 ->
  Z.of_nat (length envs) < 2 ^ 32 -> load32 m (argv + 4 * i) = p -> 0 < p -> stands_for m envs p v ->
  print_token m environment argv i = Ret v.
Proof.
  intros Ev Ne Le Ep Hp S. unfold print_token. rewrite Ep. cbv zeta. destruct S as [w C Hd L|name C L Lv].
  - assert (H36 : load8 m p <> 36).
    { destruct w as [|c w]; [apply cstr_nil in C; lia|]. apply cstr_cons in C as (_ & -> & _). cbn in Hd. congruence. }
    replace (load8 m p =? 36) with false by lia. cbn [negb]. apply printed_string; auto. lia.
  - apply cstr_cons in C as (_ & Ec & C). rewrite Ec. change (36 =? 36) with true. cbn [negb].
    pose proof (getenv_spec m environment (p + 1) name envs Ev C Ne ltac:(lia) L Le) as G.
    destruct (lookup_env name envs) as [v|]; cbn [default] in *.
    + destruct G as (q & -> & Hq & Cq). rewrite bind_ret. apply printed_string; auto. lia.
    + rewrite G, bind_ret. reflexivity.
Qed.

Lemma join_snoc c vs v : Shell.join c (vs ++ [v]) = concat (map (fun v => v ++ [c]) vs) ++ v.
Proof.
  induction vs as [|w vs IH]; cbn [app Shell.join map concat]; [now rewrite app_nil_r|].
  destruct (vs ++ [v]) eqn:E; [destruct vs; discriminate|]. rewrite IH, <- !app_assoc. reflexivity.
Qed.

(** C31: echo prints its arguments.  Whatever they are, variables of the
    environment included, it prints what they stand for, a space between two and a
    newline at the end, and nothing at all when there is none; an unknown variable
    prints as (null). *)
Theorem echo_prints (m : mem) (environment argv : Z) (envs : list (list Z)) (ps : list Z) (vs : list (list Z)) :
  environ m environment envs -> environment <> 0 -> Z.of_nat (length envs) < 2 ^ 32 ->
  (forall i p, ps !! i = Some p -> load32 m (argv + 4 * (Z.of_nat i + 1)) = p /\ 0 < p) ->
  Forall2 (stands_for m envs) ps vs -> Z.of_nat (length ps) < 2 ^ 31 ->
  echo_main m environment (Z.of_nat (length ps) + 1) argv = Ret (if vs is [] then [] else Shell.join 32 vs ++ [10]).
Proof.
  intros Ev Ne Le Args F L. unfold echo_main. pose proof (Forall2_length _ _ _ F) as Len.
  destruct (decide (vs = [])) as [->|Nv]; [destruct ps; [reflexivity|discriminate]|].
  destruct (exists_last Nv) as (vs' & v & ->). rewrite length_app in Len. cbn [length] in Len.
  assert (Tok : forall i w, (vs' ++ [v]) !! i = Some w -> print_token m environment argv (Z.of_nat i + 1) = Ret w).
  { intros i w Hw. destruct (Forall2_lookup_r _ _ _ _ _ F Hw) as (p & Hp & S). destruct (Args _ _ Hp) as [Ep Pp].
    now apply (print_token_ok m environment envs argv _ p). }
  replace (Z.of_nat (length ps) + 1 =? 1) with false by lia.
  set (body := fun i out => _).
  assert (E : for_each body 1 (length vs') [] = Ret (concat (map (fun v => v ++ [32]) vs'))).
  { destruct (for_each_inv body (fun j out => out = concat (map (fun v => v ++ [32]) (take (Z.to_nat (j - 1)) vs'))) 1 (length vs') []) as (out & E & ->).
    - reflexivity.
    - intros j out Hj ->. destruct (lookup_lt_is_Some_2 vs' (Z.to_nat (j - 1)) ltac:(lia)) as [w Hw].
      assert (Tj : print_token m environment argv j = Ret w).
      { replace j with (Z.of_nat (Z.to_nat (j - 1)) + 1) by lia. apply Tok. now apply lookup_app_l_Some. }
      unfold body. rewrite Tj, bind_ret. eexists. split; [reflexivity|].
      replace (Z.to_nat (j + 1 - 1)) with (S (Z.to_nat (j - 1))) by lia.
      rewrite (take_S_r _ _ w Hw), map_app, concat_app. cbn [map concat]. now rewrite app_nil_r.
    - rewrite E. now rewrite take_ge by lia. }
  assert (E2 : (if 3 <=? Z.of_nat (length ps) + 1 then for_each body 1 (Z.to_nat (Z.of_nat (length ps) + 1 - 2)) [] else Ret []) =
    Ret (concat (map (fun v => v ++ [32]) vs'))).
  { destruct (Z.leb_spec 3 (Z.of_nat (length ps) + 1)).
    - now replace (Z.to_nat (Z.of_nat (length ps) + 1 - 2)) with (length vs') by lia.
    - destruct vs'; [reflexivity|cbn [length] in Len; lia]. }
  rewrite E2, bind_ret. replace (Z.of_nat (length ps) + 1 - 1) with (Z.of_nat (length vs') + 1) by lia.
  rewrite (Tok (length vs') v (list_lookup_middle vs' [] v _ eq_refl)), bind_ret, join_snoc, <- app_assoc.
  destruct (vs' ++ [v]) eqn:K; [destruct vs'; discriminate|reflexivity].
Qed.

(** ** The kernel processes

    What they need of the rest: reading /dev/stdout (the size or an error, and the
    bytes), printing a string on the console, waiting for a key (its character and
    whether it was released), writing to /dev/stdin.  [waiting] is what is in the
    pipe, [screen] what has been printed. *)
Class Console (K : Type) := {
  read_stdout : K -> Z -> outcome (Z * list Z * K);
  video_prints : list Z -> K -> K;
  kbd_wait_key : K -> outcome (Z * bool * K);
  write_stdin : list Z -> K -> outcome K;
  waiting : K -> list Z;
  screen : K -> list Z;
  read_takes : forall k (n : nat), (0 < n)%nat -> waiting k <> [] -> exists k',
    read_stdout k (Z.of_nat n) = Ret (Z.of_nat (length (take n (waiting k))), take n (waiting k), k') /\
    waiting k' = drop n (waiting k) /\ screen k' = screen k;
  prints_adds : forall l k, screen (video_prints l k) = screen k ++ l /\ waiting (video_prints l k) = waiting k;
}.

(** A string in an array: the bytes before the first NUL. *)
Fixpoint c_text (l : list Z) : list Z :=
  match l with [] => [] | c :: l => if c =? 0 then [] else c :: c_text l end.

Section kprocs.
Context {K : Type} `{Console K}.

(** The array has 512 bytes; the last one is for the NUL. *)
Definition kproc_stdout (k : K) : outcome K :=
  '(size, data, k) ← read_stdout k 511;
  if 0 <? size then Ret (video_prints (c_text (take (Z.to_nat size) data ++ [0])) k) else Ret k.

Definition kproc_stdin (k : K) : outcome K :=
  '(mapped, released, k) ← kbd_wait_key k;
  if negb released then write_stdin [mapped] k else Ret k.

Fixpoint rounds (n : nat) (k : K) : outcome K :=
  match n with O => Ret k | S n' => k ← kproc_stdout k; rounds n' k end.

Lemma c_text_all l : Forall (fun c => c <> 0) l -> c_text (l ++ [0]) = l.
Proof. induction 1 as [|c l Hc F IH]; cbn; [reflexivity|]. replace (c =? 0) with false by lia. now f_equal. Qed.

(** What programs have printed reaches the screen, in order and completely, in as
    many rounds as there are blocks of 511 bytes, when there are no NULs in it. *)
Theorem stdout_drains (n : nat) (k : K) :
  Forall (fun c => c <> 0) (waiting k) -> (length (waiting k) <= 511 * n)%nat -> (511 * n < length (waiting k) + 511)%nat ->
  exists k', rounds n k = Ret k' /\ waiting k' = [] /\ screen k' = screen k ++ waiting k.
Proof.
  revert k. induction n as [|n IH]; intros k F L1 L2; cbn [rounds].
  - exists k. destruct (waiting k); [|cbn in L1; lia]. now rewrite app_nil_r.
  - assert (Ne : waiting k <> []) by (intros E; rewrite E in L2; cbn [length] in L2; lia).
    destruct (read_takes k 511 ltac:(lia) Ne) as (k1 & E & W & Sc). unfold kproc_stdout. change 511 with (Z.of_nat 511). rewrite E, bind_ret.
    assert (Lt : (0 < length (take 511 (waiting k)))%nat) by (rewrite length_take; destruct (waiting k); [done|cbn [length]; lia]).
    replace (0 <? Z.of_nat _) with true by lia. rewrite bind_ret, Nat2Z.id, (take_ge (take 511 _)) by lia.
    rewrite c_text_all by now apply Forall_take. destruct (prints_adds (take 511 (waiting k)) k1) as [P1 P2].
    set (k2 := video_prints _ k1) in *. rewrite W in P2.
    destruct (IH k2) as (k' & E' & W' & S'); rewrite ?P2, ?length_drop; [now apply Forall_drop|lia|lia|].
    exists k'. split; [exact E'|]. split; [exact W'|]. rewrite S', P1, P2, Sc, <- app_assoc. now rewrite take_drop.
Qed.
End kprocs.

(** ** Runs *)

Module Runs.
(** A pipe and a screen, no keyboard. *)
Definition pair : Type := list Z * list Z.
#[export] Program Instance pair_console : Console pair := {
  read_stdout k n := Ret (Z.of_nat (length (take (Z.to_nat n) k.1)), take (Z.to_nat n) k.1, (drop (Z.to_nat n) k.1, k.2));
  video_prints l k := (k.1, k.2 ++ l);
  kbd_wait_key _ := Spin;
  write_stdin _ k := Ret k;
  waiting k := k.1;
  screen k := k.2;
}.
Next Obligation. intros [w s] n Hn Hw. rewrite Nat2Z.id. eexists. split; [reflexivity|]. now split. Qed.
Next Obligation. intros l [w s]. now split. Qed.

Lemma stdout_drains_witness : exists k', rounds 2 (replicate 600 97, []) = Ret k' /\ screen k' = replicate 600 97.
Proof.
  destruct (stdout_drains 2 (replicate 600 97, [])) as (k' & E & _ & S); [apply Forall_replicate; discriminate|by_eval|by_eval|].
  exists k'. split; [exact E|exact S].
Defined.

(** What follows a NUL in the same block is not printed. *)
Example nul_cuts : rounds 1 ([97; 0; 98], []) = Ret ([], [97]).
Proof. reflexivity. Qed.

(** echo hi $A $B, where A is yz. *)
Definition echo_mem : mem :=
  put (put (put (put (put (store32 (store32 (store32 (store32 (store32 ∅ 0x104 0x200) 0x108 0x210) 0x10c 0x220) 0x300 0x310) 0x304 0)
    0x200 [104; 105; 0]) 0x210 [36; 65; 0]) 0x220 [36; 66; 0]) 0x310 [65; 61; 121; 122; 0]) 0x400 [].

Lemma echo_prints_witness : echo_main echo_mem 0x300 4 0x100 =
  Ret [104; 105; 32; 121; 122; 32; 40; 110; 117; 108; 108; 41; 10].
Proof.
  apply (echo_prints echo_mem 0x300 0x100 [[65; 61; 121; 122]] [0x200; 0x210; 0x220] [[104; 105]; [121; 122]; CStdio.null_text]).
  - apply environ_entry; [by_eval|apply cstrb_sound; by_eval|]. apply environ_end. by_eval.
  - lia.
  - cbn. lia.
  - intros [|[|[|i]]] p [= <-]; (split; [by_eval|lia]).
  - constructor; [|constructor; [|constructor; [|constructor]]].
    + apply stands_plain; [apply cstrb_sound; by_eval|discriminate|cbn; lia].
    + apply (stands_variable _ [[65; 61; 121; 122]] _ [65]); [apply cstrb_sound; by_eval|by_eval|by_eval].
    + apply (stands_variable _ [[65; 61; 121; 122]] _ [66]); [apply cstrb_sound; by_eval|by_eval|by_eval].
  - cbn. lia.
Defined.
End Runs.
